(* ===== verification/_CoqProject ===== *)
-Q . S2P
Prelude.v
PyDatetime.v
Json.v
PyUuid.v
CircuitBreaker.v
RetryPolicy.v
WaitCondition.v
SchedulerCore.v
WaitRegistry.v
SchedulerWaits.v
EventBus.v
ResourceManager.v
SyscallAbi.v
SyscallDispatcher.v
ExecutionUnit.v
FlowEngine.v
FlowFacts.v
FlowSlots.v
FlowWorld.v
FlowPlans.v
Rehydration.v
Resumption.v
RecoveryJobs.v
NodusFlow.v
MemoryAddress.v
Capability.v
BootGraph.v
PyEffects.v
JobQueue.v
RedisQueue.v
QueueModule.v
QueueInterface.v
AsyncJobs.v
Worker.v
JobFacts.v
JobOutcomes.v
Watcher.v
WatcherDelivery.v
Pipeline.v
PipelineFacts.v
AgentFlow.v
AgentRuns.v
AgentSafety.v
AgentDemo.v
AgentPlans.v
AgentAuthority.v
AgentProgress.v
Auth.v
Webhooks.v
Registry.v
RegistryFacts.v
IngestQueue.v
Tasks.v
TaskGraph.v
TaskService.v
TaskFacts.v
TaskOutcomes.v
Lease.v
Schedules.v
