(* ===== verification/Prelude.v ===== *)
(** * A.I.N.D.Y. runtime: verification development

    A.I.N.D.Y. is a multi-tenant runtime in Python (directory [AINDY/]).  Requests
    reach it as system calls; agents and applications run as flows, graphs of nodes
    that can wait for events and be resumed, and as jobs, which go through a queue to
    worker processes.  A kernel schedules the flows by priority and tenant and limits
    what each tenant uses.  This library models the parts that decide what runs, when,
    how often and on whose behalf, and proves what they guarantee.

    ** Parts of the program and the files that model them

    Language and libraries.
    - [Prelude] (this file): values or exceptions ([result]), ordered dictionaries
      ([dict], association lists with distinct keys, as Python keeps insertion order),
      strings, sorting, integers as text, labelled traces and their simulation, the
      hint database and tactics shared by all files.
    - [PyDatetime], [Json], [PyUuid]: the parts of [datetime], [json] and [uuid] that
      the sources use.  [json.loads] inverts [json.dumps] ([Json.loads_dumps]).
    - [PyEffects]: stateful code that may raise, as a monad with a
      weakest-precondition calculus.

    Kernel ([AINDY/kernel/], [AINDY/core/]).
    - [CircuitBreaker] ([kernel/circuit_breaker.py]) and [RetryPolicy]
      ([core/retry_policy.py]): the breaker as a record with its four locked
      sections, all interleavings as a step relation; the retry loop on an arbitrary
      operation.
    - [WaitCondition] ([core/wait_condition.py]), [SchedulerCore]
      ([kernel/scheduler/common.py], [core.py], [dispatch.py]), [WaitRegistry]
      ([kernel/resume_spec.py], [kernel/redis_wait_registry.py]) and
      [SchedulerWaits] ([kernel/scheduler/waits.py], [persistence.py],
      [recovery.py], [cross_instance.py]): the ready queues with the dispatch loop,
      and on top of them the table of waiting runs, the buffer of early events, the
      backup table and the registry in Redis through which instances share waits.
    - [EventBus] ([kernel/event_bus.py]): publishing through Redis, received
      messages, the buffer of the bus and the reconnecting subscriber.
    - [ResourceManager] ([kernel/resource_manager.py]): tenant quotas and usage,
      counted locally or in Redis.
    - [SyscallAbi] ([kernel/syscall_versioning.py], [kernel/syscall_registry.py])
      and [SyscallDispatcher] ([kernel/syscall_dispatcher.py]): names, schemas and
      the versioned registry; the dispatch pipeline, which uses the resource manager.
    - [ExecutionUnit] ([core/execution_unit_service.py]): the life cycle of
      execution units over a database session.

    Flows ([AINDY/runtime/flow_engine/]).
    - [FlowEngine]: starting, claiming, executing, retrying, parking and finishing a
      run, over the resource manager and the execution units.
    - [FlowFacts], [FlowSlots], [FlowWorld], [FlowPlans]: its theorems.
    - [Rehydration] ([core/wait_rehydration.py], [core/flow_run_rehydration.py],
      [core/resume_watchdog.py], the phase of [startup.py]): waits registered again
      after a restart, and the watchdog for missed events.
    - [Resumption]: the callbacks these register, on the flow engine.
    - [RecoveryJobs] ([agents/stuck_run_service.py], [dead_letter_service.py],
      [stuck_run_watchdog.py], [platform_layer/recovery_jobs.py]): stuck runs, dead
      letters and expired waits, with what commits of a shared session store.
    - [NodusFlow] ([runtime/nodus_flow_compiler.py]): scripts that declare steps,
      compiled to flows of the engine.

    Agents ([AINDY/agents/], [AINDY/runtime/]).
    - [Capability] ([agents/capability_service.py]): capability tokens.
    - [AgentFlow] ([runtime/nodus_adapter.py], [agents/tool_registry.py],
      [db/models/agent_run.py]): the tables of runs and steps, the checked call of a
      tool and the three nodes of the agent flow.
    - [AgentRuns] ([agents/agent_runtime/], [runtime/nodus_execution_service.py],
      [agents/agent_coordinator.py]): planning, creation, approval, rejection,
      execution, delegation and replay of runs; execution starts the agent flow in
      [FlowEngine].
    - [AgentPlans], [AgentSafety], [AgentAuthority], [AgentProgress]: their theorems;
      [AgentDemo]: a small concrete system for the witnesses.

    Requests.
    - [Pipeline] ([core/execution_pipeline/], [core/execution_gate.py]): the pipeline
      around request handlers with its events, context variables, execution unit,
      quota, waits and signals; [PipelineFacts]: its theorems.
    - [Auth] ([services/auth_service.py], [platform_layer/api_key_service.py],
      [routes/auth_router.py], [routes/platform/keys_router.py]): users, sessions,
      signing keys and API keys, with the handlers of their routes.

    Registration at run time.
    - [Webhooks] ([platform_layer/event_service.py]): subscriptions to events, their
      delivery by a pool of workers, and the in-process handlers.
    - [Registry] ([platform_layer/node_registry.py], [runtime/flow_registry.py],
      [platform_layer/platform_loader.py]): nodes and flows registered at run time,
      their tables, and the loading of the tables at start-up; the flows are flows of
      [FlowEngine], the subscriptions those of [Webhooks].  [RegistryFacts]: its
      theorems.

    Jobs.
    - [JobQueue], [RedisQueue], [QueueModule] ([core/distributed_queue.py]): the
      payload, the contract of a queue as a transition relation ([spec_step]), the
      two backends, and the selection of the backend.
    - [QueueInterface]: the contract as a class; both backends are instances, and
      the job system is proved against the class alone.
    - [AsyncJobs] ([platform_layer/async_job_service.py],
      [core/execution_dispatcher.py], [db/models/job_log.py]): the job log with the
      uncommitted changes of the open session, submission, execution, retry,
      deferred jobs.
    - [Worker] ([worker/worker_loop.py]): one iteration of the worker, its health
      record and failure window, and the requeueing of dead letters.
    - [JobFacts], [JobOutcomes]: their theorems.

    Other components.
    - [MemoryAddress] ([memory/memory_address_space.py],
      [kernel/tenant_context.py]): memory paths and tenant isolation.
    - [IngestQueue] ([memory/ingest_queue.py]): the bounded queue of memory writes, its
      callers, threads and shutdown as a step relation.
    - [Tasks], [TaskService] ([apps/tasks/]): the tasks of users, the graph of their
      dependencies, and the operations behind a session without autoflush; [TaskGraph],
      [TaskFacts], [TaskOutcomes]: their theorems.  [Lease]: the lease of the background
      tasks between processes.
    - [Schedules] ([runtime/nodus_schedule_service.py]): scripts with a cron expression, the
      scheduler library being a parameter.
    - [Watcher] ([watcher/classifier.py], [watcher/session_tracker.py]) and
      [WatcherDelivery] ([watcher/signal_emitter.py], [watcher/watcher.py],
      [watcher/config.py], [routes/watcher_router.py]): the desktop watcher, from the
      classification of a window to the route that accepts the signals.
    - [BootGraph] ([platform_layer/bootstrap_graph.py],
      [platform_layer/bootstrap_contract.py]): the boot order of applications.

    ** How the code is represented

    Functions keep their names.  A class is a record of its fields and a method a
    function on it; a method that raises returns the state it leaves together with
    the exception, so that partial effects are visible.  Locked sections are atomic
    and threads interleave between them; where a claim depends on the interleaving
    it is a step relation or an explicit sequence of sections.  The clock, fresh
    identifiers and random numbers are arguments.  Times are integers in
    microseconds.  Services outside the sources (Redis, the database driver, SHA-256,
    job handlers, node functions, the event store, the texts of times) are parameters:
    records or classes of operations on an abstract state, with the documented
    behaviour as laws, and every theorem that assumes laws is also applied to a
    concrete service.  Logging, metrics and tracing have no effect on the results and
    are left out; context variables are modelled where code reads them ([Pipeline]).

    ** What the theorems show

    - Scheduling: a schedule cycle terminates for all callbacks
      ([SchedulerWaits.schedule_total]), neither loses nor duplicates an item
      ([SchedulerCore.schedule_conserves]) and serves strictly by priority
      ([dequeue_next_spec]); an event or an elapsed time resumes exactly the runs
      that wait for it ([notify_event_exact], [tick_time_waits_exact]), events that
      arrive during start-up are replayed ([startup_events_replayed]), and of several
      instances at most one resumes a run ([cross_instance_exclusive]).
    - Limits: quotas hold for sequential use ([quota_respected]); a tenant that
      fills its limit with flow runs blocks itself ([saturated_tenant_stuck]).
    - System calls: a successful call passed every guard, a refused one had no
      effect ([dispatch_success_guarded], [dispatch_refused_no_effect]).
    - Flows: the history of a run is a path of its graph with bounded retries
      ([flow_history_path]), runs of acyclic flows end ([acyclic_flow_terminates]),
      linear plans complete ([linear_plan_completes]), a waiting run is claimed once
      ([waiting_run_claimed_once]).  A compiled script executes the steps it declares
      ([script_runs_as_declared]), except a conditional last one
      ([conditional_last_step_never_runs]).
    - Agents: every tool call has the authority of a token and of an approval
      ([agent_tools_authorised]); an approved run whose tools answer completes, each
      step called once and in order ([agent_run_completes]); the risk of a plan
      covers its steps ([plan_risk_covers_steps]) unless a label is unknown
      ([unknown_label_hides_risk]).
    - Requests: the pipeline returns the slot and restores its context on every path
      ([pipeline_leaves_no_trace]), a refused request runs nothing
      ([refused_request_runs_nothing]), and a wait is stored before the answer
      ([wait_signal_stored]); [finished_unit_stays_executing],
      [payload_taken_for_wait] and [started_event_refused] show where it does not do
      what it says.
    - Sessions and keys: exactly the issued, unrevoked and unexpired keys authenticate
      ([api_keys_exact]), and a session lasts until it is ended or a day has passed
      ([session_exact]); the scopes of a key do not limit it
      ([scoped_key_escalates]).
    - Webhooks: every submitted event is posted once to each matching subscription, in
      every interleaving of the workers ([webhooks_delivered]), and the counters of a
      subscription are exact ([webhook_counters_exact]).
    - Registration: a restart restores nodes, flows and subscriptions
      ([restart_restores]), and live flows name registered nodes
      ([live_flows_runnable]); [static_override_lost] and [node_deletion_drops_flow]
      show what it does not keep.
    - Memory writes: an accepted write is processed, in hand or queued
      ([ingest_conserves]), and a shutdown that waits for its thread processes all
      ([shutdown_handles_all]), except a write accepted after it ([late_write_lost]).
    - Tasks: the graph is exact ([task_graph_exact]), the next task is the best one
      ([next_task_best]) and nothing is completed before what it depends on
      ([completed_after_dependencies]); but completion unlocks nothing
      ([completion_unlocks_nothing]), a pause counts time twice
      ([paused_time_counted_twice]) and the units of tasks are lost
      ([task_units_never_stored]).  The lease excludes other instances
      ([lease_exclusive]) as long as nobody relies on a lost one
      ([lease_not_exclusive]).
    - Scheduled scripts: the scheduler refuses the trigger of every script, so none is ever
      run ([scheduled_scripts_never_run]).
    - Watcher: the events of the tracker form sessions ([tracker_refines_protocol],
      [session_needs_sustained_work]); every event is delivered or accounted for
      ([watcher_accounts_events], [watcher_delivers_sessions]); focus time, the
      distraction timeout and large batches are wrong ([focus_time_overcounted],
      [distraction_timed_from_work], [oversized_batch_lost]).
    - Restarts: waiting runs are registered again and early events reach them
      ([flow_rehydration_exact], [restart_loses_no_event]), and their callbacks
      finish the plan ([rehydrated_run_completes]); an event reaches the other
      instances ([event_reaches_peers]) until the bus gives up ([bus_gives_up]).
      [late_event_never_delivered], [restart_hides_missed_events],
      [non_object_message_drops_rest] and [cross_instance_resume_has_no_effect] show
      events that are lost and resumptions without effect.
    - Recovery: the scans change exactly the rows they select ([stuck_scan_exact],
      [wait_expiry_exact]) and leave the others ([recovery_leaves_other_runs]);
      [dead_letter_runs_on] and [failed_events_undo_expiry] show a dead letter that
      is executed and an expiry that is undone.
    - Jobs: both queue backends refine the contract and lose no accepted job
      ([mem_refines_contract], [redis_refines_contract]); a submitted job is run
      and recorded ([submitted_job_completes]); failing jobs back off and stop at
      their budget ([failed_job_backs_off], [retries_stop_at_budget]).  The theorems
      [outage_retries_forever], [success_lost_in_outage],
      [claimed_job_never_recovered], [inline_fallback_hides_failure] and
      [concurrent_recovery_duplicates] show where the job system does not keep what
      its documentation says.
    - Isolation and authority: writes stay in the tenant's part of the memory tree
      ([write_stays_in_tenant]); a minted token grants what the policy allows, and a
      changed token is rejected ([minted_token_scope], [token_tampering_detected]).
    - Boot order: the computed order respects all dependencies, and a cycle is
      reported exactly when there is one ([resolve_boot_order_spec],
      [compute_boot_order_spec], [validate_bootstrap_manifest_spec]).

    ** Fuel

    Loops that are not structural carry fuel.  For the dispatch loop, the flow loop
    and the graph searches a theorem gives an amount that is enough (the number of
    queued items with the per-cycle bound, the length of the longest path times the
    retry limit, the number of applications), so results hold for runs that end, and
    they end.  The JSON parser's fuel is the length of its input.

    ** Not modelled

    HTTP routes other than those for watcher signals, sessions, keys and the deletion
    of subscriptions, middleware, the other phases of start-up and the command line;
    the SDK; database models other than the rows used here; the thread of the event
    bus; the adapters of the execution gate for other results; system-event storage;
    the language model that plans, the ranking of agents and their message bus; the
    memory store with its embeddings and scores; the Nodus interpreter adapter; the
    definitions of the other flows; health and metrics services; the window detectors
    of the watcher; token signatures and password hashes; the applications under
    [apps/] other than tasks and the web client.  They are input and output, third-party code,
    floating-point scoring, or callbacks of the parts above, for which the theorems
    quantify over arbitrary functions. *)

From stdpp Require Export base gmap strings list sorting pretty.
From Stdlib Require Export ZArith Lia.
Export (notations) Stdlib.Strings.Ascii.
From Stdlib Require Import Decimal DecimalString DecimalZ.

Declare Scope aindy_scope.
Delimit Scope aindy_scope with aindy.

(** ** Python results: a value or a raised exception *)

(** An exception is its class name and its message ([str(exc)]). *)
Record exn := Exn { exn_class : string; exn_msg : string }.

Inductive result (A : Type) : Type :=
| Ok (a : A)
| Raise (e : exn).
Arguments Ok {A} a.
Arguments Raise {A} e.

#[export] Instance result_ret : MRet result := fun A a => Ok a.
#[export] Instance result_bind : MBind result := fun A B f m =>
  match m with Ok a => f a | Raise e => Raise e end.
#[export] Instance exn_eq_dec : EqDecision exn.
Proof. solve_decision. Defined.
#[export] Instance result_eq_dec {A} `{!EqDecision A} : EqDecision (result A).
Proof. solve_decision. Defined.

Definition is_ok {A} (r : result A) : bool :=
  match r with Ok _ => true | Raise _ => false end.

(** ** Python truthiness of strings and optional strings *)

(** A non-empty string is truthy. *)
Definition truthy (s : string) : bool :=
  match s with EmptyString => false | _ => true end.

(** [x or None] on an optional string: the empty string is falsy. *)
Definition str_or_none (o : option string) : option string :=
  match o with Some s => if truthy s then Some s else None | None => None end.

(** [x or d] on an optional string. *)
Definition str_or (o : option string) (d : string) : string :=
  match str_or_none o with Some s => s | None => d end.

#[global] Arguments String.eqb : simpl never.
Infix "=s" := String.eqb (at level 70, no associativity) : aindy_scope.
Open Scope aindy_scope.

(** [x in xs] on a list, tuple or set of strings. *)
Definition str_in (s : string) (l : list string) : bool := existsb (String.eqb s) l.

Lemma str_in_spec s l : str_in s l = true <-> s ∈ l.
Proof.
  unfold str_in. rewrite existsb_exists. setoid_rewrite String.eqb_eq.
  setoid_rewrite <- list_elem_of_In. naive_solver.
Qed.

Lemma str_in_false s l : str_in s l = false <-> s ∉ l.
Proof. rewrite <- str_in_spec. destruct (str_in s l); naive_solver. Qed.

Lemma truthy_true s : truthy s = true <-> s <> "".
Proof. destruct s; naive_solver. Qed.

Lemma str_or_none_Some o s : str_or_none o = Some s <-> o = Some s /\ s <> "".
Proof. destruct o as [[|]|]; simpl; naive_solver. Qed.

(** ** Strings *)

(** [s.startswith(p)] *)
Fixpoint startswith (p s : string) : bool :=
  match p, s with
  | EmptyString, _ => true
  | String a p', String b s' => Ascii.eqb a b && startswith p' s'
  | String _ _, EmptyString => false
  end.

(** [s.endswith(p)] *)
Definition endswith (p s : string) : bool := startswith (String.rev p) (String.rev s).

(** [s[n:]] *)
Fixpoint str_drop (n : nat) (s : string) : string :=
  match n, s with
  | S n', String _ s' => str_drop n' s'
  | _, _ => s
  end.

(** [sub in s] *)
Fixpoint str_contains (sub s : string) : bool :=
  startswith sub s || match s with EmptyString => false | String _ s' => str_contains sub s' end.

(** The parts of [s] before and after the first occurrence of [c]: what
    [i = s.find(c)], [s[:i]] and [s[i + 1:]] compute, [None] when [find] gives -1. *)
Fixpoint str_cut (c : Ascii.ascii) (s : string) : option (string * string) :=
  match s with
  | EmptyString => None
  | String a s' =>
      if Ascii.eqb a c then Some (EmptyString, s')
      else match str_cut c s' with
           | Some (x, y) => Some (String a x, y)
           | None => None
           end
  end.

Definition ascii_lower (a : Ascii.ascii) : Ascii.ascii :=
  let n := Ascii.N_of_ascii a in
  if ((65 <=? n) && (n <=? 90))%N then Ascii.ascii_of_N (n + 32) else a.

Definition ascii_upper (a : Ascii.ascii) : Ascii.ascii :=
  let n := Ascii.N_of_ascii a in
  if ((97 <=? n) && (n <=? 122))%N then Ascii.ascii_of_N (n - 32) else a.

Fixpoint str_map (f : Ascii.ascii -> Ascii.ascii) (s : string) : string :=
  match s with EmptyString => EmptyString | String a s' => String (f a) (str_map f s') end.

(** [s.lower()] and [s.upper()] on ASCII text. *)
Definition str_lower : string -> string := str_map ascii_lower.
Definition str_upper : string -> string := str_map ascii_upper.

(** [s.lstrip()], [s.rstrip()] and [s.strip()]: [String.rev] is stdpp's. *)
Fixpoint str_lstrip (s : string) : string :=
  match s with
  | String a s' => if Ascii.is_space a then str_lstrip s' else s
  | EmptyString => EmptyString
  end.
Definition str_strip (s : string) : string :=
  String.rev (str_lstrip (String.rev (str_lstrip s))).

(** [sep.join(parts)] *)
Definition str_join (sep : string) (parts : list string) : string := String.concat sep parts.

Lemma startswith_app p s : startswith p (p +:+ s) = true.
Proof.
  induction p as [|a p IH]; [done|].
  change (String a p +:+ s) with (String a (p +:+ s)). simpl.
  by rewrite Ascii.eqb_refl, IH.
Qed.

Lemma startswith_spec p s : startswith p s = true <-> exists r, s = p +:+ r.
Proof.
  split; [|intros [r ->]; apply startswith_app].
  revert s; induction p as [|a p IH]; intros [|b s]; simpl; intros H; try done.
  - by exists "".
  - by exists (String b s).
  - apply andb_true_iff in H as [->%Ascii.eqb_eq [r ->]%IH]. by exists r.
Qed.

Lemma str_drop_app p s : str_drop (String.length p) (p +:+ s) = s.
Proof. induction p as [|a p IH]; [by destruct s|apply IH]. Qed.

Lemma str_app_assoc a b c : (a +:+ b) +:+ c = a +:+ (b +:+ c).
Proof.
  induction a as [|x a IH]; [done|].
  change (String x ((a +:+ b) +:+ c) = String x (a +:+ (b +:+ c))). by rewrite IH.
Qed.

Lemma str_app_cons a x y : String a x +:+ y = String a (x +:+ y).
Proof. done. Qed.

Lemma str_app_nil_l x : "" +:+ x = x.
Proof. done. Qed.

Lemma str_length_app a b : String.length (a +:+ b) = (String.length a + String.length b)%nat.
Proof. induction a as [|x a IH]; [done|]. rewrite str_app_cons. simpl. by rewrite IH. Qed.

Lemma str_app_nil_r a : a +:+ "" = a.
Proof. induction a as [|x a IH]; [done|]. change (String x (a +:+ "") = String x a). by rewrite IH. Qed.

(** Does character [c] occur in [s]? *)
Fixpoint str_has (c : Ascii.ascii) (s : string) : bool :=
  match s with EmptyString => false | String a s' => Ascii.eqb a c || str_has c s' end.

Lemma str_cut_app c x y :
  str_has c x = false -> str_cut c (x +:+ String c y) = Some (x, y).
Proof.
  induction x as [|a x IH]; intros Hx.
  - change (str_cut c (String c y) = Some ("", y)). simpl. by rewrite Ascii.eqb_refl.
  - change (str_cut c (String a (x +:+ String c y)) = Some (String a x, y)).
    simpl in Hx |- *. apply orb_false_iff in Hx as [-> Hx]. by rewrite IH.
Qed.

Lemma str_cut_Some c s x y :
  str_cut c s = Some (x, y) -> s = x +:+ String c y /\ str_has c x = false.
Proof.
  revert x; induction s as [|a s IH]; intros x; simpl; [done|].
  destruct (Ascii.eqb a c) eqn:E.
  - apply Ascii.eqb_eq in E as ->. intros [= <- <-]. done.
  - destruct (str_cut c s) as [[x' y']|]; [|done]. intros [= <- ->].
    destruct (IH x' eq_refl) as [-> Hx]. split; [done|]. simpl. by rewrite E, Hx.
Qed.

Lemma str_cut_None c s : str_cut c s = None <-> str_has c s = false.
Proof.
  induction s as [|a s IH]; simpl; [done|].
  destruct (Ascii.eqb a c); simpl; [done|].
  rewrite <- IH. by destruct (str_cut c s) as [[]|].
Qed.

(** [repr(s)] of a string without quotes and escapes. *)
Definition py_repr (s : string) : string := "'" +:+ s +:+ "'".
(** [repr(xs)] of a list of such strings. *)
Definition py_repr_list (l : list string) : string := "[" +:+ str_join ", " (map py_repr l) +:+ "]".

(** [sorted(xs)] on strings *)
Fixpoint str_insert (x : string) (l : list string) : list string :=
  match l with
  | [] => [x]
  | y :: l' => if String.leb x y then x :: l else y :: str_insert x l'
  end.
Definition str_sort (l : list string) : list string := foldr str_insert [] l.

Lemma str_insert_perm x l : str_insert x l ≡ₚ x :: l.
Proof.
  induction l as [|y l IH]; simpl; [done|]. destruct (String.leb x y); [done|].
  rewrite IH. apply Permutation_swap.
Qed.

Lemma str_sort_perm l : str_sort l ≡ₚ l.
Proof. induction l as [|x l IH]; simpl; [done|]. by rewrite str_insert_perm, IH. Qed.

Lemma str_insert_sorted x l : Sorted String.le l -> Sorted String.le (str_insert x l).
Proof.
  induction 1 as [|y l Hl IH Hy]; simpl; [by repeat constructor|].
  destruct (String.leb x y) eqn:E; [constructor; [by constructor|constructor; unfold String.le; by rewrite E]|].
  constructor; [done|]. destruct (String.leb_total x y) as [?|Hyx]; [congruence|].
  destruct l as [|z l]; simpl; [by constructor; apply Is_true_true|].
  inversion_clear Hy. destruct (String.leb x z); constructor; [by apply Is_true_true|done].
Qed.

Lemma str_sort_sorted l : Sorted String.le (str_sort l).
Proof. induction l as [|x l IH]; simpl; [constructor|by apply str_insert_sorted]. Qed.

(** The sorted list depends on the elements only. *)
Lemma str_sort_eq l1 l2 : l1 ≡ₚ l2 -> str_sort l1 = str_sort l2.
Proof.
  intros Hp. apply (Sorted_unique String.le); [apply str_sort_sorted..|]. by rewrite !str_sort_perm.
Qed.

(** [sorted(set(xs))] *)
Definition sort_set (l : list string) : list string := str_sort (remove_dups l).

Lemma sort_set_elem x l : x ∈ sort_set l <-> x ∈ l.
Proof. unfold sort_set. rewrite str_sort_perm. apply elem_of_remove_dups. Qed.

Lemma sort_set_eq l1 l2 : (forall x, x ∈ l1 <-> x ∈ l2) -> sort_set l1 = sort_set l2.
Proof.
  intros H. apply str_sort_eq, NoDup_Permutation; [apply NoDup_remove_dups..|].
  intros x. by rewrite !elem_of_remove_dups.
Qed.

(** ** Insertion-ordered dictionaries

    A Python [dict] iterates in insertion order, and assigning to a key that is
    present keeps its position.  [dict V] is that list; [gmap] is used instead
    wherever the code never observes the order. *)
Abbreviation dict V := (list (string * V)).

Section dict.
Context {V : Type}.
Implicit Types (d : dict V) (k : string) (v : V).

(** [d.get(k)] *)
Fixpoint dget d k : option V :=
  match d with
  | [] => None
  | (k', v) :: d' => if k' =s k then Some v else dget d' k
  end.

(** [d[k] = v] *)
Fixpoint dset d k v : dict V :=
  match d with
  | [] => [(k, v)]
  | (k', v') :: d' => if k' =s k then (k', v) :: d' else (k', v') :: dset d' k v
  end.

(** [d.pop(k, None)] *)
Definition ddel d k : dict V := List.filter (fun kv => negb (kv.1 =s k)) d.

(** [k in d] *)
Definition dmem d k : bool := match dget d k with Some _ => true | None => false end.

(** [list(d)] and [list(d.values())] *)
Definition dkeys d : list string := d.*1.
Definition dvals d : list V := d.*2.

(** A dictionary has no repeated key. *)
Definition dict_wf d : Prop := NoDup (dkeys d).

Lemma dict_wf_keys ks d : dkeys d = ks -> NoDup ks -> dict_wf d.
Proof. by intros <-. Qed.

Lemma dget_Some_elem d k v : dget d k = Some v -> (k, v) ∈ d.
Proof.
  induction d as [|[k' v'] d IH]; simpl; [done|].
  destruct (k' =s k) eqn:E.
  - apply String.eqb_eq in E as ->. intros [= ->]. left.
  - intros H. right. auto.
Qed.

Lemma dget_elem d k v : dict_wf d -> (k, v) ∈ d -> dget d k = Some v.
Proof.
  unfold dict_wf, dkeys. induction d as [|[k' v'] d IH]; simpl; [by intros _ ?%not_elem_of_nil|].
  intros [Hn Hd]%NoDup_cons [[= -> ->]|Hin]%elem_of_cons.
  - by rewrite String.eqb_refl.
  - destruct (k' =s k) eqn:E; [|auto].
    apply String.eqb_eq in E as ->. contradict Hn. apply list_elem_of_fmap. by exists (k, v).
Qed.

Lemma dget_None d k : dget d k = None <-> k ∉ dkeys d.
Proof.
  induction d as [|[k' v'] d IH]; simpl.
  - split; [intros _; apply not_elem_of_nil|done].
  - destruct (k' =s k) eqn:E; rewrite not_elem_of_cons.
    + apply String.eqb_eq in E as ->. naive_solver.
    + apply String.eqb_neq in E. rewrite IH. naive_solver.
Qed.

Lemma dmem_spec d k : dmem d k = true <-> k ∈ dkeys d.
Proof.
  unfold dmem. destruct (dget d k) eqn:E.
  - split; [intros _|done]. apply dget_Some_elem in E.
    apply list_elem_of_fmap. by exists (k, v).
  - apply dget_None in E. naive_solver.
Qed.

Lemma dget_dset_eq d k v : dget (dset d k v) k = Some v.
Proof.
  induction d as [|[k' v'] d IH]; simpl; [by rewrite String.eqb_refl|].
  destruct (k' =s k) eqn:E; simpl; by rewrite E.
Qed.

Lemma dget_dset_ne d k k' v : k <> k' -> dget (dset d k v) k' = dget d k'.
Proof.
  intros Hne. induction d as [|[j w] d IH]; simpl.
  - destruct (k =s k') eqn:E; [by apply String.eqb_eq in E|done].
  - destruct (j =s k) eqn:E; simpl.
    + apply String.eqb_eq in E as ->.
      destruct (k =s k') eqn:E'; [by apply String.eqb_eq in E'|done].
    + by rewrite IH.
Qed.

Lemma dset_keys_mem d k v : k ∈ dkeys d -> dkeys (dset d k v) = dkeys d.
Proof.
  unfold dkeys. induction d as [|[j w] d IH]; simpl; [by intros ?%not_elem_of_nil|].
  destruct (j =s k) eqn:E; simpl; [done|].
  apply String.eqb_neq in E. intros [?|?]%elem_of_cons; [congruence|]. f_equal. auto.
Qed.

Lemma dset_notin d k v : k ∉ dkeys d -> dset d k v = d ++ [(k, v)].
Proof.
  unfold dkeys. induction d as [|[j w] d IH]; simpl; [done|].
  intros [Hne Hni]%not_elem_of_cons.
  destruct (j =s k) eqn:E; [apply String.eqb_eq in E; congruence|]. by rewrite IH.
Qed.

Lemma dset_wf d k v : dict_wf d -> dict_wf (dset d k v).
Proof.
  unfold dict_wf. intros Hd. destruct (decide (k ∈ dkeys d)) as [Hin|Hin].
  - by rewrite dset_keys_mem.
  - rewrite dset_notin by done. unfold dkeys in *. rewrite fmap_app. simpl.
    apply NoDup_app. split; [done|]. split; [|apply NoDup_singleton].
    intros x Hx Hx'%list_elem_of_singleton. congruence.
Qed.

Lemma elem_of_ddel d k k' v : (k', v) ∈ ddel d k <-> (k', v) ∈ d /\ k' <> k.
Proof.
  unfold ddel. rewrite !list_elem_of_In, filter_In. simpl.
  rewrite negb_true_iff, String.eqb_neq. done.
Qed.

Lemma ddel_keys d k : dkeys (ddel d k) = List.filter (fun k' => negb (k' =s k)) (dkeys d).
Proof.
  unfold dkeys, ddel. induction d as [|[j w] d IH]; simpl; [done|].
  destruct (j =s k); simpl; [done|]. f_equal. done.
Qed.

Lemma ddel_wf d k : dict_wf d -> dict_wf (ddel d k).
Proof. unfold dict_wf. rewrite ddel_keys, !NoDup_ListNoDup. apply List.NoDup_filter. Qed.

Lemma dget_ddel_eq d k : dget (ddel d k) k = None.
Proof.
  apply dget_None. rewrite ddel_keys, list_elem_of_In, filter_In, String.eqb_refl. naive_solver.
Qed.

Lemma dget_ddel_ne d k k' : k <> k' -> dget (ddel d k) k' = dget d k'.
Proof.
  intros Hne. unfold ddel. induction d as [|[j w] d IH]; simpl; [done|].
  destruct (j =s k) eqn:E; simpl; rewrite IH; [|done].
  apply String.eqb_eq in E as ->.
  destruct (k =s k') eqn:E'; [by apply String.eqb_eq in E'|done].
Qed.

End dict.

Create HintDb aindy.
#[export] Hint Resolve dset_wf ddel_wf startswith_app dget_dset_eq dget_ddel_eq : aindy.

(** ** Tactics *)

(** Reflect the boolean string and integer tests of the source into propositions. *)
Ltac breflect :=
  repeat match goal with
  | H : (_ =s _) = true |- _ => apply String.eqb_eq in H
  | H : (_ =s _) = false |- _ => apply String.eqb_neq in H
  | H : (_ <=? _)%Z = true |- _ => apply Z.leb_le in H
  | H : (_ <=? _)%Z = false |- _ => apply Z.leb_gt in H
  | H : (_ <? _)%Z = true |- _ => apply Z.ltb_lt in H
  | H : (_ <? _)%Z = false |- _ => apply Z.ltb_ge in H
  | H : (_ =? _)%Z = true |- _ => apply Z.eqb_eq in H
  | H : (_ =? _)%Z = false |- _ => apply Z.eqb_neq in H
  | H : negb _ = true |- _ => apply negb_true_iff in H
  | H : negb _ = false |- _ => apply negb_false_iff in H
  | H : _ && _ = true |- _ => apply andb_true_iff in H as [? ?]
  | H : _ || _ = false |- _ => apply orb_false_iff in H as [? ?]
  end.

(** Split on the innermost test or match the goal is stuck on. *)
Ltac split_match :=
  match goal with
  | |- context [match ?x with _ => _ end] =>
      lazymatch x with
      | context [match _ with _ => _ end] => fail
      | _ => destruct x eqn:?
      end
  end.

(** A decidable statement about concrete values, by evaluation. *)
Ltac by_evaluation := refine (bool_decide_unpack _ _); vm_compute; exact I.

#[export] Instance dict_wf_dec {V} (d : dict V) : Decision (dict_wf d).
Proof. unfold dict_wf. apply _. Defined.

(** ** Invariants of step relations *)
Lemma rtc_invariant {A} (R : relation A) (Inv : A -> Prop) a b :
  (forall x y, Inv x -> R x y -> Inv y) -> Inv a -> rtc R a b -> Inv b.
Proof. intros Hs Ha Hr. induction Hr; eauto. Qed.

(** ** Labelled transition systems and simulation *)
Section traces.
Context {S L : Type} (step : S -> L -> S -> Prop).

Inductive trace : S -> list L -> S -> Prop :=
| trace_nil s : trace s [] s
| trace_cons s l s1 ls s2 : step s l s1 -> trace s1 ls s2 -> trace s (l :: ls) s2.

Lemma trace_snoc_inv s ls l s2 : trace s (ls ++ [l]) s2 -> exists s1, trace s ls s1 /\ step s1 l s2.
Proof.
  revert s. induction ls as [|l' ls IH]; intros s H; inversion_clear H as [|? ? s1 ? ? H1 H2].
  - inversion H2; subst. exists s. split; [constructor|done].
  - destruct (IH s1 H2) as (s3&Ht&Hs). exists s3. split; [by econstructor|done].
Qed.

Lemma trace_app s l1 s1 l2 s2 : trace s l1 s1 -> trace s1 l2 s2 -> trace s (l1 ++ l2) s2.
Proof. induction 1; [done|]. cbn. intros H'. econstructor; eauto. Qed.
Lemma trace_app_inv s l1 l2 s2 : trace s (l1 ++ l2) s2 -> exists s1, trace s l1 s1 /\ trace s1 l2 s2.
Proof.
  revert s. induction l1 as [|a l1 IH]; intros s H; [exists s; split; [constructor|done]|].
  inversion_clear H as [|? ? s1 ? ? H1 H2]. destruct (IH s1 H2) as (s3&?&?). exists s3. split; [by econstructor|done].
Qed.

(** Rule induction from the end: an invariant of states and the labels so far. *)
Lemma trace_ind_snoc (P : list L -> S -> Prop) s ls s2 :
  P [] s -> (forall ls s1 l s2, trace s ls s1 -> P ls s1 -> step s1 l s2 -> P (ls ++ [l]) s2) -> trace s ls s2 -> P ls s2.
Proof.
  intros H0 Hs. revert s2. induction ls as [|l ls IH] using rev_ind; intros s2 Ht.
  - by inversion Ht; subst.
  - apply trace_snoc_inv in Ht as (s1&Ht&Hl). eapply Hs; eauto.
Qed.
End traces.

(** A simulation maps traces to traces with the same labels. *)
Lemma trace_simulation {S1 S2 L} (step1 : S1 -> L -> S1 -> Prop) (step2 : S2 -> L -> S2 -> Prop) (R : S1 -> S2 -> Prop) :
  (forall s l s' a, R s a -> step1 s l s' -> exists a', step2 a l a' /\ R s' a') ->
  forall s ls s' a, R s a -> trace step1 s ls s' -> exists a', trace step2 a ls a' /\ R s' a'.
Proof.
  intros Hsim s ls s' a HR Ht. revert a HR. induction Ht as [s|s l s1 ls s2 H1 _ IH]; intros a HR; [exists a; by split; [constructor|]|].
  destruct (Hsim _ _ _ _ HR H1) as (a1&Ha&HR1). destruct (IH a1 HR1) as (a2&Ht&HR2). exists a2. split; [by econstructor|done].
Qed.

(** ** Tables of rows with a key *)
Section tables.
Context {R K : Type} `{EqDecision K} (key : R -> K).
Implicit Types (l : list R) (r : R) (k : K).

(** [query(...).filter(key == k).first()] *)
Definition row_of k l : option R := List.find (fun r => bool_decide (key r = k)) l.
(** The change of that row *)
Fixpoint update_row k (f : R -> R) l : list R :=
  match l with
  | [] => []
  | r :: l' => if bool_decide (key r = k) then f r :: l' else r :: update_row k f l'
  end.

Lemma row_of_key k l r : row_of k l = Some r -> r ∈ l /\ key r = k.
Proof. intros H. apply find_some in H as [Hin Hk]. split; [by apply list_elem_of_In|by apply bool_decide_eq_true in Hk]. Qed.
Lemma row_of_None k l : row_of k l = None <-> k ∉ map key l.
Proof.
  unfold row_of. induction l as [|r l IH]; cbn; [split; [intros _ H; inversion H|done]|]. rewrite elem_of_cons. case_bool_decide; [naive_solver|].
  rewrite IH. naive_solver.
Qed.
Lemma row_of_elem l r : NoDup (map key l) -> r ∈ l -> row_of (key r) l = Some r.
Proof.
  unfold row_of. induction l as [|r' l IH]; [intros _ H; inversion H|]. cbn. intros [Hn Hnd]%NoDup_cons [->|Hin]%elem_of_cons; [by rewrite bool_decide_true|].
  case_bool_decide as Hk; [|auto]. exfalso. apply Hn. rewrite Hk. by apply (list_elem_of_fmap_2 key).
Qed.
Lemma row_of_perm k l l' : NoDup (map key l) -> l ≡ₚ l' -> row_of k l = row_of k l'.
Proof.
  intros Hnd Hp. assert (NoDup (map key l')) as Hnd' by (by rewrite <- (Permutation_map key Hp)).
  destruct (row_of k l) as [r|] eqn:E.
  - apply row_of_key in E as [Hin <-]. symmetry. apply row_of_elem; [done|]. by rewrite <- Hp.
  - symmetry. apply row_of_None. rewrite <- (Permutation_map key Hp). by apply row_of_None.
Qed.
Lemma row_of_app k l l' : row_of k (l ++ l') = match row_of k l with Some r => Some r | None => row_of k l' end.
Proof. unfold row_of. induction l as [|r l IH]; cbn; [done|]. by case_bool_decide. Qed.
Lemma row_of_snoc k l r : k ∉ map key l -> row_of k (l ++ [r]) = if bool_decide (key r = k) then Some r else None.
Proof. intros Hk. apply row_of_None in Hk. by rewrite row_of_app, Hk. Qed.
Lemma row_of_app_ne k l r : key r <> k -> row_of k (l ++ [r]) = row_of k l.
Proof. intros Hk. rewrite row_of_app. destruct (row_of k l); [done|]. unfold row_of. cbn. by rewrite bool_decide_false. Qed.
Lemma update_row_keys k f l : (forall r, key (f r) = key r) -> map key (update_row k f l) = map key l.
Proof. intros Hf. induction l as [|r l IH]; cbn; [done|]. case_bool_decide; cbn; [by rewrite Hf|by rewrite IH]. Qed.
Lemma update_row_Forall (P : R -> Prop) k f l : (forall r, P r -> P (f r)) -> Forall P l -> Forall P (update_row k f l).
Proof. intros Hf. induction 1; cbn; [constructor|]. case_bool_decide; constructor; auto. Qed.
Lemma row_of_update k k' f l : (forall r, key (f r) = key r) ->
  row_of k' (update_row k f l) = if bool_decide (k = k') then f <$> row_of k' l else row_of k' l.
Proof.
  intros Hf. unfold row_of. induction l as [|r l IH]; cbn; [by case_bool_decide|]. destruct (decide (key r = k)) as [Hk|Hk].
  - rewrite (bool_decide_true (key r = k)) by done. cbn. rewrite Hf, Hk. destruct (decide (k = k')) as [<-|Hn]; [by rewrite !bool_decide_true|].
    by rewrite !bool_decide_false.
  - rewrite (bool_decide_false (key r = k)) by done. cbn. rewrite IH. destruct (decide (k = k')) as [<-|Hn].
    + by rewrite (bool_decide_false (key r = k)), bool_decide_true.
    + rewrite (bool_decide_false (k = k')) by done. done.
Qed.

(** The row of a key if it is active *)
Definition live_row (act : R -> bool) k l : option R :=
  match row_of k l with Some r => if act r then Some r else None | None => None end.
Lemma live_row_upsert act k k' f r l : (forall r, key (f r) = key r) -> (forall r, act (f r) = true) -> key r = k -> act r = true ->
  live_row act k' (match row_of k l with Some _ => update_row k f l | None => l ++ [r] end) =
  if bool_decide (k = k') then Some (match row_of k l with Some r' => f r' | None => r end) else live_row act k' l.
Proof.
  intros Hf Ha Hk Hr. unfold live_row. destruct (row_of k l) as [r'|] eqn:E.
  - rewrite row_of_update by done. case_bool_decide as Hn; [|done]. subst k'. rewrite E. cbn. by rewrite Ha.
  - case_bool_decide as Hn; [subst k'; rewrite row_of_snoc by (by apply row_of_None)|by rewrite row_of_app_ne by congruence].
    by rewrite bool_decide_true, Hr.
Qed.
Lemma live_row_retire act k k' f l : (forall r, key (f r) = key r) -> (forall r, act (f r) = false) ->
  live_row act k' (update_row k f l) = if bool_decide (k = k') then None else live_row act k' l.
Proof. intros Hf Ha. unfold live_row. rewrite row_of_update by done. case_bool_decide; [|done]. destruct (row_of k' l); cbn; [by rewrite Ha|done]. Qed.
Lemma upsert_keys k f r l : (forall r, key (f r) = key r) -> key r = k -> NoDup (map key l) ->
  NoDup (map key (match row_of k l with Some _ => update_row k f l | None => l ++ [r] end)).
Proof.
  intros Hf Hk Hnd. destruct (row_of k l) eqn:E; [by rewrite update_row_keys|]. apply row_of_None in E. rewrite map_app. apply NoDup_app.
  split_and!; [done| |apply NoDup_singleton]. cbn. intros x Hx ->%list_elem_of_singleton. by rewrite Hk in Hx.
Qed.
(** The active rows, in any order *)
Lemma live_row_query act l l' k : NoDup (map key l) -> l' ≡ₚ List.filter act l -> NoDup (map key l') /\ row_of k l' = live_row act k l.
Proof.
  intros Hnd Hp. assert (forall l, NoDup (map key l) -> NoDup (map key (List.filter act l)) /\ row_of k (List.filter act l) = live_row act k l) as H.
  { clear. induction l as [|r l IH]; cbn; intros Hnd; [done|]. apply NoDup_cons in Hnd as [Hn Hnd]. destruct (IH Hnd) as [IH1 IH2].
    assert (key r ∉ map key (List.filter act l)) as Hn'.
    { intros (r'&Hk&Hin)%list_elem_of_fmap. apply Hn. rewrite Hk. apply (list_elem_of_fmap_2 key). apply list_elem_of_In, List.filter_In in Hin as [Hin _]. by apply list_elem_of_In. }
    unfold live_row in *. unfold row_of in *. cbn. destruct (act r) eqn:Ha; cbn.
    - split; [by apply NoDup_cons|]. case_bool_decide; [by rewrite Ha|done].
    - split; [done|]. case_bool_decide as Hk; [|done]. subst k. rewrite Ha. by apply row_of_None. }
  destruct (H l Hnd) as [H1 H2]. split; [by rewrite (Permutation_map key Hp)|]. rewrite <- H2. apply row_of_perm; [|done]. by rewrite (Permutation_map key Hp).
Qed.
End tables.

(** Storing one value per row in a dictionary *)
Lemma dget_store {R V} (key : R -> string) (val : R -> V) l (d : dict V) k : NoDup (map key l) ->
  dget (foldl (fun d r => dset d (key r) (val r)) d l) k = match row_of key k l with Some r => Some (val r) | None => dget d k end.
Proof.
  revert d. induction l as [|r l IH]; intros d Hnd; cbn; [done|]. apply NoDup_cons in Hnd as [Hn Hnd]. rewrite IH by done. unfold row_of in *. cbn.
  case_bool_decide as Hk; [|by destruct (List.find _ l); [|rewrite dget_dset_ne]]. subst k.
  pose proof (proj2 (row_of_None key (key r) l) Hn) as H. unfold row_of in H. by rewrite H, dget_dset_eq.
Qed.

(** ** Decimal text of integers: [str(z)], and [int(s)] on such text *)
Definition Z_to_string (z : Z) : string := NilZero.string_of_int (Z.to_int z).
Definition Z_of_string (s : string) : option Z :=
  match NilZero.int_of_string s with Some d => Some (Z.of_int d) | None => None end.

Lemma Z_of_to_string z : Z_of_string (Z_to_string z) = Some z.
Proof.
  unfold Z_of_string, Z_to_string.
  destruct (Z.to_int z) as [d|d] eqn:E.
  - assert (d = Nil \/ d <> Nil) as [->|Hn] by (destruct d; (by left) || by right).
    + rewrite NilZero.isi_posnil. rewrite <- (of_to z), E. done.
    + rewrite NilZero.isi by congruence. by rewrite <- E, of_to.
  - assert (d = Nil \/ d <> Nil) as [->|Hn] by (destruct d; (by left) || by right).
    + rewrite NilZero.isi_negnil. rewrite <- (of_to z), E. done.
    + rewrite NilZero.isi by congruence. by rewrite <- E, of_to.
Qed.

Lemma uint_chars c d :
  forallb (fun x => negb (Ascii.eqb x c)) (String.list_ascii_of_string "0123456789") = true ->
  str_has c (NilEmpty.string_of_uint d) = false.
Proof.
  simpl. intros H. breflect.
  induction d; simpl; [done|..]; rewrite IHd, orb_false_r; done.
Qed.

Lemma Z_to_string_chars c z :
  forallb (fun x => negb (Ascii.eqb x c)) (String.list_ascii_of_string "-0123456789") = true ->
  str_has c (Z_to_string z) = false.
Proof.
  simpl. intros H. apply andb_true_iff in H as [Hm H].
  assert (forall d, str_has c (NilZero.string_of_uint d) = false) as Hu.
  { intros d. unfold NilZero.string_of_uint. destruct d; [|by apply uint_chars..].
    simpl. breflect. by rewrite orb_false_r. }
  unfold Z_to_string, NilZero.string_of_int. destruct (Z.to_int z); [done|].
  simpl. breflect. rewrite Hu, orb_false_r. done.
Qed.

Lemma Z_to_string_nonempty z : Z_to_string z <> "".
Proof.
  intros H. pose proof (Z_of_to_string z) as Hz. rewrite H in Hz. discriminate.
Qed.
