(* ===== verification/PyDatetime.v ===== *)
(** * [datetime] values and their ISO-8601 text

    A [datetime] is its wall-clock reading and its UTC offset, both in
    microseconds; a naive one has no offset.  Which texts [fromisoformat]
    accepts differs between Python versions, so the pair of conversions is an
    interface with the contract the documentation gives: [fromisoformat] inverts
    [isoformat], whose output has digits, signs and the separators only. *)
From S2P Require Import Prelude.
Local Open Scope Z_scope.

Record datetime := MkDatetime { dt_wall : Z; dt_offset : option Z }.

#[export] Instance datetime_eq_dec : EqDecision datetime.
Proof. solve_decision. Defined.

(** [d.replace(tzinfo=timezone.utc)] *)
Definition replace_utc (d : datetime) : datetime := MkDatetime (dt_wall d) (Some 0).

(** [d if d.tzinfo else d.replace(tzinfo=timezone.utc)] *)
Definition ensure_utc (d : datetime) : datetime :=
  match dt_offset d with Some _ => d | None => replace_utc d end.

(** The instant of an aware [datetime], in microseconds since the epoch. *)
Definition instant (d : datetime) : Z := dt_wall d - default 0 (dt_offset d).

(** [datetime.now(timezone.utc)] at the instant [now]. *)
Definition utc_datetime (now : Z) : datetime := MkDatetime now (Some 0).

Class IsoCodec := {
  isoformat : datetime -> string;
  fromisoformat : string -> option datetime;   (* [None]: [ValueError] *)
  fromisoformat_isoformat d : fromisoformat (isoformat d) = Some d;
  isoformat_no_Z d : str_has "Z"%char (isoformat d) = false;
  isoformat_nonempty d : isoformat d <> ""
}.

Lemma ensure_utc_aware d : is_Some (dt_offset (ensure_utc d)).
Proof. unfold ensure_utc. destruct (dt_offset d) eqn:E; [rewrite E; eauto|by eexists]. Qed.

Lemma ensure_utc_idemp d : ensure_utc (ensure_utc d) = ensure_utc d.
Proof. unfold ensure_utc at 1. by destruct (ensure_utc_aware d) as [o ->]. Qed.

(** [s.replace("Z", "+00:00")] *)
Fixpoint replace_Z (s : string) : string :=
  match s with
  | EmptyString => EmptyString
  | String a s' => if Ascii.eqb a "Z"%char then "+00:00" +:+ replace_Z s' else String a (replace_Z s')
  end.

Lemma replace_Z_id s : str_has "Z"%char s = false -> replace_Z s = s.
Proof.
  induction s as [|a s IH]; simpl; [done|].
  intros [-> H]%orb_false_iff. by rewrite IH.
Qed.

(** ** A concrete codec

    The reading and the offset in decimal, separated by a slash: an instance
    that shows the interface can be implemented. *)
Definition demo_isoformat (d : datetime) : string :=
  Z_to_string (dt_wall d) +:+
  String "/"%char (match dt_offset d with Some o => Z_to_string o | None => "" end).

Definition demo_fromisoformat (s : string) : option datetime :=
  match str_cut "/"%char s with
  | Some (x, y) =>
      match Z_of_string x with
      | Some w => if truthy y then
                    match Z_of_string y with Some o => Some (MkDatetime w (Some o)) | None => None end
                  else Some (MkDatetime w None)
      | None => None
      end
  | None => None
  end.

Lemma demo_roundtrip d : demo_fromisoformat (demo_isoformat d) = Some d.
Proof.
  unfold demo_fromisoformat, demo_isoformat. rewrite str_cut_app by (by apply Z_to_string_chars).
  rewrite Z_of_to_string. destruct d as [w [o|]]; simpl; [|done].
  pose proof (Z_to_string_nonempty o) as Ho. apply truthy_true in Ho as ->. by rewrite Z_of_to_string.
Qed.

Lemma str_has_app c a b : str_has c (a +:+ b) = str_has c a || str_has c b.
Proof.
  induction a as [|x a IH]; [done|].
  change (Ascii.eqb x c || str_has c (a +:+ b) = (Ascii.eqb x c || str_has c a) || str_has c b).
  by rewrite IH, orb_assoc.
Qed.

#[export] Program Instance demo_codec : IsoCodec := {|
  isoformat := demo_isoformat;
  fromisoformat := demo_fromisoformat;
  fromisoformat_isoformat := demo_roundtrip
|}.
Next Obligation.
  intros [w o]. unfold demo_isoformat. rewrite str_has_app. simpl.
  rewrite Z_to_string_chars by done. destruct o; simpl; [by apply Z_to_string_chars|done].
Qed.
Next Obligation.
  intros [w o] H. unfold demo_isoformat in H. simpl in H.
  apply (Z_to_string_nonempty w). by destruct (Z_to_string w).
Qed.
