(* ===== verification/Json.v ===== *)
(** * Python values of JSON shape, [json.dumps] and [json.loads]

    [json] is the type of the values the runtime stores in JSON columns, sends
    through Redis and passes in payloads.  Strings are sequences of code points
    below 256.  A float is represented by its text and never computed with.
    [dumps] writes the default format of [json.dumps] and [loads] is the decoder
    of [json.loads] on such values. *)
From S2P Require Import Prelude.
From Stdlib Require Import Decimal DecimalString DecimalZ DecimalFacts DecimalPos.
Local Open Scope Z_scope.
Set Warnings "-register-all".

Inductive json :=
| JNull
| JBool (b : bool)
| JInt (z : Z)
| JFloat (text : string)
| JStr (s : string)
| JArr (l : list json)
| JObj (d : list (string * json)).

(** Induction through the nested lists. *)
Section json_ind.
Variable P : json -> Prop.
Hypothesis Hnull : P JNull.
Hypothesis Hbool : forall b, P (JBool b).
Hypothesis Hint : forall z, P (JInt z).
Hypothesis Hfloat : forall s, P (JFloat s).
Hypothesis Hstr : forall s, P (JStr s).
Hypothesis Harr : forall l, Forall P l -> P (JArr l).
Hypothesis Hobj : forall d, Forall (fun kv => P kv.2) d -> P (JObj d).
Fixpoint json_nested_ind (j : json) : P j :=
  match j with
  | JNull => Hnull
  | JBool b => Hbool b
  | JInt z => Hint z
  | JFloat s => Hfloat s
  | JStr s => Hstr s
  | JArr l => Harr l ((fix go l := match l return Forall P l with
      | [] => Forall_nil_2 _ | x :: l' => Forall_cons_2 _ x l' (json_nested_ind x) (go l') end) l)
  | JObj d => Hobj d ((fix go d := match d return Forall (fun kv => P kv.2) d with
      | [] => Forall_nil_2 _ | x :: d' => Forall_cons_2 _ x d' (json_nested_ind x.2) (go d') end) d)
  end.
End json_ind.

(** [bool(v)]; the floats that are false are [0.0] and [-0.0]. *)
Definition json_truthy (j : json) : bool :=
  match j with
  | JNull => false
  | JBool b => b
  | JInt z => negb (z =? 0)
  | JFloat s => negb ((s =s "0.0") || (s =s "-0.0"))
  | JStr s => truthy s
  | JArr l => match l with [] => false | _ => true end
  | JObj d => match d with [] => false | _ => true end
  end.

(** [d.get(k)] where [d] is a dictionary and a missing key gives [None]. *)
Definition jget (d : dict json) (k : string) : json := default JNull (dget d k).

(** ** Encoding *)
Definition dquote : Ascii.ascii := "034"%char.
Definition bslash : Ascii.ascii := "092"%char.

Definition hexdigit (n : N) : Ascii.ascii :=
  if (n <? 10)%N then Ascii.ascii_of_N (48 + n) else Ascii.ascii_of_N (87 + n).

Definition json_escape (a : Ascii.ascii) : string :=
  let n := Ascii.N_of_ascii a in
  if (n =? 34)%N then String bslash (String dquote "")
  else if (n =? 92)%N then String bslash (String bslash "")
  else if (n =? 10)%N then String bslash "n"
  else if (n =? 13)%N then String bslash "r"
  else if (n =? 9)%N then String bslash "t"
  else if (n =? 8)%N then String bslash "b"
  else if (n =? 12)%N then String bslash "f"
  else if ((32 <=? n) && (n <=? 126))%N then String a ""
  else String bslash ("u00" +:+ String (hexdigit (n / 16)) (String (hexdigit (n mod 16)) "")).

Fixpoint escape_str (s : string) : string :=
  match s with EmptyString => "" | String a s' => json_escape a +:+ escape_str s' end.
Definition quote (s : string) : string := String dquote (escape_str s +:+ String dquote "").

(** [json.dumps(j)] *)
Fixpoint dumps (j : json) : string :=
  match j with
  | JNull => "null"
  | JBool true => "true"
  | JBool false => "false"
  | JInt z => Z_to_string z
  | JFloat s => s
  | JStr s => quote s
  | JArr l => "[" +:+ str_join ", " (map dumps l) +:+ "]"
  | JObj d => "{" +:+ str_join ", " (map (fun kv => quote kv.1 +:+ ": " +:+ dumps kv.2) d) +:+ "}"
  end.

(** ** Decoding *)
Fixpoint skip_ws (s : string) : string :=
  match s with
  | String a s' =>
      if Ascii.eqb a " " || Ascii.eqb a "009" || Ascii.eqb a "010" || Ascii.eqb a "013"
      then skip_ws s' else s
  | EmptyString => ""
  end.

Definition unhex (a : Ascii.ascii) : option N :=
  let n := Ascii.N_of_ascii a in
  if ((48 <=? n) && (n <=? 57))%N then Some (n - 48)%N
  else if ((97 <=? n) && (n <=? 102))%N then Some (n - 87)%N
  else if ((65 <=? n) && (n <=? 70))%N then Some (n - 55)%N
  else None.

Definition unescape (a : Ascii.ascii) : option Ascii.ascii :=
  if Ascii.eqb a dquote then Some dquote
  else if Ascii.eqb a bslash then Some bslash
  else if Ascii.eqb a "/" then Some "/"%char
  else if Ascii.eqb a "n" then Some "010"%char
  else if Ascii.eqb a "r" then Some "013"%char
  else if Ascii.eqb a "t" then Some "009"%char
  else if Ascii.eqb a "b" then Some "008"%char
  else if Ascii.eqb a "f" then Some "012"%char
  else None.

Definition cons_char (a : Ascii.ascii) (o : option (string * string)) : option (string * string) :=
  match o with Some (x, r) => Some (String a x, r) | None => None end.

(** The characters of a string up to its closing quote. *)
Fixpoint parse_chars (s : string) : option (string * string) :=
  match s with
  | EmptyString => None
  | String a s' =>
      if Ascii.eqb a dquote then Some ("", s')
      else if Ascii.eqb a bslash then
        match s' with
        | String "u" (String h1 (String h2 (String h3 (String h4 s3)))) =>
            match unhex h1, unhex h2, unhex h3, unhex h4 with
            | Some 0%N, Some 0%N, Some n3, Some n4 =>
                cons_char (Ascii.ascii_of_N (16 * n3 + n4)) (parse_chars s3)
            | _, _, _, _ => None
            end
        | String b s2 => match unescape b with Some c => cons_char c (parse_chars s2) | None => None end
        | EmptyString => None
        end
      else if (Ascii.N_of_ascii a <? 32)%N then None
      else cons_char a (parse_chars s')
  end.

Definition is_digit (a : Ascii.ascii) : bool :=
  let n := Ascii.N_of_ascii a in ((48 <=? n) && (n <=? 57))%N.

Fixpoint take_digits (s : string) : string * string :=
  match s with
  | String a s' => if is_digit a then let (d, r) := take_digits s' in (String a d, r) else ("", s)
  | EmptyString => ("", "")
  end.

(** The integer, fraction and exponent parts of the number pattern of the decoder. *)
Definition parse_int_part (s : string) : option (string * string) :=
  match s with
  | String a s' => if Ascii.eqb a "0" then Some ("0", s')
                   else match take_digits s with ("", _) => None | dr => Some dr end
  | EmptyString => None
  end.
Definition parse_frac (s : string) : string * string :=
  match s with
  | String "." s' => match take_digits s' with ("", _) => ("", s) | (d, r) => (String "." d, r) end
  | _ => ("", s)
  end.
Definition parse_exp (s : string) : string * string :=
  match s with
  | String e s' =>
      if Ascii.eqb e "e" || Ascii.eqb e "E" then
        let (sg, s2) := match s' with
                        | String g s2 => if Ascii.eqb g "+" || Ascii.eqb g "-" then (String g "", s2) else ("", s')
                        | EmptyString => ("", s') end in
        match take_digits s2 with ("", _) => ("", s) | (d, r) => (String e (sg +:+ d), r) end
      else ("", s)
  | EmptyString => ("", s)
  end.
Definition parse_num (s : string) : option (json * string) :=
  let (sg, s1) := match s with
                  | String a s' => if Ascii.eqb a "-" then ("-", s') else ("", s)
                  | EmptyString => ("", s) end in
  match parse_int_part s1 with
  | None => None
  | Some (ip, s2) =>
      let (fr, s3) := parse_frac s2 in
      let (ex, s4) := parse_exp s3 in
      if truthy fr || truthy ex then Some (JFloat (sg +:+ ip +:+ fr +:+ ex), s4)
      else match Z_of_string (sg +:+ ip) with Some z => Some (JInt z, s4) | None => None end
  end.

Definition lit (word : string) (j : json) (s : string) : option (json * string) :=
  if startswith word s then Some (j, str_drop (String.length word) s) else None.

(** A value, the rest of an array after a [,] or its opening, and the rest of an
    object.  Each call that consumes input uses one unit of fuel. *)
Fixpoint parse_value (fuel : nat) (s : string) : option (json * string) :=
  match fuel with
  | O => None
  | S fuel =>
      match skip_ws s with
      | EmptyString => None
      | String a s' =>
          if Ascii.eqb a dquote then
            match parse_chars s' with Some (x, r) => Some (JStr x, r) | None => None end
          else if Ascii.eqb a "{" then
            match skip_ws s' with
            | String "}" r => Some (JObj [], r)
            | _ => parse_members fuel [] s'
            end
          else if Ascii.eqb a "[" then
            match skip_ws s' with
            | String "]" r => Some (JArr [], r)
            | _ => parse_elems fuel [] s'
            end
          else if Ascii.eqb a "n" then lit "null" JNull (String a s')
          else if Ascii.eqb a "t" then lit "true" (JBool true) (String a s')
          else if Ascii.eqb a "f" then lit "false" (JBool false) (String a s')
          else parse_num (String a s')
      end
  end
with parse_elems (fuel : nat) (acc : list json) (s : string) : option (json * string) :=
  match fuel with
  | O => None
  | S fuel =>
      match parse_value fuel s with
      | None => None
      | Some (v, r) =>
          match skip_ws r with
          | String "]" r' => Some (JArr (acc ++ [v]), r')
          | String "," r' => parse_elems fuel (acc ++ [v]) r'
          | _ => None
          end
      end
  end
with parse_members (fuel : nat) (acc : list (string * json)) (s : string) : option (json * string) :=
  match fuel with
  | O => None
  | S fuel =>
      match skip_ws s with
      | String q s1 =>
          if Ascii.eqb q dquote then
            match parse_chars s1 with
            | None => None
            | Some (k, r) =>
                match skip_ws r with
                | String ":" r1 =>
                    match parse_value fuel r1 with
                    | None => None
                    | Some (v, r2) =>
                        match skip_ws r2 with
                        | String "}" r3 => Some (JObj (dset acc k v), r3)
                        | String "," r3 => parse_members fuel (dset acc k v) r3
                        | _ => None
                        end
                    end
                | _ => None
                end
            end
          else None
      | EmptyString => None
      end
  end.

(** [json.loads(s)]: one value and nothing else but white space. *)
Definition loads (s : string) : result json :=
  match parse_value (S (2 * String.length s)) s with
  | Some (j, r) => if truthy (skip_ws r) then Raise (Exn "JSONDecodeError" "Extra data") else Ok j
  | None => Raise (Exn "JSONDecodeError" "Expecting value")
  end.

(** ** Decoding what was encoded *)

Lemma skip_ws_space s : skip_ws (String " " s) = skip_ws s.
Proof. done. Qed.

Lemma parse_chars_escape a t : parse_chars (json_escape a +:+ t) = cons_char a (parse_chars t).
Proof. destruct a as [[] [] [] [] [] [] [] []]; reflexivity. Qed.

Lemma parse_chars_quote s r : parse_chars (escape_str s +:+ String dquote r) = Some (s, r).
Proof.
  induction s as [|a s IH]; [done|]. cbn [escape_str].
  by rewrite str_app_assoc, parse_chars_escape, IH.
Qed.

(** What may follow a value inside a document. *)
Definition closes (r : string) : Prop :=
  match r with
  | EmptyString => True
  | String a _ => a = ","%char \/ a = "]"%char \/ a = "}"%char
  end.

Lemma closes_not_digit r : closes r -> take_digits r = ("", r).
Proof. destruct r as [|a r]; [done|]. by intros [->|[->| ->]]. Qed.

Lemma closes_frac r : closes r -> parse_frac r = ("", r).
Proof. destruct r as [|a r]; [done|]. by intros [->|[->| ->]]. Qed.

Lemma closes_exp r : closes r -> parse_exp r = ("", r).
Proof. destruct r as [|a r]; [done|]. by intros [->|[->| ->]]. Qed.

Lemma closes_ws r : closes r -> skip_ws r = r.
Proof. destruct r as [|a r]; [done|]. by intros [->|[->| ->]]. Qed.

Lemma take_digits_uint d r : closes r ->
  take_digits (NilEmpty.string_of_uint d +:+ r) = (NilEmpty.string_of_uint d, r).
Proof.
  intros Hr. induction d; cbn [NilEmpty.string_of_uint];
    [rewrite str_app_nil_l; by apply closes_not_digit|..];
    rewrite str_app_cons; cbn [take_digits]; by rewrite IHd.
Qed.

(** [Z.to_int] writes no leading zero. *)
Lemma to_int_normal z d : Z.to_int z = Pos d \/ Z.to_int z = Neg d ->
  d = zero \/ (d <> Nil /\ forall d', d <> D0 d').
Proof.
  intros H. assert (norm (Z.to_int z) = Z.to_int z) as Hn by (by rewrite <- to_of, of_to).
  assert (unorm d = d \/ nzhead d = d) as Hd.
  { destruct H as [H|H]; rewrite H in Hn; simpl in Hn; [injection Hn; auto|].
    destruct (nzhead d) eqn:E; [done|..]; injection Hn as <-; auto. }
  assert (forall u, nzhead u <> D0 Nil) as Hz by (intros u; apply nzhead_nonzero).
  destruct Hd as [Hd|Hd].
  - unfold unorm in Hd. destruct (nzhead d) eqn:E; [by left|..]; subst d; right; (split; [done|]);
      intros d'; rewrite <- E; apply nzhead_nonzero.
  - destruct H as [H|H]; rewrite H in Hn; simpl in Hn.
    + injection Hn as Hn. right. split; [intros ->; done|]. intros d' ->. by eapply nzhead_nonzero.
    + right. rewrite Hd in Hn. split; [intros ->; done|]. intros d' ->. by eapply nzhead_nonzero.
Qed.

Lemma parse_int_part_uint d r : closes r -> d = zero \/ (d <> Nil /\ forall d', d <> D0 d') ->
  parse_int_part (NilZero.string_of_uint d +:+ r) = Some (NilZero.string_of_uint d, r).
Proof.
  intros Hr [->|[Hn H0]]; [done|].
  destruct d; [done|by destruct (H0 d)|..]; cbn [NilZero.string_of_uint NilEmpty.string_of_uint];
    rewrite str_app_cons; unfold parse_int_part; cbn [take_digits];
    by rewrite take_digits_uint.
Qed.

Lemma parse_num_int z r : closes r -> parse_num (Z_to_string z +:+ r) = Some (JInt z, r).
Proof.
  intros Hr. pose proof (Z_of_to_string z) as Hz. unfold Z_to_string, NilZero.string_of_int in *.
  assert (forall d, Z.to_int z = Pos d \/ Z.to_int z = Neg d ->
    parse_int_part (NilZero.string_of_uint d +:+ r) = Some (NilZero.string_of_uint d, r)) as Hip.
  { intros d Hd. apply parse_int_part_uint; [done|by eapply to_int_normal]. }
  destruct (Z.to_int z) as [d|d]; specialize (Hip d ltac:(auto)).
  - assert (match NilZero.string_of_uint d +:+ r with
            | String a s' => if Ascii.eqb a "-" then ("-", s') else ("", NilZero.string_of_uint d +:+ r)
            | EmptyString => ("", NilZero.string_of_uint d +:+ r) end
            = ("", NilZero.string_of_uint d +:+ r)) as Hsg by (by destruct d).
    unfold parse_num. rewrite Hsg, Hip, closes_frac, closes_exp by done. cbn [truthy orb].
    rewrite str_app_nil_l. by rewrite Hz.
  - unfold parse_num. rewrite str_app_cons. cbn [Ascii.eqb Bool.eqb].
    rewrite Hip, closes_frac, closes_exp by done. cbn [truthy orb].
    change ("-" +:+ NilZero.string_of_uint d) with (String "-" (NilZero.string_of_uint d)). by rewrite Hz.
Qed.

(** The text of an integer starts like a number, not like another value. *)
Lemma parse_value_num f z r : closes r ->
  parse_value (S f) (Z_to_string z +:+ r) = Some (JInt z, r).
Proof.
  intros Hr. rewrite <- (parse_num_int z r Hr). unfold Z_to_string, NilZero.string_of_int.
  destruct (Z.to_int z) as [d|d]; [|by rewrite !str_app_cons].
  unfold NilZero.string_of_uint. by destruct d.
Qed.

(** Values without floats whose objects have no repeated key. *)
Fixpoint json_wf (j : json) : Prop :=
  match j with
  | JFloat _ => False
  | JArr l => fold_right (fun x P => json_wf x /\ P) True l
  | JObj d => dict_wf d /\ fold_right (fun kv P => json_wf kv.2 /\ P) True d
  | _ => True
  end.

Definition parses (j : json) : Prop := forall r f, closes r ->
  (2 * String.length (dumps j) < f)%nat -> parse_value f (dumps j +:+ r) = Some (j, r).

Lemma parse_string f s r : parse_value (S f) (quote s +:+ r) = Some (JStr s, r).
Proof.
  unfold quote. rewrite str_app_cons, str_app_assoc. cbn [parse_value skip_ws].
  change (String dquote "" +:+ r) with (String dquote r). simpl. by rewrite parse_chars_quote.
Qed.

Lemma parse_value_space f s : parse_value f (String " " s) = parse_value f s.
Proof. by destruct f. Qed.

Lemma parse_elems_space f acc s : parse_elems f acc (String " " s) = parse_elems f acc s.
Proof. destruct f as [|f]; [done|]. cbn [parse_elems]. by rewrite parse_value_space. Qed.

Lemma parse_members_space f acc s : parse_members f acc (String " " s) = parse_members f acc s.
Proof. by destruct f. Qed.

Lemma str_join_cons sep x y l : str_join sep (x :: y :: l) = x +:+ sep +:+ str_join sep (y :: l).
Proof. done. Qed.

Lemma parse_elems_join l acc r f : l <> [] -> Forall parses l ->
  (2 * String.length (str_join ", " (map dumps l)) + 1 < f)%nat ->
  parse_elems f acc (str_join ", " (map dumps l) +:+ String "]" r) = Some (JArr (acc ++ l), r).
Proof.
  revert acc f. induction l as [|x [|y l] IH]; intros acc f Hne Hall Hf; [done|..];
    apply Forall_cons in Hall as [Hx Hall]; (destruct f as [|f]; [lia|]); cbn [parse_elems map].
  - cbn [map] in *. change (str_join ", " [dumps x]) with (dumps x) in *.
    rewrite Hx; [done|by right; left|lia].
  - cbn [map] in Hf. rewrite str_join_cons, !str_length_app in Hf. cbn [String.length] in Hf.
    rewrite str_join_cons, !str_app_assoc.
    rewrite Hx; [|by left|lia].
    change (skip_ws (", " +:+ ?t)) with (String "," (String " " t)). cbv beta iota.
    rewrite parse_elems_space.
    change (map dumps (y :: l)) with (dumps y :: map dumps l) in IH.
    rewrite IH by (done || lia). by rewrite <- app_assoc.
Qed.

Definition dump_member (kv : string * json) : string := quote kv.1 +:+ ": " +:+ dumps kv.2.

Lemma parse_member f acc k v r : parses v -> closes r -> (2 * String.length (dump_member (k, v)) < f)%nat ->
  parse_members (S f) acc (dump_member (k, v) +:+ r) =
  match r with
  | String "}" r3 => Some (JObj (dset acc k v), r3)
  | String "," r3 => parse_members f (dset acc k v) r3
  | _ => None
  end.
Proof.
  intros Hv Hr Hf. unfold dump_member, quote in *. cbn [fst snd] in *.
  rewrite !str_length_app in Hf. cbn [parse_members]. rewrite str_app_assoc, str_app_cons.
  cbn [skip_ws]. rewrite str_app_assoc.
  change (String dquote "" +:+ ?x) with (String dquote x). simpl.
  rewrite parse_chars_quote.
  change (skip_ws ((": " +:+ dumps v) +:+ r)) with (String ":" (String " " (dumps v +:+ r))). cbv beta iota.
  rewrite parse_value_space, Hv by (done || lia). by rewrite closes_ws.
Qed.

Lemma parse_members_join d acc r f : d <> [] -> Forall (fun kv => parses kv.2) d -> dict_wf (acc ++ d) ->
  (2 * String.length (str_join ", " (map dump_member d)) + 1 < f)%nat ->
  parse_members f acc (str_join ", " (map dump_member d) +:+ String "}" r) = Some (JObj (acc ++ d), r).
Proof.
  revert acc f. induction d as [|[k v] d IH]; intros acc f Hne Hall Hwf Hf; [done|].
  apply Forall_cons in Hall as [Hv Hall]. cbn [snd] in Hv. (destruct f as [|f]; [lia|]).
  assert (dset acc k v = acc ++ [(k, v)]) as Hset.
  { apply dset_notin. unfold dict_wf, dkeys in Hwf. rewrite fmap_app in Hwf.
    apply NoDup_app in Hwf as (_&Hd&_). intros Hk. by apply (Hd k Hk); left. }
  destruct d as [|kv' d]; cbn [map] in *.
  - change (str_join ", " [dump_member (k, v)]) with (dump_member (k, v)) in *.
    rewrite parse_member by (done || (by right; right) || lia). by rewrite Hset.
  - rewrite str_join_cons, !str_length_app in Hf. cbn [String.length] in Hf.
    rewrite str_join_cons, !str_app_assoc. rewrite parse_member by (done || (by left) || lia).
    change (", " +:+ ?t) with (String "," (String " " t)). cbv beta iota.
    rewrite Hset, parse_members_space.
    rewrite IH by (done || lia || (by rewrite <- app_assoc)). by rewrite <- app_assoc.
Qed.

(** The text of a value is neither blank nor a closing bracket. *)
Lemma dumps_opens {A} j s (F : string -> A) G : json_wf j ->
  match skip_ws (dumps j +:+ s) with String "]" r => F r | _ => G end = G.
Proof.
  destruct j as [|[]|z|t|t|l|d]; intros Hwf; try done.
  unfold dumps, Z_to_string, NilZero.string_of_int.
  destruct (Z.to_int z) as [u|u]; [|done]. unfold NilZero.string_of_uint. by destruct u.
Qed.

Lemma json_wf_arr l : json_wf (JArr l) <-> Forall json_wf l.
Proof. simpl. induction l as [|x l IH]; simpl; [done|]. by rewrite Forall_cons, IH. Qed.

Lemma json_wf_obj d : json_wf (JObj d) <-> dict_wf d /\ Forall (fun kv => json_wf kv.2) d.
Proof.
  simpl. enough (fold_right (fun kv P => json_wf kv.2 /\ P) True d <-> Forall (fun kv => json_wf kv.2) d) by tauto.
  induction d as [|x d IH]; simpl; [done|]. by rewrite Forall_cons, IH.
Qed.

Lemma Forall_mp {A} (P Q : A -> Prop) l : Forall (fun x => P x -> Q x) l -> Forall P l -> Forall Q l.
Proof. intros H1 H2. induction H1; inversion H2; subst; constructor; auto. Qed.

Lemma parse_value_array f s :
  parse_value (S f) (String "[" s) =
  match skip_ws s with String "]" r => Some (JArr [], r) | _ => parse_elems f [] s end.
Proof. done. Qed.

Lemma parse_value_object f s :
  parse_value (S f) (String "{" s) =
  match skip_ws s with String "}" r => Some (JObj [], r) | _ => parse_members f [] s end.
Proof. done. Qed.

Lemma str_join_head sep x l s : exists t, str_join sep (x :: l) +:+ s = x +:+ t.
Proof. destruct l; [by eexists|]. rewrite str_join_cons, !str_app_assoc. by eexists. Qed.

Lemma parse_array l r f : json_wf (JArr l) -> Forall parses l ->
  (2 * String.length (dumps (JArr l)) < S f)%nat ->
  parse_value (S f) (dumps (JArr l) +:+ r) = Some (JArr l, r).
Proof.
  intros Hwf%json_wf_arr Hl Hf. destruct l as [|x l]; [done|]. apply Forall_cons in Hwf as [Hx _].
  cbn [dumps] in *. rewrite !str_length_app in Hf. cbn [String.length] in Hf.
  rewrite !str_app_assoc. change ("[" +:+ ?t) with (String "[" t).
  change ("]" +:+ r) with (String "]" r). rewrite parse_value_array.
  trans (parse_elems f [] (str_join ", " (map dumps (x :: l)) +:+ String "]" r));
    [|by apply (parse_elems_join (x :: l) []); [..|lia]].
  cbn [map]. destruct (str_join_head ", " (dumps x) (map dumps l) (String "]" r)) as [t ->].
  by apply dumps_opens.
Qed.

Lemma parse_object d r f : json_wf (JObj d) -> Forall (fun kv => parses kv.2) d ->
  (2 * String.length (dumps (JObj d)) < S f)%nat ->
  parse_value (S f) (dumps (JObj d) +:+ r) = Some (JObj d, r).
Proof.
  intros [Hd _]%json_wf_obj Hl Hf. destruct d as [|x d]; [done|].
  cbn [dumps] in *. change (fun kv => quote kv.1 +:+ ": " +:+ dumps kv.2) with dump_member in *.
  rewrite !str_length_app in Hf. cbn [String.length] in Hf.
  rewrite !str_app_assoc. change ("{" +:+ ?t) with (String "{" t).
  change ("}" +:+ r) with (String "}" r). rewrite parse_value_object.
  trans (parse_members f [] (str_join ", " (map dump_member (x :: d)) +:+ String "}" r));
    [|by apply (parse_members_join (x :: d) []); [..|lia]].
  cbn [map]. destruct (str_join_head ", " (dump_member x) (map dump_member d) (String "}" r)) as [t ->].
  done.
Qed.

Lemma parse_dumps j : json_wf j -> parses j.
Proof.
  induction j as [|b|z|t|t|l IH|d IH] using json_nested_ind; intros Hwf r f Hr Hf;
    (destruct f as [|f]; [lia|]); try done.
  - by destruct b.
  - by apply parse_value_num.
  - apply parse_string.
  - apply parse_array; [done|by eapply Forall_mp, json_wf_arr|done].
  - apply parse_object; [done| |done]. apply json_wf_obj in Hwf as [_ Hwf].
    exact (Forall_mp (fun kv => json_wf kv.2) _ _ IH Hwf).
Qed.

(** [json.loads(json.dumps(j)) == j] *)
Lemma loads_dumps j : json_wf j -> loads (dumps j) = Ok j.
Proof.
  intros Hwf. unfold loads. rewrite <- (str_app_nil_r (dumps j)) at 2.
  rewrite (parse_dumps j Hwf) by (done || lia). done.
Qed.

(** ** Keyword arguments taken from a document *)
Definition TypeError (m : string) : exn := Exn "TypeError" m.

(** A keyword argument of the dataclass constructor: the model has the types of
    the annotations, which every registered document has. *)
Definition str_arg (d : dict json) (k : string) : result string :=
  match dget d k with
  | Some (JStr s) => Ok s
  | _ => Raise (TypeError k)
  end.
Definition opt_arg (d : dict json) (k : string) : result (option string) :=
  match dget d k with
  | Some (JStr s) => Ok (Some s)
  | Some JNull | None => Ok None
  | _ => Raise (TypeError k)
  end.
