(* ===== verification/PyUuid.v ===== *)
(** * [uuid.UUID] values and their text

    A UUID is a 128-bit number.  [uuid_of_string] is the constructor
    [uuid.UUID(text)], which drops ["urn:"], ["uuid:"], braces and hyphens and
    wants 32 hexadecimal digits; [uuid_to_string] is [str()]. *)
From S2P Require Import Prelude Json.
Local Open Scope N_scope.

Record UUID := MkUUID { uuid_int : N }.

#[export] Instance UUID_eq_dec : EqDecision UUID.
Proof. solve_decision. Defined.
#[export] Instance UUID_countable : Countable UUID.
Proof. refine (inj_countable' uuid_int MkUUID _). by intros []. Defined.

(** [s.replace(sub, "")] for a non-empty [sub]; the fuel is the length of [s]. *)
Fixpoint str_remove (fuel : nat) (sub s : string) : string :=
  match fuel with
  | O => s
  | S fuel' =>
      if startswith sub s then str_remove fuel' sub (str_drop (String.length sub) s)
      else match s with
           | EmptyString => ""
           | String a s' => String a (str_remove fuel' sub s')
           end
  end.

Fixpoint drop_char (c : Ascii.ascii) (s : string) : string :=
  match s with
  | EmptyString => ""
  | String a s' => if Ascii.eqb a c then drop_char c s' else String a (drop_char c s')
  end.

(** [s.strip("{}")] *)
Fixpoint lstrip_braces (s : string) : string :=
  match s with
  | String a s' => if Ascii.eqb a "{" || Ascii.eqb a "}" then lstrip_braces s' else s
  | EmptyString => ""
  end.
Definition strip_braces (s : string) : string := String.rev (lstrip_braces (String.rev (lstrip_braces s))).

(** [int(hex, 16)] on hexadecimal digits *)
Fixpoint hex_value (acc : N) (s : string) : option N :=
  match s with
  | EmptyString => Some acc
  | String a s' => match unhex a with Some d => hex_value (16 * acc + d) s' | None => None end
  end.

Definition uuid_of_string (text : string) : option UUID :=
  let n := String.length text in
  let hex := drop_char "-" (strip_braces (str_remove n "uuid:" (str_remove n "urn:" text))) in
  if (String.length hex =? 32)%nat then
    match hex_value 0 hex with Some v => Some (MkUUID v) | None => None end
  else None.

(** ["%032x" % int], most significant digit first, with hyphens *)
Fixpoint hex_digits (k : nat) (n : N) (acc : string) : string :=
  match k with
  | O => acc
  | S k' => hex_digits k' (n / 16) (String (hexdigit (n mod 16)) acc)
  end.
Definition uuid_to_string (u : UUID) : string :=
  let h := hex_digits 32 (uuid_int u) "" in
  String.substring 0 8 h +:+ "-" +:+ String.substring 8 4 h +:+ "-" +:+ String.substring 12 4 h +:+ "-" +:+
  String.substring 16 4 h +:+ "-" +:+ String.substring 20 12 h.

(** ** Round trip *)
Definition hex_char (a : Ascii.ascii) : bool := match unhex a with Some _ => true | None => false end || Ascii.eqb a "-".
Fixpoint hex_text (s : string) : bool :=
  match s with EmptyString => true | String a s' => hex_char a && hex_text s' end.

Lemma hex_text_app s t : hex_text (s +:+ t) = hex_text s && hex_text t.
Proof. induction s as [|a s IH]; [done|]. change (hex_text (String a s +:+ t)) with (hex_char a && hex_text (s +:+ t)). rewrite IH. apply andb_assoc. Qed.

Lemma hexdigit_unhex d : d < 16 -> unhex (hexdigit d) = Some d.
Proof. intros H. assert (In d (map N.of_nat (seq 0 16))) as Hin. { apply in_map_iff. exists (N.to_nat d). split; [lia|]. apply in_seq. lia. }
  cbn in Hin. repeat destruct Hin as [<-|Hin]; done. Qed.

(** Texts of hexadecimal digits and hyphens contain no prefix and no brace. *)
Lemma hex_text_remove fuel a sub s : hex_char a = false -> hex_text s = true -> str_remove fuel (String a sub) s = s.
Proof.
  intros Ha. revert s. induction fuel as [|fuel IH]; intros s Hs; [done|]. destruct s as [|b s]; [done|].
  apply andb_true_iff in Hs as [Hb Hs]. change (startswith (String a sub) (String b s)) with (Ascii.eqb a b && startswith sub s).
  cbn [str_remove startswith]. destruct (Ascii.eqb_spec a b) as [->|_]; [congruence|]. cbn. by rewrite (IH s Hs).
Qed.
Lemma hex_text_lstrip s : hex_text s = true -> lstrip_braces s = s.
Proof.
  destruct s as [|a s]; [done|]. intros [Ha _]%andb_true_iff. cbn.
  destruct (Ascii.eqb_spec a "{") as [->|_]; [done|]. by destruct (Ascii.eqb_spec a "}") as [->|_].
Qed.
Lemma hex_text_rev_app s t : hex_text s = true -> hex_text t = true -> hex_text (String.rev_app s t) = true.
Proof.
  revert t. induction s as [|a s IH]; intros t Hs Ht; [done|]. apply andb_true_iff in Hs as [Ha Hs].
  apply (IH (String a t) Hs). cbn. by rewrite Ha.
Qed.
Lemma rev_app_rev_app s t u : String.rev_app (String.rev_app s t) u = String.rev_app t (s +:+ u).
Proof. revert t u. induction s as [|a s IH]; intros t u; [done|]. cbn. by rewrite IH. Qed.
Lemma hex_text_strip s : hex_text s = true -> strip_braces s = s.
Proof.
  intros Hs. unfold strip_braces, String.rev. rewrite (hex_text_lstrip s Hs), hex_text_lstrip by (by apply hex_text_rev_app).
  rewrite rev_app_rev_app. cbn. apply str_app_nil_r.
Qed.

(** The digits of a number, most significant first *)
Lemma hex_digits_value k n acc v : n < 16 ^ N.of_nat k -> hex_value v (hex_digits k n acc) = hex_value (16 ^ N.of_nat k * v + n) acc.
Proof.
  revert n acc v. induction k as [|k IH]; intros n acc v Hn; cbn [hex_digits].
  - f_equal. change (16 ^ N.of_nat 0) with 1 in *. lia.
  - rewrite Nat2N.inj_succ, N.pow_succ_r' in *. rewrite IH by (apply N.Div0.div_lt_upper_bound; lia). cbn [hex_value].
    rewrite hexdigit_unhex by (by apply N.mod_lt). f_equal. pose proof (N.div_mod n 16). lia.
Qed.
Lemma hex_digits_length k n acc : String.length (hex_digits k n acc) = (k + String.length acc)%nat.
Proof. revert n acc. induction k as [|k IH]; intros n acc; cbn [hex_digits]; [done|]. rewrite IH. cbn. lia. Qed.

Fixpoint digits (s : string) : bool :=
  match s with EmptyString => true | String a s' => match unhex a with Some _ => digits s' | None => false end end.
Lemma hex_digits_digits k n acc : digits acc = true -> digits (hex_digits k n acc) = true.
Proof.
  revert n acc. induction k as [|k IH]; intros n acc Ha; [done|]. apply IH. cbn. by rewrite hexdigit_unhex by (by apply N.mod_lt).
Qed.
Lemma digits_substring s m n : digits s = true -> digits (String.substring n m s) = true.
Proof.
  revert m n. induction s as [|a s IH]; intros m n Hs; [by destruct n, m|]. cbn in Hs. destruct (unhex a) eqn:Ha; [|done].
  destruct n; [destruct m; [done|]; cbn; rewrite Ha|]; by apply IH.
Qed.
Lemma digits_hex_text s : digits s = true -> hex_text s = true.
Proof. induction s as [|a s IH]; [done|]. cbn. unfold hex_char. destruct (unhex a); [done|done]. Qed.
Lemma digits_drop s t : digits s = true -> drop_char "-" (s +:+ t) = s +:+ drop_char "-" t.
Proof.
  induction s as [|a s IH]; [done|]. cbn [digits]. destruct (unhex a) eqn:Ha; [|done]. intros Hs.
  change (drop_char "-" (String a (s +:+ t)) = String a (s +:+ drop_char "-" t)). cbn [drop_char].
  destruct (Ascii.eqb_spec a "-") as [->|_]; [done|]. by rewrite IH.
Qed.
Lemma substring_all s : String.substring 0 (String.length s) s = s.
Proof. induction s as [|a s IH]; [done|]. cbn. by rewrite IH. Qed.
Lemma substring_split s n k m : String.substring n (k + m) s = String.substring n k s +:+ String.substring (n + k) m s.
Proof.
  revert n k m. induction s as [|a s IH]; intros n k m; [by destruct n, k, m|].
  destruct n as [|n]; [destruct k as [|k]|].
  - done.
  - change (String a (String.substring 0 (k + m) s) = String a (String.substring 0 k s +:+ String.substring (0 + k) m s)). by rewrite IH.
  - change (String.substring n (k + m) s = String.substring n k s +:+ String.substring (n + k) m s). apply IH.
Qed.

(** Printing and parsing a 128-bit UUID *)
Lemma uuid_roundtrip u : uuid_int u < 2 ^ 128 -> uuid_of_string (uuid_to_string u) = Some u.
Proof.
  intros Hu. unfold uuid_to_string. set (h := hex_digits 32 (uuid_int u) "").
  assert (String.length h = 32%nat) as Hl by apply hex_digits_length.
  assert (digits h = true) as Hd by (by apply hex_digits_digits).
  assert (hex_value 0 h = Some (uuid_int u)) as Hv.
  { unfold h. by rewrite hex_digits_value by (exact Hu). }
  clearbody h. pose proof (fun n m => digits_substring h m n Hd) as Hs.
  set (t := String.substring 0 8 h +:+ _). assert (hex_text t = true) as Ht.
  { unfold t. rewrite !hex_text_app. rewrite !(digits_hex_text (String.substring _ _ h)) by apply Hs. done. }
  unfold uuid_of_string. rewrite (hex_text_remove _ "u" "rn:"), (hex_text_remove _ "u" "uid:"), hex_text_strip by done.
  assert (drop_char "-" t = h) as ->.
  { assert (forall x, drop_char "-" ("-" +:+ x) = drop_char "-" x) as Hy by done.
    unfold t. rewrite <- (str_app_nil_r (String.substring 20 12 h)). do 4 rewrite digits_drop, Hy by apply Hs.
    rewrite digits_drop by apply Hs. rewrite str_app_nil_r.
    pose proof (substring_all h) as Ha. rewrite Hl in Ha. change 32%nat with (8 + (4 + (4 + (4 + 12))))%nat in Ha.
    by rewrite !substring_split in Ha. }
  rewrite Hl, Hv. by destruct u.
Qed.
Lemma uuid_to_string_nonempty u : uuid_to_string u <> "".
Proof. unfold uuid_to_string. by destruct (String.substring 0 8 _). Qed.
