(* ===== verification/CircuitBreaker.v ===== *)
(** * Circuit breaker ([AINDY/kernel/circuit_breaker.py])

    The breaker's fields are a record, its methods are state transformers that
    take the clock reading [self._now()] as an argument (microseconds since the
    epoch).  The lock makes each of [_enter_call], [_record_success],
    [_record_failure] and [reset] atomic, so the concurrent behaviour of [call]
    and [async_call] is every interleaving of those four: the relation [step].
    Logging and the metrics gauge have no effect on the state and are left out. *)
From S2P Require Import Prelude.
Local Open Scope Z_scope.

Inductive CircuitState := CLOSED | OPEN | HALF_OPEN.

#[export] Instance CircuitState_eq_dec : EqDecision CircuitState.
Proof. solve_decision. Defined.

(** The string ["closed"] or ["half_open"] that [_enter_call] returns. *)
Inductive phase := ph_closed | ph_half_open.

Record CircuitBreaker := MkCircuitBreaker {
  cb_name : string;
  failure_threshold : Z;
  recovery_timeout_secs : Z;
  cb_state : CircuitState;
  failure_count : Z;
  opened_at : option Z;
  half_open_in_flight : bool
}.

(** [CircuitBreaker.__init__] *)
Definition CircuitBreaker_init (nm : string) (threshold timeout : Z) : CircuitBreaker :=
  MkCircuitBreaker nm threshold timeout CLOSED 0 None false.

Definition set_count (cb : CircuitBreaker) (n : Z) : CircuitBreaker :=
  MkCircuitBreaker (cb_name cb) (failure_threshold cb) (recovery_timeout_secs cb)
    (cb_state cb) n (opened_at cb) (half_open_in_flight cb).

Definition set_in_flight (cb : CircuitBreaker) (b : bool) : CircuitBreaker :=
  MkCircuitBreaker (cb_name cb) (failure_threshold cb) (recovery_timeout_secs cb)
    (cb_state cb) (failure_count cb) (opened_at cb) b.

(** [_transition_to] *)
Definition transition_to (cb : CircuitBreaker) (new_state : CircuitState) (now : Z) : CircuitBreaker :=
  match new_state with
  | CLOSED => MkCircuitBreaker (cb_name cb) (failure_threshold cb) (recovery_timeout_secs cb)
                CLOSED 0 None false
  | OPEN => MkCircuitBreaker (cb_name cb) (failure_threshold cb) (recovery_timeout_secs cb)
              OPEN (failure_count cb) (Some now) false
  | HALF_OPEN => MkCircuitBreaker (cb_name cb) (failure_threshold cb) (recovery_timeout_secs cb)
                   HALF_OPEN (failure_count cb) (opened_at cb) (half_open_in_flight cb)
  end.

Definition microseconds : Z := 1000000.

Definition CircuitOpenError (msg : string) : exn := Exn "CircuitOpenError" msg.

Definition open_message (cb : CircuitBreaker) : string :=
  "Circuit '" +:+ cb_name cb +:+ "' is open; rejecting call".
Definition probe_message (cb : CircuitBreaker) : string :=
  "Circuit '" +:+ cb_name cb +:+ "' is half-open; probe already in flight".

(** [_enter_call] *)
Definition enter_call (cb : CircuitBreaker) (now : Z) : CircuitBreaker * result phase :=
  match cb_state cb with
  | CLOSED => (cb, Ok ph_closed)
  | OPEN =>
      match opened_at cb with
      | Some t0 =>
          if recovery_timeout_secs cb * microseconds <=? now - t0
          then (set_in_flight (transition_to cb HALF_OPEN now) true, Ok ph_half_open)
          else (cb, Raise (CircuitOpenError (open_message cb)))
      | None => (cb, Raise (CircuitOpenError (open_message cb)))
      end
  | HALF_OPEN =>
      if half_open_in_flight cb
      then (cb, Raise (CircuitOpenError (probe_message cb)))
      else (set_in_flight cb true, Ok ph_half_open)
  end.

(** [_record_success] *)
Definition record_success (cb : CircuitBreaker) (ph : phase) (now : Z) : CircuitBreaker :=
  match ph, cb_state cb with
  | ph_closed, CLOSED => set_count cb 0
  | _, _ => transition_to cb CLOSED now
  end.

(** [_record_failure] *)
Definition record_failure (cb : CircuitBreaker) (ph : phase) (now : Z) : CircuitBreaker :=
  match ph, cb_state cb with
  | ph_half_open, _ | _, HALF_OPEN =>
      transition_to (set_count cb (failure_threshold cb)) OPEN now
  | _, _ =>
      let cb' := set_count cb (failure_count cb + 1) in
      if failure_threshold cb <=? failure_count cb' then transition_to cb' OPEN now else cb'
  end.

(** [reset] *)
Definition reset (cb : CircuitBreaker) (now : Z) : CircuitBreaker := transition_to cb CLOSED now.

(** How the protected function ends: [except Exception] catches the second form
    and not the third ([asyncio.CancelledError], [KeyboardInterrupt]). *)
Inductive outcome (A : Type) :=
| Returned (a : A)
| RaisedException (e : exn)
| RaisedBaseException (e : exn).
Arguments Returned {A} a.
Arguments RaisedException {A} e.
Arguments RaisedBaseException {A} e.

(** [call], on a world [W] that the protected function changes; [t1] and [t2]
    are the clock at entry and when the outcome is recorded. *)
Definition call {W A} (cb : CircuitBreaker) (t1 t2 : Z) (func : W -> W * outcome A) (w : W)
    : CircuitBreaker * W * outcome A :=
  match enter_call cb t1 with
  | (cb1, Raise e) => (cb1, w, RaisedException e)
  | (cb1, Ok ph) =>
      let (w', o) := func w in
      match o with
      | Returned _ => (record_success cb1 ph t2, w', o)
      | RaisedException _ => (record_failure cb1 ph t2, w', o)
      | RaisedBaseException _ => (cb1, w', o)
      end
  end.

(** [async_call]: the same body around an awaited coroutine. *)
Definition async_call {W A} (cb : CircuitBreaker) (t1 t2 : Z) (coro_func : W -> W * outcome A) (w : W)
    : CircuitBreaker * W * outcome A :=
  match enter_call cb t1 with
  | (cb1, Raise e) => (cb1, w, RaisedException e)
  | (cb1, Ok ph) =>
      match coro_func w with
      | (w', Returned a) => (record_success cb1 ph t2, w', Returned a)
      | (w', RaisedException e) => (record_failure cb1 ph t2, w', RaisedException e)
      | (w', RaisedBaseException e) => (cb1, w', RaisedBaseException e)
      end
  end.

(** ** Interleavings

    A configuration is the breaker and the phases of the calls now running. *)
Definition config : Type := CircuitBreaker * list phase.

Inductive step : config -> config -> Prop :=
| step_enter cb cb' run t ph :
    enter_call cb t = (cb', Ok ph) -> step (cb, run) (cb', ph :: run)
| step_rejected cb cb' run t e :
    enter_call cb t = (cb', Raise e) -> step (cb, run) (cb', run)
| step_success cb run1 ph run2 t :
    step (cb, run1 ++ ph :: run2) (record_success cb ph t, run1 ++ run2)
| step_failure cb run1 ph run2 t :
    step (cb, run1 ++ ph :: run2) (record_failure cb ph t, run1 ++ run2)
| step_abandoned cb run1 ph run2 :
    step (cb, run1 ++ ph :: run2) (cb, run1 ++ run2)
| step_reset cb run t :
    step (cb, run) (reset cb t, run).

Definition reachable (nm : string) (threshold timeout : Z) : config -> Prop :=
  rtc step (CircuitBreaker_init nm threshold timeout, []).

(** The well-formedness of the fields in each state. *)
Definition cb_wf (cb : CircuitBreaker) : Prop :=
  match cb_state cb with
  | CLOSED => 0 <= failure_count cb < failure_threshold cb /\ opened_at cb = None /\
              half_open_in_flight cb = false
  | OPEN => failure_threshold cb <= failure_count cb /\ is_Some (opened_at cb) /\
            half_open_in_flight cb = false
  | HALF_OPEN => failure_threshold cb <= failure_count cb /\ is_Some (opened_at cb) /\
                 half_open_in_flight cb = true
  end.

Ltac cb_solve :=
  repeat (split_match; simpl in *; try done); breflect; simplify_eq/=;
  try (split_and?; eauto; lia).

Lemma enter_call_wf cb t : 1 <= failure_threshold cb -> cb_wf cb -> cb_wf (enter_call cb t).1.
Proof.
  unfold cb_wf, enter_call. destruct cb as [n th rt st fc oa fl]; simpl.
  destruct st; simpl; intros ? (?&?&?); [done|..].
  - destruct oa; simpl; [|done]. destruct (_ <=? _); simpl; naive_solver.
  - by subst fl.
Qed.

Lemma record_success_wf cb ph t : 1 <= failure_threshold cb -> cb_wf cb -> cb_wf (record_success cb ph t).
Proof.
  unfold cb_wf, record_success. destruct cb as [n th rt st fc oa fl]; simpl.
  destruct ph, st; simpl; intros; destruct_and!; split_and?; auto; lia.
Qed.

Lemma record_failure_wf cb ph t : 1 <= failure_threshold cb -> cb_wf cb -> cb_wf (record_failure cb ph t).
Proof.
  unfold cb_wf, record_failure. destruct cb as [n th rt st fc oa fl]; simpl.
  destruct ph, st; simpl; intros; destruct_and!;
    try (destruct (_ <=? _) eqn:?; breflect; simpl); split_and?; eauto; lia.
Qed.

Lemma reset_wf cb t : 1 <= failure_threshold cb -> cb_wf (reset cb t).
Proof. unfold cb_wf. simpl. intros. split_and?; auto; lia. Qed.

Lemma threshold_preserved c c' :
  step c c' -> failure_threshold c'.1 = failure_threshold c.1.
Proof.
  destruct 1 as [cb cb' run t ph H|cb cb' run t e H|cb r1 ph r2 t|cb r1 ph r2 t| |]; simpl; try done.
  - unfold enter_call in H. repeat case_match; simplify_eq; done.
  - unfold enter_call in H. repeat case_match; simplify_eq; done.
  - unfold record_success. by destruct ph, (cb_state cb).
  - unfold record_failure. destruct ph, (cb_state cb); simpl; try done; by destruct (_ <=? _).
Qed.

#[export] Hint Resolve enter_call_wf record_success_wf record_failure_wf reset_wf : aindy.

Lemma step_wf c c' : 1 <= failure_threshold c.1 -> cb_wf c.1 -> step c c' -> cb_wf c'.1.
Proof.
  intros Hth Hwf Hs. destruct Hs as [cb cb' run t ph H|cb cb' run t e H|cb r1 ph r2 t|cb r1 ph r2 t| |];
    simpl in *; auto with aindy.
  - pose proof (enter_call_wf cb t Hth Hwf) as Hw. by rewrite H in Hw.
  - pose proof (enter_call_wf cb t Hth Hwf) as Hw. by rewrite H in Hw.
Qed.

(** under every interleaving of concurrent calls, abandoned calls and
    resets, a breaker built with a threshold of at least one keeps its fields
    consistent: CLOSED means fewer failures than the threshold, no opening time
    and no probe; OPEN means the threshold was reached at a recorded time; and
    HALF_OPEN always has its single probe in flight. *)
Theorem breaker_invariant nm threshold timeout c :
  1 <= threshold -> reachable nm threshold timeout c -> cb_wf c.1.
Proof.
  intros Hth Hr.
  enough (failure_threshold c.1 = threshold /\ cb_wf c.1) by tauto.
  revert Hr. apply (rtc_invariant step (fun c => failure_threshold c.1 = threshold /\ cb_wf c.1)).
  - intros x y [Ht Hw] Hs. split; [by rewrite (threshold_preserved _ _ Hs)|].
    apply (step_wf x); [lia|done..].
  - unfold cb_wf. simpl. split_and?; auto; lia.
Qed.

Lemma breaker_invariant_witness :
  cb_wf (record_failure (CircuitBreaker_init "openai" 1 60) ph_closed 7).
Proof.
  apply (breaker_invariant "openai" 1 60
           (record_failure (CircuitBreaker_init "openai" 1 60) ph_closed 7, [])); [lia|].
  eapply rtc_l; [eapply (step_enter _ _ _ 5 ph_closed); reflexivity|].
  eapply rtc_l; [apply (step_failure _ [] ph_closed [] 7)|]. apply rtc_refl.
Defined.

(** ** Sequences of calls *)

(** Run one call of an always-failing function per pair of clock readings. *)
Fixpoint failing_calls (cb : CircuitBreaker) (ts : list (Z * Z)) : CircuitBreaker :=
  match ts with
  | [] => cb
  | (t1, t2) :: ts' =>
      failing_calls (call cb t1 t2 (fun _ : unit => (tt, @RaisedException unit (Exn "RuntimeError" "down"))) tt).1.1 ts'
  end.

Lemma failing_calls_closed cb ts :
  cb_state cb = CLOSED ->
  failure_count cb + Z.of_nat (length ts) < failure_threshold cb ->
  failing_calls cb ts = set_count cb (failure_count cb + Z.of_nat (length ts)).
Proof.
  revert cb; induction ts as [|[t1 t2] ts IH]; intros cb Hst Hlt; simpl in *.
  - rewrite Z.add_0_r. by destruct cb.
  - unfold call, enter_call. rewrite Hst. simpl. unfold record_failure. rewrite Hst. simpl.
    destruct (failure_threshold cb <=? failure_count cb + 1) eqn:E; breflect; [lia|].
    rewrite IH; simpl; [|done|lia]. unfold set_count; simpl. f_equal. lia.
Qed.

(** a new breaker trips on exactly the [failure_threshold]-th consecutive
    failure: after fewer failing calls it is CLOSED and has counted each of
    them, and the failing call that reaches the threshold opens it at the time
    that failure is recorded. *)
Theorem trips_at_threshold nm threshold timeout ts t1 t2 :
  Z.of_nat (length ts) + 1 = threshold ->
  (forall ts', ts' `prefix_of` ts ->
     failing_calls (CircuitBreaker_init nm threshold timeout) ts' =
     MkCircuitBreaker nm threshold timeout CLOSED (Z.of_nat (length ts')) None false) /\
  failing_calls (CircuitBreaker_init nm threshold timeout) (ts ++ [(t1, t2)]) =
    MkCircuitBreaker nm threshold timeout OPEN threshold (Some t2) false.
Proof.
  intros Hlen.
  assert (forall ts', ts' `prefix_of` ts ->
     failing_calls (CircuitBreaker_init nm threshold timeout) ts' =
     MkCircuitBreaker nm threshold timeout CLOSED (Z.of_nat (length ts')) None false) as Hpre.
  { intros ts' Hp%prefix_length. rewrite failing_calls_closed; [done|done|simpl; lia]. }
  split; [done|].
  assert (forall cb l1 l2, failing_calls cb (l1 ++ l2) = failing_calls (failing_calls cb l1) l2) as Happ.
  { intros cb l1. revert cb. induction l1 as [|[] l1 IH]; intros; simpl; [done|apply IH]. }
  rewrite Happ, (Hpre ts) by done. simpl. unfold record_failure; simpl.
  replace (threshold <=? Z.of_nat (length ts) + 1) with true by (symmetry; apply Z.leb_le; lia).
  unfold transition_to; simpl. f_equal. lia.
Qed.

Lemma trips_at_threshold_witness :
  failing_calls (CircuitBreaker_init "openai" 3 60) [(1, 2); (3, 4); (5, 6)] =
    MkCircuitBreaker "openai" 3 60 OPEN 3 (Some 6) false.
Proof. apply (trips_at_threshold "openai" 3 60 [(1, 2); (3, 4)] 5 6). reflexivity. Defined.

(** a call through an OPEN breaker.  Before the recovery timeout has
    elapsed it raises [CircuitOpenError] without running the function and
    changes nothing.  After it, the function runs exactly once as the probe: a
    normal return closes the breaker and clears its counters, an exception
    re-opens it with the timer restarted. *)
Theorem open_call_spec {W A} (cb : CircuitBreaker) t0 t1 t2 (func : W -> W * outcome A) w :
  cb_state cb = OPEN -> opened_at cb = Some t0 ->
  call cb t1 t2 func w =
    if recovery_timeout_secs cb * microseconds <=? t1 - t0 then
      let (w', o) := func w in
      (match o with
       | Returned _ => CircuitBreaker_init (cb_name cb) (failure_threshold cb) (recovery_timeout_secs cb)
       | RaisedException _ =>
           MkCircuitBreaker (cb_name cb) (failure_threshold cb) (recovery_timeout_secs cb)
             OPEN (failure_threshold cb) (Some t2) false
       | RaisedBaseException _ =>
           MkCircuitBreaker (cb_name cb) (failure_threshold cb) (recovery_timeout_secs cb)
             HALF_OPEN (failure_count cb) (Some t0) true
       end, w', o)
    else (cb, w, RaisedException (CircuitOpenError (open_message cb))).
Proof.
  intros Hst Ho. unfold call, enter_call. rewrite Hst, Ho.
  destruct (_ <=? _); [|done]. destruct (func w) as [w' [a|e|e]]; simpl; [done..|].
  unfold set_in_flight; simpl. by rewrite Ho.
Qed.

Lemma open_call_spec_witness :
  call (failing_calls (CircuitBreaker_init "openai" 1 60) [(1, 2)]) 60000002 60000009
       (fun n : nat => (S n, Returned true)) 0%nat =
  (CircuitBreaker_init "openai" 1 60, 1%nat, Returned true).
Proof.
  rewrite (open_call_spec (failing_calls (CircuitBreaker_init "openai" 1 60) [(1, 2)]) 2);
    reflexivity.
Defined.

(** when the probe of an OPEN breaker ends in an exception that is not an
    [Exception] (a cancelled task, an interrupt), the breaker stays HALF_OPEN
    with the probe marked in flight: every later call is rejected, at whatever
    time it comes, without running its function and without changing the
    breaker. *)
Theorem abandoned_probe_blocks {W A} (cb : CircuitBreaker) t0 t1 t2 (func : W -> W * outcome A) w w' e :
  cb_state cb = OPEN -> opened_at cb = Some t0 ->
  func w = (w', RaisedBaseException e) ->
  recovery_timeout_secs cb * microseconds <= t1 - t0 ->
  let cb' := (async_call cb t1 t2 func w).1.1 in
  cb_state cb' = HALF_OPEN /\
  forall B t3 t4 (later : W -> W * outcome B) v,
    call cb' t3 t4 later v = (cb', v, RaisedException (CircuitOpenError (probe_message cb'))).
Proof.
  intros Hst Ho Hf Ht. unfold async_call, enter_call. rewrite Hst, Ho.
  replace (_ <=? _) with true by (symmetry; by apply Z.leb_le).
  rewrite Hf. done.
Qed.

Lemma abandoned_probe_blocks_witness :
  call (async_call (failing_calls (CircuitBreaker_init "openai" 1 60) [(1, 2)]) 60000002 60000009
          (fun n : nat => (n, @RaisedBaseException bool (Exn "CancelledError" ""))) 0%nat).1.1
       (10 ^ 15) (10 ^ 15) (fun n : nat => (S n, Returned true)) 0%nat =
  (MkCircuitBreaker "openai" 1 60 HALF_OPEN 1 (Some 2) true, 0%nat,
   RaisedException (CircuitOpenError "Circuit 'openai' is half-open; probe already in flight")).
Proof.
  apply (abandoned_probe_blocks (failing_calls (CircuitBreaker_init "openai" 1 60) [(1, 2)])
           2 60000002 60000009 (fun n : nat => (n, @RaisedBaseException bool (Exn "CancelledError" "")))
           0%nat 0%nat (Exn "CancelledError" "")); reflexivity.
Defined.

(** a call that started while the breaker was CLOSED and returns after other
    calls have tripped it closes the breaker at once: the recovery timeout is
    not waited for and the next call is let through. *)
Theorem late_success_closes cb t t' :
  cb_state cb = OPEN ->
  record_success cb ph_closed t =
    CircuitBreaker_init (cb_name cb) (failure_threshold cb) (recovery_timeout_secs cb) /\
  (enter_call (record_success cb ph_closed t) t').2 = Ok ph_closed.
Proof. intros Hst. unfold record_success. by rewrite Hst. Qed.

Lemma late_success_closes_witness :
  (enter_call (record_success (failing_calls (CircuitBreaker_init "openai" 1 60) [(1, 2)]) ph_closed 3) 4).2
  = Ok ph_closed.
Proof. apply (late_success_closes _ 3 4). reflexivity. Defined.
