(* ===== verification/RetryPolicy.v ===== *)
(** * Retry policy ([AINDY/core/retry_policy.py])

    Policies are records, the resolver and the error classifier are functions,
    and [execute_with_retry] runs an operation that changes a world [W] and
    either returns or raises.  [time.sleep] becomes a recorded delay; the random
    jitter of each retry is an argument.  Delays are in milliseconds: the code
    divides the same number by 1000.0 just before it sleeps. *)
From S2P Require Import Prelude.
Local Open Scope Z_scope.

Definition MAX_BACKOFF_MS : Z := 10000.
Definition MAX_JITTER_MS : Z := 50.

Record RetryPolicy := MkRetryPolicy {
  max_attempts : Z;
  backoff_ms : Z;
  exponential_backoff : bool;
  high_risk_immediate_fail : bool
}.

Definition FLOW_NODE_DEFAULT := MkRetryPolicy 3 200 true false.
Definition AGENT_LOW_MEDIUM := MkRetryPolicy 3 200 true false.
Definition AGENT_HIGH_RISK := MkRetryPolicy 1 0 false true.
Definition ASYNC_JOB_DEFAULT := MkRetryPolicy 1 500 true false.
Definition NODUS_SCHEDULED_DEFAULT := MkRetryPolicy 3 300 true false.
Definition NO_RETRY := MkRetryPolicy 1 0 false false.

(** [_RISK_TO_AGENT_POLICY] *)
Definition RISK_TO_AGENT_POLICY : dict RetryPolicy :=
  [("low", AGENT_LOW_MEDIUM); ("medium", AGENT_LOW_MEDIUM); ("high", AGENT_HIGH_RISK)].

(** [_NON_RETRYABLE_SUBSTRINGS] *)
Definition NON_RETRYABLE_SUBSTRINGS : list string :=
  ["permission"; "unauthorized"; "forbidden"; "not found"; "404"; "401"; "403";
   "invalid"; "blocked by policy"].

Definition resolve_retry_policy (execution_type : option string) (risk_level : option string)
    (node_max_retries job_max_retries : option Z) : RetryPolicy :=
  let etype := str_strip (str_lower (str_or execution_type "")) in
  if etype =s "flow" then
    match node_max_retries with
    | Some n => MkRetryPolicy (Z.max 1 n) (backoff_ms FLOW_NODE_DEFAULT)
                  (exponential_backoff FLOW_NODE_DEFAULT) false
    | None => FLOW_NODE_DEFAULT
    end
  else if etype =s "agent" then
    let risk := str_strip (str_lower (str_or risk_level "high")) in
    default AGENT_HIGH_RISK (dget RISK_TO_AGENT_POLICY risk)
  else if etype =s "job" then ASYNC_JOB_DEFAULT
  else if etype =s "nodus" then
    match job_max_retries with
    | Some n => MkRetryPolicy (Z.max 1 n) (backoff_ms NODUS_SCHEDULED_DEFAULT)
                  (exponential_backoff NODUS_SCHEDULED_DEFAULT) false
    | None => NODUS_SCHEDULED_DEFAULT
    end
  else NO_RETRY.

(** [_retry_delay_seconds], in milliseconds; [jitter] is [random.randint(0, 50)]. *)
Definition retry_delay_ms (policy : RetryPolicy) (attempt_number jitter : Z) : Z :=
  if (attempt_number <=? 0) || (backoff_ms policy <=? 0) then 0
  else
    let multiplier := if exponential_backoff policy then 2 ^ attempt_number else 1 in
    let delay_ms := backoff_ms policy * multiplier + jitter in
    Z.min delay_ms MAX_BACKOFF_MS.

(** [is_retryable_error] *)
Definition is_retryable_error (error : option string) : bool :=
  match str_or_none error with
  | None => true
  | Some e => let lower := str_lower e in
              negb (existsb (fun substr => str_contains substr lower) NON_RETRYABLE_SUBSTRINGS)
  end.

Section retry.
Context {W A : Type}.
Variable operation : W -> W * result A.
Variable policy : RetryPolicy.
Variable retryable_error_checker : option string -> bool.
Variable jitter : Z -> Z.

(** [_sleep_before_retry]: the delays slept, oldest first. *)
Definition sleep_before_retry (slept : list Z) (attempt_number : Z) : list Z :=
  let d := retry_delay_ms policy attempt_number (jitter attempt_number) in
  if 0 <? d then slept ++ [d] else slept.

(** The body of [for attempt_index in range(policy.max_attempts)], with [n]
    iterations left. *)
Fixpoint retry_loop (n : nat) (attempt_index : Z) (slept : list Z) (w : W)
    : W * list Z * result A :=
  match n with
  | O => (w, slept, Raise (Exn "RuntimeError" "retry loop exhausted unexpectedly"))
  | S n' =>
      match operation w with
      | (w', Ok a) => (w', slept, Ok a)
      | (w', Raise exc) =>
          if high_risk_immediate_fail policy || (max_attempts policy <=? attempt_index + 1)
          then (w', slept, Raise exc)
          else if negb (retryable_error_checker (Some (exn_msg exc)))
          then (w', slept, Raise exc)
          else retry_loop n' (attempt_index + 1) (sleep_before_retry slept (attempt_index + 1)) w'
      end
  end.

(** [execute_with_retry] *)
Definition execute_with_retry (w : W) : W * list Z * result A :=
  retry_loop (Z.to_nat (max_attempts policy)) 0 [] w.

(** The outcome of the [i]-th run of the operation (from 0) and the world it leaves. *)
Fixpoint nth_run (i : nat) (w : W) : W * result A :=
  match i with O => operation w | S i' => nth_run i' (operation w).1 end.

(** A run after which the loop goes on. *)
Definition goes_on (i : nat) (w : W) : bool :=
  match (nth_run i w).2 with
  | Ok _ => false
  | Raise exc => negb (high_risk_immediate_fail policy) && retryable_error_checker (Some (exn_msg exc))
  end.

Lemma retry_loop_spec n idx slept w :
  idx + Z.of_nat (S n) = max_attempts policy ->
  exists k, (k <= n)%nat /\
    (forall i, (i < k)%nat -> goes_on i w = true) /\
    (k = n \/ goes_on k w = false) /\
    (retry_loop (S n) idx slept w).1.1 = (nth_run k w).1 /\
    (retry_loop (S n) idx slept w).2 = (nth_run k w).2.
Proof.
  revert idx slept w. induction n as [|n IH]; intros idx slept w Hn.
  - exists O. split_and!; [lia|intros; lia|by left|..]; simpl.
    all: destruct (operation w) as [w' [a|exc]]; simpl; [done|].
    all: replace (_ <=? _) with true by (symmetry; apply Z.leb_le; lia).
    all: by rewrite orb_true_r.
  - remember (S n) as m eqn:Hm. simpl. destruct (operation w) as [w' [a|exc]] eqn:Eop; simpl.
    { exists O. unfold goes_on; simpl. rewrite Eop. split_and!; [lia|intros; lia|by right|done..]. }
    replace (max_attempts policy <=? idx + 1) with false by (symmetry; apply Z.leb_gt; lia).
    rewrite orb_false_r.
    destruct (high_risk_immediate_fail policy) eqn:Eh.
    { exists O. unfold goes_on; simpl. rewrite Eop, Eh. split_and!; [lia|intros; lia|by right|done..]. }
    destruct (retryable_error_checker _) eqn:Er; simpl.
    + destruct (IH (idx + 1) (sleep_before_retry slept (idx + 1)) w') as (k&Hk&Hgo&Hend&Hw&Hr); [lia|].
      subst m. exists (S k). split_and!; [lia| | |simpl; by rewrite Eop|simpl; by rewrite Eop].
      * intros [|i] Hi; unfold goes_on; simpl; rewrite Eop; simpl; [by rewrite Eh|].
        apply Hgo. lia.
      * destruct Hend as [->|Hend]; [by left|right]. unfold goes_on; simpl. by rewrite Eop.
    + exists O. unfold goes_on; simpl. rewrite Eop; simpl. rewrite Eh, Er. split_and!; [lia|intros; lia|by right|done..].
Qed.

(** with at least one attempt allowed, [execute_with_retry] runs the
    operation [k + 1] times for some [k] below [max_attempts]: each earlier run
    raised a retryable error, the result returned or raised is that of the last
    run, and the last run is final because it succeeded, its error is not to be
    retried, or the attempts are used up.  In particular it never raises the
    "retry loop exhausted" error of its own. *)
Theorem execute_with_retry_spec w :
  1 <= max_attempts policy ->
  exists k, Z.of_nat k < max_attempts policy /\
    (forall i, (i < k)%nat -> goes_on i w = true) /\
    (Z.of_nat k + 1 = max_attempts policy \/ goes_on k w = false) /\
    (execute_with_retry w).1.1 = (nth_run k w).1 /\
    (execute_with_retry w).2 = (nth_run k w).2.
Proof.
  intros Hm. unfold execute_with_retry.
  destruct (Z.to_nat (max_attempts policy)) as [|n] eqn:E; [lia|].
  destruct (retry_loop_spec n 0 [] w) as (k&Hk&Hgo&Hend&Hw&Hr); [lia|].
  exists k. split_and!; [lia|done| |done|done]. destruct Hend; [left; lia|by right].
Qed.

Lemma retry_loop_slept n idx slept w :
  Forall (fun d => 0 < d <= MAX_BACKOFF_MS) slept ->
  Forall (fun d => 0 < d <= MAX_BACKOFF_MS) (retry_loop n idx slept w).1.2.
Proof.
  revert idx slept w. induction n as [|n IH]; intros idx slept w Hs; simpl; [done|].
  destruct (operation w) as [w' [a|exc]]; simpl; [done|].
  destruct (_ || _); [done|]. destruct (retryable_error_checker _); simpl; [|done].
  apply IH. unfold sleep_before_retry. destruct (0 <? _) eqn:E; [|done].
  apply Forall_app. split; [done|]. constructor; [|done]. breflect. split; [done|].
  unfold retry_delay_ms. destruct (_ || _); [unfold MAX_BACKOFF_MS; lia|apply Z.le_min_r].
Qed.

End retry.

(** [_execute_with_retry]: the same loop around an awaited operation. *)
Definition execute_with_retry_async {W A} (operation : W -> W * result A) (policy : RetryPolicy)
    (retryable_error_checker : option string -> bool) (jitter : Z -> Z) (w : W) : W * list Z * result A :=
  retry_loop operation policy retryable_error_checker jitter (Z.to_nat (max_attempts policy)) 0 [] w.

Definition demo_operation (n : nat) : nat * result nat :=
  (S n, if Nat.ltb n 2 then Raise (Exn "TimeoutError" "timed out") else Ok n).

Lemma execute_with_retry_spec_witness :
  1 <= max_attempts FLOW_NODE_DEFAULT /\
  (exists k, Z.of_nat k < max_attempts FLOW_NODE_DEFAULT /\
    (execute_with_retry demo_operation FLOW_NODE_DEFAULT is_retryable_error (fun _ => 7) 0%nat).2
    = (nth_run demo_operation k 0%nat).2) /\
  execute_with_retry demo_operation FLOW_NODE_DEFAULT is_retryable_error (fun _ => 7) 0%nat
    = (3%nat, [407; 807], Ok 2%nat).
Proof.
  split_and!; [vm_compute; discriminate| |reflexivity].
  destruct (execute_with_retry_spec demo_operation FLOW_NODE_DEFAULT is_retryable_error (fun _ => 7) 0%nat)
    as (k&?&_&_&_&?); [vm_compute; discriminate|]. by exists k.
Defined.

(** every policy the resolver can return allows at least one attempt, and a
    high-risk or unknown-risk agent step gets exactly one. *)
Theorem resolve_retry_policy_attempts etype risk nmax jmax :
  1 <= max_attempts (resolve_retry_policy etype risk nmax jmax) /\
  (str_strip (str_lower (str_or etype "")) = "agent" ->
   dget [("low", tt); ("medium", tt)] (str_strip (str_lower (str_or risk "high"))) = None ->
   resolve_retry_policy etype risk nmax jmax = AGENT_HIGH_RISK).
Proof.
  unfold resolve_retry_policy. split.
  - destruct (_ =s "flow"); [destruct nmax; simpl; lia|].
    destruct (_ =s "agent").
    { unfold RISK_TO_AGENT_POLICY. simpl. repeat case_match; simpl; lia. }
    destruct (_ =s "job"); [simpl; lia|].
    destruct (_ =s "nodus"); [destruct jmax; simpl; lia|simpl; lia].
  - intros -> Hr. simpl in *. repeat case_match; done.
Qed.

(** exponential delays never shrink from one retry to the next, whatever
    the jitter, once the base delay is at least 25 ms (every exponential policy
    the module defines has 200 ms or more), and no delay exceeds ten seconds. *)
Theorem retry_delay_monotone policy n j1 j2 :
  exponential_backoff policy = true -> 25 <= backoff_ms policy -> 1 <= n ->
  0 <= j1 <= MAX_JITTER_MS -> 0 <= j2 <= MAX_JITTER_MS ->
  0 < retry_delay_ms policy n j1 <= retry_delay_ms policy (n + 1) j2 /\
  retry_delay_ms policy (n + 1) j2 <= MAX_BACKOFF_MS.
Proof.
  intros He Hb Hn Hj1 Hj2. unfold retry_delay_ms. rewrite He.
  replace (n <=? 0) with false by (symmetry; apply Z.leb_gt; lia).
  replace (n + 1 <=? 0) with false by (symmetry; apply Z.leb_gt; lia).
  replace (backoff_ms policy <=? 0) with false by (symmetry; apply Z.leb_gt; lia).
  simpl. unfold MAX_JITTER_MS, MAX_BACKOFF_MS in *.
  rewrite Z.pow_add_r by lia. change (2 ^ 1) with 2.
  assert (2 <= 2 ^ n) by (change 2 with (2 ^ 1) at 1; apply Z.pow_le_mono_r; lia).
  assert (50 <= backoff_ms policy * 2 ^ n) by nia.
  replace (backoff_ms policy * (2 ^ n * 2)) with (2 * (backoff_ms policy * 2 ^ n)) by ring.
  lia.
Qed.

Lemma retry_delay_monotone_witness :
  0 < retry_delay_ms FLOW_NODE_DEFAULT 1 50 <= retry_delay_ms FLOW_NODE_DEFAULT 2 0.
Proof.
  apply (retry_delay_monotone FLOW_NODE_DEFAULT 1 50 0);
    [reflexivity|vm_compute; discriminate|lia|unfold MAX_JITTER_MS; lia|unfold MAX_JITTER_MS; lia].
Defined.
