(* ===== verification/WaitCondition.v ===== *)
(** * Wait conditions ([AINDY/core/wait_condition.py])

    The dataclass is a record, its constructor check a [result], and the stored
    JSONB dictionary a record of the four keys the code reads ([d.get(k)] gives
    [None] for a key that is absent). *)
From S2P Require Import Prelude PyDatetime.
Local Open Scope Z_scope.

Definition WAIT_TYPE_EVENT : string := "event".
Definition WAIT_TYPE_TIME : string := "time".
Definition WAIT_TYPE_EXTERNAL : string := "external".

(** [_VALID_TYPES] *)
Definition VALID_TYPES : list string := [WAIT_TYPE_EVENT; WAIT_TYPE_TIME; WAIT_TYPE_EXTERNAL].

Record WaitCondition := MkWaitCondition {
  wc_type : string;
  wc_trigger_at : option datetime;
  wc_event_name : option string;
  wc_correlation_id : option string
}.

(** The dataclass constructor with its [__post_init__] check. *)
Definition new_WaitCondition (ty : string) (trigger : option datetime) (event corr : option string)
    : result WaitCondition :=
  if str_in ty VALID_TYPES then Ok (MkWaitCondition ty trigger event corr)
  else Raise (Exn "ValueError"
    ("WaitCondition.type must be one of ['event', 'external', 'time'], got '" +:+ ty +:+ "'")).

(** What the key ["trigger_at"] of a stored dictionary may hold; [TOther] is any
    other object, with its [str()] text. *)
Inductive raw_trigger :=
| TNone
| TStr (s : string)
| TDatetime (d : datetime)
| TOther (text : string).

Record wc_dict := MkWcDict {
  d_type : option string;
  d_trigger_at : raw_trigger;
  d_event_name : option string;
  d_correlation_id : option string
}.

Section codec.
Context {codec : IsoCodec}.

(** [WaitCondition.to_dict] *)
Definition to_dict (wc : WaitCondition) : wc_dict :=
  MkWcDict (Some (wc_type wc))
    (match wc_trigger_at wc with Some d => TStr (isoformat d) | None => TNone end)
    (wc_event_name wc) (wc_correlation_id wc).

(** [_parse_utc_datetime] *)
Definition parse_utc_datetime (value : raw_trigger) : option datetime :=
  match value with
  | TNone => None
  | TDatetime d => Some (ensure_utc d)
  | TStr s | TOther s =>
      match fromisoformat (replace_Z s) with
      | Some dt => Some (ensure_utc dt)
      | None => None
      end
  end.

(** [WaitCondition.from_dict]; [None] is a falsy argument ([None] or an empty dict). *)
Definition from_dict (data : option wc_dict) : result WaitCondition :=
  match data with
  | None => new_WaitCondition WAIT_TYPE_EVENT None None None
  | Some d =>
      new_WaitCondition (str_or (d_type d) WAIT_TYPE_EVENT)
        (parse_utc_datetime (d_trigger_at d))
        (str_or_none (d_event_name d)) (str_or_none (d_correlation_id d))
  end.

(** What a condition looks like after a round trip: an aware trigger time, and
    no empty names. *)
Definition normalize_wc (wc : WaitCondition) : WaitCondition :=
  MkWaitCondition (wc_type wc) (ensure_utc <$> wc_trigger_at wc)
    (str_or_none (wc_event_name wc)) (str_or_none (wc_correlation_id wc)).

(** serialising a constructed wait condition and reading it back gives the
    condition itself with its trigger time made UTC-aware and empty names
    dropped; a second round trip changes nothing. *)
Theorem wait_condition_roundtrip ty trigger event corr wc :
  new_WaitCondition ty trigger event corr = Ok wc ->
  from_dict (Some (to_dict wc)) = Ok (normalize_wc wc) /\
  from_dict (Some (to_dict (normalize_wc wc))) = Ok (normalize_wc wc).
Proof.
  unfold new_WaitCondition. destruct (str_in ty VALID_TYPES) eqn:Hty; [|done]. intros [= <-].
  assert (str_or (Some ty) WAIT_TYPE_EVENT = ty) as Hor.
  { apply str_in_spec in Hty. unfold VALID_TYPES in Hty. rewrite !elem_of_cons, elem_of_nil in Hty. by destruct Hty as [->|[->|[->|[]]]]. }
  assert (forall o, str_or_none (str_or_none o) = str_or_none o) as Hidem by (by intros [[]|]).
  assert (forall d, parse_utc_datetime (TStr (isoformat d)) = Some (ensure_utc d)) as Hp.
  { intros d. simpl. by rewrite replace_Z_id, fromisoformat_isoformat by apply isoformat_no_Z. }
  unfold from_dict, to_dict, normalize_wc; cbn [d_type d_trigger_at d_event_name d_correlation_id
    wc_type wc_trigger_at wc_event_name wc_correlation_id].
  rewrite Hor, !Hidem. unfold new_WaitCondition. rewrite Hty.
  destruct trigger as [d|]; simpl; [|done].
  rewrite !replace_Z_id, !fromisoformat_isoformat by apply isoformat_no_Z.
  by rewrite ensure_utc_idemp.
Qed.

End codec.

(** [for_event], [for_time] and [for_external] *)
Definition for_event (event_name : string) (corr : option string) : result WaitCondition :=
  new_WaitCondition WAIT_TYPE_EVENT None (Some event_name) corr.
Definition for_time (trigger_at : datetime) (corr : option string) : result WaitCondition :=
  new_WaitCondition WAIT_TYPE_TIME (Some (ensure_utc trigger_at)) None corr.
Definition for_external (event_name : string) (corr : option string) : result WaitCondition :=
  new_WaitCondition WAIT_TYPE_EXTERNAL None (Some event_name) corr.

(** [is_time_based], [is_event_based] and [resume_event] *)
Definition is_time_based (wc : WaitCondition) : bool := wc_type wc =s WAIT_TYPE_TIME.
Definition is_event_based (wc : WaitCondition) : bool :=
  str_in (wc_type wc) [WAIT_TYPE_EVENT; WAIT_TYPE_EXTERNAL].
Definition resume_event (wc : WaitCondition) : option string :=
  if is_event_based wc then wc_event_name wc else None.

(** The constructor check makes the two kinds a partition. *)
Lemma wait_condition_kinds ty trigger event corr wc :
  new_WaitCondition ty trigger event corr = Ok wc -> is_event_based wc = negb (is_time_based wc).
Proof.
  unfold new_WaitCondition. destruct (str_in ty VALID_TYPES) eqn:H; [|done]. intros [= <-].
  apply str_in_spec in H. unfold VALID_TYPES in H. rewrite !elem_of_cons, elem_of_nil in H. by destruct H as [->|[->|[->|[]]]].
Qed.

Lemma wait_condition_roundtrip_witness :
  from_dict (Some (to_dict (MkWaitCondition "time" (Some (MkDatetime 5 None)) (Some "") None))) =
  Ok (MkWaitCondition "time" (Some (MkDatetime 5 (Some 0))) None None).
Proof. apply (wait_condition_roundtrip "time" (Some (MkDatetime 5 None)) (Some "") None). reflexivity. Defined.
