(* ===== verification/SchedulerCore.v ===== *)
(** * Scheduler ready queues and dispatch loop
    ([AINDY/kernel/scheduler/common.py], [core.py], [dispatch.py])

    The three priority queues with their round-robin cursors and counters are
    the record [core]; every method is a function on it.  The rest of the
    engine and the services it reaches (the wait table, the resource manager,
    the dispatcher) are a state [Y]: the loop of [schedule] is parameterised by
    [can_execute] and [dispatch] on that state, and [dispatch] may change the
    queues as well, because a callback that runs inline can enqueue. *)
From S2P Require Import Prelude.
Local Open Scope Z_scope.

(** [PRIORITY_HIGH], [PRIORITY_NORMAL], [PRIORITY_LOW] *)
Inductive priority := HIGH | NORMAL | LOW.

#[export] Instance priority_eq_dec : EqDecision priority.
Proof. solve_decision. Defined.

Definition PRIORITY_ORDER : list priority := [HIGH; NORMAL; LOW].

Definition priority_of_string (s : string) : option priority :=
  if s =s "high" then Some HIGH else if s =s "normal" then Some NORMAL
  else if s =s "low" then Some LOW else None.

Definition MAX_PER_SCHEDULE_CYCLE : Z := 10.

Section scheduler.
Context {CB Y : Type}.

Record ScheduledItem := MkItem {
  execution_unit_id : string;
  tenant_id : string;
  item_priority : priority;
  run_callback : CB;
  run_id : option string;
  eu_type : string;
  enqueued_at_seq : Z;
  retry_count : Z;
  max_retries : Z
}.

(** The dataclass constructor: [__post_init__] rejects an unknown priority and
    replaces the default retry limit by the environment's ([env_max_retries]). *)
Definition new_ScheduledItem (env_max_retries : Z) (eu tenant prio : string) (cb : CB)
    (run : option string) (ty : string) (retries : Z) : result ScheduledItem :=
  match priority_of_string prio with
  | None => Raise (Exn "ValueError" ("Invalid priority '" +:+ prio +:+
              "'; must be one of ('high', 'normal', 'low')"))
  | Some p => Ok (MkItem eu tenant p cb run ty 0 0
                    (if retries =? 2 then env_max_retries else retries))
  end.

Record lane := MkLane { lane_queue : list ScheduledItem; lane_cursor : option string }.

Record core := MkCore {
  lane_high : lane;
  lane_normal : lane;
  lane_low : lane;
  seq : Z;
  total_enqueued : Z;
  total_dispatched : Z;
  total_dropped : Z
}.

Definition lane_of (c : core) (p : priority) : lane :=
  match p with HIGH => lane_high c | NORMAL => lane_normal c | LOW => lane_low c end.

Definition set_lane (c : core) (p : priority) (l : lane) : core :=
  match p with
  | HIGH => MkCore l (lane_normal c) (lane_low c) (seq c) (total_enqueued c) (total_dispatched c) (total_dropped c)
  | NORMAL => MkCore (lane_high c) l (lane_low c) (seq c) (total_enqueued c) (total_dispatched c) (total_dropped c)
  | LOW => MkCore (lane_high c) (lane_normal c) l (seq c) (total_enqueued c) (total_dispatched c) (total_dropped c)
  end.

Definition add_counts (c : core) (dseq denq ddis ddrop : Z) : core :=
  MkCore (lane_high c) (lane_normal c) (lane_low c) (seq c + dseq) (total_enqueued c + denq)
    (total_dispatched c + ddis) (total_dropped c + ddrop).

(** [SchedulerCoreMixin.__init__] *)
Definition core_init : core :=
  MkCore (MkLane [] None) (MkLane [] None) (MkLane [] None) 0 0 0 0.

Definition set_seq (i : ScheduledItem) (n : Z) : ScheduledItem :=
  MkItem (execution_unit_id i) (tenant_id i) (item_priority i) (run_callback i) (run_id i)
    (eu_type i) n (retry_count i) (max_retries i).

(** [item.retry_count += 1; item.priority = PRIORITY_LOW] *)
Definition demote (i : ScheduledItem) : ScheduledItem :=
  MkItem (execution_unit_id i) (tenant_id i) LOW (run_callback i) (run_id i)
    (eu_type i) (enqueued_at_seq i) (retry_count i + 1) (max_retries i).

(** [enqueue] *)
Definition enqueue (c : core) (item : ScheduledItem) : core :=
  let c := add_counts c 1 1 0 0 in
  let item := set_seq item (seq c) in
  let l := lane_of c (item_priority item) in
  set_lane c (item_priority item) (MkLane (lane_queue l ++ [item]) (lane_cursor l)).

(** [self._queues[item.priority].appendleft(item); self._total_dispatched -= 1] *)
Definition put_back (c : core) (item : ScheduledItem) : core :=
  let l := lane_of c (item_priority item) in
  add_counts (set_lane c (item_priority item) (MkLane (item :: lane_queue l) (lane_cursor l))) 0 0 (-1) 0.

(** One queue of [dequeue_next]: the rotation when the head belongs to the tenant
    served last, then [popleft]. *)
Definition lane_pop (l : lane) : option (ScheduledItem * lane) :=
  let q := match lane_queue l with
           | a :: b :: rest =>
               if match lane_cursor l with Some t => tenant_id a =s t | None => false end
               then b :: rest ++ [a] else a :: b :: rest
           | q => q
           end in
  match q with
  | [] => None
  | item :: rest => Some (item, MkLane rest (Some (tenant_id item)))
  end.

(** [dequeue_next] *)
Fixpoint dequeue_from (ps : list priority) (c : core) : core * option ScheduledItem :=
  match ps with
  | [] => (c, None)
  | p :: ps' =>
      match lane_pop (lane_of c p) with
      | None => dequeue_from ps' c
      | Some (item, l) => (add_counts (set_lane c p l) 0 0 1 0, Some item)
      end
  end.
Definition dequeue_next (c : core) : core * option ScheduledItem := dequeue_from PRIORITY_ORDER c.

(** [queue_depth] *)
Definition queue_depth (c : core) : list (priority * Z) :=
  map (fun p => (p, Z.of_nat (length (lane_queue (lane_of c p))))) PRIORITY_ORDER.

(** [sum(len(q) for q in self._queues.values())] *)
Definition queue_size (c : core) : Z :=
  Z.of_nat (length (lane_queue (lane_high c)) + length (lane_queue (lane_normal c)) +
            length (lane_queue (lane_low c))).

(** [reset], the part on the queues *)
Definition core_reset (c : core) : core := core_init.

(** ** The loop of [schedule] *)

Variable can_execute : string -> string -> Y -> Y * bool.
Variable dispatch : ScheduledItem -> core * Y -> (core * Y) * result unit.

(** The loop's local variables.  [lp_dispatched] holds the items whose dispatch
    returned ([dispatched] is its length) and [lp_failures] the calls of
    [_emit_dispatch_failure]. *)
Record loop := MkLoop {
  lp_core : core;
  lp_ext : Y;
  lp_dispatched : list ScheduledItem;
  lp_saturated : list string;
  lp_retry : list ScheduledItem;
  lp_processed : Z;
  lp_skips : Z;
  lp_failures : list (ScheduledItem * exn)
}.

(** One pass of [while processed < MAX_PER_SCHEDULE_CYCLE]: [inl] leaves the loop. *)
Definition loop_body (s : loop) : loop + loop :=
  if negb (lp_processed s <? MAX_PER_SCHEDULE_CYCLE) then inl s else
  let (c1, popped) := dequeue_next (lp_core s) in
  match popped with
  | None => inl (MkLoop c1 (lp_ext s) (lp_dispatched s) (lp_saturated s) (lp_retry s)
                   (lp_processed s) (lp_skips s) (lp_failures s))
  | Some item =>
      if str_in (tenant_id item) (lp_saturated s) then
        let c2 := put_back c1 item in
        let skips := lp_skips s + 1 in
        let s' := MkLoop c2 (lp_ext s) (lp_dispatched s) (lp_saturated s) (lp_retry s)
                    (lp_processed s) skips (lp_failures s) in
        if queue_size c2 <=? skips then inl s' else inr s'
      else
        let processed := lp_processed s + 1 in
        match can_execute (tenant_id item) (execution_unit_id item) (lp_ext s) with
        | (y1, false) =>
            inr (MkLoop (put_back c1 item) y1 (lp_dispatched s) (tenant_id item :: lp_saturated s)
                   (lp_retry s) processed 0 (lp_failures s))
        | (y1, true) =>
            match dispatch item (c1, y1) with
            | ((c2, y2), Ok _) =>
                inr (MkLoop c2 y2 (lp_dispatched s ++ [item]) (lp_saturated s) (lp_retry s)
                       processed 0 (lp_failures s))
            | ((c2, y2), Raise exc) =>
                if retry_count item <? max_retries item then
                  inr (MkLoop c2 y2 (lp_dispatched s) (lp_saturated s) (lp_retry s ++ [demote item])
                         processed 0 (lp_failures s))
                else
                  inr (MkLoop (add_counts c2 0 0 0 1) y2 (lp_dispatched s) (lp_saturated s) (lp_retry s)
                         processed 0 (lp_failures s ++ [(item, exc)]))
            end
        end
  end.

Fixpoint loop_run (fuel : nat) (s : loop) : option loop :=
  match fuel with
  | O => None
  | S fuel' => match loop_body s with inl s' => Some s' | inr s' => loop_run fuel' s' end
  end.

(** [schedule] from the line after [tick_time_waits]: the loop and the
    re-enqueueing of the items to retry. *)
Definition loop_start (c : core) (y : Y) : loop := MkLoop c y [] [] [] 0 0 [].
Definition schedule_ready (fuel : nat) (c : core) (y : Y) : option loop :=
  match loop_run fuel (loop_start c y) with
  | None => None
  | Some s => Some (MkLoop (foldl enqueue (lp_core s) (lp_retry s)) (lp_ext s) (lp_dispatched s)
                      (lp_saturated s) [] (lp_processed s) (lp_skips s) (lp_failures s))
  end.

End scheduler.

Arguments ScheduledItem CB : clear implicits.
Arguments lane CB : clear implicits.
Arguments core CB : clear implicits.
Arguments loop CB Y : clear implicits.

(** ** Lemmas on the queues *)
Section lemmas.
Context {CB Y : Type}.
Implicit Types (c : core CB) (l : lane CB) (i : ScheduledItem CB).

(** All queued items, highest priority first. *)
Definition items c : list (ScheduledItem CB) :=
  lane_queue (lane_high c) ++ lane_queue (lane_normal c) ++ lane_queue (lane_low c).

(** What identifies an item through retries. *)
Definition item_key i : string * string * option string :=
  (execution_unit_id i, tenant_id i, run_id i).

(** The engine's invariant: items sit in the queue of their priority, the
    sequence number counts the enqueues, and what was enqueued is either
    queued or counted as dispatched. *)
Definition core_wf c : Prop :=
  (forall p, Forall (fun i => item_priority i = p) (lane_queue (lane_of c p))) /\
  seq c = total_enqueued c /\
  total_enqueued c = total_dispatched c + queue_size c /\
  0 <= total_dropped c.

Lemma queue_size_items c : queue_size c = Z.of_nat (length (items c)).
Proof. unfold queue_size, items. rewrite !length_app. lia. Qed.

Lemma lane_of_set_lane c p q l :
  lane_of (set_lane c p l) q = if decide (p = q) then l else lane_of c q.
Proof. by destruct p, q. Qed.

Lemma lane_of_add_counts c a b d e p : lane_of (add_counts c a b d e) p = lane_of c p.
Proof. by destruct p. Qed.

Lemma lane_pop_None l : lane_pop l = None <-> lane_queue l = [].
Proof.
  unfold lane_pop. destruct (lane_queue l) as [|a [|b rest]]; [done|done|].
  by destruct (match lane_cursor l with Some _ => _ | None => _ end).
Qed.

Lemma lane_pop_perm l i l' : lane_pop l = Some (i, l') -> lane_queue l ≡ₚ i :: lane_queue l'.
Proof.
  unfold lane_pop. destruct (lane_queue l) as [|a [|b rest]]; [done|intros; by simplify_eq/=|].
  destruct (match lane_cursor l with Some _ => _ | None => _ end); intros; simplify_eq/=; [|done].
  solve_Permutation.
Qed.

Lemma dequeue_from_spec ps c c' o :
  dequeue_from ps c = (c', o) ->
  match o with
  | None => c' = c /\ Forall (fun p => lane_queue (lane_of c p) = []) ps
  | Some i => exists ps1 p ps2 l, ps = ps1 ++ p :: ps2 /\
      Forall (fun p => lane_queue (lane_of c p) = []) ps1 /\
      lane_pop (lane_of c p) = Some (i, l) /\ c' = add_counts (set_lane c p l) 0 0 1 0
  end.
Proof.
  induction ps as [|p ps IH]; simpl; [intros [= <- <-]; done|].
  destruct (lane_pop (lane_of c p)) as [[i l]|] eqn:E.
  - intros [= <- <-]. by exists [], p, ps, l.
  - apply lane_pop_None in E. intros H%IH. destruct o as [i|].
    + destruct H as (ps1&p'&ps2&l&->&Hps&Hl&->). exists (p :: ps1), p', ps2, l.
      split_and!; [done|by constructor|done..].
    + destruct H as [-> H]. split; [done|by constructor].
Qed.

Lemma dequeue_next_None c c' : dequeue_next c = (c', None) -> c' = c /\ items c = [].
Proof.
  intros [-> H]%dequeue_from_spec. split; [done|].
  unfold PRIORITY_ORDER in H. rewrite !Forall_cons in H. destruct H as (H1&H2&H3&_). unfold items. simpl in *.
  by rewrite H1, H2, H3.
Qed.

Lemma dequeue_next_Some c c' i :
  dequeue_next c = (c', Some i) ->
  exists p l, lane_pop (lane_of c p) = Some (i, l) /\ c' = add_counts (set_lane c p l) 0 0 1 0 /\
    items c ≡ₚ i :: items c'.
Proof.
  intros (ps1&p&ps2&l&_&_&Hl&->)%dequeue_from_spec. exists p, l. split_and!; [done..|].
  apply lane_pop_perm in Hl. unfold items. destruct p; simpl in *; rewrite Hl; solve_Permutation.
Qed.

Lemma lane_pop_spec l i l' :
  lane_pop l = Some (i, l') ->
  exists q, l' = MkLane q (Some (tenant_id i)) /\
    (lane_queue l = i :: q /\ (q = [] \/ lane_cursor l <> Some (tenant_id i)) \/
     exists a r, lane_queue l = a :: i :: r /\ q = r ++ [a] /\ lane_cursor l = Some (tenant_id a)).
Proof.
  unfold lane_pop. destruct (lane_queue l) as [|a [|b r]]; [done|naive_solver|].
  destruct (lane_cursor l) as [t|]; [|naive_solver].
  destruct (String.eqb_spec (tenant_id a) t) as [<-|]; naive_solver.
Qed.

(** What precedes a priority in the scan order. *)
Definition earlier (p' p : priority) : Prop :=
  match p', p with HIGH, NORMAL | HIGH, LOW | NORMAL, LOW => True | _, _ => False end.

Lemma empty_before ps1 ps2 p p' c :
  PRIORITY_ORDER = ps1 ++ p :: ps2 -> earlier p' p ->
  Forall (fun p => lane_queue (lane_of c p) = []) ps1 -> lane_queue (lane_of c p') = [].
Proof.
  unfold PRIORITY_ORDER. intros Hps He Hf.
  destruct ps1 as [|x1 [|x2 [|x3 [|]]]]; simplify_eq/=;
    rewrite ?Forall_cons in Hf; destruct p'; simpl in *; try tauto.
  all: by destruct ps1.
Qed.

Lemma size_perm c c' i : items c ≡ₚ i :: items c' -> queue_size c = queue_size c' + 1.
Proof. intros H%Permutation_length. simpl in H. rewrite !queue_size_items. lia. Qed.

Lemma put_back_items c i : items (put_back c i) ≡ₚ i :: items c.
Proof. unfold put_back, items. destruct (item_priority i); simpl; solve_Permutation. Qed.

Lemma enqueue_items c i : items (enqueue c i) ≡ₚ set_seq i (seq c + 1) :: items c.
Proof. unfold enqueue, items. simpl. destruct (item_priority i); simpl; solve_Permutation. Qed.

(** Replacing one queue keeps every item in the queue of its priority. *)
Lemma lanes_prio_set c p l :
  (forall p', Forall (fun i => item_priority i = p') (lane_queue (lane_of c p'))) ->
  Forall (fun i => item_priority i = p) (lane_queue l) ->
  forall p', Forall (fun i => item_priority i = p') (lane_queue (lane_of (set_lane c p l) p')).
Proof.
  intros Hp Hq p'. rewrite lane_of_set_lane. by destruct (decide (p = p')) as [->|].
Qed.

Lemma dequeue_next_wf c c' i : core_wf c -> dequeue_next c = (c', Some i) -> core_wf c'.
Proof.
  intros (Hp&Hs&Ht&Hd) H. destruct (dequeue_next_Some _ _ _ H) as (p&l&Hl&->&Hsz%size_perm).
  unfold core_wf. split_and!.
  - intros p'. rewrite lane_of_add_counts. apply lanes_prio_set; [done|].
    specialize (Hp p). rewrite (lane_pop_perm _ _ _ Hl) in Hp. by inversion Hp.
  - destruct p; simpl; lia.
  - rewrite Hsz in Ht. destruct p; simpl in *; lia.
  - by destruct p; simpl; lia.
Qed.

Lemma put_back_wf c i : core_wf c -> core_wf (put_back c i).
Proof.
  intros (Hp&Hs&Ht&Hd). pose proof (size_perm _ _ _ (put_back_items c i)) as Hsz.
  unfold core_wf. split_and!.
  - intros p'. unfold put_back. rewrite lane_of_add_counts. apply lanes_prio_set; [done|].
    constructor; [done|apply Hp].
  - unfold put_back. destruct (item_priority i); simpl; lia.
  - rewrite Hsz. unfold put_back. destruct (item_priority i); simpl; lia.
  - unfold put_back. destruct (item_priority i); simpl; lia.
Qed.

Lemma enqueue_wf c i : core_wf c -> core_wf (enqueue c i).
Proof.
  intros (Hp&Hs&Ht&Hd). pose proof (size_perm _ _ _ (enqueue_items c i)) as Hsz.
  unfold core_wf. split_and!.
  - unfold enqueue. apply lanes_prio_set; [intros p'; rewrite lane_of_add_counts; apply Hp|].
    simpl. rewrite lane_of_add_counts. apply Forall_app. split; [apply Hp|by constructor].
  - unfold enqueue. simpl. destruct (item_priority i); simpl; lia.
  - rewrite Hsz. unfold enqueue. simpl. destruct (item_priority i); simpl; lia.
  - unfold enqueue. simpl. destruct (item_priority i); simpl; lia.
Qed.

Lemma drop_wf c : core_wf c -> core_wf (add_counts c 0 0 0 1).
Proof.
  intros (Hp&Hs&Ht&Hd). unfold core_wf. split_and!; simpl; [|lia|unfold queue_size in *; simpl in *; lia|lia].
  intros p. rewrite lane_of_add_counts. apply Hp.
Qed.

Lemma core_init_wf : core_wf core_init.
Proof. split_and!; [by intros []|done..]. Qed.

(** ** Operations the callers of the engine interleave *)
Inductive core_step : core CB -> core CB -> Prop :=
| cs_enqueue c i : core_step c (enqueue c i)
| cs_dequeue c c' i : dequeue_next c = (c', Some i) -> core_step c c'
| cs_put_back c i : core_step c (put_back c i)
| cs_drop c : core_step c (add_counts c 0 0 0 1)
| cs_reset c : core_step c (core_reset c).
End lemmas.

#[export] Hint Resolve enqueue_wf put_back_wf drop_wf dequeue_next_wf core_init_wf : aindy.

(** C33: in every state the queue operations can reach from a new engine, under
    any interleaving, each item is in the queue of its own priority, the
    sequence number equals the number of enqueues, and the number enqueued
    equals the number dispatched plus the number still queued. *)
Theorem core_invariant {CB} (c : core CB) : rtc core_step core_init c -> core_wf c.
Proof.
  apply rtc_invariant; [|apply core_init_wf].
  intros x y Hx Hs. destruct Hs; eauto with aindy.
Qed.

Lemma core_invariant_witness :
  core_wf (put_back (enqueue core_init (MkItem "eu" "t" NORMAL 0%nat None "flow" 0 0 2))
             (MkItem "e2" "u" HIGH 1%nat None "flow" 0 0 2)).
Proof.
  apply (core_invariant (CB := nat)). eapply rtc_l; [apply cs_enqueue|].
  eapply rtc_l; [apply cs_put_back|]. apply rtc_refl.
Defined.

(** [dequeue_next] serves the highest non-empty priority; within it, the
    oldest item, unless that item's tenant is the one served last and another
    item is queued, in which case the oldest item moves to the back and the
    second oldest is served.  It returns nothing exactly when all queues are
    empty, and the queue the item leaves records its tenant. *)
Theorem dequeue_next_spec {CB} (c : core CB) :
  match dequeue_next c with
  | (c', None) => c' = c /\ items c = []
  | (c', Some i) => exists p q,
      (forall p', p' <> p -> lane_of c' p' = lane_of c p') /\
      (p = NORMAL -> lane_queue (lane_of c HIGH) = []) /\
      (p = LOW -> lane_queue (lane_of c HIGH) = [] /\ lane_queue (lane_of c NORMAL) = []) /\
      lane_of c' p = MkLane q (Some (tenant_id i)) /\
      (lane_queue (lane_of c p) = i :: q /\
         (q = [] \/ lane_cursor (lane_of c p) <> Some (tenant_id i)) \/
       exists a r, lane_queue (lane_of c p) = a :: i :: r /\ q = r ++ [a] /\
         lane_cursor (lane_of c p) = Some (tenant_id a))
  end.
Proof.
  destruct (dequeue_next c) as [c' [i|]] eqn:H; [|by apply dequeue_next_None].
  apply dequeue_from_spec in H as (ps1&p&ps2&l&Hps&Hemp&Hl&->).
  destruct (lane_pop_spec _ _ _ Hl) as (q&->&Hq). exists p, q. split_and!.
  - intros p' Hne. rewrite lane_of_add_counts, lane_of_set_lane. by rewrite decide_False.
  - intros ->. by eapply (empty_before ps1 ps2 NORMAL HIGH).
  - intros ->. split; by eapply (empty_before ps1 ps2 LOW).
  - by rewrite lane_of_add_counts, lane_of_set_lane, decide_True.
  - done.
Qed.

(** ** The dispatch loop *)
Section loop_lemmas.
Context {CB Y : Type}.
Variable can_execute : string -> string -> Y -> Y * bool.
Variable dispatch : ScheduledItem CB -> core CB * Y -> (core CB * Y) * result unit.
Abbreviation body := (loop_body can_execute dispatch).
Abbreviation run := (loop_run can_execute dispatch).
Implicit Types (s : loop CB Y).

(** A property kept by every pass of the loop holds when the loop ends. *)
Lemma loop_run_rule (P : loop CB Y -> Prop) n s s' :
  (forall x y, P x -> body x = inr y \/ body x = inl y -> P y) ->
  P s -> run n s = Some s' -> P s'.
Proof.
  intros Hstep. revert s. induction n as [|n IH]; simpl; [done|]. intros s Hs.
  destruct (body s) as [x|x] eqn:E; [intros [= <-]|]; eauto.
Qed.

(** A pass that continues either handles an item or skips a saturated one
    while fewer items were skipped in a row than are queued. *)
Lemma loop_body_progress s s' :
  body s = inr s' ->
  lp_processed s < 10 /\
  (lp_processed s' = lp_processed s + 1 \/
   lp_processed s' = lp_processed s /\ lp_skips s' = lp_skips s + 1 /\
   queue_size (lp_core s') = queue_size (lp_core s) /\ lp_skips s' < queue_size (lp_core s)).
Proof.
  unfold loop_body, MAX_PER_SCHEDULE_CYCLE. destruct (Z.ltb_spec (lp_processed s) 10); [|done]. simpl.
  destruct (dequeue_next (lp_core s)) as [c1 [i|]] eqn:E; [|done].
  apply dequeue_next_Some in E as (p&l&_&_&Hsz%size_perm).
  pose proof (size_perm _ _ _ (put_back_items c1 i)) as Hpb.
  destruct (str_in _ _).
  - destruct (Z.leb_spec (queue_size (put_back c1 i)) (lp_skips s + 1)); [done|].
    intros [= <-]. simpl. split; [done|right]. lia.
  - destruct (can_execute _ _ _) as [y1 []].
    + destruct (dispatch _ _) as [[c2 y2] [u|x]]; [|destruct (_ <? _)]; intros [= <-]; simpl; auto.
    + intros [= <-]; simpl; auto.
Qed.

Lemma loop_terminates s : exists n s', run n s = Some s'.
Proof.
  remember (Z.to_nat (10 - lp_processed s)) as a eqn:Ha. revert s Ha.
  induction a as [a IHa] using lt_wf_ind. intros s.
  remember (Z.to_nat (queue_size (lp_core s) - lp_skips s)) as b eqn:Hb. revert s Hb.
  induction b as [b IHb] using lt_wf_ind. intros s Hb Ha.
  destruct (body s) as [x|x] eqn:E; [exists 1%nat, x; simpl; by rewrite E|].
  cut (exists n s', run n x = Some s').
  { intros (n&s'&Hn). exists (S n), s'. simpl. by rewrite E. }
  apply loop_body_progress in E as [Hlt [Hp|(Hp&Hk&Hq&Hkq)]].
  - eapply (IHa (Z.to_nat (10 - lp_processed x))); [lia|done].
  - eapply (IHb (Z.to_nat (queue_size (lp_core x) - lp_skips x))); lia.
Qed.

Definition keys (l : list (ScheduledItem CB)) := map item_key l.

(** Every item the loop has seen is accounted for: handed over, kept for a
    retry, given up with a report, or still queued; [new] are the items that
    callbacks enqueued meanwhile. *)
Definition accounted (start : core CB) s : Prop :=
  exists new, keys (items start) ++ new ≡ₚ
    keys (lp_dispatched s) ++ keys (lp_retry s) ++ keys (lp_failures s).*1 ++ keys (items (lp_core s)).

Definition dispatch_keeps : Prop :=
  forall i c y, exists new, keys (items (dispatch i (c, y)).1.1) ≡ₚ new ++ keys (items c).

Lemma keys_perm l l' : l ≡ₚ l' -> keys l ≡ₚ keys l'.
Proof. apply Permutation_map. Qed.

Lemma keys_app l l' : keys (l ++ l') = keys l ++ keys l'.
Proof. apply map_app. Qed.

Lemma loop_body_accounted start s s' :
  dispatch_keeps -> accounted start s -> body s = inr s' \/ body s = inl s' -> accounted start s'.
Proof.
  unfold accounted. intros Hd [new Hacc]. unfold loop_body.
  destruct (negb _); [intros [|]; simplify_eq/=; eauto|].
  destruct (dequeue_next (lp_core s)) as [c1 [i|]] eqn:E.
  2:{ apply dequeue_next_None in E as [-> _]. intros [|]; simplify_eq/=; eauto. }
  apply dequeue_next_Some in E as (p&l&_&_&Hi%keys_perm).
  pose proof (keys_perm _ _ (put_back_items c1 i)) as Hpb. rewrite Hi in Hacc. simpl in Hacc, Hpb.
  destruct (str_in _ _); [case_match; intros [|]; simplify_eq/=; exists new; by rewrite Hpb|].
  destruct (can_execute _ _ _) as [y1 []].
  2:{ intros [|]; simplify_eq/=; exists new; by rewrite Hpb. }
  destruct (Hd i c1 y1) as [new' Hnew].
  destruct (dispatch i (c1, y1)) as [[c2 y2] [u|x]]; simpl in Hnew; [|destruct (_ <? _)];
    intros [|]; simplify_eq/=; exists (new ++ new');
    rewrite ?fmap_app, ?keys_app, app_assoc, Hacc; simpl;
    try change (items (add_counts c2 0 0 0 1)) with (items c2); rewrite Hnew;
    try change (item_key (demote i)) with (item_key i); solve_Permutation.
Qed.
End loop_lemmas.

Section loop_more.
Context {CB Y : Type}.
Variable can_execute : string -> string -> Y -> Y * bool.
Variable dispatch : ScheduledItem CB -> core CB * Y -> (core CB * Y) * result unit.
Abbreviation body := (loop_body can_execute dispatch).

(** The queued items satisfy [P], and the loop's local lists are within bounds. *)
Definition loop_inv (P : core CB -> Prop) (s : loop CB Y) : Prop :=
  P (lp_core s) /\ Z.of_nat (length (lp_dispatched s)) <= lp_processed s <= 10.

(** A property of the queues that [dequeue_next], [put_back] and [dispatch]
    keep is kept by a pass of the loop. *)
Lemma loop_body_inv (P : core CB -> Prop) s s' :
  (forall c c' i, P c -> dequeue_next c = (c', Some i) -> P c' /\ P (put_back c' i)) ->
  (forall i c c' y, P c -> dequeue_next c = (c', Some i) -> P (dispatch i (c', y)).1.1) ->
  (forall c, P c -> P (add_counts c 0 0 0 1)) ->
  loop_inv P s -> body s = inr s' \/ body s = inl s' -> loop_inv P s'.
Proof.
  intros Hdeq Hdis Hdrop [HP Hb]. unfold loop_body, loop_inv, MAX_PER_SCHEDULE_CYCLE.
  destruct (Z.ltb_spec (lp_processed s) 10); simpl; [|intros [|]; simplify_eq/=; auto].
  destruct (dequeue_next (lp_core s)) as [c1 [i|]] eqn:E.
  2:{ apply dequeue_next_None in E as [-> _]. intros [|]; simplify_eq/=; auto. }
  destruct (Hdeq _ _ _ HP E) as [H1 H2].
  destruct (str_in _ _); [case_match; intros [|]; simplify_eq/=; auto|].
  destruct (can_execute _ _ _) as [y1 []].
  2:{ intros [|]; simplify_eq/=; split; [done|lia]. }
  pose proof (Hdis i (lp_core s) c1 y1 HP E) as H3.
  destruct (dispatch i (c1, y1)) as [[c2 y2] [u|x]]; simpl in H3; [|destruct (_ <? _)];
    intros [|]; simplify_eq/=; rewrite ?length_app; simpl; (split; [auto|lia]).
Qed.

Lemma foldl_enqueue_wf l (c : core CB) : core_wf c -> core_wf (foldl enqueue c l).
Proof. revert c. induction l; simpl; eauto with aindy. Qed.

Lemma foldl_enqueue_keys l (c : core CB) : keys (items (foldl enqueue c l)) ≡ₚ keys l ++ keys (items c).
Proof.
  revert c. induction l as [|i l IH]; intros c; simpl; [done|].
  rewrite IH, (keys_perm _ _ (enqueue_items c i)). simpl.
  change (item_key (set_seq i (seq c + 1))) with (item_key i). solve_Permutation.
Qed.
End loop_more.

(** The loop of [schedule] terminates, whatever the resource manager
    answers and whatever the dispatched callbacks do to the queues: items may
    be enqueued without bound while it runs. *)
Lemma schedule_ready_terminates {CB Y} can_execute dispatch (c : core CB) (y : Y) :
  exists fuel s, schedule_ready can_execute dispatch fuel c y = Some s.
Proof.
  destruct (loop_terminates can_execute dispatch (loop_start c y)) as (n&s&Hn).
  exists n. unfold schedule_ready. rewrite Hn. eauto.
Qed.

(** a [schedule] cycle hands over at most [MAX_PER_SCHEDULE_CYCLE] items
    and keeps the queue invariant, for every dispatcher whose callbacks keep it. *)
Theorem schedule_keeps_invariant {CB Y} can_execute dispatch fuel (c : core CB) (y : Y) s :
  (forall i c y, core_wf c -> core_wf (dispatch i (c, y)).1.1) ->
  core_wf c -> schedule_ready can_execute dispatch fuel c y = Some s ->
  core_wf (lp_core s) /\ Z.of_nat (length (lp_dispatched s)) <= MAX_PER_SCHEDULE_CYCLE.
Proof.
  unfold schedule_ready, MAX_PER_SCHEDULE_CYCLE. intros Hd Hwf.
  destruct (loop_run _ _ _ _) as [x|] eqn:E; [|done]. intros [= <-].
  eapply (loop_run_rule _ _ (loop_inv core_wf)) in E as [H1 H2].
  - simpl. split; [by apply foldl_enqueue_wf|lia].
  - intros a b. apply loop_body_inv; eauto 6 with aindy.
  - split; simpl; [done|lia].
Qed.

(** A dispatcher that runs its callback inline; the callback of the item
    ["grow"] enqueues another item and the callback of ["bad"] raises. *)
Definition demo_dispatch (i : ScheduledItem nat) (cy : core nat * Z) : (core nat * Z) * result unit :=
  if execution_unit_id i =s "grow" then ((enqueue cy.1 (MkItem "new" "t" LOW 0%nat None "flow" 0 0 2), cy.2), Ok ())
  else if execution_unit_id i =s "bad" then (cy, Raise (Exn "RuntimeError" "boom"))
  else (cy, Ok ()).
Definition demo_item (eu t : string) (p : priority) : ScheduledItem nat := MkItem eu t p 0%nat (Some eu) "flow" 0 0 2.
Definition demo_core : core nat :=
  foldl enqueue core_init [demo_item "grow" "t" NORMAL; demo_item "bad" "u" HIGH; demo_item "x" "v" LOW].
Definition demo_can (t eu : string) (y : Z) : Z * bool := (y + 1, negb (t =s "v")).

Lemma schedule_keeps_invariant_witness :
  exists s, schedule_ready demo_can demo_dispatch 20 demo_core 0 = Some s /\ core_wf (lp_core s) /\
    Z.of_nat (length (lp_dispatched s)) <= MAX_PER_SCHEDULE_CYCLE.
Proof.
  eexists. split; [vm_compute; reflexivity|].
  eapply (schedule_keeps_invariant demo_can demo_dispatch 20 demo_core 0).
  - intros i c y H. unfold demo_dispatch. simpl. repeat case_match; simpl; auto. by apply enqueue_wf.
  - apply foldl_enqueue_wf, core_init_wf.
  - vm_compute. reflexivity.
Defined.



(** ** Retries *)
Definition within_retries {CB} (i : ScheduledItem CB) : Prop := 0 <= retry_count i <= max_retries i.

Section retries.
Context {CB Y : Type}.
Variable can_execute : string -> string -> Y -> Y * bool.
Variable dispatch : ScheduledItem CB -> core CB * Y -> (core CB * Y) * result unit.

Definition retry_inv (s : loop CB Y) : Prop :=
  Forall within_retries (items (lp_core s)) /\ Forall within_retries (lp_retry s) /\
  Forall (fun i => item_priority i = LOW /\ 1 <= retry_count i) (lp_retry s) /\
  Forall (fun f => retry_count f.1 = max_retries f.1) (lp_failures s).

Definition dispatch_within : Prop := forall i c y,
  Forall within_retries (items c) -> Forall within_retries (items (dispatch i (c, y)).1.1).

Lemma loop_body_retries s s' :
  dispatch_within -> retry_inv s ->
  loop_body can_execute dispatch s = inr s' \/ loop_body can_execute dispatch s = inl s' -> retry_inv s'.
Proof.
  unfold retry_inv. intros Hd (Hq&Hr&Hl&Hf). unfold loop_body.
  destruct (negb _); [intros [|]; simplify_eq/=; auto|].
  destruct (dequeue_next (lp_core s)) as [c1 [i|]] eqn:E.
  2:{ apply dequeue_next_None in E as [-> _]. intros [|]; simplify_eq/=; auto. }
  apply dequeue_next_Some in E as (p&l&_&_&Hi). rewrite Hi, Forall_cons in Hq. destruct Hq as [Hwi Hq].
  assert (Forall within_retries (items (put_back c1 i))) as Hpb
    by (rewrite put_back_items; by constructor).
  destruct (str_in _ _); [case_match; intros [|]; simplify_eq/=; auto|].
  destruct (can_execute _ _ _) as [y1 []]; [|intros [|]; simplify_eq/=; auto].
  pose proof (Hd i c1 y1 Hq) as Hq'. unfold within_retries in Hwi.
  destruct (dispatch i (c1, y1)) as [[c2 y2] [u|x]]; simpl in Hq';
    [|destruct (Z.ltb_spec (retry_count i) (max_retries i))];
    intros [|]; simplify_eq/=; rewrite ?Forall_app, ?Forall_singleton; split_and!; auto;
    unfold within_retries; simpl; lia.
Qed.

Lemma foldl_enqueue_retries l (c : core CB) :
  Forall within_retries l -> Forall within_retries (items c) ->
  Forall within_retries (items (foldl enqueue c l)).
Proof.
  revert c. induction l as [|i l IH]; intros c; simpl; [done|]. intros [Hi Hl]%Forall_cons Hc.
  apply IH; [done|]. rewrite enqueue_items. by constructor.
Qed.
End retries.

(** retry bookkeeping of [schedule].  When every queued item is within its
    retry limit, so is every item queued after the cycle, and an item is given
    up only once its failed attempts used the whole limit. *)
Theorem schedule_retry_budget {CB Y} can_execute dispatch fuel (c : core CB) (y : Y) s :
  dispatch_within dispatch -> Forall within_retries (items c) ->
  schedule_ready can_execute dispatch fuel c y = Some s ->
  Forall within_retries (items (lp_core s)) /\
  Forall (fun f => retry_count f.1 = max_retries f.1) (lp_failures s).
Proof.
  unfold schedule_ready. intros Hd Hc.
  destruct (loop_run _ _ _ _) as [x|] eqn:E; [|done]. intros [= <-].
  eapply (loop_run_rule _ _ retry_inv) in E as (H1&H2&_&H4).
  - simpl. split; [by apply foldl_enqueue_retries|done].
  - intros a b. by apply loop_body_retries.
  - by split_and!; simpl.
Qed.

Lemma schedule_retry_budget_witness :
  exists s, schedule_ready demo_can demo_dispatch 20 demo_core 0 = Some s /\
    Forall within_retries (items (lp_core s)) /\
    Forall (fun f => retry_count f.1 = max_retries f.1) (lp_failures s).
Proof.
  eexists. split; [vm_compute; reflexivity|].
  eapply (schedule_retry_budget demo_can demo_dispatch 20 demo_core 0).
  - intros i c y H. unfold demo_dispatch. simpl. repeat case_match; simpl; auto.
    rewrite enqueue_items. constructor; [split; simpl; lia|done].
  - repeat constructor; simpl; lia.
  - vm_compute. reflexivity.
Defined.

(** ** Limits of the fairness *)
Section blocking.
Context {CB Y : Type}.
Variable can_execute : string -> string -> Y -> Y * bool.
Variable dispatch : ScheduledItem CB -> core CB * Y -> (core CB * Y) * result unit.

Definition denied (i : ScheduledItem CB) : Prop :=
  forall y, (can_execute (tenant_id i) (execution_unit_id i) y).2 = false.

Definition high_blocked (s : loop CB Y) : Prop :=
  lane_queue (lane_high (lp_core s)) <> [] /\
  Forall (fun i => denied i /\ item_priority i = HIGH) (lane_queue (lane_high (lp_core s))) /\
  lp_dispatched s = [] /\ lp_retry s = [] /\ lp_failures s = [].

Lemma loop_body_blocked s s' :
  high_blocked s ->
  loop_body can_execute dispatch s = inr s' \/ loop_body can_execute dispatch s = inl s' -> high_blocked s'.
Proof.
  unfold high_blocked. intros (Hne&Hall&Hd&Hr&Hf). unfold loop_body.
  destruct (negb _); [intros [|]; simplify_eq/=; auto|].
  unfold dequeue_next, PRIORITY_ORDER. cbn [dequeue_from lane_of].
  destruct (lane_pop (lane_high (lp_core s))) as [[i l]|] eqn:E; [|by apply lane_pop_None in E].
  rewrite (lane_pop_perm _ _ _ E) in Hall.
  pose proof Hall as [[Hi Hp] _]%Forall_cons.
  unfold put_back. rewrite Hp. simpl. specialize (Hi (lp_ext s)).
  destruct (str_in _ _); [case_match; intros [|]; simplify_eq/=; split_and!; done|].
  destruct (can_execute _ _ _) as [y1 b]; simpl in Hi; subst b.
  intros [|]; simplify_eq/=; split_and!; done.
Qed.
End blocking.

(** a saturated tenant blocks the lower priorities of every other tenant.
    When the resource manager refuses all the items of the high queue, a
    [schedule] cycle hands nothing over, whatever the other queues hold. *)
Theorem saturated_high_blocks_all {CB Y} can_execute dispatch fuel (c : core CB) (y : Y) s :
  core_wf c -> lane_queue (lane_high c) <> [] ->
  Forall (denied can_execute) (lane_queue (lane_high c)) ->
  schedule_ready can_execute dispatch fuel c y = Some s ->
  lp_dispatched s = [] /\ lp_failures s = [].
Proof.
  unfold schedule_ready. intros (Hp&_) Hne Hden.
  destruct (loop_run _ _ _ _) as [x|] eqn:E; [|done]. intros [= <-].
  eapply (loop_run_rule _ _ (high_blocked can_execute)) in E as (_&_&H1&H2&H3).
  - done.
  - intros a b. by apply loop_body_blocked.
  - split_and!; simpl; try done. apply Forall_and. split; [done|exact (Hp HIGH)].
Qed.

Lemma saturated_high_blocks_all_witness :
  exists s, schedule_ready demo_can demo_dispatch 20
      (foldl enqueue core_init [demo_item "x" "v" HIGH; demo_item "y" "w" NORMAL]) 0 = Some s /\
    lp_dispatched s = [] /\ lp_failures s = [].
Proof.
  eexists. split; [vm_compute; reflexivity|].
  eapply (saturated_high_blocks_all demo_can demo_dispatch 20
    (foldl enqueue core_init [demo_item "x" "v" HIGH; demo_item "y" "w" NORMAL]) 0).
  - apply foldl_enqueue_wf, core_init_wf.
  - done.
  - repeat constructor.
  - vm_compute. reflexivity.
Defined.

(** A caller that serves one item and then enqueues one, repeatedly. *)
Fixpoint serve_rounds {CB} (c : core CB) (news : list (ScheduledItem CB)) : core CB * list (option (ScheduledItem CB)) :=
  match news with
  | [] => (c, [])
  | n :: news' =>
      let (c1, o) := dequeue_next c in
      let (c2, os) := serve_rounds (enqueue c1 n) news' in (c2, o :: os)
  end.

(** within one tenant the rotation starves the oldest item.  While a
    tenant that was served last keeps one more item queued in the same
    priority, its oldest item stays at the head and is never served. *)
Theorem rotation_starves_oldest {CB} (c : core CB) x z news :
  lane_queue (lane_high c) = [] ->
  lane_normal c = MkLane [x; z] (Some (tenant_id x)) -> tenant_id z = tenant_id x ->
  Forall (fun n => tenant_id n = tenant_id x /\ item_priority n = NORMAL) news ->
  exists z', lane_normal (serve_rounds c news).1 = MkLane [x; z'] (Some (tenant_id x)) /\
    Forall (fun o => exists i, o = Some i /\ (i = z \/ exists n k, n ∈ news /\ i = set_seq n k))
      (serve_rounds c news).2.
Proof.
  revert c z. induction news as [|n news IH]; intros c z Hh Hn Ht Hnews; [simpl; eauto|].
  apply Forall_cons in Hnews as [[Htn Hpn] Hnews]. simpl.
  assert (dequeue_next c = (add_counts (set_lane c NORMAL (MkLane [x] (Some (tenant_id z)))) 0 0 1 0, Some z)) as ->.
  { unfold dequeue_next, PRIORITY_ORDER. cbn [dequeue_from lane_of].
    rewrite (proj2 (lane_pop_None (lane_high c)) Hh), Hn. unfold lane_pop. simpl.
    by rewrite String.eqb_refl. }
  match goal with |- context [serve_rounds (enqueue ?c1 n) news] =>
    destruct (IH (enqueue c1 n) (set_seq n (seq c + 0 + 1))) as (z'&Hz&Hall) end.
  - unfold enqueue. simpl. by rewrite Hpn.
  - unfold enqueue. simpl. rewrite Hpn. simpl. by rewrite Ht.
  - done.
  - done.
  - destruct (serve_rounds _ news) as [c2 os]. simpl in *. exists z'. split; [done|].
    constructor; [eauto|]. eapply Forall_impl; [exact Hall|].
    intros o (i&->&[->|(m&k&Hm&->)]); eexists; (split; [done|right]);
      [exists n|exists m]; eexists; (split; [|done]); set_solver.
Qed.

Lemma rotation_starves_oldest_witness :
  exists z', lane_normal (serve_rounds (MkCore (MkLane [] None)
      (MkLane [demo_item "x" "t" NORMAL; demo_item "z" "t" NORMAL] (Some "t")) (MkLane [] None) 3 3 1 0)
      [demo_item "n1" "t" NORMAL; demo_item "n2" "t" NORMAL]).1
    = MkLane [demo_item "x" "t" NORMAL; z'] (Some "t").
Proof.
  edestruct (rotation_starves_oldest (MkCore (MkLane [] None)
      (MkLane [demo_item "x" "t" NORMAL; demo_item "z" "t" NORMAL] (Some "t")) (MkLane [] None) 3 3 1 0)
      (demo_item "x" "t" NORMAL) (demo_item "z" "t" NORMAL)
      [demo_item "n1" "t" NORMAL; demo_item "n2" "t" NORMAL]) as (z'&H&_); [done..|repeat constructor|].
  by exists z'.
Defined.
