(* ===== verification/WaitRegistry.v ===== *)
(** * Resume specifications and the shared wait registry
    ([AINDY/kernel/resume_spec.py], [AINDY/kernel/redis_wait_registry.py])

    A waiting run is announced to the other instances as a JSON document under
    a Redis key.  The Redis client is a record of the commands the registry
    sends, on an abstract server state [X]; the class [RedisLaws] states what the
    Redis documentation promises of them (a command that raises may still have
    taken effect, when the reply was lost). *)
From S2P Require Import Prelude Json.
Local Open Scope Z_scope.

Definition RESUME_HANDLER_EU : string := "execution_unit.resume".

Record ResumeSpec := MkSpec {
  spec_handler : string;
  spec_eu_id : string;
  spec_tenant_id : string;
  spec_run_id : string;
  spec_eu_type : option string
}.

#[export] Instance ResumeSpec_eq_dec : EqDecision ResumeSpec.
Proof. solve_decision. Defined.

Definition json_opt (o : option string) : json := match o with Some s => JStr s | None => JNull end.

(** [spec_to_json] *)
Definition spec_to_json (s : ResumeSpec) : string :=
  dumps (JObj [("handler", JStr (spec_handler s)); ("eu_id", JStr (spec_eu_id s));
               ("tenant_id", JStr (spec_tenant_id s)); ("run_id", JStr (spec_run_id s));
               ("eu_type", json_opt (spec_eu_type s))]).

(** [spec_from_json]: [ResumeSpec] called with the document's keys as keyword
    arguments, so that a missing or an unknown key is a [TypeError]. *)
Definition spec_from_json (raw : string) : result ResumeSpec :=
  match loads raw with
  | Raise e => Raise e
  | Ok (JObj d) =>
      if forallb (fun k => str_in k ["handler"; "eu_id"; "tenant_id"; "run_id"; "eu_type"]) (dkeys d) then
        h ← str_arg d "handler"; e ← str_arg d "eu_id"; t ← str_arg d "tenant_id";
        r ← str_arg d "run_id"; y ← opt_arg d "eu_type"; Ok (MkSpec h e t r y)
      else Raise (TypeError "unexpected keyword argument")
  | Ok _ => Raise (TypeError "argument after ** must be a mapping")
  end.

(** A resume specification written by one instance is read back unchanged by
    another. *)
Lemma resume_spec_parse s : spec_from_json (spec_to_json s) = Ok s.
Proof.
  unfold spec_from_json, spec_to_json. rewrite loads_dumps.
  - destruct s as [h e t r [y|]]; reflexivity.
  - apply json_wf_obj. split.
    + apply (dict_wf_keys ["handler"; "eu_id"; "tenant_id"; "run_id"; "eu_type"]); [done|by_evaluation].
    + repeat constructor. by destruct (spec_eu_type s).
Qed.

(** [build_callback_from_spec] over the table [_RESUME_CALLBACK_BUILDERS] *)
Definition build_callback_from_spec {CB} (builders : dict (ResumeSpec -> result CB)) (s : ResumeSpec) : result CB :=
  match dget builders (spec_handler s) with
  | Some builder => builder s
  | None => Raise (Exn "ValueError" ("Unknown resume handler: " +:+ spec_handler s))
  end.

(** [register_resume_callback_builder] *)
Definition register_resume_callback_builder {CB} (builders : dict (ResumeSpec -> result CB))
    (handler : string) (builder : ResumeSpec -> result CB) := dset builders handler builder.

(** ** The Redis commands of the registry *)
Record redis_client (X : Type) := {
  r_setex : string -> Z -> string -> X -> X * result unit;
  r_get : string -> X -> X * result (option string);
  r_scan : string -> X -> X * result (list (list string));   (* the pages of one full iteration *)
  r_delete : string -> X -> X * result Z
}.
Arguments r_setex {X}. Arguments r_get {X}. Arguments r_scan {X}. Arguments r_delete {X}.

Class RedisLaws {X} (c : redis_client X) (view : X -> gmap string string) := {
  law_setex k ttl v x : view (r_setex c k ttl v x).1 = <[k := v]> (view x) \/
    is_ok (r_setex c k ttl v x).2 = false /\ view (r_setex c k ttl v x).1 = view x;
  law_get k x : view (r_get c k x).1 = view x;
  law_get_ok k x o : (r_get c k x).2 = Ok o -> o = view x !! k;
  law_scan p x : view (r_scan c p x).1 = view x;
  law_scan_ok p x pages k : (r_scan c p x).2 = Ok pages ->
    (k ∈ concat pages <-> startswith p k = true /\ is_Some (view x !! k));
  law_delete k x : view (r_delete c k x).1 = delete k (view x) \/
    is_ok (r_delete c k x).2 = false /\ view (r_delete c k x).1 = view x;
  law_delete_ok k x n : (r_delete c k x).2 = Ok n -> n = if decide (is_Some (view x !! k)) then 1 else 0
}.

Definition KEY_PREFIX : string := "aindy:wait:".
Definition DEFAULT_TTL : Z := 86400.

(** [_key] *)
Definition wait_key (run_id : string) : string := KEY_PREFIX +:+ run_id.

Section registry.
Context {X : Type}.
Variable client : option (redis_client X).

(** [RedisWaitRegistry.register] *)
Definition reg_register (run_id : string) (spec : ResumeSpec) (x : X) : X * bool :=
  match client with
  | None => (x, false)
  | Some c => let (x', r) := r_setex c (wait_key run_id) DEFAULT_TTL (spec_to_json spec) x in (x', is_ok r)
  end.

(** [RedisWaitRegistry.get_spec] *)
Definition reg_get_spec (run_id : string) (x : X) : X * option ResumeSpec :=
  match client with
  | None => (x, None)
  | Some c =>
      let (x', r) := r_get c (wait_key run_id) x in
      (x', match r with
           | Ok (Some raw) =>
               if truthy raw then match spec_from_json raw with Ok s => Some s | Raise _ => None end else None
           | _ => None
           end)
  end.

(** [key_str.removeprefix(_KEY_PREFIX)] *)
Definition remove_prefix (k : string) : string :=
  if startswith KEY_PREFIX k then str_drop (String.length KEY_PREFIX) k else k.

Fixpoint collect_specs (c : redis_client X) (keys : list string) (results : dict ResumeSpec) (x : X)
    : X * result (dict ResumeSpec) :=
  match keys with
  | [] => (x, Ok results)
  | key :: keys' =>
      match r_get c key x with
      | (x', Raise e) => (x', Raise e)
      | (x', Ok raw) =>
          let results' := match raw with
            | Some raw => if truthy raw then
                match spec_from_json raw with
                | Ok s => dset results (remove_prefix key) s
                | Raise _ => results
                end else results
            | None => results
            end in
          collect_specs c keys' results' x'
      end
  end.

(** [RedisWaitRegistry.get_all_specs] *)
Definition reg_get_all_specs (x : X) : X * dict ResumeSpec :=
  match client with
  | None => (x, [])
  | Some c =>
      match r_scan c KEY_PREFIX x with
      | (x', Raise _) => (x', [])
      | (x', Ok pages) =>
          match collect_specs c (concat pages) [] x' with
          | (x'', Ok results) => (x'', results)
          | (x'', Raise _) => (x'', [])
          end
      end
  end.

(** [RedisWaitRegistry.unregister] *)
Definition reg_unregister (run_id : string) (x : X) : X :=
  match client with
  | None => x
  | Some c => (r_delete c (wait_key run_id) x).1
  end.

(** [RedisWaitRegistry.unregister_if_exists] *)
Definition reg_unregister_if_exists (run_id : string) (x : X) : X * bool :=
  match client with
  | None => (x, false)
  | Some c =>
      let (x', r) := r_delete c (wait_key run_id) x in
      (x', match r with Ok n => negb (n =? 0) | Raise _ => false end)
  end.
End registry.

(** ** What the registry promises *)
Section registry_laws.
Context {X : Type} (c : redis_client X) (view : X -> gmap string string) `{!RedisLaws c view}.
Implicit Types (x : X).

Lemma wait_key_inj a b : wait_key a = wait_key b -> a = b.
Proof.
  unfold wait_key. intros H. rewrite <- (str_drop_app KEY_PREFIX a), <- (str_drop_app KEY_PREFIX b).
  by rewrite H.
Qed.

(** Is a run announced? *)
Definition announced x (run_id : string) : Prop := is_Some (view x !! wait_key run_id).

(** A claim succeeds only on an announced run, which it withdraws. *)
Lemma claim_announced run_id x x' :
  reg_unregister_if_exists (Some c) run_id x = (x', true) ->
  announced x run_id /\ view x' = delete (wait_key run_id) (view x).
Proof.
  unfold reg_unregister_if_exists, announced.
  pose proof (law_delete (wait_key run_id) x) as Hd. pose proof (law_delete_ok (wait_key run_id) x) as Hn.
  destruct (r_delete c (wait_key run_id) x) as [y [n|e]]; simpl in *; [|done].
  intros [= -> Hn0]. specialize (Hn n eq_refl).
  destruct Hd as [Hd|[? _]]; [|done]. split; [|done].
  destruct (decide _) as [|]; [done|]. by subst n.
Qed.

(** No registry operation but [register] announces a run. *)
Lemma claim_mono run_id x x' b r :
  reg_unregister_if_exists (Some c) run_id x = (x', b) -> announced x' r -> announced x r.
Proof.
  unfold reg_unregister_if_exists, announced. pose proof (law_delete (wait_key run_id) x) as Hd.
  destruct (r_delete c (wait_key run_id) x) as [y o]; simpl in *. intros [= -> _].
  destruct Hd as [->|[_ ->]]; [|done]. rewrite lookup_delete_is_Some. tauto.
Qed.

Lemma collect_specs_view keys acc x : view (collect_specs c keys acc x).1 = view x.
Proof.
  revert acc x. induction keys as [|k keys IH]; intros acc x; simpl; [done|].
  pose proof (law_get k x) as Hg. destruct (r_get c k x) as [x' [raw|e]]; simpl in *; [|done].
  by rewrite IH.
Qed.

Lemma get_all_specs_view x : view (reg_get_all_specs (Some c) x).1 = view x.
Proof.
  simpl. pose proof (law_scan KEY_PREFIX x) as Hs.
  destruct (r_scan c KEY_PREFIX x) as [x' [pages|e]]; simpl in *; [|done].
  pose proof (collect_specs_view (concat pages) [] x') as Hc.
  destruct (collect_specs c (concat pages) [] x') as [x'' [d|e]]; simpl in *; congruence.
Qed.

(** An announced run is found again as long as the commands succeed. *)
Lemma get_spec_after_register run_id spec x x' x'' o :
  reg_register (Some c) run_id spec x = (x', true) ->
  r_get c (wait_key run_id) x' = (x'', Ok o) ->
  (reg_get_spec (Some c) run_id x').2 = Some spec.
Proof.
  unfold reg_register, reg_get_spec. pose proof (law_setex (wait_key run_id) DEFAULT_TTL (spec_to_json spec) x) as Hs.
  destruct (r_setex c _ _ _ x) as [y r]; simpl in *. intros [= -> Hr] Hg.
  destruct Hs as [Hs|[? _]]; [|congruence].
  pose proof (law_get_ok (wait_key run_id) x' o) as Ho. rewrite Hg in Ho |- *. simpl in *.
  rewrite (Ho eq_refl), Hs, lookup_insert_eq.
  assert (truthy (spec_to_json spec) = true) as -> by done.
  pose proof (resume_spec_parse spec) as Hp. by rewrite Hp.
Qed.
End registry_laws.

(** A server that is exactly its key space: an instance of the laws. *)
Definition map_redis : redis_client (gmap string string) := {|
  r_setex k _ v x := (<[k := v]> x, Ok ());
  r_get k x := (x, Ok (x !! k));
  r_scan p x := (x, Ok [List.filter (startswith p) (map_to_list x).*1]);
  r_delete k x := (delete k x, Ok (if decide (is_Some (x !! k)) then 1 else 0))
|}.

#[export] Instance map_redis_laws : RedisLaws map_redis id.
Proof.
  split; try done; simpl; auto.
  - by intros k x o [= <-].
  - intros p x pages k [= <-]. simpl. rewrite app_nil_r, list_elem_of_In, filter_In, <- list_elem_of_In.
    rewrite list_elem_of_fmap. split.
    + intros [([k' v]&->&Hin%elem_of_map_to_list) Hp]. split; [done|by eexists].
    + intros [Hp [v Hv]]. split; [|done]. exists (k, v). by rewrite elem_of_map_to_list.
  - by intros k x n [= <-].
Qed.

(** The same commands on a larger state. *)
Definition lift_redis {X Y} (c : redis_client X) : redis_client (X * Y) := {|
  r_setex k t v s := let (x, r) := r_setex c k t v s.1 in ((x, s.2), r);
  r_get k s := let (x, r) := r_get c k s.1 in ((x, s.2), r);
  r_scan p s := let (x, r) := r_scan c p s.1 in ((x, s.2), r);
  r_delete k s := let (x, r) := r_delete c k s.1 in ((x, s.2), r)
|}.

#[export] Instance lift_redis_laws {X Y} (c : redis_client X) view `{!RedisLaws c view} :
  RedisLaws (lift_redis (Y := Y) c) (view ∘ fst).
Proof.
  split; simpl; intros.
  - pose proof (law_setex k ttl v x.1) as H. by destruct (r_setex c k ttl v x.1).
  - pose proof (law_get k x.1) as H. by destruct (r_get c k x.1).
  - pose proof (law_get_ok k x.1) as H'. destruct (r_get c k x.1); simpl in *. auto.
  - pose proof (law_scan p x.1) as H. by destruct (r_scan c p x.1).
  - pose proof (law_scan_ok p x.1) as H'. destruct (r_scan c p x.1); simpl in *. auto.
  - pose proof (law_delete k x.1) as H. by destruct (r_delete c k x.1).
  - pose proof (law_delete_ok k x.1) as H'. destruct (r_delete c k x.1); simpl in *. auto.
Qed.
