(* ===== verification/SchedulerWaits.v ===== *)
(** * Scheduler waits ([AINDY/kernel/scheduler/waits.py], [persistence.py],
    [recovery.py], [cross_instance.py] and the wait part of [core.py])

    [world] is the whole engine: the ready queues of [SchedulerCore], the table
    of waiting runs, the buffer of events that arrive before rehydration, and
    the state [X] of the services behind it.  Those are the record [services]:
    the Redis client of the wait registry, the backup table, the event bus and
    the code that rebuilds callbacks.  An operation returns the new world and a
    [result], because an exception keeps the changes made before it. *)
From S2P Require Import Prelude PyDatetime WaitCondition SchedulerCore WaitRegistry.
Local Open Scope Z_scope.

Definition PRIORITY_NORMAL : string := "normal".

(** A row of [waiting_flow_runs] *)
Record backup_row := MkRow {
  row_run_id : string;
  row_event_type : string;
  row_correlation_id : option string;
  row_waited_since : datetime;
  row_max_wait_seconds : option Z;
  row_timeout_at : option datetime;
  row_eu_id : option string;
  row_priority : option string;
  row_instance_id : string
}.

Section waits.
Context {CB X : Type} {codec : IsoCodec}.

(** A value of [self._waiting] *)
Record wait_entry := MkEntry {
  we_wait_for : option string;
  we_tenant_id : string;
  we_eu_id : string;
  we_callback : CB;
  we_priority : string;
  we_correlation_id : option string;
  we_trace_id : option string;
  we_eu_type : string;
  we_wait_condition : option wc_dict
}.

Record world := MkWorld {
  w_core : core CB;
  w_waiting : dict wait_entry;
  w_rehydrated : bool;
  w_buffer : list (string * option string);
  w_last_stale : Z;
  w_ext : X
}.

Record services := MkServices {
  sv_redis : option (redis_client X);
  sv_builders : dict (ResumeSpec -> result CB);
  sv_backup_merge : backup_row -> X -> X * result unit;
  sv_backup_delete : string -> X -> X * result unit;
  sv_backup_get : string -> X -> X * result (option backup_row);
  sv_backup_all : X -> X * result (list backup_row);
  sv_flow_deadline : string -> X -> X * result (option datetime);
  sv_waiting_ids : list string -> X -> X * result (list string);
  sv_publish : string -> option string -> X -> X * result unit;
  sv_rehydrate : list string -> world -> world * result Z;
  sv_instance : string;
  sv_max_retries : Z;
  sv_buffer_max : Z
}.
Variable sv : services.

Definition set_core (w : world) (c : core CB) : world :=
  MkWorld c (w_waiting w) (w_rehydrated w) (w_buffer w) (w_last_stale w) (w_ext w).
Definition set_waiting (w : world) (d : dict wait_entry) : world :=
  MkWorld (w_core w) d (w_rehydrated w) (w_buffer w) (w_last_stale w) (w_ext w).
Definition set_buffer (w : world) (b : list (string * option string)) : world :=
  MkWorld (w_core w) (w_waiting w) (w_rehydrated w) b (w_last_stale w) (w_ext w).
Definition set_ext (w : world) (x : X) : world :=
  MkWorld (w_core w) (w_waiting w) (w_rehydrated w) (w_buffer w) (w_last_stale w) x.
Definition set_rehydrated (w : world) (b : bool) : world :=
  MkWorld (w_core w) (w_waiting w) b (w_buffer w) (w_last_stale w) (w_ext w).

(** [_unregister_redis_wait] *)
Definition unregister_redis_wait (w : world) (run_id : string) : world :=
  set_ext w (reg_unregister (sv_redis sv) run_id (w_ext w)).

(** [_enqueue_resume], on the fields it reads of its [entry] argument *)
Definition enqueue_resume (w : world) (run_id : string) (cb : CB) (eu tenant prio ty : string)
    : world * result unit :=
  match new_ScheduledItem (sv_max_retries sv) eu (str_or (Some tenant) "system")
          (str_or (Some prio) PRIORITY_NORMAL) cb (Some run_id) ty 2 with
  | Ok item => (set_core w (enqueue (w_core w) item), Ok ())
  | Raise e => (w, Raise e)
  end.
Definition enqueue_entry (w : world) (run_id : string) (e : wait_entry) : world * result unit :=
  enqueue_resume w run_id (we_callback e) (we_eu_id e) (we_tenant_id e) (we_priority e) (we_eu_type e).

(** ** Backup rows *)

(** The trigger time of [_persist_wait_backup] *)
Definition backup_timeout (t : raw_trigger) : option datetime :=
  match t with
  | TNone | TOther _ => None
  | TDatetime d => Some (ensure_utc d)
  | TStr s => match fromisoformat s with Some d => Some (ensure_utc d) | None => None end
  end.

(** [max(0, int((timeout_at - waited_since).total_seconds()))]; subtracting an
    aware from a naive time raises, which gives [None]. *)
Definition wait_seconds (timeout_at waited_since : datetime) : option Z :=
  match dt_offset timeout_at, dt_offset waited_since with
  | Some _, Some _ => Some (Z.max 0 (Z.quot (instant timeout_at - instant waited_since) 1000000))
  | None, None => Some (Z.max 0 (Z.quot (dt_wall timeout_at - dt_wall waited_since) 1000000))
  | _, _ => None
  end.

(** [_persist_wait_backup] at the time [now] *)
Definition persist_wait_backup (now : Z) (w : world) (run_id : string) : world :=
  match dget (w_waiting w) run_id with
  | None => w
  | Some e =>
      let wc := we_wait_condition e in
      let from_trigger := match wc with Some c => backup_timeout (d_trigger_at c) | None => None end in
      let (x1, timeout) := match from_trigger with
                           | Some t => (w_ext w, Ok (Some t))
                           | None => sv_flow_deadline sv run_id (w_ext w)
                           end in
      match timeout with
      | Raise _ => set_ext w x1
      | Ok timeout_at =>
          let waited_since := utc_datetime now in
          let event := str_or (match wc with Some c => d_event_name c | None => None end)
                         (str_or (we_wait_for e) "__time_wait__") in
          let row := MkRow run_id event (we_correlation_id e) waited_since
                       (match timeout_at with Some t => wait_seconds t waited_since | None => None end)
                       timeout_at (Some (we_eu_id e)) (Some (str_or (Some (we_priority e)) PRIORITY_NORMAL))
                       (sv_instance sv) in
          set_ext w (sv_backup_merge sv row x1).1
      end
  end.

(** [_delete_wait_backup] *)
Definition delete_wait_backup (w : world) (run_id : string) : world :=
  set_ext w (sv_backup_delete sv run_id (w_ext w)).1.

(** ** Waiting *)

(** The [wait_condition] argument of [register_wait]: a [WaitCondition], a
    dictionary, or another object, which is stored as [None]. *)
Inductive cond_arg := CNone | CCondition (wc : WaitCondition) | CDict (d : wc_dict) | COther.

(** [register_wait]; the rehydration of time waits passes [None] as the event. *)
Definition register_wait (now : Z) (w : world) (run_id : string) (wait_for_event : option string)
    (tenant_id eu_id : string) (cb : CB) (priority : string) (corr trace : option string) (eu_type : string) (cond : cond_arg) : world :=
  let wc := match cond with
            | CNone => Some (MkWcDict (Some "event") TNone wait_for_event corr)
            | CCondition c => Some (to_dict c)
            | CDict d => Some d
            | COther => None
            end in
  let w1 := set_waiting w (dset (w_waiting w) run_id
              (MkEntry wait_for_event tenant_id eu_id cb priority corr trace eu_type wc)) in
  let w2 := set_ext w1 (reg_register (sv_redis sv) run_id
              (MkSpec RESUME_HANDLER_EU eu_id tenant_id run_id (Some eu_type)) (w_ext w1)).1 in
  persist_wait_backup now w2 run_id.

(** Both correlation ids are given and differ. *)
Definition corr_conflict (a b : option string) : bool :=
  match str_or_none a, str_or_none b with Some x, Some y => negb (x =s y) | _, _ => false end.

(** The test of [notify_event] and [peek_matching_run_ids] on one entry *)
Definition entry_matches (event_type : string) (corr : option string) (e : wait_entry) : bool :=
  let wc_type := match we_wait_condition e with Some c => d_type c | None => None end in
  let wc_event := match we_wait_condition e with Some c => d_event_name c | None => None end in
  if match wc_type with Some t => t =s "time" | None => false end then false
  else if match str_or_none wc_event with
          | Some ev =>
              match wc_type with Some t => str_in t ["event"; "external"] | None => false end && (ev =s event_type)
          | None => match we_wait_for e with Some ev => ev =s event_type | None => false end
          end
  then negb (corr_conflict (we_correlation_id e) corr)
  else false.

Definition matching (event_type : string) (corr : option string) (d : dict wait_entry) : dict wait_entry :=
  List.filter (fun kv => entry_matches event_type corr kv.2) d.

(** The two loops of [notify_event] and [tick_time_waits] over the selected runs *)
Definition withdraw (w : world) (sel : dict wait_entry) : world :=
  foldl (fun w kv => unregister_redis_wait (set_waiting w (ddel (w_waiting w) kv.1)) kv.1) w sel.
Fixpoint resume_all (w : world) (sel : dict wait_entry) : world * result unit :=
  match sel with
  | [] => (w, Ok ())
  | (run_id, e) :: sel' =>
      match enqueue_entry w run_id e with
      | (w1, Raise exc) => (w1, Raise exc)
      | (w1, Ok _) => resume_all (delete_wait_backup w1 run_id) sel'
      end
  end.

(** ** Runs that wait on other instances *)

(** [_load_wait_entry_from_db] *)
Definition load_wait_entry (w : world) (run_id : string) : world * option backup_row :=
  let (x, r) := sv_backup_get sv run_id (w_ext w) in
  (set_ext w x, match r with Ok o => o | Raise _ => None end).

Definition claim (w : world) (run_id : string) : world * bool :=
  let (x, b) := reg_unregister_if_exists (sv_redis sv) run_id (w_ext w) in (set_ext w x, b).

(** The body of the loop of [_cross_instance_resume] on one registered run; the
    result counts the resumed runs. *)
Definition cross_resume_one (event_type : string) (corr : option string) (skip : list string)
    (w : world) (run_id : string) (spec : ResumeSpec) : world * result Z :=
  if str_in run_id skip then (w, Ok 0) else
  if dmem (w_waiting w) run_id then (w, Ok 0) else
  let (w1, row) := load_wait_entry w run_id in
  match row with
  | None => (w1, Ok 0)
  | Some row =>
      if negb (row_event_type row =s event_type) then (w1, Ok 0) else
      if match str_or_none corr with
         | Some c => negb (bool_decide (row_correlation_id row = Some c))
         | None => false end then (w1, Ok 0) else
      match build_callback_from_spec (sv_builders sv) spec with
      | Raise _ => (w1, Ok 0)
      | Ok cb =>
          let (w2, claimed) := claim w1 run_id in
          if claimed then
            match enqueue_resume w2 run_id cb (str_or (row_eu_id row) (spec_eu_id spec))
                    (str_or (Some (spec_tenant_id spec)) "system") (str_or (row_priority row) PRIORITY_NORMAL)
                    (str_or (spec_eu_type spec) "flow") with
            | (w3, Ok _) => (w3, Ok 1)
            | (w3, Raise e) => (w3, Raise e)
            end
          else (w2, Ok 0)
      end
  end.

Fixpoint cross_loop (one : world -> string -> ResumeSpec -> world * result Z)
    (specs : dict ResumeSpec) (n : Z) (w : world) : world * result Z :=
  match specs with
  | [] => (w, Ok n)
  | (run_id, spec) :: specs' =>
      match one w run_id spec with
      | (w1, Ok k) => cross_loop one specs' (n + k) w1
      | (w1, Raise e) => (w1, Raise e)
      end
  end.

Definition cross_instance (one : world -> string -> ResumeSpec -> world * result Z) (w : world) : world * Z :=
  match sv_redis sv with
  | None => (w, 0)
  | Some c =>
      let (x, specs) := reg_get_all_specs (Some c) (w_ext w) in
      match cross_loop one specs 0 (set_ext w x) with
      | (w1, Ok n) => (w1, n)
      | (w1, Raise _) => (w1, 0)
      end
  end.

(** [_cross_instance_resume] *)
Definition cross_instance_resume (event_type : string) (corr : option string) (skip : list string) (w : world)
    : world * Z := cross_instance (cross_resume_one event_type corr skip) w.

(** The body of the loop of [_cross_instance_tick]; a row has no [tenant_id]. *)
Definition cross_tick_one (now : Z) (w : world) (run_id : string) (spec : ResumeSpec) : world * result Z :=
  if dmem (w_waiting w) run_id then (w, Ok 0) else
  let (w1, row) := load_wait_entry w run_id in
  match row with
  | None => (w1, Ok 0)
  | Some row =>
      match row_timeout_at row with
      | None => (w1, Ok 0)
      | Some t =>
          if now <? instant (ensure_utc t) then (w1, Ok 0) else
          let (w2, claimed) := claim w1 run_id in
          if claimed then
            match build_callback_from_spec (sv_builders sv) spec with
            | Raise _ => (w2, Ok 0)
            | Ok cb =>
                match enqueue_resume w2 run_id cb (str_or (row_eu_id row) run_id)
                        (str_or (Some (spec_tenant_id spec)) "system")
                        (str_or (row_priority row) PRIORITY_NORMAL) (str_or (spec_eu_type spec) "flow") with
                | (w3, Ok _) => (delete_wait_backup w3 run_id, Ok 1)
                | (w3, Raise e) => (w3, Raise e)
                end
            end
          else (w2, Ok 0)
      end
  end.

(** [_cross_instance_tick] *)
Definition cross_instance_tick (now : Z) (w : world) : world * Z := cross_instance (cross_tick_one now) w.

(** ** Events and timers *)

(** [notify_event] *)
Definition notify_event (event_type : string) (corr : option string) (broadcast : bool) (w : world)
    : world * result Z :=
  if negb (w_rehydrated w) then
    if sv_buffer_max sv <=? Z.of_nat (length (w_buffer w)) then (w, Ok 0)
    else (set_buffer w (w_buffer w ++ [(event_type, corr)]), Ok 0)
  else
    let to_resume := matching event_type corr (w_waiting w) in
    match resume_all (withdraw w to_resume) to_resume with
    | (w1, Raise e) => (w1, Raise e)
    | (w1, Ok _) =>
        let (w2, cross) := cross_instance_resume event_type corr (dkeys to_resume) w1 in
        let w3 := if broadcast then set_ext w2 (sv_publish sv event_type corr (w_ext w2)).1 else w2 in
        (w3, Ok (Z.of_nat (length to_resume) + cross))
    end.

(** [mark_rehydration_complete]; a replay that raises is logged and skipped. *)
Definition mark_rehydration_complete (w : world) : world :=
  let buffered := w_buffer w in
  foldl (fun w ev => (notify_event ev.1 ev.2 false w).1) (set_buffer (set_rehydrated w true) []) buffered.

(** The test of [tick_time_waits] on one entry *)
Definition entry_expired (now : Z) (e : wait_entry) : bool :=
  match we_wait_condition e with
  | None => false
  | Some c =>
      if match d_type c with Some t => t =s "time" | None => false end then
        match d_trigger_at c with
        | TNone | TOther _ => false
        | TStr s => match fromisoformat s with
                    | Some d => instant (ensure_utc d) <=? now
                    | None => false
                    end
        | TDatetime d => instant (ensure_utc d) <=? now
        end
      else false
  end.

(** [tick_time_waits] at the time [now]; [scan_expired_waits] is the same. *)
Definition tick_time_waits (now : Z) (w : world) : world * result Z :=
  let to_fire := List.filter (fun kv => entry_expired now kv.2) (w_waiting w) in
  match resume_all (withdraw w to_fire) to_fire with
  | (w1, Raise e) => (w1, Raise e)
  | (w1, Ok _) => let (w2, cross) := cross_instance_tick now w1 in (w2, Ok (Z.of_nat (length to_fire) + cross))
  end.

(** [peek_matching_run_ids] and [waiting_for] *)
Definition peek_matching_run_ids (event_type : string) (corr : option string) (w : world) : list string :=
  dkeys (matching event_type corr (w_waiting w)).
Definition waiting_for (run_id : string) (w : world) : option string := e ← dget (w_waiting w) run_id; we_wait_for e.

(** ** Recovery *)

(** [recover_orphaned_waits]; without [run_ids] every waiting run is rehydrated,
    which is the retry after a [TypeError]. *)
Definition recover_orphaned_waits (w : world) : world * result Z :=
  let local := dkeys (w_waiting w) in
  let (x, rows) := sv_backup_all sv (w_ext w) in
  let w1 := set_ext w x in
  match rows with
  | Raise _ => (w1, Ok 0)
  | Ok rows =>
      let orphans := List.filter (fun r => negb (str_in r local) && truthy r) (map row_run_id rows) in
      match orphans with
      | [] => (w1, Ok 0)
      | _ => match sv_rehydrate sv orphans w1 with
             | (w2, Ok n) => (w2, Ok n)
             | (w2, Raise e) =>
                 if exn_class e =s "TypeError" then sv_rehydrate sv [] w2 else (w2, Ok 0)
             end
      end
  end.

(** [_check_stale_waits]; [mono] is [time.monotonic()] and [interval] the configured
    interval, both in the same unit. *)
Definition check_stale_waits (interval mono : Z) (w : world) : world * Z :=
  if (0 <? Z.max 0 interval) && (mono - w_last_stale w <? Z.max 0 interval) then (w, 0)
  else match recover_orphaned_waits
               (MkWorld (w_core w) (w_waiting w) (w_rehydrated w) (w_buffer w) mono (w_ext w)) with
       | (w1, Ok n) => (w1, n)
       | (w1, Raise _) => (w1, 0)
       end.

(** [cleanup_stale_waits]; [sv_waiting_ids] answers which of the given runs are in
    status waiting, as flow runs or as execution units. *)
Definition cleanup_stale_waits (w : world) : world * Z :=
  match dkeys (w_waiting w) with
  | [] => (w, 0)
  | run_ids =>
      let (x, r) := sv_waiting_ids sv run_ids (w_ext w) in
      let w1 := set_ext w x in
      match r with
      | Raise _ => (w1, 0)
      | Ok live =>
          let stale := List.filter (fun r => negb (str_in r live)) run_ids in
          (foldl (fun w r => delete_wait_backup (set_waiting w (ddel (w_waiting w) r)) r) w1 stale,
           Z.of_nat (length stale))
      end
  end.

(** [reset] *)
Definition reset_engine (w : world) : world :=
  foldl unregister_redis_wait (MkWorld (core_reset (w_core w)) [] false [] 0 (w_ext w)) (dkeys (w_waiting w)).

(** ** [schedule] of the whole engine

    [rm_can_execute] is the resource manager and [dispatch] the dispatcher, whose
    callbacks may change every part of the engine. *)
Variable rm_can_execute : string -> string -> X -> X * bool.
Variable dispatch : ScheduledItem CB -> world -> world * result unit.

Definition loop_can_execute (t eu : string) (w : world) : world * bool :=
  let (x, ok) := rm_can_execute t eu (w_ext w) in (set_ext w x, ok).
Definition loop_dispatch (i : ScheduledItem CB) (cw : core CB * world) : (core CB * world) * result unit :=
  let (w', r) := dispatch i (set_core cw.2 cw.1) in ((w_core w', w'), r).

Definition schedule (interval mono now : Z) (fuel : nat) (w : world) : option (world * result Z) :=
  let w1 := (check_stale_waits interval mono w).1 in
  match tick_time_waits now w1 with
  | (w2, Raise e) => Some (w2, Raise e)
  | (w2, Ok _) =>
      match schedule_ready loop_can_execute loop_dispatch fuel (w_core w2) w2 with
      | None => None
      | Some l => Some (set_core (lp_ext l) (lp_core l), Ok (Z.of_nat (length (lp_dispatched l))))
      end
  end.

End waits.

Arguments world CB X : clear implicits.
Arguments wait_entry CB : clear implicits.
Arguments services CB X : clear implicits.

(** ** Lemmas *)
Section wait_lemmas.
Context {CB X : Type} {codec : IsoCodec} (sv : services CB X).
Implicit Types (w : world CB X) (e : wait_entry CB) (d sel : dict (wait_entry CB)).

(** The item a waiting run becomes. *)
Definition resume_item (run_id : string) e : ScheduledItem CB :=
  MkItem (we_eu_id e) (str_or (Some (we_tenant_id e)) "system")
    (default NORMAL (priority_of_string (str_or (Some (we_priority e)) PRIORITY_NORMAL)))
    (we_callback e) (Some run_id) (we_eu_type e) 0 0 (sv_max_retries sv).

Definition priority_ok e : Prop :=
  is_Some (priority_of_string (str_or (Some (we_priority e)) PRIORITY_NORMAL)).

#[export] Instance priority_ok_dec e : Decision (priority_ok e).
Proof. unfold priority_ok. apply _. Defined.

Lemma enqueue_entry_ok w run_id e : priority_ok e ->
  enqueue_entry sv w run_id e = (set_core w (enqueue (w_core w) (resume_item run_id e)), Ok ()).
Proof.
  intros [p Hp]. unfold enqueue_entry, enqueue_resume, new_ScheduledItem, resume_item. by rewrite Hp.
Qed.

Lemma enqueue_entry_bad w run_id e : ~ priority_ok e ->
  exists exc, enqueue_entry sv w run_id e = (w, Raise exc) /\ exn_class exc = "ValueError".
Proof.
  intros Hp. unfold enqueue_entry, enqueue_resume, new_ScheduledItem.
  destruct (priority_of_string _) eqn:E; [destruct Hp; by eexists|by eexists].
Qed.

Lemma foldl_ddel d ks : foldl ddel d ks = List.filter (fun kv => negb (str_in kv.1 ks)) d.
Proof.
  revert d. induction ks as [|k ks IH]; intros d; simpl.
  - induction d as [|kv d IHd]; simpl; [done|by f_equal].
  - rewrite IH. unfold ddel. induction d as [|kv d IHd]; simpl; [done|].
    destruct (kv.1 =s k) eqn:E; simpl; [done|]. destruct (negb (str_in kv.1 ks)); simpl; by rewrite IHd.
Qed.

(** Deleting the selected keys one by one is filtering them out. *)
Lemma foldl_ddel_filter (P : wait_entry CB -> bool) d : dict_wf d ->
  foldl ddel d (dkeys (List.filter (fun kv => P kv.2) d)) = List.filter (fun kv => negb (P kv.2)) d.
Proof.
  intros Hwf. rewrite foldl_ddel. apply filter_ext_in. intros [k v] Hin%list_elem_of_In. f_equal. simpl.
  apply eq_true_iff_eq. rewrite str_in_spec. unfold dkeys. rewrite list_elem_of_fmap. split.
  - intros ([k' v']&->&Hin'). apply list_elem_of_In, filter_In in Hin' as [Hin' HP].
    apply list_elem_of_In in Hin'. simpl in *.
    pose proof (dget_elem _ _ _ Hwf Hin) as H1. pose proof (dget_elem _ _ _ Hwf Hin') as H2. congruence.
  - intros HP. exists (k, v). split; [done|]. rewrite list_elem_of_In, filter_In, <- list_elem_of_In. done.
Qed.

Lemma not_key_split (P : wait_entry CB -> bool) d r :
  r ∉ dkeys (List.filter (fun kv => P kv.2) d) -> r ∉ dkeys (List.filter (fun kv => negb (P kv.2)) d) ->
  r ∉ dkeys d.
Proof.
  unfold dkeys. rewrite !list_elem_of_fmap. intros H1 H2 ([k v]&->&Hin%list_elem_of_In).
  destruct (P v) eqn:E; [apply H1|apply H2]; exists (k, v); (split; [done|]);
    apply list_elem_of_In, filter_In; simpl; by rewrite E.
Qed.

Lemma withdraw_spec w sel :
  w_waiting (withdraw sv w sel) = foldl ddel (w_waiting w) (dkeys sel) /\
  w_core (withdraw sv w sel) = w_core w /\ w_rehydrated (withdraw sv w sel) = w_rehydrated w /\
  w_buffer (withdraw sv w sel) = w_buffer w.
Proof.
  unfold withdraw, dkeys. revert w. induction sel as [|kv sel IH]; intros w; [done|]. simpl.
  destruct (IH (unregister_redis_wait sv (set_waiting w (ddel (w_waiting w) kv.1)) kv.1)) as (->&->&->&->). done.
Qed.

Definition resume_items sel : list (ScheduledItem CB) := map (fun kv => resume_item kv.1 kv.2) sel.

Lemma resume_all_ok w sel : Forall (fun kv => priority_ok kv.2) sel ->
  exists x, resume_all sv w sel =
    (set_ext (set_core w (foldl enqueue (w_core w) (resume_items sel))) x, Ok ()).
Proof.
  revert w. induction sel as [|[k e] sel IH]; intros w Hp; simpl.
  - exists (w_ext w). by destruct w.
  - apply Forall_cons in Hp as [Hk Hp]. rewrite enqueue_entry_ok by done.
    destruct (IH (delete_wait_backup sv (set_core w (enqueue (w_core w) (resume_item k e))) k) Hp) as [x ->].
    by exists x.
Qed.
End wait_lemmas.

(** ** Delivery of runs claimed from the registry *)
Section cross_lemmas.
Context {CB X : Type} {codec : IsoCodec} (sv : services CB X).
Context (N : string -> Prop).
Implicit Types (w : world CB X).

(** [w'] is [w] with the items enqueued; their runs satisfy [N] and do not wait
    locally. *)
Definition delivers w w' (items : list (ScheduledItem CB)) : Prop :=
  w_waiting w' = w_waiting w /\ w_rehydrated w' = w_rehydrated w /\ w_buffer w' = w_buffer w /\
  w_core w' = foldl enqueue (w_core w) items /\
  Forall (fun i => exists r, run_id i = Some r /\ N r /\ r ∉ dkeys (w_waiting w)) items.

Lemma delivers_nil w x : delivers w (set_ext w x) [].
Proof. by split_and!. Qed.

Lemma delivers_refl w : delivers w w [].
Proof. by split_and!. Qed.

Lemma delivers_app w1 w2 w3 l1 l2 : delivers w1 w2 l1 -> delivers w2 w3 l2 -> delivers w1 w3 (l1 ++ l2).
Proof.
  intros (Ha&Hb&Hc&Hd&He) (Ha'&Hb'&Hc'&Hd'&He'). unfold delivers.
  rewrite foldl_app, <- Hd, Forall_app. rewrite Ha in He'. split_and!; congruence || done.
Qed.

Lemma enqueue_resume_delivers w run_id cb eu t p ty w' r :
  N run_id -> run_id ∉ dkeys (w_waiting w) -> enqueue_resume sv w run_id cb eu t p ty = (w', r) ->
  exists items, delivers w w' items /\
    (r = Ok () /\ (exists i, items = [i] /\ SchedulerCore.run_id i = Some run_id) \/ is_ok r = false /\ items = []).
Proof.
  unfold enqueue_resume, new_ScheduledItem. intros HN Hn.
  destruct (priority_of_string _) as [q|]; intros [= <- <-].
  - eexists [_]. split; [split_and!; try done; repeat constructor; by eexists|left; split; [done|by eexists]].
  - exists []. split; [apply delivers_refl|by right].
Qed.

Definition one_delivers (one : world CB X -> string -> ResumeSpec -> world CB X * result Z) : Prop :=
  forall w run_id spec w' r, one w run_id spec = (w', r) ->
  exists items, delivers w w' items /\ match r with Ok n => n = Z.of_nat (length items) | Raise _ => True end.

Lemma dmem_false {V} (d : dict V) k : dmem d k = false -> k ∉ dkeys d.
Proof. intros H Hk%dmem_spec. congruence. Qed.

Lemma cross_resume_one_delivers ev corr skip : (forall r, r ∉ skip -> N r) ->
  one_delivers (cross_resume_one sv ev corr skip).
Proof.
  intros HN w run_id spec w' r. unfold cross_resume_one, load_wait_entry, claim.
  destruct (str_in run_id skip) eqn:Hsk; [intros [= <- <-]; exists []; auto using delivers_refl|].
  destruct (dmem _ _) eqn:Hm; [intros [= <- <-]; exists []; auto using delivers_refl|].
  apply dmem_false in Hm. destruct (sv_backup_get sv run_id (w_ext w)) as [x1 row].
  destruct (match row with Ok o => o | Raise _ => None end) as [rw|];
    [|intros [= <- <-]; exists []; auto using delivers_nil].
  destruct (negb _); [intros [= <- <-]; exists []; auto using delivers_nil|].
  destruct (match str_or_none corr with Some c => _ | None => _ end);
    [intros [= <- <-]; exists []; auto using delivers_nil|].
  destruct (build_callback_from_spec _ _); [|intros [= <- <-]; exists []; auto using delivers_nil].
  destruct (reg_unregister_if_exists _ _ _) as [x2 []];
    [|intros [= <- <-]; exists []; split; [apply (delivers_nil w x2)|done]].
  destruct (enqueue_resume _ _ _ _ _ _ _ _) as [w3 r3] eqn:E.
  apply enqueue_resume_delivers in E as (items&Hd&Hr); [|by apply HN, str_in_false|done].
  exists items. destruct Hr as [[-> (i&->&_)]|[Hr ->]].
  - simplify_eq/=. split; [exact Hd|done].
  - destruct r3; [done|]. simplify_eq. done.
Qed.

Lemma cross_tick_one_delivers now : (forall r, N r) -> one_delivers (cross_tick_one sv now).
Proof.
  intros HN w run_id spec w' r. unfold cross_tick_one, load_wait_entry, claim.
  destruct (dmem _ _) eqn:Hm; [intros [= <- <-]; exists []; auto using delivers_refl|].
  apply dmem_false in Hm. destruct (sv_backup_get sv run_id (w_ext w)) as [x1 row].
  destruct (match row with Ok o => o | Raise _ => None end) as [rw|];
    [|intros [= <- <-]; exists []; auto using delivers_nil].
  destruct (row_timeout_at rw) as [t|]; [|intros [= <- <-]; exists []; auto using delivers_nil].
  destruct (_ <? _); [intros [= <- <-]; exists []; auto using delivers_nil|].
  destruct (reg_unregister_if_exists _ _ _) as [x2 []];
    [|intros [= <- <-]; exists []; split; [apply (delivers_nil w x2)|done]].
  destruct (build_callback_from_spec _ _);
    [|intros [= <- <-]; exists []; split; [apply (delivers_nil w x2)|done]].
  destruct (enqueue_resume _ _ _ _ _ _ _ _) as [w3 r3] eqn:E.
  apply enqueue_resume_delivers in E as (items&Hd&Hr); [|done|done].
  exists items. destruct Hr as [[-> (i&->&_)]|[Hr ->]].
  - simplify_eq/=. split; [exact Hd|done].
  - destruct r3; [done|]. simplify_eq. done.
Qed.

Lemma cross_loop_delivers one specs n w w' r : one_delivers one ->
  cross_loop one specs n w = (w', r) ->
  exists items, delivers w w' items /\
    match r with Ok m => m = n + Z.of_nat (length items) | Raise _ => True end.
Proof.
  intros Hone. revert n w. induction specs as [|[k s] specs IH]; intros n w; simpl.
  - intros [= <- <-]. exists []. split; [apply delivers_refl|simpl; lia].
  - destruct (one w k s) as [w1 [m|e]] eqn:E; apply Hone in E as (l1&Hd1&Hm).
    + intros (l2&Hd2&Hr)%IH. exists (l1 ++ l2). split; [by eapply delivers_app|].
      destruct r; [|done]. rewrite length_app. lia.
    + intros [= <- <-]. by exists l1.
Qed.

Lemma cross_instance_delivers one w w' n : one_delivers one -> cross_instance sv one w = (w', n) ->
  exists items, delivers w w' items /\ 0 <= n <= Z.of_nat (length items).
Proof.
  intros Hone. unfold cross_instance. destruct (sv_redis sv) as [c|].
  - destruct (reg_get_all_specs (Some c) (w_ext w)) as [x specs].
    destruct (cross_loop _ _ _ _) as [w1 r] eqn:E.
    apply cross_loop_delivers in E as (items&Hd&Hr); [|done]. intros Heq. exists items.
    assert (delivers w w1 items) as Hd'.
    { destruct Hd as (?&?&?&?&?). by split_and!. }
    destruct r; simplify_eq/=; (split; [done|lia]).
  - intros [= <- <-]. exists []. split; [apply delivers_refl|simpl; lia].
Qed.
End cross_lemmas.

Section selected.
Context {CB X : Type} {codec : IsoCodec} (sv : services CB X).

(** Withdrawing the runs an engine selects by [P] and resuming them moves exactly
    those runs to the ready queues, in the order of the table. *)
Lemma resume_selected (P : wait_entry CB -> bool) (w : world CB X) :
  let sel := List.filter (fun kv => P kv.2) (w_waiting w) in
  dict_wf (w_waiting w) -> Forall (fun kv => priority_ok kv.2) (w_waiting w) ->
  exists x, resume_all sv (withdraw sv w sel) sel =
    (MkWorld (foldl enqueue (w_core w) (resume_items sv sel))
       (List.filter (fun kv => negb (P kv.2)) (w_waiting w)) (w_rehydrated w) (w_buffer w)
       (w_last_stale (withdraw sv w sel)) x, Ok ()).
Proof.
  intros sel Hwf Hp.
  destruct (resume_all_ok sv (withdraw sv w sel) sel) as [x ->].
  { apply Forall_forall. intros kv Hin%list_elem_of_In. apply filter_In in Hin as [Hin%list_elem_of_In _].
    by eapply Forall_forall in Hp. }
  destruct (withdraw_spec sv w sel) as (Hw&Hc&Hr&Hb). exists x.
  unfold set_ext, set_core. cbn. rewrite Hw, Hc, Hr, Hb. unfold sel at 2. by rewrite foldl_ddel_filter.
Qed.

(** What [notify_event] does after rehydration; the properties of events follow from it. *)
Lemma notify_event_run ev corr b (w : world CB X) :
  w_rehydrated w = true -> dict_wf (w_waiting w) -> Forall (fun kv => priority_ok kv.2) (w_waiting w) ->
  exists w' cross n,
    notify_event sv ev corr b w = (w', Ok (Z.of_nat (length (matching ev corr (w_waiting w))) + n)) /\
    w_waiting w' = List.filter (fun kv => negb (entry_matches ev corr kv.2)) (w_waiting w) /\
    w_core w' = foldl enqueue (w_core w) (resume_items sv (matching ev corr (w_waiting w)) ++ cross) /\
    w_rehydrated w' = true /\ w_buffer w' = w_buffer w /\
    0 <= n <= Z.of_nat (length cross) /\
    Forall (fun i => forall r, run_id i = Some r -> r ∉ dkeys (w_waiting w)) cross.
Proof.
  intros Hre Hwf Hp. unfold notify_event. rewrite Hre. simpl negb. cbv iota.
  change (matching ev corr (w_waiting w)) with (List.filter (fun kv => entry_matches ev corr kv.2) (w_waiting w)).
  destruct (resume_selected (entry_matches ev corr) w Hwf Hp) as [x ->].
  unfold cross_instance_resume.
  match goal with |- context [cross_instance sv ?one ?w1] =>
    destruct (cross_instance sv one w1) as [w2 n] eqn:E end.
  apply (cross_instance_delivers sv (fun r => r ∉ peek_matching_run_ids ev corr w)) in E
    as (cross&(Hw&Hr&Hb&Hc&Hf)&Hn); [|by apply cross_resume_one_delivers].
  simpl in Hw, Hr, Hb, Hc, Hf. eexists _, cross, n. split; [reflexivity|]. split_and!.
  - by destruct b; simpl; rewrite Hw.
  - destruct b; simpl; by rewrite Hc, foldl_app.
  - destruct b; simpl; congruence.
  - destruct b; simpl; congruence.
  - lia.
  - lia.
  - eapply Forall_impl; [exact Hf|]. intros i (r&Hr'&Hnp&Hni) r' Hr''. simplify_eq.
    by apply (not_key_split (entry_matches ev corr)).
Qed.
End selected.

(** C7: [notify_event] after rehydration.  Exactly the waiting runs that match the
    event leave the wait table, and they become ready in the order of their
    registration; the other waiting runs stay.  Whatever else becomes ready was
    claimed from another instance and was not waiting here. *)
Theorem notify_event_exact {CB X} `{!IsoCodec} (sv : services CB X) ev corr b (w : world CB X) :
  w_rehydrated w = true -> dict_wf (w_waiting w) -> Forall (fun kv => priority_ok kv.2) (w_waiting w) ->
  exists w' cross n,
    notify_event sv ev corr b w = (w', Ok (Z.of_nat (length (peek_matching_run_ids ev corr w)) + n)) /\
    w_waiting w' = List.filter (fun kv => negb (entry_matches ev corr kv.2)) (w_waiting w) /\
    w_core w' = foldl enqueue (w_core w) (resume_items sv (matching ev corr (w_waiting w)) ++ cross) /\
    map run_id (resume_items sv (matching ev corr (w_waiting w))) = map Some (peek_matching_run_ids ev corr w) /\
    0 <= n <= Z.of_nat (length cross) /\
    Forall (fun i => forall r, run_id i = Some r -> r ∉ dkeys (w_waiting w)) cross.
Proof.
  intros Hre Hwf Hp. destruct (notify_event_run sv ev corr b w Hre Hwf Hp) as (w'&cross&n&He&Hw&Hc&_&_&Hn&Hf).
  exists w', cross, n. split_and!; try done; try lia.
  - unfold peek_matching_run_ids, dkeys. by rewrite length_fmap.
  - unfold resume_items, peek_matching_run_ids, dkeys, matching. change (@fmap list _) with @map. by rewrite !map_map.
Qed.

(** Services whose state is the Redis key space and the backup table: every
    interface above has an implementation. *)
Definition demo_ext : Type := gmap string string * list backup_row.
Definition drop_row (r : string) (l : list backup_row) : list backup_row :=
  List.filter (fun row => negb (row_run_id row =s r)) l.
Definition demo_services : services nat demo_ext := {|
  sv_redis := Some (lift_redis map_redis);
  sv_builders := [(RESUME_HANDLER_EU, fun s => Ok (String.length (spec_eu_id s)))];
  sv_backup_merge row s := ((s.1, row :: drop_row (row_run_id row) s.2), Ok ());
  sv_backup_delete r s := ((s.1, drop_row r s.2), Ok ());
  sv_backup_get r s := (s, Ok (List.find (fun row => row_run_id row =s r) s.2));
  sv_backup_all s := (s, Ok s.2);
  sv_flow_deadline _ s := (s, Ok None);
  sv_waiting_ids ids s := (s, Ok ids);
  sv_publish _ _ s := (s, Ok ());
  sv_rehydrate _ w := (w, Ok 0);
  sv_instance := "local";
  sv_max_retries := 2;
  sv_buffer_max := 1000
|}.
Definition world_init {CB X} (x : X) : world CB X := MkWorld core_init [] false [] 0 x.

(** Two local waits for the event ["go"], one for ["stop"], and a run of another
    instance that waits for ["go"]. *)
Definition demo_world : world nat demo_ext :=
  let reg w r ev := register_wait demo_services 5 w r (Some ev) "t" ("eu" +:+ r) 7%nat "normal" None None "flow" CNone in
  let remote := reg (world_init (∅, [])) "r9" "go" in
  set_rehydrated (reg (reg (reg (set_waiting remote []) "r1" "go") "r2" "stop") "r3" "go") true.

Lemma notify_event_exact_witness :
  exists w' cross n,
    notify_event demo_services "go" None true demo_world =
      (w', Ok (Z.of_nat (length (peek_matching_run_ids "go" None demo_world)) + n)) /\
    w_waiting w' = List.filter (fun kv => negb (entry_matches "go" None kv.2)) (w_waiting demo_world) /\
    w_core w' = foldl enqueue (w_core demo_world)
      (resume_items demo_services (matching "go" None (w_waiting demo_world)) ++ cross).
Proof.
  edestruct (notify_event_exact demo_services "go" None true demo_world)
    as (w'&cross&n&H1&H2&H3&_).
  - vm_compute. reflexivity.
  - by_evaluation.
  - by_evaluation.
  - exists w', cross, n. exact (conj H1 (conj H2 H3)).
Defined.

(** [tick_time_waits] fires exactly the time waits whose trigger time has been
    reached, in the order of their registration, and leaves the others. *)
Theorem tick_time_waits_exact {CB X} `{!IsoCodec} (sv : services CB X) now (w : world CB X) :
  let due := List.filter (fun kv => entry_expired now kv.2) (w_waiting w) in
  dict_wf (w_waiting w) -> Forall (fun kv => priority_ok kv.2) (w_waiting w) ->
  exists w' cross n,
    tick_time_waits sv now w = (w', Ok (Z.of_nat (length due) + n)) /\
    w_waiting w' = List.filter (fun kv => negb (entry_expired now kv.2)) (w_waiting w) /\
    w_core w' = foldl enqueue (w_core w) (resume_items sv due ++ cross) /\
    0 <= n <= Z.of_nat (length cross) /\
    Forall (fun i => forall r, run_id i = Some r -> r ∉ dkeys (w_waiting w')) cross.
Proof.
  intros due Hwf Hp. unfold tick_time_waits. fold due.
  destruct (resume_selected sv (entry_expired now) w Hwf Hp) as [x Hx]. fold due in Hx. rewrite Hx.
  unfold cross_instance_tick.
  match goal with |- context [cross_instance sv ?one ?w1] =>
    destruct (cross_instance sv one w1) as [w2 n] eqn:E end.
  apply (cross_instance_delivers sv (fun _ => True)) in E
    as (cross&(Hw&_&_&Hc&Hf)&Hn); [|by apply cross_tick_one_delivers].
  simpl in Hw, Hc, Hf. exists w2, cross, n. split_and!; [done|done|by rewrite Hc, foldl_app|lia|lia|].
  eapply Forall_impl; [exact Hf|]. intros i (r&Hr&_&Hni) r' Hr'. simplify_eq. by rewrite Hw.
Qed.

Definition demo_timed : world nat demo_ext :=
  let reg w r t := register_wait demo_services 5 w r (Some "timer") "t" ("eu" +:+ r) 7%nat "high" None None "flow"
                     (CDict (MkWcDict (Some "time") (TDatetime (MkDatetime t None)) None None)) in
  reg (reg (world_init (∅, [])) "r1" 100) "r2" 900.

Lemma tick_time_waits_exact_witness :
  exists w' n, tick_time_waits demo_services 500 demo_timed = (w', Ok (1 + n)) /\ dkeys (w_waiting w') = ["r2"].
Proof.
  edestruct (tick_time_waits_exact demo_services 500 demo_timed) as (w'&cross&n&H1&H2&_).
  - by_evaluation.
  - by_evaluation.
  - exists w', n. split; [|rewrite H2; vm_compute; reflexivity]. rewrite H1.
    replace (length _) with 1%nat by (vm_compute; reflexivity). reflexivity.
Defined.

(** ** Start-up: events before rehydration *)
Section startup.
Context {CB X : Type} {codec : IsoCodec} (sv : services CB X).

(** What happens to an engine that is not rehydrated yet: waits are registered
    and events arrive. *)
Inductive startup_action :=
| ARegister (now : Z) (run_id : string) (ev : option string) (tenant eu : string) (cb : CB) (prio : string)
    (corr trace : option string) (ty : string) (cond : cond_arg)
| ANotify (ev : string) (corr : option string) (broadcast : bool).

Definition startup_step (w : world CB X) (a : startup_action) : world CB X :=
  match a with
  | ARegister now r ev t eu cb p c tr ty cond => register_wait sv now w r ev t eu cb p c tr ty cond
  | ANotify ev c b => (notify_event sv ev c b w).1
  end.

Definition is_register (a : startup_action) : bool := match a with ARegister _ _ _ _ _ _ _ _ _ _ _ => true | _ => false end.
Fixpoint events_of (acts : list startup_action) : list (string * option string) :=
  match acts with
  | [] => []
  | ANotify ev c _ :: acts' => (ev, c) :: events_of acts'
  | _ :: acts' => events_of acts'
  end.

Lemma register_set_buffer w b a : is_register a = true ->
  startup_step (set_buffer w b) a = set_buffer (startup_step w a) b /\
  w_buffer (startup_step w a) = w_buffer w /\ w_rehydrated (startup_step w a) = w_rehydrated w.
Proof.
  destruct a as [now r ev t eu cb p c tr ty cond|]; [|done]. intros _. simpl.
  unfold register_wait, persist_wait_backup. simpl.
  destruct (dget _ _) as [e|]; [|done].
  destruct (match match we_wait_condition e with Some c0 => _ | None => _ end with Some t0 => _ | None => _ end)
    as [x1 [o|exc]]; done.
Qed.

Lemma registers_set_buffer acts w b :
  foldl startup_step (set_buffer w b) (List.filter is_register acts) =
  set_buffer (foldl startup_step w (List.filter is_register acts)) b.
Proof.
  revert w. induction acts as [|a acts IH]; intros w; simpl; [done|].
  destruct (is_register a) eqn:Ha; [|done]. simpl.
  destruct (register_set_buffer w b a Ha) as (->&_). apply IH.
Qed.

Lemma startup_run w acts : w_rehydrated w = false ->
  Z.of_nat (length (w_buffer w) + length (events_of acts)) <= sv_buffer_max sv ->
  foldl startup_step w acts =
  set_buffer (foldl startup_step w (List.filter is_register acts)) (w_buffer w ++ events_of acts).
Proof.
  revert w. induction acts as [|a acts IH]; intros w Hr Hlen; simpl.
  - rewrite app_nil_r. by destruct w.
  - destruct a as [now r ev t eu cb p c tr ty cond|ev c b].
    + destruct (register_set_buffer w [] (ARegister now r ev t eu cb p c tr ty cond) eq_refl) as (_&Hb&Hre).
      rewrite IH; [by rewrite Hb|by rewrite Hre|rewrite Hb; exact Hlen].
    + simpl in *. unfold notify_event. rewrite Hr. simpl.
      destruct (Z.leb_spec (sv_buffer_max sv) (Z.of_nat (length (w_buffer w)))); [lia|]. simpl.
      rewrite IH; [|done|simpl; rewrite length_app; simpl; lia]. simpl.
      by rewrite <- app_assoc, registers_set_buffer.
Qed.

End startup.

(** no event is lost during start-up.  When waits are registered and events
    arrive in any interleaving before rehydration, at most as many events as the
    buffer holds, [mark_rehydration_complete] leaves the engine as if all waits had
    been registered first and the events had then been delivered in their order.
    The replayed events are not broadcast, also those that asked for it. *)
Theorem startup_events_replayed {CB X} `{!IsoCodec} (sv : services CB X) (w : world CB X) acts :
  w_rehydrated w = false -> w_buffer w = [] ->
  Z.of_nat (length (events_of acts)) <= sv_buffer_max sv ->
  mark_rehydration_complete sv (foldl (startup_step sv) w acts) =
  foldl (fun w ev => (notify_event sv ev.1 ev.2 false w).1)
    (set_buffer (set_rehydrated (foldl (startup_step sv) w (List.filter is_register acts)) true) [])
    (events_of acts).
Proof.
  intros Hr Hb Hlen. rewrite startup_run by (done || (rewrite Hb; exact Hlen)).
  unfold mark_rehydration_complete. simpl. rewrite Hb. done.
Qed.

Definition demo_actions : list (startup_action (CB := nat)) :=
  [ANotify "go" None true;
   ARegister 5 "r1" (Some "go") "t" "e1" 7%nat "normal" None None "flow" CNone; ANotify "stop" (Some "c") false].

Lemma startup_events_replayed_witness :
  mark_rehydration_complete demo_services (foldl (startup_step demo_services) (world_init (∅, [])) demo_actions) =
  foldl (fun w ev => (notify_event demo_services ev.1 ev.2 false w).1)
    (set_buffer (set_rehydrated (foldl (startup_step demo_services) (world_init (∅, []))
       (List.filter is_register demo_actions)) true) [])
    [("go", None); ("stop", Some "c")].
Proof. apply (startup_events_replayed demo_services); [done|done|simpl; lia]. Defined.

(** ** Claims across instances *)
Section claims.
Context {CB X : Type} {codec : IsoCodec} (sv : services CB X).
Context (c : redis_client X) (view : X -> gmap string string) `{!RedisLaws c view}.
Hypothesis Hredis : sv_redis sv = Some c.
Hypothesis Hget : forall r x, view (sv_backup_get sv r x).1 = view x.
Hypothesis Hdel : forall r x, view (sv_backup_delete sv r x).1 = view x.
Implicit Types (w : world CB X).

(** The runs of the enqueued items were announced before, are not afterwards,
    and no other run becomes announced. *)
Definition claims w w' (items : list (ScheduledItem CB)) : Prop :=
  w_core w' = foldl enqueue (w_core w) items /\
  (forall r, announced view (w_ext w') r -> announced view (w_ext w) r) /\
  Forall (fun i => exists r, run_id i = Some r /\ announced view (w_ext w) r /\ ~ announced view (w_ext w') r) items /\
  NoDup (map run_id items).

Lemma claims_view w w' : w_core w' = w_core w -> view (w_ext w') = view (w_ext w) -> claims w w' [].
Proof. intros Hc Hv. unfold claims, announced. rewrite Hv. split_and!; auto using Forall_nil_2, NoDup_nil_2. Qed.

Lemma claims_mono w w' : w_core w' = w_core w ->
  (forall r, announced view (w_ext w') r -> announced view (w_ext w) r) -> claims w w' [].
Proof. intros. unfold claims. split_and!; auto using Forall_nil_2, NoDup_nil_2. Qed.

Lemma claims_app w1 w2 w3 l1 l2 : claims w1 w2 l1 -> claims w2 w3 l2 -> claims w1 w3 (l1 ++ l2).
Proof.
  intros (Hc&Hm&Hf&Hn) (Hc'&Hm'&Hf'&Hn'). unfold claims. rewrite foldl_app, <- Hc, Forall_app, map_app.
  rewrite Forall_forall in Hf, Hf'. rewrite !Forall_forall. split_and!.
  - done.
  - auto.
  - intros i Hi. destruct (Hf i Hi) as (r&?&?&?). exists r. split_and!; auto.
  - intros i Hi. destruct (Hf' i Hi) as (r&?&?&?). exists r. split_and!; auto.
  - apply NoDup_app. split_and!; [done| |done]. intros o Ho Ho'.
    apply list_elem_of_In, in_map_iff in Ho as (i&Hi&Hin%list_elem_of_In).
    apply list_elem_of_In, in_map_iff in Ho' as (j&Hj&Hjn%list_elem_of_In).
    destruct (Hf i Hin) as (r&?&?&?), (Hf' j Hjn) as (r'&?&?&?). naive_solver congruence.
Qed.

Lemma load_claims w run_id w1 row : load_wait_entry sv w run_id = (w1, row) -> claims w w1 [].
Proof.
  unfold load_wait_entry. pose proof (Hget run_id (w_ext w)) as H.
  destruct (sv_backup_get sv run_id (w_ext w)). intros [= <- <-]. by apply claims_view.
Qed.

(** A claim, and the enqueueing of the claimed run. *)
Lemma claim_claims w r w' b : claim sv w r = (w', b) -> claims w w' [].
Proof.
  unfold claim. destruct (reg_unregister_if_exists _ _ _) as [x b'] eqn:E. intros [= <- <-].
  rewrite Hredis in E. apply claims_mono; [done|]. intros r'. by eapply claim_mono.
Qed.

Lemma claim_enqueue_claims w r w1 cb eu t p ty w2 o :
  claim sv w r = (w1, true) -> enqueue_resume sv w1 r cb eu t p ty = (w2, o) ->
  exists items, claims w w2 items.
Proof.
  intros Hcl. pose proof (claim_claims _ _ _ _ Hcl) as Hmono. revert Hcl.
  unfold claim, enqueue_resume, new_ScheduledItem.
  destruct (reg_unregister_if_exists _ _ _) as [x b'] eqn:E. intros [= <- ->].
  rewrite Hredis in E. apply (claim_announced c view) in E as [Ha Hv].
  destruct (priority_of_string _) as [q|]; intros [= <- _]; [|by exists []].
  destruct Hmono as (_&Hm&_). eexists [_]. split_and!; [done|done| |apply NoDup_singleton].
  repeat constructor. exists r. split_and!; [done|done|].
  unfold announced. simpl. rewrite Hv, lookup_delete_eq. by intros [].
Qed.

Definition one_claims (one : world CB X -> string -> ResumeSpec -> world CB X * result Z) : Prop :=
  forall w run_id spec w' r, one w run_id spec = (w', r) -> exists items, claims w w' items.

Lemma claims_trans w1 w2 w3 l1 l2 : claims w1 w2 l1 -> claims w2 w3 l2 -> exists l, claims w1 w3 l.
Proof. intros H1 H2. eexists. by eapply claims_app. Qed.

Lemma cross_resume_one_claims ev corr skip : one_claims (cross_resume_one sv ev corr skip).
Proof.
  intros w r spec w' o. unfold cross_resume_one.
  destruct (str_in r skip); [intros [= <- <-]; exists []; by apply claims_view|].
  destruct (dmem _ _); [intros [= <- <-]; exists []; by apply claims_view|].
  destruct (load_wait_entry sv w r) as [w1 row] eqn:E. apply load_claims in E.
  destruct row as [row|]; [|intros [= <- <-]; eauto].
  destruct (negb _); [intros [= <- <-]; eauto|].
  destruct (match str_or_none corr with Some _ => _ | None => _ end); [intros [= <- <-]; eauto|].
  destruct (build_callback_from_spec _ _); [|intros [= <- <-]; eauto].
  destruct (claim sv w1 r) as [w2 []] eqn:E2.
  - destruct (enqueue_resume _ _ _ _ _ _ _ _) as [w3 o3] eqn:E3.
    destruct (claim_enqueue_claims _ _ _ _ _ _ _ _ _ _ E2 E3) as [l Hl].
    destruct o3; intros [= <- <-]; by eapply claims_trans.
  - intros [= <- <-]. eapply claims_trans; [done|by eapply claim_claims].
Qed.

Lemma cross_tick_one_claims now : one_claims (cross_tick_one sv now).
Proof.
  intros w r spec w' o. unfold cross_tick_one.
  destruct (dmem _ _); [intros [= <- <-]; exists []; by apply claims_view|].
  destruct (load_wait_entry sv w r) as [w1 row] eqn:E. apply load_claims in E.
  destruct row as [row|]; [|intros [= <- <-]; eauto].
  destruct (row_timeout_at row) as [t|]; [|intros [= <- <-]; eauto].
  destruct (_ <? _); [intros [= <- <-]; eauto|].
  destruct (claim sv w1 r) as [w2 []] eqn:E2.
  2:{ intros [= <- <-]. eapply claims_trans; [done|by eapply claim_claims]. }
  destruct (build_callback_from_spec _ _).
  2:{ intros [= <- <-]. eapply claims_trans; [done|by eapply claim_claims]. }
  destruct (enqueue_resume _ _ _ _ _ _ _ _) as [w3 o3] eqn:E3.
  destruct (claim_enqueue_claims _ _ _ _ _ _ _ _ _ _ E2 E3) as [l Hl].
  destruct (claims_trans _ _ _ _ _ E Hl) as [l' Hl'].
  destruct o3; intros [= <- <-]; [|by eexists].
  eapply claims_trans; [done|]. apply claims_view; [done|]. apply Hdel.
Qed.

Lemma cross_instance_claims one w w' n : one_claims one -> cross_instance sv one w = (w', n) ->
  exists items, claims w w' items.
Proof.
  intros Hone. unfold cross_instance. rewrite Hredis.
  pose proof (get_all_specs_view c view (w_ext w)) as Hv.
  destruct (reg_get_all_specs (Some c) (w_ext w)) as [x specs].
  assert (forall specs n w1 w2 r, cross_loop one specs n w1 = (w2, r) -> exists items, claims w1 w2 items) as Hloop.
  { clear -Hone. induction specs as [|[k s] specs IH]; intros n w1 w2 r; simpl.
    - intros [= <- <-]. exists []. by apply claims_view.
    - destruct (one w1 k s) as [w3 [m|e]] eqn:E; apply Hone in E as [l1 Hl1].
      + intros [l2 Hl2]%IH. by eapply claims_trans.
      + intros [= <- <-]. eauto. }
  destruct (cross_loop _ _ _ _) as [w1 r] eqn:E. apply Hloop in E as [l Hl].
  assert (exists l, claims w w1 l) as Hc by (eapply claims_trans; [|done]; by apply claims_view).
  destruct r; intros [= <- <-]; done.
Qed.
End claims.




(** ** Ways a wait is lost *)

(** [register_wait] stores any priority, and a priority that is not one of
    the three is noticed only when the run is resumed: [notify_event] then raises
    after it removed all matching runs from the wait table, and none of the runs
    from the offending one on becomes ready. *)
Theorem bad_priority_loses_waits {CB X} `{!IsoCodec} (sv : services CB X) ev corr b (w : world CB X) r e rest :
  w_rehydrated w = true -> dict_wf (w_waiting w) ->
  matching ev corr (w_waiting w) = (r, e) :: rest -> ~ priority_ok e ->
  exists w' exc, notify_event sv ev corr b w = (w', Raise exc) /\ exn_class exc = "ValueError" /\
    w_core w' = w_core w /\
    w_waiting w' = List.filter (fun kv => negb (entry_matches ev corr kv.2)) (w_waiting w).
Proof.
  intros Hre Hwf Hm Hp. unfold notify_event. rewrite Hre, Hm. cbn [negb resume_all].
  destruct (withdraw_spec sv w ((r, e) :: rest)) as (Hw&Hc&_).
  destruct (enqueue_entry_bad sv (withdraw sv w ((r, e) :: rest)) r e Hp) as (exc&Hexc&Hcl).
  rewrite Hexc.
  eexists _, exc. split_and!; [done|done|done|].
  rewrite Hw, <- Hm. unfold matching. by rewrite foldl_ddel_filter.
Qed.

Lemma bad_priority_loses_waits_witness :
  exists w' exc, notify_event demo_services "go" None false
      (set_waiting demo_world [("r1", MkEntry (Some "go") "t" "e1" 7%nat "urgent" None None "flow" None);
                               ("r2", MkEntry (Some "go") "t" "e2" 7%nat "high" None None "flow" None)]) = (w', Raise exc) /\
    w_waiting w' = [].
Proof.
  edestruct (bad_priority_loses_waits demo_services "go" None false
    (set_waiting demo_world [("r1", MkEntry (Some "go") "t" "e1" 7%nat "urgent" None None "flow" None);
                             ("r2", MkEntry (Some "go") "t" "e2" 7%nat "high" None None "flow" None)]))
    as (w'&exc&H1&_&_&H2).
  - vm_compute. reflexivity.
  - by_evaluation.
  - vm_compute. reflexivity.
  - vm_compute. by intros [].
  - exists w', exc. split; [exact H1|]. rewrite H2. vm_compute. reflexivity.
Defined.

(** the timer for runs of other instances claims a run before it builds the
    callback.  When the callback cannot be built, the run is withdrawn from the
    registry and not enqueued, so that no instance can resume it from there. *)
Theorem tick_claims_before_build {CB X} `{!IsoCodec} (sv : services CB X) (c : redis_client X)
    (view : X -> gmap string string) now w r spec row x t e :
  RedisLaws c view -> sv_redis sv = Some c ->
  dmem (w_waiting w) r = false -> sv_backup_get sv r (w_ext w) = (x, Ok (Some row)) ->
  row_timeout_at row = Some t -> instant (ensure_utc t) <= now ->
  (reg_unregister_if_exists (Some c) r x).2 = true ->
  build_callback_from_spec (sv_builders sv) spec = Raise e ->
  exists w', cross_tick_one sv now w r spec = (w', Ok 0) /\ w_core w' = w_core w /\
    w_waiting w' = w_waiting w /\ ~ announced view (w_ext w') r.
Proof.
  intros Hlaws Hr Hm Hg Ht Hnow Hcl Hb. unfold cross_tick_one, load_wait_entry, claim.
  rewrite Hm, Hg, Ht. destruct (Z.ltb_spec now (instant (ensure_utc t))); [lia|].
  rewrite Hr. simpl w_ext. destruct (reg_unregister_if_exists (Some c) r x) as [x2 b] eqn:E.
  simpl in Hcl. subst b. rewrite Hb. eexists. split_and!; [done..|].
  apply (claim_announced c view) in E as [_ Hv]. unfold announced. simpl.
  rewrite Hv, lookup_delete_eq. by intros [].
Qed.

Definition demo_orphan : demo_ext :=
  ({[ wait_key "r9" := spec_to_json (MkSpec "job.resume" "e9" "t" "r9" None) ]},
   [MkRow "r9" "timer" None (utc_datetime 0) None (Some (utc_datetime 10)) None None "other"]).

Lemma tick_claims_before_build_witness :
  exists w', cross_tick_one demo_services 20 (world_init demo_orphan) "r9"
      (MkSpec "job.resume" "e9" "t" "r9" None) = (w', Ok 0) /\
    w_core w' = core_init /\ ~ announced (id ∘ fst) (w_ext w') "r9".
Proof.
  edestruct (tick_claims_before_build demo_services (lift_redis map_redis) (id ∘ fst) 20 (world_init demo_orphan)
    "r9" (MkSpec "job.resume" "e9" "t" "r9" None)) as (w'&H1&H2&_&H3).
  - apply _.
  - reflexivity.
  - reflexivity.
  - vm_compute. reflexivity.
  - reflexivity.
  - vm_compute. done.
  - vm_compute. reflexivity.
  - vm_compute. reflexivity.
  - exists w'. exact (conj H1 (conj H2 H3)).
Defined.
