(* ===== verification/EventBus.v ===== *)
(** * Event bus ([AINDY/kernel/event_bus.py])

    [bus] is the state of one [EventBus] object.  It is the first part of the
    state behind the scheduler of its instance, whose second part [Y] holds
    everything else outside the process; the Redis connections for publishing
    are the record [pubsub] of calls on [Y].  [bus_services] are the services of a
    scheduler whose events go out over this bus, and a received message is
    handled on the scheduler of the receiving instance. *)
From S2P Require Import Prelude PyDatetime Json WaitCondition SchedulerCore WaitRegistry SchedulerWaits.
Local Open Scope Z_scope.

Definition MAX_BUFFER_SIZE : Z := 1000.
Definition MAX_FAILURES : Z := 3.
(** [_RECONNECT_BASE_DELAY] and [_RECONNECT_MAX_DELAY], in seconds *)
Definition RECONNECT_BASE_DELAY : Z := 1.
Definition RECONNECT_MAX_DELAY : Z := 30.

Record bus := MkBus {
  bus_instance_id : string;
  bus_enabled : bool;
  bus_has_client : bool;          (* [_pub_client is not None] *)
  bus_failures : Z;               (* [_consecutive_failures] *)
  bus_buffer : list (string * option string)
}.

Record pubsub (Y : Type) := MkPubsub {
  ps_from_url : Y -> Y * result unit;
  ps_publish : string -> string -> Y -> Y * result unit;
  ps_ping : Y -> Y * result unit
}.
Arguments ps_from_url {Y}. Arguments ps_publish {Y}. Arguments ps_ping {Y}.

(** The payload of a message *)
Definition message (ev : string) (corr : option string) (source : string) : json :=
  JObj [("event_type", JStr ev); ("correlation_id", json_opt corr); ("source_instance_id", JStr source)].

Section bus.
Context {CB Y : Type} {codec : IsoCodec} (ps : pubsub Y) (CHANNEL : string).
Let X : Type := (bus * Y)%type.

(** [EventBus.__init__] *)
Definition new_bus (instance : string) (enabled : bool) : bus := MkBus instance enabled false 0 [].

(** [_get_pub_client] *)
Definition get_pub_client (x : X) : X * result unit :=
  let (b, y) := x in
  if bus_has_client b then (x, Ok ())
  else match ps_from_url ps y with
       | (y1, Ok _) => ((MkBus (bus_instance_id b) (bus_enabled b) true (bus_failures b) (bus_buffer b), y1), Ok ())
       | (y1, Raise e) => ((b, y1), Raise e)
       end.

(** [publish] *)
Definition publish (ev : string) (corr : option string) (x : X) : X * bool :=
  if negb (bus_enabled x.1) then (x, false) else
  let payload := dumps (message ev corr (bus_instance_id x.1)) in
  let (x1, client) := get_pub_client x in
  let (y2, r) := match client with
                 | Ok _ => ps_publish ps CHANNEL payload x1.2
                 | Raise e => (x1.2, Raise e)
                 end in
  let b := x1.1 in
  match r with
  | Ok _ => ((MkBus (bus_instance_id b) (bus_enabled b) (bus_has_client b) 0 (bus_buffer b), y2), true)
  | Raise _ =>
      let n := bus_failures b + 1 in
      ((MkBus (bus_instance_id b) (if MAX_FAILURES <=? n then false else bus_enabled b) false n (bus_buffer b), y2), false)
  end.

(** [_is_redis_connected]; a client made for the check is not kept. *)
Definition is_redis_connected (x : X) : X * bool :=
  let (b, y) := x in
  if negb (bus_enabled b) then (x, false) else
  let (y1, r) := if bus_has_client b then (y, Ok ()) else ps_from_url ps y in
  match r with
  | Raise _ => ((b, y1), false)
  | Ok _ => let (y2, pong) := ps_ping ps y1 in ((b, y2), is_ok pong)
  end.

(** [_get_propagation_mode]; [running] is whether the subscriber thread is alive. *)
Definition get_propagation_mode (running : bool) (x : X) : X * string :=
  if negb (bus_enabled x.1) then (x, "disabled") else
  let (x1, connected) := is_redis_connected x in
  (x1, if connected && running then "cross-instance" else "local-only").

(** The scheduler's services with this bus: [notify_event] calls [publish] and
    ignores what it returns. *)
Variable base : services CB X.
Definition bus_services : services CB X := {|
  sv_redis := sv_redis base;
  sv_builders := sv_builders base;
  sv_backup_merge := sv_backup_merge base;
  sv_backup_delete := sv_backup_delete base;
  sv_backup_get := sv_backup_get base;
  sv_backup_all := sv_backup_all base;
  sv_flow_deadline := sv_flow_deadline base;
  sv_waiting_ids := sv_waiting_ids base;
  sv_publish ev corr x := ((publish ev corr x).1, Ok ());
  sv_rehydrate := sv_rehydrate base;
  sv_instance := sv_instance base;
  sv_max_retries := sv_max_retries base;
  sv_buffer_max := sv_buffer_max base
|}.

Definition set_bus_buffer (w : world CB X) (l : list (string * option string)) : world CB X :=
  let (b, y) := w_ext w in
  set_ext w (MkBus (bus_instance_id b) (bus_enabled b) (bus_has_client b) (bus_failures b) l, y).
Definition world_bus (w : world CB X) : bus := (w_ext w).1.

(** The append of [_handle_message] under [_buffer_lock] *)
Definition buffer_event (ev : string) (corr : option string) (w : world CB X) : world CB X :=
  let l := bus_buffer (world_bus w) in
  if Z.of_nat (length l) <? MAX_BUFFER_SIZE then set_bus_buffer w (l ++ [(ev, corr)]) else w.

(** The event a payload announces to an instance: [None] when the message is its
    own or has no event type.  A correlation id that is neither a text nor false,
    which [publish] never sends, is read as its JSON text. *)
Definition announced_event (instance : string) (d : dict json) : option (string * option string) :=
  if match jget d "source_instance_id" with JStr s => s =s instance | _ => false end then None else
  match jget d "event_type" with
  | JStr ev =>
      if truthy ev then
        Some (ev, let c := jget d "correlation_id" in
                  if json_truthy c then Some (match c with JStr s => s | _ => dumps c end) else None)
      else None
  | _ => None
  end.

(** [_handle_message]; [payload.get] raises on a document that is not an object,
    and exceptions of [notify_event] are logged. *)
Definition handle_message (data : string) (w : world CB X) : world CB X * result unit :=
  match loads data with
  | Raise _ => (w, Ok ())
  | Ok (JObj d) =>
      match announced_event (bus_instance_id (world_bus w)) d with
      | None => (w, Ok ())
      | Some (ev, corr) =>
          if negb (w_rehydrated w) then (buffer_event ev corr w, Ok ())
          else ((notify_event bus_services ev corr false w).1, Ok ())
      end
  | Ok _ => (w, Raise (Exn "AttributeError" "object has no attribute 'get'"))
  end.

(** [drain_buffered_events] *)
Definition drain_buffered_events (w : world CB X) : world CB X * Z :=
  let pending := bus_buffer (world_bus w) in
  foldl (fun wn e => let (w1, r) := notify_event bus_services e.1 e.2 false wn.1 in
                     (w1, if is_ok r then wn.2 + 1 else wn.2))
    (set_bus_buffer w [], 0) pending.

(** [publish_event] *)
Definition publish_event (ev : string) (corr : option string) (w : world CB X) : world CB X * result Z :=
  notify_event bus_services ev corr true w.

(** [_subscriber_loop] on what its connections give: a connection that fails, or
    one that delivers some messages and is then lost.  The result has the
    back-off delays, in seconds. *)
Inductive connection := Refused | Delivers (msgs : list string).

(** Messages are handled until one raises, which loses the connection. *)
Fixpoint listen (msgs : list string) (w : world CB X) : world CB X :=
  match msgs with
  | [] => w
  | m :: msgs' => match handle_message m w with
                  | (w1, Ok _) => listen msgs' w1
                  | (w1, Raise _) => w1
                  end
  end.
Fixpoint subscriber_loop (conns : list connection) (delay : Z) (w : world CB X) : world CB X * list Z :=
  match conns with
  | [] => (w, [])
  | c :: conns' =>
      let (w1, d) := match c with
                     | Refused => (w, delay)
                     | Delivers msgs => (listen msgs w, RECONNECT_BASE_DELAY)
                     end in
      let (w2, ds) := subscriber_loop conns' (Z.min (d * 2) RECONNECT_MAX_DELAY) w1 in (w2, d :: ds)
  end.

End bus.

(** ** What the bus promises *)

(** A Redis server as publishers see it: [sent] are the messages it accepted, and
    [up] says whether it answers. *)
Class PubsubLaws {Y} (ps : pubsub Y) (sent : Y -> list (string * string)) (up : Y -> bool) := {
  law_from_url y : sent (ps_from_url ps y).1 = sent y /\ up (ps_from_url ps y).1 = up y;
  law_from_url_up y : up y = true -> is_ok (ps_from_url ps y).2 = true;
  law_publish c m y : sent (ps_publish ps c m y).1 =
    (if is_ok (ps_publish ps c m y).2 then sent y ++ [(c, m)] else sent y);
  law_publish_up c m y : is_ok (ps_publish ps c m y).2 = up y
}.

(** A message is read back as the event it announces, and never by its sender. *)
Lemma announced_message instance ev corr source : ev <> "" ->
  exists d, loads (dumps (message ev corr source)) = Ok (JObj d) /\
    announced_event instance d = if source =s instance then None else Some (ev, str_or_none corr).
Proof.
  intros Hev. exists [("event_type", JStr ev); ("correlation_id", json_opt corr); ("source_instance_id", JStr source)].
  split.
  - apply loads_dumps, json_wf_obj. split.
    + apply (dict_wf_keys ["event_type"; "correlation_id"; "source_instance_id"]); [done|by_evaluation].
    + repeat constructor. by destruct corr.
  - unfold announced_event. set (d := [_; _; _]).
    replace (jget d "source_instance_id") with (JStr source) by reflexivity.
    replace (jget d "event_type") with (JStr ev) by reflexivity.
    replace (jget d "correlation_id") with (json_opt corr) by reflexivity.
    destruct (source =s instance); [done|]. apply truthy_true in Hev. rewrite Hev.
    destruct corr as [[|a c]|]; reflexivity.
Qed.

Section bus_facts.
Context {CB Y : Type} {codec : IsoCodec} (ps : pubsub Y) (CHANNEL : string).
Context (sent : Y -> list (string * string)) (up : Y -> bool) `{!PubsubLaws ps sent up}.
Implicit Types (x : bus * Y).

Lemma get_pub_client_facts x :
  let r := get_pub_client ps x in
  sent r.1.2 = sent x.2 /\ up r.1.2 = up x.2 /\ (up x.2 = true -> is_ok r.2 = true) /\
  bus_instance_id r.1.1 = bus_instance_id x.1 /\ bus_enabled r.1.1 = bus_enabled x.1 /\
  bus_failures r.1.1 = bus_failures x.1 /\ bus_buffer r.1.1 = bus_buffer x.1.
Proof.
  destruct x as [b y]. unfold get_pub_client. destruct (bus_has_client b); simpl; [by split_and!|].
  pose proof (law_from_url (ps := ps) y) as [Hs Hu]. pose proof (law_from_url_up (ps := ps) y) as Hup.
  destruct (ps_from_url ps y) as [y1 [[]|e]]; simpl in *; split_and!; try done.
Qed.

(** One publication: what it sends and how it counts failures. *)
Lemma publish_facts ev corr x :
  let r := publish ps CHANNEL ev corr x in
  bus_instance_id r.1.1 = bus_instance_id x.1 /\ bus_buffer r.1.1 = bus_buffer x.1 /\
  if bus_enabled x.1 then
    (up x.2 = true -> r.2 = true) /\
    if r.2 then sent r.1.2 = sent x.2 ++ [(CHANNEL, dumps (message ev corr (bus_instance_id x.1)))] /\
                bus_enabled r.1.1 = true /\ bus_failures r.1.1 = 0
    else sent r.1.2 = sent x.2 /\ bus_failures r.1.1 = bus_failures x.1 + 1 /\
         bus_enabled r.1.1 = negb (MAX_FAILURES <=? bus_failures x.1 + 1)
  else r = (x, false).
Proof.
  unfold publish. destruct (bus_enabled x.1) eqn:Hen; [|done].
  pose proof (get_pub_client_facts x) as (Hs&Hu&Hok&Hi&He&Hf&Hb). simpl negb. cbv iota.
  destruct (get_pub_client ps x) as [[b1 y1] [[]|e]]; simpl in *.
  - pose proof (law_publish (ps := ps) CHANNEL (dumps (message ev corr (bus_instance_id x.1))) y1) as Hp.
    pose proof (law_publish_up (ps := ps) CHANNEL (dumps (message ev corr (bus_instance_id x.1))) y1) as Hpu.
    destruct (ps_publish ps _ _ y1) as [y2 [[]|e]]; simpl in *.
    + split_and!; try done; try congruence.
    + split_and!; try done; try congruence. rewrite Hf, He, Hen. by destruct (MAX_FAILURES <=? _).
  - split_and!; try done; try congruence. rewrite Hf, He, Hen. by destruct (MAX_FAILURES <=? _).
Qed.
End bus_facts.

(** ** Giving up *)
Section giving_up.
Context {Y : Type} (ps : pubsub Y) (CHANNEL : string).
Context (sent : Y -> list (string * string)) (up : Y -> bool) `{!PubsubLaws ps sent up}.

(** A sequence of publications and what they return *)
Fixpoint publishes (evs : list (string * option string)) (x : bus * Y) : (bus * Y) * list bool :=
  match evs with
  | [] => (x, [])
  | e :: evs' => let (x1, ok) := publish ps CHANNEL e.1 e.2 x in
                 let (x2, oks) := publishes evs' x1 in (x2, ok :: oks)
  end.

Definition three_failures (before after : list bool) : list bool := before ++ [false; false; false] ++ after.

Lemma three_failures_cons ok before after : ok :: three_failures before after = three_failures (ok :: before) after.
Proof. done. Qed.

Lemma failures_then_success f rs before after : (f < 3)%nat ->
  replicate f false ++ true :: rs = three_failures before after ->
  exists before', rs = three_failures before' after.
Proof.
  unfold three_failures. intros Hf H.
  destruct f as [|[|[|f]]]; [..|lia]; simpl in H; destruct before as [|? before]; simplify_eq/=; eauto;
    destruct before as [|? before]; simplify_eq/=; eauto; destruct before as [|? before]; simplify_eq/=; eauto.
Qed.

Lemma publishes_disabled evs x : bus_enabled x.1 = false -> publishes evs x = (x, map (fun _ => false) evs).
Proof. intros Hx. induction evs as [|e evs IH]; simpl; [done|]. unfold publish at 1. rewrite Hx. simpl. by rewrite IH. Qed.

(** The messages of the publications that succeeded *)
Definition accepted (instance : string) (evs : list (string * option string)) (oks : list bool) : list (string * string) :=
  map (fun eo => (CHANNEL, dumps (message eo.1.1 eo.1.2 instance))) (List.filter snd (zip evs oks)).

Lemma accepted_refused i evs : accepted i evs (map (fun _ => false) evs) = [].
Proof. unfold accepted. induction evs as [|e evs IH]; simpl; [done|exact IH]. Qed.

Lemma all_refused (evs : list (string * option string)) before after :
  map (fun _ => false) evs = before ++ after -> Forall (eq false) after.
Proof.
  intros H. assert (Forall (eq false) (before ++ after)) as Hall by (rewrite <- H; by apply Forall_map, Forall_true).
  by apply Forall_app in Hall as [_ ?].
Qed.

Lemma publishes_facts evs f x : bus_enabled x.1 = true -> bus_failures x.1 = Z.of_nat f -> (f < 3)%nat ->
  let r := publishes evs x in
  sent r.1.2 = sent x.2 ++ accepted (bus_instance_id x.1) evs r.2 /\
  (bus_enabled r.1.1 = false <-> exists before after, replicate f false ++ r.2 = three_failures before after) /\
  (forall before after, replicate f false ++ r.2 = three_failures before after -> Forall (eq false) after).
Proof.
  revert f x. induction evs as [|[ev corr] evs IH]; intros f x Hen Hf Hlt; simpl.
  - rewrite !app_nil_r. assert (forall b a, replicate f false = three_failures b a -> False) as Hno.
    { intros b a H%(f_equal length). unfold three_failures in H. rewrite length_app, length_replicate in H. simpl in H. lia. }
    split_and!; [done| |intros b a H; by apply Hno in H]. split; [congruence|by intros (b&a&?%Hno)].
  - pose proof (publish_facts ps CHANNEL sent up ev corr x) as (Hi&_&Hp). rewrite Hen in Hp.
    destruct (publish ps CHANNEL ev corr x) as [x1 ok]. simpl in Hi, Hp. destruct ok, Hp as [_ Hp].
    + destruct Hp as (Hs&Hen1&Hf1). destruct (IH 0%nat x1 Hen1 Hf1) as (IHs&IHe&IHr); [lia|].
      destruct (publishes evs x1) as [x2 oks]. simpl in *. split_and!.
      * by rewrite IHs, Hs, Hi, <- app_assoc.
      * rewrite IHe. split; intros (b&a&H).
        -- exists (replicate f false ++ true :: b), a. unfold three_failures in *. by rewrite H, <- app_assoc.
        -- apply failures_then_success in H as [b' ->]; [|done]. by eexists _, _.
      * intros b a H. apply failures_then_success in H as [b' ->]; [|done]. by eapply IHr.
    + destruct Hp as (Hs&Hf1&Hen1). rewrite Hf in Hf1, Hen1.
      assert (replicate f false ++ false :: (publishes evs x1).2 = replicate (S f) false ++ (publishes evs x1).2) as Hrep.
      { rewrite replicate_S_end, <- app_assoc. done. }
      destruct (decide (f = 2%nat)) as [->|Hne].
      * rewrite publishes_disabled by done. simpl. rewrite Hs. split_and!.
        -- change (accepted (bus_instance_id x.1) _ _) with (accepted (bus_instance_id x.1) evs (map (fun _ => false) evs)).
           by rewrite accepted_refused, app_nil_r.
        -- split; [|done]. intros _. by exists [], (map (fun _ => false) evs).
        -- intros b a H. apply (all_refused (("", None) :: ("", None) :: (ev, corr) :: evs) (b ++ [false; false; false])).
           simpl. by rewrite H, <- app_assoc.
      * destruct (IH (S f) x1) as (IHs&IHe&IHr); [|lia|lia|].
        { rewrite Hen1. unfold MAX_FAILURES. destruct (Z.leb_spec 3 (Z.of_nat f + 1)); [lia|done]. }
        destruct (publishes evs x1) as [x2 oks]. simpl in *. rewrite Hrep. split_and!; [|done|done].
        by rewrite IHs, Hs, Hi.
Qed.
End giving_up.

(** the bus gives up for good.  Over any sequence of publications from a fresh
    bus the server receives exactly the messages of the publications that returned
    true, in order.  The bus is disabled exactly when three publications in a row
    have failed, and from then on every publication fails without a message, also
    when the server is back. *)
Theorem bus_gives_up {Y} (ps : pubsub Y) CHANNEL sent up `{!PubsubLaws ps sent up} evs instance y :
  let r := publishes ps CHANNEL evs (new_bus instance true, y) in
  sent r.1.2 = sent y ++ accepted CHANNEL instance evs r.2 /\
  (bus_enabled r.1.1 = false <-> exists before after, r.2 = three_failures before after) /\
  (forall before after, r.2 = three_failures before after -> Forall (eq false) after).
Proof. apply (publishes_facts ps CHANNEL sent up evs 0 (new_bus instance true, y)); [done|done|lia]. Qed.

(** A server that is up or down, with the messages it accepted. *)
Definition demo_pubsub : pubsub (bool * list (string * string)) := {|
  ps_from_url (y : bool * list (string * string)) := (y, Ok ());
  ps_publish c m (y : bool * list (string * string)) := if fst y then ((true, snd y ++ [(c, m)]), Ok ()) else (y, Raise (Exn "ConnectionError" "down"));
  ps_ping (y : bool * list (string * string)) := (y, if fst y then Ok () else Raise (Exn "ConnectionError" "down"))
|}.
#[export] Instance demo_pubsub_laws : PubsubLaws demo_pubsub snd fst.
Proof. split; intros; repeat match goal with y : bool * _ |- _ => destruct y as [[] l] end; done. Qed.

Lemma bus_gives_up_witness :
  let r := publishes demo_pubsub "c" [("a", None); ("b", None); ("c", None); ("d", None)] (new_bus "i1" true, (false, [])) in
  bus_enabled r.1.1 = false /\ r.1.2 = (false, []).
Proof.
  destruct (bus_gives_up demo_pubsub "c" snd fst [("a", None); ("b", None); ("c", None); ("d", None)] "i1" (false, []))
    as (_&He&_).
  split; [|vm_compute; reflexivity]. apply He. exists [], [false]. vm_compute. reflexivity.
Defined.

(** ** Delivery to other instances *)

(** C32: an event published on one instance resumes the matching runs of every
    other one.  When the server answers, [publish] hands it one message; handling
    that message on another instance that is rehydrated withdraws exactly the runs
    waiting there for the event and makes them ready in the order of their
    registration, and on the publishing instance it changes nothing. *)
Theorem event_reaches_peers {CB Y} `{!IsoCodec} (ps : pubsub Y) CHANNEL sent up `{!PubsubLaws ps sent up}
    (base : services CB (bus * Y)) ev corr x (w : world CB (bus * Y)) :
  ev <> "" -> bus_enabled x.1 = true -> up x.2 = true ->
  w_rehydrated w = true -> dict_wf (w_waiting w) -> Forall (fun kv => priority_ok kv.2) (w_waiting w) ->
  exists x' msg,
    publish ps CHANNEL ev corr x = (x', true) /\ sent x'.2 = sent x.2 ++ [(CHANNEL, msg)] /\
    (bus_instance_id (world_bus w) = bus_instance_id x.1 -> handle_message ps CHANNEL base msg w = (w, Ok ())) /\
    (bus_instance_id (world_bus w) <> bus_instance_id x.1 ->
     exists w' cross, handle_message ps CHANNEL base msg w = (w', Ok ()) /\
       w_waiting w' = List.filter (fun kv => negb (entry_matches ev corr kv.2)) (w_waiting w) /\
       w_core w' = foldl enqueue (w_core w) (resume_items base (matching ev corr (w_waiting w)) ++ cross) /\
       Forall (fun i => forall r, run_id i = Some r -> r ∉ dkeys (w_waiting w)) cross).
Proof.
  intros Hev Hen Hup Hre Hwf Hp. pose proof (publish_facts ps CHANNEL sent up ev corr x) as (_&_&Hpub).
  rewrite Hen in Hpub. destruct (publish ps CHANNEL ev corr x) as [x' ok]. destruct Hpub as [Hok Hpub].
  specialize (Hok Hup). simpl in Hok. subst ok. destruct Hpub as (Hs&_&_).
  exists x', (dumps (message ev corr (bus_instance_id x.1))). split_and!; [done|done|..]; intros Hi; unfold handle_message;
    destruct (announced_message (bus_instance_id (world_bus w)) ev corr (bus_instance_id x.1) Hev) as (d&->&->).
  - by rewrite Hi, String.eqb_refl.
  - destruct (String.eqb_spec (bus_instance_id x.1) (bus_instance_id (world_bus w))) as [?|_]; [congruence|].
    rewrite Hre. simpl negb. cbv iota.
    destruct (notify_event_run (bus_services ps CHANNEL base) ev (str_or_none corr) false w Hre Hwf Hp)
      as (w'&cross&n&Hn&Hw&Hc&_&_&_&Hf).
    exists w', cross. rewrite Hn. simpl.
    assert (forall e : wait_entry CB, entry_matches ev (str_or_none corr) e = entry_matches ev corr e) as Hm.
    { intros e. unfold entry_matches, corr_conflict. by destruct corr as [[|a c]|]. }
    split_and!; [done| | |done].
    + rewrite Hw. apply filter_ext. intros kv. by rewrite Hm.
    + rewrite Hc. unfold matching. erewrite (filter_ext _ (fun kv => entry_matches ev corr kv.2)) by (intros kv; by rewrite Hm).
      reflexivity.
Qed.

(** A single instance without the Redis registry, whose backup table stays empty *)
Definition local_services {CB X} : services CB X := {|
  sv_redis := None;
  sv_builders := [];
  sv_backup_merge _ x := (x, Ok ());
  sv_backup_delete _ x := (x, Ok ());
  sv_backup_get _ x := (x, Ok None);
  sv_backup_all x := (x, Ok []);
  sv_flow_deadline _ x := (x, Ok None);
  sv_waiting_ids ids x := (x, Ok ids);
  sv_publish _ _ x := (x, Ok ());
  sv_rehydrate _ w := (w, Ok 0);
  sv_instance := "local";
  sv_max_retries := 2;
  sv_buffer_max := 1000
|}.
Definition demo_peer (rehydrated : bool) : world nat (bus * (bool * list (string * string))) :=
  set_rehydrated (register_wait local_services 5 (world_init (new_bus "i2" true, (true, []))) "r1" (Some "go")
    "t" "e1" 7%nat "normal" (Some "c1") None "flow" CNone) rehydrated.

Lemma event_reaches_peers_witness :
  exists x' msg w', publish demo_pubsub "ch" "go" (Some "c1") (new_bus "i1" true, (true, [])) = (x', true) /\
    snd x'.2 = [("ch", msg)] /\
    handle_message demo_pubsub "ch" local_services msg (demo_peer true) = (w', Ok ()) /\ w_waiting w' = [].
Proof.
  destruct (event_reaches_peers demo_pubsub "ch" snd fst local_services "go" (Some "c1") (new_bus "i1" true, (true, []))
    (demo_peer true)) as (x'&msg&Hp&Hs&_&Hh); [done|done|done|done|by_evaluation|by_evaluation|].
  destruct Hh as (w'&cross&Hm&Hw&_); [done|]. exists x', msg, w'.
  split_and!; [exact Hp|exact Hs|exact Hm|rewrite Hw; vm_compute; reflexivity].
Defined.

(** ** Messages that are not objects *)

(** a message that is valid JSON but not an object ends the connection.
    The messages before it are handled, the ones after it on the same connection
    are lost, and the subscriber reconnects after the base delay. *)
Theorem non_object_message_drops_rest {CB Y} `{!IsoCodec} (ps : pubsub Y) CHANNEL (base : services CB (bus * Y))
    before bad after conns delay w j :
  loads bad = Ok j -> (forall d, j <> JObj d) ->
  subscriber_loop ps CHANNEL base (Delivers (before ++ bad :: after) :: conns) delay w =
  subscriber_loop ps CHANNEL base (Delivers before :: conns) delay w.
Proof.
  intros Hl Hj. simpl.
  assert (listen ps CHANNEL base (before ++ bad :: after) w = listen ps CHANNEL base before w) as ->; [|done].
  revert w. induction before as [|m before IH]; intros w; simpl.
  - unfold handle_message. rewrite Hl. by destruct j; try (edestruct Hj; reflexivity).
  - destruct (handle_message ps CHANNEL base m w) as [w1 [[]|e]]; [apply IH|done].
Qed.

Lemma non_object_message_drops_rest_witness :
  subscriber_loop demo_pubsub "ch" local_services [Delivers (["{}"] ++ "[1]" :: [dumps (message "go" None "i1")])] 4 (demo_peer true) =
  subscriber_loop demo_pubsub "ch" local_services [Delivers ["{}"]] 4 (demo_peer true).
Proof.
  apply (non_object_message_drops_rest demo_pubsub "ch" local_services ["{}"] "[1]" _ [] 4 (demo_peer true) (JArr [JInt 1])).
  - vm_compute. reflexivity.
  - done.
Defined.

(** ** The buffer and the end of rehydration

    [notify_event] first tests whether the engine is rehydrated and then appends
    to the buffer under the lock; the test itself is not under the lock.
    [late_notify] is the second half, run by a thread that made the test before
    the end of rehydration. *)
Section race.
Context {CB Y : Type} {codec : IsoCodec} (ps : pubsub Y) (CHANNEL : string) (base : services CB (bus * Y)).
Implicit Types w : world CB (bus * Y).
Let sv : services CB (bus * Y) := bus_services ps CHANNEL base.

Definition late_notify (ev : string) (corr : option string) w : world CB (bus * Y) :=
  if sv_buffer_max base <=? Z.of_nat (length (w_buffer w)) then w else set_buffer w (w_buffer w ++ [(ev, corr)]).

(** What the instance does afterwards *)
Inductive later :=
| LNotify (ev : string) (corr : option string) (broadcast : bool)
| LMessage (data : string)
| LTick (now : Z)
| LRegister (now : Z) (run_id : string) (ev : option string) (tenant eu : string) (cb : CB) (prio : string)
    (corr trace : option string) (ty : string) (cond : cond_arg).
Definition later_step w (l : later) : world CB (bus * Y) :=
  match l with
  | LNotify ev corr b => (notify_event sv ev corr b w).1
  | LMessage data => (handle_message ps CHANNEL base data w).1
  | LTick now => (tick_time_waits sv now w).1
  | LRegister now r ev t eu cb p c tr ty cond => register_wait sv now w r ev t eu cb p c tr ty cond
  end.

Definition same_buffer w w' : Prop := w_buffer w' = w_buffer w /\ w_rehydrated w' = w_rehydrated w.

Lemma resume_all_buffer w sel : same_buffer w (resume_all sv w sel).1.
Proof.
  revert w. induction sel as [|[k e] sel IH]; intros w; simpl; [done|].
  unfold enqueue_entry, enqueue_resume. destruct (new_ScheduledItem _ _ _ _ _ _ _ _) as [i|exc]; [|done].
  exact (IH (delete_wait_backup sv (set_core w (enqueue (w_core w) i)) k)).
Qed.

Lemma resumed_buffer w sel one : one_delivers (fun _ => True) one ->
  forall w1 r, resume_all sv (withdraw sv w sel) sel = (w1, r) ->
  same_buffer w w1 /\ same_buffer w (cross_instance sv one w1).1.
Proof.
  intros Hone w1 r Hr. pose proof (resume_all_buffer (withdraw sv w sel) sel) as [Hb Hre]. rewrite Hr in Hb, Hre.
  destruct (withdraw_spec sv w sel) as (_&_&Hre0&Hb0). simpl in Hb, Hre.
  assert (same_buffer w w1) as H1 by (split; congruence). split; [done|].
  destruct (cross_instance sv one w1) as [w2 n] eqn:E.
  apply (cross_instance_delivers sv (fun _ => True)) in E as (cross&(_&Hr2&Hb2&_)&_); [|done].
  destruct H1. split; simpl; congruence.
Qed.

Lemma notify_buffer w ev corr b : w_rehydrated w = true -> same_buffer w (notify_event sv ev corr b w).1.
Proof.
  intros Hre. unfold notify_event. rewrite Hre. simpl negb. cbv iota.
  destruct (resume_all sv _ _) as [w1 [[]|exc]] eqn:E;
    eapply (resumed_buffer _ _ (cross_resume_one sv ev corr (dkeys (matching ev corr (w_waiting w))))) in E as [H1 H2];
    try (by apply cross_resume_one_delivers); [|exact H1].
  unfold cross_instance_resume. destruct (cross_instance sv _ w1) as [w2 n]. by destruct b.
Qed.

Lemma later_buffer w l : w_rehydrated w = true -> same_buffer w (later_step w l).
Proof.
  intros Hre. destruct l as [ev corr b|data|now|now r ev t eu cb p c tr ty cond]; simpl.
  - by apply notify_buffer.
  - unfold handle_message. destruct (loads data) as [[]|]; try done.
    destruct (announced_event _ _) as [[ev corr]|]; [|done]. rewrite Hre. simpl. by apply notify_buffer.
  - unfold tick_time_waits. destruct (resume_all sv _ _) as [w1 [[]|exc]] eqn:E;
      eapply (resumed_buffer _ _ (cross_tick_one sv now)) in E as [H1 H2];
      try (by apply cross_tick_one_delivers); [|exact H1].
    unfold cross_instance_tick. by destruct (cross_instance sv _ w1).
  - destruct (register_set_buffer sv w [] (ARegister now r ev t eu cb p c tr ty cond) eq_refl) as (_&?&?). done.
Qed.

Lemma mark_buffer w : same_buffer (set_buffer (set_rehydrated w true) []) (mark_rehydration_complete sv w).
Proof.
  unfold mark_rehydration_complete. generalize (w_buffer w). intros evs.
  assert (w_rehydrated (set_buffer (set_rehydrated w true) []) = true) as Hre by done. revert Hre.
  generalize (set_buffer (set_rehydrated w true) []). induction evs as [|e evs IH]; intros w0 Hre; simpl; [done|].
  destruct (notify_buffer w0 e.1 e.2 false Hre) as [Hb Hr].
  destruct (IH (notify_event sv e.1 e.2 false w0).1) as [Hb' Hr']; [congruence|]. split; congruence.
Qed.
End race.

(** an event can be lost at the end of rehydration.  A thread that found the
    engine not rehydrated and appends its event after [mark_rehydration_complete]
    leaves the event in the buffer: no run becomes ready, and whatever events,
    messages, timers and registrations follow, the event stays there. *)
Theorem late_event_never_delivered {CB Y} `{!IsoCodec} (ps : pubsub Y) CHANNEL (base : services CB (bus * Y)) ev corr w ls :
  1 <= sv_buffer_max base ->
  let w1 := mark_rehydration_complete (bus_services ps CHANNEL base) w in
  let w2 := late_notify base ev corr w1 in
  w_core w2 = w_core w1 /\ w_waiting w2 = w_waiting w1 /\
  w_buffer (foldl (later_step ps CHANNEL base) w2 ls) = [(ev, corr)].
Proof.
  intros Hmax w1 w2. destruct (mark_buffer ps CHANNEL base w) as [Hb Hr]. fold w1 in Hb, Hr. simpl in Hb, Hr.
  assert (w2 = set_buffer w1 [(ev, corr)]) as ->.
  { unfold w2, late_notify. rewrite Hb. change (Z.of_nat (length [])) with 0.
    by rewrite (proj2 (Z.leb_gt (sv_buffer_max base) 0)) by lia. }
  split_and!; [done..|]. cut (forall w', w_rehydrated w' = true -> w_buffer (foldl (later_step ps CHANNEL base) w' ls) = w_buffer w').
  { intros Hk. by rewrite Hk. }
  induction ls as [|l ls IH]; intros w' Hw'; simpl; [done|].
  destruct (later_buffer ps CHANNEL base w' l Hw') as [Hb' Hr']. rewrite IH; congruence.
Qed.

Lemma late_event_never_delivered_witness :
  w_buffer (foldl (later_step demo_pubsub "ch" local_services)
    (late_notify local_services "go" (Some "c1") (mark_rehydration_complete (bus_services demo_pubsub "ch" local_services)
      (demo_peer false))) [LNotify "stop" None true; LTick 9]) = [("go", Some "c1")].
Proof. apply (late_event_never_delivered demo_pubsub "ch" local_services). vm_compute. discriminate. Defined.
