(* ===== verification/ResourceManager.v ===== *)
(** * Resource manager ([AINDY/kernel/resource_manager.py])

    [rm] is the state of the process-wide [ResourceManager] together with the
    state [X] of the servers behind it; every method is a function on it at a
    reading [now] of the monotonic clock (in microseconds).  The Redis commands
    are the record [quota_client]; the methods of [RedisResourceBackend] and the
    two Lua scripts are compositions of them. *)
From S2P Require Import Prelude.
Local Open Scope Z_scope.

Definition RESOURCE_LIMIT_EXCEEDED : string := "RESOURCE_LIMIT_EXCEEDED".
Definition EU_KEY_TTL_SECONDS : Z := 3600.
Definition TENANT_KEY_TTL_SECONDS : Z := 86400.
Definition REDIS_CHECK_INTERVAL : Z := 30000000.

Record UsageSnapshot := MkUsage {
  us_eu_id : string;
  us_tenant_id : string;
  us_cpu_time_ms : Z;
  us_memory_bytes : Z;
  us_syscall_count : Z
}.

Definition new_usage (eu tenant : string) : UsageSnapshot := MkUsage eu tenant 0 0 0.

(** The commands sent to Redis; a reply is the decoded value. *)
Record quota_client (X : Type) := MkClient {
  k_get : string -> X -> X * result (option string);
  k_set : string -> string -> X -> X * result unit;
  k_incrby : string -> Z -> X -> X * result Z;
  k_expire : string -> Z -> X -> X * result unit;
  k_delete : list string -> X -> X * result unit;
  k_scan : string -> X -> X * result (list (list string))   (* the pages of one full iteration *)
}.
Arguments k_get {X}. Arguments k_set {X}. Arguments k_incrby {X}.
Arguments k_expire {X}. Arguments k_delete {X}. Arguments k_scan {X}.

Section commands.
Context {X : Type}.
Implicit Types (c : quota_client X) (x : X).

Definition k_incr c k x := k_incrby c k 1 x.
Definition k_decr c k x := k_incrby c k (-1) x.

(** [int(client.get(key) or 0)] *)
Definition int_reply (r : result (option string)) : result Z :=
  match r with
  | Raise e => Raise e
  | Ok None => Ok 0
  | Ok (Some t) =>
      if truthy t then
        match Z_of_string t with
        | Some z => Ok z
        | None => Raise (Exn "ValueError" ("invalid literal for int() with base 10: '" +:+ t +:+ "'"))
        end
      else Ok 0
  end.
Definition get_int c k x : X * result Z := let (x', r) := k_get c k x in (x', int_reply r).

(** ** [RedisResourceBackend] *)
Definition tenant_key (t : string) : string := "aindy:rm:tenant:" +:+ t +:+ ":active".
Definition cpu_key (e : string) : string := "aindy:rm:eu:" +:+ e +:+ ":cpu_ms".
Definition syscalls_key (e : string) : string := "aindy:rm:eu:" +:+ e +:+ ":syscalls".
Definition memory_key (e : string) : string := "aindy:rm:eu:" +:+ e +:+ ":memory_bytes".

(** [INCRBY] followed by [EXPIRE] *)
Definition add_and_expire c (k : string) (n ttl : Z) x : X * result Z :=
  match k_incrby c k n x with
  | (x1, Raise e) => (x1, Raise e)
  | (x1, Ok v) => match k_expire c k ttl x1 with
                  | (x2, Raise e) => (x2, Raise e)
                  | (x2, Ok _) => (x2, Ok v)
                  end
  end.
Definition increment_tenant_active c t x := add_and_expire c (tenant_key t) 1 TENANT_KEY_TTL_SECONDS x.
Definition add_cpu_ms c e ms x := add_and_expire c (cpu_key e) ms EU_KEY_TTL_SECONDS x.
Definition increment_syscalls c e x := add_and_expire c (syscalls_key e) 1 EU_KEY_TTL_SECONDS x.

(** The script [_DECR_FLOOR_LUA] *)
Definition decrement_tenant_active c t x : X * result Z :=
  let k := tenant_key t in
  match k_decr c k x with
  | (x1, Raise e) => (x1, Raise e)
  | (x1, Ok v) =>
      let (x2, floored) := if v <? 0 then
                             match k_set c k "0" x1 with (x', Ok _) => (x', Ok 0) | (x', Raise e) => (x', Raise e) end
                           else (x1, Ok v) in
      match floored with
      | Raise e => (x2, Raise e)
      | Ok v' => match k_expire c k TENANT_KEY_TTL_SECONDS x2 with
                 | (x3, Raise e) => (x3, Raise e)
                 | (x3, Ok _) => (x3, Ok v')
                 end
      end
  end.

(** [int(value) if value is not None else 0] *)
Definition get_counter c k x : X * result Z :=
  let (x', r) := k_get c k x in
  (x', match r with
       | Ok (Some t) => match Z_of_string t with Some z => Ok z | None => Raise (Exn "ValueError" t) end
       | Ok None => Ok 0
       | Raise e => Raise e
       end).
Definition backend_get_tenant_active c t x := get_counter c (tenant_key t) x.
Definition get_cpu_ms c e x := get_counter c (cpu_key e) x.
Definition get_syscalls c e x := get_counter c (syscalls_key e) x.

(** The script [_SET_IF_GREATER_LUA] *)
Definition set_memory_if_greater c e (n : Z) x : X * result unit :=
  let k := memory_key e in
  match k_get c k x with
  | (x1, Raise ex) => (x1, Raise ex)
  | (x1, Ok cur) =>
      let greater := match cur with
                     | None => true
                     | Some t => match Z_of_string t with Some z => z <? n | None => false end
                     end in
      let (x2, r) := if greater then k_set c k (Z_to_string n) x1 else (x1, Ok ()) in
      match r with Raise ex => (x2, Raise ex) | Ok _ => k_expire c k EU_KEY_TTL_SECONDS x2 end
  end.

(** [delete_eu] *)
Definition delete_eu c e x := k_delete c [cpu_key e; syscalls_key e; memory_key e] x.

(** [reset_all]: a page without keys is skipped. *)
Fixpoint delete_pages c (pages : list (list string)) x : X * result unit :=
  match pages with
  | [] => (x, Ok ())
  | [] :: pages' => delete_pages c pages' x
  | page :: pages' =>
      match k_delete c page x with
      | (x1, Raise e) => (x1, Raise e)
      | (x1, Ok _) => delete_pages c pages' x1
      end
  end.
Definition reset_all c x : X * result unit :=
  match k_scan c "aindy:rm:" x with
  | (x1, Raise e) => (x1, Raise e)
  | (x1, Ok pages) => delete_pages c pages x1
  end.
End commands.

(** ** The manager *)
Section manager.
Context {X : Type}.

(** Configuration and services: [env_connect] is [redis.from_url] with [ping]. *)
Record env := MkEnv {
  env_testing : bool;
  env_redis_url : bool;
  env_max_concurrent : Z;
  env_max_cpu_ms : Z;
  env_max_syscalls : Z;
  env_connect : X -> X * bool;
  env_client : quota_client X;
  env_backend : option (quota_client X);
  env_redis_error : exn -> bool;
  env_publish : string -> X -> X * result unit
}.
Variable E : env.

Record rm := MkRm {
  rm_usage : gmap string UsageSnapshot;
  rm_active : gmap string Z;
  rm_eu_tenant : gmap string string;
  rm_pending_purge : gset string;
  rm_redis : bool;                    (* [self._redis is not None] *)
  rm_last_check : Z;
  rm_ext : X
}.

Definition rm_init (x : X) : rm := MkRm ∅ ∅ ∅ ∅ false 0 x.

Definition with_usage (s : rm) u := MkRm u (rm_active s) (rm_eu_tenant s) (rm_pending_purge s) (rm_redis s) (rm_last_check s) (rm_ext s).
Definition with_active (s : rm) a := MkRm (rm_usage s) a (rm_eu_tenant s) (rm_pending_purge s) (rm_redis s) (rm_last_check s) (rm_ext s).
Definition with_ext (s : rm) x := MkRm (rm_usage s) (rm_active s) (rm_eu_tenant s) (rm_pending_purge s) (rm_redis s) (rm_last_check s) x.
Definition with_redis (s : rm) b now := MkRm (rm_usage s) (rm_active s) (rm_eu_tenant s) (rm_pending_purge s) b now (rm_ext s).

(** [_concurrency_key] *)
Definition concurrency_key (t : string) : string := "aindy:quota:concurrent:" +:+ t.

(** [_get_redis] *)
Definition get_redis (now : Z) (s : rm) : rm * bool :=
  if now - rm_last_check s <=? REDIS_CHECK_INTERVAL then (s, rm_redis s)
  else if env_redis_url E then
    let (x, ok) := env_connect E (rm_ext s) in (with_ext (with_redis s ok now) x, ok)
  else (with_redis s false now, false).

(** [_drop_redis_client] *)
Definition drop_redis_client (now : Z) (s : rm) : rm := with_redis s false now.

Definition local_active (s : rm) (t : string) : Z := default 0 (rm_active s !! t).

(** [get_tenant_active], also the first half of [can_execute] *)
Definition get_tenant_active (now : Z) (t : string) (s : rm) : rm * Z :=
  let (s1, redis) := get_redis now s in
  if redis then
    match get_int (env_client E) (concurrency_key t) (rm_ext s1) with
    | (x, Ok n) => (with_ext s1 x, n)
    | (x, Raise _) => let s2 := drop_redis_client now (with_ext s1 x) in (s2, local_active s2 t)
    end
  else (s1, local_active s1 t).

(** The deferred purge at the start of [can_execute] *)
Definition purge_pending (s : rm) : rm :=
  MkRm (filter (fun kv => kv.1 ∉ rm_pending_purge s) (rm_usage s)) (rm_active s)
    (filter (fun kv => kv.1 ∉ rm_pending_purge s) (rm_eu_tenant s)) ∅
    (rm_redis s) (rm_last_check s) (rm_ext s).

(** [can_execute]: [None] allows the execution, [Some reason] refuses it. *)
Definition can_execute (now : Z) (t : string) (s : rm) : rm * option string :=
  let s := purge_pending s in
  if env_testing E then (s, None) else
  let (s1, active) := get_tenant_active now t s in
  if env_max_concurrent E <=? active then
    (s1, Some (RESOURCE_LIMIT_EXCEEDED +:+ ": tenant '" +:+ t +:+ "' at concurrent limit (" +:+
               Z_to_string active +:+ "/" +:+ Z_to_string (env_max_concurrent E) +:+ ")"))
  else (s1, None).

(** The [_backend_*] wrappers: a Redis error counts as no answer. *)
Definition via_backend {A} (f : quota_client X -> X -> X * result A) (s : rm) : rm * result (option A) :=
  match env_backend E with
  | None => (s, Ok None)
  | Some c =>
      let (x, r) := f c (rm_ext s) in
      (with_ext s x,
       match r with
       | Ok v => Ok (Some v)
       | Raise e => if env_redis_error E e then Ok None else Raise e
       end)
  end.

(** [check_quota] *)
Definition check_quota (now : Z) (eu : string) (s : rm) : rm * result (option string) :=
  if env_testing E then (s, Ok None) else
  match rm_usage s !! eu with
  | None => (s, Ok None)
  | Some snap =>
      match can_execute now (us_tenant_id snap) s with
      | (s1, Some reason) => (s1, Ok (Some reason))
      | (s1, None) =>
          match rm_usage s1 !! eu with
          | None => (s1, Ok None)
          | Some snap =>
              match via_backend (fun c => get_cpu_ms c eu) s1 with
              | (s2, Raise e) => (s2, Raise e)
              | (s2, Ok cpu) =>
                  match via_backend (fun c => get_syscalls c eu) s2 with
                  | (s3, Raise e) => (s3, Raise e)
                  | (s3, Ok calls) =>
                      let cpu := default (us_cpu_time_ms snap) cpu in
                      let calls := default (us_syscall_count snap) calls in
                      if env_max_cpu_ms E <? cpu then
                        (s3, Ok (Some (RESOURCE_LIMIT_EXCEEDED +:+ ": eu '" +:+ eu +:+ "' exceeded cpu_time_ms limit (" +:+
                                       Z_to_string cpu +:+ " > " +:+ Z_to_string (env_max_cpu_ms E) +:+ ")")))
                      else if env_max_syscalls E <? calls then
                        (s3, Ok (Some (RESOURCE_LIMIT_EXCEEDED +:+ ": eu '" +:+ eu +:+ "' exceeded syscall_count limit (" +:+
                                       Z_to_string calls +:+ " > " +:+ Z_to_string (env_max_syscalls E) +:+ ")")))
                      else (s3, Ok None)
                  end
              end
          end
      end
  end.

(** ** Lifecycle *)
Definition bump (s : rm) (t : string) (d : Z) : rm := with_active s (<[t := local_active s t + d]> (rm_active s)).

(** The last part of [mark_started] *)
Definition note_started (t : string) (eu : option string) (s : rm) : rm :=
  match str_or_none eu with
  | None => s
  | Some e =>
      MkRm (match rm_usage s !! e with Some _ => rm_usage s | None => <[e := new_usage e t]> (rm_usage s) end)
        (rm_active s) (<[e := t]> (rm_eu_tenant s)) (rm_pending_purge s) (rm_redis s) (rm_last_check s) (rm_ext s)
  end.

(** [mark_started] *)
Definition mark_started (now : Z) (t : string) (eu : option string) (s : rm) : rm :=
  let (s1, redis) := get_redis now s in
  let s2 := if redis then
              match k_incr (env_client E) (concurrency_key t) (rm_ext s1) with
              | (x, Ok _) => with_ext s1 x
              | (x, Raise _) => bump (drop_redis_client now (with_ext s1 x)) t 1
              end
            else bump s1 t 1 in
  note_started t eu s2.

(** [reset_tenant_quota] *)
Definition reset_tenant_quota (now : Z) (t : string) (s : rm) : rm :=
  let (s1, redis) := get_redis now s in
  if redis then
    match k_set (env_client E) (concurrency_key t) "0" (rm_ext s1) with
    | (x, Ok _) => with_ext s1 x
    | (x, Raise _) => let s2 := drop_redis_client now (with_ext s1 x) in with_active s2 (<[t := 0]> (rm_active s2))
    end
  else with_active s1 (<[t := 0]> (rm_active s1)).

(** The local branch of [mark_completed]: the counts before and after. *)
Definition complete_local (t : string) (s : rm) : rm * Z * Z :=
  let count := local_active s t in
  let s' := if 0 <? count then with_active s (<[t := count - 1]> (rm_active s)) else s in
  (s', count, local_active s' t).

(** The Redis branch; the underflow repair uses [reset_tenant_quota]. *)
Definition complete_redis (now : Z) (t : string) (s : rm) : rm * Z * Z :=
  match get_int (env_client E) (concurrency_key t) (rm_ext s) with
  | (x, Raise _) => complete_local t (drop_redis_client now (with_ext s x))
  | (x, Ok cur) =>
      match k_decr (env_client E) (concurrency_key t) x with
      | (x1, Raise _) => complete_local t (drop_redis_client now (with_ext s x1))
      | (x1, Ok new) =>
          if new <? 0 then (reset_tenant_quota now t (with_ext s x1), cur, 0) else (with_ext s x1, cur, new)
      end
  end.

(** [mark_completed] *)
Definition mark_completed (now : Z) (t : string) (eu : option string) (s : rm) : rm :=
  let (s1, redis) := get_redis now s in
  let '(s2, current, new_active) := if redis then complete_redis now t s1 else complete_local t s1 in
  let s3 := match str_or_none eu with
            | Some e => MkRm (rm_usage s2) (rm_active s2) (rm_eu_tenant s2) ({[e]} ∪ rm_pending_purge s2)
                          (rm_redis s2) (rm_last_check s2) (rm_ext s2)
            | None => s2
            end in
  if (env_max_concurrent E <=? current) && (new_active <? env_max_concurrent E)
  then with_ext s3 (env_publish E "resource_available" (rm_ext s3)).1
  else s3.

(** ** Usage *)
Definition snapshot (s : rm) (e : string) : UsageSnapshot := default (new_usage e "") (rm_usage s !! e).

(** [record_cpu] *)
Definition record_cpu (e : string) (ms : Z) (s : rm) : rm * result unit :=
  let u := snapshot s e in
  let s1 := with_usage s (<[e := MkUsage (us_eu_id u) (us_tenant_id u) (us_cpu_time_ms u + ms)
                                   (us_memory_bytes u) (us_syscall_count u)]> (rm_usage s)) in
  let (s2, r) := via_backend (fun c => add_cpu_ms c e ms) s1 in
  (s2, match r with Ok _ => Ok () | Raise ex => Raise ex end).

(** [record_memory] *)
Definition record_memory (e : string) (n : Z) (s : rm) : rm * result unit :=
  let u := snapshot s e in
  let s1 := with_usage s (<[e := MkUsage (us_eu_id u) (us_tenant_id u) (us_cpu_time_ms u)
                                   (Z.max (us_memory_bytes u) n) (us_syscall_count u)]> (rm_usage s)) in
  let (s2, r) := via_backend (fun c => set_memory_if_greater c e n) s1 in
  (s2, match r with Ok _ => Ok () | Raise ex => Raise ex end).

Fixpoint backend_syscalls (n : nat) (e : string) (s : rm) : rm * result unit :=
  match n with
  | O => (s, Ok ())
  | S n' => match via_backend (fun c => increment_syscalls c e) s with
            | (s1, Raise ex) => (s1, Raise ex)
            | (s1, Ok _) => backend_syscalls n' e s1
            end
  end.

(** [record_syscall] *)
Definition record_syscall (e : string) (count : Z) (s : rm) : rm * result unit :=
  let steps := Z.max 0 count in
  if steps =? 0 then (s, Ok ()) else
  let u := snapshot s e in
  let s1 := with_usage s (<[e := MkUsage (us_eu_id u) (us_tenant_id u) (us_cpu_time_ms u)
                                   (us_memory_bytes u) (us_syscall_count u + steps)]> (rm_usage s)) in
  backend_syscalls (Z.to_nat steps) e s1.

(** [record_usage]; a missing key of the argument is 0. *)
Definition record_usage (e : string) (cpu mem calls : Z) (s : rm) : rm * result unit :=
  match record_cpu e cpu s with
  | (s1, Raise ex) => (s1, Raise ex)
  | (s1, Ok _) => match record_memory e mem s1 with
                  | (s2, Raise ex) => (s2, Raise ex)
                  | (s2, Ok _) => record_syscall e calls s2
                  end
  end.

(** [get_usage] *)
Definition get_usage (e : string) (s : rm) : option UsageSnapshot := rm_usage s !! e.

(** The totals of [get_tenant_summary] over the snapshots of one tenant *)
Record summary := MkSummary {
  sum_active : Z; sum_executions : Z; sum_cpu : Z; sum_peak_memory : Z; sum_syscalls : Z
}.
Definition get_tenant_summary (now : Z) (t : string) (s : rm) : rm * summary :=
  let (s1, active) := get_tenant_active now t s in
  let snaps := List.filter (fun u => us_tenant_id u =s t) (map_to_list (rm_usage s1)).*2 in
  (s1, MkSummary active (Z.of_nat (length snaps))
         (foldr Z.add 0 (map us_cpu_time_ms snaps))
         (match map us_memory_bytes snaps with [] => 0 | m :: ms => foldr Z.max m ms end)
         (foldr Z.add 0 (map us_syscall_count snaps))).

(** [purge_eu] *)
Definition purge_eu (e : string) (s : rm) : rm * result unit :=
  let s1 := MkRm (delete e (rm_usage s)) (rm_active s) (delete e (rm_eu_tenant s)) (rm_pending_purge s)
              (rm_redis s) (rm_last_check s) (rm_ext s) in
  let (s2, r) := via_backend (fun c => delete_eu c e) s1 in
  (s2, match r with Ok _ => Ok () | Raise ex => Raise ex end).

(** [reset] *)
Definition reset (s : rm) : rm := MkRm ∅ ∅ ∅ ∅ (rm_redis s) (rm_last_check s) (rm_ext s).
End manager.

Arguments rm X : clear implicits.
Arguments env X : clear implicits.

(** ** Lemmas *)
Section manager_lemmas.
Context {X : Type} (E : env X).
Implicit Types (s : rm X) (t e : string).

Lemma via_backend_fields {A} (f : quota_client X -> X -> X * result A) s s' r :
  via_backend E f s = (s', r) ->
  rm_usage s' = rm_usage s /\ rm_active s' = rm_active s /\ rm_pending_purge s' = rm_pending_purge s /\
  rm_redis s' = rm_redis s.
Proof.
  unfold via_backend. destruct (env_backend E); [|intros [= <- <-]; done].
  destruct (f q (rm_ext s)). intros [= <- <-]. done.
Qed.

Lemma backend_syscalls_fields n e s s' r :
  backend_syscalls E n e s = (s', r) ->
  rm_usage s' = rm_usage s /\ rm_active s' = rm_active s /\ rm_pending_purge s' = rm_pending_purge s /\
  rm_redis s' = rm_redis s.
Proof.
  revert s. induction n as [|n IH]; intros s; simpl; [intros [= <- <-]; done|].
  destruct (via_backend _ _ _) as [s1 [v|ex]] eqn:Ev; apply via_backend_fields in Ev as (?&?&?&?).
  - intros (?&?&?&?)%IH. split_and!; congruence.
  - intros [= <- <-]. done.
Qed.

(** What a recording operation leaves alone. *)
Definition same_counts s s' : Prop :=
  rm_active s' = rm_active s /\ rm_pending_purge s' = rm_pending_purge s /\ rm_redis s' = rm_redis s.

Lemma record_cpu_spec e ms s s' r : record_cpu E e ms s = (s', r) ->
  same_counts s s' /\ rm_usage s' = <[e := MkUsage (us_eu_id (snapshot s e)) (us_tenant_id (snapshot s e))
    (us_cpu_time_ms (snapshot s e) + ms) (us_memory_bytes (snapshot s e)) (us_syscall_count (snapshot s e))]> (rm_usage s).
Proof.
  unfold record_cpu. destruct (via_backend _ _ _) as [s2 o] eqn:Ev.
  apply via_backend_fields in Ev as (Hu&Ha&Hp&Hr). intros [= <- <-]. by split_and!.
Qed.

Lemma record_memory_spec e n s s' r : record_memory E e n s = (s', r) ->
  same_counts s s' /\ rm_usage s' = <[e := MkUsage (us_eu_id (snapshot s e)) (us_tenant_id (snapshot s e))
    (us_cpu_time_ms (snapshot s e)) (Z.max (us_memory_bytes (snapshot s e)) n) (us_syscall_count (snapshot s e))]> (rm_usage s).
Proof.
  unfold record_memory. destruct (via_backend _ _ _) as [s2 o] eqn:Ev.
  apply via_backend_fields in Ev as (Hu&Ha&Hp&Hr). intros [= <- <-]. by split_and!.
Qed.

Lemma record_syscall_spec e n s s' r : record_syscall E e n s = (s', r) ->
  same_counts s s' /\
  (n <= 0 /\ rm_usage s' = rm_usage s \/
   0 < n /\ rm_usage s' = <[e := MkUsage (us_eu_id (snapshot s e)) (us_tenant_id (snapshot s e))
     (us_cpu_time_ms (snapshot s e)) (us_memory_bytes (snapshot s e)) (us_syscall_count (snapshot s e) + n)]> (rm_usage s)).
Proof.
  unfold record_syscall. destruct (Z.eqb_spec (Z.max 0 n) 0) as [H0|H0].
  - intros [= <- <-]. split; [done|left; split; [lia|done]].
  - intros H%backend_syscalls_fields. destruct H as (Hu&Ha&Hp&Hr). split; [done|right].
    split; [lia|]. rewrite Hu. simpl. by rewrite Z.max_r by lia.
Qed.

Lemma record_usage_counts e cpu mem calls s s' r : record_usage E e cpu mem calls s = (s', r) -> same_counts s s'.
Proof.
  unfold record_usage, same_counts.
  destruct (record_cpu E e cpu s) as [s1 [u1|x1]] eqn:H1; apply record_cpu_spec in H1 as [(Ha1&Hp1&Hr1) _];
    [|intros [= <- <-]; done].
  destruct (record_memory E e mem s1) as [s2 [u2|x2]] eqn:H2; apply record_memory_spec in H2 as [(Ha2&Hp2&Hr2) _];
    [|intros [= <- <-]; split_and!; congruence].
  intros [(Ha3&Hp3&Hr3) _]%record_syscall_spec. split_and!; congruence.
Qed.

Lemma get_redis_fields now s : rm_usage (get_redis E now s).1 = rm_usage s /\
  rm_pending_purge (get_redis E now s).1 = rm_pending_purge s.
Proof.
  unfold get_redis. destruct (_ <=? _); [done|]. destruct (env_redis_url E); [|done].
  by destruct (env_connect E (rm_ext s)).
Qed.

Lemma get_tenant_active_usage now t s : rm_usage (get_tenant_active E now t s).1 = rm_usage s.
Proof.
  unfold get_tenant_active. destruct (get_redis_fields now s) as [Hu _].
  destruct (get_redis E now s) as [s1 []]; [|done]. by destruct (get_int _ _ _) as [x []].
Qed.

Lemma mark_started_pending now t o s : rm_pending_purge (mark_started E now t o s) = rm_pending_purge s.
Proof.
  unfold mark_started, note_started. destruct (get_redis_fields now s) as [_ Hp].
  destruct (get_redis E now s) as [s1 []]; [destruct (k_incr _ _ _) as [x []]|]; by destruct (str_or_none o).
Qed.

Lemma mark_completed_pending now t e s : e <> "" -> e ∈ rm_pending_purge (mark_completed E now t (Some e) s).
Proof.
  intros He. unfold mark_completed. destruct (get_redis E now s) as [s1 redis].
  destruct (if redis then _ else _) as [[s2 cur] new].
  rewrite (proj2 (str_or_none_Some (Some e) e) (conj eq_refl He)). destruct (_ && _); simpl; set_solver.
Qed.

(** ** Process-local counting: no Redis server is configured *)
Definition local_mode s : Prop := env_redis_url E = false /\ rm_redis s = false.

Lemma get_redis_local now s : local_mode s ->
  exists k, get_redis E now s = (with_redis s false k, false) /\ local_mode (with_redis s false k).
Proof.
  intros [Hu Hr]. unfold get_redis. destruct (_ <=? _).
  - exists (rm_last_check s). rewrite Hr. split; [|done]. f_equal. destruct s; simpl in *. by subst.
  - rewrite Hu. by exists now.
Qed.

Lemma get_tenant_active_local now t s : local_mode s ->
  exists k, get_tenant_active E now t s = (with_redis s false k, local_active s t).
Proof. intros H. unfold get_tenant_active. destruct (get_redis_local now s H) as (k&->&_). by exists k. Qed.

Lemma can_execute_local now t s s' o : env_testing E = false -> local_mode s ->
  can_execute E now t s = (s', o) ->
  (exists k, s' = with_redis (purge_pending s) false k) /\ (o = None <-> local_active s t < env_max_concurrent E).
Proof.
  intros Ht Hl. unfold can_execute. rewrite Ht.
  destruct (get_tenant_active_local now t (purge_pending s) Hl) as [k ->].
  change (local_active (purge_pending s) t) with (local_active s t).
  destruct (Z.leb_spec (env_max_concurrent E) (local_active s t)); intros [= <- <-];
    (split; [by exists k|]); split; try done; lia.
Qed.

Lemma note_started_fields t o s : rm_active (note_started t o s) = rm_active s /\
  rm_redis (note_started t o s) = rm_redis s /\ rm_pending_purge (note_started t o s) = rm_pending_purge s.
Proof. unfold note_started. by destruct (str_or_none o). Qed.

Lemma mark_started_local now t o s : local_mode s ->
  local_mode (mark_started E now t o s) /\
  forall t', local_active (mark_started E now t o s) t' = local_active s t' + (if decide (t = t') then 1 else 0).
Proof.
  intros H. unfold mark_started. destruct (get_redis_local now s H) as (k&->&Hl).
  unfold local_mode, local_active.
  destruct (note_started_fields t o (bump (with_redis s false k) t 1)) as (Ha&Hr&_).
  rewrite Ha, Hr. split; [by destruct H|]. intros t'. simpl. destruct (decide (t = t')) as [<-|Hne].
  - by rewrite lookup_insert_eq.
  - rewrite lookup_insert_ne by done. lia.
Qed.

Lemma mark_completed_local now t o s : local_mode s ->
  local_mode (mark_completed E now t o s) /\
  (forall t', local_active (mark_completed E now t o s) t' =
     if decide (t = t') then Z.max (Z.min 0 (local_active s t')) (local_active s t' - 1) else local_active s t') /\
  rm_ext (mark_completed E now t o s) =
    (if (env_max_concurrent E <=? local_active s t) &&
        ((if 0 <? local_active s t then local_active s t - 1 else local_active s t) <? env_max_concurrent E)
     then (env_publish E "resource_available" (rm_ext s)).1 else rm_ext s).
Proof.
  intros H. unfold mark_completed. destruct (get_redis_local now s H) as (k&->&Hl).
  unfold complete_local. change (local_active (with_redis s false k) t) with (local_active s t).
  set (c := local_active s t). destruct (Z.ltb_spec 0 c) as [Hc|Hc].
  - set (s2 := with_active _ _).
    assert (forall t', local_active s2 t' = if decide (t = t') then c - 1 else local_active s t') as Hla.
    { intros t'. unfold s2, local_active. simpl. destruct (decide (t = t')) as [<-|]; [by rewrite lookup_insert_eq|].
      by rewrite lookup_insert_ne. }
    rewrite (Hla t), decide_True by done.
    destruct H as [Hu Hr]. destruct (str_or_none o), (_ && _) eqn:Hb; unfold local_mode, local_active in *; simpl in *;
      (split_and!; [done|done| |done]); intros t'; rewrite Hla; destruct (decide (t = t')) as [<-|]; unfold c in *; lia.
  - change (local_active (with_redis s false k) t) with c.
    destruct H as [Hu Hr]. destruct (str_or_none o), (_ && _) eqn:Hb; unfold local_mode, local_active in *; simpl in *;
      (split_and!; [done|done| |done]); intros t'; destruct (decide (t = t')) as [<-|]; unfold c in *; lia.
Qed.
End manager_lemmas.

(** ** The manager under its lifecycle protocol *)
Section lifecycle.
Context {X : Type} (E : env X).

(** The manager with the executions that were started and not yet completed. *)
Definition rm_config : Type := rm X * list (string * option string).

(** An execution starts right after [can_execute] allowed it and completes at
    most once; everything else may be called at any time. *)
Inductive rm_step : rm_config -> rm_config -> Prop :=
| rms_admit now now' t o s s' l :
    can_execute E now t s = (s', None) -> rm_step (s, l) (mark_started E now' t o s', (t, o) :: l)
| rms_refuse now t s s' reason l : can_execute E now t s = (s', Some reason) -> rm_step (s, l) (s', l)
| rms_complete now t o s l1 l2 :
    rm_step (s, l1 ++ (t, o) :: l2) (mark_completed E now t o s, l1 ++ l2)
| rms_record e cpu mem calls s s' r l :
    record_usage E e cpu mem calls s = (s', r) -> rm_step (s, l) (s', l)
| rms_check now e s s' r l : check_quota E now e s = (s', r) -> rm_step (s, l) (s', l)
| rms_purge e s s' r l : purge_eu E e s = (s', r) -> rm_step (s, l) (s', l).

Definition running (t : string) (l : list (string * option string)) : Z :=
  Z.of_nat (length (List.filter (fun to => to.1 =s t) l)).

Definition rm_inv (c : rm_config) : Prop :=
  local_mode E c.1 /\
  forall t, local_active c.1 t = running t c.2 /\ running t c.2 <= env_max_concurrent E.

Lemma running_cons t t' o l : running t ((t', o) :: l) = running t l + (if decide (t' = t) then 1 else 0).
Proof.
  unfold running. simpl. destruct (String.eqb_spec t' t) as [->|Hne].
  - rewrite decide_True by done. simpl. lia.
  - rewrite decide_False by done. lia.
Qed.

Lemma running_split t t' o l1 l2 :
  running t (l1 ++ (t', o) :: l2) = running t (l1 ++ l2) + (if decide (t' = t) then 1 else 0).
Proof.
  unfold running. rewrite !List.filter_app, !length_app. pose proof (running_cons t t' o l2) as H.
  unfold running in H. lia.
Qed.

Lemma same_active s s' l : local_mode E s -> same_counts s s' -> rm_inv (s, l) -> rm_inv (s', l).
Proof.
  intros [Hu Hr] (Ha&_&Hr') [_ Hinv]. split; [split; simpl; congruence|].
  intros t. specialize (Hinv t). unfold local_active in *. simpl in *. by rewrite Ha.
Qed.

Lemma can_execute_inv now t s s' o l : env_testing E = false -> rm_inv (s, l) ->
  can_execute E now t s = (s', o) -> rm_inv (s', l) /\ (o = None -> running t l < env_max_concurrent E).
Proof.
  intros Ht [Hl Hinv] Hc. destruct (can_execute_local E now t s s' o Ht Hl Hc) as [[k ->] Ho].
  split; [split; [by destruct Hl|exact Hinv]|]. intros H%Ho. destruct (Hinv t). simpl in *. lia.
Qed.

Lemma check_quota_inv now e s s' r l : env_testing E = false -> rm_inv (s, l) ->
  check_quota E now e s = (s', r) -> rm_inv (s', l).
Proof.
  intros Ht Hinv. unfold check_quota. rewrite Ht.
  destruct (rm_usage s !! e) as [u|]; [|intros [= <- <-]; done].
  destruct (can_execute E now (us_tenant_id u) s) as [s1 o] eqn:Hc.
  apply (can_execute_inv _ _ _ _ _ l) in Hc as [H1 _]; [|done..].
  destruct o; [intros [= <- <-]; done|].
  destruct (rm_usage s1 !! e) as [u'|]; [|intros [= <- <-]; done].
  destruct (via_backend E _ s1) as [s2 [cpu|x]] eqn:H2; apply via_backend_fields in H2 as (_&Ha2&Hp2&Hr2);
    (assert (rm_inv (s2, l)) as H2' by (eapply (same_active s1); [apply H1|by split_and!|done]));
    [|intros [= <- <-]; done].
  destruct (via_backend E _ s2) as [s3 [n|x]] eqn:H3; apply via_backend_fields in H3 as (_&Ha3&Hp3&Hr3);
    (assert (rm_inv (s3, l)) as H3' by (eapply (same_active s2); [apply H2'|by split_and!|done]));
    [|intros [= <- <-]; done].
  destruct (_ <? _); [intros [= <- <-]; done|]. destruct (_ <? _); intros [= <- <-]; done.
Qed.

Lemma rm_step_inv c c' : env_testing E = false -> rm_inv c -> rm_step c c' -> rm_inv c'.
Proof.
  intros Ht Hinv Hs. destruct Hs as [now now' t o s s' l Hc|now t s s' reason l Hc|now t o s l1 l2
    |e cpu mem calls s s' r l Hr|now e s s' r l Hc|e s s' r l Hp].
  - destruct (can_execute_inv _ _ _ _ _ _ Ht Hinv Hc) as [[Hl Hi] Hlt]. specialize (Hlt eq_refl).
    destruct (mark_started_local E now' t o s' Hl) as [Hl' Ha]. split; [done|]. intros t'. simpl.
    rewrite Ha, running_cons. destruct (Hi t'). simpl in *. destruct (decide (t = t')) as [<-|]; lia.
  - by apply (can_execute_inv _ _ _ _ _ _ Ht Hinv Hc).
  - destruct Hinv as [Hl Hi]. destruct (mark_completed_local E now t o s Hl) as (Hl'&Ha&_).
    split; [done|]. intros t'. simpl. rewrite Ha. destruct (Hi t') as [H1 H2]. simpl in *.
    rewrite running_split in H1, H2. assert (0 <= running t' (l1 ++ l2)) by (unfold running; lia).
    destruct (decide (t = t')); lia.
  - apply record_usage_counts in Hr. by apply (same_active s); [apply Hinv|..].
  - by eapply check_quota_inv.
  - unfold purge_eu in Hp. destruct (via_backend E _ _) as [s2 o] eqn:H2.
    apply via_backend_fields in H2 as (_&Ha&Hp2&Hr). simplify_eq. by apply (same_active s); [apply Hinv|..].
Qed.
End lifecycle.


(** A server that only counts the [resource_available] events it is sent. *)
Definition demo_client : quota_client Z := {|
  k_get _ x := (x, Ok None); k_set _ _ x := (x, Ok ()); k_incrby _ n x := (x, Ok n);
  k_expire _ _ x := (x, Ok ()); k_delete _ x := (x, Ok ()); k_scan _ x := (x, Ok [])
|}.
Definition demo_env : env Z := MkEnv false false 1 30000 100 (fun x => (x, true)) demo_client None
  (fun _ => true) (fun _ x => (x + 1, Ok ())).


(** [resource_available] is published exactly when a completion takes the
    tenant from the limit to below it. *)
Theorem completion_signals_capacity {X} (E : env X) now t o s :
  local_mode E s -> 0 < env_max_concurrent E ->
  rm_ext (mark_completed E now t o s) =
    if local_active s t =? env_max_concurrent E
    then (env_publish E "resource_available" (rm_ext s)).1 else rm_ext s.
Proof.
  intros Hl Hm. destruct (mark_completed_local E now t o s Hl) as (_&_&->).
  destruct (Z.ltb_spec 0 (local_active s t)), (Z.leb_spec (env_max_concurrent E) (local_active s t)),
    (Z.eqb_spec (local_active s t) (env_max_concurrent E)); simpl; try (lia || done).
  - destruct (Z.ltb_spec (local_active s t - 1) (env_max_concurrent E)); [done|lia].
  - destruct (Z.ltb_spec (local_active s t - 1) (env_max_concurrent E)); [lia|done].
Qed.

Lemma completion_signals_capacity_witness :
  rm_ext (mark_completed demo_env 0 "t" None (mark_started demo_env 0 "t" None (rm_init 0))) = 1.
Proof. rewrite (completion_signals_capacity demo_env); [reflexivity|split; reflexivity|simpl; lia]. Defined.

(** [record_usage] adds CPU time and system calls, keeps the largest memory
    reading, and touches no other execution unit and no concurrency counter. *)
Theorem record_usage_accumulates {X} (E : env X) e cpu mem calls s s' :
  record_usage E e cpu mem calls s = (s', Ok ()) ->
  get_usage e s' = Some (MkUsage (us_eu_id (snapshot s e)) (us_tenant_id (snapshot s e))
    (us_cpu_time_ms (snapshot s e) + cpu) (Z.max (us_memory_bytes (snapshot s e)) mem)
    (us_syscall_count (snapshot s e) + Z.max 0 calls)) /\
  (forall e', e' <> e -> get_usage e' s' = get_usage e' s) /\ rm_active s' = rm_active s.
Proof.
  intros H. pose proof (record_usage_counts E _ _ _ _ _ _ _ H) as (Hact&_). revert H.
  unfold record_usage, get_usage.
  destruct (record_cpu E e cpu s) as [s1 [u1|x1]] eqn:H1; [|done]. apply record_cpu_spec in H1 as [_ H1].
  destruct (record_memory E e mem s1) as [s2 [u2|x2]] eqn:H2; [|done]. apply record_memory_spec in H2 as [_ H2].
  assert (snapshot s1 e = MkUsage (us_eu_id (snapshot s e)) (us_tenant_id (snapshot s e))
    (us_cpu_time_ms (snapshot s e) + cpu) (us_memory_bytes (snapshot s e)) (us_syscall_count (snapshot s e))) as Hs1
    by (unfold snapshot at 1; by rewrite H1, lookup_insert_eq).
  rewrite Hs1 in H2. simpl in H2.
  assert (snapshot s2 e = MkUsage (us_eu_id (snapshot s e)) (us_tenant_id (snapshot s e))
    (us_cpu_time_ms (snapshot s e) + cpu) (Z.max (us_memory_bytes (snapshot s e)) mem) (us_syscall_count (snapshot s e))) as Hs2
    by (unfold snapshot at 1; by rewrite H2, lookup_insert_eq).
  intros [_ [[Hn H3]|[Hn H3]]]%record_syscall_spec; rewrite H3; rewrite ?Hs2; simpl.
  - rewrite H2, lookup_insert_eq, (Z.max_l 0 calls), Z.add_0_r by lia. split_and!; [done| |done].
    intros e' Hne. by rewrite H1, !lookup_insert_ne by done.
  - rewrite lookup_insert_eq, (Z.max_r 0 calls) by lia. split_and!; [done| |done].
    intros e' Hne. by rewrite lookup_insert_ne, H2, H1, !lookup_insert_ne by done.
Qed.

Lemma record_usage_accumulates_witness :
  get_usage "e" (record_usage demo_env "e" 5 7 2 (rm_init 0)).1 = Some (MkUsage "e" "" 5 7 2).
Proof.
  destruct (record_usage_accumulates demo_env "e" 5 7 2 (rm_init 0)
    (record_usage demo_env "e" 5 7 2 (rm_init 0)).1 eq_refl) as [H _]. exact H.
Defined.

(** without a Redis backend, the quota check of an execution whose tenant is
    below the concurrency limit passes exactly while neither counter exceeds its
    limit.  The dispatcher checks before it records a call, so an execution makes
    one system call more than the limit before it is refused. *)
Theorem check_quota_limits {X} (E : env X) now e u s :
  env_testing E = false -> local_mode E s -> env_backend E = None ->
  rm_usage s !! e = Some u -> e ∉ rm_pending_purge s ->
  local_active s (us_tenant_id u) < env_max_concurrent E ->
  ((check_quota E now e s).2 = Ok None <->
   us_cpu_time_ms u <= env_max_cpu_ms E /\ us_syscall_count u <= env_max_syscalls E) /\
  exists r, (check_quota E now e s).2 = Ok r.
Proof.
  intros Ht Hl Hb Hu Hp Ha. unfold check_quota. rewrite Ht, Hu.
  destruct (can_execute E now (us_tenant_id u) s) as [s1 o] eqn:Hc.
  destruct (can_execute_local E _ _ _ _ _ Ht Hl Hc) as [[k ->] Ho].
  rewrite (proj2 Ho Ha). simpl.
  assert (filter (fun kv => kv.1 ∉ rm_pending_purge s) (rm_usage s) !! e = Some u) as ->
    by (by apply map_lookup_filter_Some).
  unfold via_backend. rewrite Hb. simpl.
  destruct (Z.ltb_spec (env_max_cpu_ms E) (us_cpu_time_ms u)); simpl;
    [|destruct (Z.ltb_spec (env_max_syscalls E) (us_syscall_count u)); simpl];
    (split; [split; intros; (done || lia)|eauto]).
Qed.

Lemma check_quota_limits_witness :
  (check_quota demo_env 0 "e" (with_usage (rm_init 0) {["e" := MkUsage "e" "t" 0 0 100]})).2 = Ok None.
Proof.
  apply (check_quota_limits demo_env 0 "e" (MkUsage "e" "t" 0 0 100));
    [reflexivity|split; reflexivity|reflexivity|reflexivity|apply not_elem_of_empty|reflexivity|].
  split; vm_compute; discriminate.
Defined.

(** ** Where the code and its description part *)

(** [check_quota] counts the execution it checks.  While a tenant runs as many
    executions as it may, the quota check of each of them fails, whatever CPU
    time and system calls it used. *)
Theorem check_quota_counts_itself {X} (E : env X) now e u s :
  env_testing E = false -> local_mode E s -> rm_usage s !! e = Some u ->
  env_max_concurrent E <= local_active s (us_tenant_id u) ->
  exists s' reason, check_quota E now e s = (s', Ok (Some reason)).
Proof.
  intros Ht Hl Hu Hmax. unfold check_quota. rewrite Ht, Hu.
  destruct (can_execute E now (us_tenant_id u) s) as [s1 o] eqn:Hc.
  destruct (can_execute_local E _ _ _ _ _ Ht Hl Hc) as [_ Ho].
  destruct o as [reason|]; [by exists s1, reason|]. destruct Ho as [Ho _]. specialize (Ho eq_refl). lia.
Qed.

Lemma check_quota_counts_itself_witness :
  exists s' reason, check_quota demo_env 0 "e" (mark_started demo_env 0 "t" (Some "e") (rm_init 0))
    = (s', Ok (Some reason)).
Proof.
  eapply (check_quota_counts_itself demo_env 0 "e" (new_usage "e" "t"));
    [reflexivity|split; reflexivity|reflexivity|vm_compute; discriminate].
Defined.

(** the limit is checked and the counter incremented in two calls.  Two
    threads that both ask [can_execute] before either calls [mark_started] are
    both allowed, and the tenant then runs one execution more than the limit. *)
Theorem admission_race {X} (E : env X) now t o1 o2 s :
  env_testing E = false -> local_mode E s -> local_active s t = env_max_concurrent E - 1 ->
  let (s1, first) := can_execute E now t s in
  let (s2, second) := can_execute E now t s1 in
  first = None /\ second = None /\
  local_active (mark_started E now t o2 (mark_started E now t o1 s2)) t = env_max_concurrent E + 1.
Proof.
  intros Ht Hl Ha.
  destruct (can_execute E now t s) as [s1 r1] eqn:H1.
  destruct (can_execute_local E _ _ _ _ _ Ht Hl H1) as [[k1 ->] Hr1].
  destruct (can_execute E now t (with_redis (purge_pending s) false k1)) as [s2 r2] eqn:H2.
  assert (local_mode E (with_redis (purge_pending s) false k1)) as Hl1 by (split; [apply Hl|done]).
  destruct (can_execute_local E _ _ _ _ _ Ht Hl1 H2) as [[k2 ->] Hr2].
  change (local_active (with_redis (purge_pending s) false k1) t) with (local_active s t) in Hr2.
  split_and!; [apply Hr1; lia|apply Hr2; lia|].
  match goal with |- context [mark_started E now t o1 ?a] =>
    destruct (mark_started_local E now t o1 a) as [Hl2 Ha2]; [split; [apply Hl|done]|] end.
  match goal with |- context [mark_started E now t o2 ?a] =>
    destruct (mark_started_local E now t o2 a Hl2) as [_ Ha3] end.
  rewrite Ha3, Ha2, !decide_True by done. unfold local_active in *. simpl. lia.
Qed.

Lemma admission_race_witness :
  local_active (mark_started demo_env 0 "t" None (mark_started demo_env 0 "t" None
    (can_execute demo_env 0 "t" (can_execute demo_env 0 "t" (rm_init 0)).1).1)) "t" = 2.
Proof.
  pose proof (admission_race demo_env 0 "t" None None (rm_init 0) eq_refl (conj eq_refl eq_refl) eq_refl) as H.
  destruct (can_execute demo_env 0 "t" (rm_init 0)) as [s1 r1]. cbn [fst].
  destruct (can_execute demo_env 0 "t" s1) as [s2 r2]. destruct H as (_&_&H). exact H.
Defined.

(** an execution unit that is started again after it completed loses its
    usage.  [mark_completed] leaves it marked for purging, [mark_started] does not
    take the mark back, and the next [can_execute], for any tenant, removes the
    counters, after which its quota check passes whatever it used. *)
Theorem restart_loses_usage {X} (E : env X) n1 n2 n3 t t' e cpu mem calls s s3 r3 s4 o4 :
  e <> "" ->
  record_usage E e cpu mem calls (mark_started E n2 t (Some e) (mark_completed E n1 t (Some e) s)) = (s3, r3) ->
  can_execute E n3 t' s3 = (s4, o4) ->
  get_usage e s4 = None /\ forall now, check_quota E now e s4 = (s4, Ok None).
Proof.
  intros He Hrec Hcan.
  apply record_usage_counts in Hrec as (_&Hp&_).
  assert (e ∈ rm_pending_purge s3) as H2.
  { rewrite Hp, mark_started_pending. by apply mark_completed_pending. }
  assert (rm_usage s4 !! e = None) as H3.
  { revert Hcan. unfold can_execute.
    pose proof (get_tenant_active_usage E n3 t' (purge_pending s3)) as Hg.
    assert (rm_usage (purge_pending s3) !! e = None) as Hpu.
    { simpl. apply map_lookup_filter_None. right. intros u _. simpl. naive_solver. }
    destruct (env_testing E); [by intros [= <- <-]|].
    destruct (get_tenant_active E n3 t' (purge_pending s3)) as [a b]. simpl in Hg.
    destruct (_ <=? _); intros [= <- <-]; by rewrite Hg. }
  split; [done|]. intros now. unfold check_quota. rewrite H3. by destruct (env_testing E).
Qed.

Lemma restart_loses_usage_witness :
  get_usage "e" (can_execute demo_env 0 "other" (record_usage demo_env "e" 10 0 500
    (mark_started demo_env 0 "t" (Some "e") (mark_completed demo_env 0 "t" (Some "e") (rm_init 0)))).1).1 = None.
Proof.
  eapply (restart_loses_usage demo_env 0 0 0 "t" "other" "e" 10 0 500 (rm_init 0));
    [done|apply surjective_pairing|apply surjective_pairing].
Defined.

(** a completion while Redis fails is recorded nowhere.  The execution was
    counted in Redis; when the server does not answer on completion, the manager
    falls back to its local counter, which is zero, and Redis keeps counting the
    finished execution after it recovers. *)
Theorem completion_lost_in_outage {X} (E : env X) now t o s x ex :
  rm_redis s = true -> now - rm_last_check s <= REDIS_CHECK_INTERVAL ->
  k_get (env_client E) (concurrency_key t) (rm_ext s) = (x, Raise ex) ->
  local_active s t = 0 -> 0 < env_max_concurrent E ->
  rm_active (mark_completed E now t o s) = rm_active s /\ rm_ext (mark_completed E now t o s) = x.
Proof.
  intros Hr Hn Hg Ha Hm. unfold mark_completed, get_redis.
  destruct (Z.leb_spec (now - rm_last_check s) REDIS_CHECK_INTERVAL); [|lia]. rewrite Hr.
  unfold complete_redis, get_int. rewrite Hg. simpl. unfold complete_local.
  change (local_active (drop_redis_client now (with_ext s x)) t) with (local_active s t). rewrite Ha. simpl.
  change (local_active (drop_redis_client now (with_ext s x)) t) with (local_active s t). rewrite Ha.
  destruct (Z.leb_spec (env_max_concurrent E) 0); [lia|]. by destruct (str_or_none o).
Qed.

(** A server that holds one counter, and whether it answers. *)
Definition flaky_client : quota_client (Z * bool) :=
  let down := Exn "ConnectionError" "refused" in
  MkClient (Z * bool)
    (fun _ x => (x, if snd x then Ok (Some (Z_to_string (fst x))) else Raise down))
    (fun _ _ x => (x, Ok ()))
    (fun _ n x => if snd x then ((fst x + n, true), Ok (fst x + n)) else (x, Raise down))
    (fun _ _ x => (x, Ok ())) (fun _ x => (x, Ok ())) (fun _ x => (x, Ok [])).
Definition flaky_env : env (Z * bool) := MkEnv false true 1 30000 100 (fun x => (x, snd x)) flaky_client None
  (fun _ => true) (fun _ x => (x, Ok ())).

Lemma completion_lost_in_outage_witness :
  rm_ext (mark_started flaky_env 40000000 "t" None (rm_init (0, true))) = (1, true) /\
  rm_ext (mark_completed flaky_env 40000001 "t" None
    (with_ext (mark_started flaky_env 40000000 "t" None (rm_init (0, true))) (1, false))) = (1, false).
Proof.
  split; [reflexivity|].
  eapply (completion_lost_in_outage flaky_env 40000001 "t" None
    (with_ext (mark_started flaky_env 40000000 "t" None (rm_init (0, true))) (1, false)));
    [reflexivity|vm_compute; discriminate|reflexivity|reflexivity|reflexivity].
Defined.
