(* ===== verification/SyscallAbi.v ===== *)
(** * Syscall names, schemas and the versioned registry
    ([AINDY/kernel/syscall_versioning.py], [AINDY/kernel/syscall_registry.py])

    Payloads are dictionaries of [json] values.  A schema is the record of its
    two keys.  The registry has the two views of the code, the flat one and the
    one by version, each updated by its own code. *)
From S2P Require Import Prelude Json.
Local Open Scope Z_scope.

Definition ABI_VERSIONS : list string := ["v1"].
Definition LATEST_STABLE_VERSION : string := "v1".
Definition SYSCALL_VERSION_FALLBACK : bool := false.
Definition SYSCALL_PREFIX : string := "sys.".

(** ** Schemas *)

(** A schema: the required fields, and for each property the ["type"] of its
    specification.  The empty schema has neither. *)
Record schema := MkSchema {
  sc_required : list string;
  sc_properties : list (string * option string)
}.

(** [_SCHEMA_TYPE_MAP] *)
Inductive py_type := PyStr | PyInt | PyFloat | PyBool | PyList | PyDict.
Definition SCHEMA_TYPE_MAP : dict py_type :=
  [("string", PyStr); ("str", PyStr); ("int", PyInt); ("integer", PyInt); ("float", PyFloat);
   ("number", PyFloat); ("bool", PyBool); ("boolean", PyBool); ("list", PyList); ("array", PyList);
   ("dict", PyDict); ("object", PyDict)].

(** [isinstance(v, t)]: a [bool] is an [int]. *)
Definition isinstance (v : json) (t : py_type) : bool :=
  match v, t with
  | JStr _, PyStr | JInt _, PyInt | JBool _, PyInt | JFloat _, PyFloat
  | JBool _, PyBool | JArr _, PyList | JObj _, PyDict => true
  | _, _ => false
  end.

(** [type(v).__name__] *)
Definition type_name (v : json) : string :=
  match v with
  | JNull => "NoneType" | JBool _ => "bool" | JInt _ => "int" | JFloat _ => "float"
  | JStr _ => "str" | JArr _ => "list" | JObj _ => "dict"
  end.

Definition required_error (payload : dict json) (fname : string) : list string :=
  match dget payload fname with
  | None | Some JNull => ["Missing required field: " +:+ py_repr fname]
  | Some _ => []
  end.

Definition property_error (payload : dict json) (p : string * option string) : list string :=
  let (fname, expected) := p in
  match dget payload fname with
  | None => []
  | Some actual =>
      match str_or_none expected with
      | None => []
      | Some name =>
          match dget SCHEMA_TYPE_MAP name with
          | None => []
          | Some ty =>
              if isinstance actual ty then []
              else ["Field " +:+ py_repr fname +:+ ": expected type " +:+ py_repr name +:+ ", got " +:+
                    py_repr (type_name actual)]
          end
      end
  end.

(** [validate_payload], also [validate_input] and [validate_output] *)
Definition validate_payload (s : schema) (payload : dict json) : list string :=
  flat_map (required_error payload) (sc_required s) ++ flat_map (property_error payload) (sc_properties s).

(** What the schema language means: a value has a declared type. *)
Definition has_type (name : option string) (v : json) : Prop :=
  match str_or_none name with
  | None => True
  | Some n => match dget SCHEMA_TYPE_MAP n with None => True | Some ty => isinstance v ty = true end
  end.

Lemma flat_map_nil {A B} (f : A -> list B) l : flat_map f l = [] <-> forall x, x ∈ l -> f x = [].
Proof.
  induction l as [|a l IH]; simpl; [split; [by intros _ ? ?%not_elem_of_nil|done]|].
  rewrite app_nil, IH. split; [intros [H1 H2] x [->|Hx]%elem_of_cons; auto|].
  intros H. split; [apply H; left|intros x Hx; apply H; by right].
Qed.

(** [validate_payload] accepts exactly the payloads that have every required
    field with a value other than null and whose present fields have the
    declared types. *)
Theorem validate_payload_spec s payload :
  validate_payload s payload = [] <->
  (forall f, f ∈ sc_required s -> exists v, dget payload f = Some v /\ v <> JNull) /\
  (forall f ty v, (f, ty) ∈ sc_properties s -> dget payload f = Some v -> has_type ty v).
Proof.
  unfold validate_payload. rewrite app_nil, !flat_map_nil. apply Morphisms_Prop.and_iff_morphism.
  - apply forall_proper. intros f. apply forall_proper. intros _.
    unfold required_error. destruct (dget payload f) as [[]|]; naive_solver.
  - split.
    + intros H f ty v Hin Hv. specialize (H (f, ty) Hin). unfold property_error in H. rewrite Hv in H.
      unfold has_type. destruct (str_or_none ty) as [n|]; [|done].
      destruct (dget SCHEMA_TYPE_MAP n) as [t|]; [|done]. by destruct (isinstance v t).
    + intros H [f ty] Hin. unfold property_error. destruct (dget payload f) as [v|] eqn:Hv; [|done].
      specialize (H f ty v Hin Hv). unfold has_type in H.
      destruct (str_or_none ty) as [n|]; [|done]. destruct (dget SCHEMA_TYPE_MAP n) as [t|]; [|done].
      by rewrite H.
Qed.

(** ** Names *)

(** [parse_syscall_name] *)
Definition parse_syscall_name (name : string) : result (string * string) :=
  if startswith SYSCALL_PREFIX name then
    match str_cut "."%char (str_drop (String.length SYSCALL_PREFIX) name) with
    | None => Raise (Exn "ValueError" ("Cannot parse version from " +:+ py_repr name +:+ ": missing version segment"))
    | Some (version, action) =>
        if negb (truthy version) then Raise (Exn "ValueError" ("Empty version segment in " +:+ py_repr name))
        else if negb (truthy action) then Raise (Exn "ValueError" ("Empty action segment in " +:+ py_repr name))
        else Ok (version, action)
    end
  else Raise (Exn "ValueError" ("Syscall name must start with 'sys.', got: " +:+ py_repr name)).

Record SyscallSpec := MkSyscallSpec {
  ss_name : string;
  ss_version : string;
  ss_deprecated : bool;
  ss_deprecated_since : option string;
  ss_replacement : option string
}.

(** [full_name] and [deprecation_message] *)
Definition full_name (s : SyscallSpec) : string := "sys." +:+ ss_version s +:+ "." +:+ ss_name s.

(** The warning text, shared by the specification and the dispatcher; the dash
    of the source is not an ASCII character and is written [--]. *)
Definition deprecation_text (name : string) (since replacement : option string) : string :=
  str_join " " (["Syscall '" +:+ name +:+ "' is deprecated"] ++
    (match str_or_none since with Some d => ["since " +:+ d] | None => [] end) ++
    (match str_or_none replacement with Some r => ["-- use '" +:+ r +:+ "' instead"] | None => [] end)) +:+ ".".
Definition deprecation_message (s : SyscallSpec) : option string :=
  if ss_deprecated s then Some (deprecation_text (full_name s) (ss_deprecated_since s) (ss_replacement s)) else None.

(** [parse_syscall_name] and [full_name] are inverse: a name parses to a
    version without a dot and a non-empty action exactly when it is the full name
    they make up. *)
Theorem parse_syscall_name_spec name version action :
  parse_syscall_name name = Ok (version, action) <->
  name = "sys." +:+ version +:+ "." +:+ action /\ version <> "" /\ action <> "" /\ str_has "." version = false.
Proof.
  unfold parse_syscall_name, SYSCALL_PREFIX. split.
  - destruct (startswith "sys." name) eqn:Hs; [|done].
    apply startswith_spec in Hs as [rest ->]. rewrite str_drop_app.
    destruct (str_cut "." rest) as [[v a]|] eqn:Hc; [|done]. apply str_cut_Some in Hc as [-> Hd].
    destruct (truthy v) eqn:Hv; [|done]. destruct (truthy a) eqn:Ha; [|done]. simpl.
    intros [= <- <-]. apply truthy_true in Hv, Ha. done.
  - intros (->&Hv&Ha&Hd). rewrite startswith_app, str_drop_app.
    change ("." +:+ action) with (String "." action). rewrite str_cut_app by done.
    apply truthy_true in Hv, Ha. by rewrite Hv, Ha.
Qed.

(** [resolve_version] *)
Definition resolve_version (requested : string) (available : list string) (fallback : bool) : option string :=
  if str_in requested available then Some requested
  else if fallback then
    last (str_sort (List.filter (fun v => str_in v available) ABI_VERSIONS))
  else None.

(** ** [VersionedSyscallRegistry] *)
Section registry.
Context {V : Type}.

Record registry := MkRegistry { reg_flat : dict V; reg_versioned : dict (dict V) }.
Definition registry_init : registry := MkRegistry [] [].

(** [_split]; [None] is the pair of [None]s. *)
Definition split_key (key : string) : option (string * string) :=
  if startswith "sys." key then str_cut "."%char (str_drop 4 key) else None.

(** [_split] with the test [if version and action] that follows its uses *)
Definition split_parts (key : string) : option (string * string) :=
  match split_key key with
  | Some (v, a) => if truthy v && truthy a then Some (v, a) else None
  | None => None
  end.

(** [__setitem__] *)
Definition reg_set (r : registry) (key : string) (value : V) : registry :=
  MkRegistry (dset (reg_flat r) key value)
    (match split_parts key with
     | Some (v, a) => dset (reg_versioned r) v (dset (default [] (dget (reg_versioned r) v)) a value)
     | None => reg_versioned r
     end).

Definition drop_version (vs : dict (dict V)) (key : string) : dict (dict V) :=
  match split_parts key with
  | Some (v, a) =>
      match dget vs v with
      | Some actions => match ddel actions a with
                        | [] => ddel vs v
                        | actions' => dset vs v actions'
                        end
      | None => vs
      end
  | None => vs
  end.

(** [__delitem__] *)
Definition reg_del (r : registry) (key : string) : result registry :=
  if dmem (reg_flat r) key then Ok (MkRegistry (ddel (reg_flat r) key) (drop_version (reg_versioned r) key))
  else Raise (Exn "KeyError" (py_repr key)).

(** [pop], with a default in the second case *)
Definition reg_pop (r : registry) (key : string) (default : option V) : result (registry * V) :=
  match dget (reg_flat r) key, default with
  | Some v, _ => Ok (MkRegistry (ddel (reg_flat r) key) (drop_version (reg_versioned r) key), v)
  | None, Some d => Ok (MkRegistry (reg_flat r) (drop_version (reg_versioned r) key), d)
  | None, None => Raise (Exn "KeyError" (py_repr key))
  end.

(** [get_version] and [versions] *)
Definition get_version (r : registry) (v : string) : dict V := default [] (dget (reg_versioned r) v).
Definition versions (r : registry) : list string := str_sort (dkeys (reg_versioned r)).

Inductive reg_step : registry -> registry -> Prop :=
| rs_set r key v : reg_step r (reg_set r key v)
| rs_del r key r' : reg_del r key = Ok r' -> reg_step r r'
| rs_pop r key d r' v : reg_pop r key d = Ok (r', v) -> reg_step r r'.

(** The two views have the same entries, and no version is listed without one. *)
Definition views_agree (r : registry) : Prop :=
  (forall v a, v <> "" -> a <> "" -> str_has "." v = false ->
     dget (get_version r v) a = dget (reg_flat r) ("sys." +:+ v +:+ "." +:+ a)) /\
  (forall v actions, dget (reg_versioned r) v = Some actions -> actions <> []).

Lemma split_parts_spec key v a :
  split_parts key = Some (v, a) <->
  key = "sys." +:+ v +:+ "." +:+ a /\ v <> "" /\ a <> "" /\ str_has "." v = false.
Proof.
  unfold split_parts, split_key. split.
  - destruct (startswith "sys." key) eqn:Hs; [|done]. apply startswith_spec in Hs as [rest ->].
    change 4%nat with (String.length "sys."). rewrite str_drop_app.
    destruct (str_cut "." rest) as [[v' a']|] eqn:Hc; [|done]. apply str_cut_Some in Hc as [-> Hd].
    destruct (truthy v') eqn:Hv; [|done]. destruct (truthy a') eqn:Ha; [|done]. simpl.
    intros [= <- <-]. apply truthy_true in Hv, Ha. done.
  - intros (->&Hv&Ha&Hd). rewrite startswith_app. change 4%nat with (String.length "sys.").
    rewrite str_drop_app. change ("." +:+ a) with (String "." a). rewrite str_cut_app by done.
    apply truthy_true in Hv, Ha. by rewrite Hv, Ha.
Qed.

Lemma split_parts_full v a : v <> "" -> a <> "" -> str_has "." v = false ->
  split_parts ("sys." +:+ v +:+ "." +:+ a) = Some (v, a).
Proof. intros. by apply split_parts_spec. Qed.

Lemma reg_set_agree r key value : views_agree r -> views_agree (reg_set r key value).
Proof.
  intros [Hv Hn]. unfold reg_set. split; simpl.
  - intros v a Hv0 Ha0 Hd. unfold get_version in *. simpl.
    destruct (split_parts key) as [[v' a']|] eqn:Hs.
    + apply split_parts_spec in Hs as (->&Hv'&Ha'&Hd'). destruct (decide (v' = v)) as [->|Hvne].
      * rewrite dget_dset_eq. simpl. destruct (decide (a' = a)) as [->|Hane].
        -- by rewrite !dget_dset_eq.
        -- rewrite dget_dset_ne by done. rewrite dget_dset_ne; [by apply Hv|].
           intros Heq. apply Hane. assert (Some (v, a') = Some (v, a)) by (rewrite <- !split_parts_full by done; by rewrite Heq).
           congruence.
      * rewrite dget_dset_ne by done. rewrite dget_dset_ne; [by apply Hv|].
        intros Heq. apply Hvne. assert (Some (v', a') = Some (v, a)) by (rewrite <- !split_parts_full by done; by rewrite Heq).
        congruence.
    + rewrite dget_dset_ne; [by apply Hv|]. intros ->. by rewrite split_parts_full in Hs.
  - intros v actions. destruct (split_parts key) as [[v' a']|] eqn:Hs; [|apply Hn].
    destruct (decide (v' = v)) as [->|Hvne]; [|rewrite dget_dset_ne by done; apply Hn].
    rewrite dget_dset_eq. intros [= <-]. destruct (default [] _) as [|[k w] d]; [done|].
    simpl. by destruct (k =s a').
Qed.

Lemma drop_agree r key : views_agree r ->
  views_agree (MkRegistry (ddel (reg_flat r) key) (drop_version (reg_versioned r) key)).
Proof.
  intros [Hv Hn]. unfold drop_version. split.
  - intros v a Hv0 Ha0 Hd. specialize (Hv v a Hv0 Ha0 Hd). unfold get_version in *. simpl in *.
    destruct (split_parts key) as [[v' a']|] eqn:Hs.
    2:{ rewrite dget_ddel_ne; [done|]. intros ->. by rewrite split_parts_full in Hs. }
    pose proof Hs as (->&Hv'&Ha'&Hd')%split_parts_spec.
    destruct (decide (v' = v /\ a' = a)) as [[-> ->]|Hne].
    + rewrite dget_ddel_eq. destruct (dget (reg_versioned r) v) as [acts|] eqn:Hg; [|by rewrite Hg].
      destruct (ddel acts a) as [|kv acts'] eqn:Hdel; [by rewrite dget_ddel_eq|].
      rewrite dget_dset_eq. simpl default. rewrite <- Hdel. apply dget_ddel_eq.
    + rewrite dget_ddel_ne.
      2:{ intros Heq. apply Hne. assert (Some (v', a') = Some (v, a)) by (rewrite <- !split_parts_full by done; by rewrite Heq). naive_solver. }
      rewrite <- Hv. destruct (dget (reg_versioned r) v') as [acts|] eqn:Hg; [|done].
      destruct (decide (v' = v)) as [->|Hvne].
      * assert (a' <> a) by naive_solver. rewrite Hg. simpl.
        assert (dget (ddel acts a') a = dget acts a) as <- by (by apply dget_ddel_ne).
        destruct (ddel acts a') as [|kv acts']; [by rewrite dget_ddel_eq|]. by rewrite dget_dset_eq.
      * destruct (ddel acts a'); [by rewrite dget_ddel_ne|by rewrite dget_dset_ne].
  - intros v actions. simpl. destruct (split_parts key) as [[v' a']|]; [|apply Hn].
    destruct (dget (reg_versioned r) v') as [acts|] eqn:Hg; [|apply Hn].
    destruct (ddel acts a') as [|kv acts'] eqn:Hdel; destruct (decide (v' = v)) as [->|Hvne].
    + by rewrite dget_ddel_eq.
    + rewrite dget_ddel_ne by done. apply Hn.
    + rewrite dget_dset_eq. by intros [= <-].
    + rewrite dget_dset_ne by done. apply Hn.
Qed.

Lemma ddel_absent (d : dict V) k : dget d k = None -> ddel d k = d.
Proof.
  unfold ddel. induction d as [|[j w] d IH]; simpl; [done|].
  destruct (j =s k) eqn:E; [done|]. simpl. intros H. by rewrite IH.
Qed.
End registry.
Arguments registry V : clear implicits.

(** the flat view and the view by version of the registry stay in step under
    every sequence of assignments, deletions and pops: an action is listed under
    a version exactly when its full name is registered, with the same entry, and
    a version is listed only while it has an action. *)
Theorem registry_views_agree {V} (r : registry V) : rtc reg_step registry_init r -> views_agree r.
Proof.
  apply (rtc_invariant reg_step views_agree); [|by split].
  intros x y Hx Hs. destruct Hs as [r0 key v|r0 key r' H|r0 key d r' v H].
  - by apply reg_set_agree.
  - unfold reg_del in H. destruct (dmem _ _); [|done]. injection H as <-. by apply drop_agree.
  - unfold reg_pop in H. destruct (dget (reg_flat r0) key) eqn:Hg.
    + injection H as <- <-. by apply drop_agree.
    + destruct d; [|done]. injection H as <- <-.
      rewrite <- (ddel_absent (reg_flat r0) key) at 1 by done. by apply drop_agree.
Qed.

Lemma registry_views_agree_witness :
  views_agree (reg_set (reg_set registry_init "sys.v1.memory.read" 1) "sys.v2.memory.read" 2).
Proof.
  apply (registry_views_agree (V := Z)).
  eapply rtc_l; [apply (rs_set registry_init "sys.v1.memory.read" 1)|].
  apply rtc_once. apply (rs_set _ "sys.v2.memory.read" 2).
Defined.

(** a schema field of type ["number"] accepts floats only: every integer is
    rejected, while a boolean passes as ["int"]. *)
Theorem number_rejects_integers f z b :
  validate_payload (MkSchema [] [(f, Some "number")]) [(f, JInt z)] <> [] /\
  validate_payload (MkSchema [] [(f, Some "int")]) [(f, JBool b)] = [].
Proof.
  unfold validate_payload. cbn [sc_required sc_properties flat_map app]. unfold property_error.
  cbn [dget]. rewrite String.eqb_refl. by split.
Qed.
