(* ===== verification/SyscallDispatcher.v ===== *)
(** * Syscall dispatcher ([AINDY/kernel/syscall_dispatcher.py])

    The state of a dispatch is the pair of trace context variables, the resource
    manager of [ResourceManager] and, inside it, the services [X].  A handler is
    a function on that state, so that it can dispatch in turn.  The clock is
    three readings of [time.monotonic()] in microseconds (at the start, when the
    handler returned and at the end), and the fresh identifiers of
    [uuid.uuid4()] are arguments. *)
From S2P Require Import Prelude Json ResourceManager SyscallAbi.
Local Open Scope Z_scope.

Record SyscallContext := MkCtx {
  ctx_execution_unit_id : string;
  ctx_user_id : string;
  ctx_capabilities : list string;
  ctx_trace_id : string;
  ctx_memory_context : list json;
  ctx_metadata : dict json
}.

(** [DEFAULT_NODUS_CAPABILITIES] *)
Definition DEFAULT_NODUS_CAPABILITIES : list string :=
  ["memory.read"; "memory.write"; "memory.search"; "event.emit"].

Record envelope := MkEnvelope {
  env_status : string;
  env_data : json;
  env_trace_id : string;
  env_eu_id : string;
  env_syscall : string;
  env_version : string;
  env_duration_ms : Z;
  env_error : option string;
  env_warning : option string
}.

Section dispatcher.
Context {X : Type}.

(** [_TRACE_ID_CTX], [_EU_ID_CTX] and the resource manager *)
Record dstate := MkD { dv_trace : string; dv_eu : string; dv_rm : rm X }.

Record SyscallEntry := MkSysEntry {
  se_handler : dict json -> SyscallContext -> dstate -> dstate * result json;
  se_capability : string;
  se_input_schema : schema;
  se_deprecated : bool;
  se_deprecated_since : option string;
  se_replacement : option string
}.

Variable E : env X.
Variable SYSCALL_REGISTRY : registry SyscallEntry.
(** [_emit_syscall_event], which never raises *)
Variable emit : string -> SyscallContext -> string -> X -> X.

Definition with_rm (d : dstate) (s : rm X) : dstate := MkD (dv_trace d) (dv_eu d) s.
Definition emit_event (name : string) (c : SyscallContext) (status : string) (d : dstate) : dstate :=
  with_rm d (with_ext (dv_rm d) (emit name c status (rm_ext (dv_rm d)))).

(** [int((time.monotonic() - t_start) * 1000)] *)
Definition elapsed_ms (t0 t : Z) : Z := Z.quot (t - t0) 1000.

(** [_error_envelope] *)
Definition error_envelope (name : string) (c : SyscallContext) (message version : string) (ms : Z) : envelope :=
  MkEnvelope "error" (JObj []) (ctx_trace_id c) (ctx_execution_unit_id c) name version ms (Some message) None.

Definition with_ids (c : SyscallContext) (eu trace : string) : SyscallContext :=
  MkCtx eu (ctx_user_id c) (ctx_capabilities c) trace (ctx_memory_context c) (ctx_metadata c).

(** [_resolve_trace_context]: the boolean tells whether tokens were created. *)
Definition resolve_trace_context (c : SyscallContext) (uuid1 uuid2 : string) (d : dstate)
    : dstate * SyscallContext * bool :=
  if truthy (dv_trace d) then
    (d, if negb (ctx_trace_id c =s dv_trace d) || negb (ctx_execution_unit_id c =s dv_eu d)
        then with_ids c (str_or (Some (dv_eu d)) (ctx_execution_unit_id c)) (dv_trace d) else c, false)
  else
    let trace := str_or (Some (ctx_trace_id c)) uuid1 in
    let eu := str_or (Some (ctx_execution_unit_id c)) uuid2 in
    let c' := if negb (truthy (ctx_trace_id c)) || negb (truthy (ctx_execution_unit_id c))
              then with_ids c eu trace else c in
    (MkD (ctx_trace_id c') (ctx_execution_unit_id c') (dv_rm d), c', true).

(** Steps 1 to 2d of [_dispatch]: the resolved name, version and entry, or the
    error; the quota check may change the resource manager. *)
Definition lookup_syscall (name : string) : (string * string * SyscallEntry) + (string * string * string) :=
  let parsed := match parse_syscall_name name with Ok va => Some va | Raise _ => None end in
  let version := match parsed with Some (v, _) => v | None => "unknown" end in
  let available := versions SYSCALL_REGISTRY in
  let resolved := if version =s "unknown" then Some version
                  else resolve_version version available SYSCALL_VERSION_FALLBACK in
  match resolved with
  | None => inr (name, version, "Unknown syscall version: " +:+ py_repr version +:+
                 "; available versions: " +:+ py_repr_list available)
  | Some v =>
      let name' := if v =s version then name
                   else match parsed with Some (_, action) => "sys." +:+ v +:+ "." +:+ action | None => name end in
      match dget (reg_flat SYSCALL_REGISTRY) name' with
      | None => inr (name', v, "Unknown syscall: " +:+ py_repr name')
      | Some entry => inl (name', v, entry)
      end
  end.

Definition authorize (now : Z) (name : string) (payload : dict json) (c : SyscallContext) (entry : SyscallEntry)
    (d : dstate) : dstate * option string :=
  if negb (str_in (se_capability entry) (ctx_capabilities c)) then
    (d, Some ("Permission denied: '" +:+ name +:+ "' requires capability '" +:+ se_capability entry +:+
              "'; caller has " +:+ py_repr_list (ctx_capabilities c)))
  else if negb (truthy (ctx_user_id c)) then
    (d, Some "TENANT_VIOLATION: syscall requires authenticated tenant context")
  else
    let (s, quota) := check_quota E now (ctx_execution_unit_id c) (dv_rm d) in
    let d1 := with_rm d s in
    match quota with
    | Ok (Some reason) => (d1, Some reason)
    | Ok None | Raise _ =>
        match validate_payload (se_input_schema entry) payload with
        | [] => (d1, None)
        | errors => (d1, Some ("Input validation failed for " +:+ py_repr name +:+ ": " +:+ str_join "; " errors))
        end
    end.

(** [_dispatch] *)
Definition dispatch_inner (t0 t1 t2 : Z) (name : string) (payload : dict json) (c : SyscallContext) (d : dstate)
    : dstate * envelope :=
  match lookup_syscall name with
  | inr (name', version, message) => (d, error_envelope name' c message version (elapsed_ms t0 t2))
  | inl (name', version, entry) =>
      match authorize t0 name' payload c entry d with
      | (d1, Some message) => (d1, error_envelope name' c message version (elapsed_ms t0 t2))
      | (d1, None) =>
          let warning := if se_deprecated entry
                         then Some (deprecation_text name' (se_deprecated_since entry) (se_replacement entry))
                         else None in
          match se_handler entry payload c d1 with
          | (d2, Raise exc) =>
              let message := if exn_class exc =s "CircuitOpenError" then "HTTP_503:" +:+ exn_msg exc else exn_msg exc in
              (emit_event name' c "error" d2, error_envelope name' c message version (elapsed_ms t0 t2))
          | (d2, Ok data) =>
              let (s, _) := record_usage E (ctx_execution_unit_id c) (elapsed_ms t0 t1) 0 1 (dv_rm d2) in
              (emit_event name' c "success" (with_rm d2 s),
               MkEnvelope "success" data (ctx_trace_id c) (ctx_execution_unit_id c) name' version
                 (elapsed_ms t0 t2) None warning)
          end
      end
  end.

(** [dispatch]: the context variables set by a root call are reset at the end. *)
Definition dispatch (t0 t1 t2 : Z) (uuid1 uuid2 : string) (name : string) (payload : dict json)
    (c : SyscallContext) (d : dstate) : dstate * envelope :=
  let '(d1, c1, tokens) := resolve_trace_context c uuid1 uuid2 d in
  let (d2, out) := dispatch_inner t0 t1 t2 name payload c1 d1 in
  (if tokens then MkD (dv_trace d) (dv_eu d) (dv_rm d2) else d2, out).

(** ** Building contexts *)

Fixpoint last_segment (s : string) : string :=
  match s with
  | EmptyString => ""
  | String a s' => if str_has "." s then (if Ascii.eqb a "." then (if str_has "." s' then last_segment s' else s')
                                          else last_segment s') else s
  end.
Definition first_segment (s : string) : string := match str_cut "."%char s with Some (x, _) => x | None => s end.

Definition READ_VERBS : list string := ["get"; "list"; "count"; "read"; "query"; "fetch"].
Definition WRITE_VERBS : list string := ["create"; "update"; "delete"; "ensure"; "init"; "write"; "store"; "observe"].
Definition verb_in (verb : string) (l : list string) : bool :=
  str_in verb l || existsb (fun p => startswith (p +:+ "_") verb) l.

(** [_infer_dispatch_capability] *)
Definition infer_dispatch_capability (name : string) : string :=
  match parse_syscall_name name with
  | Raise _ => "event.emit"
  | Ok (_, action) =>
      let domain := first_segment action in
      let verb := last_segment action in
      if verb_in verb READ_VERBS then domain +:+ ".read"
      else if verb_in verb WRITE_VERBS then domain +:+ ".write"
      else action
  end.

(** [make_syscall_ctx_from_tool] *)
Definition make_syscall_ctx_from_tool (user_id run_id uuid : string) (capabilities : option (list string)) : SyscallContext :=
  let eu := str_or (Some run_id) uuid in
  MkCtx eu user_id (match capabilities with Some l => l | None => DEFAULT_NODUS_CAPABILITIES end) eu [] [].

(** [make_syscall_ctx_from_flow], on the string values of the flow context *)
Definition make_syscall_ctx_from_flow (run_id user_id trace_id : option string)
    (workflow_type flow_name node_name : json) (capabilities : option (list string)) : SyscallContext :=
  MkCtx (str_or run_id "") (str_or user_id "")
    (match capabilities with Some l => l | None => DEFAULT_NODUS_CAPABILITIES end)
    (str_or trace_id (str_or run_id "")) []
    [("workflow_type", workflow_type); ("flow_name", flow_name); ("node_name", node_name)].

(** [dispatch_syscall] without a database session *)
Definition dispatch_syscall (t0 t1 t2 : Z) (uuid1 uuid2 uuid3 : string) (name : string) (payload : dict json)
    (user_id capability : option string) (d : dstate) : dstate * envelope :=
  dispatch t0 t1 t2 uuid1 uuid2 name payload
    (make_syscall_ctx_from_tool (str_or user_id "") "" uuid3
       (Some [str_or capability (infer_dispatch_capability name)])) d.

(** [child_context] *)
Definition child_context (parent : SyscallContext) (capabilities : option (list string))
    (metadata : option (dict json)) : SyscallContext :=
  MkCtx (ctx_execution_unit_id parent) (ctx_user_id parent)
    (match capabilities with Some l => l | None => ctx_capabilities parent end) (ctx_trace_id parent)
    (ctx_memory_context parent) (match metadata with Some m => m | None => ctx_metadata parent end).

End dispatcher.
Arguments dstate X : clear implicits.
Arguments SyscallEntry X : clear implicits.

Section dispatcher_theorems.
Context {X : Type} (E : env X) (R : registry (SyscallEntry X))
  (emit : string -> SyscallContext -> string -> X -> X).

(** What [resolve_trace_context] guarantees. *)
Lemma resolve_trace_spec c u1 u2 (d d1 : dstate X) c1 tok :
  resolve_trace_context c u1 u2 d = (d1, c1, tok) -> u1 <> "" ->
  ctx_capabilities c1 = ctx_capabilities c /\ ctx_user_id c1 = ctx_user_id c /\ dv_rm d1 = dv_rm d /\
  dv_trace d1 = ctx_trace_id c1 /\ ctx_trace_id c1 <> "" /\
  (if truthy (dv_trace d) then tok = false /\ d1 = d /\ ctx_trace_id c1 = dv_trace d
   else tok = true /\ ctx_trace_id c1 = str_or (Some (ctx_trace_id c)) u1).
Proof.
  unfold resolve_trace_context. intros H Hu1. destruct (truthy (dv_trace d)) eqn:Ht.
  - apply truthy_true in Ht. injection H as <- <- <-.
    destruct (String.eqb_spec (ctx_trace_id c) (dv_trace d)) as [Heq|Hne]; simpl.
    + destruct (negb _); simpl; split_and!; congruence || done.
    + split_and!; done.
  - injection H as <- <- <-. unfold str_or. simpl.
    destruct (truthy (ctx_trace_id c)) eqn:Hc; simpl.
    + destruct (truthy (ctx_execution_unit_id c)); simpl; apply truthy_true in Hc; split_and!; done.
    + split_and!; done.
Qed.

Lemma authorize_None now name payload c entry (d d1 : dstate X) :
  authorize E now name payload c entry d = (d1, None) ->
  se_capability entry ∈ ctx_capabilities c /\ ctx_user_id c <> "" /\
  validate_payload (se_input_schema entry) payload = [] /\
  (forall reason, (check_quota E now (ctx_execution_unit_id c) (dv_rm d)).2 <> Ok (Some reason)) /\
  dv_trace d1 = dv_trace d.
Proof.
  unfold authorize. destruct (str_in _ _) eqn:Hc; [|done]. simpl. apply str_in_spec in Hc.
  destruct (truthy (ctx_user_id c)) eqn:Hu; [|done]. apply truthy_true in Hu. simpl.
  destruct (check_quota E now _ _) as [s [[reason|]|ex]]; simpl; [done|..];
    (destruct (validate_payload _ _) eqn:Hv; [|done]); intros [= <-]; by split_and!.
Qed.
End dispatcher_theorems.

(** C35: a syscall succeeds only through all the checks.  A success envelope means
    that the name is registered, the caller holds the capability of the entry and
    has a tenant, the quota check did not refuse, the payload satisfies the input
    schema, and the data is what the handler returned; the handler ran under the
    trace the envelope reports. *)
Theorem dispatch_success_guarded {X} (E : env X) R emit t0 t1 t2 u1 u2 name payload c (d d' : dstate X) out :
  u1 <> "" -> dispatch E R emit t0 t1 t2 u1 u2 name payload c d = (d', out) -> env_status out = "success" ->
  exists name' v entry c1 d0 d1 d2,
    lookup_syscall R name = inl (name', v, entry) /\ se_capability entry ∈ ctx_capabilities c /\
    ctx_user_id c <> "" /\ validate_payload (se_input_schema entry) payload = [] /\
    dv_rm d0 = dv_rm d /\
    (forall reason, (check_quota E t0 (ctx_execution_unit_id c1) (dv_rm d0)).2 <> Ok (Some reason)) /\
    se_handler entry payload c1 d1 = (d2, Ok (env_data out)) /\
    dv_trace d1 = env_trace_id out /\ ctx_trace_id c1 = env_trace_id out /\ env_error out = None.
Proof.
  intros Hu. unfold dispatch. destruct (resolve_trace_context c u1 u2 d) as [[d0 c1] tok] eqn:Hr.
  destruct (resolve_trace_spec _ _ _ _ _ _ _ Hr Hu) as (Hcap&Huser&Hrm&Htr&_&_).
  unfold dispatch_inner. destruct (lookup_syscall R name) as [[[name' v] entry]|[[name' v] msg]] eqn:Hl;
    [|intros [= <- <-]; done].
  destruct (authorize E t0 name' payload c1 entry d0) as [d1 [msg|]] eqn:Ha; [intros [= <- <-]; done|].
  apply authorize_None in Ha as (H1&H2&H3&H4&H5).
  destruct (se_handler entry payload c1 d1) as [d2 [data|ex]] eqn:Hh; [|intros [= <- <-]; done].
  destruct (record_usage E _ _ _ _ _) as [s r]. intros [= <- <-] _.
  exists name', v, entry, c1, d0, d1, d2. rewrite <- Hcap, <- Huser. simpl. split_and!; try done. congruence.
Qed.

(** a refused caller has no effect.  When the name is unknown, the capability
    is missing or the tenant is, the envelope is an error and the state is the one
    before the call: no handler ran and nothing was charged. *)
Theorem dispatch_refused_no_effect {X} (E : env X) R emit t0 t1 t2 u1 u2 name payload c (d : dstate X) :
  u1 <> "" ->
  match lookup_syscall R name with
  | inl (_, _, entry) => se_capability entry ∉ ctx_capabilities c \/ ctx_user_id c = ""
  | inr _ => True
  end ->
  let (d', out) := dispatch E R emit t0 t1 t2 u1 u2 name payload c d in
  d' = d /\ env_status out = "error" /\ env_data out = JObj [] /\ is_Some (env_error out).
Proof.
  intros Hu Hg. unfold dispatch. destruct (resolve_trace_context c u1 u2 d) as [[d0 c1] tok] eqn:Hr.
  destruct (resolve_trace_spec _ _ _ _ _ _ _ Hr Hu) as (Hcap&Huser&Hrm&_&_&Hcase).
  assert ((if tok then MkD (dv_trace d) (dv_eu d) (dv_rm d0) else d0) = d) as Hd.
  { destruct (truthy (dv_trace d)); destruct Hcase as [-> Hcase]; [by destruct Hcase|rewrite Hrm; by destruct d]. }
  unfold dispatch_inner. destruct (lookup_syscall R name) as [[[name' v] entry]|[[name' v] msg]];
    [|by split_and!; [..|eexists]].
  unfold authorize. rewrite Hcap, Huser. destruct (str_in _ _) eqn:Hs; simpl; [|by split_and!; [..|eexists]].
  apply str_in_spec in Hs. destruct Hg as [Hg| ->]; [done|]. simpl. by split_and!; [..|eexists].
Qed.

(** one trace per call tree.  A nested dispatch reports the trace of the
    dispatch it runs in, whatever its caller put in the context; a root dispatch
    uses the caller's trace, or a fresh one, and leaves the context variables as
    they were, whatever the handler did to them. *)
Theorem dispatch_trace {X} (E : env X) R emit t0 t1 t2 u1 u2 name payload c (d : dstate X) :
  u1 <> "" ->
  let (d', out) := dispatch E R emit t0 t1 t2 u1 u2 name payload c d in
  if truthy (dv_trace d) then env_trace_id out = dv_trace d
  else env_trace_id out = str_or (Some (ctx_trace_id c)) u1 /\ dv_trace d' = dv_trace d /\ dv_eu d' = dv_eu d.
Proof.
  intros Hu. unfold dispatch. destruct (resolve_trace_context c u1 u2 d) as [[d0 c1] tok] eqn:Hr.
  destruct (resolve_trace_spec _ _ _ _ _ _ _ Hr Hu) as (_&_&_&_&_&Hcase).
  assert (env_trace_id (dispatch_inner E R emit t0 t1 t2 name payload c1 d0).2 = ctx_trace_id c1) as Ht.
  { unfold dispatch_inner. destruct (lookup_syscall R name) as [[[name' v] entry]|[[name' v] msg]]; [|done].
    destruct (authorize _ _ _ _ _ _ _) as [d1 [msg|]]; [done|].
    destruct (se_handler entry payload c1 d1) as [d2 [data|ex]]; [|done].
    by destruct (record_usage E _ _ _ _ _). }
  destruct (dispatch_inner E R emit t0 t1 t2 name payload c1 d0) as [d2 out]. simpl in Ht.
  destruct (truthy (dv_trace d)); destruct Hcase as [-> Hcase]; rewrite Ht; [by destruct Hcase|done].
Qed.

(** ** Witnesses *)

(** One syscall, whose handler returns its payload. *)
Definition demo_entry : SyscallEntry Z :=
  MkSysEntry (fun payload _ d => (d, Ok (JObj payload))) "memory.read" (MkSchema ["query"] [("query", Some "string")])
    false None None.
Definition demo_registry : registry (SyscallEntry Z) := reg_set registry_init "sys.v1.memory.read" demo_entry.
Definition demo_ctx (caps : list string) : SyscallContext := MkCtx "eu-1" "user-1" caps "trace-1" [] [].
Definition demo_dstate : dstate Z := MkD "" "" (rm_init 0).
Definition demo_payload : dict json := [("query", JStr "x")].
Definition demo_dispatch (caps : list string) : dstate Z * envelope :=
  dispatch demo_env demo_registry (fun _ _ _ x => x) 0 1000 2000 "u1" "u2" "sys.v1.memory.read" demo_payload
    (demo_ctx caps) demo_dstate.

Lemma dispatch_success_guarded_witness :
  env_status (demo_dispatch ["memory.read"]).2 = "success" /\
  exists entry, "memory.read" = se_capability entry /\ se_capability entry ∈ ["memory.read"] /\
    validate_payload (se_input_schema (X := Z) entry) demo_payload = [].
Proof.
  split; [vm_compute; reflexivity|].
  edestruct (dispatch_success_guarded demo_env demo_registry (fun _ _ _ x => x) 0 1000 2000 "u1" "u2"
    "sys.v1.memory.read" demo_payload (demo_ctx ["memory.read"]) demo_dstate
    (demo_dispatch ["memory.read"]).1 (demo_dispatch ["memory.read"]).2)
    as (n&v&entry&c1&d0&d1&d2&H1&H2&_&H4&_); [done|reflexivity|vm_compute; reflexivity|].
  exists entry. split; [|exact (conj H2 H4)].
  vm_compute in H1. injection H1 as _ _ <-. reflexivity.
Defined.

Lemma dispatch_refused_no_effect_witness :
  (demo_dispatch ["event.emit"]).1 = demo_dstate /\ env_status (demo_dispatch ["event.emit"]).2 = "error".
Proof.
  pose proof (dispatch_refused_no_effect demo_env demo_registry (fun _ _ _ x => x) 0 1000 2000 "u1" "u2"
    "sys.v1.memory.read" demo_payload (demo_ctx ["event.emit"]) demo_dstate) as H.
  fold (demo_dispatch ["event.emit"]) in H. destruct (demo_dispatch ["event.emit"]) as [d' out].
  assert (d' = demo_dstate /\ env_status out = "error" /\ env_data out = JObj [] /\ is_Some (env_error out)) as (H1&H2&_).
  { apply H; [done|]. vm_compute. left. intros Hin. inversion Hin as [|? ? ? Hin']; inversion Hin'. }
  exact (conj H1 H2).
Defined.

Lemma dispatch_trace_witness :
  env_trace_id (dispatch demo_env demo_registry (fun _ _ _ x => x) 0 1000 2000 "u1" "u2" "sys.v1.memory.read"
    demo_payload (demo_ctx []) (MkD "root-trace" "root-eu" (rm_init 0))).2 = "root-trace".
Proof.
  pose proof (dispatch_trace demo_env demo_registry (fun _ _ _ x => x) 0 1000 2000 "u1" "u2" "sys.v1.memory.read"
    demo_payload (demo_ctx []) (MkD "root-trace" "root-eu" (rm_init 0))) as H.
  destruct (dispatch _ _ _ _ _ _ _ _ _ _ _ _) as [d' out]. apply H. done.
Defined.
