(* ===== verification/ExecutionUnit.v ===== *)
(** * Execution units ([AINDY/core/execution_unit_service.py])

    The SQLAlchemy session is the record [eu_session] of the calls the service
    makes, on a session state [Z]; [SessionLaws] says what they do to the table
    of execution units.  Every method catches all exceptions, so its result is
    a [bool] (or an [option]) and never a raise. *)
From S2P Require Import Prelude PyDatetime PyUuid Json WaitCondition.
Local Open Scope Z_scope.

(** [_STATUS_TRANSITIONS] *)
Definition STATUS_TRANSITIONS : dict (list string) :=
  [("pending", ["executing"; "failed"]);
   ("executing", ["waiting"; "resumed"; "completed"; "failed"]);
   ("waiting", ["resumed"; "executing"; "failed"]);
   ("resumed", ["executing"; "failed"]);
   ("completed", []);
   ("failed", [])].

Definition may_transition (from to : string) : bool := str_in to (default [] (dget STATUS_TRANSITIONS from)).

Record ExecutionUnit := MkEU {
  eu_id : UUID;
  eu_kind : string;
  eu_status : string;
  eu_user_id : option UUID;
  eu_source_type : option string;
  eu_source_id : option string;
  eu_parent_id : option UUID;
  eu_flow_run_id : option string;
  eu_correlation_id : option string;
  eu_memory_context_ids : list string;
  eu_output_memory_ids : list string;
  eu_wait_condition : option wc_dict;
  eu_created_at : Z;
  eu_updated_at : Z;
  eu_completed_at : option Z
}.

(** The calls on the session: a query by id, the insertion of a row, and a
    [flush] after the attributes of a row were assigned. *)
Record eu_session (S : Type) := MkSession {
  db_first : option UUID -> S -> S * result (option ExecutionUnit);
  db_add : ExecutionUnit -> S -> S * result unit;
  db_flush : ExecutionUnit -> S -> S * result unit
}.
Arguments db_first {S}. Arguments db_add {S}. Arguments db_flush {S}.

Class SessionLaws {S} (db : eu_session S) (view : S -> gmap UUID ExecutionUnit) := {
  law_first id s : view (db_first db id s).1 = view s;
  law_first_ok id s o : (db_first db id s).2 = Ok o -> o = (u ← id; view s !! u);
  law_view_id s u e : view s !! u = Some e -> eu_id e = u;
  law_add e s : view (db_add db e s).1 =
    (if is_ok (db_add db e s).2 then <[eu_id e := e]> (view s) else view s);
  law_flush e s : view (db_flush db e s).1 =
    (if is_ok (db_flush db e s).2 then <[eu_id e := e]> (view s) else view s)
}.

(** What a caller may pass as an id: a UUID, a text, or nothing. *)
Inductive id_arg := IdNone | IdUuid (u : UUID) | IdText (s : string).

(** [_coerce_uuid] *)
Definition coerce_uuid (v : id_arg) : option UUID :=
  match v with IdNone => None | IdUuid u => Some u | IdText s => uuid_of_string s end.

Section service.
Context {S : Type} {codec : IsoCodec} (db : eu_session S).

(** [create]; the fresh [uuid4] and the time are arguments. *)
Definition create (fresh : UUID) (now : Z) (ty : string) (user : id_arg) (source_type source_id : option string)
    (parent : id_arg) (flow_run correlation : option string) (status : string) (s : S) : S * option ExecutionUnit :=
  let eu := MkEU fresh ty status (coerce_uuid user) source_type source_id (coerce_uuid parent) flow_run correlation
              [] [] None now now None in
  match db_add db eu s with
  | (s1, Ok _) => (s1, Some eu)
  | (s1, Raise _) => (s1, None)
  end.

(** Load a row, change it and flush: the shape of the updating methods. *)
Definition modify (id : id_arg) (f : ExecutionUnit -> option ExecutionUnit) (s : S) : S * bool :=
  match db_first db (coerce_uuid id) s with
  | (s1, Ok (Some eu)) =>
      match f eu with
      | None => (s1, false)
      | Some eu' => match db_flush db eu' s1 with (s2, r) => (s2, is_ok r) end
      end
  | (s1, _) => (s1, false)
  end.

Definition set_status (eu : ExecutionUnit) (st : string) (now : Z) : ExecutionUnit :=
  MkEU (eu_id eu) (eu_kind eu) st (eu_user_id eu) (eu_source_type eu) (eu_source_id eu) (eu_parent_id eu)
    (eu_flow_run_id eu) (eu_correlation_id eu) (eu_memory_context_ids eu) (eu_output_memory_ids eu)
    (eu_wait_condition eu) (eu_created_at eu) now
    (if str_in st ["completed"; "failed"] then Some now else eu_completed_at eu).
Definition set_wait (eu : ExecutionUnit) (wc : option wc_dict) (now : Z) : ExecutionUnit :=
  MkEU (eu_id eu) (eu_kind eu) (eu_status eu) (eu_user_id eu) (eu_source_type eu) (eu_source_id eu) (eu_parent_id eu)
    (eu_flow_run_id eu) (eu_correlation_id eu) (eu_memory_context_ids eu) (eu_output_memory_ids eu)
    wc (eu_created_at eu) now (eu_completed_at eu).
Definition set_links (eu : ExecutionUnit) (flow_run : option string) (mem out : list string) (now : Z) : ExecutionUnit :=
  MkEU (eu_id eu) (eu_kind eu) (eu_status eu) (eu_user_id eu) (eu_source_type eu) (eu_source_id eu) (eu_parent_id eu)
    flow_run (eu_correlation_id eu) mem out (eu_wait_condition eu) (eu_created_at eu) now (eu_completed_at eu).

(** [update_status] *)
Definition update_status (now : Z) (id : id_arg) (new_status : string) (s : S) : S * bool :=
  modify id (fun eu => if may_transition (eu_status eu) new_status then Some (set_status eu new_status now) else None) s.

(** The clearing of [wait_condition] in [resume_execution_unit]; its outcome is ignored. *)
Definition clear_wait (now : Z) (id : id_arg) (s : S) : S :=
  (modify id (fun eu => match eu_wait_condition eu with Some _ => Some (set_wait eu None now) | None => None end) s).1.

(** [resume_execution_unit] *)
Definition resume_execution_unit (now : Z) (id : id_arg) (s : S) : S * bool :=
  let (s1, check) := db_first db (coerce_uuid id) s in
  if match check with
     | Ok (Some eu) => str_in (eu_status eu) ["resumed"; "executing"; "completed"]
     | _ => false
     end then (s1, true)
  else
    match update_status now id "resumed" s1 with
    | (s2, false) => (s2, false)
    | (s2, true) => update_status now id "executing" (clear_wait now id s2)
    end.

(** [set_wait_condition]; the argument is a [WaitCondition], a dictionary or [None]. *)
Inductive condition_arg := CaNone | CaDict (d : wc_dict) | CaCondition (c : WaitCondition).
Definition set_wait_condition (now : Z) (id : id_arg) (cond : condition_arg) (s : S) : S * bool :=
  modify id (fun eu => Some (set_wait eu (match cond with
                                          | CaNone => None
                                          | CaDict d => Some d
                                          | CaCondition c => Some (to_dict c)
                                          end) now)) s.

(** [link_flow_run], [link_memory_context] and [append_output_memory] *)
Definition link_flow_run (now : Z) (id : id_arg) (flow_run : string) (s : S) : S * bool :=
  modify id (fun eu => Some (set_links eu (Some flow_run) (eu_memory_context_ids eu) (eu_output_memory_ids eu) now)) s.
Definition link_memory_context (now : Z) (id : id_arg) (ids : list string) (s : S) : S * bool :=
  modify id (fun eu => Some (set_links eu (eu_flow_run_id eu) ids (eu_output_memory_ids eu) now)) s.
Definition append_output_memory (now : Z) (id : id_arg) (m : string) (s : S) : S * bool :=
  modify id (fun eu => Some (set_links eu (eu_flow_run_id eu) (eu_memory_context_ids eu)
    (if str_in m (eu_output_memory_ids eu) then eu_output_memory_ids eu else eu_output_memory_ids eu ++ [m]) now)) s.

End service.

(** ** Status names of other records: [_map_agent_status], [_map_flow_status], [_map_job_status] *)
Definition map_agent_status (s : string) : string :=
  default "pending" (dget [("pending_approval", "pending"); ("approved", "pending"); ("executing", "executing");
    ("completed", "completed"); ("failed", "failed"); ("rejected", "failed")] s).
Definition map_flow_status (s : string) : string :=
  default "pending" (dget [("running", "executing"); ("waiting", "waiting"); ("success", "completed");
    ("failed", "failed")] s).
Definition map_job_status (s : string) : string :=
  default "pending" (dget [("pending", "pending"); ("queued", "pending"); ("deferred", "pending");
    ("ignored", "pending"); ("running", "executing"); ("success", "completed"); ("completed", "completed");
    ("failed", "failed"); ("error", "failed")] s).

(** ** The status machine *)
Section lifecycle.
Context {S : Type} {codec : IsoCodec} (db : eu_session S) (view : S -> gmap UUID ExecutionUnit) `{!SessionLaws db view}.
Implicit Types (s : S) (id : id_arg).

(** Everything the service does to the table; a created row has an id of its own. *)
Inductive eu_step : S -> S -> Prop :=
| es_create f now ty u st si p fr co status s :
    view s !! f = None -> eu_step s (create db f now ty u st si p fr co status s).1
| es_update now id st s : eu_step s (update_status db now id st s).1
| es_resume now id s : eu_step s (resume_execution_unit db now id s).1
| es_wait now id c s : eu_step s (set_wait_condition db now id c s).1
| es_flow now id r s : eu_step s (link_flow_run db now id r s).1
| es_memory now id l s : eu_step s (link_memory_context db now id l s).1
| es_output now id m s : eu_step s (append_output_memory db now id m s).1.

Definition transition (a b : string) : Prop := may_transition a b = true.

(** Rows stay, and their statuses move along the transitions. *)
Definition evolves s s' : Prop := forall u e, view s !! u = Some e ->
  exists e', view s' !! u = Some e' /\ rtc transition (eu_status e) (eu_status e').

Lemma evolves_view s s' : view s' = view s -> evolves s s'.
Proof. intros Hv u e He. exists e. rewrite Hv. split; [done|apply rtc_refl]. Qed.

Lemma evolves_trans s1 s2 s3 : evolves s1 s2 -> evolves s2 s3 -> evolves s1 s3.
Proof.
  intros H1 H2 u e He. destruct (H1 u e He) as (e'&He'&Hr). destruct (H2 u e' He') as (e''&He''&Hr').
  exists e''. split; [done|by etrans].
Qed.

Lemma modify_cases id f s s' b : (forall e e', f e = Some e' -> eu_id e' = eu_id e) ->
  modify db id f s = (s', b) ->
  view s' = view s \/
  exists u e e', coerce_uuid id = Some u /\ view s !! u = Some e /\ f e = Some e' /\
    view s' = <[u := e']> (view s) /\ b = true.
Proof.
  intros Hid. unfold modify. pose proof (law_first (coerce_uuid id) s) as Hv.
  pose proof (law_first_ok (coerce_uuid id) s) as Hok.
  destruct (db_first db (coerce_uuid id) s) as [s1 [[e|]|ex]]; simpl in *;
    [|intros [= <- <-]; by left..].
  destruct (f e) as [e'|] eqn:Hf; [|intros [= <- <-]; by left].
  specialize (Hok _ eq_refl). destruct (coerce_uuid id) as [u|]; [|done]. simpl in Hok. symmetry in Hok.
  pose proof (law_flush e' s1) as Hfl. destruct (db_flush db e' s1) as [s2 r]. simpl in Hfl.
  intros [= <- <-]. destruct (is_ok r); [right|left; by rewrite Hfl].
  exists u, e, e'. split_and!; try done. rewrite Hfl, Hv, (Hid _ _ Hf). f_equal. by eapply (law_view_id (db := db)).
Qed.

Lemma modify_evolves id f s : (forall e e', f e = Some e' -> eu_id e' = eu_id e) ->
  (forall e e', f e = Some e' -> rtc transition (eu_status e) (eu_status e')) -> evolves s (modify db id f s).1.
Proof.
  intros Hid Hst. destruct (modify db id f s) as [s' b] eqn:E. simpl.
  destruct (modify_cases _ _ _ _ _ Hid E) as [Hv|(u&e&e'&_&Hu&Hf&Hv&_)]; [by apply evolves_view|].
  intros u' x Hx. rewrite Hv. destruct (decide (u = u')) as [<-|Hne].
  - rewrite lookup_insert_eq. exists e'. split; [done|]. simplify_eq. by apply Hst.
  - rewrite lookup_insert_ne by done. exists x. split; [done|apply rtc_refl].
Qed.

Lemma update_evolves now id st s : evolves s (update_status db now id st s).1.
Proof.
  apply modify_evolves; intros e e'; destruct (may_transition (eu_status e) st) eqn:Ht; try done;
    intros [= <-]; [done|]. by apply rtc_once.
Qed.

Lemma resume_evolves now id s : evolves s (resume_execution_unit db now id s).1.
Proof.
  unfold resume_execution_unit. pose proof (law_first (coerce_uuid id) s) as Hv.
  destruct (db_first db (coerce_uuid id) s) as [s1 check]. simpl in Hv.
  destruct (match check with Ok (Some _) => _ | _ => _ end); [by apply evolves_view|].
  eapply evolves_trans; [by apply evolves_view|].
  pose proof (update_evolves now id "resumed" s1) as H1.
  destruct (update_status db now id "resumed" s1) as [s2 []]; [|done]. simpl in H1.
  eapply evolves_trans; [exact H1|]. eapply evolves_trans; [|apply update_evolves].
  unfold clear_wait. apply modify_evolves; intros e e'; destruct (eu_wait_condition e); try done;
    intros [= <-]; [done|apply rtc_refl].
Qed.

Lemma eu_step_evolves s s' : eu_step s s' -> evolves s s'.
Proof.
  destruct 1; [|apply update_evolves|apply resume_evolves|..].
  - unfold create. match goal with |- context [db_add db ?e s] => pose proof (law_add e s) as Ha; destruct (db_add db e s) as [s1 r] end.
    simpl in Ha. destruct r; simpl in *; [|by apply evolves_view].
    intros u' e He. exists e. rewrite Ha, lookup_insert_ne by congruence. split; [done|apply rtc_refl].
  - apply modify_evolves; intros e e' [= <-]; [done|apply rtc_refl].
  - apply modify_evolves; intros e e' [= <-]; [done|apply rtc_refl].
  - apply modify_evolves; intros e e' [= <-]; [done|apply rtc_refl].
  - apply modify_evolves; intros e e' [= <-]; [done|apply rtc_refl].
Qed.

Lemma terminal_stays a b : rtc transition a b -> str_in a ["completed"; "failed"] = true -> b = a.
Proof.
  destruct 1 as [|x y z Hxy _]; [done|]. intros Hx%str_in_spec. unfold transition, may_transition in Hxy.
  rewrite !elem_of_cons, elem_of_nil in Hx. by destruct Hx as [->|[->|[]]].
Qed.
End lifecycle.

(** the status machine.  Whatever sequence of service calls runs, a row keeps
    existing, its status moves only along the transitions of the table, and once
    it is completed or failed it never changes again. *)
Theorem eu_status_lifecycle {S} `{!IsoCodec} (db : eu_session S) view `{!SessionLaws db view} s s' u e :
  rtc (eu_step db view) s s' -> view s !! u = Some e ->
  exists e', view s' !! u = Some e' /\ rtc transition (eu_status e) (eu_status e') /\
    (str_in (eu_status e) ["completed"; "failed"] = true -> eu_status e' = eu_status e).
Proof.
  intros Hr Hu. assert (evolves view s s') as Hev.
  { revert Hr. apply (rtc_invariant (eu_step db view) (evolves view s)); [|by apply evolves_view].
    intros x y Hx Hxy. eapply evolves_trans; [exact Hx|by apply (eu_step_evolves db)]. }
  destruct (Hev u e Hu) as (e'&He'&Ht). exists e'. split_and!; [done|done|by apply terminal_stays].
Qed.

(** A table in memory: an instance of the session. *)
Definition map_session : eu_session { m : gmap UUID ExecutionUnit | map_Forall (fun u e => eu_id e = u) m } := {|
  db_first id s := (s, Ok (u ← id; `s !! u));
  db_add e s := (exist _ (<[eu_id e := e]> (`s)) (map_Forall_insert_2 _ _ _ _ eq_refl (proj2_sig s)), Ok ());
  db_flush e s := (exist _ (<[eu_id e := e]> (`s)) (map_Forall_insert_2 _ _ _ _ eq_refl (proj2_sig s)), Ok ())
|}.
#[export] Instance map_session_laws : SessionLaws map_session proj1_sig.
Proof.
  split; try done.
  - by intros id s o [= <-].
  - intros s u e H. exact (proj2_sig s u e H).
Qed.

(** A unit with the given status in an otherwise empty table. *)
Definition demo_unit (st : string) (wc : option wc_dict) : ExecutionUnit :=
  MkEU (MkUUID 7) "flow" st None None None None None None [] [] wc 0 0 None.
Lemma demo_unit_wf st wc : map_Forall (fun u e => eu_id e = u) ({[MkUUID 7 := demo_unit st wc]} : gmap UUID ExecutionUnit).
Proof. by apply map_Forall_singleton. Qed.
Definition demo_table (st : string) (wc : option wc_dict)
    : { m : gmap UUID ExecutionUnit | map_Forall (fun u e => eu_id e = u) m } := exist _ _ (demo_unit_wf st wc).

Lemma eu_status_lifecycle_witness :
  exists e', proj1_sig (update_status map_session 3 (IdUuid (MkUUID 7)) "executing" (demo_table "completed" None)).1
    !! MkUUID 7 = Some e' /\ eu_status e' = "completed".
Proof.
  edestruct (eu_status_lifecycle map_session proj1_sig (demo_table "completed" None)
    (update_status map_session 3 (IdUuid (MkUUID 7)) "executing" (demo_table "completed" None)).1
    (MkUUID 7) (demo_unit "completed" None)) as (e'&H1&_&H3).
  - apply rtc_once. apply (es_update map_session proj1_sig).
  - reflexivity.
  - exists e'. split; [exact H1|]. apply H3. vm_compute. reflexivity.
Defined.

(** The session answers every call. *)
Definition reliable {S} (db : eu_session S) : Prop :=
  (forall id s, is_ok (db_first db id s).2 = true) /\ (forall e s, is_ok (db_flush db e s).2 = true).

Lemma modify_reliable {S} (db : eu_session S) view `{!SessionLaws db view} id f s u e :
  reliable db -> coerce_uuid id = Some u -> view s !! u = Some e ->
  (forall e', f e = Some e' -> eu_id e' = eu_id e) ->
  exists s', modify db id f s = (s', match f e with Some _ => true | None => false end) /\
    view s' = match f e with Some e' => <[u := e']> (view s) | None => view s end.
Proof.
  intros [Hr1 Hr2] Hid He Hf. unfold modify. rewrite Hid.
  pose proof (law_first (Some u) s) as Hv. pose proof (law_first_ok (Some u) s) as Hok. specialize (Hr1 (Some u) s).
  destruct (db_first db (Some u) s) as [s1 [o|x]]; [|done]. simpl in *.
  specialize (Hok o eq_refl). rewrite He in Hok. subst o.
  destruct (f e) as [e'|]; [|by exists s1].
  pose proof (law_flush e' s1) as Hfl. specialize (Hr2 e' s1).
  destruct (db_flush db e' s1) as [s2 r]. simpl in *. rewrite Hr2 in Hfl |- *. exists s2. split; [done|].
  rewrite Hfl, Hv, (Hf e' eq_refl). f_equal. by eapply (law_view_id (db := db)).
Qed.

Lemma first_reliable {S} (db : eu_session S) view `{!SessionLaws db view} id s u e :
  reliable db -> coerce_uuid id = Some u -> view s !! u = Some e ->
  exists s', db_first db (coerce_uuid id) s = (s', Ok (Some e)) /\ view s' = view s.
Proof.
  intros [Hr _] -> He. pose proof (law_first (Some u) s) as Hv. pose proof (law_first_ok (Some u) s) as Hok.
  specialize (Hr (Some u) s). destruct (db_first db (Some u) s) as [s' [o|y]]; [|done].
  simpl in *. specialize (Hok o eq_refl). rewrite He in Hok. subst o. by exists s'.
Qed.

Lemma update_reliable {S} (db : eu_session S) view `{!SessionLaws db view} now id st s u e :
  reliable db -> coerce_uuid id = Some u -> view s !! u = Some e ->
  exists s', update_status db now id st s = (s', may_transition (eu_status e) st) /\
    view s' = if may_transition (eu_status e) st then <[u := set_status e st now]> (view s) else view s.
Proof.
  intros Hrel Hid He. unfold update_status.
  destruct (modify_reliable db view id
    (fun eu => if may_transition (eu_status eu) st then Some (set_status eu st now) else None)
    s u e Hrel Hid He) as (s'&Hm&Hv).
  - intros e'. destruct (may_transition _ _); [|done]. by intros [= <-].
  - exists s'. rewrite Hm. by destruct (may_transition (eu_status e) st).
Qed.

(** resuming a waiting unit.  On a session that answers, the unit ends in
    status executing without a wait condition and the call returns True; a second
    resume changes nothing and also returns True.  A failed or pending unit is
    left alone and the call returns False. *)
Theorem resume_execution_unit_spec {S} `{!IsoCodec} (db : eu_session S) view `{!SessionLaws db view} now now' id s u e :
  reliable db -> coerce_uuid id = Some u -> view s !! u = Some e ->
  (eu_status e = "waiting" ->
   exists s' e' s'', resume_execution_unit db now id s = (s', true) /\ view s' = <[u := e']> (view s) /\
     eu_status e' = "executing" /\ eu_wait_condition e' = None /\ eu_flow_run_id e' = eu_flow_run_id e /\
     resume_execution_unit db now' id s' = (s'', true) /\ view s'' = view s') /\
  (eu_status e = "failed" \/ eu_status e = "pending" ->
   exists s', resume_execution_unit db now id s = (s', false) /\ view s' = view s).
Proof.
  intros Hrel Hid He.
  pose proof (fun t x => first_reliable db view id t u x Hrel Hid) as Hfirst.
  pose proof (fun n t x st => update_reliable db view n id st t u x Hrel Hid) as Hupd.
  destruct (Hfirst s e He) as (s1&Hs1&Hv1).
  split; intros Hst; unfold resume_execution_unit; rewrite Hs1.
  - rewrite Hst. cbn -[update_status clear_wait].
    destruct (Hupd now s1 e "resumed") as (s2&Hs2&Hv2); [by rewrite Hv1|].
    rewrite Hst in Hs2, Hv2. change (may_transition "waiting" "resumed") with true in Hs2, Hv2.
    rewrite Hs2. cbv iota in Hv2 |- *. set (e1 := set_status e "resumed" now) in *.
    assert (exists s3 e2, clear_wait db now id s2 = s3 /\ view s3 = <[u := e2]> (view s) /\ eu_status e2 = "resumed" /\
      eu_wait_condition e2 = None /\ eu_flow_run_id e2 = eu_flow_run_id e) as (s3&e2&Hs3&Hv3&Hst2&Hw2&Hf2).
    { destruct (modify_reliable db view id (fun eu => match eu_wait_condition eu with Some _ => Some (set_wait eu None now) | None => None end)
        s2 u e1 Hrel Hid) as (s3&Hm&Hv3).
      - by rewrite Hv2, lookup_insert_eq.
      - intros e'. destruct (eu_wait_condition e1); [|done]. by intros [= <-].
      - exists s3. unfold clear_wait. rewrite Hm. cbn [fst].
        destruct (eu_wait_condition e1) as [wc|] eqn:Hwc.
        + exists (set_wait e1 None now). rewrite Hv3, Hv2, Hv1, insert_insert_eq. done.
        + exists e1. by rewrite Hv3, Hv2, Hv1. }
    rewrite Hs3. destruct (Hupd now s3 e2 "executing") as (s4&Hs4&Hv4); [by rewrite Hv3, lookup_insert_eq|].
    rewrite Hst2 in Hs4, Hv4. change (may_transition "resumed" "executing") with true in Hs4, Hv4. cbv iota in Hv4.
    destruct (Hfirst s4 (set_status e2 "executing" now)) as (s5&Hs5&Hv5); [by rewrite Hv4, lookup_insert_eq|].
    exists s4, (set_status e2 "executing" now), s5. rewrite Hs5.
    split_and!; try done. by rewrite Hv4, Hv3, insert_insert_eq.
  - destruct (Hupd now s1 e "resumed") as (s2&Hs2&Hv2); [by rewrite Hv1|].
    exists s2. destruct Hst as [Hst|Hst]; rewrite Hst in Hs2, Hv2 |- *; cbn -[update_status]; rewrite Hs2;
      (split; [done|by rewrite Hv2]).
Qed.

Lemma resume_execution_unit_spec_witness :
  exists s' e', resume_execution_unit map_session 3 (IdUuid (MkUUID 7))
      (demo_table "waiting" (Some (MkWcDict (Some "event") TNone (Some "go") None))) = (s', true) /\
    proj1_sig s' !! MkUUID 7 = Some e' /\ eu_status e' = "executing" /\ eu_wait_condition e' = None.
Proof.
  destruct (resume_execution_unit_spec map_session proj1_sig 3 4 (IdUuid (MkUUID 7))
    (demo_table "waiting" (Some (MkWcDict (Some "event") TNone (Some "go") None))) (MkUUID 7)
    (demo_unit "waiting" (Some (MkWcDict (Some "event") TNone (Some "go") None)))) as [H _].
  - by split.
  - reflexivity.
  - reflexivity.
  - destruct (H eq_refl) as (s'&e'&s''&H1&H2&H3&H4&_). exists s', e'. split; [exact H1|].
    rewrite H2, lookup_insert_eq. exact (conj eq_refl (conj H3 H4)).
Defined.
