(* ===== verification/FlowEngine.v ===== *)
(** * Flow engine ([AINDY/runtime/flow_engine/])

    A flow is a graph of nodes; [PersistentFlowRunner] executes one node after
    the other, checkpoints the run in the table [flow_runs] and appends to
    [flow_history].  [cfg] is that database state together with the resource
    manager, the execution units and the two local objects of [resume] (the
    state dictionary and the attempt counters); the methods are programs of the
    state and exception monad [M] over it.  The tables are finite maps whose
    commits succeed, except the commit of the claim, which may fail.  Runs and
    history are committed before every event is emitted; that a failed emission
    rolls back a change of an execution unit that was only flushed is left out.  Node
    functions, event emission, hooks, memory capture and the scheduler are
    parameters acting on the state [X] of the outside world.  Trace and parent
    context variables are set and reset around every call and are left out. *)
From S2P Require Import Prelude PyDatetime PyUuid Json RetryPolicy WaitCondition ResourceManager ExecutionUnit.
Local Open Scope Z_scope.

(** ** Flows *)

(** The edges of a node: targets, or conditions with targets.  A condition may raise. *)
Inductive edge_list :=
| Targets (l : list string)
| Conditions (l : list ((dict json -> result bool) * string)).

Record flow := MkFlow {
  fl_start : string;
  fl_edges : dict edge_list;
  fl_end : list string;
  fl_max_retries : dict Z    (* [node_configs[node]["max_retries"]] *)
}.

(** [compile_plan_to_flow] *)
Fixpoint compile_edges (steps : list string) (acc : dict edge_list) : dict edge_list :=
  match steps with
  | a :: ((b :: _) as rest) => compile_edges rest (dset acc a (Targets [b]))
  | _ => acc
  end.
Definition compile_plan_to_flow (steps : list string) : result flow :=
  match steps with
  | [] => Raise (Exn "ValueError" "Plan must have at least one step")
  | s :: _ => Ok (MkFlow s (compile_edges steps []) [List.last steps s] [])
  end.

(** [resolve_next_node] *)
Fixpoint first_condition (l : list ((dict json -> result bool) * string)) (st : dict json) : result (option string) :=
  match l with
  | [] => Ok None
  | (c, t) :: l' => match c st with
                    | Raise e => Raise e
                    | Ok true => Ok (Some t)
                    | Ok false => first_condition l' st
                    end
  end.
Definition resolve_next_node (node : string) (st : dict json) (f : flow) : result (option string) :=
  match dget (fl_edges f) node with
  | None => Ok None
  | Some (Targets l) => Ok (head l)
  | Some (Conditions l) => first_condition l st
  end.

(** ** Rows and messages *)
Record FlowRun := MkRun {
  fr_id : string;
  fr_flow_name : string;
  fr_workflow_type : option string;
  fr_state : dict json;
  fr_current_node : string;
  fr_status : string;
  fr_waiting_for : option string;
  fr_wait_deadline : option Z;
  fr_trace_id : option string;
  fr_user_id : option UUID;
  fr_job_log_id : option string;
  fr_error_message : option string;
  fr_completed_at : option Z
}.

Record FlowHistory := MkHistory {
  fh_run : string;
  fh_node : string;
  fh_status : string;
  fh_input : dict json;
  fh_patch : dict json;
  fh_time_ms : Z;
  fh_error : option string
}.

(** The dictionary a node returns; a missing key is [None]. *)
Record node_result := MkNodeResult {
  nr_status : option string;
  nr_patch : dict json;
  nr_error : option string;
  nr_wait_for : option string
}.

Record sys_event := MkEvent { ev_type : string; ev_run : string; ev_parent : option string; ev_payload : dict json }.

Record wait_request := MkWaitRequest {
  wr_run : string; wr_event : string; wr_tenant : string; wr_eu : string; wr_priority : string; wr_correlation : string
}.

(** [_format_execution_response]: the fields the engine chooses. *)
Record response := MkResponse {
  rs_status : string;
  rs_trace_id : string;
  rs_result : json;
  rs_events : list FlowHistory;
  rs_next_action : json;
  rs_run_id : string;
  rs_state : option (dict json)
}.

(** [_extract_next_action] *)
Definition extract_next_action (r : json) : json :=
  match r with
  | JObj d => if json_truthy (jget d "next_action") then jget d "next_action" else
              match jget d "orchestration" with
              | JObj o => if json_truthy (jget o "next_action") then jget o "next_action" else JNull
              | _ => JNull
              end
  | _ => JNull
  end.

(** [str] of a status value: a status that is not a text is not one of the
    names compared with below; only its texts and numbers are written out. *)
Definition status_text (j : json) : string :=
  match j with
  | JStr s => s | JInt z => Z_to_string z | JFloat t => t
  | JBool b => if b then "True" else "False" | JNull => "None" | JArr _ | JObj _ => dumps j
  end.
Definition or_text (j : json) (d : string) : string := if json_truthy j then status_text j else d.

(** [_extract_async_handoff]: status and job log id of an accepted asynchronous job. *)
Definition extract_async_handoff (r : json) : option (string * json) :=
  match r with
  | JObj d =>
      let found :=
        match jget d "_http_status", jget d "_http_response" with
        | JInt 202, JObj resp => Some (resp, str_upper (or_text (jget resp "status") "QUEUED"))
        | _, _ => let st := str_upper (or_text (jget d "status") "") in
                  if str_in st ["QUEUED"; "DEFERRED"] then Some (d, st) else None
        end in
      match found with
      | None => None
      | Some (resp, st) =>
          let data := match jget resp "data" with JObj x => x | _ => [] end in
          let nested := match jget data "result" with JObj x => x | _ => [] end in
          let job := if json_truthy (jget nested "job_log_id") then jget nested "job_log_id"
                     else if json_truthy (jget data "job_log_id") then jget data "job_log_id"
                     else jget resp "job_log_id" in
          Some (st, job)
      end
  | _ => None
  end.

(** ** The outside world of the engine *)
Section flow.
Context {X S : Type}.

(** A node function sees the state, which it may change in place, and the
    attempt number in its context. *)
Definition node_fn : Type := dict json -> Z -> X -> X * dict json * result node_result.

Record flow_services := MkFlowServices {
  fs_clock : X -> Z;
  fs_emit : sys_event -> X -> X * result (option string);
  fs_hook : string -> string -> X -> X;
  fs_register_wait : wait_request -> X -> X;
  fs_enrich : string -> string -> X -> X * result unit;
  fs_feedback : string -> string -> X -> X * result unit;
  fs_capture : string -> X -> X * result unit;
  fs_extractor : string -> option (dict json -> X -> X * result json);
  fs_result_key : string -> option string;
  fs_by_source : string -> S -> S * option UUID;
  fs_claim_commit : X -> X * bool;
  fs_nodes : dict node_fn;             (* [NODE_REGISTRY] *)
  fs_blocked : list string;            (* [POLICY["blocked_nodes"]] *)
  fs_timeout : string -> option Z;     (* [FLOW_REGISTRY[name]["wait_timeout_minutes"]] *)
  fs_default_timeout : Z               (* [settings.FLOW_WAIT_TIMEOUT_MINUTES] *)
}.

(** The runner object; [ru_tenant] is [None] until [start] set [_tenant_id]. *)
Record runner := MkRunner {
  ru_flow : flow;
  ru_user : option UUID;
  ru_workflow : option string;
  ru_job_log : option string;
  ru_priority : string;
  ru_eu : option UUID;
  ru_tenant : option string;
  ru_root : option string    (* [_root_event_id], set by [resume] *)
}.

Record cfg := MkCfg {
  c_runs : gmap string FlowRun;
  c_history : list FlowHistory;
  c_rm : rm X;
  c_units : S;
  c_state : dict json;
  c_attempts : dict Z
}.

Context (E : env X) (db : eu_session S) (sv : flow_services).

(** ** The monad of the engine *)
Definition M (A : Type) : Type := cfg -> cfg * result A.
#[global] Instance M_ret : MRet M := fun A a c => (c, Ok a).
#[global] Instance M_bind : MBind M := fun A B f m c =>
  match m c with (c', Ok a) => f a c' | (c', Raise e) => (c', Raise e) end.
#[global] Instance M_fmap : FMap M := fun A B f m c =>
  match m c with (c', Ok a) => (c', Ok (f a)) | (c', Raise e) => (c', Raise e) end.
Definition raise {A} (e : exn) : M A := fun c => (c, Raise e).
Definition gets {A} (f : cfg -> A) : M A := fun c => (c, Ok (f c)).
Definition modifies (f : cfg -> cfg) : M unit := fun c => (f c, Ok ()).
(** [try: m except Exception as e: h(e)] *)
Definition catch {A} (m : M A) (h : exn -> M A) : M A := fun c =>
  match m c with (c', Ok a) => (c', Ok a) | (c', Raise e) => h e c' end.

Definition set_runs (f : gmap string FlowRun -> gmap string FlowRun) (c : cfg) : cfg :=
  MkCfg (f (c_runs c)) (c_history c) (c_rm c) (c_units c) (c_state c) (c_attempts c).
Definition set_history (h : list FlowHistory) (c : cfg) : cfg :=
  MkCfg (c_runs c) h (c_rm c) (c_units c) (c_state c) (c_attempts c).
Definition set_rm (r : rm X) (c : cfg) : cfg :=
  MkCfg (c_runs c) (c_history c) r (c_units c) (c_state c) (c_attempts c).
Definition set_units (u : S) (c : cfg) : cfg :=
  MkCfg (c_runs c) (c_history c) (c_rm c) u (c_state c) (c_attempts c).
Definition set_locals (st : dict json) (at_ : dict Z) (c : cfg) : cfg :=
  MkCfg (c_runs c) (c_history c) (c_rm c) (c_units c) st at_.

Definition c_ext (c : cfg) : X := rm_ext (c_rm c).
Definition clock (c : cfg) : Z := fs_clock sv (c_ext c).

(** A call of the outside world *)
Definition call {A} (f : X -> X * result A) : M A := fun c =>
  let (x, r) := f (c_ext c) in (set_rm (with_ext (c_rm c) x) c, r).
Definition effect (f : X -> X) : M unit := modifies (fun c => set_rm (with_ext (c_rm c) (f (c_ext c))) c).
Definition on_rm {A} (f : Z -> rm X -> rm X * A) : M A := fun c =>
  let (r, a) := f (clock c) (c_rm c) in (set_rm r c, Ok a).
Definition emit (ty rid : string) (parent : option string) (payload : dict json) : M (option string) :=
  call (fs_emit sv (MkEvent ty rid parent payload)).
Definition update_run (rid : string) (f : FlowRun -> FlowRun) : M unit := modifies (set_runs (alter f rid)).
Definition load_run (rid : string) : M (option FlowRun) := gets (fun c => c_runs c !! rid).

(** Assignments to a row *)
Definition run_claimed (r : FlowRun) : FlowRun :=
  MkRun (fr_id r) (fr_flow_name r) (fr_workflow_type r) (fr_state r) (fr_current_node r) "executing" None None
    (fr_trace_id r) (fr_user_id r) (fr_job_log_id r) (fr_error_message r) (fr_completed_at r).
Definition run_waiting (ev : string) (deadline : Z) (node : string) (st : dict json) (r : FlowRun) : FlowRun :=
  MkRun (fr_id r) (fr_flow_name r) (fr_workflow_type r) st node "waiting" (Some ev) (Some deadline)
    (fr_trace_id r) (fr_user_id r) (fr_job_log_id r) (fr_error_message r) (fr_completed_at r).
Definition run_failed (msg : string) (now : Z) (r : FlowRun) : FlowRun :=
  MkRun (fr_id r) (fr_flow_name r) (fr_workflow_type r) (fr_state r) (fr_current_node r) "failed" None None
    (fr_trace_id r) (fr_user_id r) (fr_job_log_id r) (Some msg) (Some now).
Definition run_success (st : dict json) (now : Z) (r : FlowRun) : FlowRun :=
  MkRun (fr_id r) (fr_flow_name r) (fr_workflow_type r) st (fr_current_node r) "success" None None
    (fr_trace_id r) (fr_user_id r) (fr_job_log_id r) (fr_error_message r) (Some now).
Definition run_handoff (status : string) (st : dict json) (node : string) (job : json) (r : FlowRun) : FlowRun :=
  MkRun (fr_id r) (fr_flow_name r) (fr_workflow_type r) st node (str_lower status) None None (fr_trace_id r) (fr_user_id r)
    (if json_truthy job then Some (status_text job) else fr_job_log_id r) (fr_error_message r) (fr_completed_at r).
Definition run_at (node : string) (st : dict json) (r : FlowRun) : FlowRun :=
  MkRun (fr_id r) (fr_flow_name r) (fr_workflow_type r) st node (fr_status r) (fr_waiting_for r) (fr_wait_deadline r)
    (fr_trace_id r) (fr_user_id r) (fr_job_log_id r) (fr_error_message r) (fr_completed_at r).
Definition run_traced (st : dict json) (trace : option string) (r : FlowRun) : FlowRun :=
  MkRun (fr_id r) (fr_flow_name r) (fr_workflow_type r) st (fr_current_node r) (fr_status r) (fr_waiting_for r)
    (fr_wait_deadline r) trace (fr_user_id r) (fr_job_log_id r) (fr_error_message r) (fr_completed_at r).
Definition run_aborted (r : FlowRun) : FlowRun :=
  MkRun (fr_id r) (fr_flow_name r) (fr_workflow_type r) (fr_state r) (fr_current_node r) "failed" (fr_waiting_for r)
    (fr_wait_deadline r) (fr_trace_id r) (fr_user_id r) (fr_job_log_id r)
    (Some "ExecutionUnit creation failed - execution aborted") (fr_completed_at r).

(** ** Small helpers of the runner *)
Definition user_text (r : runner) : string := match ru_user r with Some u => uuid_to_string u | None => "" end.
Definition tenant (r : runner) : string := default (user_text r) (ru_tenant r).
Definition eu_text (r : runner) : string := match ru_eu r with Some u => uuid_to_string u | None => "" end.
Definition trace_or_id (run : FlowRun) : string := str_or (fr_trace_id run) (fr_id run).
Definition run_history (rid : string) (c : cfg) : list FlowHistory :=
  List.filter (fun h => fh_run h =s rid) (c_history c).

(** [_default_wait_deadline(_get_flow_wait_timeout(name))], in microseconds *)
Definition wait_deadline (name : string) (now : Z) : Z :=
  now + 60000000 * default (fs_default_timeout sv) (fs_timeout sv name).

(** [_format_execution_response] with the events of the run *)
Definition respond (status : string) (run : FlowRun) (res next : json) : M response :=
  c ← gets id;
  mret (MkResponse status (trace_or_id run) res (run_history (fr_id run) c) next (fr_id run) (Some (c_state c))).
(** The responses without events or state *)
Definition bare_response (status rid : string) (res : dict json) : response :=
  MkResponse status rid (JObj res) [] JNull rid None.

(** The update of the execution unit in the two end hooks, and the release of the slot *)
Definition finish_unit (r : runner) (rid status : string) : M unit := modifies (fun c =>
  let '(s, u) := match ru_eu r with Some u => (c_units c, Some u) | None => fs_by_source sv rid (c_units c) end in
  set_units (match u with Some u => (update_status db (clock c) (IdUuid u) status s).1 | None => s end) c).
Definition release_slot (r : runner) : M unit :=
  on_rm (fun now s => (mark_completed E now (tenant r) (uuid_to_string <$> ru_eu r) s, ())).

(** [fail_execution] *)
Definition fail_execution (r : runner) (run : FlowRun) (msg node : string) (parent : option string) : M response :=
  now ← gets clock;
  _ ← update_run (fr_id run) (run_failed msg now);
  _ ← finish_unit r (fr_id run) "failed";
  _ ← release_slot r;
  _ ← effect (fs_hook sv "execution.failed" (fr_id run));
  _ ← emit "execution.failed" (fr_id run) (ru_root r) [("failed_node", JStr node); ("error", JStr msg)];
  _ ← emit "error.execution" (fr_id run) parent [("failed_node", JStr node); ("message", JStr msg)];
  respond "FAILED" run (JObj [("error", JStr msg); ("failed_node", JStr node)]) JNull.

(** ** Claiming a waiting run: [_claim_waiting_run]

    [seen] is the status the caller has read.  The conditional UPDATE touches
    the row only when it is still waiting, and is rolled back when its commit
    fails.  [None] means that the caller goes on. *)
Definition claim_waiting_run (rid seen : string) : M (option response) :=
  if negb (seen =s "waiting") then mret None else
  waiting ← gets (fun c => match c_runs c !! rid with Some run => fr_status run =s "waiting" | None => false end);
  ok ← call (fun x => let (x', b) := fs_claim_commit sv x in (x', Ok b));
  if negb ok then mret (Some (bare_response "SKIPPED" rid
      [("skipped", JBool true); ("reason", JStr "claim commit failed - concurrent resume likely")]))
  else if waiting : bool then _ ← update_run rid run_claimed; mret None
  else mret (Some (bare_response "SKIPPED" rid
      [("skipped", JBool true); ("reason", JStr "already claimed by another instance")])).

(** ** Executing a node *)

(** [execute_node]: the state is changed in place, and the attempt is counted
    before the node runs. *)
Definition execute_node (rid node : string) : M (node_result * Z) :=
  if str_in node (fs_blocked sv) then raise (Exn "PermissionError" ("Node '" +:+ node +:+ "' is blocked by policy")) else
  match dget (fs_nodes sv) node with
  | None => raise (Exn "KeyError" (String dquote ("Node '" +:+ node +:+ "' not in registry. Available: " +:+
              py_repr_list (dkeys (fs_nodes sv)) +:+ String dquote "")))
  | Some f =>
      c ← gets id;
      let attempt := default 0 (dget (c_attempts c) node) + 1 in
      _ ← modifies (set_locals (c_state c) (dset (c_attempts c) node attempt));
      _ ← call (fs_enrich sv rid node);
      t0 ← gets clock;
      res ← (fun c => let '(x, st, res) := f (c_state c) attempt (c_ext c) in
                      (set_locals st (c_attempts c) (set_rm (with_ext (c_rm c) x) c), res)) : M node_result;
      t1 ← gets clock;
      _ ← call (fs_feedback sv rid (match nr_status res with
                                    | Some s => if s =s "SUCCESS" then "success" else if s =s "FAILURE" then "failure" else "neutral"
                                    | None => "neutral"
                                    end));
      mret (res, t1 / 1000 - t0 / 1000)
  end.

(** [_check_resources]; import and attribute errors skip the check. *)
Definition park (r : runner) (run : FlowRun) (ev node tenant : string) : M unit :=
  c ← gets id;
  _ ← update_run (fr_id run) (run_waiting ev (wait_deadline (fr_flow_name run) (clock c)) node (c_state c));
  effect (fs_register_wait sv (MkWaitRequest (fr_id run) ev tenant (eu_text r) (ru_priority r) (trace_or_id run))).
Definition check_resources (r : runner) (run : FlowRun) (node : string) (parent : option string) : M (option response) :=
  catch (
    refused ← on_rm (fun now => can_execute E now (tenant r));
    match refused with
    | Some reason =>
        _ ← park r run "resource_available" node (tenant r);
        Some <$> respond "WAITING" run (JObj [("waiting_for", JStr "resource_available"); ("reason", JStr reason)]) JNull
    | None =>
        quota ← (fun c => let (s, q) := check_quota E (clock c) (eu_text r) (c_rm c) in (set_rm s c, q)) : M (option string);
        match quota with
        | Some reason => Some <$> fail_execution r run reason node parent
        | None => mret None
        end
    end)
    (fun e => if str_in (exn_class e) ["ImportError"; "AttributeError"] then mret None else raise e).

(** [_record_resource_usage]; exceptions are logged. *)
Definition record_resource_usage (r : runner) (ms : Z) : M unit :=
  if truthy (eu_text r) then modifies (fun c => set_rm (record_usage E (eu_text r) ms 0 0 (c_rm c)).1 c) else mret ().

(** [_execute_current_node]: a response ends [resume], otherwise the result and its duration.
    Whatever the node raises fails the run. *)
Definition execute_current_node (r : runner) (run : FlowRun) (node : string) (started : option string)
    : M (response + node_result * Z) :=
  stop ← check_resources r run node started;
  match stop with
  | Some resp => mret (inl resp)
  | None =>
      t0 ← gets clock;
      res ← catch (inr <$> execute_node (fr_id run) node) (fun e => mret (inl e));
      match res with
      | inl e =>
          _ ← emit "flow.node.failed" (fr_id run) started [("node", JStr node); ("error", JStr (exn_msg e))];
          inl <$> fail_execution r run (exn_msg e) node started
      | inr (nres, d) =>
          t1 ← gets clock;
          let ms := if d =? 0 then (t1 - t0) / 1000 else d in
          _ ← record_resource_usage r ms;
          mret (inr (nres, ms))
      end
  end.

(** ** Completion *)

(** [_extract_execution_result] *)
Definition extract_execution_result (workflow : option string) : M json :=
  let name := str_or workflow "" in
  st ← gets c_state;
  match fs_extractor sv name with
  | Some f => call (f st)
  | None => mret (match str_or_none (fs_result_key sv name) with
                  | Some k => match dget st k with Some v => v | None => JObj st end
                  | None => JObj st
                  end)
  end.

(** The text stored by [capture_flow_completion] *)
Definition completion_content (run : FlowRun) (workflow : string) (h : list FlowHistory) : string :=
  "Flow '" +:+ fr_flow_name run +:+ "' (" +:+ workflow +:+ ") completed: " +:+
  str_join " -> " (map (fun i => fh_node i +:+ "(" +:+ Z_to_string (fh_time_ms i) +:+ "ms)") h) +:+ ". " +:+
  Z_to_string (Z.of_nat (length (List.filter (fun i => fh_status i =s "SUCCESS") h))) +:+ "/" +:+
  Z_to_string (Z.of_nat (length h)) +:+ " nodes succeeded, " +:+
  Z_to_string (foldr Z.add 0 (map fh_time_ms h)) +:+ "ms total.".

(** [capture_flow_completion]: the memory capture, the end of the execution unit
    and the release of the slot; nothing of it happens without a user, a
    workflow type and a history. *)
Definition capture_flow_completion (r : runner) (run : FlowRun) : M unit :=
  match ru_user r, str_or_none (ru_workflow r) with
  | Some _, Some wf =>
      catch (
        h ← gets (run_history (fr_id run));
        match h with
        | [] => mret ()
        | _ =>
            _ ← call (fs_capture sv (completion_content run wf h));
            _ ← finish_unit r (fr_id run) "completed";
            release_slot r
        end)
        (fun e => _ ← emit "error.memory_capture" (fr_id run) None [("message", JStr (exn_msg e))]; mret ())
  | _, _ => mret ()
  end.

(** [maybe_finalize_completion]: [None] when the node is not an end node. *)
Definition finalize_handoff (run : FlowRun) (node status : string) (job res : json) : M response :=
  c ← gets id;
  match c_runs c !! fr_id run with
  | None => raise (Exn "RuntimeError" ("FlowRun " +:+ fr_id run +:+ " not found during async handoff finalization"))
  | Some _ =>
      _ ← update_run (fr_id run) (run_handoff status (c_state c) node job);
      respond status run res (extract_next_action res)
  end.
Definition finalize_success (r : runner) (run : FlowRun) (res : json) : M response :=
  _ ← capture_flow_completion r run;
  c ← gets id;
  _ ← update_run (fr_id run) (run_success (c_state c) (clock c));
  _ ← effect (fs_hook sv "execution.completed" (fr_id run));
  _ ← emit "execution.completed" (fr_id run) (ru_root r) [("result", res)];
  respond "SUCCESS" run res (extract_next_action res).
Definition maybe_finalize_completion (r : runner) (run : FlowRun) (node : string) (started : option string)
    : M (option response) :=
  if negb (str_in node (fl_end (ru_flow r))) then mret None else
  Some <$> catch (
    res ← extract_execution_result (ru_workflow r);
    match extract_async_handoff res with
    | Some (status, job) => finalize_handoff run node status job res
    | None => finalize_success r run res
    end)
    (fun e => fail_execution r run ("Completion finalization failed: " +:+ exn_msg e) node started).

(** ** One turn of the loop *)
Inductive handled := Respond (resp : response) | RetryNode | GoOn.

(** The attempts a node may use in one [resume] *)
Definition node_max_attempts (f : flow) (node : string) : Z :=
  max_attempts (resolve_retry_policy (Some "flow") None (dget (fl_max_retries f) node) None).

(** [_handle_node_status]; [dict.update] keeps the order of existing keys. *)
Definition dict_update (d patch : dict json) : dict json := foldl (fun acc kv => dset acc kv.1 kv.2) d patch.
Definition handle_node_status (r : runner) (run : FlowRun) (node : string) (res : node_result) (status : string)
    (started : option string) : M handled :=
  let finalize := o ← maybe_finalize_completion r run node started;
                  mret (match o with Some resp => Respond resp | None => GoOn end) in
  if status =s "SUCCESS" then
    _ ← modifies (fun c => set_locals (dict_update (c_state c) (nr_patch res)) (c_attempts c) c);
    finalize
  else if status =s "RETRY" then
    attempts ← gets (fun c => default 0 (dget (c_attempts c) node));
    if attempts <? node_max_attempts (ru_flow r) node then mret RetryNode
    else Respond <$> fail_execution r run ("Node " +:+ node +:+ " failed after " +:+ Z_to_string attempts +:+ " retries") node started
  else if status =s "FAILURE" then
    Respond <$> fail_execution r run (default ("Node " +:+ node +:+ " failed") (nr_error res)) node started
  else if status =s "WAIT" then
    match str_or_none (nr_wait_for res) with
    | None => Respond <$> fail_execution r run ("Node " +:+ node +:+ " returned WAIT without wait_for") node started
    | Some ev =>
        _ ← park r run ev node (user_text r);
        _ ← emit "flow.waiting" (fr_id run) started [("node", JStr node); ("waiting_for", JStr ev)];
        Respond <$> respond "WAITING" run (JObj [("waiting_for", JStr ev)]) JNull
    end
  else finalize.

(** [_advance_to_next_node] *)
Definition advance_to_next_node (r : runner) (run : FlowRun) (node : string) (started : option string)
    : M (response + string) :=
  st ← gets c_state;
  next ← (fun c => (c, resolve_next_node node st (ru_flow r))) : M (option string);
  match str_or_none next with
  | None => inl <$> fail_execution r run ("No next node from " +:+ node +:+ " - flow graph incomplete") node started
  | Some n => _ ← update_run (fr_id run) (run_at n st); mret (inr n)
  end.

Definition missing_run (rid when : string) : response :=
  bare_response "FAILED" rid [("error", JStr ("FlowRun " +:+ rid +:+ " " +:+ when))].

(** The second half of the loop body, after the node has run *)
Definition settle_node (r : runner) (run : FlowRun) (node : string) (input : dict json) (nres : node_result) (ms : Z)
    (started : option string) : M (response + string) :=
  match nr_status nres with
  | None => raise (Exn "KeyError" "'status'")
  | Some status =>
      _ ← modifies (fun c => set_history (c_history c ++
            [MkHistory (fr_id run) node status input (nr_patch nres) ms (nr_error nres)]) c);
      _ ← emit (if str_in status ["SUCCESS"; "WAIT"] then "flow.node.completed" else "flow.node.failed")
            (fr_id run) started [("node", JStr node); ("status", JStr status)];
      h ← handle_node_status r run node nres status started;
      match h with
      | Respond resp => mret (inl resp)
      | RetryNode => mret (inr node)
      | GoOn => advance_to_next_node r run node started
      end
  end.

(** The loop body: a response, or the node of the next turn. *)
Definition loop_body (r : runner) (rid node : string) : M (response + string) :=
  o ← load_run rid;
  match o with
  | None => mret (inl (missing_run rid "disappeared during execution"))
  | Some run =>
      input ← gets c_state;
      started ← emit "flow.node.started" rid (ru_root r) [("node", JStr node)];
      ex ← execute_current_node r run node started;
      match ex with
      | inl resp => mret (inl resp)
      | inr (nres, ms) =>
          o ← load_run rid;
          match o with
          | None => mret (inl (missing_run rid "disappeared after node execution"))
          | Some run => settle_node r run node input nres ms started
          end
      end
  end.

(** [while True]; [None] when the fuel is used up. *)
Fixpoint run_loop (fuel : nat) (r : runner) (rid node : string) : M (option response) :=
  match fuel with
  | O => mret None
  | Datatypes.S n =>
      next ← loop_body r rid node;
      match next with
      | inl resp => mret (Some resp)
      | inr node' => run_loop n r rid node'
      end
  end.

(** ** [resume] and [start] *)
Definition event_id (st : dict json) : option string := match dget st "root_event_id" with Some (JStr e) => Some e | _ => None end.
Definition with_root (r : runner) (root : option string) : runner :=
  MkRunner (ru_flow r) (ru_user r) (ru_workflow r) (ru_job_log r) (ru_priority r) (ru_eu r) (ru_tenant r) root.

(** [ctx_trace] is the trace of the calling context, [get_trace_id()]. *)
Definition resume (fuel : nat) (ctx_trace : option string) (r : runner) (rid : string) : M (option response) :=
  o ← load_run rid;
  match o with
  | None => mret (Some (missing_run rid "not found"))
  | Some run =>
      claim ← claim_waiting_run rid (fr_status run);
      match claim with
      | Some resp => mret (Some resp)
      | None =>
          let st0 := fr_state run in
          let traced := json_truthy (jget st0 "trace_id") in
          let trace := str_or (fr_trace_id run) (str_or ctx_trace rid) in
          let st := if traced then st0 else dset st0 "trace_id" (JStr trace) in
          _ ← modifies (set_locals st []);
          _ ← (if traced then mret () else
                 update_run rid (run_traced st (match str_or_none (fr_trace_id run) with Some t => Some t | None => Some trace end)));
          run_loop fuel (with_root r (event_id st)) rid (fr_current_node run)
      end
  end.

(** [_initialize_execution_unit]; [fresh] is the id of the new unit. *)
Definition initialize_execution_unit (fresh : UUID) (r : runner) (rid : string) : M runner :=
  c ← gets id;
  let t := user_text r in
  let user := match ru_user r with Some u => IdUuid u | None => IdNone end in
  match create db fresh (clock c) "flow" user (Some "flow_run") (Some rid) IdNone (Some rid) None "executing" (c_units c) with
  | (s, None) =>
      _ ← modifies (set_units s);
      _ ← update_run rid run_aborted;
      raise (Exn "RuntimeError" ("ExecutionUnit creation returned None for flow_run=" +:+ py_repr rid))
  | (s, Some eu) =>
      _ ← modifies (set_units s);
      _ ← on_rm (fun now s => (mark_started E now t (Some (uuid_to_string (eu_id eu))) s, ()));
      mret (MkRunner (ru_flow r) (ru_user r) (ru_workflow r) (ru_job_log r) (ru_priority r) (Some (eu_id eu)) (Some t) (ru_root r))
  end.

(** [start]; [rid], [trace] and [fresh] are the generated ids ([trace] is what
    [ensure_trace_id] returns, never empty). *)
Definition start (fuel : nat) (rid trace : string) (fresh : UUID) (r : runner) (initial : dict json) (name : string)
    : M (option response) :=
  _ ← modifies (set_runs (insert rid (MkRun rid name (ru_workflow r) initial (fl_start (ru_flow r)) "running" None None
        (Some trace) (ru_user r) (ru_job_log r) None None)));
  r' ← initialize_execution_unit fresh r rid;
  let st := if json_truthy (jget initial "trace_id") then initial else dset initial "trace_id" (JStr trace) in
  _ ← update_run rid (run_traced st (Some trace));
  root ← emit "execution.started" rid None [("flow_name", JStr name); ("current_node", JStr (fl_start (ru_flow r)))];
  _ ← match str_or_none root with
      | Some e => update_run rid (run_traced (dset st "root_event_id" (JStr e)) (Some trace))
      | None => mret ()
      end;
  resume fuel (Some trace) r' rid.
End flow.
