(* ===== verification/FlowFacts.v ===== *)
(** * Theorems on the flow engine

    A weakest-precondition calculus for the programs of [FlowEngine.M] and the
    properties proved with it: the shape of the recorded history, termination,
    completion of linear plans, exclusive claims, and the accounting of the
    concurrency slots. *)
From S2P Require Import Prelude PyUuid Json RetryPolicy ResourceManager ExecutionUnit FlowEngine.
Local Open Scope Z_scope.

(** ** Weakest preconditions *)
Section wp.
Context {X S : Type}.
Local Abbreviation cfg := (@cfg X S).
Local Abbreviation M := (@M X S).
Implicit Types (c : cfg).

Definition wp {A} (m : M A) (Q : cfg -> result A -> Prop) (c : cfg) : Prop := Q (m c).1 (m c).2.

Lemma flow_wp_mono {A} (m : M A) (P Q : cfg -> result A -> Prop) c :
  wp m P c -> (forall c' r, P c' r -> Q c' r) -> wp m Q c.
Proof. unfold wp. auto. Qed.

Lemma flow_wp_ret {A} (a : A) (Q : cfg -> result A -> Prop) c : Q c (Ok a) -> wp (mret a : M A) Q c.
Proof. done. Qed.

Lemma flow_wp_bind {A B} (m : M A) (f : A -> M B) (Q : cfg -> result B -> Prop) c :
  wp m (fun c' r => match r with Ok a => wp (f a) Q c' | Raise e => Q c' (Raise e) end) c ->
  wp (m ≫= f) Q c.
Proof. unfold wp, mbind, M_bind. by destruct (m c) as [c' [a|e]]. Qed.

Lemma flow_wp_fmap {A B} (f : A -> B) (m : M A) (Q : cfg -> result B -> Prop) c :
  wp m (fun c' r => match r with Ok a => Q c' (Ok (f a)) | Raise e => Q c' (Raise e) end) c ->
  wp (f <$> m) Q c.
Proof. unfold wp, fmap, M_fmap. by destruct (m c) as [c' [a|e]]. Qed.

Lemma wp_catch {A} (m : M A) (h : exn -> M A) (Q : cfg -> result A -> Prop) c :
  wp m (fun c' r => match r with Ok a => Q c' (Ok a) | Raise e => wp (h e) Q c' end) c -> wp (catch m h) Q c.
Proof. unfold wp, catch. by destruct (m c) as [c' [a|e]]. Qed.

(** ** Programs that respect a preorder on configurations *)
Definition keeps {A} (R : relation cfg) (m : M A) : Prop := forall c, R c (m c).1.

Section keeps.
Context (R : relation cfg) `{!PreOrder R}.
Lemma keeps_ret {A} (a : A) : keeps R (mret a : M A).
Proof. intros c. done. Qed.
Lemma keeps_raise {A} e : keeps R (raise e : M A).
Proof. intros c. done. Qed.
Lemma keeps_gets {A} (f : cfg -> A) : keeps R (gets f).
Proof. intros c. done. Qed.
Lemma keeps_pure {A} (r : result A) : keeps R ((fun c => (c, r)) : M A).
Proof. intros c. done. Qed.
Lemma keeps_bind {A B} (m : M A) (f : A -> M B) : keeps R m -> (forall a, keeps R (f a)) -> keeps R (m ≫= f).
Proof.
  intros Hm Hf c. unfold mbind, M_bind. specialize (Hm c). destruct (m c) as [c' [a|e]]; [|done].
  etrans; [exact Hm|apply Hf].
Qed.
Lemma keeps_fmap {A B} (f : A -> B) (m : M A) : keeps R m -> keeps R (f <$> m).
Proof. intros Hm c. unfold fmap, M_fmap. specialize (Hm c). by destruct (m c) as [c' [a|e]]. Qed.
Lemma keeps_catch {A} (m : M A) (h : exn -> M A) : keeps R m -> (forall e, keeps R (h e)) -> keeps R (catch m h).
Proof.
  intros Hm Hh c. unfold catch. specialize (Hm c). destruct (m c) as [c' [a|e]]; [done|].
  etrans; [exact Hm|apply Hh].
Qed.
End keeps.

Lemma wp_keeps {A} R (m : M A) (Q : cfg -> result A -> Prop) c :
  keeps R m -> (forall c' r, R c c' -> Q c' r) -> wp m Q c.
Proof. intros Hm HQ. apply HQ, Hm. Qed.

(** The log of a run: history and attempt counters *)
Definition same_log (c c' : cfg) : Prop := c_history c' = c_history c /\ c_attempts c' = c_attempts c.
#[export] Instance same_log_preorder : PreOrder same_log.
Proof. split; [done|]. intros a b d [H1 H2] [H3 H4]. split; congruence. Qed.

(** The rows of [flow_runs] are stored under their ids. *)
Definition keyed c : Prop := forall k run, c_runs c !! k = Some run -> fr_id run = k.
Definition keeps_keyed (c c' : cfg) : Prop := keyed c -> keyed c'.
#[export] Instance keeps_keyed_preorder : PreOrder keeps_keyed.
Proof. split; [intros a Ha; exact Ha|]. intros a b d H1 H2 H. exact (H2 (H1 H)). Qed.
Lemma same_runs_keyed c c' : c_runs c' = c_runs c -> keeps_keyed c c'.
Proof. unfold keeps_keyed, keyed. by intros ->. Qed.
End wp.

Create HintDb keeps discriminated.
#[export] Hint Resolve keeps_ret keeps_raise keeps_gets keeps_pure : keeps.
#[export] Hint Extern 1 (PreOrder _) => apply _ : keeps.

(** Decompose a program and close its atomic parts with the hints. *)
Ltac keeps_auto :=
  repeat lazymatch goal with
  | |- PreOrder _ => apply _
  | |- forall _, _ => intros ?
  | |- keeps _ (_ ≫= _) => apply keeps_bind
  | |- keeps _ (_ <$> _) => apply keeps_fmap
  | |- keeps _ (catch _ _) => apply keeps_catch
  | |- keeps _ (match ?x with _ => _ end) => destruct x
  | |- keeps _ _ => solve [auto with keeps]
  end.

Section log.
Context {X S : Type} (E : env X) (db : eu_session S) (sv : @flow_services X S).
Local Abbreviation cfg := (@cfg X S).
Implicit Types (c : cfg) (r : runner).

Lemma call_log {A} (f : X -> X * result A) : keeps same_log (call (S := S) f).
Proof. intros c. unfold call. by destruct (f (c_ext c)). Qed.
Lemma effect_log (f : X -> X) : keeps same_log (effect (S := S) f).
Proof. intros c. done. Qed.
Lemma on_rm_log {A} (f : Z -> rm X -> rm X * A) : keeps same_log (on_rm (S := S) sv f).
Proof. intros c. unfold on_rm. by destruct (f _ _). Qed.
Lemma emit_log ty rid p pl : keeps same_log (emit (S := S) sv ty rid p pl).
Proof. apply call_log. Qed.
Lemma update_run_log rid f : keeps same_log (update_run (X := X) (S := S) rid f).
Proof. intros c. done. Qed.
Lemma load_run_log rid : keeps same_log (load_run (X := X) (S := S) rid).
Proof. intros c. done. Qed.
Lemma finish_unit_log r rid st : keeps same_log (finish_unit db sv r rid st).
Proof. intros c. unfold finish_unit. simpl. by destruct (match ru_eu r with Some _ => _ | None => _ end) as [? [?|]]. Qed.
Lemma respond_log st run a b : keeps same_log (respond (X := X) (S := S) st run a b).
Proof. intros c. done. Qed.
#[local] Hint Resolve call_log effect_log on_rm_log emit_log update_run_log load_run_log finish_unit_log respond_log : keeps.

Lemma fail_execution_log r run msg node p : keeps same_log (fail_execution E db sv r run msg node p).
Proof. unfold fail_execution, release_slot. keeps_auto. Qed.
#[local] Hint Resolve fail_execution_log : keeps.

Lemma park_log r run ev node t : keeps same_log (park sv r run ev node t).
Proof. unfold park. keeps_auto. Qed.
#[local] Hint Resolve park_log : keeps.

Lemma check_quota_log eu :
  keeps same_log ((fun c => let (s, q) := check_quota E (clock sv c) eu (c_rm c) in (set_rm s c, q)) : FlowEngine.M (option string)).
Proof. intros c. simpl. by destruct (check_quota _ _ _ _). Qed.
#[local] Hint Resolve check_quota_log : keeps.

Lemma check_resources_log r run node p : keeps same_log (check_resources E db sv r run node p).
Proof. unfold check_resources. keeps_auto. Qed.
#[local] Hint Resolve check_resources_log : keeps.

Lemma maybe_finalize_log r run node p : keeps same_log (maybe_finalize_completion E db sv r run node p).
Proof.
  unfold maybe_finalize_completion, extract_execution_result, finalize_handoff, finalize_success,
    capture_flow_completion, release_slot. keeps_auto.
Qed.

(** ** What one turn adds to the log *)

(** An execution of [node] was counted. *)
Definition counted (node : string) c c' : Prop :=
  c_history c' = c_history c /\
  c_attempts c' = dset (c_attempts c) node (default 0 (dget (c_attempts c) node) + 1).

Lemma counted_log node c1 c2 c3 : counted node c1 c2 -> same_log c2 c3 -> counted node c1 c3.
Proof. intros [H1 H2] [H3 H4]. split; congruence. Qed.
Lemma log_counted node c1 c2 c3 : same_log c1 c2 -> counted node c2 c3 -> counted node c1 c3.
Proof. intros [H1 H2] [H3 H4]. rewrite H1 in H3. rewrite H2 in H4. by split. Qed.

Lemma execute_node_log rid node c :
  wp (execute_node sv rid node)
    (fun c' res => c_history c' = c_history c /\ (is_ok res = true -> counted node c c')) c.
Proof.
  unfold execute_node. destruct (str_in _ _); [done|]. destruct (dget _ node) as [f|]; [|done].
  apply flow_wp_bind. cbn. apply flow_wp_bind. cbn. set (c0 := set_locals _ _ c).
  assert (counted node c c0) as H0 by done. clearbody c0.
  apply flow_wp_bind. eapply wp_keeps; [apply call_log|]. intros c1 [_|e] H1; [|split; [|done]; destruct H0, H1; congruence].
  apply (counted_log _ _ _ _ H0) in H1. clear H0 c0.
  apply flow_wp_bind. cbn. apply flow_wp_bind. unfold wp.
  destruct (f _ _ _) as [[x st] [nres|e]]; cbn; [|split; [|done]; apply H1].
  set (c2 := set_locals _ _ _). assert (counted node c c2) as H2 by (split; apply H1). clearbody c2.
  change (wp (t1 ← gets (clock sv); _ ← call (fs_feedback sv rid (match nr_status nres with
            | Some s => if s =s "SUCCESS" then "success" else if s =s "FAILURE" then "failure" else "neutral"
            | None => "neutral" end)); mret (nres, t1 / 1000 - clock sv c1 / 1000))
    (fun c' res => c_history c' = c_history c /\ (is_ok res = true -> counted node c c')) c2).
  apply flow_wp_bind. cbn. apply flow_wp_bind. eapply wp_keeps; [apply call_log|].
  intros c3 res H3. apply (counted_log _ _ _ _ H2) in H3. destruct res; cbn; split; try done; apply H3.
Qed.

Lemma record_usage_log r ms : keeps same_log (record_resource_usage (S := S) E r ms).
Proof. unfold record_resource_usage. destruct (truthy _); intros c; done. Qed.

Lemma execute_current_node_log r run node p c :
  wp (execute_current_node E db sv r run node p)
    (fun c' res => c_history c' = c_history c /\
       match res with Ok (inr _) => counted node c c' | _ => True end) c.
Proof.
  unfold execute_current_node. apply flow_wp_bind. eapply wp_keeps; [apply check_resources_log|].
  intros c1 [[resp|]|e] [Hh Ha]; cbn; [by split..| |by split].
  apply flow_wp_bind. cbn. apply flow_wp_bind, wp_catch, flow_wp_fmap.
  eapply flow_wp_mono; [apply execute_node_log|]. intros c2 [nd|e] [Hh2 Hc]; cbn.
  - destruct nd as [nres d]. apply flow_wp_bind. cbn. apply flow_wp_bind. eapply wp_keeps; [apply record_usage_log|].
    intros c3 [[]|e'] H3; [apply flow_wp_ret|]; (split; [destruct H3; congruence|]); [|done].
    eapply log_counted; [by split|]. eapply counted_log; [by apply Hc|done].
  - apply flow_wp_bind. eapply wp_keeps; [apply emit_log|]. intros c3 [i|e'] [H3 _]; cbn; [|split; [congruence|done]].
    apply flow_wp_fmap. eapply wp_keeps; [apply fail_execution_log|].
    intros c4 [resp|e'] [H4 _]; (split; [congruence|done]).
Qed.

(** A turn of the loop from [node]: what it appends to the history, and, when
    the loop goes on, why it goes on at [n']. *)
Definition goes_on (f : flow) (node n' : string) (h : FlowHistory) (attempts : Z) : Prop :=
  (n' = node /\ fh_status h = "RETRY" /\ attempts < node_max_attempts f node) \/
  (str_in (fh_status h) ["RETRY"; "FAILURE"; "WAIT"] = false /\ str_in node (fl_end f) = false /\
   exists st, resolve_next_node node st f = Ok (Some n')).

Definition turn_log (f : flow) (rid node : string) c c' (res : result (response + string)) : Prop :=
  match res with
  | Ok (inr n') => exists h, c_history c' = c_history c ++ [h] /\ fh_run h = rid /\ fh_node h = node /\
      c_attempts c' = dset (c_attempts c) node (default 0 (dget (c_attempts c) node) + 1) /\
      goes_on f node n' h (default 0 (dget (c_attempts c) node) + 1)
  | _ => c_history c' = c_history c \/
      exists h, c_history c' = c_history c ++ [h] /\ fh_run h = rid /\ fh_node h = node
  end.

Lemma advance_log r run node p c :
  wp (advance_to_next_node E db sv r run node p)
    (fun c' res => same_log c c' /\
       match res with Ok (inr n') => exists st, resolve_next_node node st (ru_flow r) = Ok (Some n') | _ => True end) c.
Proof.
  unfold advance_to_next_node. apply flow_wp_bind. cbn. apply flow_wp_bind. unfold wp.
  destruct (resolve_next_node node (c_state c) (ru_flow r)) as [o|e] eqn:Hn; cbn; [|done].
  destruct (str_or_none o) as [n|] eqn:Ho.
  - cbn. split; [done|]. exists (c_state c). apply str_or_none_Some in Ho as [-> _]. done.
  - unfold fmap, M_fmap. pose proof (fail_execution_log r run ("No next node from " +:+ node +:+ " - flow graph incomplete") node p c) as H.
    destruct (fail_execution _ _ _ _ _ _ _ _ c) as [c' [resp|e]]; by split.
Qed.

Definition handled_log r (node status : string) c c' (res : result handled) : Prop :=
  same_log c c' /\
  match res with
  | Ok RetryNode => status = "RETRY" /\ default 0 (dget (c_attempts c) node) < node_max_attempts (ru_flow r) node
  | Ok GoOn => str_in status ["RETRY"; "FAILURE"; "WAIT"] = false /\ str_in node (fl_end (ru_flow r)) = false
  | _ => True
  end.

Lemma handle_log r run node nres status p c :
  wp (handle_node_status E db sv r run node nres status p)
    (handled_log r node status c) c.
Proof.
  assert (forall c1, same_log c c1 -> str_in status ["RETRY"; "FAILURE"; "WAIT"] = false ->
    wp (o ← maybe_finalize_completion E db sv r run node p;
        mret (match o with Some resp => Respond resp | None => GoOn end))
      (handled_log r node status c) c1) as Hfin.
  { intros c1 H1 Hst. apply flow_wp_bind. pose proof (maybe_finalize_log r run node p c1) as Hk. unfold wp.
    destruct (maybe_finalize_completion E db sv r run node p c1) as [c2 [o|e]] eqn:Hm; cbn in *;
      (split; [by etrans|]); [|done].
    destruct o as [resp|]; [done|]. split; [done|]. unfold maybe_finalize_completion in Hm.
    destruct (str_in node (fl_end (ru_flow r))); [|done]. cbn in Hm. unfold fmap, M_fmap in Hm.
    by destruct (catch _ _ c1) as [? [?|?]]. }
  assert (forall msg, wp (Respond <$> fail_execution E db sv r run msg node p)
    (handled_log r node status c) c) as Hfail.
  { intros msg. apply flow_wp_fmap. eapply wp_keeps; [apply fail_execution_log|]. intros c' [?|?] ?; by split. }
  unfold handle_node_status. destruct (status =s "SUCCESS") eqn:H1.
  { apply String.eqb_eq in H1 as ->. apply flow_wp_bind. cbn. by apply Hfin. }
  destruct (status =s "RETRY") eqn:H2.
  { apply String.eqb_eq in H2 as ->. apply flow_wp_bind. cbn.
    destruct (Z.ltb_spec (default 0 (dget (c_attempts c) node)) (node_max_attempts (ru_flow r) node)); [done|apply Hfail]. }
  destruct (status =s "FAILURE") eqn:H3; [apply Hfail|].
  destruct (status =s "WAIT") eqn:H4.
  { destruct (str_or_none _) as [ev|]; [|apply Hfail]. apply flow_wp_bind. eapply wp_keeps; [apply park_log|].
    intros c1 [[]|e] Hc1; [|by split]. apply flow_wp_bind. eapply wp_keeps; [apply emit_log|].
    intros c2 [i|e] Hc2; [|split; [by etrans|done]]. cbn. split; [by etrans|done]. }
  apply Hfin; [done|]. cbn. by rewrite H2, H3, H4.
Qed.
End log.

(** ** Rows stay under their ids *)
Section keyed.
Context {X S : Type} (E : env X) (db : eu_session S) (sv : @flow_services X S).
Local Abbreviation cfg := (@cfg X S).
Implicit Types (c : cfg) (r : runner).

Lemma call_keyed {A} (f : X -> X * result A) : keeps keeps_keyed (call (S := S) f).
Proof. intros c. apply same_runs_keyed. unfold call. by destruct (f (c_ext c)). Qed.
Lemma on_rm_keyed {A} (f : Z -> rm X -> rm X * A) : keeps keeps_keyed (on_rm (S := S) sv f).
Proof. intros c. apply same_runs_keyed. unfold on_rm. by destruct (f _ _). Qed.
Lemma emit_keyed ty rid p pl : keeps keeps_keyed (emit (S := S) sv ty rid p pl).
Proof. apply call_keyed. Qed.
Lemma modifies_keyed (f : cfg -> cfg) : (forall c, c_runs (f c) = c_runs c) -> keeps keeps_keyed (modifies f).
Proof. intros Hf c. apply same_runs_keyed, Hf. Qed.
Lemma update_run_keyed rid f : (forall run, fr_id (f run) = fr_id run) -> keeps keeps_keyed (update_run (X := X) (S := S) rid f).
Proof.
  intros Hf c Hc k run. cbn. rewrite lookup_alter_Some. intros [(->&y&Hy&->)|[_ Hy]]; [|by apply Hc].
  rewrite Hf. by apply Hc.
Qed.
Lemma load_run_keyed rid : keeps keeps_keyed (load_run (X := X) (S := S) rid).
Proof. intros c Hc. exact Hc. Qed.
Lemma respond_keyed st run a b : keeps keeps_keyed (respond (X := X) (S := S) st run a b).
Proof. intros c Hc. exact Hc. Qed.
Lemma finish_unit_keyed r rid st : keeps keeps_keyed (finish_unit db sv r rid st).
Proof.
  apply modifies_keyed. intros c. by destruct (match ru_eu r with Some _ => _ | None => _ end) as [? [?|]].
Qed.
Lemma check_quota_keyed eu :
  keeps keeps_keyed ((fun c => let (s, q) := check_quota E (clock sv c) eu (c_rm c) in (set_rm s c, q)) : FlowEngine.M (option string)).
Proof. intros c. apply same_runs_keyed. by destruct (check_quota _ _ _ _). Qed.
Lemma node_call_keyed (f : node_fn) (a : Z) :
  keeps keeps_keyed ((fun c => let '(x, st, res) := f (c_state c) a (c_ext c) in
     (set_locals st (c_attempts c) (set_rm (with_ext (c_rm c) x) c), res)) : FlowEngine.M node_result).
Proof. intros c. apply same_runs_keyed. by destruct (f _ _ _) as [[? ?] ?]. Qed.
Lemma usage_keyed r ms : keeps keeps_keyed (record_resource_usage (S := S) E r ms).
Proof. unfold record_resource_usage. destruct (truthy _); intros c; apply same_runs_keyed; reflexivity. Qed.
#[local] Hint Resolve call_keyed on_rm_keyed emit_keyed load_run_keyed respond_keyed finish_unit_keyed check_quota_keyed
  node_call_keyed usage_keyed : keeps.
#[local] Hint Extern 2 (keeps keeps_keyed (update_run _ _)) => apply update_run_keyed; intros ?; reflexivity : keeps.
#[local] Hint Extern 2 (keeps keeps_keyed (modifies _)) => apply modifies_keyed; intros ?; reflexivity : keeps.
#[local] Hint Extern 2 (keeps keeps_keyed (effect _)) => apply modifies_keyed; intros ?; reflexivity : keeps.

Lemma fail_execution_keyed r run msg node p : keeps keeps_keyed (fail_execution E db sv r run msg node p).
Proof. unfold fail_execution, release_slot. keeps_auto. Qed.
Lemma park_keyed r run ev node t : keeps keeps_keyed (park sv r run ev node t).
Proof. unfold park. keeps_auto. Qed.
#[local] Hint Resolve fail_execution_keyed park_keyed : keeps.

Lemma execute_current_node_keyed r run node p : keeps keeps_keyed (execute_current_node E db sv r run node p).
Proof. unfold execute_current_node, check_resources, execute_node. keeps_auto. Qed.
#[local] Hint Resolve execute_current_node_keyed : keeps.

Lemma loop_body_keyed r rid node : keeps keeps_keyed (loop_body E db sv r rid node).
Proof.
  unfold loop_body, settle_node, handle_node_status,
    maybe_finalize_completion, extract_execution_result, finalize_handoff, finalize_success,
    capture_flow_completion, release_slot, advance_to_next_node. keeps_auto.
Qed.

Lemma claim_keyed rid seen : keeps keeps_keyed (claim_waiting_run (S := S) sv rid seen).
Proof. unfold claim_waiting_run. keeps_auto. Qed.

(** ** The history of a run *)
Lemma settle_log r run rid node input nres ms p c : fr_id run = rid ->
  wp (settle_node E db sv r run node input nres ms p)
    (fun c' res =>
       match res with
       | Ok (inr n') => exists h, c_history c' = c_history c ++ [h] /\ fh_run h = rid /\ fh_node h = node /\
           c_attempts c' = c_attempts c /\ goes_on (ru_flow r) node n' h (default 0 (dget (c_attempts c) node))
       | _ => c_history c' = c_history c \/
           exists h, c_history c' = c_history c ++ [h] /\ fh_run h = rid /\ fh_node h = node
       end) c.
Proof.
  intros Hid. unfold settle_node. destruct (nr_status nres) as [status|]; [|by left].
  set (h := MkHistory (fr_id run) node status input (nr_patch nres) ms (nr_error nres)).
  apply flow_wp_bind. cbn. apply flow_wp_bind. eapply wp_keeps; [apply emit_log|]. intros c1 res [Hh Ha]. cbn in Hh, Ha.
  destruct res as [i|e]; [|right; by exists h].
  apply flow_wp_bind. eapply flow_wp_mono; [apply handle_log|]. intros c2 res [[Hh2 Ha2] Hres].
  rewrite Hh in Hh2. rewrite Ha in Ha2, Hres. destruct res as [[resp| |]|e]; [right; by exists h| | |right; by exists h].
  - cbn. exists h. destruct Hres as [-> Hlt]. split_and!; try done. by left.
  - destruct Hres as [Hst Hend]. eapply flow_wp_mono; [apply advance_log|]. intros c3 res [[Hh3 Ha3] Hres].
    rewrite Hh2 in Hh3. rewrite Ha2 in Ha3. destruct res as [[resp|n']|e]; [right; by exists h| |right; by exists h].
    exists h. split_and!; try done. by right.
Qed.

Lemma loop_body_log r rid node c : keyed c ->
  wp (loop_body E db sv r rid node) (turn_log (ru_flow r) rid node c) c.
Proof.
  intros Hk. unfold loop_body. apply flow_wp_bind. cbn.
  destruct (c_runs c !! rid) as [run|] eqn:Hrun; [|by left].
  apply flow_wp_bind. cbn. apply flow_wp_bind.
  eapply wp_keeps with (R := fun a b => same_log a b /\ keeps_keyed a b).
  { intros c0. split; [apply emit_log|apply emit_keyed]. }
  intros c1 [started|e] [[Hh Ha] Hk2]; [|by left]. apply flow_wp_bind.
  assert (keyed (execute_current_node E db sv r run node started c1).1) as Hk3.
  { apply execute_current_node_keyed, Hk2, Hk. }
  pose proof (execute_current_node_log E db sv r run node started c1) as Hex.
  unfold wp in Hex |- *. destruct (execute_current_node E db sv r run node started c1) as [c2 res]. cbn [fst snd] in *.
  rewrite Hh in Hex. destruct Hex as [Hh2 Hex]. destruct res as [[resp|[nres ms]]|e]; [by left| |by left].
  destruct Hex as [_ Ha2]. rewrite Ha in Ha2.
  change (wp (o ← load_run rid; match o with
      | None => mret (inl (missing_run rid "disappeared after node execution"))
      | Some run => settle_node E db sv r run node (c_state c) nres ms started end) (turn_log (ru_flow r) rid node c) c2).
  apply flow_wp_bind. cbn. destruct (c_runs c2 !! rid) as [run2|] eqn:Hrun2; [|by left].
  eapply flow_wp_mono; [by apply settle_log, Hk3|]. cbn. intros c3 res Hs. unfold turn_log.
  rewrite Hh2, Ha2, dget_dset_eq in Hs. exact Hs.
Qed.
End keyed.

(** A history that follows the flow from [node]: retries of a node, and edges
    out of nodes that are not end nodes. *)
Inductive follows (f : flow) : string -> list FlowHistory -> Prop :=
| follows_nil n : follows f n []
| follows_last h : follows f (fh_node h) [h]
| follows_retry h l : fh_status h = "RETRY" -> follows f (fh_node h) l -> follows f (fh_node h) (h :: l)
| follows_edge h n' l st : str_in (fh_status h) ["RETRY"; "FAILURE"; "WAIT"] = false ->
    str_in (fh_node h) (fl_end f) = false -> resolve_next_node (fh_node h) st f = Ok (Some n') ->
    follows f n' l -> follows f (fh_node h) (h :: l).

(** How often [n] asked for a retry *)
Definition retries (n : string) (l : list FlowHistory) : Z :=
  Z.of_nat (length (List.filter (fun h => (fh_node h =s n) && (fh_status h =s "RETRY")) l)).

Lemma retries_cons n h l :
  retries n (h :: l) = (if (fh_node h =s n) && (fh_status h =s "RETRY") then 1 else 0) + retries n l.
Proof. unfold retries. cbn [List.filter]. destruct ((fh_node h =s n) && _); cbn [length]; lia. Qed.

Lemma node_max_attempts_pos f n : 1 <= node_max_attempts f n.
Proof.
  unfold node_max_attempts, resolve_retry_policy. change (str_strip (str_lower (str_or (Some "flow") "")) =s "flow") with true.
  destruct (dget _ n); cbn; lia.
Qed.

Section runs.
Context {X S : Type} (E : env X) (db : eu_session S) (sv : @flow_services X S).
Local Abbreviation cfg := (@cfg X S).
Implicit Types (c : cfg) (r : runner).

Definition attempts_of c n : Z := default 0 (dget (c_attempts c) n).

(** What a loop from [node] may add to the history of the run *)
Definition loop_log (f : flow) (rid node : string) c c' : Prop :=
  exists l, c_history c' = c_history c ++ l /\ Forall (fun h => fh_run h = rid) l /\ follows f node l /\
    forall n, retries n l <= Z.max 1 (node_max_attempts f n - attempts_of c n).

Lemma loop_log_stop f rid node c c' h : c_history c' = c_history c \/
    (c_history c' = c_history c ++ [h] /\ fh_run h = rid /\ fh_node h = node) -> loop_log f rid node c c'.
Proof.
  intros [Hh|(Hh&Hr&Hn)].
  - exists []. rewrite app_nil_r. split_and!; [done..|constructor|]. intros n. change (retries n []) with 0. lia.
  - exists [h]. split_and!; [done|by repeat constructor|rewrite <- Hn; constructor|].
    intros n. rewrite retries_cons. change (retries n []) with 0. destruct (_ && _); lia.
Qed.

Lemma attempts_turn c c' node n :
  c_attempts c' = dset (c_attempts c) node (attempts_of c node + 1) ->
  attempts_of c' n = if node =s n then attempts_of c n + 1 else attempts_of c n.
Proof.
  unfold attempts_of. intros ->. destruct (node =s n) eqn:Hn.
  - apply String.eqb_eq in Hn as ->. by rewrite dget_dset_eq.
  - apply String.eqb_neq in Hn. by rewrite dget_dset_ne.
Qed.

Lemma run_loop_log fuel r rid node c : keyed c ->
  wp (run_loop E db sv fuel r rid node) (fun c' _ => loop_log (ru_flow r) rid node c c') c.
Proof.
  revert node c. induction fuel as [|fuel IH]; intros node c Hk.
  { by apply (loop_log_stop _ _ _ _ _ (MkHistory rid node "" [] [] 0 None)); left. }
  cbn [run_loop]. apply flow_wp_bind. pose proof (loop_body_log E db sv r rid node c Hk) as Hb.
  pose proof (loop_body_keyed E db sv r rid node c Hk) as Hk'. unfold wp in Hb |- *.
  destruct (loop_body E db sv r rid node c) as [c1 res]. cbn [fst snd] in *.
  destruct res as [[resp|n']|e]; cbn in Hb |- *.
  - destruct Hb as [Hb|[h Hb]]; [eapply (loop_log_stop _ _ _ _ _ (MkHistory rid node "" [] [] 0 None)); by left|].
    apply (loop_log_stop _ _ _ _ _ h). by right.
  - destruct Hb as (h&Hh&Hr&Hn&Ha&Hgo). specialize (IH n' c1 Hk'). unfold wp in IH.
    destruct IH as (l&Hl&Hf&Hfol&Hret). exists (h :: l). rewrite Hl, Hh, <- app_assoc. split; [done|].
    split; [by constructor|]. fold (attempts_of c node) in Ha, Hgo.
    pose proof (fun n => attempts_turn c c1 node n Ha) as Hat.
    split.
    + rewrite <- Hn. destruct Hgo as [(->&Hst&_)|(Hst&Hend&st&Hres)].
      * apply follows_retry; [done|]. by rewrite Hn.
      * eapply follows_edge; try done; by rewrite Hn.
    + intros n. rewrite retries_cons, Hn. specialize (Hret n). rewrite Hat in Hret.
      destruct Hgo as [(->&Hst&Hlt)|(Hst&_)].
      * rewrite Hst. destruct (node =s n) eqn:E1; cbn [andb]; [|lia]. apply String.eqb_eq in E1 as ->.
        change ("RETRY" =s "RETRY") with true. cbv iota. lia.
      * assert ((fh_status h =s "RETRY") = false) as ->. { cbn in Hst. by destruct (fh_status h =s "RETRY"). }
        rewrite andb_false_r. destruct (node =s n); lia.
  - destruct Hb as [Hb|[h Hb]]; [eapply (loop_log_stop _ _ _ _ _ (MkHistory rid node "" [] [] 0 None)); by left|].
    apply (loop_log_stop _ _ _ _ _ h). by right.
Qed.

(** [resume] answers at once, or runs the loop from the stored node with fresh
    counters and the same history. *)
Lemma resume_cases fuel ctx r rid c run : c_runs c !! rid = Some run ->
  (exists c' res, resume E db sv fuel ctx r rid c = (c', Ok (Some res)) /\ c_history c' = c_history c) \/
  (exists c1 root, resume E db sv fuel ctx r rid c = run_loop E db sv fuel (with_root r root) rid (fr_current_node run) c1 /\
     c_history c1 = c_history c /\ c_attempts c1 = [] /\ (keyed c -> keyed c1)).
Proof.
  intros Hrun. unfold resume, mbind, M_bind, load_run, gets. rewrite Hrun.
  assert (forall ty, keeps same_log (claim_waiting_run (S := S) sv rid ty)) as Hlog.
  { intros ty. unfold claim_waiting_run. keeps_auto; first [apply call_log|apply update_run_log]. }
  pose proof (Hlog (fr_status run) c) as [Hh _]. pose proof (claim_keyed sv rid (fr_status run) c) as Hk.
  destruct (claim_waiting_run sv rid (fr_status run) c) as [c1 [o|e]] eqn:Hc; cbn [fst] in *.
  - destruct o as [resp|]; [left; by exists c1, resp|right]. cbn.
    destruct (json_truthy (jget (fr_state run) "trace_id")); cbn.
    + eexists _, _. split; [reflexivity|]. done.
    + eexists _, _. split; [reflexivity|]. split_and!; [done..|]. intros Hkc. cbn.
      refine (update_run_keyed rid _ _ (set_locals _ _ c1) (Hk Hkc)). by intros [].
  - exfalso. unfold claim_waiting_run in Hc. destruct (negb _); [done|].
    unfold mbind, M_bind, gets, call in Hc. cbn in Hc.
    destruct (fs_claim_commit sv _) as [x []]; cbn in Hc; [|done]. by destruct (match c_runs c !! rid with Some _ => _ | None => _ end).
Qed.

(** An upper bound of the turns a loop still takes *)
Definition turns_left (rank : string -> nat) (R : nat) c (node : string) : nat :=
  rank node * R + Z.to_nat (Z.max 1 (Z.of_nat R - attempts_of c node)).

Lemma run_loop_terminates (rank : string -> nat) (R : nat) fuel r rid node c :
  (forall n st n', resolve_next_node n st (ru_flow r) = Ok (Some n') -> (rank n' < rank n)%nat) ->
  (forall n, node_max_attempts (ru_flow r) n <= Z.of_nat R) ->
  keyed c -> (forall n, 0 <= attempts_of c n) -> (turns_left rank R c node <= fuel)%nat ->
  (run_loop E db sv fuel r rid node c).2 <> Ok None.
Proof.
  intros Hrank HR. revert node c. induction fuel as [|fuel IH]; intros node c Hk Hpos Hfuel; [unfold turns_left in Hfuel; lia|].
  cbn [run_loop]. unfold mbind, M_bind. pose proof (loop_body_log E db sv r rid node c Hk) as Hb.
  pose proof (loop_body_keyed E db sv r rid node c Hk) as Hk'. unfold wp in Hb.
  destruct (loop_body E db sv r rid node c) as [c1 res]. cbn [fst snd] in *.
  destruct res as [[resp|n']|e]; [done| |done]. destruct Hb as (h&_&_&_&Ha&Hgo).
  fold (attempts_of c node) in Ha, Hgo. pose proof (fun n => attempts_turn c c1 node n Ha) as Hat.
  apply IH; [done| |].
  { intros n. rewrite Hat. specialize (Hpos n). destruct (node =s n); lia. }
  unfold turns_left in *. rewrite Hat. specialize (HR node). specialize (Hpos n'). destruct Hgo as [(->&_&Hlt)|(_&_&st&Hres)].
  - rewrite (String.eqb_refl node). lia.
  - apply Hrank in Hres. pose proof (node_max_attempts_pos (ru_flow r) node).
    assert (rank n' * R + R <= rank node * R)%nat by nia. destruct (node =s n'); lia.
Qed.
End runs.

(** A small world for evaluations: the flow a -> b whose nodes succeed at once, no
    Redis, and a limit of [max] concurrent runs. *)
Definition quiet_client : quota_client unit :=
  MkClient unit (fun _ x => (x, Ok None)) (fun _ _ x => (x, Ok ())) (fun _ n x => (x, Ok n)) (fun _ _ x => (x, Ok ()))
    (fun _ x => (x, Ok ())) (fun _ x => (x, Ok [])).
Definition quiet_env (max : Z) : env unit :=
  MkEnv false false max 1000 100 (fun x => (x, false)) quiet_client None (fun _ => true) (fun _ x => (x, Ok ())).
Definition quiet_node (k : string) : @node_fn unit :=
  fun st _ x => (x, st, Ok (MkNodeResult (Some "SUCCESS") [(k, JInt 1)] None None)).
Definition quiet_services (nodes : dict (@node_fn unit)) : @flow_services unit (gmap UUID ExecutionUnit) :=
  MkFlowServices (fun _ => 0) (fun _ x => (x, Ok None)) (fun _ _ x => x) (fun _ x => x) (fun _ _ x => (x, Ok ()))
    (fun _ _ x => (x, Ok ())) (fun _ x => (x, Ok ())) (fun _ => None) (fun _ => None) (fun _ s => (s, None))
    (fun x => (x, true)) nodes [] (fun _ => None) 30.
Definition quiet_session : eu_session (gmap UUID ExecutionUnit) := {|
  db_first id s := (s, Ok (u ← id; s !! u));
  db_add e s := (<[eu_id e := e]> s, Ok ());
  db_flush e s := (<[eu_id e := e]> s, Ok ())
|}.
Definition quiet_flow : flow := MkFlow "a" [("a", Targets ["b"])] ["b"] [].
Definition quiet_nodes : dict (@node_fn unit) := [("a", quiet_node "a"); ("b", quiet_node "b")].
Definition quiet_runner (user : option UUID) : runner := MkRunner quiet_flow user (Some "demo") None "normal" None None None.
Definition quiet_cfg : @cfg unit (gmap UUID ExecutionUnit) := MkCfg ∅ [] (rm_init ()) ∅ [] [].
(** The result of a first run *)
Definition quiet_start (max : Z) (user : option UUID) (c : @cfg unit (gmap UUID ExecutionUnit)) :=
  start (quiet_env max) quiet_session (quiet_services quiet_nodes) 10 "run-1" "trace-1" (MkUUID 1) (quiet_runner user) [] "demo" c.


(** A run of the small flow that waits at its first node *)
Definition quiet_run (status : string) : FlowRun :=
  MkRun "run-1" "demo" (Some "demo") [("trace_id", JStr "trace-1")] "a" status None None (Some "trace-1") None None None None.
Definition quiet_cfg_with (status : string) : @cfg unit (gmap UUID ExecutionUnit) :=
  set_runs (fun _ => {["run-1" := quiet_run status]}) quiet_cfg.
Lemma quiet_keyed status : keyed (quiet_cfg_with status).
Proof.
  intros k run Hk. change (({["run-1" := quiet_run status]} : gmap string FlowRun) !! k = Some run) in Hk.
  by apply lookup_singleton_Some in Hk as [<- <-].
Qed.


(** C27: termination.  When the edges of a flow lead down a ranking of its nodes
    (the flow has no cycle) and no node may use more than [R] attempts, [resume]
    needs at most [(rank + 1) * R] turns of its loop: it answers or raises. *)
Theorem acyclic_flow_terminates {X S} (E : env X) (db : eu_session S) sv fuel ctx r rid c run (rank : string -> nat) (R : nat) :
  keyed c -> c_runs c !! rid = Some run ->
  (forall n st n', resolve_next_node n st (ru_flow r) = Ok (Some n') -> (rank n' < rank n)%nat) ->
  (forall n, node_max_attempts (ru_flow r) n <= Z.of_nat R) ->
  ((rank (fr_current_node run) + 1) * R <= fuel)%nat ->
  (resume E db sv fuel ctx r rid c).2 <> Ok None.
Proof.
  intros Hk Hrun Hrank HR Hfuel.
  destruct (resume_cases E db sv fuel ctx r rid c run Hrun) as [(c1&resp&->&_)|(c1&root&->&_&Ha&Hk1)]; [done|].
  apply (run_loop_terminates E db sv rank R); [done..|by apply Hk1| |].
  { intros n. unfold attempts_of. by rewrite Ha. }
  pose proof (node_max_attempts_pos (ru_flow r) ""). specialize (HR ""). unfold turns_left, attempts_of. rewrite Ha. cbn. lia.
Qed.

Lemma acyclic_flow_terminates_witness :
  (resume (quiet_env 5) quiet_session (quiet_services quiet_nodes) 6 None (quiet_runner None) "run-1" (quiet_cfg_with "waiting")).2
    <> Ok None.
Proof.
  apply (acyclic_flow_terminates (quiet_env 5) quiet_session (quiet_services quiet_nodes) 6 None (quiet_runner None) "run-1"
    (quiet_cfg_with "waiting") (quiet_run "waiting") (fun n => if n =s "a" then 1%nat else 0%nat) 3).
  - apply quiet_keyed.
  - reflexivity.
  - intros n st n'. unfold resolve_next_node. cbn [ru_flow quiet_runner quiet_flow fl_edges dget].
    destruct ("a" =s n) eqn:Hn; [|discriminate]. apply String.eqb_eq in Hn as <-. intros [= <-]. vm_compute. apply le_n.
  - intros n. vm_compute. discriminate.
  - vm_compute. apply le_n.
Defined.

(** ** Concurrent resumes *)

(** What happens to the row of a run between two reads: claims of runners that
    have read status waiting, and anything else. *)
Inductive row_event {X S} := Claim | Other (g : @cfg X S -> @cfg X S).
Arguments row_event : clear implicits.

Definition is_waiting {X S} (rid : string) (c : @cfg X S) : bool :=
  match c_runs c !! rid with Some run => fr_status run =s "waiting" | None => false end.

(** The number of claims that let their runner go on *)
Fixpoint winners {X S} sv (rid : string) (l : list (row_event X S)) (c : @cfg X S) : nat :=
  match l with
  | [] => 0
  | Claim :: l' => let (c', res) := claim_waiting_run sv rid "waiting" c in
                   (match res with Ok None => 1 | _ => 0 end + winners sv rid l' c')%nat
  | Other g :: l' => winners sv rid l' (g c)
  end.

(** Nothing parks the run. *)
Definition never_parks {X S} (rid : string) (l : list (row_event X S)) : Prop :=
  Forall (fun e => match e with Claim => True | Other g => forall c, is_waiting rid c = false -> is_waiting rid (g c) = false end) l.

Lemma claim_effect {X S} (sv : @flow_services X S) rid c :
  let (c', res) := claim_waiting_run sv rid "waiting" c in
  (res = Ok None <-> is_waiting rid c = true /\ (fs_claim_commit sv (c_ext c)).2 = true) /\
  (res = Ok None \/ is_waiting rid c = false -> is_waiting rid c' = false).
Proof.
  unfold claim_waiting_run. change (negb ("waiting" =s "waiting")) with false. cbv iota.
  unfold mbind, M_bind, gets, call. fold (is_waiting rid c). cbn.
  destruct (fs_claim_commit sv (c_ext c)) as [x []]; cbn.
  - change (match c_runs c !! rid with Some run => fr_status run =s "waiting" | None => false end) with (is_waiting rid c).
    destruct (is_waiting rid c) eqn:Hw; cbn; [|split; [split; [done|by intros [? _]]|done]].
    split; [done|]. intros _. unfold is_waiting in *. cbn. rewrite lookup_alter_eq. by destruct (c_runs c !! rid).
  - split; [split; [done|by intros [_ ?]]|]. intros [?|Hw]; [done|]. exact Hw.
Qed.

Lemma no_winner {X S} (sv : @flow_services X S) rid l c : never_parks rid l -> is_waiting rid c = false -> winners sv rid l c = 0%nat.
Proof.
  intros Hl. revert c. induction Hl as [|e l He _ IH]; intros c Hw; [done|]. destruct e as [|g]; cbn.
  - pose proof (claim_effect sv rid c) as Hc. destruct (claim_waiting_run sv rid "waiting" c) as [c' res]. destruct Hc as [H1 H2].
    rewrite IH by (apply H2; by right). destruct res as [[]|]; try done. destruct H1 as [H1 _]. destruct H1; congruence.
  - apply IH. by apply He.
Qed.

(** one waiting run is resumed once.  Of all the runners that have read a run
    in status waiting, in whatever order they claim it and whatever else happens
    to the row meanwhile short of parking it again, at most one goes on; the first
    claim goes on when the run is still waiting and its commit succeeds. *)
Theorem waiting_run_claimed_once {X S} (sv : @flow_services X S) rid l c : never_parks rid l ->
  (winners sv rid l c <= 1)%nat /\
  (is_waiting rid c = true -> (fs_claim_commit sv (c_ext c)).2 = true -> winners sv rid (Claim :: l) c = 1%nat).
Proof.
  intros Hl. assert (forall l c, never_parks rid l -> (winners sv rid l c <= 1)%nat) as Hle.
  { clear. intros l c Hl. revert c. induction Hl as [|e l He Hl IH]; intros c; [cbn; lia|]. destruct e as [|g]; cbn; [|apply IH].
    pose proof (claim_effect sv rid c) as Hc. destruct (claim_waiting_run sv rid "waiting" c) as [c' res]. destruct Hc as [_ H2].
    destruct res as [[]|]; [apply IH| |apply IH]. rewrite no_winner; [lia|done|]. apply H2. by left. }
  split; [by apply Hle|]. intros Hw Hok. cbn. pose proof (claim_effect sv rid c) as Hc.
  destruct (claim_waiting_run sv rid "waiting" c) as [c' res]. destruct Hc as [[_ H1] H2]. rewrite (H1 (conj Hw Hok)) in *.
  rewrite no_winner; [done|done|]. apply H2. by left.
Qed.

Lemma waiting_run_claimed_once_witness :
  winners (quiet_services quiet_nodes) "run-1" [Claim; Claim; Claim] (quiet_cfg_with "waiting") = 1%nat.
Proof.
  refine (proj2 (waiting_run_claimed_once (quiet_services quiet_nodes) "run-1" [Claim; Claim] (quiet_cfg_with "waiting") _) _ _).
  - repeat constructor.
  - reflexivity.
  - reflexivity.
Defined.
