(* ===== verification/FlowSlots.v ===== *)
(** * Concurrency slots of flow runs

    How the flow engine uses the tenant counter of the resource manager, on an
    instance that counts locally (no Redis configured). *)
From S2P Require Import Prelude PyUuid Json RetryPolicy ResourceManager ExecutionUnit FlowEngine FlowFacts.
Local Open Scope Z_scope.

Section slots.
Context {X S : Type} (E : env X) (db : eu_session S) (sv : @flow_services X S).
Local Abbreviation cfg := (@cfg X S).
Implicit Types (c : cfg) (r : runner).

Definition active c (t : string) : Z := local_active (c_rm c) t.

(** The counters of all tenants are the same. *)
Definition same_slots c c' : Prop :=
  local_mode E (c_rm c) -> local_mode E (c_rm c') /\ rm_active (c_rm c') = rm_active (c_rm c).
#[export] Instance same_slots_preorder : PreOrder same_slots.
Proof.
  split; [intros c Hc; by split|]. intros c1 c2 c3 H1 H2 Hl. destruct (H1 Hl) as [Hl2 E1].
  destruct (H2 Hl2) as [Hl3 E2]. split; [done|congruence].
Qed.

Lemma same_slots_rm c c' : rm_redis (c_rm c') = rm_redis (c_rm c) -> rm_active (c_rm c') = rm_active (c_rm c) -> same_slots c c'.
Proof. intros Hr Ha [Hu Hl]. unfold local_mode. split; [split; congruence|done]. Qed.

Lemma call_slots {A} (f : X -> X * result A) : keeps same_slots (call (S := S) f).
Proof. intros c. apply same_slots_rm; unfold call; by destruct (f (c_ext c)). Qed.
Lemma emit_slots ty rid p pl : keeps same_slots (emit (S := S) sv ty rid p pl).
Proof. apply call_slots. Qed.
Lemma modifies_slots (f : cfg -> cfg) : (forall c, rm_redis (c_rm (f c)) = rm_redis (c_rm c)) ->
  (forall c, rm_active (c_rm (f c)) = rm_active (c_rm c)) -> keeps same_slots (modifies f).
Proof. intros H1 H2 c. apply same_slots_rm; [apply H1|apply H2]. Qed.
Lemma update_run_slots rid f : keeps same_slots (update_run (X := X) (S := S) rid f).
Proof. intros c. by apply same_slots_rm. Qed.
Lemma load_run_slots rid : keeps same_slots (load_run (X := X) (S := S) rid).
Proof. intros c. by apply same_slots_rm. Qed.
Lemma respond_slots st run a b : keeps same_slots (respond (X := X) (S := S) st run a b).
Proof. intros c. by apply same_slots_rm. Qed.
Lemma usage_slots r ms : keeps same_slots (record_resource_usage (S := S) E r ms).
Proof.
  unfold record_resource_usage. destruct (truthy _); [|by intros c; apply same_slots_rm].
  apply modifies_slots; intros c; cbn; destruct (record_usage E (eu_text r) ms 0 0 (c_rm c)) as [s' res] eqn:Hu;
    apply record_usage_counts in Hu as (Ha&Hp&Hr); done.
Qed.
Lemma node_call_slots (f : node_fn) (a : Z) :
  keeps same_slots ((fun c => let '(x, st, res) := f (c_state c) a (c_ext c) in
     (set_locals st (c_attempts c) (set_rm (with_ext (c_rm c) x) c), res)) : M node_result).
Proof. intros c. apply same_slots_rm; by destruct (f _ _ _) as [[? ?] ?]. Qed.
Lemma finish_unit_slots r rid st : keeps same_slots (finish_unit db sv r rid st).
Proof.
  apply modifies_slots; intros c; by destruct (match ru_eu r with Some _ => _ | None => _ end) as [? [?|]].
Qed.
Lemma can_execute_slots t : keeps same_slots (on_rm (S := S) sv (fun now => can_execute E now t)).
Proof.
  intros c Hl. unfold on_rm, can_execute. destruct (env_testing E); [done|].
  destruct (get_tenant_active_local E (clock sv c) t (purge_pending (c_rm c)) Hl) as [k ->].
  destruct Hl. by destruct (_ <=? _).
Qed.
Lemma check_quota_slots eu :
  keeps same_slots ((fun c => let (s, q) := check_quota E (clock sv c) eu (c_rm c) in (set_rm s c, q)) : M (option string)).
Proof.
  intros c Hl. unfold check_quota. destruct (env_testing E) eqn:Ht; [done|].
  destruct (rm_usage (c_rm c) !! eu) as [u|]; [|done].
  destruct (can_execute E (clock sv c) (us_tenant_id u) (c_rm c)) as [s1 o] eqn:Hc.
  apply can_execute_local in Hc as [[k ->] _]; [|done..]. set (s1 := with_redis _ _ _).
  assert (local_mode E s1 /\ rm_active s1 = rm_active (c_rm c)) as [H1 A1] by (destruct Hl; done). clearbody s1.
  destruct o; [done|]. destruct (rm_usage s1 !! eu) as [u'|]; [|done].
  destruct (via_backend E _ s1) as [s2 r2] eqn:H2. apply via_backend_fields in H2 as (_&A2&_&R2).
  assert (local_mode E s2 /\ rm_active s2 = rm_active (c_rm c)) as [H2 A2'].
  { unfold local_mode. rewrite R2, A2. by destruct H1. }
  destruct r2 as [cpu|x]; [|done].
  destruct (via_backend E _ s2) as [s3 r3] eqn:H3. apply via_backend_fields in H3 as (_&A3&_&R3).
  assert (local_mode E s3 /\ rm_active s3 = rm_active (c_rm c)).
  { unfold local_mode. rewrite R3, A3. by destruct H2. }
  destruct r3 as [n|x]; [|done]. destruct (_ <? _); [done|]. by destruct (_ <? _).
Qed.
#[local] Hint Resolve call_slots emit_slots update_run_slots load_run_slots respond_slots usage_slots node_call_slots
  finish_unit_slots can_execute_slots check_quota_slots : keeps.
#[local] Hint Extern 2 (keeps same_slots (modifies _)) => apply modifies_slots; intros ?; reflexivity : keeps.
#[local] Hint Extern 2 (keeps same_slots (effect _)) => apply modifies_slots; intros ?; reflexivity : keeps.

Lemma park_slots r run ev node t : keeps same_slots (park sv r run ev node t).
Proof. unfold park. keeps_auto. Qed.
#[local] Hint Resolve park_slots : keeps.

Lemma execute_node_slots rid node : keeps same_slots (execute_node (S := S) sv rid node).
Proof. unfold execute_node. keeps_auto. Qed.
#[local] Hint Resolve execute_node_slots : keeps.

Lemma claim_slots rid seen : keeps same_slots (claim_waiting_run (S := S) sv rid seen).
Proof. unfold claim_waiting_run. keeps_auto. Qed.

(** ** Runs without a user or a workflow type *)

(** A program that ends with a failure response, raises, or leaves the counters alone *)
Definition spares {A} (failed : A -> Prop) (m : M A) : Prop :=
  forall c, match (m c).2 with Ok a => failed a \/ same_slots c (m c).1 | Raise _ => True end.
Definition is_failed (resp : response) : Prop := rs_status resp = "FAILED".
Definition opt_failed (o : option response) : Prop := match o with Some resp => is_failed resp | None => False end.
Definition sum_failed {A} (x : response + A) : Prop := match x with inl resp => is_failed resp | inr _ => False end.
Definition handled_failed (h : handled) : Prop := match h with Respond resp => is_failed resp | _ => False end.

Lemma keeps_spares {A} (F : A -> Prop) (m : M A) : keeps same_slots m -> spares F m.
Proof. intros H c. destruct (m c).2; [by right|done]. Qed.
Lemma spares_fmap {A B} (F : A -> Prop) (G : B -> Prop) (g : A -> B) (m : M A) :
  (forall a, F a -> G (g a)) -> spares F m -> spares G (g <$> m).
Proof.
  intros Hg Hm c. specialize (Hm c). unfold fmap, M_fmap. destruct (m c) as [c' [a|e]]; cbn in *; [|done].
  destruct Hm; [left; auto|by right].
Qed.
Lemma spares_bind {A B} (F : A -> Prop) (G : B -> Prop) (m : M A) (f : A -> M B) :
  spares F m -> (forall a c, F a -> match (f a c).2 with Ok b => G b | Raise _ => True end) ->
  (forall a, spares G (f a)) -> spares G (m ≫= f).
Proof.
  intros Hm Hbad Hf c. specialize (Hm c). unfold mbind, M_bind. destruct (m c) as [c' [a|e]]; cbn in *; [|done].
  destruct Hm as [HF|Hs].
  - specialize (Hbad a c' HF). destruct (f a c') as [c2 [b|e]]; cbn in *; [by left|done].
  - specialize (Hf a c'). destruct (f a c') as [c2 [b|e]]; cbn in *; [|done].
    destruct Hf; [by left|right]. by etrans.
Qed.
Lemma spares_after {A B} (G : B -> Prop) (m : M A) (f : A -> M B) :
  keeps same_slots m -> (forall a, spares G (f a)) -> spares G (m ≫= f).
Proof. intros Hm Hf. apply (spares_bind (fun _ => False)); [by apply keeps_spares|done|done]. Qed.
Lemma spares_catch {A} (F : A -> Prop) (m : M A) (h : exn -> M A) :
  spares F m -> (forall e c, match (h e c).2 with Ok a => F a | Raise _ => True end) -> spares F (catch m h).
Proof.
  intros Hm Hh c. specialize (Hm c). unfold catch. destruct (m c) as [c' [a|e]]; cbn in *; [done|].
  specialize (Hh e c'). destruct (h e c') as [c2 [a|e']]; cbn in *; [by left|done].
Qed.

Lemma fail_execution_failed r run msg node p c :
  match (fail_execution E db sv r run msg node p c).2 with Ok resp => is_failed resp | Raise _ => True end.
Proof.
  unfold fail_execution, mbind, M_bind, gets, update_run, modifies, release_slot, finish_unit, on_rm, effect, modifies, emit, call.
  repeat (cbn; match goal with |- context [let (_, _) := ?x in _] => destruct x as [? [?|?]] end); done.
Qed.

Lemma fail_spares r run msg node p : spares is_failed (fail_execution E db sv r run msg node p).
Proof.
  intros c. pose proof (fail_execution_failed r run msg node p c).
  destruct (fail_execution E db sv r run msg node p c) as [c' [resp|e]]; [by left|done].
Qed.

(** Event emission succeeds. *)
Definition emits : Prop := forall ev x, is_ok (fs_emit sv ev x).2 = true.

Lemma fail_execution_ok r run msg node p c : emits -> is_ok (fail_execution E db sv r run msg node p c).2 = true.
Proof.
  intros He. unfold fail_execution, mbind, M_bind, gets, update_run, modifies, release_slot, finish_unit, on_rm, effect, modifies, emit, call.
  cbn. repeat (match goal with |- context [fs_emit sv ?ev ?x] =>
    pose proof (He ev x); destruct (fs_emit sv ev x) as [? [?|?]]; cbn in *; [|done] end). done.
Qed.

Lemma check_resources_spares r run node p : emits -> spares opt_failed (check_resources E db sv r run node p).
Proof.
  intros He c. unfold check_resources, catch, mbind, M_bind.
  pose proof (can_execute_slots (tenant r) c) as H1.
  destruct (on_rm sv (fun now => can_execute E now (tenant r)) c) as [c1 [o|e]]; cbn [fst snd] in *;
    [|by destruct (str_in _ _); [right|]].
  destruct o as [reason|].
  - match goal with |- context [match park sv r run ?a ?b ?t c1 with _ => _ end] => pose proof (park_slots r run a b t c1) as H2;
      destruct (park sv r run a b t c1) as [c2 [[]|e]] end; cbn [fst snd] in *; [right; by etrans|].
    destruct (str_in _ _); [right; by etrans|done].
  - pose proof (check_quota_slots (eu_text r) c1) as H2. cbn in H2 |- *.
    destruct (check_quota E (clock sv c1) (eu_text r) (c_rm c1)) as [s [[reason|]|e]]; cbn [fst snd] in *.
    + pose proof (fail_execution_failed r run reason node p (set_rm s c1)) as Hf.
      pose proof (fail_execution_ok r run reason node p (set_rm s c1) He) as Hok.
      unfold fmap, M_fmap. destruct (fail_execution _ _ _ _ _ _ _ _ _) as [c3 [resp|e]]; [|done]. by left.
    + right. by etrans.
    + match goal with |- context [if ?b then _ else _] => destruct b end; [right; by etrans|done].
Qed.

Lemma finalize_spares r run node p : ru_user r = None \/ str_or_none (ru_workflow r) = None ->
  spares opt_failed (maybe_finalize_completion E db sv r run node p).
Proof.
  intros Hu. assert (capture_flow_completion E db sv r run = mret ()) as Hc.
  { unfold capture_flow_completion. destruct Hu as [->| ->]; [done|]. by destruct (ru_user r). }
  unfold maybe_finalize_completion. destruct (negb _); [apply keeps_spares; auto with keeps|].
  apply (spares_fmap is_failed); [done|]. apply spares_catch; [|intros e c; apply fail_execution_failed].
  apply keeps_spares. unfold extract_execution_result, finalize_handoff, finalize_success. rewrite Hc. keeps_auto.
Qed.

Lemma loop_body_spares r rid node : emits -> ru_user r = None \/ str_or_none (ru_workflow r) = None ->
  spares sum_failed (loop_body E db sv r rid node).
Proof.
  intros He Hu. unfold loop_body. apply spares_after; [auto with keeps|]. intros [run|]; [|apply keeps_spares; auto with keeps].
  apply spares_after; [auto with keeps|]. intros input. apply spares_after; [auto with keeps|]. intros started.
  apply (spares_bind sum_failed).
  - unfold execute_current_node. apply (spares_bind opt_failed); [by apply check_resources_spares|by intros [] ? ?; cbn|].
    intros [resp|]; [apply keeps_spares; auto with keeps|]. apply spares_after; [auto with keeps|]. intros t0.
    apply spares_after; [keeps_auto|]. intros [e|[nres d]].
    + apply spares_after; [auto with keeps|]. intros i. apply (spares_fmap is_failed); [done|apply fail_spares].
    + apply keeps_spares. keeps_auto.
  - by intros [resp|] c; cbn.
  - intros [resp|[nres ms]]; [apply keeps_spares; auto with keeps|].
    apply spares_after; [auto with keeps|]. intros [run'|]; [|apply keeps_spares; auto with keeps].
    unfold settle_node. destruct (nr_status nres) as [status|]; [|apply keeps_spares; auto with keeps].
    apply spares_after; [auto with keeps|]. intros _. apply spares_after; [auto with keeps|]. intros i.
    apply (spares_bind handled_failed); [|by intros [] c; cbn|].
    + assert (forall msg, spares handled_failed (Respond <$> fail_execution E db sv r run' msg node started)) as Hf.
      { intros msg. apply (spares_fmap is_failed); [done|apply fail_spares]. }
      assert (spares handled_failed (o ← maybe_finalize_completion E db sv r run' node started;
          mret (match o with Some resp => Respond resp | None => GoOn end))) as Hfin.
      { apply (spares_bind opt_failed); [by apply finalize_spares|by intros [] c; cbn|]. intros o.
        apply keeps_spares. auto with keeps. }
      unfold handle_node_status. destruct (_ =s _); [apply spares_after; [auto with keeps|]; intros _; exact Hfin|].
      destruct (_ =s _); [apply spares_after; [auto with keeps|]; intros a; destruct (_ <? _); [apply keeps_spares; auto with keeps|apply Hf]|].
      destruct (_ =s _); [apply Hf|]. destruct (_ =s _); [|exact Hfin].
      destruct (str_or_none (nr_wait_for nres)); [|apply Hf]. apply keeps_spares. keeps_auto.
    + intros [resp| |]; [apply keeps_spares; auto with keeps..|]. unfold advance_to_next_node.
      apply spares_after; [auto with keeps|]. intros st. apply spares_after; [auto with keeps|]. intros next.
      destruct (str_or_none next); [apply keeps_spares; keeps_auto|]. apply (spares_fmap is_failed); [done|apply fail_spares].
Qed.

Lemma run_loop_spares fuel r rid node : emits -> ru_user r = None \/ str_or_none (ru_workflow r) = None ->
  spares opt_failed (run_loop E db sv fuel r rid node).
Proof.
  intros He Hu. revert node. induction fuel as [|fuel IH]; intros node; [apply keeps_spares, keeps_ret; apply _|].
  cbn [run_loop]. apply (spares_bind sum_failed); [by apply loop_body_spares|by intros [] c; cbn|].
  intros [resp|n']; [apply keeps_spares; auto with keeps|apply IH].
Qed.

Lemma resume_spares fuel ctx r rid : emits -> ru_user r = None \/ str_or_none (ru_workflow r) = None ->
  spares opt_failed (resume E db sv fuel ctx r rid).
Proof.
  intros He Hu. unfold resume. apply spares_after; [auto with keeps|].
  intros [run|]; [|apply keeps_spares; auto with keeps]. apply spares_after; [apply claim_slots|].
  intros [resp|]; [apply keeps_spares; auto with keeps|]. apply spares_after; [auto with keeps|]. intros _.
  apply spares_after; [keeps_auto|]. intros _. apply run_loop_spares; [done|]. by destruct Hu; [left|right].
Qed.

Lemma claim_response rid seen c :
  wp (claim_waiting_run (S := S) sv rid seen) (fun c' res => same_log c c' /\ same_slots c c' /\
    match res with Ok (Some resp) => rs_status resp = "SKIPPED" | _ => True end) c.
Proof.
  assert (keeps same_log (claim_waiting_run (S := S) sv rid seen)) as Hlog.
  { unfold claim_waiting_run. keeps_auto; first [apply call_log|apply update_run_log]. }
  split; [apply Hlog|]. split; [apply claim_slots|].
  unfold claim_waiting_run. destruct (negb _); [done|]. unfold mbind, M_bind, gets, call. cbn.
  destruct (fs_claim_commit sv _) as [x []]; cbn; [|done]. by destruct (match c_runs c !! rid with Some _ => _ | None => _ end).
Qed.

(** [start] counts one slot for the tenant of the user and then resumes, or it raises. *)
Lemma start_cases fuel rid trace fresh r initial name c : local_mode E (c_rm c) ->
  (exists c' e, start E db sv fuel rid trace fresh r initial name c = (c', Raise e) /\ c_history c' = c_history c /\
     local_mode E (c_rm c') /\ forall t, active c t <= active c' t) \/
  (exists c1 r1, start E db sv fuel rid trace fresh r initial name c = resume E db sv fuel (Some trace) r1 rid c1 /\
     ru_flow r1 = ru_flow r /\ ru_user r1 = ru_user r /\ ru_workflow r1 = ru_workflow r /\ tenant r1 = user_text r /\
     c_history c1 = c_history c /\ local_mode E (c_rm c1) /\
     forall t, active c1 t = active c t + (if decide (user_text r = t) then 1 else 0)).
Proof.
  intros Hl. unfold start, initialize_execution_unit, mbind, M_bind. cbn [modifies gets id].
  set (c0 := set_runs _ c). assert (c_history c0 = c_history c /\ c_rm c0 = c_rm c) as [H0 Hrm] by done. clearbody c0.
  destruct (create _ _ _ _ _ _ _ _ _ _ _ _) as [s [eu|]]; cbn.
  2: { left. eexists _, _. split; [reflexivity|]. unfold active. cbn. rewrite Hrm. split_and!; [done..|]. lia. }
  destruct (mark_started_local E (clock sv (set_units s c0)) (user_text r) (Some (uuid_to_string (eu_id eu))) (c_rm c0)) as [Hl1 Ha1];
    [by rewrite Hrm|]. rewrite Hrm in Ha1.
  unfold emit, call. cbn. destruct (fs_emit sv _ _) as [x [root|e]]; cbn.
  - right. destruct (str_or_none root); (eexists _, _; split; [reflexivity|]; split_and!; [done..|];
      intros t; unfold active; cbn; rewrite Hrm; exact (Ha1 t)).
  - left. eexists _, _. split; [reflexivity|]. split_and!; [done..|]. intros t. unfold active at 2. cbn.
    rewrite Hrm. change (active c t <= local_active (mark_started E (clock sv (set_units s c0)) (user_text r) (Some (uuid_to_string (eu_id eu))) (c_rm c)) t).
    rewrite Ha1. unfold active. destruct (decide _); lia.
Qed.

(** ** A tenant at its limit *)
Definition saturated (t : string) c : Prop :=
  local_mode E (c_rm c) /\ env_max_concurrent E <= active c t.

Lemma saturated_slots t c c' : same_slots c c' -> saturated t c -> saturated t c'.
Proof. intros Hs [Hl Ha]. destruct (Hs Hl) as [Hl' Ea]. split; [done|]. unfold active, local_active in *. by rewrite Ea. Qed.

(** The execution of a node of a tenant at its limit parks the run. *)
Lemma execute_saturated r run node p c : env_testing E = false -> saturated (tenant r) c ->
  exists c' resp, execute_current_node E db sv r run node p c = (c', Ok (inl resp)) /\ rs_status resp = "WAITING" /\
    same_log c c' /\ same_slots c c'.
Proof.
  intros Ht [Hl Ha]. unfold execute_current_node, mbind, M_bind.
  assert (exists c' resp, check_resources E db sv r run node p c = (c', Ok (Some resp)) /\ rs_status resp = "WAITING" /\
    same_log c c' /\ same_slots c c') as (c'&resp&->&Hst&H1&H2).
  { unfold check_resources, catch, mbind, M_bind, on_rm.
    destruct (can_execute E (clock sv c) (tenant r) (c_rm c)) as [s' o] eqn:Hc.
    apply can_execute_local in Hc as [[k ->] Ho]; [|done..].
    destruct o as [reason|]; [|exfalso; unfold active in Ha; destruct Ho as [Ho _]; specialize (Ho eq_refl); lia].
    match goal with |- context [park sv r run ?a ?b ?t ?c0] => pose proof (park_slots r run a b t c0) as H2;
      pose proof (park_log sv r run a b t c0) as H1; destruct (park sv r run a b t c0) as [c2 res] eqn:Hp end.
    assert (res = Ok ()) as ->. { by inversion Hp. }
    cbn in *. eexists _, _. split; [reflexivity|]. split_and!; [done|by apply H1..|].
    etrans; [|exact H2]. intros _. by destruct Hl. }
  by exists c', resp.
Qed.

Lemma loop_saturated fuel r rid node c : env_testing E = false -> saturated (tenant r) c ->
  wp (run_loop E db sv fuel r rid node)
    (fun c' res => c_history c' = c_history c /\ same_slots c c' /\
       match res with Ok (Some resp) => rs_status resp ∈ ["WAITING"; "FAILED"] | _ => True end) c.
Proof.
  intros Ht Hs. destruct fuel as [|fuel]; [done|]. cbn [run_loop]. unfold loop_body. apply flow_wp_bind, flow_wp_bind. cbn.
  destruct (c_runs c !! rid) as [run|]; [|cbn; split_and!; try done; set_solver].
  apply flow_wp_bind. cbn. apply flow_wp_bind. eapply wp_keeps with (R := fun a b => same_log a b /\ same_slots a b).
  { intros c0. split; [apply emit_log|apply emit_slots]. }
  intros c1 [started|e] [[Hh _] Hsl]; [|done]. apply flow_wp_bind. unfold wp.
  destruct (execute_saturated r run node started c1) as (c2&resp&->&Hst&[Hh2 _]&Hsl2); [done|by eapply saturated_slots|].
  cbn. split_and!; [congruence|by etrans|]. rewrite Hst. set_solver.
Qed.

Lemma resume_saturated fuel ctx r rid c : env_testing E = false -> saturated (tenant r) c ->
  wp (resume E db sv fuel ctx r rid) (fun c' res => c_history c' = c_history c /\ same_slots c c' /\
    match res with Ok (Some resp) => rs_status resp ∈ ["WAITING"; "FAILED"; "SKIPPED"] | _ => True end) c.
Proof.
  intros Ht Hs. unfold resume. apply flow_wp_bind. cbn. destruct (c_runs c !! rid) as [run|]; [|cbn; split_and!; try done; set_solver].
  apply flow_wp_bind. eapply flow_wp_mono; [apply (claim_response rid (fr_status run) c)|].
  intros c1 res (H1&H2&Hres). destruct H1 as [H1 _]. destruct res as [[resp|]|e]; [|..|by split_and!].
  { apply flow_wp_ret. split_and!; [done..|]. rewrite Hres. set_solver. }
  apply flow_wp_bind. cbn. apply flow_wp_bind.
  eapply wp_keeps with (R := fun a b => same_log a b /\ same_slots a b).
  { intros c0. destruct (json_truthy _); by split; [|apply same_slots_rm]. }
  intros c2 [[]|e] [[Hh2 _] Hs2]; [|split_and!; [by rewrite Hh2|by etrans; [exact H2|]|done]].
  eapply flow_wp_mono; [apply loop_saturated; [done|]|].
  - eapply saturated_slots; [|exact Hs]. etrans; [exact H2|exact Hs2].
  - intros c3 res (Hh3&Hs3&Hres3). split_and!.
    + by rewrite Hh3, Hh2.
    + etrans; [exact H2|]. etrans; [exact Hs2|exact Hs3].
    + destruct res as [[resp|]|e]; [|done..]. set_solver.
Qed.
End slots.

(** Anything the runners of one tenant do: start a run, resume a run *)
Inductive tenant_step {X S} (E : env X) (db : eu_session S) sv (t : string) : cfg -> cfg -> Prop :=
| ts_start fuel rid trace fresh r initial name c : user_text r = t ->
    tenant_step E db sv t c (start E db sv fuel rid trace fresh r initial name c).1
| ts_resume fuel ctx r rid c : tenant r = t -> tenant_step E db sv t c (resume E db sv fuel ctx r rid c).1.

(** a tenant at its limit is stuck.  A run takes its slot before its first
    node and [_check_resources] compares the counter that includes it; so once the
    counter of a tenant has reached the limit, no start and no resume of its runs
    executes a node again: they all end waiting, none gives its slot back, and the
    event they wait for is never published.  A limit of one stops the first run. *)
Theorem saturated_tenant_stuck {X S} (E : env X) (db : eu_session S) sv t c c' :
  env_testing E = false -> rtc (tenant_step E db sv t) c c' -> saturated E t c ->
  saturated E t c' /\ c_history c' = c_history c.
Proof.
  intros Ht Hr Hs. revert Hs. induction Hr as [c|c1 c2 c3 Hstep _ IH]; [done|]. intros Hs.
  assert (saturated E t c2 /\ c_history c2 = c_history c1) as [H2 Hh2].
  2: { destruct (IH H2) as [H3 Hh3]. split; [done|congruence]. }
  clear IH. destruct Hstep as [fuel rid trace fresh r initial name c Hu|fuel ctx r rid c Hu].
  - destruct Hs as [Hl Ha]. destruct (start_cases E db sv fuel rid trace fresh r initial name c Hl)
      as [(c'&e&->&Hh&Hl'&Hle)|(ca&r1&->&_&_&_&Htn&Hh&Hl'&Hact)].
    + split; [split; [done|]|done]. cbn. specialize (Hle t). lia.
    + assert (saturated E (tenant r1) ca) as Hsa.
      { split; [done|]. rewrite Htn, Hact, Hu, decide_True by done. lia. }
      destruct (resume_saturated E db sv fuel (Some trace) r1 rid ca Ht Hsa) as (Hh'&Hsl&_).
      rewrite Htn, Hu in Hsa. split; [by eapply saturated_slots|congruence].
  - rewrite <- Hu in *. destruct (resume_saturated E db sv fuel ctx r rid c Ht Hs) as (Hh&Hsl&_).
    split; [by eapply saturated_slots|done].
Qed.

Lemma saturated_tenant_stuck_witness :
  fr_status <$> (c_runs (quiet_start 1 None quiet_cfg).1 !! "run-1") = Some "waiting" /\
  c_history (resume (quiet_env 1) quiet_session (quiet_services quiet_nodes) 10 None (quiet_runner None) "run-1"
    (quiet_start 1 None quiet_cfg).1).1 = [].
Proof.
  split; [vm_compute; reflexivity|].
  refine (proj2 (saturated_tenant_stuck (quiet_env 1) quiet_session (quiet_services quiet_nodes) ""
    (quiet_start 1 None quiet_cfg).1 _ eq_refl _ _)).
  - apply rtc_once, ts_resume. reflexivity.
  - split; [split; reflexivity|]. vm_compute. discriminate.
Defined.

(** a run without a user or without a workflow type never gives its slot back.
    When it ends in any other way than a failure, success included, the counter of
    its tenant is one higher than before. *)
Theorem anonymous_run_keeps_slot {X S} (E : env X) (db : eu_session S) sv fuel rid trace fresh r initial name c c' resp :
  emits sv -> local_mode E (c_rm c) -> ru_user r = None \/ str_or_none (ru_workflow r) = None ->
  start E db sv fuel rid trace fresh r initial name c = (c', Ok (Some resp)) -> rs_status resp <> "FAILED" ->
  forall t, active c' t = active c t + (if decide (user_text r = t) then 1 else 0).
Proof.
  intros He Hl Hu Hst Hnf t.
  destruct (start_cases E db sv fuel rid trace fresh r initial name c Hl) as [(c1&e&H1&_)|(c1&r1&H1&Hf1&Hu1&Hw1&_&_&Hl1&Ha)];
    [congruence|]. rewrite <- Hu1, <- Hw1 in Hu.
  pose proof (resume_spares E db sv fuel (Some trace) r1 rid He Hu c1) as Hsp. rewrite <- H1, Hst in Hsp. cbn in Hsp.
  destruct Hsp as [Hf|Hsl]; [done|]. destruct (Hsl Hl1) as [_ Eact]. rewrite <- Ha. unfold active, local_active. by rewrite Eact.
Qed.

Lemma anonymous_run_keeps_slot_witness :
  fr_status <$> (c_runs (quiet_start 5 None quiet_cfg).1 !! "run-1") = Some "success" /\
  active (quiet_start 5 None quiet_cfg).1 "" = 1.
Proof.
  split; [vm_compute; reflexivity|].
  rewrite (anonymous_run_keeps_slot (quiet_env 5) quiet_session (quiet_services quiet_nodes) 10 "run-1" "trace-1" (MkUUID 1)
    (quiet_runner None) [] "demo" quiet_cfg (quiet_start 5 None quiet_cfg).1
    (match (quiet_start 5 None quiet_cfg).2 with Ok (Some resp) => resp | _ => bare_response "" "" [] end)).
  - reflexivity.
  - intros ev x. reflexivity.
  - split; reflexivity.
  - left. reflexivity.
  - vm_compute. reflexivity.
  - vm_compute. discriminate.
Defined.
