(* ===== verification/FlowWorld.v ===== *)
(** * What a flow may do to the outside world

    The engine reaches the outside world only through its services and its nodes: a
    preorder on the world that the services respect, and that the nodes of a flow
    respect in the states the flow passes through, relates the world before and
    after the whole flow. *)
From S2P Require Import Prelude PyUuid Json ResourceManager ExecutionUnit FlowEngine FlowFacts.
Local Open Scope Z_scope.

(** ** The resource manager *)
Section manager.
Context {X : Type} (R : relation X) `{!PreOrder R} (E : env X).

(** The function stays within the relation. *)
Definition within {A} (f : X -> X * A) : Prop := forall x, R x (f x).1.

Record client_within (c : quota_client X) : Prop := {
  cw_get k : within (k_get c k);
  cw_set k v : within (k_set c k v);
  cw_incrby k n : within (k_incrby c k n);
  cw_expire k n : within (k_expire c k n);
  cw_delete ks : within (k_delete c ks);
  cw_scan p : within (k_scan c p)
}.
Record env_within : Prop := {
  ew_connect : within (env_connect E);
  ew_client : client_within (env_client E);
  ew_backend c : env_backend E = Some c -> client_within c;
  ew_publish t : within (env_publish E t)
}.

Lemma within_match {A B} (f : X -> X * result A) (g : X -> A -> X * result B) :
  within f -> (forall a, within (fun x => g x a)) ->
  within (fun x => match f x with (x1, Raise e) => (x1, Raise e) | (x1, Ok a) => g x1 a end).
Proof. intros Hf Hg x. specialize (Hf x). destruct (f x) as [x1 [a|e]]; [|done]. etrans; [exact Hf|apply Hg]. Qed.

Hypothesis HE : env_within.
Implicit Types (s : rm X).

Lemma get_redis_within now s : R (rm_ext s) (rm_ext (get_redis E now s).1).
Proof.
  unfold get_redis. destruct (_ <=? _); [done|]. destruct (env_redis_url E); [|done].
  pose proof (ew_connect HE (rm_ext s)) as H. by destruct (env_connect E (rm_ext s)).
Qed.
Lemma get_int_within k x : R x (get_int (env_client E) k x).1.
Proof. unfold get_int. pose proof (cw_get _ (ew_client HE) k x) as H. by destruct (k_get _ _ _). Qed.
Lemma get_tenant_active_within now t s : R (rm_ext s) (rm_ext (get_tenant_active E now t s).1).
Proof.
  unfold get_tenant_active. pose proof (get_redis_within now s) as H. destruct (get_redis E now s) as [s1 [|]]; [|done].
  pose proof (get_int_within (concurrency_key t) (rm_ext s1)) as H1. destruct (get_int _ _ _) as [x [n|e]]; by etrans.
Qed.
Lemma can_execute_within now t s : R (rm_ext s) (rm_ext (can_execute E now t s).1).
Proof.
  unfold can_execute. destruct (env_testing E); [done|]. pose proof (get_tenant_active_within now t (purge_pending s)) as H.
  destruct (get_tenant_active _ _ _ _) as [s1 n]. by destruct (_ <=? _).
Qed.
Lemma via_backend_within {A} (f : quota_client X -> X -> X * result A) s :
  (forall c, client_within c -> within (f c)) -> R (rm_ext s) (rm_ext (via_backend E f s).1).
Proof.
  intros Hf. unfold via_backend. destruct (env_backend E) as [c|] eqn:Hc; [|done].
  pose proof (Hf c (ew_backend HE c Hc) (rm_ext s)) as H. by destruct (f c (rm_ext s)).
Qed.
Lemma get_counter_within c k : client_within c -> within (get_counter c k).
Proof. intros Hc x. unfold get_counter. pose proof (cw_get c Hc k x) as H. by destruct (k_get _ _ _) as [? [[]|]]. Qed.
Lemma add_and_expire_within c k n ttl : client_within c -> within (add_and_expire c k n ttl).
Proof.
  intros Hc x. unfold add_and_expire. pose proof (cw_incrby c Hc k n x) as H. destruct (k_incrby _ _ _ _) as [x1 [v|e]]; [|done].
  pose proof (cw_expire c Hc k ttl x1) as H1. destruct (k_expire _ _ _ _) as [x2 [u|e]]; by etrans.
Qed.
Lemma set_memory_within c e n : client_within c -> within (set_memory_if_greater c e n).
Proof.
  intros Hc x. unfold set_memory_if_greater. pose proof (cw_get c Hc (memory_key e) x) as H. destruct (k_get _ _ _) as [x1 [cur|ex]]; [|done].
  set (g := match cur with Some _ => _ | None => _ end). clearbody g.
  assert (R x (if g then k_set c (memory_key e) (Z_to_string n) x1 else (x1, Ok ())).1) as H2.
  { destruct g; [|done]. etrans; [exact H|]. apply (cw_set c Hc). }
  destruct (if g then _ else _) as [x2 [u|ex]]; [|done]. etrans; [exact H2|]. apply (cw_expire c Hc).
Qed.

Lemma check_quota_within now eu s : R (rm_ext s) (rm_ext (check_quota E now eu s).1).
Proof.
  unfold check_quota. destruct (env_testing E); [done|]. destruct (rm_usage s !! eu) as [snap|]; [|done].
  pose proof (can_execute_within now (us_tenant_id snap) s) as H1. destruct (can_execute _ _ _ _) as [s1 [reason|]]; [done|].
  destruct (rm_usage s1 !! eu) as [snap'|]; [|done].
  pose proof (via_backend_within (fun c => get_cpu_ms c eu) s1 (fun c => get_counter_within c _)) as H2.
  destruct (via_backend E (fun c => get_cpu_ms c eu) s1) as [s2 [cpu|e]]; [|by etrans].
  pose proof (via_backend_within (fun c => get_syscalls c eu) s2 (fun c => get_counter_within c _)) as H3.
  assert (R (rm_ext s) (rm_ext s2)) as H12 by (by etrans).
  destruct (via_backend E (fun c => get_syscalls c eu) s2) as [s3 [calls|e]]; [|by etrans].
  destruct (_ <? _); [by etrans|]. destruct (_ <? _); by etrans.
Qed.
Lemma backend_syscalls_within n e s : R (rm_ext s) (rm_ext (backend_syscalls E n e s).1).
Proof.
  revert s. induction n as [|n IH]; intros s; [done|]. cbn [backend_syscalls].
  pose proof (via_backend_within (fun c => increment_syscalls c e) s (fun c => add_and_expire_within c _ _ _)) as H.
  destruct (via_backend E (fun c => increment_syscalls c e) s) as [s1 [v|ex]]; [|done]. etrans; [exact H|apply IH].
Qed.
Lemma record_usage_within e cpu mem calls s : R (rm_ext s) (rm_ext (record_usage E e cpu mem calls s).1).
Proof.
  unfold record_usage, record_cpu, record_memory, record_syscall.
  set (s0 := with_usage s _). assert (rm_ext s0 = rm_ext s) as <- by done. clearbody s0.
  pose proof (via_backend_within (fun c => add_cpu_ms c e cpu) s0 (fun c => add_and_expire_within c _ _ _)) as H1.
  destruct (via_backend E (fun c => add_cpu_ms c e cpu) s0) as [s1 [v|ex]]; [|done].
  set (s1' := with_usage s1 _). assert (rm_ext s1' = rm_ext s1) as Hs1 by done. cbn [fst] in H1. rewrite <- Hs1 in H1. clearbody s1'.
  pose proof (via_backend_within (fun c => set_memory_if_greater c e mem) s1' (fun c => set_memory_within c _ _)) as H2.
  destruct (via_backend E (fun c => set_memory_if_greater c e mem) s1') as [s2 [v2|ex]]; [|by etrans].
  destruct (Z.max 0 calls =? 0); [by etrans|]. etrans; [exact H1|]. etrans; [exact H2|].
  exact (backend_syscalls_within _ _ (with_usage s2 _)).
Qed.

Lemma mark_started_within now t eu s : R (rm_ext s) (rm_ext (mark_started E now t eu s)).
Proof.
  unfold mark_started. pose proof (get_redis_within now s) as H. destruct (get_redis E now s) as [s1 b]. cbn [fst] in H.
  assert (forall s', rm_ext (note_started t eu s') = rm_ext s') as Hn by (intros s'; unfold note_started; by destruct (str_or_none eu)).
  rewrite Hn. destruct b; [|done].
  assert (R (rm_ext s1) (k_incr (env_client E) (concurrency_key t) (rm_ext s1)).1) as H1 by apply (cw_incrby _ (ew_client HE)).
  destruct (k_incr _ _ _) as [x [v|e]]; by etrans.
Qed.
Lemma reset_tenant_within now t s : R (rm_ext s) (rm_ext (reset_tenant_quota E now t s)).
Proof.
  unfold reset_tenant_quota. pose proof (get_redis_within now s) as H. destruct (get_redis E now s) as [s1 [|]]; [|done].
  pose proof (cw_set _ (ew_client HE) (concurrency_key t) "0" (rm_ext s1)) as H1. destruct (k_set _ _ _ _) as [x [v|e]]; by etrans.
Qed.
Lemma complete_local_within t s : rm_ext (complete_local t s).1.1 = rm_ext s.
Proof. unfold complete_local. by destruct (0 <? _). Qed.
Lemma complete_redis_within now t s : R (rm_ext s) (rm_ext (complete_redis E now t s).1.1).
Proof.
  unfold complete_redis. pose proof (get_int_within (concurrency_key t) (rm_ext s)) as H.
  destruct (get_int _ _ _) as [x [cur|e]]; [|by rewrite complete_local_within].
  assert (R x (k_decr (env_client E) (concurrency_key t) x).1) as H1 by apply (cw_incrby _ (ew_client HE)).
  cbn [fst] in H. destruct (k_decr _ _ _) as [x1 [new|e]]; cbn [fst] in H1; [|rewrite complete_local_within; by etrans].
  destruct (new <? 0); [|by etrans]. etrans; [exact H|]. etrans; [exact H1|]. exact (reset_tenant_within now t (with_ext s x1)).
Qed.
Lemma mark_completed_within now t eu s : R (rm_ext s) (rm_ext (mark_completed E now t eu s)).
Proof.
  unfold mark_completed. pose proof (get_redis_within now s) as H. destruct (get_redis E now s) as [s1 b]. cbn [fst] in H.
  assert (R (rm_ext s) (rm_ext (if b then complete_redis E now t s1 else complete_local t s1).1.1)) as H2.
  { destruct b; [etrans; [exact H|apply complete_redis_within]|by rewrite complete_local_within]. }
  destruct (if b then _ else _) as [[s2 cur] new]. cbn [fst] in H2. set (s3 := match str_or_none eu with Some _ => _ | None => _ end).
  assert (rm_ext s3 = rm_ext s2) as Hs3 by (unfold s3; by destruct (str_or_none eu)). rewrite <- Hs3 in H2. clearbody s3.
  destruct (_ && _); [|done]. etrans; [exact H2|]. apply (ew_publish HE).
Qed.
End manager.

(** ** The engine *)
Section engine.
Context {X S : Type} (R : relation X) `{!PreOrder R} (E : env X) (db : eu_session S) (sv : @flow_services X S).
Local Abbreviation cfg := (@cfg X S).
Implicit Types (c : cfg) (r : runner).

Record services_within : Prop := {
  sw_emit ev : within R (fs_emit sv ev);
  sw_hook a b x : R x (fs_hook sv a b x);
  sw_register w x : R x (fs_register_wait sv w x);
  sw_enrich a b : within R (fs_enrich sv a b);
  sw_feedback a b : within R (fs_feedback sv a b);
  sw_capture a : within R (fs_capture sv a);
  sw_extractor n f st : fs_extractor sv n = Some f -> within R (f st);
  sw_claim : within R (fs_claim_commit sv)
}.
Hypothesis HE : env_within R E.
Hypothesis Hsv : services_within.

(** The world moves within the relation and the state of the flow stays. *)
Definition outside c c' : Prop := c_state c' = c_state c /\ R (c_ext c) (c_ext c').
#[export] Instance outside_preorder : PreOrder outside.
Proof. split; [done|]. intros a b d [H1 H2] [H3 H4]. split; [congruence|by etrans]. Qed.

Lemma call_outside {A} (f : X -> X * result A) : within R f -> keeps outside (call (S := S) f).
Proof. intros Hf c. unfold call. specialize (Hf (c_ext c)). by destruct (f (c_ext c)). Qed.
Lemma effect_outside (f : X -> X) : (forall x, R x (f x)) -> keeps outside (effect (S := S) f).
Proof. intros Hf c. by split; [|apply Hf]. Qed.
Lemma on_rm_outside {A} (f : Z -> rm X -> rm X * A) : (forall now s, R (rm_ext s) (rm_ext (f now s).1)) -> keeps outside (on_rm (S := S) sv f).
Proof. intros Hf c. unfold on_rm. specialize (Hf (clock sv c) (c_rm c)). by destruct (f _ _). Qed.
Lemma emit_outside ty rid p pl : keeps outside (emit (S := S) sv ty rid p pl).
Proof. apply call_outside, (sw_emit Hsv). Qed.
Lemma emit_runs ty rid p pl c : c_runs (emit (S := S) sv ty rid p pl c).1 = c_runs c.
Proof. unfold emit, call. by destruct (fs_emit sv _ _). Qed.
Lemma update_run_outside rid f : keeps outside (update_run (X := X) (S := S) rid f).
Proof. intros c. done. Qed.
Lemma finish_unit_outside r rid st : keeps outside (finish_unit db sv r rid st).
Proof. intros c. unfold finish_unit. simpl. by destruct (match ru_eu r with Some _ => _ | None => _ end) as [? [?|]]. Qed.
Lemma release_slot_outside r : keeps outside (release_slot E sv r).
Proof. apply on_rm_outside. intros t s. exact (mark_completed_within R E HE _ _ _ s). Qed.
Lemma load_run_outside rid : keeps outside (load_run (X := X) (S := S) rid).
Proof. intros c. done. Qed.
Lemma respond_outside st run a b : keeps outside (respond (X := X) (S := S) st run a b).
Proof. intros c. done. Qed.
Lemma hook_outside a b : keeps outside (effect (S := S) (fs_hook sv a b)).
Proof. apply effect_outside, (sw_hook Hsv). Qed.
Lemma register_outside w : keeps outside (effect (S := S) (fs_register_wait sv w)).
Proof. apply effect_outside, (sw_register Hsv). Qed.
#[local] Hint Resolve emit_outside update_run_outside finish_unit_outside release_slot_outside load_run_outside respond_outside
  hook_outside register_outside : keeps.

Lemma fail_execution_outside r run msg node p : keeps outside (fail_execution E db sv r run msg node p).
Proof. unfold fail_execution. keeps_auto. Qed.
#[local] Hint Resolve fail_execution_outside : keeps.
Lemma park_outside r run ev node t : keeps outside (park sv r run ev node t).
Proof. unfold park. keeps_auto. Qed.
#[local] Hint Resolve park_outside : keeps.
Lemma can_execute_outside t : keeps outside (on_rm (S := S) sv (fun now => can_execute E now t)).
Proof. apply on_rm_outside. intros now s. by apply can_execute_within. Qed.
Lemma check_quota_outside eu :
  keeps outside ((fun c => let (s, q) := check_quota E (clock sv c) eu (c_rm c) in (set_rm s c, q)) : FlowEngine.M (option string)).
Proof. intros c. simpl. pose proof (check_quota_within R E HE (clock sv c) eu (c_rm c)) as H. by destruct (check_quota _ _ _ _). Qed.
#[local] Hint Resolve can_execute_outside check_quota_outside : keeps.
Lemma check_resources_outside r run node p : keeps outside (check_resources E db sv r run node p).
Proof. unfold check_resources. keeps_auto. Qed.
Lemma record_usage_outside r ms : keeps outside (record_resource_usage (S := S) E r ms).
Proof.
  unfold record_resource_usage. destruct (truthy _); intros c; [|done]. split; [done|]. exact (record_usage_within R E HE _ _ _ _ (c_rm c)).
Qed.
Lemma extract_outside wf : keeps outside (extract_execution_result sv wf).
Proof.
  unfold extract_execution_result. apply keeps_bind; [apply _|keeps_auto|]. intros st.
  destruct (fs_extractor sv _) as [f|] eqn:Hx; [|keeps_auto]. apply call_outside. by eapply (sw_extractor Hsv).
Qed.
Lemma capture_outside a : keeps outside (call (S := S) (fs_capture sv a)).
Proof. apply call_outside, (sw_capture Hsv). Qed.
#[local] Hint Resolve extract_outside capture_outside : keeps.
Lemma maybe_finalize_outside r run node p : keeps outside (maybe_finalize_completion E db sv r run node p).
Proof. unfold maybe_finalize_completion, finalize_handoff, finalize_success, capture_flow_completion. keeps_auto. Qed.
#[local] Hint Resolve check_resources_outside record_usage_outside maybe_finalize_outside : keeps.

(** ** Nodes and the loop *)
Context (f : flow) (good : dict json -> Prop) (named : string -> Prop).

(** The nodes of the flow respect the relation in good states, which their patches keep. *)
Definition node_within (node : string) : Prop := forall g st a x, dget (fs_nodes sv) node = Some g -> good st ->
  R x (g st a x).1.1 /\ good (g st a x).1.2 /\
  match (g st a x).2 with Ok nres => good (dict_update (g st a x).1.2 (nr_patch nres)) | Raise _ => True end.
Hypothesis Hnodes : forall node, named node -> node_within node.
Hypothesis Hclosed : forall node st n, named node -> resolve_next_node node st f = Ok (Some n) -> named n.

Definition progresses c c' : Prop := good (c_state c) -> good (c_state c') /\ R (c_ext c) (c_ext c').
#[export] Instance progresses_preorder : PreOrder progresses.
Proof.
  split; [intros c Hc; by split|]. intros a b d H1 H2 Ha. destruct (H1 Ha) as [Hb ?]. destruct (H2 Hb) as [Hd ?]. split; [done|by etrans].
Qed.
Lemma outside_progresses {A} (m : FlowEngine.M A) : keeps outside m -> keeps progresses m.
Proof. intros Hm c Hc. destruct (Hm c) as [-> H]. done. Qed.

(** A node leaves a good state, also after its patch. *)
Lemma execute_node_progresses rid node c : named node -> good (c_state c) ->
  wp (execute_node sv rid node) (fun c' res => good (c_state c') /\ R (c_ext c) (c_ext c') /\
    match res with Ok (nres, _) => good (dict_update (c_state c') (nr_patch nres)) | Raise _ => True end) c.
Proof.
  intros Hn Hg. unfold execute_node. destruct (str_in _ _); [done|]. destruct (dget (fs_nodes sv) node) as [g|] eqn:Hf; [|done].
  apply flow_wp_bind. cbn. apply flow_wp_bind. cbn. set (c0 := set_locals _ _ c).
  assert (c_state c0 = c_state c /\ c_ext c0 = c_ext c) as [S0 X0] by done. clearbody c0. rewrite <- S0 in Hg. rewrite <- X0.
  apply flow_wp_bind. eapply wp_keeps; [apply call_outside, (sw_enrich Hsv)|]. intros c1 res1 [S1 X1]. rewrite <- S1 in Hg.
  destruct res1 as [_|e]; [|done]. apply flow_wp_bind. cbn. apply flow_wp_bind. unfold wp at 1.
  destruct (Hnodes node Hn g (c_state c1) (default 0 (dget (c_attempts c) node) + 1) (c_ext c1) Hf Hg) as (HR&Hg2&Hp).
  destruct (g _ _ _) as [[x st] [nres|e]]; cbn in *; [|split_and!; [done|by etrans|done]].
  apply flow_wp_bind. cbn. apply flow_wp_bind. eapply wp_keeps; [apply call_outside, (sw_feedback Hsv)|].
  intros c3 [u|e] [S3 X3]; cbn in S3, X3; [apply flow_wp_ret|]; rewrite S3; (split_and!; [done| |done]); (etrans; [|exact X3]); by etrans.
Qed.

Lemma execute_current_progresses r run node p c : named node -> good (c_state c) ->
  wp (execute_current_node E db sv r run node p) (fun c' res => good (c_state c') /\ R (c_ext c) (c_ext c') /\
    match res with Ok (inr (nres, _)) => good (dict_update (c_state c') (nr_patch nres)) | _ => True end) c.
Proof.
  intros Hn Hg. unfold execute_current_node. apply flow_wp_bind. eapply wp_keeps; [apply check_resources_outside|].
  intros c1 res1 [S1 X1]. rewrite <- S1 in Hg. destruct res1 as [[resp|]|e]; [by split_and!| |by split_and!].
  apply flow_wp_bind. cbn. apply flow_wp_bind, wp_catch, flow_wp_fmap.
  eapply flow_wp_mono; [by apply execute_node_progresses|]. intros c2 [[nres d]|e] (G2&X2&P2); cbn.
  - apply flow_wp_bind. cbn. apply flow_wp_bind. eapply wp_keeps; [apply record_usage_outside|].
    intros c3 [[]|e'] [S3 X3]; [apply flow_wp_ret|]; rewrite S3; (split_and!; [done| |done]); (etrans; [|exact X3]); by etrans.
  - apply flow_wp_bind. eapply wp_keeps; [apply emit_outside|]. intros c3 [i|e'] [S3 X3]; cbn; rewrite ?S3.
    + apply flow_wp_fmap. eapply wp_keeps; [apply fail_execution_outside|].
      intros c4 [resp|e'] [S4 X4]; rewrite S4, S3; (split_and!; [done| |done]); (etrans; [|exact X4]); (etrans; [|exact X3]); by etrans.
    + split_and!; [done| |done]. etrans; [|exact X3]. by etrans.
Qed.

Lemma handle_progresses r run node nres status p c : good (c_state c) -> good (dict_update (c_state c) (nr_patch nres)) ->
  wp (handle_node_status E db sv r run node nres status p) (fun c' res => good (c_state c') /\ R (c_ext c) (c_ext c')) c.
Proof.
  intros Hg Hp.
  assert (forall A (m : FlowEngine.M A), keeps outside m -> wp m (fun c' res => good (c_state c') /\ R (c_ext c) (c_ext c')) c) as Hout.
  { intros A m Hm. eapply wp_keeps; [exact Hm|]. intros c' res [-> HR]. by split. }
  unfold handle_node_status. destruct (status =s "SUCCESS").
  { apply flow_wp_bind. cbn. apply flow_wp_bind. eapply wp_keeps; [apply maybe_finalize_outside|].
    intros c1 [o|e] [S1 X1]; cbn in S1, X1; [apply flow_wp_ret|]; by rewrite S1. }
  destruct (status =s "RETRY"); [apply Hout; keeps_auto|]. destruct (status =s "FAILURE"); [apply Hout; keeps_auto|].
  destruct (status =s "WAIT"); apply Hout; keeps_auto.
Qed.

Lemma advance_progresses r run node p c : named node -> ru_flow r = f -> good (c_state c) ->
  wp (advance_to_next_node E db sv r run node p) (fun c' res => good (c_state c') /\ R (c_ext c) (c_ext c') /\
    match res with Ok (inr n') => named n' | _ => True end) c.
Proof.
  intros Hn Hf Hg. unfold advance_to_next_node. apply flow_wp_bind. cbn. apply flow_wp_bind. unfold wp at 1.
  destruct (resolve_next_node node (c_state c) (ru_flow r)) as [o|e] eqn:Ho; cbn; [|done].
  destruct (str_or_none o) as [n|] eqn:Hs.
  - cbn. split_and!; [done..|]. apply str_or_none_Some in Hs as [-> _]. rewrite Hf in Ho. by eapply Hclosed.
  - apply flow_wp_fmap. eapply wp_keeps; [apply fail_execution_outside|]. intros c' [resp|e] [S' X']; by rewrite S'.
Qed.

Lemma loop_body_progresses r rid node c : named node -> ru_flow r = f -> good (c_state c) ->
  wp (loop_body E db sv r rid node) (fun c' res => good (c_state c') /\ R (c_ext c) (c_ext c') /\
    match res with Ok (inr n') => named n' | _ => True end) c.
Proof.
  intros Hn Hf Hg. unfold loop_body. apply flow_wp_bind. cbn. destruct (c_runs c !! rid) as [run|]; [|done].
  apply flow_wp_bind. cbn. apply flow_wp_bind. eapply wp_keeps; [apply emit_outside|]. intros c1 res1 [S1 X1]. rewrite <- S1 in Hg.
  destruct res1 as [i|e]; [|done].
  apply flow_wp_bind. eapply flow_wp_mono; [by apply execute_current_progresses|].
  intros c2 [[resp|[nres ms]]|e] (G2&X2&P2); [by split_and!; [|etrans|]| |by split_and!; [|etrans|]].
  assert (R (c_ext c) (c_ext c2)) as HR2 by (by etrans).
  apply flow_wp_bind. cbn. destruct (c_runs c2 !! rid) as [run2|]; [|done]. unfold settle_node.
  destruct (nr_status nres) as [status|]; [|done]. apply flow_wp_bind. cbn. apply flow_wp_bind.
  eapply wp_keeps; [apply emit_outside|]. intros c3 res3 [S3 X3]. cbn in S3, X3.
  assert (R (c_ext c) (c_ext c3)) as HR3 by (by etrans). rewrite <- S3 in G2, P2. destruct res3 as [u|e]; [|done].
  apply flow_wp_bind. eapply flow_wp_mono; [by apply handle_progresses|]. intros c4 res4 [G4 X4].
  assert (R (c_ext c) (c_ext c4)) as HR4 by (by etrans). destruct res4 as [h|e]; [|done].
  destruct h; [done|done|]. eapply flow_wp_mono; [by apply advance_progresses|].
  intros c5 res5 (G5&X5&N5). split_and!; [done|by etrans|done].
Qed.

Lemma run_loop_progresses fuel r rid node c : named node -> ru_flow r = f -> good (c_state c) ->
  R (c_ext c) (c_ext (run_loop E db sv fuel r rid node c).1).
Proof.
  intros Hn Hf. revert node c Hn. induction fuel as [|fuel IH]; intros node c Hn Hg; [done|]. cbn [run_loop].
  change (wp (next ← loop_body E db sv r rid node; match next with inl resp => mret (Some resp) | inr node' => run_loop E db sv fuel r rid node' end)
    (fun c' _ => R (c_ext c) (c_ext c')) c).
  apply flow_wp_bind. eapply flow_wp_mono; [by apply loop_body_progresses|].
  intros c1 [[resp|n']|e] (G1&X1&N1); [done| |done]. unfold wp. etrans; [exact X1|]. by apply IH.
Qed.

(** ** A started flow *)
Hypothesis Hkeys : forall st k v, str_in k ["trace_id"; "root_event_id"] = true -> good st -> good (dset st k (JStr v)).

Lemma resume_within fuel ctx r rid run c : ru_flow r = f -> c_runs c !! rid = Some run -> fr_status run <> "waiting" ->
  named (fr_current_node run) -> good (fr_state run) -> R (c_ext c) (c_ext (resume E db sv fuel ctx r rid c).1).
Proof.
  intros Hf Hrun Hst Hn Hg. unfold resume, mbind, M_bind. cbn [load_run gets]. rewrite Hrun.
  unfold claim_waiting_run. rewrite (proj2 (String.eqb_neq _ _) Hst). cbn [negb mret M_ret modifies].
  destruct (json_truthy _); cbn [mret M_ret update_run modifies].
  - exact (run_loop_progresses fuel (with_root r _) rid (fr_current_node run) (set_locals (fr_state run) [] c) Hn Hf Hg).
  - set (st := dset (fr_state run) _ _).
    refine (run_loop_progresses fuel (with_root r _) rid (fr_current_node run) (set_runs _ (set_locals st [] c)) Hn Hf _). by apply Hkeys.
Qed.

Lemma start_within fuel rid trace fresh r initial name c : ru_flow r = f -> named (fl_start f) -> good initial ->
  R (c_ext c) (c_ext (start E db sv fuel rid trace fresh r initial name c).1).
Proof.
  intros Hf Hn Hg. unfold start, initialize_execution_unit, mbind, M_bind. cbn [modifies gets id]. rewrite Hf.
  set (row := MkRun _ _ _ _ _ _ _ _ _ _ _ _ _). set (c0 := set_runs _ c).
  assert (c_ext c0 = c_ext c /\ c_runs c0 !! rid = Some row) as [<- R0] by (split; [done|apply lookup_insert_eq]). clearbody c0.
  destruct (create _ _ _ _ _ _ _ _ _ _ _ _) as [u [eu|]]; cbn [modifies]; [|done]. unfold on_rm at 1.
  set (c1 := set_rm _ _). assert (R (c_ext c0) (c_ext c1) /\ c_runs c1 !! rid = Some row) as [X1 R1].
  { split; [|exact R0]. exact (mark_started_within R E HE _ _ _ (c_rm (set_units u c0))). }
  clearbody c1. cbn [mret M_ret update_run modifies]. set (st := if json_truthy _ then _ else _).
  assert (good st) as Hst by (unfold st; destruct (json_truthy _); [done|by apply Hkeys]).
  match goal with |- context [emit sv ?ty ?rr ?pp ?pl ?cc] =>
    destruct (emit_outside ty rr pp pl cc) as [_ X2]; pose proof (emit_runs ty rr pp pl cc) as R2;
    destruct (emit sv ty rr pp pl cc) as [c2 [root|e]] end; cbn [fst] in X2, R2; [|exact (transitivity X1 X2)].
  cbn in R2. etrans; [exact X1|]. etrans; [exact X2|].
  destruct (str_or_none root) as [ev|]; cbn [update_run modifies mret M_ret].
  - eapply (resume_within fuel (Some trace) _ rid (run_traced (dset st "root_event_id" (JStr ev)) (Some trace) (run_traced st (Some trace) row))
      (set_runs _ c2)); [done| |done|done|by apply Hkeys].
    cbn. by rewrite lookup_alter_eq, R2, lookup_alter_eq, R1.
  - eapply (resume_within fuel (Some trace) _ rid (run_traced st (Some trace) row) c2); [done| |done|done|done].
    cbn. by rewrite R2, lookup_alter_eq, R1.
Qed.
End engine.

(** A larger relation *)
Section larger.
Context {X S : Type} (R R' : relation X) (HR : forall x x', R x x' -> R' x x').
Lemma within_larger {A} (f : X -> X * A) : within R f -> within R' f.
Proof. intros Hf x. apply HR, Hf. Qed.
Lemma env_within_larger E : env_within R E -> env_within R' E.
Proof.
  intros [H1 H2 H3 H4]. assert (forall c, client_within R c -> client_within R' c) as Hc.
  { intros c [G1 G2 G3 G4 G5 G6]. split; intros; by apply within_larger. }
  split; [by apply within_larger|by apply Hc|intros c Hb; by apply Hc, H3|intros t; by apply within_larger].
Qed.
Lemma services_within_larger (sv : @flow_services X S) : services_within R sv -> services_within R' sv.
Proof.
  intros [H1 H2 H3 H4 H5 H6 H7 H8]. split; intros; try (by apply within_larger); try (apply HR; auto).
  eapply within_larger, H7; done.
Qed.
End larger.
