(* ===== verification/FlowPlans.v ===== *)
(** * Plans that succeed

    [compile_plan_to_flow] and the runner together: a linear plan whose nodes
    succeed is executed step by step to the end. *)
From S2P Require Import Prelude PyUuid Json RetryPolicy ResourceManager ExecutionUnit FlowEngine FlowFacts FlowSlots FlowWorld.
Local Open Scope Z_scope.

(** ** Compiled flows *)
Lemma compile_edges_other steps acc n : n ∉ removelast steps -> dget (compile_edges steps acc) n = dget acc n.
Proof.
  revert acc. induction steps as [|a [|b rest] IH]; intros acc Hn; [done..|].
  change (dget (compile_edges (b :: rest) (dset acc a (Targets [b]))) n = dget acc n).
  change (removelast (a :: b :: rest)) with (a :: removelast (b :: rest)) in Hn.
  rewrite IH by set_solver. apply dget_dset_ne. set_solver.
Qed.

Lemma removelast_elem {A} (l : list A) x : x ∈ removelast l -> x ∈ l.
Proof.
  induction l as [|a [|b l] IH]; [done|by intros ?%elem_of_nil|].
  change (removelast (a :: b :: l)) with (a :: removelast (b :: l)). rewrite !(elem_of_cons _ x a). naive_solver.
Qed.

Lemma last_any {A} (x : A) l d d' : List.last (x :: l) d = List.last (x :: l) d'.
Proof. revert x. induction l as [|a l IH]; intros x; [done|exact (IH a)]. Qed.

(** Each step leads to the next one. *)
Lemma compile_edges_next pre a b post acc : NoDup (pre ++ a :: b :: post) ->
  dget (compile_edges (pre ++ a :: b :: post) acc) a = Some (Targets [b]).
Proof.
  revert acc. induction pre as [|x pre IH]; intros acc Hnd.
  - change (dget (compile_edges (b :: post) (dset acc a (Targets [b]))) a = Some (Targets [b])).
    rewrite compile_edges_other; [apply dget_dset_eq|]. intros Hin%removelast_elem. by apply NoDup_cons in Hnd as [? _].
  - apply NoDup_cons in Hnd as [_ Hnd]. destruct pre as [|y pre]; apply (IH (dset acc x _) Hnd).
Qed.

Lemma compile_plan_end pre n f : compile_plan_to_flow (pre ++ [n]) = Ok f -> fl_end f = [n].
Proof.
  unfold compile_plan_to_flow. destruct (pre ++ [n]) as [|s l] eqn:El; [done|].
  assert (List.last (s :: l) s = n) as Hl by (rewrite <- El; apply List.last_last).
  intros [= <-]. exact (f_equal (fun x => [x]) Hl).
Qed.

Lemma compile_plan_next pre a b post f : NoDup (pre ++ a :: b :: post) -> compile_plan_to_flow (pre ++ a :: b :: post) = Ok f ->
  str_in a (fl_end f) = false /\ forall st, resolve_next_node a st f = Ok (Some b).
Proof.
  intros Hnd Hf. split.
  - destruct (exists_last (l := b :: post)) as (l&z&Hl); [done|]. rewrite Hl in Hf, Hnd.
    replace (pre ++ a :: l ++ [z]) with ((pre ++ a :: l) ++ [z]) in Hf, Hnd by (by rewrite <- app_assoc).
    rewrite (compile_plan_end _ _ _ Hf). apply str_in_false. apply NoDup_app in Hnd as (_&Hd&_).
    intros Hin. apply (Hd a); [|done]. set_solver.
  - intros st. pose proof (compile_edges_next pre a b post [] Hnd) as He. unfold compile_plan_to_flow in Hf.
    destruct (pre ++ a :: b :: post) as [|s l]; [done|]. injection Hf as <-. unfold resolve_next_node.
    change (match dget (compile_edges (s :: l) []) a with
            | None => Ok None | Some (Targets l) => Ok (head l) | Some (Conditions l) => first_condition l st end = Ok (Some b)).
    by rewrite He.
Qed.


Lemma mark_started_usage {X} (E : env X) now t e s : rm_usage s !! e = None -> e <> "" ->
  rm_usage (mark_started E now t (Some e) s) !! e = Some (new_usage e t).
Proof.
  intros Hu He. unfold mark_started, note_started. rewrite (proj2 (str_or_none_Some (Some e) e) (conj eq_refl He)).
  destruct (get_redis_fields E now s) as [Hf _]. destruct (get_redis E now s) as [s1 redis]. cbn in Hf.
  set (s2 := if redis then _ else _).
  assert (rm_usage s2 = rm_usage s) as Hs2 by (unfold s2; destruct redis; [by destruct (k_incr _ _ _) as [x []]|done]).
  clearbody s2. cbn. rewrite Hs2, Hu. apply lookup_insert_eq.
Qed.

(** The nodes visited after [node] when every node [n] succeeds with the patch [p n] *)
Inductive flow_walk (f : flow) (p : string -> dict json -> dict json) : dict json -> string -> list string -> Prop :=
| walk_end st node : str_in node (fl_end f) = true -> flow_walk f p st node []
| walk_step st node n' post : str_in node (fl_end f) = false ->
    resolve_next_node node (dict_update st (p node st)) f = Ok (Some n') -> n' <> "" ->
    flow_walk f p (dict_update st (p node st)) n' post -> flow_walk f p st node (n' :: post).

(** A compiled plan is walked from any of its steps to the last. *)
Lemma plan_walk p f pre node post st : compile_plan_to_flow (pre ++ node :: post) = Ok f -> NoDup (pre ++ node :: post) ->
  "" ∉ post -> flow_walk f p st node post.
Proof.
  revert pre node st. induction post as [|n' post IH]; intros pre node st Hf Hnd Hne.
  - apply walk_end. rewrite (compile_plan_end _ _ _ Hf). apply str_in_spec. set_solver.
  - destruct (compile_plan_next pre node n' post f Hnd Hf) as [Hend Hnext]. apply not_elem_of_cons in Hne as [H1 H2].
    apply walk_step; [done|apply Hnext|done|]. apply (IH (pre ++ [node])); [by rewrite <- app_assoc..|done].
Qed.

Section plans.
Context {X S : Type} (E : env X) (db : eu_session S) (sv : @flow_services X S).
Local Abbreviation cfg := (@cfg X S).
Implicit Types (c : cfg) (r : runner).

(** The services answer. *)
Record calm : Prop := {
  calm_emit : emits sv;
  calm_enrich a b x : is_ok (fs_enrich sv a b x).2 = true;
  calm_feedback a b x : is_ok (fs_feedback sv a b x).2 = true;
  calm_capture a x : is_ok (fs_capture sv a x).2 = true
}.

(** A registered node that succeeds from the worlds [J], with a patch, and leaves a world of [K] *)
Definition node_gives (J K : X -> Prop) (st patch : dict json) (node : string) : Prop :=
  str_in node (fs_blocked sv) = false /\
  exists f, dget (fs_nodes sv) node = Some f /\
    forall a x, J x -> exists x', f st a x = (x', st, Ok (MkNodeResult (Some "SUCCESS") patch None None)) /\ K x'.

(** A registered node that succeeds, with the patch [p]. *)
Definition succeeds (p : dict json -> dict json) (node : string) : Prop :=
  str_in node (fs_blocked sv) = false /\
  exists f, dget (fs_nodes sv) node = Some f /\
    forall st a x, exists x', f st a x = (x', st, Ok (MkNodeResult (Some "SUCCESS") (p st) None None)).

(** The tenant is below its limit, and the unit, when the runner has one, has CPU
    time left for [n] more nodes of [K] milliseconds. *)
Definition affords r (K n : Z) c : Prop :=
  local_mode E (c_rm c) /\ active c (tenant r) < env_max_concurrent E /\
  ((eu_text r = "" /\ rm_usage (c_rm c) !! "" = None) \/
   (eu_text r <> "" /\ ~ (eu_text r ∈ rm_pending_purge (c_rm c)) /\
    exists u, rm_usage (c_rm c) !! eu_text r = Some u /\ us_tenant_id u = tenant r /\
      us_cpu_time_ms u + n * K <= env_max_cpu_ms E /\ us_syscall_count u <= env_max_syscalls E)).

(** Equal except for the state of the outside world *)
Definition ext_only c c' : Prop := exists x, c' = set_rm (with_ext (c_rm c) x) c.
Lemma ext_only_refl c : ext_only c c.
Proof. exists (c_ext c). destruct c as [? ? [] ? ? ?]. done. Qed.

(** The same, with a world that moves within [R] *)
Context (R : relation X) `{!PreOrder R}.
Hypothesis HRE : env_within R E.
Hypothesis HRsv : services_within R sv.
Definition ext_moves c c' : Prop := exists x, R (c_ext c) x /\ c' = set_rm (with_ext (c_rm c) x) c.
Lemma call_ok {A} (f : X -> X * result A) c : (forall x, is_ok (f x).2 = true) -> within R f ->
  exists c' a, call f c = (c', Ok a) /\ ext_moves c c'.
Proof.
  intros Hf HR. unfold call. specialize (Hf (c_ext c)). specialize (HR (c_ext c)). destruct (f (c_ext c)) as [x [a|e]]; [|done].
  eexists _, a. split; [done|]. by exists x.
Qed.
Lemma emit_ok ty rid p pl c : emits sv -> exists c' a, emit sv ty rid p pl c = (c', Ok a) /\ ext_moves c c'.
Proof. intros He. apply call_ok; [intros x; apply He|apply (sw_emit R sv HRsv)]. Qed.

Lemma affords_ext r K n c c' : ext_moves c c' -> affords r K n c -> affords r K n c'.
Proof. by intros (x&_&->). Qed.

Hypothesis Htest : env_testing E = false.
Hypothesis Hbackend : env_backend E = None.
Context (B : Z).
Hypothesis Hclock : forall x, 0 <= fs_clock sv x <= B.
Local Abbreviation K := (B / 1000 + 1).

Lemma check_resources_pass r run node p n c : 0 <= n -> affords r K n c ->
  exists c', check_resources E db sv r run node p c = (c', Ok None) /\ affords r K n c' /\
    c_runs c' = c_runs c /\ c_history c' = c_history c /\ c_state c' = c_state c /\ same_slots E c c' /\ c_ext c' = c_ext c.
Proof.
  intros Hn (Hl&Ha&Heu). unfold check_resources, catch, mbind, M_bind, on_rm.
  assert (0 <= B) as HB by (specialize (Hclock (c_ext c)); lia).
  destruct (can_execute E (clock sv c) (tenant r) (c_rm c)) as [s1 o] eqn:H1.
  apply can_execute_local in H1 as [[k ->] Ho]; [|done..]. apply Ho in Ha as Ho'. subst o. cbn.
  set (s1 := with_redis _ _ _). assert (rm_ext s1 = c_ext c) as Hx1 by done.
  assert (local_mode E s1 /\ rm_active s1 = rm_active (c_rm c)) as [Hl1 Ea1] by (by destruct Hl).
  assert (rm_pending_purge s1 = ∅) as Hp1 by done.
  assert (active (set_rm s1 c) (tenant r) < env_max_concurrent E) as Ha1 by exact Ha.
  unfold check_quota. rewrite Htest. destruct Heu as [[He Hno]|(He&Hp&u&Hu&Ht&Hc&Hs)].
  - assert (rm_usage s1 !! "" = None) as Hu1 by (cbn; apply map_lookup_filter_None; by left).
    clearbody s1. rewrite He, Hu1. eexists. split; [reflexivity|]. split; [|done]. split_and!; [done..|by left].
  - assert (rm_usage s1 !! eu_text r = Some u) as Hu1 by (cbn; by apply map_lookup_filter_Some).
    clearbody s1. rewrite Hu1, Ht.
    destruct (can_execute E (clock sv (set_rm s1 c)) (tenant r) s1) as [s2 o] eqn:H2.
    apply can_execute_local in H2 as [[k2 ->] Ho2]; [|done..]. apply Ho2 in Ha1 as Ho2'. subst o.
    set (s2 := with_redis _ _ _). assert (rm_ext s2 = c_ext c) as Hx2 by done.
    assert (rm_usage s2 !! eu_text r = Some u) as Hu2.
    { cbn. apply map_lookup_filter_Some. rewrite Hp1. split; [done|]. cbn. set_solver. }
    assert (local_mode E s2 /\ rm_active s2 = rm_active (c_rm c)) as [Hl2 Ea2] by (by destruct Hl1).
    assert (rm_pending_purge s2 = ∅) as Hp2 by done. clearbody s2.
    rewrite Hu2. unfold via_backend. rewrite Hbackend. cbn.
    assert (0 <= n * (B / 1000 + 1)). { apply Z.mul_nonneg_nonneg; [done|]. pose proof (Z.div_pos B 1000). lia. }
    destruct (Z.ltb_spec (env_max_cpu_ms E) (us_cpu_time_ms u)); [lia|].
    destruct (Z.ltb_spec (env_max_syscalls E) (us_syscall_count u)); [lia|].
    eexists. split; [reflexivity|]. split; [|done].
    unfold affords, active, local_active. cbn. rewrite Ea2, Hp2. split_and!; [done..|right]. split_and!; [done|set_solver|by exists u].
Qed.

Lemma ext_moves_fields c c' : ext_moves c c' ->
  c_runs c' = c_runs c /\ c_history c' = c_history c /\ c_state c' = c_state c /\ rm_active (c_rm c') = rm_active (c_rm c) /\
  rm_redis (c_rm c') = rm_redis (c_rm c) /\ R (c_ext c) (c_ext c').
Proof. by intros (x&Hx&->). Qed.

(** Predicates on the world that the services keep *)
Definition closed (J : X -> Prop) : Prop := forall x x', J x -> R x x' -> J x'.

Lemma execute_node_ok rid node patch J K' c : calm -> node_gives J K' (c_state c) patch node -> closed J -> closed K' -> J (c_ext c) ->
  exists c' d, execute_node sv rid node c = (c', Ok (MkNodeResult (Some "SUCCESS") patch None None, d)) /\
    d <= B / 1000 /\ c_runs c' = c_runs c /\ c_history c' = c_history c /\ c_state c' = c_state c /\
    exists x, c_rm c' = with_ext (c_rm c) x /\ K' x.
Proof.
  intros Hcalm (Hbl&f&Hf&Hok) HJ HK Hx. unfold execute_node. rewrite Hbl, Hf. unfold mbind, M_bind. cbn [gets modifies id].
  set (c0 := set_locals _ _ c).
  assert (c_runs c0 = c_runs c /\ c_history c0 = c_history c /\ c_state c0 = c_state c /\ c_rm c0 = c_rm c) as (E1&E2&E3&E4) by done.
  assert (c_ext c0 = c_ext c) as E5 by done. clearbody c0.
  destruct (call_ok (fs_enrich sv rid node) c0) as (c1&a1&->&x1&HR1&->); [apply Hcalm|apply (sw_enrich R sv HRsv)|]. cbn.
  destruct (Hok (default 0 (dget (c_attempts c) node) + 1) x1) as (x2&Hx2&HK2); [eapply HJ; [exact Hx|by rewrite <- E5]|].
  rewrite E3, Hx2. cbn. match goal with |- context [call ?g ?c1] =>
    destruct (call_ok g c1) as (c2&a2&->&x3&HR3&->); [apply Hcalm|apply (sw_feedback R sv HRsv)|] end.
  cbn in HR3. cbn. eexists _, _. split; [reflexivity|]. cbn. rewrite E1, E2, E4. split_and!; [|done..|].
  2: { exists x3. split; [done|]. by eapply HK. }
  unfold clock. cbn. pose proof (Hclock x1). pose proof (Hclock x2).
  pose proof (Z.div_pos (fs_clock sv x1) 1000). assert (fs_clock sv x2 / 1000 <= B / 1000) by (apply Z.div_le_mono; lia). lia.
Qed.

Lemma record_cpu_usage s e ms u : rm_usage s !! e = Some u ->
  exists s', (record_usage E e ms 0 0 s).1 = s' /\ same_counts s s' /\
    exists u', rm_usage s' !! e = Some u' /\ us_tenant_id u' = us_tenant_id u /\ us_cpu_time_ms u' = us_cpu_time_ms u + ms /\
      us_syscall_count u' = us_syscall_count u.
Proof.
  intros Hu. unfold record_usage, record_cpu, record_memory, record_syscall, via_backend. rewrite Hbackend. change (Z.max 0 0 =? 0) with true. cbn.
  eexists. split; [reflexivity|]. split; [done|]. cbn. rewrite lookup_insert_eq.
  eexists. split; [reflexivity|]. unfold snapshot. cbn. rewrite lookup_insert_eq, Hu. done.
Qed.

(** What a turn leaves behind: the same rows, history and state, and one node less to afford *)
Lemma execute_current_node_ok r run node st patch J K' n c : calm -> node_gives J K' (c_state c) patch node -> closed J -> closed K' ->
  J (c_ext c) -> 0 <= n -> affords r K (n + 1) c ->
  exists c' ms, execute_current_node E db sv r run node st c = (c', Ok (inr (MkNodeResult (Some "SUCCESS") patch None None, ms))) /\
    affords r K n c' /\ c_runs c' = c_runs c /\ c_history c' = c_history c /\ c_state c' = c_state c /\
    rm_active (c_rm c') = rm_active (c_rm c) /\ K' (c_ext c').
Proof.
  intros Hcalm Hsucc HJ HK Hx Hn Haff. unfold execute_current_node, mbind, M_bind.
  destruct (check_resources_pass r run node st (n + 1) c) as (c1&->&Haff1&R1&H1&S1&Hsl&X1); [lia|done|].
  destruct (Hsl (proj1 Haff)) as [_ A1]. cbn [gets]. unfold catch, fmap, M_fmap. rewrite <- S1 in Hsucc. rewrite <- X1 in Hx.
  destruct (execute_node_ok (fr_id run) node patch J K' c1 Hcalm Hsucc HJ HK Hx) as (c2&d&->&Hd&R2&H2&S2&x2&Hrm2&HK2). cbn [gets].
  assert (K' (c_ext c2)) as HX2 by (unfold c_ext; by rewrite Hrm2).
  unfold record_resource_usage. destruct Haff1 as (Hl&Ha&[[He Hno]|(He&Hp&u&Hu&Ht&Hc&Hs)]).
  { rewrite He. cbn [truthy mret M_ret]. eexists _, _. split; [reflexivity|].
    split; [|split_and!; [congruence..|by rewrite Hrm2|done]].
    unfold affords, active, local_active, local_mode. rewrite Hrm2. split; [done|]. split; [done|by left]. }
  rewrite (proj2 (truthy_true (eu_text r)) He). cbn [modifies].
  set (ms := if d =? 0 then _ else d). assert (ms <= K) as Hms.
  { unfold ms. destruct (d =? 0); [|lia]. unfold clock.
    assert ((fs_clock sv (c_ext c2) - fs_clock sv (c_ext c1)) / 1000 <= B / 1000).
    { apply Z.div_le_mono; [lia|]. pose proof (Hclock (c_ext c2)). pose proof (Hclock (c_ext c1)). lia. }
    lia. }
  pose proof (record_usage_within R E HRE (eu_text r) ms 0 0 (c_rm c2)) as HRu.
  destruct (record_cpu_usage (c_rm c2) (eu_text r) ms u) as (s'&Hs'&(Ea&Ep&Er)&u'&Hu'&Ht'&Hc'&Hs2); [by rewrite Hrm2|].
  rewrite Hrm2 in Ea, Ep, Er. cbn in Ea, Ep, Er. rewrite Hs' in HRu |- *.
  eexists _, ms. split; [reflexivity|]. cbn. split; [|split_and!; try congruence; exact (HK _ _ HX2 HRu)].
  unfold affords, active, local_active, local_mode in *. cbn. rewrite Ea, Ep, Er.
  split; [done|]. split; [done|right]. split; [done|]. split; [done|].
  exists u'. split_and!; try congruence; lia.
Qed.

(** A row may be rewritten as long as it stays. *)
Definition has_run (rid : string) c : Prop := exists run, c_runs c !! rid = Some run /\ fr_id run = rid.

Lemma turn_next r rid node patch J K' n n' c : calm -> node_gives J K' (c_state c) patch node -> closed J -> closed K' -> J (c_ext c) ->
  0 <= n -> affords r K (n + 1) c -> has_run rid c ->
  str_in node (fl_end (ru_flow r)) = false ->
  resolve_next_node node (dict_update (c_state c) patch) (ru_flow r) = Ok (Some n') -> n' <> "" ->
  exists c' h, loop_body E db sv r rid node c = (c', Ok (inr n')) /\ affords r K n c' /\ has_run rid c' /\
    c_history c' = c_history c ++ [h] /\ fh_run h = rid /\ fh_node h = node /\ fh_status h = "SUCCESS" /\
    c_state c' = dict_update (c_state c) patch /\ rm_active (c_rm c') = rm_active (c_rm c) /\ K' (c_ext c').
Proof.
  intros Hcalm Hsucc HJ HK Hx Hn Haff (run&Hrun&Hid) Hend Hnext Hne.
  unfold loop_body, mbind, M_bind. cbn [load_run gets]. rewrite Hrun. cbn [gets].
  destruct (emit_ok "flow.node.started" rid (ru_root r) [("node", JStr node)] c (calm_emit Hcalm)) as (c1&i1&->&Hx1).
  destruct (ext_moves_fields _ _ Hx1) as (R1&H1&S1&A1&_&X1). rewrite <- S1 in Hsucc.
  destruct (execute_current_node_ok r run node i1 patch J K' n c1) as (c2&ms&->&Haff2&R2&H2&S2&A2&HK2);
    [done..|by eapply HJ|done|by eapply affords_ext|].
  cbn [load_run gets]. rewrite R2, R1, Hrun. unfold settle_node. cbn [nr_status]. unfold mbind, M_bind. cbn [modifies].
  set (h := MkHistory _ _ _ _ _ _ _).
  match goal with |- context [emit sv ?ty ?rr ?pp ?pl ?cc] =>
    destruct (emit_ok ty rr pp pl cc (calm_emit Hcalm)) as (c3&i3&->&Hx3) end.
  destruct (ext_moves_fields _ _ Hx3) as (R3&H3&S3&A3&_&X3). cbn in R3, H3, S3, A3, X3.
  unfold handle_node_status. change ("SUCCESS" =s "SUCCESS") with true. cbv iota. unfold mbind, M_bind. cbn [modifies].
  unfold maybe_finalize_completion. rewrite Hend. cbn [negb mret M_ret].
  unfold advance_to_next_node, mbind, M_bind. cbn [gets set_locals c_state nr_patch]. rewrite S3, S2, S1, Hnext.
  rewrite (proj2 (str_or_none_Some (Some n') n') (conj eq_refl Hne)). cbn.
  eexists _, h. split; [reflexivity|]. cbn. rewrite H3, H2, H1, A3, A2, A1. split_and!; try done.
  - assert (affords r K n c3) as Haff3; [|exact Haff3]. eapply affords_ext; [exact Hx3|exact Haff2].
  - exists (run_at n' (dict_update (c_state c) patch) run). cbn. rewrite R3, R2, R1, Hid, lookup_alter_eq, Hrun.
    by destruct run.
  - exact (HK _ _ HK2 X3).
Qed.

(** The counter after the release of a slot, which does not go below zero *)
Definition released r c (t : string) : Z :=
  if decide (tenant r = t) then Z.max (Z.min 0 (active c t)) (active c t - 1) else active c t.

Lemma capture_ok r run user wf c : calm -> ru_user r = Some user -> str_or_none (ru_workflow r) = Some wf ->
  run_history (fr_id run) c <> [] -> local_mode E (c_rm c) ->
  exists c', capture_flow_completion E db sv r run c = (c', Ok ()) /\
    c_runs c' = c_runs c /\ c_history c' = c_history c /\ c_state c' = c_state c /\
    (forall t, active c' t = released r c t) /\ R (c_ext c) (c_ext c').
Proof.
  intros Hcalm Hu Hw Hh Hl. unfold capture_flow_completion. rewrite Hu, Hw.
  unfold catch, mbind, M_bind. cbn [gets]. destruct (run_history (fr_id run) c) as [|h0 hs] eqn:Eh; [done|].
  match goal with |- context [call ?g c] => destruct (call_ok g c) as (c1&a1&->&Hx1); [apply Hcalm|apply (sw_capture R sv HRsv)|] end.
  destruct (ext_moves_fields _ _ Hx1) as (R1&H1&S1&A1&D1&X1).
  unfold release_slot, on_rm, finish_unit, modifies.
  match goal with |- context [let '(s, u) := ?e in set_units _ c1] => destruct e as [s2 u2] end. set (c2 := set_units _ c1).
  assert (c_runs c2 = c_runs c /\ c_history c2 = c_history c /\ c_state c2 = c_state c /\ c_rm c2 = c_rm c1) as (R2&H2&S2&M2) by done.
  clearbody c2. rewrite M2.
  assert (local_mode E (c_rm c1)) as Hl1. { unfold local_mode. rewrite D1. exact Hl. }
  destruct (mark_completed_local E (clock sv c2) (tenant r) (uuid_to_string <$> ru_eu r) (c_rm c1) Hl1) as (_&Hact&_).
  eexists. split; [reflexivity|]. cbn. split_and!; [done..| |].
  - intros t. unfold active. cbn. rewrite Hact. unfold released, active, local_active. rewrite A1. destruct (decide (tenant r = t)) as [<-|]; lia.
  - etrans; [exact X1|]. exact (mark_completed_within R E HRE _ _ _ (c_rm c1)).
Qed.

(** The last turn: the run succeeds and gives its slot back. *)
Lemma turn_end_in r rid node patch J K' user wf c : calm -> node_gives J K' (c_state c) patch node -> closed J -> closed K' -> J (c_ext c) ->
  affords r K 1 c -> has_run rid c ->
  str_in node (fl_end (ru_flow r)) = true ->
  ru_user r = Some user -> str_or_none (ru_workflow r) = Some wf -> fs_extractor sv wf = None -> fs_result_key sv wf = None ->
  extract_async_handoff (JObj (dict_update (c_state c) patch)) = None ->
  exists c' h resp run', loop_body E db sv r rid node c = (c', Ok (inl resp)) /\ rs_status resp = "SUCCESS" /\ rs_run_id resp = rid /\
    c_history c' = c_history c ++ [h] /\ fh_run h = rid /\ fh_node h = node /\ fh_status h = "SUCCESS" /\
    c_runs c' !! rid = Some run' /\ fr_status run' = "success" /\ fr_state run' = dict_update (c_state c) patch /\
    (forall t, active c' t = released r c t) /\ K' (c_ext c').
Proof.
  intros Hcalm Hsucc HJ HK Hx Haff (run&Hrun&Hid) Hend Hu Hw Hex Hkey Hho.
  unfold loop_body, mbind, M_bind. cbn [load_run gets]. rewrite Hrun. cbn [gets].
  destruct (emit_ok "flow.node.started" rid (ru_root r) [("node", JStr node)] c (calm_emit Hcalm)) as (c1&i1&->&Hx1).
  destruct (ext_moves_fields _ _ Hx1) as (R1&H1&S1&A1&_&X1). rewrite <- S1 in Hsucc.
  destruct (execute_current_node_ok r run node i1 patch J K' 0 c1) as (c2&ms&->&Haff2&R2&H2&S2&A2&HK2);
    [done..|by eapply HJ|done|by eapply affords_ext|].
  cbn [load_run gets]. rewrite R2, R1, Hrun. unfold settle_node. cbn [nr_status]. unfold mbind, M_bind. cbn [modifies].
  set (h := MkHistory _ _ _ _ _ _ _).
  match goal with |- context [emit sv ?ty ?rr ?pp ?pl ?cc] =>
    destruct (emit_ok ty rr pp pl cc (calm_emit Hcalm)) as (c3&i3&->&Hx3) end.
  destruct (ext_moves_fields _ _ Hx3) as (R3&H3&S3&A3&D3&X3). cbn in R3, H3, S3, A3, D3, X3.
  unfold handle_node_status. change ("SUCCESS" =s "SUCCESS") with true. cbv iota. unfold mbind, M_bind. cbn [modifies].
  set (c4 := set_locals _ _ c3).
  assert (c_state c4 = dict_update (c_state c) patch) as S4 by (cbn; by rewrite S3, S2, S1).
  assert (c_runs c4 = c_runs c /\ c_history c4 = c_history c ++ [h] /\ c_rm c4 = c_rm c3) as (R4&H4&M4) by (cbn; split_and!; congruence).
  clearbody c4. unfold maybe_finalize_completion. rewrite Hend. cbn [negb].
  unfold fmap, M_fmap, catch, extract_execution_result, mbind, M_bind, str_or. rewrite Hw. cbn [gets]. rewrite Hex, Hkey.
  cbn [str_or_none mret M_ret]. rewrite S4, Hho. unfold finalize_success, mbind, M_bind.
  destruct (capture_ok r run user wf c4) as (c5&->&R5&H5&S5&A5&X5); [done..| | |].
  { unfold run_history. rewrite H4, List.filter_app, Hid. cbn. rewrite Hid, String.eqb_refl. by destruct (List.filter _ (c_history c)). }
  { rewrite M4. destruct Haff2 as ([? ?]&_). unfold local_mode. by rewrite D3. }
  cbn [gets update_run modifies effect].
  match goal with |- context [emit sv ?ty ?rr ?pp ?pl ?cc] =>
    destruct (emit_ok ty rr pp pl cc (calm_emit Hcalm)) as (c6&i6&->&Hx6) end.
  destruct (ext_moves_fields _ _ Hx6) as (R6&H6&S6&A6&_&X6). cbn in R6, H6, S6, A6, X6.
  cbn. eexists c6, h, _, (run_success (c_state c5) (clock sv c5) run). split; [reflexivity|].
  cbn. rewrite H6, H5, H4. split_and!; try done.
  - rewrite R6, R5, R4, Hid, lookup_alter_eq, Hrun. done.
  - congruence.
  - intros t. specialize (A5 t). unfold released, active, local_active in *. rewrite A6, A5, M4, A3, A2, A1. done.
  - eapply HK; [exact HK2|]. etrans; [exact X3|]. unfold c_ext in X5. rewrite M4 in X5. etrans; [exact X5|].
    etrans; [apply (sw_hook R sv HRsv)|exact X6].
Qed.

(** ** The loop over the rest of a plan *)
Definition run_steps (p : string -> dict json -> dict json) (steps : list string) (st : dict json) : dict json :=
  foldl (fun st s => dict_update st (p s st)) st steps.

(** Before a node the world satisfies [J], after it [K]. *)
Definition leads (f : flow) (p : string -> dict json -> dict json) (J K' : string -> dict json -> X -> Prop) (n : string) : Prop :=
  (forall st, node_gives (J n st) (K' n (dict_update st (p n st))) st (p n st) n /\ closed (J n st) /\ closed (K' n st)) /\
  (forall st x n', K' n st x -> resolve_next_node n st f = Ok (Some n') -> J n' st x).

(** The loop executes the nodes of the walk, and the run succeeds. *)
Lemma loop_walk_in p J K' user wf r rid node post c fuel : calm -> flow_walk (ru_flow r) p (c_state c) node post ->
  Forall (leads (ru_flow r) p J K') (node :: post) -> J node (c_state c) (c_ext c) ->
  affords r K (Z.of_nat (length post) + 1) c -> has_run rid c ->
  ru_user r = Some user -> str_or_none (ru_workflow r) = Some wf -> fs_extractor sv wf = None -> fs_result_key sv wf = None ->
  extract_async_handoff (JObj (run_steps p (node :: post) (c_state c))) = None ->
  (length post < fuel)%nat ->
  exists c' l resp run', run_loop E db sv fuel r rid node c = (c', Ok (Some resp)) /\ rs_status resp = "SUCCESS" /\ rs_run_id resp = rid /\
    c_history c' = c_history c ++ l /\ map fh_node l = node :: post /\
    Forall (fun h => fh_run h = rid /\ fh_status h = "SUCCESS") l /\
    c_runs c' !! rid = Some run' /\ fr_status run' = "success" /\ fr_state run' = run_steps p (node :: post) (c_state c) /\
    (forall t, active c' t = released r c t) /\
    K' (List.last (node :: post) node) (run_steps p (node :: post) (c_state c)) (c_ext c').
Proof.
  intros Hcalm. revert node c fuel. induction post as [|n' post IH]; intros node c fuel Hf Hs Hx Haff Hrun Hu Hw Hex Hkey Hho Hfuel;
    (destruct fuel as [|fuel]; [lia|]); apply Forall_cons in Hs as [[Hs1 Hnx] Hs]; cbn [run_loop]; unfold mbind, M_bind;
    destruct (Hs1 (c_state c)) as (Hg&HJ&_); pose proof (proj2 (proj2 (Hs1 (dict_update (c_state c) (p node (c_state c)))))) as HK;
    inversion Hf as [? ? Hend|? ? ? ? Hend Hnext Hne Hwalk]; subst.
  - destruct (turn_end_in r rid node (p node (c_state c)) _ _ user wf c Hcalm Hg HJ HK Hx)
      as (c'&h&resp&run'&->&Hst&Hri&Hh&Hr&Hn&Hst2&Hl&Hfs&Hfst&Hact&HX); try done.
    exists c', [h], resp, run'. split; [done|]. split_and!; try done; [cbn; by rewrite Hn|by repeat constructor].
  - destruct (turn_next r rid node (p node (c_state c)) _ _ (Z.of_nat (length post) + 1) n' c Hcalm Hg HJ HK Hx)
      as (c1&h&->&Haff1&Hrun1&Hh&Hr&Hn&Hst&Hs2&Hact1&HX1); try done; [lia| |].
    { replace (Z.of_nat (length post) + 1 + 1) with (Z.of_nat (length (n' :: post)) + 1) by (cbn [length]; lia). done. }
    assert (forall t, active c1 t = active c t) as Ha1. { intros t. unfold active, local_active. by rewrite Hact1. }
    destruct (IH n' c1 fuel) as (c'&l&resp&run'&->&H2&H2b&H3&H4&H5&H6&H7&H8&H9&H10); try done.
    { by rewrite Hs2. } { rewrite Hs2. by eapply Hnx. } { by rewrite Hs2. } { cbn in Hfuel. lia. }
    exists c', (h :: l), resp, run'. rewrite Hs2 in H8, H10. split; [done|]. split_and!; try done.
    + by rewrite H3, Hh, <- app_assoc.
    + cbn. by rewrite Hn, H4.
    + by constructor.
    + intros t. rewrite H9. unfold released. by rewrite Ha1.
    + change (List.last (node :: n' :: post) node) with (List.last (n' :: post) node).
      rewrite (last_any n' post node n'). exact H10.
Qed.

(** The state a started run begins with: the trace and the id of the start event are added. *)
Definition initial_state (initial : dict json) (trace : string) (root : option string) : dict json :=
  let st := if json_truthy (jget initial "trace_id") then initial else dset initial "trace_id" (JStr trace) in
  match str_or_none root with Some e => dset st "root_event_id" (JStr e) | None => st end.

Lemma initial_state_traced initial trace root : trace <> "" ->
  json_truthy (jget (initial_state initial trace root) "trace_id") = true.
Proof.
  intros Ht. unfold initial_state, jget. set (st := if json_truthy _ then _ else _).
  assert (json_truthy (default JNull (dget st "trace_id")) = true) as H.
  { unfold st, jget. destruct (json_truthy (default JNull (dget initial "trace_id"))) eqn:Hi; [done|].
    rewrite dget_dset_eq. cbn. by destruct trace. }
  destruct (str_or_none root); [|done]. by rewrite dget_dset_ne.
Qed.

(** A run that is not waiting and has its trace in its state goes straight into the loop. *)
Lemma resume_running fuel ctx r rid run c : c_runs c !! rid = Some run -> fr_status run <> "waiting" ->
  json_truthy (jget (fr_state run) "trace_id") = true ->
  resume E db sv fuel ctx r rid c =
    run_loop E db sv fuel (with_root r (event_id (fr_state run))) rid (fr_current_node run) (set_locals (fr_state run) [] c).
Proof.
  intros Hrun Hst Htr. unfold resume, mbind, M_bind. cbn [load_run gets]. rewrite Hrun.
  unfold claim_waiting_run. rewrite (proj2 (String.eqb_neq _ _) Hst). cbn [negb mret M_ret]. rewrite Htr. done.
Qed.

(** A started run is at its first node with a counted slot and fresh usage. *)
Lemma start_ready fuel rid trace fresh r initial name c n :
  emits sv -> (forall e s, is_ok (db_add db e s).2 = true) -> trace <> "" -> local_mode E (c_rm c) ->
  active c (user_text r) + 1 < env_max_concurrent E -> rm_usage (c_rm c) !! uuid_to_string fresh = None ->
  ~ (uuid_to_string fresh ∈ rm_pending_purge (c_rm c)) -> n * K <= env_max_cpu_ms E -> 0 <= env_max_syscalls E ->
  exists c1 r1 root, start E db sv fuel rid trace fresh r initial name c = run_loop E db sv fuel r1 rid (fl_start (ru_flow r)) c1 /\
    ru_flow r1 = ru_flow r /\ ru_user r1 = ru_user r /\ ru_workflow r1 = ru_workflow r /\ tenant r1 = user_text r /\
    affords r1 K n c1 /\ has_run rid c1 /\ c_history c1 = c_history c /\ c_state c1 = initial_state initial trace root /\
    (forall t, active c1 t = active c t + (if decide (user_text r = t) then 1 else 0)) /\ R (c_ext c) (c_ext c1).
Proof.
  intros He Hadd Htr Hl Hact Hus Hpd Hcpu Hsys. unfold start, initialize_execution_unit, create, mbind, M_bind. cbn [modifies gets id].
  set (row := MkRun _ _ _ _ _ _ _ _ _ _ _ _ _). set (c0 := set_runs _ c).
  assert (c_history c0 = c_history c /\ c_rm c0 = c_rm c /\ c_runs c0 = <[rid := row]> (c_runs c)) as (H0&Hrm&Hruns) by done.
  clearbody c0. match goal with |- context [db_add db ?e ?s] => pose proof (Hadd e s) as Ha; destruct (db_add db e s) as [s1 [u|x]]; [|done] end.
  clear u Ha. cbn [modifies]. unfold on_rm at 1.
  destruct (mark_started_local E (clock sv (set_units s1 c0)) (user_text r) (Some (uuid_to_string fresh)) (c_rm c0)) as [Hl1 Ha1]; [by rewrite Hrm|].
  pose proof (mark_started_pending E (clock sv (set_units s1 c0)) (user_text r) (Some (uuid_to_string fresh)) (c_rm c0)) as Hp1.
  pose proof (mark_started_usage E (clock sv (set_units s1 c0)) (user_text r) (uuid_to_string fresh) (c_rm c0)) as Hu1.
  pose proof (mark_started_within R E HRE (clock sv (set_units s1 c0)) (user_text r) (Some (uuid_to_string fresh)) (c_rm c0)) as HR1.
  cbn [eu_id c_rm set_units]. set (s2 := mark_started _ _ _ _ _) in *. clearbody s2. rewrite Hrm in Ha1, Hp1, Hu1, HR1.
  cbn [update_run modifies mret M_ret].
  match goal with |- context [emit sv ?ty ?rr ?pp ?pl ?cc] => destruct (emit_ok ty rr pp pl cc He) as (c2&root&->&Hx2) end.
  set (r1 := MkRunner _ _ _ _ _ _ _ _). set (st := if json_truthy _ then _ else _) in *.
  match goal with |- context [match ?m c2 with _ => _ end] => assert (exists c3, m c2 = (c3, Ok ()) /\
    c_runs c3 !! rid = Some (run_traced (initial_state initial trace root) (Some trace) row) /\ c_history c3 = c_history c /\
    exists x, c_rm c3 = with_ext s2 x /\ R (rm_ext s2) x) as (c3&->&R3&H3&x3&M3&HR3) end.
  { destruct Hx2 as (x2&HR2&->). unfold initial_state. fold st. destruct (str_or_none root); (eexists; split; [reflexivity|]; cbn;
      rewrite Hruns, ?lookup_alter_eq, lookup_insert_eq; split; [done|]; split; [done|by exists x2]). }
  rewrite (resume_running _ _ _ _ _ _ R3); [|done|by apply initial_state_traced].
  eexists _, _, root. split; [reflexivity|]. split_and!; [done..| | |done|done| |].
  - unfold affords, active, local_active, local_mode. cbn. rewrite M3. cbn. rewrite Hp1.
    change (tenant (with_root r1 _)) with (user_text r). change (eu_text (with_root r1 _)) with (uuid_to_string fresh).
    split; [exact Hl1|]. split; [|right; split; [apply uuid_to_string_nonempty|split; [done|]]].
    + specialize (Ha1 (user_text r)). rewrite decide_True in Ha1 by done. unfold local_active in Ha1. rewrite Ha1. done.
    + eexists. split; [apply Hu1; [done|apply uuid_to_string_nonempty]|]. cbn. split_and!; [done|lia|lia].
  - eexists. split; [exact R3|done].
  - intros t. unfold active, local_active. cbn. rewrite M3. exact (Ha1 t).
  - unfold c_ext. cbn. rewrite M3. cbn. by etrans.
Qed.
Lemma affords_le r n m c : n <= m -> affords r K m c -> affords r K n c.
Proof.
  intros Hle (H1&H2&H3). split; [done|]. split; [done|]. destruct H3 as [?|(E1&E2&u&U1&U2&U3&U4)]; [by left|right].
  split; [done|]. split; [done|]. exists u. split_and!; try done. assert (0 <= B) by (destruct (Hclock (c_ext c)); lia).
  assert (0 <= K) by (apply Z.add_nonneg_nonneg; [by apply Z.div_pos|done]). nia.
Qed.

(** A run started with free capacity executes the walk from the start of its flow. *)
Lemma start_walk_in p J K' user wf post n r rid trace fresh initial name c fuel :
  calm -> local_mode E (c_rm c) ->
  (forall root, flow_walk (ru_flow r) p (initial_state initial trace root) (fl_start (ru_flow r)) (post root)) ->
  (forall root, Forall (leads (ru_flow r) p J K') (fl_start (ru_flow r) :: post root)) ->
  (forall root x, R (c_ext c) x -> J (fl_start (ru_flow r)) (initial_state initial trace root) x) ->
  (forall root, (length (post root) < n)%nat) ->
  ru_user r = Some user -> str_or_none (ru_workflow r) = Some wf -> fs_extractor sv wf = None -> fs_result_key sv wf = None ->
  (forall e s, is_ok (db_add db e s).2 = true) -> trace <> "" ->
  0 <= active c (user_text r) -> active c (user_text r) + 1 < env_max_concurrent E ->
  rm_usage (c_rm c) !! uuid_to_string fresh = None -> ~ (uuid_to_string fresh ∈ rm_pending_purge (c_rm c)) ->
  Z.of_nat n * K <= env_max_cpu_ms E -> 0 <= env_max_syscalls E ->
  (forall root, extract_async_handoff
     (JObj (run_steps p (fl_start (ru_flow r) :: post root) (initial_state initial trace root))) = None) ->
  (n <= fuel)%nat ->
  exists c' l resp run' root, start E db sv fuel rid trace fresh r initial name c = (c', Ok (Some resp)) /\ rs_status resp = "SUCCESS" /\
    rs_run_id resp = rid /\ c_history c' = c_history c ++ l /\ map fh_node l = fl_start (ru_flow r) :: post root /\
    Forall (fun h => fh_run h = rid /\ fh_status h = "SUCCESS") l /\
    c_runs c' !! rid = Some run' /\ fr_status run' = "success" /\
    fr_state run' = run_steps p (fl_start (ru_flow r) :: post root) (initial_state initial trace root) /\
    (forall t, active c' t = active c t) /\
    K' (List.last (fl_start (ru_flow r) :: post root) (fl_start (ru_flow r))) (fr_state run') (c_ext c').
Proof.
  intros Hcalm Hl Hwalk Hs HJ0 Hn Hu Hw Hx Hk Hadd Htr H0 Hact Hus Hpd Hcpu Hsys Hho Hfuel.
  destruct (start_ready fuel rid trace fresh r initial name c (Z.of_nat n))
    as (c1&r1&root&->&F1&U1&W1&T1&Haff&Hrun&Hh1&Hs1&Ha1&HX1); [apply Hcalm|done..|].
  destruct (loop_walk_in p J K' user wf r1 rid (fl_start (ru_flow r)) (post root) c1 fuel)
    as (c'&l&resp&run'&->&P1&P1b&P2&P3&P4&P5&P6&P7&P8&P9).
  all: rewrite ?F1, ?U1, ?W1, ?Hs1; try done.
  - by apply HJ0.
  - eapply affords_le; [|exact Haff]. specialize (Hn root). lia.
  - specialize (Hn root). lia.
  - exists c', l, resp, run', root. rewrite Hs1 in P7, P9. rewrite P2, Hh1, P7. split_and!; try done.
    intros t. rewrite P8. unfold released. rewrite T1, Ha1. destruct (decide (user_text r = t)) as [<-|]; lia.
Qed.
End plans.

(** ** Nodes that succeed in every world *)
Section plain.
Context {X S : Type} (E : env X) (db : eu_session S) (sv : @flow_services X S).
Hypothesis Htest : env_testing E = false.
Hypothesis Hbackend : env_backend E = None.
Context (B : Z).
Hypothesis Hclock : forall x, 0 <= fs_clock sv x <= B.
Local Abbreviation K := (B / 1000 + 1).
Implicit Types (c : @cfg X S) (r : runner).

Local Abbreviation any := (fun _ _ : X => True).
#[local] Instance any_preorder : PreOrder any.
Proof. by split. Qed.
Lemma any_env : env_within any E.
Proof. repeat split. Qed.
Lemma any_services : services_within any sv.
Proof. repeat split. Qed.
Lemma succeeds_gives p node st : succeeds sv p node -> node_gives sv (fun _ => True) (fun _ => True) st (p st) node.
Proof. intros (Hb&f&Hf&Ho). split; [done|]. exists f. split; [done|]. intros a x _. destruct (Ho st a x) as [x' Hx]. by exists x'. Qed.
Lemma succeeds_leads f p steps : Forall (fun s => succeeds sv (p s) s) steps ->
  Forall (leads sv any f p (fun _ _ _ => True) (fun _ _ _ => True)) steps.
Proof. intros Hall. eapply Forall_impl; [exact Hall|]. intros s Hs. split; [|done]. intros st. split; [by apply succeeds_gives|done]. Qed.

Lemma turn_end r rid node p user wf c : calm sv -> succeeds sv p node -> affords E r K 1 c -> has_run rid c ->
  str_in node (fl_end (ru_flow r)) = true ->
  ru_user r = Some user -> str_or_none (ru_workflow r) = Some wf -> fs_extractor sv wf = None -> fs_result_key sv wf = None ->
  extract_async_handoff (JObj (dict_update (c_state c) (p (c_state c)))) = None ->
  exists c' h resp run', loop_body E db sv r rid node c = (c', Ok (inl resp)) /\ rs_status resp = "SUCCESS" /\
    c_history c' = c_history c ++ [h] /\ fh_run h = rid /\ fh_node h = node /\ fh_status h = "SUCCESS" /\
    c_runs c' !! rid = Some run' /\ fr_status run' = "success" /\ fr_state run' = dict_update (c_state c) (p (c_state c)) /\
    forall t, active c' t = released r c t.
Proof.
  intros Hcalm Hs Haff Hrun Hend Hu Hw Hx Hk Hho.
  destruct (turn_end_in E db sv any any_env any_services Htest Hbackend B Hclock r rid node (p (c_state c)) (fun _ => True) (fun _ => True) user wf c)
    as (c'&h&resp&run'&H1&H2&_&H3&H4&H5&H6&H7&H8&H9&H10&_); try done; [by apply succeeds_gives|]. by exists c', h, resp, run'.
Qed.

Lemma loop_plan p user wf r rid pre node post c fuel : calm sv ->
  compile_plan_to_flow (pre ++ node :: post) = Ok (ru_flow r) -> NoDup (pre ++ node :: post) -> "" ∉ post ->
  Forall (fun s => succeeds sv (p s) s) (node :: post) -> affords E r K (Z.of_nat (length post) + 1) c -> has_run rid c ->
  ru_user r = Some user -> str_or_none (ru_workflow r) = Some wf -> fs_extractor sv wf = None -> fs_result_key sv wf = None ->
  extract_async_handoff (JObj (run_steps p (node :: post) (c_state c))) = None ->
  (length post < fuel)%nat ->
  exists c' l resp run', run_loop E db sv fuel r rid node c = (c', Ok (Some resp)) /\ rs_status resp = "SUCCESS" /\
    c_history c' = c_history c ++ l /\ map fh_node l = node :: post /\
    Forall (fun h => fh_run h = rid /\ fh_status h = "SUCCESS") l /\
    c_runs c' !! rid = Some run' /\ fr_status run' = "success" /\ fr_state run' = run_steps p (node :: post) (c_state c) /\
    forall t, active c' t = released r c t.
Proof.
  intros Hcalm Hf Hnd Hne Hs Haff Hrun Hu Hw Hx Hk Hho Hfuel.
  destruct (loop_walk_in E db sv any any_env any_services Htest Hbackend B Hclock p (fun _ _ _ => True) (fun _ _ _ => True) user wf r rid node post c fuel)
    as (c'&l&resp&run'&H1&H2&_&H3&H4&H5&H6&H7&H8&H9&_); try done; [by apply (plan_walk p _ pre)|by apply succeeds_leads|]. by exists c', l, resp, run'.
Qed.

Lemma start_walk p user wf post n r rid trace fresh initial name c fuel :
  calm sv -> local_mode E (c_rm c) ->
  (forall root, flow_walk (ru_flow r) p (initial_state initial trace root) (fl_start (ru_flow r)) (post root)) ->
  (forall root, Forall (fun s => succeeds sv (p s) s) (fl_start (ru_flow r) :: post root)) ->
  (forall root, (length (post root) < n)%nat) ->
  ru_user r = Some user -> str_or_none (ru_workflow r) = Some wf -> fs_extractor sv wf = None -> fs_result_key sv wf = None ->
  (forall e s, is_ok (db_add db e s).2 = true) -> trace <> "" ->
  0 <= active c (user_text r) -> active c (user_text r) + 1 < env_max_concurrent E ->
  rm_usage (c_rm c) !! uuid_to_string fresh = None -> ~ (uuid_to_string fresh ∈ rm_pending_purge (c_rm c)) ->
  Z.of_nat n * K <= env_max_cpu_ms E -> 0 <= env_max_syscalls E ->
  (forall root, extract_async_handoff
     (JObj (run_steps p (fl_start (ru_flow r) :: post root) (initial_state initial trace root))) = None) ->
  (n <= fuel)%nat ->
  exists c' l resp run' root, start E db sv fuel rid trace fresh r initial name c = (c', Ok (Some resp)) /\ rs_status resp = "SUCCESS" /\
    c_history c' = c_history c ++ l /\ map fh_node l = fl_start (ru_flow r) :: post root /\
    Forall (fun h => fh_run h = rid /\ fh_status h = "SUCCESS") l /\
    c_runs c' !! rid = Some run' /\ fr_status run' = "success" /\
    fr_state run' = run_steps p (fl_start (ru_flow r) :: post root) (initial_state initial trace root) /\
    forall t, active c' t = active c t.
Proof.
  intros Hcalm Hl Hwalk Hs Hn Hu Hw Hx Hk Hadd Htr H0 Hact Hus Hpd Hcpu Hsys Hho Hfuel.
  destruct (start_walk_in E db sv any any_env any_services Htest Hbackend B Hclock p (fun _ _ _ => True) (fun _ _ _ => True) user wf post n r rid trace
    fresh initial name c fuel) as (c'&l&resp&run'&root&H1&H2&_&H3&H4&H5&H6&H7&H8&H9&_); try done.
  { intros root. by apply succeeds_leads. }
  by exists c', l, resp, run', root.
Qed.
End plain.



(** a finished run can be resumed and runs again.  [resume] guards only runs
    in status waiting: on a run in any other status, success and failed included,
    it executes the stored node once more, appends to the history, and, when that
    node is an end node, gives a slot of the tenant back a second time. *)
Theorem finished_run_executes_again {X S} (E : env X) (db : eu_session S) sv B p user wf r rid run c fuel ctx :
  calm sv -> env_testing E = false -> env_backend E = None -> (forall x, 0 <= fs_clock sv x <= B) ->
  c_runs c !! rid = Some run -> fr_id run = rid -> fr_status run <> "waiting" ->
  json_truthy (jget (fr_state run) "trace_id") = true ->
  succeeds sv p (fr_current_node run) -> str_in (fr_current_node run) (fl_end (ru_flow r)) = true ->
  affords E r (B / 1000 + 1) 1 c -> 1 <= active c (tenant r) ->
  ru_user r = Some user -> str_or_none (ru_workflow r) = Some wf -> fs_extractor sv wf = None -> fs_result_key sv wf = None ->
  extract_async_handoff (JObj (dict_update (fr_state run) (p (fr_state run)))) = None ->
  exists c' h resp, resume E db sv (Datatypes.S fuel) ctx r rid c = (c', Ok (Some resp)) /\
    c_history c' = c_history c ++ [h] /\ fh_node h = fr_current_node run /\ fh_run h = rid /\
    active c' (tenant r) = active c (tenant r) - 1.
Proof.
  intros Hcalm Ht Hb Hc Hrun Hid Hst Htr Hs Hend Haff Ha Hu Hw Hx Hk Hho.
  rewrite (resume_running E db sv _ _ _ _ _ _ Hrun Hst Htr). cbn [run_loop]. unfold mbind, M_bind.
  destruct (turn_end E db sv Ht Hb B Hc (with_root r (event_id (fr_state run))) rid (fr_current_node run) p user wf
    (set_locals (fr_state run) [] c)) as (c'&h&resp&run'&->&P1&P2&P3&P4&P5&P6&P7&P8&P9); try done.
  { by exists run. }
  exists c', h, resp. split_and!; try done. rewrite P9. unfold released. change (tenant (with_root r _)) with (tenant r).
  rewrite decide_True by done. change (active (set_locals _ _ c) (tenant r)) with (active c (tenant r)). lia.
Qed.

(** The run of a first instance, resumed by a runner of another request *)
Definition finished_cfg : @cfg unit (gmap UUID ExecutionUnit) :=
  let c := (quiet_start 5 (Some (MkUUID 9)) quiet_cfg).1 in
  set_rm (mark_started (quiet_env 5) 0 (uuid_to_string (MkUUID 9)) None (c_rm c)) c.

Lemma finished_run_executes_again_witness :
  exists c' h resp, resume (quiet_env 5) quiet_session (quiet_services quiet_nodes) 10 None
      (quiet_runner (Some (MkUUID 9))) "run-1" finished_cfg = (c', Ok (Some resp)) /\
    c_history c' = c_history finished_cfg ++ [h] /\ fh_node h = "b" /\
    active c' (uuid_to_string (MkUUID 9)) = 0.
Proof.
  destruct (finished_run_executes_again (quiet_env 5) quiet_session (quiet_services quiet_nodes) 0 (fun _ => [("b", JInt 1)])
    (MkUUID 9) "demo" (quiet_runner (Some (MkUUID 9))) "run-1"
    (MkRun "run-1" "demo" (Some "demo") [("trace_id", JStr "trace-1"); ("a", JInt 1); ("b", JInt 1)] "b" "success" None None
       (Some "trace-1") (Some (MkUUID 9)) None None (Some 0)) finished_cfg 9 None) as (c'&h&resp&H1&H2&H3&H4&H5).
  - split; intro; intros; reflexivity.
  - reflexivity.
  - reflexivity.
  - intros x. cbn. lia.
  - vm_compute. reflexivity.
  - reflexivity.
  - discriminate.
  - reflexivity.
  - split; [reflexivity|]. eexists. split; [reflexivity|]. intros st a x. exists x. reflexivity.
  - reflexivity.
  - split; [split; reflexivity|]. split; [vm_compute; reflexivity|left; split; [reflexivity|vm_compute; reflexivity]].
  - vm_compute. discriminate.
  - reflexivity.
  - reflexivity.
  - reflexivity.
  - reflexivity.
  - reflexivity.
  - exists c', h, resp. split; [exact H1|]. split; [exact H2|]. split; [exact H3|].
    refine (eq_trans H5 _). vm_compute. reflexivity.
Defined.
