(* ===== verification/Rehydration.v ===== *)
(** * Rehydration of waits ([AINDY/core/wait_rehydration.py],
    [flow_run_rehydration.py], [resume_watchdog.py] and the start-up phase that
    calls them)

    After a restart the scheduler's table of waiting runs is empty; these
    functions fill it again from the rows of [execution_units] and [flow_runs].
    They run on the engine of [SchedulerWaits] with the callbacks [callback],
    which are data here and are executed by [Resumption].  The queries of the
    caller's session are the record [rehydration_services]: each gives the rows
    of a table, which the definitions filter as the queries do. *)
From S2P Require Import Prelude PyDatetime Json PyUuid WaitCondition SchedulerCore WaitRegistry SchedulerWaits ExecutionUnit FlowEngine EventBus.
Local Open Scope Z_scope.

Definition TIME_SENTINEL : string := "__time_wait__".

(** A row of [execution_units] with its tenant and priority columns *)
Record unit_row := MkUnitRow { ur_unit : ExecutionUnit; ur_tenant_id : option string; ur_priority : option string }.

(** The closures that wait in the scheduler *)
Inductive callback :=
| CbUnit (eid : string) (flow_run_id : option string)
| CbFlow (r_id flow_name : string) (user_id : option UUID) (workflow_type eid : string)
| CbSpec (eu_id : string)
| CbRunner (r : runner) (run_id : string).

Record rehydration_services (X : Type) := MkRehydration {
  rs_clock : X -> Z;
  rs_flow_runs : X -> X * result (list FlowRun);
  rs_units : X -> X * result (list unit_row);
  rs_row_get : string -> X -> X * result (option backup_row);
  rs_row_flush : backup_row -> X -> X * result unit;
  rs_rollback : X -> X;
  rs_hostname : string
}.
Arguments rs_clock {X}. Arguments rs_flow_runs {X}. Arguments rs_units {X}. Arguments rs_row_get {X}.
Arguments rs_row_flush {X}. Arguments rs_rollback {X}. Arguments rs_hostname {X}.

(** The value of [state["trigger_at"]] or [state["wait_until"]] as an argument of
    [_parse_utc_datetime]; no list or object reads as a time. *)
Definition json_trigger (j : json) : raw_trigger :=
  match j with
  | JStr s => TStr s
  | JArr _ | JObj _ | JNull => TNone
  | _ => TOther (status_text j)
  end.

Section rehydration.
Context {X : Type} {codec : IsoCodec} (sv : services callback X) (rs : rehydration_services X).
Let world := world callback X.

(** [derive_wait_condition_from_flow] *)
Definition derive_wait_condition (run : FlowRun) : option WaitCondition :=
  let corr := if truthy (fr_id run) then Some (str_or (fr_trace_id run) (fr_id run)) else None in
  match str_or_none (fr_waiting_for run) with
  | Some ev => match for_event ev corr with Ok wc => Some wc | Raise _ => None end
  | None =>
      let raw := if json_truthy (jget (fr_state run) "trigger_at") then jget (fr_state run) "trigger_at"
                 else jget (fr_state run) "wait_until" in
      if json_truthy raw then
        match parse_utc_datetime (json_trigger raw) with
        | Some t => match for_time t corr with Ok wc => Some wc | Raise _ => None end
        | None => None
        end
      else None
  end.

(** [ensure_waiting_flow_run_row]; whatever fails is rolled back and logged. *)
Definition ensure_waiting_flow_run_row (run_id event_type : string) (corr : option string) (timeout_at : option datetime)
    (eu : option string) (priority : string) (x : X) : X :=
  let waited_since := utc_datetime (rs_clock rs x) in
  let max_wait := match timeout_at with Some t => wait_seconds t waited_since | None => None end in
  let prio := Some (str_or (Some priority) "normal") in
  let (x1, existing) := rs_row_get rs run_id x in
  match existing with
  | Raise _ => rs_rollback rs x1
  | Ok existing =>
      let row := match existing with
                 | None => MkRow run_id event_type corr waited_since max_wait timeout_at eu prio (rs_hostname rs)
                 | Some row => MkRow (row_run_id row) event_type corr (row_waited_since row) max_wait timeout_at eu prio
                                 (row_instance_id row)
                 end in
      match rs_row_flush rs row x1 with
      | (x2, Ok _) => x2
      | (x2, Raise _) => rs_rollback rs x2
      end
  end.
Definition ensure_row (run_id event_type : string) (corr : option string) (timeout_at : option datetime)
    (eu : option string) (priority : string) (w : world) : world :=
  set_ext w (ensure_waiting_flow_run_row run_id event_type corr timeout_at eu priority (w_ext w)).

(** ** Execution units: [rehydrate_waiting_eus] *)

(** The condition of a unit and the event it is registered for: [None] when the
    unit has no readable condition or needs an event and has none. *)
Definition unit_condition (eu : ExecutionUnit) : option (WaitCondition * string) :=
  match eu_wait_condition eu with
  | None => None
  | Some d =>
      match from_dict (Some d) with
      | Raise _ => None
      | Ok wc =>
          let ev := str_or (wc_event_name wc) "" in
          if negb (truthy ev) && negb (wc_type wc =s WAIT_TYPE_TIME) then None
          else Some (wc, if (wc_type wc =s WAIT_TYPE_TIME) && negb (truthy ev) then TIME_SENTINEL else ev)
      end
  end.

(** The body of the loop, with the count of registered units *)
Definition rehydrate_eu (acc : world * Z) (row : unit_row) : world * Z :=
  let (w, n) := acc in
  let eu := ur_unit row in
  let eu_id := uuid_to_string (eu_id eu) in
  match waiting_for eu_id w with
  | Some _ => (w, n)
  | None =>
      match unit_condition eu with
      | None => (w, n)
      | Some (wc, ev) =>
          let tenant := str_or (ur_tenant_id row)
                          (match eu_user_id eu with Some u => uuid_to_string u | None => "system" end) in
          let priority := str_or (ur_priority row) "normal" in
          let corr := str_or_none (eu_correlation_id eu) in
          let w1 := register_wait sv (rs_clock rs (w_ext w)) w eu_id (Some ev) tenant eu_id
                      (CbUnit eu_id (str_or_none (eu_flow_run_id eu))) priority corr None
                      (str_or (Some (eu_kind eu)) "flow") (CCondition wc) in
          (ensure_row eu_id ev corr None (Some eu_id) priority w1, n + 1)
      end
  end.

Definition rehydrate_waiting_eus (w : world) : world * Z :=
  let (x, rows) := rs_units rs (w_ext w) in
  let w1 := set_ext w x in
  match rows with
  | Raise _ => (w1, 0)
  | Ok rows => foldl rehydrate_eu (w1, 0) (List.filter (fun r => eu_status (ur_unit r) =s "waiting") rows)
  end.

(** ** Flow runs: [rehydrate_waiting_flow_runs] *)

(** [eu_by_run_id]: the first unit of every run *)
Definition units_by_run (run_ids : list string) (rows : list unit_row) : dict unit_row :=
  foldl (fun d row => match str_or_none (eu_flow_run_id (ur_unit row)) with
                      | Some r => if str_in r run_ids && negb (dmem d r) then dset d r row else d
                      | None => d
                      end) [] rows.

(** What [register_wait] is called with for a run *)
Definition flow_eu_id (units : dict unit_row) (r : string) : string :=
  match dget units r with Some row => uuid_to_string (eu_id (ur_unit row)) | None => "" end.
Definition flow_priority (units : dict unit_row) (r : string) : string :=
  str_or (match dget units r with Some row => ur_priority row | None => None end) "normal".
Definition flow_callback_of (units : dict unit_row) (run : FlowRun) : callback :=
  CbFlow (fr_id run) (fr_flow_name run) (fr_user_id run) (str_or (fr_workflow_type run) "flow")
    (flow_eu_id units (fr_id run)).

Definition rehydrate_flow (units : dict unit_row) (acc : world * Z) (run : FlowRun) : world * Z :=
  let (w, n) := acc in
  let r := fr_id run in
  match waiting_for r w with
  | Some _ => (w, n)
  | None =>
      match derive_wait_condition run with
      | None => (w, n)
      | Some wc =>
          let tenant := match fr_user_id run with Some u => uuid_to_string u | None => "system" end in
          let corr := Some (str_or (fr_trace_id run) r) in
          let w1 := register_wait sv (rs_clock rs (w_ext w)) w r (wc_event_name wc) tenant (flow_eu_id units r)
                      (flow_callback_of units run) (flow_priority units r) corr (fr_trace_id run) "flow" (CCondition wc) in
          (ensure_row r (str_or (wc_event_name wc) TIME_SENTINEL) corr (utc_datetime <$> fr_wait_deadline run)
             (str_or_none (Some (flow_eu_id units r))) (flow_priority units r) w1, n + 1)
      end
  end.

(** The query: waiting runs, of the given ids when there are any *)
Definition waiting_runs (run_ids : list string) (rows : list FlowRun) : list FlowRun :=
  let scope := List.filter truthy run_ids in
  List.filter (fun run => (fr_status run =s "waiting") && (match scope with [] => true | _ => str_in (fr_id run) scope end)) rows.

(** The units of the runs, [eu_by_run_id], and the loop *)
Definition units_found (runs : list FlowRun) (x : X) : dict unit_row :=
  match (rs_units rs x).2 with Ok l => units_by_run (map fr_id runs) l | Raise _ => [] end.
Definition rehydrate_runs (runs : list FlowRun) (w : world) : world * Z :=
  foldl (rehydrate_flow (units_found runs (w_ext w))) (set_ext w (rs_units rs (w_ext w)).1, 0) runs.

Definition rehydrate_waiting_flow_runs (run_ids : list string) (w : world) : world * Z :=
  let (x, rows) := rs_flow_runs rs (w_ext w) in
  match rows with
  | Raise _ => (set_ext w x, 0)
  | Ok rows =>
      let runs := waiting_runs run_ids rows in
      match runs with
      | [] => (set_ext w x, 0)
      | _ => rehydrate_runs runs (set_ext w x)
      end
  end.

End rehydration.

(** The scheduler whose recovery of orphaned waits is this rehydration *)
Definition recovering_services {X} `{!IsoCodec} (sv : services callback X) (rs : rehydration_services X)
    : services callback X := {|
  sv_redis := sv_redis sv;
  sv_builders := sv_builders sv;
  sv_backup_merge := sv_backup_merge sv;
  sv_backup_delete := sv_backup_delete sv;
  sv_backup_get := sv_backup_get sv;
  sv_backup_all := sv_backup_all sv;
  sv_flow_deadline := sv_flow_deadline sv;
  sv_waiting_ids := sv_waiting_ids sv;
  sv_publish := sv_publish sv;
  sv_rehydrate ids w := let (w', n) := rehydrate_waiting_flow_runs sv rs ids w in (w', Ok n);
  sv_instance := sv_instance sv;
  sv_max_retries := sv_max_retries sv;
  sv_buffer_max := sv_buffer_max sv
|}.

(** [_rehydrate_waiting_state] of [startup.py] outside of tests: both
    rehydrations, the replay of the engine's buffer and of the bus's buffer *)
Definition rehydrate_waiting_state {Y} `{!IsoCodec} (ps : pubsub Y) (CHANNEL : string)
    (base : services callback (bus * Y)) (rs : rehydration_services (bus * Y)) (w : world callback (bus * Y))
    : world callback (bus * Y) :=
  let sv := bus_services ps CHANNEL base in
  let w1 := (rehydrate_waiting_eus sv rs w).1 in
  let w2 := (rehydrate_waiting_flow_runs sv rs [] w1).1 in
  (drain_buffered_events ps CHANNEL base (mark_rehydration_complete sv w2)).1.

(** ** Lemmas *)
Section rehydration_facts.
Context {X : Type} {codec : IsoCodec} (sv : services callback X) (rs : rehydration_services X).
Implicit Types (w : world callback X) (run : FlowRun) (units : dict unit_row).

(** Nothing changes but the wait table and the world outside. *)
Definition only_waits w w' : Prop :=
  w_core w' = w_core w /\ w_buffer w' = w_buffer w /\ w_rehydrated w' = w_rehydrated w.

#[export] Instance only_waits_preorder : PreOrder only_waits.
Proof. split; [done|]. intros w1 w2 w3 (?&?&?) (?&?&?). split_and!; congruence. Qed.

Lemma register_wait_facts now w r ev t eu cb p c tr ty wc :
  let w' := register_wait sv now w r ev t eu cb p c tr ty (CCondition wc) in
  w_waiting w' = dset (w_waiting w) r (MkEntry ev t eu cb p c tr ty (Some (to_dict wc))) /\ only_waits w w'.
Proof.
  unfold register_wait, persist_wait_backup. simpl. rewrite dget_dset_eq.
  destruct (match match _ with Some _ => _ | None => _ end with Some t0 => _ | None => _ end) as [x1 [o|exc]]; done.
Qed.

(** The entry a run is registered with *)
Definition flow_entry units run : option (wait_entry callback) :=
  wc ← derive_wait_condition run;
  Some (MkEntry (wc_event_name wc) (match fr_user_id run with Some u => uuid_to_string u | None => "system" end)
    (flow_eu_id units (fr_id run)) (flow_callback_of units run) (flow_priority units (fr_id run))
    (Some (str_or (fr_trace_id run) (fr_id run))) (fr_trace_id run) "flow" (Some (to_dict wc))).

Lemma rehydrate_flow_facts units w n run :
  let r := rehydrate_flow sv rs units (w, n) run in
  only_waits w r.1 /\
  match waiting_for (fr_id run) w, flow_entry units run with
  | None, Some e => w_waiting r.1 = dset (w_waiting w) (fr_id run) e /\ r.2 = n + 1
  | _, _ => r = (w, n)
  end.
Proof.
  unfold rehydrate_flow, flow_entry. destruct (waiting_for (fr_id run) w); [done|].
  destruct (derive_wait_condition run) as [wc|]; [|done]. simpl.
  match goal with |- context [register_wait sv ?a ?b ?c ?d ?e ?f ?g ?h ?i ?j ?k (CCondition ?l)] =>
    destruct (register_wait_facts a b c d e f g h i j k l) as [Hw (?&?&?)] end.
  split_and!; done.
Qed.

(** Rows have distinct ids, so a run is registered at most once. *)
Lemma rehydrate_flows_facts units runs w n :
  NoDup (map fr_id runs) ->
  let r := foldl (rehydrate_flow sv rs units) (w, n) runs in
  only_waits w r.1 /\ (dict_wf (w_waiting w) -> dict_wf (w_waiting r.1)) /\
  (forall k, k ∉ map fr_id runs -> dget (w_waiting r.1) k = dget (w_waiting w) k) /\
  (forall run, run ∈ runs -> dget (w_waiting r.1) (fr_id run) =
     match waiting_for (fr_id run) w, flow_entry units run with
     | None, Some e => Some e
     | _, _ => dget (w_waiting w) (fr_id run)
     end) /\
  r.2 = n + Z.of_nat (length (List.filter (fun run =>
          match waiting_for (fr_id run) w, flow_entry units run with None, Some _ => true | _, _ => false end) runs)).
Proof.
  revert w n. induction runs as [|run runs IH]; intros w n Hnd.
  { simpl. split_and!; try done; [|lia]. by intros run Hin%elem_of_nil. }
  simpl in Hnd. apply NoDup_cons in Hnd as [Hni Hnd]. cbn [foldl].
  destruct (rehydrate_flow_facts units w n run) as [Ho Hr].
  destruct (rehydrate_flow sv rs units (w, n) run) as [w1 n1]. cbn [fst snd] in *.
  destruct (IH w1 n1 Hnd) as (IHo&IHwf&IHk&IHr&IHn).
  assert (forall k, k <> fr_id run -> dget (w_waiting w1) k = dget (w_waiting w) k) as Hne.
  { intros k Hk. destruct (waiting_for _ w), (flow_entry units run); simplify_eq; try done.
    destruct Hr as [-> _]. by rewrite dget_dset_ne. }
  assert (forall k, k <> fr_id run -> waiting_for k w1 = waiting_for k w) as Hwf by (intros k Hk; unfold waiting_for; by rewrite Hne).
  split_and!.
  - by etrans.
  - intros H. apply IHwf. destruct (waiting_for _ w), (flow_entry units run); simplify_eq; try done.
    destruct Hr as [-> _]. by apply dset_wf.
  - intros k Hk. simpl in Hk. apply not_elem_of_cons in Hk as [Hk1 Hk2]. rewrite IHk by done. by apply Hne.
  - intros run' [->|Hin]%elem_of_cons.
    + rewrite IHk by done. destruct (waiting_for _ w), (flow_entry units run); simplify_eq; try done.
      destruct Hr as [-> _]. by rewrite dget_dset_eq.
    + assert (fr_id run' <> fr_id run) by (intros Heq; apply Hni; rewrite <- Heq; by apply list_elem_of_fmap_2).
      rewrite IHr by done. by rewrite Hwf, Hne.
  - rewrite IHn. cbn [List.filter].
    rewrite (filter_ext_in _ (fun run0 =>
      match waiting_for (fr_id run0) w, flow_entry units run0 with None, Some _ => true | _, _ => false end) runs).
    2: { intros x Hx%list_elem_of_In. rewrite Hwf; [done|]. intros Heq. apply Hni. rewrite <- Heq.
         by apply list_elem_of_fmap_2. }
    destruct (waiting_for _ w), (flow_entry units run); simplify_eq; simpl; try lia.
Qed.
End rehydration_facts.

Lemma waiting_runs_nodup ids rows : NoDup (map fr_id rows) -> NoDup (map fr_id (waiting_runs ids rows)).
Proof.
  unfold waiting_runs. match goal with |- context [List.filter ?f rows] => generalize f end. intros f.
  induction rows as [|run rows IH]; intros Hnd; [done|]. simpl in *. apply NoDup_cons in Hnd as [Hni Hnd].
  destruct (f run); [|by apply IH]. simpl. apply NoDup_cons. split; [|by apply IH]. contradict Hni.
  apply list_elem_of_In, in_map_iff in Hni as (y&<-&[Hy _]%filter_In). by apply list_elem_of_In, in_map.
Qed.

Lemma rehydrate_waiting_flow_runs_facts {X} `{!IsoCodec} (sv : services callback X) (rs : rehydration_services X) ids w rows :
  (rs_flow_runs rs (w_ext w)).2 = Ok rows -> NoDup (map fr_id rows) ->
  let runs := waiting_runs ids rows in
  let units := units_found rs runs (rs_flow_runs rs (w_ext w)).1 in
  let r := rehydrate_waiting_flow_runs sv rs ids w in
  let found run := match waiting_for (fr_id run) w with Some _ => None | None => flow_entry units run end in
  only_waits w r.1 /\ (dict_wf (w_waiting w) -> dict_wf (w_waiting r.1)) /\
  (forall k, k ∉ map fr_id runs -> dget (w_waiting r.1) k = dget (w_waiting w) k) /\
  (forall run, run ∈ runs -> dget (w_waiting r.1) (fr_id run) =
     match found run with Some e => Some e | None => dget (w_waiting w) (fr_id run) end) /\
  r.2 = Z.of_nat (length (List.filter (fun run => match found run with Some _ => true | None => false end) runs)).
Proof.
  intros Hrows Hnd runs units r found.
  assert (NoDup (map fr_id runs)) as Hnd' by (by apply waiting_runs_nodup).
  unfold r, found, units, rehydrate_waiting_flow_runs. clear found units r.
  destruct (rs_flow_runs rs (w_ext w)) as [x o]. simpl in Hrows. subst o. fold runs. clearbody runs. cbn [fst].
  pose proof (rehydrate_flows_facts sv rs (units_found rs runs x) runs (set_ext (set_ext w x) (rs_units rs x).1) 0 Hnd')
    as (Ho&Hwf&Hk&Hr&Hn).
  change (foldl _ _ runs) with (rehydrate_runs sv rs runs (set_ext w x)) in Ho, Hwf, Hk, Hr, Hn.
  destruct (decide (runs = [])) as [->|Hne]; [split_and!; try done; by intros run Hin%elem_of_nil|].
  assert (match runs with [] => (set_ext w x, 0) | _ => rehydrate_runs sv rs runs (set_ext w x) end =
          rehydrate_runs sv rs runs (set_ext w x)) as -> by (by destruct runs).
  split_and!; [exact Ho|exact Hwf|exact Hk| |].
  - intros run Hin. rewrite Hr by done. unfold waiting_for. cbn [w_waiting set_ext].
    destruct (_ ≫= _); [done|]. by destruct (flow_entry (units_found rs runs x) run).
  - rewrite Hn. rewrite Z.add_0_l. do 2 f_equal. apply filter_ext. intros run. unfold waiting_for. cbn [w_waiting set_ext].
    destruct (_ ≫= _); [done|]. by destruct (flow_entry (units_found rs runs x) run).
Qed.

(** ** Events after rehydration *)
Section replay.
Context {X : Type} {codec : IsoCodec} (sv : services callback X).
Implicit Types (w : world callback X) (e : wait_entry callback).

(** An engine whose next event is delivered as [notify_event_run] says *)
Definition ready_for_events w : Prop :=
  w_rehydrated w = true /\ dict_wf (w_waiting w) /\ Forall (fun kv => priority_ok kv.2) (w_waiting w).

Definition notify_all w (evs : list (string * option string)) : world callback X :=
  foldl (fun w ev => (notify_event sv ev.1 ev.2 false w).1) w evs.

Lemma dget_filter (P : wait_entry callback -> bool) d k : dict_wf d ->
  dget (List.filter (fun kv => P kv.2) d) k = match dget d k with Some e => if P e then Some e else None | None => None end.
Proof.
  unfold dict_wf, dkeys. induction d as [|[k' e] d IH]; intros Hnd; simpl; [done|].
  apply NoDup_cons in Hnd as [Hni Hnd]. specialize (IH Hnd). simpl in Hni.
  destruct (String.eqb_spec k' k) as [->|Hne].
  - apply (dget_None d k) in Hni. rewrite Hni in IH. destruct (P e); simpl; [by rewrite String.eqb_refl|exact IH].
  - destruct (P e); simpl; [|exact IH]. destruct (String.eqb_spec k' k); [done|exact IH].
Qed.

Lemma filter_wf (P : wait_entry callback -> bool) d : dict_wf d -> dict_wf (List.filter (fun kv => P kv.2) d).
Proof.
  unfold dict_wf, dkeys. induction d as [|[k e] d IH]; intros Hnd; simpl; [done|].
  apply NoDup_cons in Hnd as [Hni Hnd]. destruct (P e); [|by apply IH]. simpl. apply NoDup_cons. split; [|by apply IH].
  contradict Hni. apply list_elem_of_fmap in Hni as (kv&Hk&Hin%list_elem_of_In).
  apply filter_In in Hin as [Hin _]. apply list_elem_of_fmap. exists kv. by rewrite list_elem_of_In.
Qed.

(** Delivering a sequence of events: a run is resumed, with its own entry, by the
    first event that matches it, and otherwise keeps waiting. *)
Lemma notify_all_delivers w evs : ready_for_events w ->
  let w' := notify_all w evs in
  ready_for_events w' /\ exists items, w_core w' = foldl enqueue (w_core w) items /\
  (forall r, dget (w_waiting w) r = None -> dget (w_waiting w') r = None) /\
  forall r e, dget (w_waiting w) r = Some e ->
    if existsb (fun ev => entry_matches ev.1 ev.2 e) evs
    then resume_item sv r e ∈ items /\ dget (w_waiting w') r = None
    else dget (w_waiting w') r = Some e.
Proof.
  revert w. induction evs as [|[ev corr] evs IH]; intros w Hw; [split; [done|]; by exists []|].
  pose proof Hw as (Hre&Hwf&Hp).
  change (notify_all w ((ev, corr) :: evs)) with (notify_all (notify_event sv ev corr false w).1 evs).
  destruct (notify_event_run sv ev corr false w Hre Hwf Hp) as (w1&cross&n&->&Hw1&Hc1&Hr1&_). cbn [fst].
  destruct (IH w1) as (Hrdy&items&Hc&Hn&Hr).
  { split_and!; [done|rewrite Hw1; by apply (filter_wf (fun e => negb (entry_matches ev corr e)))|]. rewrite Hw1.
    apply Forall_forall. intros kv Hin%list_elem_of_In. apply filter_In in Hin as [Hin%list_elem_of_In _].
    by eapply Forall_forall in Hp. }
  split; [done|]. exists (resume_items sv (matching ev corr (w_waiting w)) ++ cross ++ items).
  split; [by rewrite Hc, Hc1, <- foldl_app, <- app_assoc|].
  assert (forall r, dget (w_waiting w1) r = match dget (w_waiting w) r with
            Some e => if entry_matches ev corr e then None else Some e | None => None end) as He1.
  { intros r. rewrite Hw1, (dget_filter (fun e => negb (entry_matches ev corr e))) by done.
    destruct (dget (w_waiting w) r) as [e|]; [by destruct (entry_matches ev corr e)|done]. }
  split; [intros r He; apply Hn; by rewrite He1, He|].
  intros r e He. specialize (He1 r). rewrite He in He1. cbn [existsb fst snd].
  destruct (entry_matches ev corr e) eqn:Hm; cbn [orb].
  - split; [|by apply Hn]. apply elem_of_app. left. unfold resume_items. apply list_elem_of_In, in_map_iff.
    exists (r, e). split; [done|]. apply filter_In. split; [|done]. by apply list_elem_of_In, dget_Some_elem.
  - specialize (Hr r e He1). destruct (existsb _ evs); [|done].
    destruct Hr as [Hin Hnone]. split; [|done]. rewrite !elem_of_app. auto.
Qed.
End replay.

(** ** What is waiting after a restart *)

Definition valid_priority (p : option string) : Prop := is_Some (priority_of_string (str_or p "normal")).

Lemma str_or_twice p : str_or (Some (str_or p "normal")) PRIORITY_NORMAL = str_or p "normal".
Proof. by destruct p as [[|a s]|]. Qed.

Section units.
Context {X : Type} {codec : IsoCodec} (sv : services callback X) (rs : rehydration_services X).
Implicit Types (w : world callback X).

Definition row_key (row : unit_row) : string := uuid_to_string (eu_id (ur_unit row)).

Lemma rehydrate_eu_facts w n row :
  let w' := (rehydrate_eu sv rs (w, n) row).1 in
  only_waits w w' /\ (w_waiting w' = w_waiting w \/
    exists e, w_waiting w' = dset (w_waiting w) (row_key row) e /\ we_priority e = str_or (ur_priority row) "normal").
Proof.
  unfold rehydrate_eu. destruct (waiting_for _ w); [split; [done|by left]|].
  destruct (unit_condition (ur_unit row)) as [[wc ev]|]; [|split; [done|by left]]. cbv zeta. cbn [fst].
  match goal with |- context [register_wait sv ?a ?b ?c ?d ?e ?f ?g ?h ?i ?j ?k (CCondition ?l)] =>
    destruct (register_wait_facts sv a b c d e f g h i j k l) as [Hw Ho] end.
  split; [exact Ho|]. right. eexists. split; [exact Hw|done].
Qed.

Lemma dset_priorities (d : dict (wait_entry callback)) k e :
  Forall (fun kv => priority_ok kv.2) d -> priority_ok e -> Forall (fun kv => priority_ok kv.2) (dset d k e).
Proof.
  intros Hd He. induction d as [|[k' e'] d IH]; simpl; [by repeat constructor|].
  apply Forall_cons in Hd as [H1 H2]. destruct (k' =s k); by constructor; auto.
Qed.

Lemma rehydrate_eus_facts w n rows : Forall (fun row => valid_priority (ur_priority row)) rows ->
  let w' := (foldl (rehydrate_eu sv rs) (w, n) rows).1 in
  only_waits w w' /\ (dict_wf (w_waiting w) -> dict_wf (w_waiting w')) /\
  (Forall (fun kv => priority_ok kv.2) (w_waiting w) -> Forall (fun kv => priority_ok kv.2) (w_waiting w')) /\
  (forall k, k ∉ map row_key rows -> dget (w_waiting w') k = dget (w_waiting w) k).
Proof.
  revert w n. induction rows as [|row rows IH]; intros w n Hv; [done|].
  apply Forall_cons in Hv as [Hv1 Hv2]. cbn [foldl].
  destruct (rehydrate_eu_facts w n row) as [Ho Hw]. destruct (rehydrate_eu sv rs (w, n) row) as [w1 n1]. cbn [fst] in *.
  destruct (IH w1 n1 Hv2) as (IHo&IHwf&IHp&IHk). split_and!.
  - by etrans.
  - intros H. apply IHwf. destruct Hw as [->|(e&->&_)]; [done|by apply dset_wf].
  - intros H. apply IHp. destruct Hw as [->|(e&->&He)]; [done|]. apply dset_priorities; [done|].
    unfold priority_ok. by rewrite He, str_or_twice.
  - intros k Hk. simpl in Hk. apply not_elem_of_cons in Hk as [Hk1 Hk2]. rewrite IHk by done.
    destruct Hw as [->|(e&->&_)]; [done|by rewrite dget_dset_ne].
Qed.

Lemma rehydrate_waiting_eus_facts w :
  (forall l, (rs_units rs (w_ext w)).2 = Ok l -> Forall (fun row => valid_priority (ur_priority row)) l) ->
  let w' := (rehydrate_waiting_eus sv rs w).1 in
  only_waits w w' /\ (dict_wf (w_waiting w) -> dict_wf (w_waiting w')) /\
  (Forall (fun kv => priority_ok kv.2) (w_waiting w) -> Forall (fun kv => priority_ok kv.2) (w_waiting w')) /\
  (forall k, (forall l, (rs_units rs (w_ext w)).2 = Ok l -> k ∉ map row_key l) -> dget (w_waiting w') k = dget (w_waiting w) k).
Proof.
  intros Hv. unfold rehydrate_waiting_eus. destruct (rs_units rs (w_ext w)) as [x [l|exc]]; [|done].
  specialize (Hv l eq_refl). match goal with |- context [List.filter ?f l] => set (l' := List.filter f l) end.
  assert (forall row, row ∈ l' -> row ∈ l) as Hsub.
  { intros row Hin%list_elem_of_In. apply filter_In in Hin as [Hin _]. by apply list_elem_of_In. }
  destruct (rehydrate_eus_facts (set_ext w x) 0 l') as (Ho&Hwf&Hp&Hk).
  { apply Forall_forall. intros row Hin. eapply Forall_forall in Hv; [exact Hv|by apply Hsub]. }
  split_and!; [exact Ho|exact Hwf|exact Hp|]. intros k Hn. apply Hk. specialize (Hn l eq_refl). contradict Hn.
  apply list_elem_of_fmap in Hn as (row&->&Hin). apply list_elem_of_fmap. eauto.
Qed.
End units.

(** The entry of a run that waits for an event matches exactly the events of that
    name whose correlation id does not contradict the run's trace. *)
Lemma flow_entry_event `{!IsoCodec} units run ev : fr_waiting_for run = Some ev -> ev <> "" ->
  exists e, flow_entry units run = Some e /\ we_callback e = flow_callback_of units run /\
    we_priority e = flow_priority units (fr_id run) /\
    forall ev' corr, entry_matches ev' corr e =
      (ev =s ev') && negb (corr_conflict (Some (str_or (fr_trace_id run) (fr_id run))) corr).
Proof.
  intros Hw Hev. unfold flow_entry, derive_wait_condition. rewrite Hw.
  assert (str_or_none (Some ev) = Some ev) as -> by (by apply str_or_none_Some). simpl.
  eexists. split_and!; [done..|]. intros ev' corr. unfold entry_matches. simpl.
  assert (truthy ev = true) as -> by (by apply truthy_true). by destruct (ev =s ev').
Qed.

(** rehydration is complete and exact.  On an engine without waits, after
    [rehydrate_waiting_flow_runs] exactly the waiting runs of the table whose wait
    condition can be derived are waiting, each with the entry made from its row;
    the result counts them, and ready queues, buffer and flag are untouched. *)
Theorem flow_rehydration_exact {X} `{!IsoCodec} (sv : services callback X) (rs : rehydration_services X) w rows :
  w_waiting w = [] -> (rs_flow_runs rs (w_ext w)).2 = Ok rows -> NoDup (map fr_id rows) ->
  let runs := List.filter (fun run => fr_status run =s "waiting") rows in
  let units := units_found rs runs (rs_flow_runs rs (w_ext w)).1 in
  let r := rehydrate_waiting_flow_runs sv rs [] w in
  only_waits w r.1 /\
  (forall k e, dget (w_waiting r.1) k = Some e <->
     exists run, run ∈ rows /\ fr_status run = "waiting" /\ fr_id run = k /\ flow_entry units run = Some e) /\
  r.2 = Z.of_nat (length (List.filter (fun run => match flow_entry units run with Some _ => true | None => false end) runs)).
Proof.
  intros Hw Hrows Hnd runs units r.
  assert (waiting_runs [] rows = runs) as Hruns.
  { unfold waiting_runs, runs. apply filter_ext. intros run. apply andb_true_r. }
  destruct (rehydrate_waiting_flow_runs_facts sv rs [] w rows Hrows Hnd) as (Ho&_&Hk&Hr&Hn).
  rewrite Hruns in Hk, Hr, Hn. fold units r in Hk, Hr, Hn.
  assert (forall k, dget (w_waiting w) k = None) as Hnone by (by rewrite Hw).
  assert (forall k, waiting_for k w = None) as Hwf by (intros k; unfold waiting_for; by rewrite Hnone).
  split_and!; [exact Ho| |].
  - intros k e. split.
    + intros He. destruct (decide (k ∈ map fr_id runs)) as [Hin|Hni]; [|by rewrite Hk, Hnone in He].
      apply list_elem_of_In, in_map_iff in Hin as (run&<-&Hin).
      rewrite Hr, Hwf, Hnone in He by (by apply list_elem_of_In).
      apply filter_In in Hin as [Hin%list_elem_of_In Hs]. exists run. split_and!; [done|by apply String.eqb_eq|done|].
      by destruct (flow_entry units run).
    + intros (run&Hin&Hs&<-&He). rewrite Hr, Hwf, He; [done|].
      apply list_elem_of_In, filter_In. split; [by apply list_elem_of_In|by apply String.eqb_eq].
  - rewrite Hn. do 2 f_equal. apply filter_ext. intros run. by rewrite Hwf.
Qed.

Lemma units_by_run_elem ids l r row : dget (units_by_run ids l) r = Some row -> row ∈ l.
Proof.
  unfold units_by_run. cut (forall d, (forall r' row', dget d r' = Some row' -> row' ∈ l) ->
    forall l', (forall row', row' ∈ l' -> row' ∈ l) -> dget (foldl (fun d row =>
      match str_or_none (eu_flow_run_id (ur_unit row)) with
      | Some r => if str_in r ids && negb (dmem d r) then dset d r row else d | None => d end) d l') r = Some row -> row ∈ l).
  { intros H. apply (H [] ltac:(done) l). done. }
  intros d Hd l'. revert d Hd. induction l' as [|row0 l' IH]; intros d Hd Hl; simpl; [by apply Hd|].
  apply IH; [|intros row' Hr'; apply Hl; by right]. intros r' row'.
  destruct (str_or_none _) as [r0|]; [|by apply Hd]. destruct (_ && _); [|by apply Hd].
  destruct (decide (r0 = r')) as [->|Hne]; [rewrite dget_dset_eq; intros [= <-]; apply Hl; by left|].
  rewrite dget_dset_ne by done. apply Hd.
Qed.

Lemma flow_entry_priority `{!IsoCodec} {X} (rs : rehydration_services X) runs x run e :
  (forall l, (rs_units rs x).2 = Ok l -> Forall (fun row => valid_priority (ur_priority row)) l) ->
  flow_entry (units_found rs runs x) run = Some e -> priority_ok e.
Proof.
  intros Hus. unfold flow_entry. destruct (derive_wait_condition run) as [wc|]; [|done]. simpl. intros [= <-].
  unfold priority_ok, flow_priority. simpl. rewrite str_or_twice.
  destruct (dget (units_found rs runs x) (fr_id run)) as [row|] eqn:Hd; [|by eexists].
  unfold units_found in Hd. destruct ((rs_units rs x).2) as [l|exc] eqn:Hl; [|done].
  apply units_by_run_elem in Hd. specialize (Hus l eq_refl). by eapply Forall_forall in Hus.
Qed.

(** Where a run of the flow table stands before any event is replayed *)
Lemma restart_registers {X} `{!IsoCodec} (sv : services callback X) (rs : rehydration_services X) w rows run ev :
  w_waiting w = [] -> (forall x, (rs_flow_runs rs x).2 = Ok rows) -> NoDup (map fr_id rows) ->
  run ∈ rows -> fr_status run = "waiting" -> fr_waiting_for run = Some ev -> ev <> "" ->
  (forall x l, (rs_units rs x).2 = Ok l ->
     (fr_id run ∉ map row_key l) /\ Forall (fun row => valid_priority (ur_priority row)) l) ->
  let w' := (rehydrate_waiting_flow_runs sv rs [] (rehydrate_waiting_eus sv rs w).1).1 in
  only_waits w w' /\ dict_wf (w_waiting w') /\ Forall (fun kv => priority_ok kv.2) (w_waiting w') /\
  exists units e, dget (w_waiting w') (fr_id run) = Some e /\ we_callback e = flow_callback_of units run /\
    forall ev' corr, entry_matches ev' corr e =
      (ev =s ev') && negb (corr_conflict (Some (str_or (fr_trace_id run) (fr_id run))) corr).
Proof.
  intros Hw Hrows Hnd Hin Hst Hev Hne Hus.
  destruct (rehydrate_waiting_eus_facts sv rs w) as (Ho1&Hwf1&Hp1&Hk1); [by intros l Hl; apply (Hus _ l Hl)|].
  set (w1 := (rehydrate_waiting_eus sv rs w).1) in *. rewrite Hw in Hwf1, Hp1.
  specialize (Hwf1 ltac:(by apply NoDup_nil)). specialize (Hp1 ltac:(done)).
  destruct (rehydrate_waiting_flow_runs_facts sv rs [] w1 rows (Hrows _) Hnd) as (Ho2&Hwf2&Hk2&Hr2&_).
  set (runs := waiting_runs [] rows) in *. set (units := units_found rs runs _) in *.
  set (w2 := rehydrate_waiting_flow_runs sv rs [] w1) in *.
  assert (forall run', run' ∈ runs -> forall e, dget (w_waiting w2.1) (fr_id run') = Some e ->
    priority_ok e \/ dget (w_waiting w1) (fr_id run') = Some e) as Hprio.
  { intros run' Hrun' e. rewrite Hr2 by done. destruct (waiting_for _ w1); [by right|].
    destruct (flow_entry units run') as [e'|] eqn:He'; [|by right]. intros [= ->]. left.
    eapply (flow_entry_priority rs); [|exact He']. intros l Hl. by apply (Hus _ l Hl). }
  split_and!; [by etrans|by apply Hwf2| |].
  - apply Forall_forall. intros [k e] Hke. apply (dget_elem _ _ _ (Hwf2 Hwf1)) in Hke. simpl.
    assert (dget (w_waiting w1) k = Some e -> priority_ok e) as Hold.
    { intros Hd%dget_Some_elem. by eapply (proj1 (Forall_forall _ _)) in Hp1; [|exact Hd]. }
    destruct (decide (k ∈ map fr_id runs)) as [Hk|Hk]; [|apply Hold; by rewrite <- Hk2].
    apply list_elem_of_In, in_map_iff in Hk as (run'&<-&Hrun'%list_elem_of_In).
    destruct (Hprio run' Hrun' e Hke) as [?|?]; auto.
  - destruct (flow_entry_event units run ev Hev Hne) as (e&He&Hcb&_&Hm). exists units, e. split_and!; [|done|done].
    rewrite Hr2; [|by apply list_elem_of_In, filter_In; rewrite Hst; split; [apply list_elem_of_In|]].
    assert (dget (w_waiting w1) (fr_id run) = None) as Hn.
    { unfold w1. rewrite Hk1, Hw; [done|]. intros l Hl. apply (Hus _ l Hl). }
    unfold waiting_for. rewrite Hn. simpl. by rewrite He.
Qed.

Lemma drain_notifies {Y} `{!IsoCodec} (ps : pubsub Y) CHANNEL (base : services callback (bus * Y)) w :
  (drain_buffered_events ps CHANNEL base w).1 =
  notify_all (bus_services ps CHANNEL base) (set_bus_buffer w []) (bus_buffer (world_bus w)).
Proof.
  unfold drain_buffered_events, notify_all. generalize (set_bus_buffer w []) 0 (bus_buffer (world_bus w)).
  intros w0 n evs. revert w0 n. induction evs as [|e evs IH]; intros w0 n; [done|]. cbn [foldl fst snd].
  destruct (notify_event _ e.1 e.2 false w0) as [w1 r]. apply IH.
Qed.

(** C28: a restart loses no wait and no event.  Let a process start with an empty
    wait table while events have already been buffered by its scheduler and its
    event bus.  A run of the database that waits for an event is, after the start-up
    phase, either ready to be resumed by its flow callback, when one of the
    buffered events has the name it waits for and no contradicting correlation id,
    or still waiting, when none has. *)
Theorem restart_loses_no_event {Y} `{!IsoCodec} (ps : pubsub Y) CHANNEL (base : services callback (bus * Y))
    (rs : rehydration_services (bus * Y)) w rows run ev :
  w_waiting w = [] -> (forall x, (rs_flow_runs rs x).2 = Ok rows) -> NoDup (map fr_id rows) ->
  run ∈ rows -> fr_status run = "waiting" -> fr_waiting_for run = Some ev -> ev <> "" ->
  (forall x l, (rs_units rs x).2 = Ok l ->
     (fr_id run ∉ map row_key l) /\ Forall (fun row => valid_priority (ur_priority row)) l) ->
  let sv := bus_services ps CHANNEL base in
  let w2 := mark_rehydration_complete sv
              (rehydrate_waiting_flow_runs sv rs [] (rehydrate_waiting_eus sv rs w).1).1 in
  let w' := rehydrate_waiting_state ps CHANNEL base rs w in
  let hit e := (ev =s e.1) && negb (corr_conflict (Some (str_or (fr_trace_id run) (fr_id run))) e.2) in
  exists units e items, w_core w' = foldl enqueue (w_core w) items /\ we_callback e = flow_callback_of units run /\
    if existsb hit (w_buffer w ++ bus_buffer (world_bus w2))
    then resume_item sv (fr_id run) e ∈ items /\ dget (w_waiting w') (fr_id run) = None
    else dget (w_waiting w') (fr_id run) = Some e.
Proof.
  intros Hw Hrows Hnd Hin Hst Hev Hne Hus sv w2 w' hit.
  destruct (restart_registers sv rs w rows run ev Hw Hrows Hnd Hin Hst Hev Hne Hus)
    as ((Hc&Hb&_)&Hwf&Hp&units&e&He&Hcb&Hm).
  set (w1 := (rehydrate_waiting_flow_runs sv rs [] (rehydrate_waiting_eus sv rs w).1).1) in *.
  assert (forall evs, existsb (fun e' => entry_matches e'.1 e'.2 e) evs = existsb hit evs) as Hhit.
  { induction evs as [|e' evs IH]; simpl; [done|]. by rewrite Hm, IH. }
  destruct (notify_all_delivers sv (set_buffer (set_rehydrated w1 true) []) (w_buffer w1)) as (Hrdy&i1&Hc1&Hn1&Hr1); [done|].
  specialize (Hr1 (fr_id run) e He). change (notify_all sv _ (w_buffer w1)) with w2 in Hrdy, Hc1, Hn1, Hr1.
  destruct (notify_all_delivers sv (set_bus_buffer w2 []) (bus_buffer (world_bus w2))) as (_&i2&Hc2&Hn2&Hr2).
  { unfold set_bus_buffer. by destruct (w_ext w2). }
  assert (notify_all sv (set_bus_buffer w2 []) (bus_buffer (world_bus w2)) = w') as Hw'.
  { unfold w', rehydrate_waiting_state. by rewrite drain_notifies. }
  rewrite Hw' in Hc2, Hn2, Hr2.
  assert (w_core (set_bus_buffer w2 []) = w_core w2 /\ w_waiting (set_bus_buffer w2 []) = w_waiting w2) as [Hsc Hsw]
    by (unfold set_bus_buffer; by destruct (w_ext w2)).
  rewrite Hsw in Hn2, Hr2. exists units, e, (i1 ++ i2). split_and!; [|done|].
  - rewrite Hc2, Hsc, Hc1, <- foldl_app. simpl. by rewrite Hc.
  - rewrite existsb_app, <- Hb, <- !Hhit. destruct (existsb _ (w_buffer w1)); cbn [orb].
    + destruct Hr1 as [Hi Hn]. split; [apply elem_of_app; by left|by apply Hn2].
    + specialize (Hr2 (fr_id run) e Hr1). destruct (existsb _ _); [|done]. destruct Hr2 as [Hi Hn].
      split; [apply elem_of_app; by right|done].
Qed.

(** A table with one run that waits for ["go"], and one that waits for a time. *)
Definition demo_run (id : string) (ev : option string) (st : dict json) : FlowRun :=
  MkRun id "f" None st "a" "waiting" ev None (Some "c1") None None None None.
Definition demo_rows : list FlowRun :=
  [demo_run "r1" (Some "go") []; demo_run "r2" None [("trigger_at", JStr "later")]; demo_run "r3" None []].
Definition demo_rehydration {X} : rehydration_services X := {|
  rs_clock _ := 5;
  rs_flow_runs x := (x, Ok demo_rows);
  rs_units x := (x, Ok [MkUnitRow (demo_unit "waiting" (Some (MkWcDict (Some "event") TNone (Some "go") None)))
                          None (Some "high")]);
  rs_row_get _ x := (x, Ok None);
  rs_row_flush _ x := (x, Ok ());
  rs_rollback x := x;
  rs_hostname := "local"
|}.

Lemma flow_rehydration_exact_witness :
  exists e, dget (w_waiting (rehydrate_waiting_flow_runs local_services demo_rehydration [] (world_init tt)).1) "r1" = Some e /\
    we_wait_for e = Some "go".
Proof.
  destruct (flow_rehydration_exact local_services demo_rehydration (world_init tt) demo_rows) as (_&Hw&_);
    [done|done|by_evaluation|].
  eexists. split; [|shelve]. apply Hw. exists (demo_run "r1" (Some "go") []).
  split_and!; [by left|done|done|reflexivity]. Unshelve. reflexivity.
Defined.

Definition demo_starting : world callback (bus * (bool * list (string * string))) :=
  set_buffer (world_init (MkBus "i1" true false 0 [("go", Some "c1")], (true, []))) [("go", Some "c9")].

Lemma restart_loses_no_event_witness :
  exists units e items,
    w_core (rehydrate_waiting_state demo_pubsub "ch" local_services demo_rehydration demo_starting) = foldl enqueue core_init items /\
    resume_item (bus_services demo_pubsub "ch" local_services) "r1" e ∈ items /\
    we_callback e = flow_callback_of units (demo_run "r1" (Some "go") []).
Proof.
  edestruct (restart_loses_no_event demo_pubsub "ch" local_services demo_rehydration demo_starting demo_rows
    (demo_run "r1" (Some "go") []) "go") as (units&e&items&Hc&Hcb&Hr).
  - done.
  - done.
  - by_evaluation.
  - by left.
  - done.
  - done.
  - done.
  - intros x l [= <-]. by_evaluation.
  - exists units, e, items. split_and!; [exact Hc| |exact Hcb].
    replace (existsb _ _) with true in Hr by (vm_compute; reflexivity). exact (proj1 Hr).
Defined.

(** ** The resume watchdog: [scan_and_resume_stranded_flows] *)

Record system_event := MkSystemEvent { se_type : string; se_timestamp : datetime; se_trace_id : option string }.

Record watchdog_services (X : Type) := MkWatchdog {
  wd_clock : X -> Z;
  wd_wait_rows : X -> X * result (list backup_row);
  wd_flow_run : string -> X -> X * result (option FlowRun);
  wd_events : X -> X * result (list system_event)
}.
Arguments wd_clock {X}. Arguments wd_wait_rows {X}. Arguments wd_flow_run {X}. Arguments wd_events {X}.

(** [_WATCHDOG_MIN_WAIT_MINUTES] and [_EVENT_LOOKBACK_MINUTES], in microseconds *)
Definition WATCHDOG_MIN_WAIT : Z := 2 * 60000000.
Definition EVENT_LOOKBACK : Z := 60 * 60000000.

Section watchdog.
Context {X : Type} {codec : IsoCodec} (sv : services callback X) (rs : rehydration_services X) (wd : watchdog_services X).
Let world := world callback X.

(** The query for the events a row has missed *)
Definition missed_events (now : Z) (row : backup_row) (ev : string) (log : list system_event) : list system_event :=
  List.filter (fun s => (se_type s =s ev) &&
    (instant (ensure_utc (row_waited_since row)) <=? instant (se_timestamp s)) &&
    (now - EVENT_LOOKBACK <=? instant (se_timestamp s)) &&
    match str_or_none (row_correlation_id row) with
    | Some c => bool_decide (se_trace_id s = Some c)
    | None => true
    end) log.

(** The body of the loop; [now] was read at the start of the scan. *)
Definition scan_row (now : Z) (acc : world * Z) (row : backup_row) : world * Z :=
  let (w, n) := acc in
  let run_id := row_run_id row in
  let (x1, flow) := wd_flow_run wd run_id (w_ext w) in
  let w1 := set_ext w x1 in
  match flow with
  | Ok (Some run) =>
      if negb (fr_status run =s "waiting") then (w1, n) else
      let ev := str_or (Some (row_event_type row)) (str_or (fr_waiting_for run) "") in
      if negb (truthy ev) || (ev =s TIME_SENTINEL) then (w1, n) else
      let (x2, log) := wd_events wd x1 in
      let w2 := set_ext w1 x2 in
      match log with
      | Raise _ => (w2, n)
      | Ok log =>
          match missed_events now row ev log with
          | [] => (w2, n)
          | _ =>
              let w3 := match waiting_for run_id w2 with
                        | None => (rehydrate_waiting_flow_runs sv rs [] w2).1
                        | Some _ => w2
                        end in
              match notify_event sv ev (row_correlation_id row) false w3 with
              | (w4, Ok k) => (w4, if 0 <? k then n + k else n)
              | (w4, Raise _) => (w4, n)
              end
          end
      end
  | _ => (w1, n)
  end.

Definition scan_and_resume_stranded_flows (w : world) : world * Z :=
  let now := wd_clock wd (w_ext w) in
  let (x, rows) := wd_wait_rows wd (w_ext w) in
  match rows with
  | Raise _ => (set_ext w x, 0)
  | Ok rows =>
      foldl (scan_row now) (set_ext w x, 0)
        (List.filter (fun row => instant (row_waited_since row) <=? now - WATCHDOG_MIN_WAIT) rows)
  end.
End watchdog.

(** *** The start of a wait after a restart *)
Section wait_start.
Context {X : Type} {codec : IsoCodec} (sv : services callback X) (rs : rehydration_services X).
(** The committed rows of [waiting_flow_runs]; what the caller's session flushes is
    not among them, because the start-up phase closes it without a commit. *)
Context (view : X -> gmap string backup_row) (T : Z).

Class BackupLaws := {
  law_no_registry : sv_redis sv = None;
  law_merge row x : view (sv_backup_merge sv row x).1 = <[row_run_id row := row]> (view x);
  law_deadline r x : view (sv_flow_deadline sv r x).1 = view x /\ is_ok (sv_flow_deadline sv r x).2 = true;
  law_flow_runs x : view (rs_flow_runs rs x).1 = view x;
  law_units x : view (rs_units rs x).1 = view x;
  law_row_get r x : view (rs_row_get rs r x).1 = view x;
  law_row_flush row x : view (rs_row_flush rs row x).1 = view x;
  law_rollback x : view (rs_rollback rs x) = view x;
  law_clock x : rs_clock rs x = T
}.
Context `{!BackupLaws}.
Implicit Types (w : world callback X) (run : FlowRun).

(** The wait of [r] starts at [T]. *)
Definition starts_at (r : string) w : Prop :=
  exists row, view (w_ext w) !! r = Some row /\ row_run_id row = r /\ row_waited_since row = utc_datetime T.

Lemma register_wait_starts w r ev t eu cb p c tr ty wc :
  exists row, view (w_ext (register_wait sv T w r ev t eu cb p c tr ty (CCondition wc))) = <[r := row]> (view (w_ext w)) /\
    row_run_id row = r /\ row_waited_since row = utc_datetime T.
Proof.
  unfold register_wait, persist_wait_backup. rewrite law_no_registry. simpl. rewrite dget_dset_eq. simpl.
  set (o := match wc_trigger_at wc with Some d => _ | None => _ end).
  pose proof (law_deadline r (w_ext w)) as [Hv Hok].
  destruct (match backup_timeout o with Some t0 => _ | None => _ end) as [x1 rt] eqn:E.
  assert (view x1 = view (w_ext w) /\ is_ok rt = true) as [Hx Hrt].
  { destruct (backup_timeout o); [by simplify_eq|]. destruct (sv_flow_deadline sv r (w_ext w)). by simplify_eq. }
  destruct rt as [timeout|]; [|done]. simpl. eexists. rewrite law_merge, Hx. simpl. done.
Qed.

Lemma ensure_row_view r ev c t eu p w : view (w_ext (ensure_row rs r ev c t eu p w)) = view (w_ext w).
Proof.
  unfold ensure_row, ensure_waiting_flow_run_row. simpl.
  pose proof (law_row_get r (w_ext w)) as Hg. destruct (rs_row_get rs r (w_ext w)) as [x1 [existing|exc]]; simpl in Hg.
  - match goal with |- context [rs_row_flush rs ?row x1] =>
      pose proof (law_row_flush row x1) as Hf; destruct (rs_row_flush rs row x1) as [x2 [[]|exc]] end; simpl in Hf.
    + congruence.
    + rewrite law_rollback. congruence.
  - by rewrite law_rollback.
Qed.

Lemma rehydrate_flow_starts units w n run :
  let w' := (rehydrate_flow sv rs units (w, n) run).1 in
  (forall r, starts_at r w -> starts_at r w') /\
  (waiting_for (fr_id run) w = None -> is_Some (derive_wait_condition run) -> starts_at (fr_id run) w').
Proof.
  unfold rehydrate_flow. destruct (waiting_for (fr_id run) w); [done|].
  destruct (derive_wait_condition run) as [wc|]; [|by split; [|intros _ []]]. cbv zeta. cbn [fst].
  rewrite law_clock. unfold starts_at. setoid_rewrite ensure_row_view.
  match goal with |- context [register_wait sv T ?b ?c ?d ?e ?f ?g ?h ?i ?j ?k (CCondition ?l)] =>
    destruct (register_wait_starts b c d e f g h i j k l) as (row&->&Hid&Hws) end.
  split; [|intros _ _; exists row; by rewrite lookup_insert_eq].
  intros r (row'&Hr&Hrow'). destruct (decide (fr_id run = r)) as [<-|Hne].
  - exists row. by rewrite lookup_insert_eq.
  - exists row'. by rewrite lookup_insert_ne.
Qed.

Lemma rehydrate_flows_starts units runs w n run : NoDup (map fr_id runs) -> run ∈ runs ->
  waiting_for (fr_id run) w = None -> is_Some (derive_wait_condition run) ->
  starts_at (fr_id run) (foldl (rehydrate_flow sv rs units) (w, n) runs).1.
Proof.
  intros Hnd Hin Hn Hd. apply list_elem_of_split in Hin as (l1&l2&->). rewrite foldl_app. cbn [foldl].
  rewrite map_app in Hnd. simpl in Hnd. apply NoDup_app in Hnd as (Hnd1&Hni&_).
  destruct (rehydrate_flows_facts sv rs units l1 w n Hnd1) as (_&_&Hk&_&_).
  destruct (foldl (rehydrate_flow sv rs units) (w, n) l1) as [w1 n1]. cbn [fst] in Hk.
  assert (starts_at (fr_id run) (rehydrate_flow sv rs units (w1, n1) run).1) as Hs.
  { apply rehydrate_flow_starts; [|done]. unfold waiting_for. rewrite Hk; [exact Hn|].
    intros Hin. apply (Hni _ Hin). by left. }
  destruct (rehydrate_flow sv rs units (w1, n1) run) as [w2 n2]. cbn [fst] in Hs. revert w2 n2 Hs. clear Hnd1 Hni Hk Hn Hd w n.
  induction l2 as [|run' l2 IH]; intros w n Hs; [done|]. cbn [foldl].
  pose proof (proj1 (rehydrate_flow_starts units w n run') _ Hs) as Hs'.
  destruct (rehydrate_flow sv rs units (w, n) run') as [w3 n3]. by apply IH.
Qed.
End wait_start.

(** a restart hides the events that came before it from the watchdog.  At a
    restart at the time [T] every waiting run is registered anew, and with it its
    row of [waiting_flow_runs] gets [T] as the start of the wait.  The watchdog only
    looks for events since that time: when all logged events are older, a scan of
    the row leaves the engine as it is, so a run whose event was emitted while no
    process was listening stays stranded. *)
Theorem restart_hides_missed_events {X} `{!IsoCodec} (sv : services callback X) (rs : rehydration_services X)
    (wd : watchdog_services X) view T `{!BackupLaws sv rs view T} w rows run log now w2 n :
  w_waiting w = [] -> (rs_flow_runs rs (w_ext w)).2 = Ok rows -> NoDup (map fr_id rows) ->
  run ∈ rows -> fr_status run = "waiting" -> is_Some (derive_wait_condition run) ->
  (forall x, (wd_events wd x).2 = Ok log) -> Forall (fun s => instant (se_timestamp s) < T) log ->
  exists row, view (w_ext (rehydrate_waiting_flow_runs sv rs [] w).1) !! fr_id run = Some row /\
    exists x, scan_row sv rs wd now (w2, n) row = (set_ext w2 x, n).
Proof.
  intros Hw Hrows Hnd Hin Hst Hd Hlog Hold.
  assert (run ∈ waiting_runs [] rows) as Hrun.
  { apply list_elem_of_In, filter_In. rewrite Hst. split; [by apply list_elem_of_In|done]. }
  assert (starts_at view T (fr_id run) (rehydrate_waiting_flow_runs sv rs [] w).1) as (row&Hrow&Hid&Hws).
  { unfold rehydrate_waiting_flow_runs. destruct (rs_flow_runs rs (w_ext w)) as [x o]. simpl in Hrows. subst o.
    pose proof (waiting_runs_nodup [] rows Hnd) as Hnd'. destruct (waiting_runs [] rows) as [|r0 l]; [by apply elem_of_nil in Hrun|].
    unfold rehydrate_runs. eapply (rehydrate_flows_starts sv rs view T); try done.
    unfold waiting_for. simpl. by rewrite Hw. }
  exists row. split; [done|]. unfold scan_row. rewrite Hid.
  destruct (wd_flow_run wd (fr_id run) (w_ext w2)) as [x1 [[run'|]|exc]]; [|by eexists..].
  destruct (negb (fr_status run' =s "waiting")); [by eexists|].
  destruct (negb (truthy _) || _); [by eexists|].
  specialize (Hlog x1). destruct (wd_events wd x1) as [x2 o]. simpl in Hlog. subst o.
  assert (forall ev, missed_events now row ev log = []) as ->; [|by eexists].
  intros ev. unfold missed_events. rewrite Hws. induction Hold as [|s log Hs _ IH]; simpl; [done|].
  change (instant (ensure_utc (utc_datetime T))) with (T - 0). rewrite (proj2 (Z.leb_gt _ _)) by lia.
  by rewrite andb_false_r.
Qed.

(** A backup table in memory, restarted at the time 5, with an event of the time 4
    in the log. *)
Definition table_services : services callback (gmap string backup_row) := {|
  sv_redis := None;
  sv_builders := [];
  sv_backup_merge row x := (<[row_run_id row := row]> x, Ok ());
  sv_backup_delete r x := (delete r x, Ok ());
  sv_backup_get r x := (x, Ok (x !! r));
  sv_backup_all x := (x, Ok (map_to_list x).*2);
  sv_flow_deadline _ x := (x, Ok None);
  sv_waiting_ids ids x := (x, Ok ids);
  sv_publish _ _ x := (x, Ok ());
  sv_rehydrate _ w := (w, Ok 0);
  sv_instance := "local";
  sv_max_retries := 2;
  sv_buffer_max := 1000
|}.
#[export] Instance table_laws : BackupLaws table_services demo_rehydration id 5.
Proof. split; done. Qed.
Definition demo_watchdog : watchdog_services (gmap string backup_row) := {|
  wd_clock _ := 999999999;
  wd_wait_rows x := (x, Ok (map_to_list x).*2);
  wd_flow_run _ x := (x, Ok (head demo_rows));
  wd_events x := (x, Ok [MkSystemEvent "go" (utc_datetime 4) (Some "c1")])
|}.

Lemma restart_hides_missed_events_witness :
  exists row, w_ext (rehydrate_waiting_flow_runs table_services demo_rehydration [] (world_init ∅)).1 !! "r1" = Some row /\
    exists x, scan_row table_services demo_rehydration demo_watchdog 999999999 (world_init ∅, 0) row = (set_ext (world_init ∅) x, 0).
Proof.
  apply (restart_hides_missed_events table_services demo_rehydration demo_watchdog id 5 (world_init ∅) demo_rows
    (demo_run "r1" (Some "go") []) [MkSystemEvent "go" (utc_datetime 4) (Some "c1")] 999999999 (world_init ∅) 0).
  - done.
  - done.
  - by_evaluation.
  - by left.
  - done.
  - by eexists.
  - done.
  - repeat constructor.
Defined.
