(* ===== verification/Resumption.v ===== *)
(** * Resume callbacks

    What happens when the scheduler dispatches a callback of [Rehydration]: the
    closures of [rehydrate_waiting_flow_runs] and [rehydrate_waiting_eus], the
    callback that [resume_spec.py] builds for runs claimed from another instance,
    and the live runner's own.  They run on the database of [FlowEngine].  Every
    closure opens its own session: what it changes without a commit is rolled
    back when the session is closed ([close_session]). *)
From S2P Require Import Prelude PyDatetime Json PyUuid WaitCondition SchedulerCore WaitRegistry SchedulerWaits ResourceManager ExecutionUnit FlowEngine FlowFacts FlowSlots FlowPlans EventBus Rehydration.
Local Open Scope Z_scope.

Section callbacks.
Context {X S : Type} (E : env X) (db : eu_session S) (sv : @flow_services X S).
(** [FLOW_REGISTRY] *)
Context (registry : dict flow).
Local Abbreviation cfg := (@cfg X S).
Implicit Types c : cfg.

(** [update({"status": "executing"})]: the other columns keep their values. *)
Definition run_executing (r : FlowRun) : FlowRun :=
  MkRun (fr_id r) (fr_flow_name r) (fr_workflow_type r) (fr_state r) (fr_current_node r) "executing" (fr_waiting_for r)
    (fr_wait_deadline r) (fr_trace_id r) (fr_user_id r) (fr_job_log_id r) (fr_error_message r) (fr_completed_at r).

(** The closure of [rehydrate_waiting_flow_runs]; exceptions are logged. *)
Definition flow_callback (fuel : nat) (r_id flow_name : string) (user : option UUID) (workflow eid : string) : M unit :=
  match dget registry flow_name with
  | None => mret ()
  | Some f =>
      catch (
        waiting ← gets (is_waiting r_id);
        ok ← call (fun x => let (x', b) := fs_claim_commit sv x in (x', Ok b));
        if negb ok then mret () else
        if negb waiting then mret () else
        _ ← update_run r_id run_executing;
        _ ← (if truthy eid then
               modifies (fun c => set_units (resume_execution_unit db (clock sv c) (IdText eid) (c_units c)).1 c)
             else mret ());
        _ ← resume E db sv fuel None (MkRunner f user (Some workflow) None "normal" None None None) r_id;
        mret ()) (fun _ => mret ())
  end.

(** A session closed without a commit: the units are what they were. *)
Definition close_session (before after : cfg) : cfg := set_units (c_units before) after.

(** The closure of [rehydrate_waiting_eus] and the one of [resume_spec.py] *)
Definition resume_unit (eid : string) c : cfg :=
  close_session c (set_units (resume_execution_unit db (clock sv c) (IdText eid) (c_units c)).1 c).
Definition unit_callback (eid : string) (flow_run_id : option string) c : cfg :=
  match flow_run_id with
  | Some fr => match c_runs c !! fr with
               | Some run => if negb (fr_status run =s "waiting") then c else resume_unit eid c
               | None => resume_unit eid c
               end
  | None => resume_unit eid c
  end.

(** Running a callback *)
Definition execute_callback (fuel : nat) (cb : callback) : M unit :=
  match cb with
  | CbFlow r_id name user workflow eid => flow_callback fuel r_id name user workflow eid
  | CbUnit eid fr => modifies (unit_callback eid fr)
  | CbSpec eid => modifies (resume_unit eid)
  | CbRunner r rid => _ ← resume E db sv fuel None r rid; mret ()
  end.

Lemma flow_callback_idle fuel r_id name user wf eid c : is_waiting r_id c = false ->
  exists c', flow_callback fuel r_id name user wf eid c = (c', Ok ()) /\ ext_only c c'.
Proof.
  intros Hw. unfold flow_callback. destruct (dget registry name) as [f|]; [|exists c; split; [done|apply ext_only_refl]].
  unfold catch, mbind, M_bind, gets, call. rewrite Hw.
  destruct (fs_claim_commit sv (c_ext c)) as [x ok]. exists (set_rm (with_ext (c_rm c) x) c).
  split; [by destruct ok|by exists x].
Qed.

(** A callback that wins the claim goes on with the run in status executing. *)
Lemma flow_callback_claims fuel r_id name user wf eid c f : is_waiting r_id c = true ->
  dget registry name = Some f -> (fs_claim_commit sv (c_ext c)).2 = true ->
  exists c1, flow_callback fuel r_id name user wf eid c =
    catch (_ ← resume E db sv fuel None (MkRunner f user (Some wf) None "normal" None None None) r_id; mret ()) (fun _ => mret ()) c1 /\
    c_runs c1 = alter run_executing r_id (c_runs c) /\ c_history c1 = c_history c /\
    exists x, c_rm c1 = with_ext (c_rm c) x.
Proof.
  intros Hw Hf Hok. unfold flow_callback. rewrite Hf. unfold catch, mbind, M_bind, gets, call. rewrite Hw.
  destruct (fs_claim_commit sv (c_ext c)) as [x ok]. cbn in Hok. subst ok. cbn [negb update_run modifies].
  destruct (truthy eid); (eexists; split; [reflexivity|]; split; [done|]; split; [done|]; by exists x).
Qed.
End callbacks.


(** The run waits at the first step of the plan a, b; the process that resumes it
    has just been started. *)
Definition restarted_run : FlowRun :=
  MkRun "run-1" "demo" None [("trace_id", JStr "trace-1")] "a" "waiting" (Some "go") None (Some "trace-1") (Some (MkUUID 9))
    None None None.
Definition restarted_cfg : @cfg unit (gmap UUID ExecutionUnit) := set_runs (fun _ => {["run-1" := restarted_run]}) quiet_cfg.


(** ** Runs claimed from another instance *)

(** [_RESUME_CALLBACK_BUILDERS] after the import of [resume_spec.py], with
    [_build_execution_unit_resume_callback] *)
Definition resume_builders : dict (ResumeSpec -> result callback) :=
  register_resume_callback_builder [] RESUME_HANDLER_EU (fun spec => Ok (CbSpec (spec_eu_id spec))).

Section cross.
Context {X : Type} {codec : IsoCodec} (sv : services callback X).
Hypothesis Hbuilders : sv_builders sv = resume_builders.
Implicit Types w : world callback X.

Lemma resume_builders_spec spec cb : build_callback_from_spec resume_builders spec = Ok cb -> exists eid, cb = CbSpec eid.
Proof.
  unfold build_callback_from_spec, resume_builders, register_resume_callback_builder. cbn [dset dget].
  destruct (RESUME_HANDLER_EU =s spec_handler spec); [|done]. intros [= <-]. by eexists.
Qed.

(** [w'] is [w] with some runs made ready whose callbacks were built from specifications. *)
Definition built w w' : Prop := exists items, w_core w' = foldl enqueue (w_core w) items /\
  Forall (fun i => exists eid, SchedulerCore.run_callback i = CbSpec eid) items.
#[export] Instance built_preorder : PreOrder built.
Proof.
  split; [intros w; by exists []|]. intros w1 w2 w3 (l1&H1&F1) (l2&H2&F2). exists (l1 ++ l2).
  split; [by rewrite foldl_app, H2, H1|by apply Forall_app].
Qed.
Lemma built_core w w' : w_core w' = w_core w -> built w w'.
Proof. by exists []. Qed.

Lemma enqueue_built w r cb eu t p ty : (exists eid, cb = CbSpec eid) -> built w (enqueue_resume sv w r cb eu t p ty).1.
Proof.
  intros Hcb. unfold enqueue_resume, new_ScheduledItem. destruct (priority_of_string _) as [q|]; [|by apply built_core].
  eexists [_]. split; [done|]. by repeat constructor.
Qed.

Lemma cross_resume_one_built ev corr skip w r spec : built w (cross_resume_one sv ev corr skip w r spec).1.
Proof.
  unfold cross_resume_one, load_wait_entry, claim. destruct (str_in r skip); [done|]. destruct (dmem _ _); [done|].
  destruct (sv_backup_get sv r (w_ext w)) as [x1 row].
  destruct (match row with Ok o => o | Raise _ => None end) as [rw|]; [|by apply built_core].
  destruct (negb _); [by apply built_core|].
  destruct (match str_or_none corr with Some c => _ | None => _ end); [by apply built_core|].
  rewrite Hbuilders. destruct (build_callback_from_spec _ _) as [cb|] eqn:Hcb; [|by apply built_core].
  apply resume_builders_spec in Hcb. cbn [w_ext set_ext].
  destruct (reg_unregister_if_exists _ _ _) as [x2 []]; [|by apply built_core].
  match goal with |- context [enqueue_resume sv ?w2 r cb ?eu ?t ?p ?ty] =>
    pose proof (enqueue_built w2 r cb eu t p ty Hcb) as Hb; destruct (enqueue_resume sv w2 r cb eu t p ty) as [w3 [[]|e]] end;
    (etrans; [|exact Hb]); by apply built_core.
Qed.

Lemma cross_loop_built one specs n w : (forall w r spec, built w (one w r spec).1) -> built w (cross_loop one specs n w).1.
Proof.
  intros Hone. revert n w. induction specs as [|[k s] specs IH]; intros n w; simpl; [done|].
  pose proof (Hone w k s) as H1. destruct (one w k s) as [w1 [m|e]]; [|done]. etrans; [exact H1|apply IH].
Qed.
End cross.

(** a run claimed from another instance is not resumed.  Whatever runs
    [_cross_instance_resume] takes over for an event, their callbacks come from
    the only builder there is, which resumes the execution unit in a session that
    is never committed: running them leaves flow runs, history and units exactly
    as they were. *)
Theorem cross_instance_resume_has_no_effect {X Y S} `{!IsoCodec} (sv : services callback X) (E : env Y) (db : eu_session S)
    (fsv : @flow_services Y S) registry ev corr skip w :
  sv_builders sv = resume_builders ->
  exists items, w_core (cross_instance_resume sv ev corr skip w).1 = foldl enqueue (w_core w) items /\
    Forall (fun i => forall fuel c, execute_callback E db fsv registry fuel (SchedulerCore.run_callback i) c = (c, Ok ())) items.
Proof.
  intros Hb. assert (built w (cross_instance_resume sv ev corr skip w).1) as (items&Hc&Hf).
  { unfold cross_instance_resume, cross_instance. destruct (sv_redis sv) as [c|]; [|by apply built_core].
    destruct (reg_get_all_specs (Some c) (w_ext w)) as [x specs].
    pose proof (cross_loop_built (cross_resume_one sv ev corr skip) specs 0 (set_ext w x)) as Hl.
    destruct (cross_loop _ specs 0 (set_ext w x)) as [w1 [m|e]]; cbn [fst] in *;
      (etrans; [by apply (built_core w (set_ext w x))|]; apply Hl; by apply cross_resume_one_built). }
  exists items. split; [done|]. eapply Forall_impl; [exact Hf|]. intros i (eid&->) fuel c. cbn.
  unfold modifies, resume_unit, close_session. by destruct c.
Qed.

(** The run ["r9"] of another instance waits for ["go"]. *)
Definition cross_services : services callback demo_ext := {|
  sv_redis := sv_redis demo_services;
  sv_builders := resume_builders;
  sv_backup_merge := sv_backup_merge demo_services;
  sv_backup_delete := sv_backup_delete demo_services;
  sv_backup_get := sv_backup_get demo_services;
  sv_backup_all := sv_backup_all demo_services;
  sv_flow_deadline := sv_flow_deadline demo_services;
  sv_waiting_ids := sv_waiting_ids demo_services;
  sv_publish := sv_publish demo_services;
  sv_rehydrate _ w := (w, Ok 0);
  sv_instance := "i2";
  sv_max_retries := 2;
  sv_buffer_max := 1000
|}.
Definition cross_world : world callback demo_ext :=
  set_waiting (register_wait cross_services 5 (world_init (∅, [])) "r9" (Some "go") "t" "e9" (CbSpec "e9") "normal" None None "flow" CNone) [].

Lemma cross_instance_resume_has_no_effect_witness :
  exists items, w_core (cross_instance_resume cross_services "go" None [] cross_world).1 = foldl enqueue core_init items /\
    items <> [] /\
    Forall (fun i => forall fuel c, execute_callback (quiet_env 5) quiet_session (quiet_services quiet_nodes) [("demo", quiet_flow)] fuel
      (SchedulerCore.run_callback i) c = (c, Ok ())) items.
Proof.
  destruct (cross_instance_resume_has_no_effect cross_services (quiet_env 5) quiet_session (quiet_services quiet_nodes)
    [("demo", quiet_flow)] "go" None [] cross_world eq_refl) as (items&Hc&Hf).
  exists items. split; [exact Hc|]. split; [|exact Hf]. intros ->. apply (f_equal total_enqueued) in Hc. vm_compute in Hc.
  discriminate Hc.
Defined.
