(* ===== verification/RecoveryJobs.v ===== *)
(** * Recovery of stuck runs and expired waits ([AINDY/agents/stuck_run_service.py],
    [dead_letter_service.py], [stuck_run_watchdog.py] and
    [AINDY/platform_layer/recovery_jobs.py])

    [rdb] holds the tables these jobs read and write.  The outcome of a query, a
    commit and a rollback is decided by the record [recovery_services] on the state
    [X] of the database server; assignments take effect when their commit succeeds.
    The times are arguments, and [updated_at] is set by every update of a row.  The
    columns [error_detail], [dead_letter_reason] and [dead_lettered_at] and the
    queries that reload an object after a commit are left out. *)
From S2P Require Import Prelude PyDatetime Json PyUuid WaitCondition SchedulerWaits ResourceManager ExecutionUnit FlowEngine FlowFacts FlowSlots FlowPlans Rehydration Resumption.
Local Open Scope Z_scope.

(** A row of [flow_runs] with its time of update *)
Record flow_row := MkFlowRow { fw_run : FlowRun; fw_updated_at : Z }.

Record agent_step := MkStep {
  st_run_id : string; st_index : Z; st_tool : string; st_status : option string; st_result : json; st_error : option string
}.
Record agent_row := MkAgent {
  ag_id : string;
  ag_user_id : UUID;
  ag_flow_run_id : option string;
  ag_status : string;
  ag_started_at : option Z;
  ag_completed_at : option Z;
  ag_error_message : option string;
  ag_result : option (list agent_step)      (* [{"steps": ...}] *)
}.

(** What [emit_system_event] did to the session it was given: it commits it, or
    rolls it back when the event cannot be stored, or fails to do even that. *)
Inductive emission := Stored | Discarded | Untouched.

Record recovery_services (X : Type) := MkRecovery {
  rv_select : X -> X * result unit;
  rv_commit : X -> X * result unit;
  rv_rollback : X -> X * result unit;
  rv_emit : string -> X -> X;               (* events in a session of their own, and metrics *)
  rv_announce : string -> X -> X * emission;  (* [emit_system_event] in the session of the job *)
  rv_record : string -> X -> X * result unit  (* [record_agent_event] *)
}.
Arguments rv_select {X}. Arguments rv_commit {X}. Arguments rv_rollback {X}. Arguments rv_emit {X}. Arguments rv_announce {X}. Arguments rv_record {X}.

Definition RECOVERY_ERROR_MSG : string := "Stuck run recovery: process terminated before completion".
Definition DEAD_LETTER_STATUS : string := "dead_letter".

(** ** Assignments *)

(** The assignments of every recovery: status failed, no wait, a message *)
Definition run_recovered (msg : string) (now : Z) (r : FlowRun) : FlowRun :=
  MkRun (fr_id r) (fr_flow_name r) (fr_workflow_type r) (fr_state r) (fr_current_node r) "failed" None None
    (fr_trace_id r) (fr_user_id r) (fr_job_log_id r) (Some msg) (Some now).
(** The update of [move_to_dead_letter] *)
Definition run_dead_letter (reason : string) (now : Z) (r : FlowRun) : FlowRun :=
  MkRun (fr_id r) (fr_flow_name r) (fr_workflow_type r) (fr_state r) (fr_current_node r) DEAD_LETTER_STATUS None None
    (fr_trace_id r) (fr_user_id r) (fr_job_log_id r) (Some reason) (Some now).
Definition touch (f : FlowRun -> FlowRun) (now : Z) (row : flow_row) : flow_row := MkFlowRow (f (fw_run row)) now.

Definition agent_failed (now : Z) (steps : list agent_step) (a : agent_row) : agent_row :=
  MkAgent (ag_id a) (ag_user_id a) (ag_flow_run_id a) "failed" (ag_started_at a) (Some now) (Some RECOVERY_ERROR_MSG) (Some steps).

(** [order_by(AgentStep.step_index.asc())] *)
Fixpoint insert_step (s : agent_step) (l : list agent_step) : list agent_step :=
  match l with
  | [] => [s]
  | t :: l' => if st_index s <=? st_index t then s :: l else t :: insert_step s l'
  end.
Definition steps_of (run_id : string) (steps : list agent_step) : list agent_step :=
  foldr insert_step [] (List.filter (fun s => st_run_id s =s run_id) steps).

Section jobs.
Context {X : Type} (rv : recovery_services X).

Record rdb := MkRdb {
  rd_flows : gmap string flow_row;
  rd_waits : gmap string backup_row;
  rd_agents : list agent_row;
  rd_steps : list agent_step;
  rd_ext : X
}.
Definition set_rext (d : rdb) (x : X) : rdb := MkRdb (rd_flows d) (rd_waits d) (rd_agents d) (rd_steps d) x.
Definition set_flows (d : rdb) (f : gmap string flow_row) : rdb := MkRdb f (rd_waits d) (rd_agents d) (rd_steps d) (rd_ext d).
Definition set_waits (d : rdb) (w : gmap string backup_row) : rdb := MkRdb (rd_flows d) w (rd_agents d) (rd_steps d) (rd_ext d).
Definition set_agents (d : rdb) (a : list agent_row) : rdb := MkRdb (rd_flows d) (rd_waits d) a (rd_steps d) (rd_ext d).

(** A statement that reads, and a commit of the assignments [f] *)
Definition selecting {A} (d : rdb) (k : rdb -> rdb * result A) : rdb * result A :=
  match rv_select rv (rd_ext d) with (x, Ok _) => k (set_rext d x) | (x, Raise e) => (set_rext d x, Raise e) end.
Definition committing (d : rdb) (f : rdb -> rdb) : rdb * result unit :=
  match rv_commit rv (rd_ext d) with (x, Ok _) => (f (set_rext d x), Ok ()) | (x, Raise e) => (set_rext d x, Raise e) end.
Definition rolling_back (d : rdb) : rdb * result unit :=
  let (x, r) := rv_rollback rv (rd_ext d) in (set_rext d x, r).

Definition update_flow (rid : string) (f : FlowRun -> FlowRun) (now : Z) (d : rdb) : rdb :=
  set_flows d (alter (touch f now) rid (rd_flows d)).
Definition update_agent (aid : string) (f : agent_row -> agent_row) (d : rdb) : rdb :=
  set_agents d (map (fun a => if ag_id a =s aid then f a else a) (rd_agents d)).

(** ** [stuck_run_service.py] *)

(** The agent run linked to a flow run; the steps are read only when it is executing. *)
Definition linked_agent (rid : string) (d : rdb) : option agent_row :=
  List.find (fun a => bool_decide (ag_flow_run_id a = Some rid)) (rd_agents d).
Definition reading_agent {A} (rid : string) (d : rdb) (k : rdb -> rdb * result A) : rdb * result A :=
  selecting d (fun d1 =>
    match linked_agent rid d1 with
    | Some a => if ag_status a =s "executing" then selecting d1 k else k d1
    | None => k d1
    end).
(** [_recover_agent_run]: the assignments it makes; the linked agent run is
    failed only when it is still executing. *)
Definition recover_agent_run (now : Z) (rid : string) (d : rdb) : rdb :=
  let d1 := update_flow rid (run_recovered RECOVERY_ERROR_MSG now) now d in
  match linked_agent rid d with
  | Some a =>
      if ag_status a =s "executing"
      then update_agent (ag_id a) (agent_failed now (steps_of (ag_id a) (rd_steps d))) d1
      else d1
  | None => d1
  end.
(** [_recover_generic_run] *)
Definition recover_generic_run (now : Z) (rid : string) (d : rdb) : rdb :=
  update_flow rid (run_recovered RECOVERY_ERROR_MSG now) now d.

(** [move_to_dead_letter]: the update is conditional on status waiting. *)
Definition is_waiting_row (rid : string) (d : rdb) : bool :=
  match rd_flows d !! rid with Some row => fr_status (fw_run row) =s "waiting" | None => false end.
Definition move_to_dead_letter (now : Z) (rid reason : string) (d : rdb) : rdb * result bool :=
  selecting d (fun d1 =>
    if is_waiting_row rid d1 then
      match committing d1 (update_flow rid (run_dead_letter reason now) now) with
      | (d2, Ok _) => (set_rext d2 (rv_emit rv rid (rd_ext d2)), Ok true)
      | (d2, Raise e) => (d2, Raise e)
      end
    else (d1, Ok false)).

(** The two loops of [scan_and_recover_stuck_runs]: every failure is rolled back
    and the next row is tried.  When the rollback fails too, the handler of the
    first loop ([strict]) calls [emit_observability_event] with arguments it does
    not have and so ends the scan; the handler of the second one goes on.  The
    result has the count and whether the loop came to its end. *)
Fixpoint each_row (strict : bool) (body : string -> rdb -> rdb * result bool) (rids : list string) (d : rdb) (n : Z)
    : rdb * Z * bool :=
  match rids with
  | [] => (d, n, true)
  | rid :: rids' =>
      match body rid d with
      | (d1, Ok b) => each_row strict body rids' d1 (if b then n + 1 else n)
      | (d1, Raise _) =>
          match rolling_back d1 with
          | (d2, Ok _) => each_row strict body rids' d2 n
          | (d2, Raise _) => if strict then (d2, n, false) else each_row strict body rids' d2 n
          end
      end
  end.

Definition recover_stuck_row (now : Z) (rid : string) (d : rdb) : rdb * result bool :=
  match rd_flows d !! rid with
  | None => (d, Raise (Exn "ObjectDeletedError" rid))
  | Some row =>
      let done (r : rdb * result unit) := match r with (d', Ok _) => (d', Ok true) | (d', Raise e) => (d', Raise e) end in
      if bool_decide (fr_workflow_type (fw_run row) = Some "agent_execution")
      then reading_agent rid d (fun d1 => done (committing d1 (recover_agent_run now rid)))
      else done (committing d (recover_generic_run now rid))
  end.

(** The runs a query selects, and the stale ones of a status; times are in microseconds *)
Definition flows_where (p : flow_row -> bool) (d : rdb) : list string :=
  (map_to_list (filter (fun kv => p kv.2 = true) (rd_flows d))).*1.
Definition stale (status : string) (before : Z) (row : flow_row) : bool :=
  (fr_status (fw_run row) =s status) && (fw_updated_at row <? before).
Definition stale_rows (status : string) (before : Z) (d : rdb) : list string := flows_where (stale status before) d.

Definition minutes (m : Z) : Z := m * 60000000.

(** [scan_and_recover_stuck_runs]: the counters of recovered and dead-lettered
    runs.  [threshold] is [staleness_minutes] and [wait_timeout] the setting
    [FLOW_WAIT_TIMEOUT_MINUTES]. *)
Definition scan_and_recover_stuck_runs (now threshold wait_timeout : Z) (include_wait_timeouts : bool) (d : rdb)
    : rdb * (Z * Z) :=
  match rv_select rv (rd_ext d) with
  | (x, Raise _) => (set_rext d x, (0, 0))
  | (x, Ok _) =>
      let d1 := set_rext d x in
      let stuck := stale_rows "running" (now - minutes threshold) d1 in
      let (x2, ok) := if include_wait_timeouts then rv_select rv x else (x, Ok ()) in
      match ok with
      | Raise _ => (set_rext d x2, (0, 0))
      | Ok _ =>
          let d2 := set_rext d x2 in
          let waiting := if include_wait_timeouts then stale_rows "waiting" (now - minutes wait_timeout) d2 else [] in
          match each_row true (recover_stuck_row now) stuck d2 0 with
          | (d3, n, false) => (d3, (n, 0))
          | (d3, n, true) =>
              let reason := "wait_timeout:" +:+ Z_to_string wait_timeout +:+ "m" in
              let '(d4, m, _) := each_row false (fun rid => move_to_dead_letter now rid reason) waiting d3 0 in
              (d4, (n, m))
          end
      end
  end.

(** [recover_stuck_agent_run], with the error codes of its result; like the first
    loop above it raises when its rollback fails. *)
Inductive recovery_error := NotFound | Forbidden | WrongStatus | TooRecent | InternalError (msg : string).

Definition fail_recovery (d : rdb) (e : exn) : rdb * result (agent_row + recovery_error) :=
  match rolling_back d with
  | (d', Ok _) => (d', Ok (inr (InternalError (exn_msg e))))
  | (d', Raise _) => (d', Raise (TypeError "emit_observability_event() takes 0 positional arguments but 1 was given"))
  end.

(** The flow run that is failed together with an agent run *)
Definition stuck_flow_of (a : agent_row) (d : rdb) : option string :=
  match str_or_none (ag_flow_run_id a) with
  | Some rid => match rd_flows d !! rid with
                | Some row => if fr_status (fw_run row) =s "running" then Some rid else None
                | None => None
                end
  | None => None
  end.

(** The query for that flow run is made only when the agent run has one. *)
Definition reading_flow {A} (a : agent_row) (d : rdb) (k : rdb -> rdb * result A) : rdb * result A :=
  match str_or_none (ag_flow_run_id a) with Some _ => selecting d k | None => k d end.

Definition recover_stuck_agent_run (now threshold : Z) (aid : string) (user : UUID) (force : bool) (d : rdb)
    : rdb * result (agent_row + recovery_error) :=
  match rv_select rv (rd_ext d) with
  | (x, Raise e) => fail_recovery (set_rext d x) e
  | (x, Ok _) =>
      let d1 := set_rext d x in
      match List.find (fun a => ag_id a =s aid) (rd_agents d1) with
      | None => (d1, Ok (inr NotFound))
      | Some a =>
          if negb (bool_decide (ag_user_id a = user)) then (d1, Ok (inr Forbidden)) else
          if negb (ag_status a =s "executing") then (d1, Ok (inr WrongStatus)) else
          if match ag_started_at a with Some t => negb force && (now - t <? minutes threshold) | None => false end
          then (d1, Ok (inr TooRecent)) else
          let assign d := update_agent aid (agent_failed now (steps_of aid (rd_steps d)))
                            (match stuck_flow_of a d1 with
                             | Some rid => update_flow rid (run_recovered RECOVERY_ERROR_MSG now) now d
                             | None => d
                             end) in
          match reading_flow a d1 (fun d2 => selecting d2 (fun d3 => committing d3 assign)) with
          | (d3, Raise e) => fail_recovery d3 e
          | (d3, Ok _) =>
              match rv_record rv aid (rd_ext d3) with
              | (x4, Ok _) => (set_rext d3 x4, Ok (inl (agent_failed now (steps_of aid (rd_steps d3)) a)))
              | (x4, Raise e) => fail_recovery (set_rext d3 x4) e
              end
          end
      end
  end.

(** ** [recovery_jobs.py] *)

(** The jobs commit all their assignments at once, roll back when that fails, and
    their wrappers log the exception and return zero. *)
Definition commit_all (d : rdb) (f : rdb -> rdb) (n : Z) : rdb * Z :=
  match committing d f with
  | (d1, Ok _) => (d1, n)
  | (d1, Raise _) => ((rolling_back d1).1, 0)
  end.

(** [expire_timed_out_waits] *)
Definition past_deadline (now : Z) (row : flow_row) : bool :=
  (fr_status (fw_run row) =s "waiting") && match fr_wait_deadline (fw_run row) with Some t => t <? now | None => false end.
Definition expired_waits (now : Z) (d : rdb) : list string := flows_where (past_deadline now) d.
Definition expire_timed_out_waits (now : Z) (d : rdb) : rdb * Z :=
  match rv_select rv (rd_ext d) with
  | (x, Raise _) => (set_rext d x, 0)
  | (x, Ok _) =>
      let d1 := set_rext d x in
      match expired_waits now d1 with
      | [] => (d1, 0)
      | rids => commit_all d1 (fun d => foldl (fun d rid => update_flow rid (run_recovered "WAIT_TIMEOUT" now) now d) d rids)
                  (Z.of_nat (length rids))
      end
  end.

(** [expire_timed_out_wait_flows]: the rows whose wait took longer than allowed *)
Definition overdue (now : Z) (row : backup_row) : bool :=
  match row_max_wait_seconds row with
  | Some m => m <? Z.quot (now - instant (ensure_utc (row_waited_since row))) 1000000
  | None => false
  end.
Definition overdue_rows (now : Z) (d : rdb) : list string :=
  (map_to_list (filter (fun kv => overdue now kv.2 = true) (rd_waits d))).*1.
(** The run of an overdue row is failed, whatever its status, and the row deleted. *)
Definition expire_row (now : Z) (d : rdb) (rid : string) : rdb :=
  let d1 := update_flow rid (run_recovered "WAIT_TIMEOUT" now) now d in
  set_waits d1 (delete rid (rd_waits d1)).
(** The loop over the overdue rows.  The timeout event of a row is emitted in the
    session of the job, so it commits the assignments [pending] of the rows before
    it, or discards them; the row itself is assigned afterwards. *)
Definition expire_pending (now : Z) (pending : list string) (d : rdb) : rdb := foldl (expire_row now) d pending.
Fixpoint expire_rows (now : Z) (rids pending : list string) (d : rdb) : rdb * result (list string) :=
  match rids with
  | [] => (d, Ok pending)
  | rid :: rids' =>
      selecting d (fun d1 =>
        let (x, outcome) := rv_announce rv rid (rd_ext d1) in
        let d2 := set_rext d1 x in
        match outcome with
        | Stored => expire_rows now rids' [rid] (expire_pending now pending d2)
        | Discarded => expire_rows now rids' [rid] d2
        | Untouched => expire_rows now rids' (pending ++ [rid]) d2
        end)
  end.
Definition expire_timed_out_wait_flows (now : Z) (d : rdb) : rdb * Z :=
  match rv_select rv (rd_ext d) with
  | (x, Raise _) => (set_rext d x, 0)
  | (x, Ok _) =>
      let d1 := set_rext d x in
      let rids := overdue_rows now d1 in
      match expire_rows now rids [] d1 with
      | (d2, Raise _) => ((rolling_back d2).1, 0)
      | (d2, Ok pending) => commit_all d2 (expire_pending now pending) (Z.of_nat (length rids))
      end
  end.

(** [recover_stuck_runs], the periodic scan *)
Definition recover_stuck_runs (now threshold : Z) (d : rdb) : rdb * Z :=
  match rv_select rv (rd_ext d) with
  | (x, Raise _) => (set_rext d x, 0)
  | (x, Ok _) =>
      let d1 := set_rext d x in
      match stale_rows "running" (now - minutes threshold) d1 with
      | [] => (d1, 0)
      | rids => commit_all d1 (fun d => foldl (fun d rid =>
                  update_flow rid (run_recovered "Stuck FlowRun recovered by periodic scan" now) now d) d rids)
                  (Z.of_nat (length rids))
      end
  end.

(** ** [stuck_run_watchdog.py]: [watchdog_scan] and the result it records.  The
    scan catches its own exceptions, so the branch that records an error is not
    reached from it; the event at the end finds no pending assignment. *)
Record scan_result := MkScanResult {
  sr_last_run_at : option Z; sr_recovered : Z; sr_dead_lettered : Z; sr_had_error : bool; sr_error_message : option string
}.
Definition watchdog_scan (now threshold wait_timeout : Z) (d : rdb) : rdb * scan_result :=
  let '(d1, (n, m)) := scan_and_recover_stuck_runs now threshold wait_timeout true d in
  (set_rext d1 (rv_announce rv "watchdog.scan.completed" (rd_ext d1)).1, MkScanResult (Some now) n m false None).
End jobs.
Arguments rdb X : clear implicits.

(** ** Lemmas *)
Section job_lemmas.
Context {X : Type} (rv : recovery_services X).
Implicit Types (d : rdb X) (rid k : string) (rids : list string).

Lemma flows_where_elem p d k : k ∈ flows_where p d <-> exists row, rd_flows d !! k = Some row /\ p row = true.
Proof.
  unfold flows_where. rewrite list_elem_of_fmap. split.
  - intros ([k' row]&->&Hin%elem_of_map_to_list%map_lookup_filter_Some). exists row. exact Hin.
  - intros (row&Hk&Hp). exists (k, row). split; [done|]. apply elem_of_map_to_list, map_lookup_filter_Some. done.
Qed.
Lemma flows_where_nodup p d : NoDup (flows_where p d).
Proof. apply NoDup_fst_map_to_list. Qed.
Lemma overdue_rows_elem now d k : k ∈ overdue_rows now d <-> exists row, rd_waits d !! k = Some row /\ overdue now row = true.
Proof.
  unfold overdue_rows. rewrite list_elem_of_fmap. split.
  - intros ([k' row]&->&Hin%elem_of_map_to_list%map_lookup_filter_Some). exists row. exact Hin.
  - intros (row&Hk&Hp). exists (k, row). split; [done|]. apply elem_of_map_to_list, map_lookup_filter_Some. done.
Qed.

(** ** Runs the jobs leave alone *)

(** The row of [rid] is [row], and no wait is recorded for it. *)
Definition settled rid (row : flow_row) d : Prop := rd_flows d !! rid = Some row /\ rd_waits d !! rid = None.

Lemma settled_update rid row rid' f now d : rid' <> rid -> settled rid row d -> settled rid row (update_flow rid' f now d).
Proof. intros Hne [H1 H2]. split; [|done]. cbn. by rewrite lookup_alter_ne. Qed.
Lemma settled_updates rid row rids f now d : rid ∉ rids -> settled rid row d ->
  settled rid row (foldl (fun d r => update_flow r f now d) d rids).
Proof.
  revert d. induction rids as [|r rids IH]; intros d Hni Hs; [done|]. apply not_elem_of_cons in Hni as [H1 H2]. cbn.
  apply IH; [done|]. by apply settled_update.
Qed.
Lemma settled_committing rid row d f : (forall d, settled rid row d -> settled rid row (f d)) ->
  settled rid row d -> settled rid row (committing rv d f).1.
Proof. intros Hf Hs. unfold committing. destruct (rv_commit rv (rd_ext d)) as [x [[]|e]]; [by apply Hf|done]. Qed.
Lemma settled_rollback rid row d : settled rid row d -> settled rid row (rolling_back rv d).1.
Proof. unfold rolling_back. by destruct (rv_rollback rv (rd_ext d)). Qed.
Lemma settled_selecting {A} rid row d (k : rdb X -> rdb X * result A) :
  (forall d, settled rid row d -> settled rid row (k d).1) -> settled rid row d -> settled rid row (selecting rv d k).1.
Proof. intros Hk Hs. unfold selecting. destruct (rv_select rv (rd_ext d)) as [x [[]|e]]; [by apply Hk|done]. Qed.
Lemma settled_reading_agent {A} rid row r d (k : rdb X -> rdb X * result A) :
  (forall d, settled rid row d -> settled rid row (k d).1) -> settled rid row d -> settled rid row (reading_agent rv r d k).1.
Proof.
  intros Hk. apply settled_selecting. intros d' Hs. destruct (linked_agent r d') as [a|]; [|by apply Hk].
  destruct (ag_status a =s "executing"); [by apply settled_selecting|by apply Hk].
Qed.
Lemma settled_reading_flow {A} rid row a d (k : rdb X -> rdb X * result A) :
  (forall d, settled rid row d -> settled rid row (k d).1) -> settled rid row d -> settled rid row (reading_flow rv a d k).1.
Proof. intros Hk Hs. unfold reading_flow. destruct (str_or_none _); [by apply settled_selecting|by apply Hk]. Qed.
Lemma settled_pending rid row now pending d : rid ∉ pending -> settled rid row d -> settled rid row (expire_pending now pending d).
Proof.
  revert d. induction pending as [|r l IH]; intros d Hni Hs; [done|]. apply not_elem_of_cons in Hni as [Hr Hni]. cbn.
  apply (IH _ Hni). unfold expire_row.
  destruct (settled_update rid row r (run_recovered "WAIT_TIMEOUT" now) now d (not_eq_sym Hr) Hs) as [H2 H3].
  split; [done|]. cbn. by rewrite lookup_delete_ne.
Qed.
(** The rows the loop leaves pending are overdue ones. *)
Lemma settled_expire_rows rid row now rids pending d : rid ∉ rids -> rid ∉ pending -> settled rid row d ->
  settled rid row (expire_rows rv now rids pending d).1 /\
  (forall l, (expire_rows rv now rids pending d).2 = Ok l -> rid ∉ l).
Proof.
  revert pending d. induction rids as [|r rids IH]; intros pending d Hni Hp Hs; [split; [done|by intros l [= <-]]|].
  apply not_elem_of_cons in Hni as [Hr Hni]. assert (rid ∉ [r]) as Hr1 by (by intros ?%list_elem_of_singleton).
  cbn [expire_rows]. unfold selecting. destruct (rv_select rv (rd_ext d)) as [x [[]|e]]; [|by split].
  cbn [rd_ext set_rext]. destruct (rv_announce rv r x) as [x' []]; apply IH; try done.
  - by apply settled_pending.
  - by intros [?|?]%elem_of_app.
Qed.
Lemma settled_commit_all rid row d f n : (forall d, settled rid row d -> settled rid row (f d)) ->
  settled rid row d -> settled rid row (commit_all rv d f n).1.
Proof.
  intros Hf Hs. unfold commit_all. pose proof (settled_committing rid row d f Hf Hs) as H.
  destruct (committing rv d f) as [d1 [[]|e]]; [done|]. by apply settled_rollback.
Qed.

Lemma settled_each_row rid row strict body rids d n :
  (forall r d, r ∈ rids -> settled rid row d -> settled rid row (body r d).1) ->
  settled rid row d -> settled rid row (each_row rv strict body rids d n).1.1.
Proof.
  revert d n. induction rids as [|r rids IH]; intros d n Hb Hs; [done|]. cbn.
  assert (forall d n, settled rid row d -> settled rid row (each_row rv strict body rids d n).1.1) as IH'.
  { intros d' n' Hs'. apply IH; [|done]. intros r' d'' Hr'. apply Hb. by right. }
  pose proof (Hb r d ltac:(by left) Hs) as H1. destruct (body r d) as [d1 [b|e]]; [by apply IH'|].
  pose proof (settled_rollback rid row d1 H1) as H2. destruct (rolling_back rv d1) as [d2 [[]|e']]; [by apply IH'|].
  destruct strict; [done|by apply IH'].
Qed.

Lemma settled_recover_row rid row now r d : r <> rid -> settled rid row d -> settled rid row (recover_stuck_row rv now r d).1.
Proof.
  intros Hne Hs. unfold recover_stuck_row. destruct (rd_flows d !! r) as [row'|]; [|done].
  assert (forall d, settled rid row d -> settled rid row (recover_agent_run now r d)) as Ha.
  { intros d' Hs'. unfold recover_agent_run. pose proof (settled_update rid row r (run_recovered RECOVERY_ERROR_MSG now) now d' Hne Hs').
    destruct (linked_agent r d') as [a|]; [|done]. by destruct (ag_status a =s "executing"). }
  case_bool_decide.
  - apply settled_reading_agent; [|done]. intros d' Hs'. pose proof (settled_committing rid row d' _ Ha Hs') as H'.
    by destruct (committing rv d' (recover_agent_run now r)) as [d1 [[]|e]].
  - pose proof (settled_committing rid row d (recover_generic_run now r) (fun d => settled_update rid row r _ now d Hne) Hs) as H'.
    by destruct (committing rv d (recover_generic_run now r)) as [d1 [[]|e]].
Qed.

Lemma settled_dead_letter rid row now r reason d : r <> rid \/ fr_status (fw_run row) <> "waiting" -> settled rid row d ->
  settled rid row (move_to_dead_letter rv now r reason d).1.
Proof.
  intros Hne. unfold move_to_dead_letter. apply settled_selecting. intros d' Hs.
  destruct (is_waiting_row r d') eqn:Hw; [|done].
  assert (r <> rid) as Hr.
  { destruct Hne as [?|Hst]; [done|]. intros ->. unfold is_waiting_row in Hw. destruct Hs as [Hs _]. rewrite Hs in Hw.
    by apply String.eqb_eq in Hw. }
  pose proof (settled_committing rid row d' (update_flow r (run_dead_letter reason now) now)
    (fun d => settled_update rid row r _ now d Hr) Hs) as H'.
  by destruct (committing rv d' _) as [d1 [[]|e]].
Qed.
End job_lemmas.

(** ** All jobs *)
Inductive recovery_job :=
| JScan (now threshold wait_timeout : Z) (include_wait_timeouts : bool)
| JManual (now threshold : Z) (aid : string) (user : UUID) (force : bool)
| JDeadLetter (now : Z) (rid reason : string)
| JDeadlines (now : Z)
| JWaits (now : Z)
| JStuck (now threshold : Z)
| JWatchdog (now threshold wait_timeout : Z).
Definition run_job {X} (rv : recovery_services X) (d : rdb X) (j : recovery_job) : rdb X :=
  match j with
  | JScan now t w b => (scan_and_recover_stuck_runs rv now t w b d).1
  | JManual now t a u f => (recover_stuck_agent_run rv now t a u f d).1
  | JDeadLetter now r reason => (move_to_dead_letter rv now r reason d).1
  | JDeadlines now => (expire_timed_out_waits rv now d).1
  | JWaits now => (expire_timed_out_wait_flows rv now d).1
  | JStuck now t => (recover_stuck_runs rv now t d).1
  | JWatchdog now t w => (watchdog_scan rv now t w d).1
  end.

Section settled_jobs.
Context {X : Type} (rv : recovery_services X) (rid : string) (row : flow_row).
Hypothesis Hrun : fr_status (fw_run row) <> "running".
Hypothesis Hwait : fr_status (fw_run row) <> "waiting".
Implicit Types d : rdb X.

Lemma settled_not_selected p d : settled rid row d -> (p row = true -> False) -> rid ∉ flows_where p d.
Proof. intros [Hs _] Hp (row'&Hr&Hp')%flows_where_elem. rewrite Hs in Hr. injection Hr as <-. auto. Qed.
Lemma not_stale status before : status = "running" \/ status = "waiting" -> stale status before row = true -> False.
Proof. unfold stale. intros [->| ->] [H%String.eqb_eq _]%andb_true_iff; done. Qed.

Lemma settled_scan now t w b d : settled rid row d -> settled rid row (scan_and_recover_stuck_runs rv now t w b d).1.
Proof.
  intros Hs. unfold scan_and_recover_stuck_runs. destruct (rv_select rv (rd_ext d)) as [x [[]|e]]; [|done].
  destruct (if b then rv_select rv x else (x, Ok ())) as [x2 [[]|e]]; [|done].
  match goal with |- context [each_row rv true ?body ?l ?d2 0] =>
    assert (settled rid row (each_row rv true body l d2 0).1.1) as H1; [|destruct (each_row rv true body l d2 0) as [[d3 n] []]; [|done]] end.
  { apply settled_each_row; [|done]. intros r d' Hr. apply settled_recover_row. intros ->. revert Hr.
    apply settled_not_selected; [done|]. apply not_stale. by left. }
  match goal with |- context [each_row rv false ?body ?l d3 0] =>
    assert (settled rid row (each_row rv false body l d3 0).1.1) as H2; [|by destruct (each_row rv false body l d3 0) as [[d4 m] ?]] end.
  apply settled_each_row; [|exact H1]. intros r d' Hr. apply settled_dead_letter. by right.
Qed.

Lemma settled_manual now t a u f d : settled rid row d -> settled rid row (recover_stuck_agent_run rv now t a u f d).1.
Proof.
  intros Hs. unfold recover_stuck_agent_run.
  assert (forall d e, settled rid row d -> settled rid row (fail_recovery rv d e).1) as Hg.
  { intros d' e Hd'. unfold fail_recovery. apply (settled_rollback rv) in Hd'. by destruct (rolling_back rv d') as [? [[]|?]]. }
  destruct (rv_select rv (rd_ext d)) as [x [[]|e]]; [|by apply Hg].
  destruct (List.find _ _) as [ag|]; [|done]. destruct (negb (bool_decide _)); [done|]. destruct (negb _); [done|].
  destruct (match ag_started_at ag with Some _ => _ | None => _ end); [done|].
  match goal with |- context [reading_flow rv ?ag ?d1 ?k] =>
    assert (settled rid row (reading_flow rv ag d1 k).1) as H1; [|destruct (reading_flow rv ag d1 k) as [d3 [[]|e]]; [|by apply Hg]] end.
  { apply settled_reading_flow; [|done]. intros d0 Hd0. apply settled_selecting; [|done]. intros d' Hd'.
    apply settled_committing; [|done]. intros d'' Hd''.
    unfold stuck_flow_of. destruct (str_or_none (ag_flow_run_id ag)) as [r|]; [|done].
    destruct (rd_flows _ !! r) as [row'|] eqn:Hr; [|done]. destruct (fr_status (fw_run row') =s "running") eqn:Hst; [|done].
    change (settled rid row (update_flow r (run_recovered RECOVERY_ERROR_MSG now) now d'')). apply settled_update; [|done].
    intros ->. destruct Hs as [Hs _]. cbn in Hr. rewrite Hs in Hr. simplify_eq. by apply String.eqb_eq in Hst. }
  destruct (rv_record rv a (rd_ext d3)) as [x4 [[]|e]]; [done|by apply Hg].
Qed.

Lemma settled_job j d : settled rid row d -> settled rid row (run_job rv d j).
Proof.
  intros Hs. destruct j as [now t w b|now t a u f|now r reason|now|now|now t|now t w]; cbn [run_job].
  - by apply settled_scan.
  - by apply settled_manual.
  - apply settled_dead_letter; [by right|done].
  - unfold expire_timed_out_waits. destruct (rv_select rv (rd_ext d)) as [x [[]|e]]; [|done].
    assert (rid ∉ expired_waits now (set_rext d x)) as Hni.
    { apply settled_not_selected; [done|]. unfold past_deadline. by intros [H%String.eqb_eq _]%andb_true_iff. }
    destruct (expired_waits now (set_rext d x)) as [|r l]; [done|]. apply settled_commit_all; [|done].
    intros d'. by apply settled_updates.
  - unfold expire_timed_out_wait_flows. destruct (rv_select rv (rd_ext d)) as [x [[]|e]]; [|done].
    assert (rid ∉ overdue_rows now (set_rext d x)) as Hni.
    { intros (w&Hw&_)%overdue_rows_elem. destruct Hs as [_ Hs]. cbn in Hw. congruence. }
    destruct (settled_expire_rows rv rid row now (overdue_rows now (set_rext d x)) [] (set_rext d x) Hni) as [H1 H2];
      [apply not_elem_of_nil|done|].
    destruct (expire_rows rv now _ [] _) as [d2 [l|e]]; [|by apply settled_rollback].
    apply settled_commit_all; [|done]. intros d'. by apply settled_pending, H2.
  - unfold recover_stuck_runs. destruct (rv_select rv (rd_ext d)) as [x [[]|e]]; [|done].
    assert (rid ∉ stale_rows "running" (now - minutes t) (set_rext d x)) as Hni.
    { apply settled_not_selected; [done|]. apply not_stale. by left. }
    destruct (stale_rows "running" (now - minutes t) (set_rext d x)) as [|r l]; [done|]. apply settled_commit_all; [|done].
    intros d'. by apply settled_updates.
  - unfold watchdog_scan. pose proof (settled_scan now t w true d Hs) as H1.
    by destruct (scan_and_recover_stuck_runs rv now t w true d) as [d1 [n m]].
Qed.
End settled_jobs.

(** what recovery leaves alone.  However the database answers, no sequence of
    stuck-run scans, manual recoveries, dead-letter moves and expiry jobs changes
    a run that is neither running nor waiting and has no row in
    [waiting_flow_runs].  Finished runs stay as they are; but so do the runs in
    status executing, which is the status of every run that was resumed from a
    wait: when their process dies, nothing recovers them. *)
Theorem recovery_leaves_other_runs {X} (rv : recovery_services X) (jobs : list recovery_job) (d : rdb X) rid row :
  rd_flows d !! rid = Some row -> rd_waits d !! rid = None ->
  fr_status (fw_run row) <> "running" -> fr_status (fw_run row) <> "waiting" ->
  rd_flows (foldl (run_job rv) d jobs) !! rid = Some row.
Proof.
  intros Hf Hw Hr Hwt. assert (settled rid row (foldl (run_job rv) d jobs)) as [H _]; [|done].
  assert (settled rid row d) as Hs by done. clear Hf Hw. revert d Hs. induction jobs as [|j jobs IH]; intros d Hs; [done|].
  cbn. apply IH. by apply settled_job.
Qed.

(** ** What a scan does when the database answers *)
Definition answers {X} (rv : recovery_services X) : Prop :=
  forall x, is_ok (rv_select rv x).2 = true /\ is_ok (rv_commit rv x).2 = true.

Section exact.
Context {X : Type} (rv : recovery_services X) (Hans : answers rv).
Implicit Types (d : rdb X) (rids : list string).

Lemma selecting_answers {A} d (k : rdb X -> rdb X * result A) : exists x, selecting rv d k = k (set_rext d x).
Proof. unfold selecting. pose proof (Hans (rd_ext d)) as [H _]. destruct (rv_select rv (rd_ext d)) as [x [[]|e]]; [by exists x|done]. Qed.
Lemma reading_agent_answers {A} r d (k : rdb X -> rdb X * result A) : exists x, reading_agent rv r d k = k (set_rext d x).
Proof.
  unfold reading_agent. match goal with |- context [selecting rv d ?k'] => destruct (selecting_answers d k') as [x ->] end.
  destruct (linked_agent r (set_rext d x)) as [a|]; [|by exists x]. destruct (ag_status a =s "executing"); [|by exists x].
  destruct (selecting_answers (set_rext d x) k) as [x' ->]. by exists x'.
Qed.
Lemma committing_answers d f : exists x, committing rv d f = (f (set_rext d x), Ok ()).
Proof. unfold committing. pose proof (Hans (rd_ext d)) as [_ H]. destruct (rv_commit rv (rd_ext d)) as [x [[]|e]]; [by exists x|done]. Qed.

(** [d'] is [d] with the update [g] of the runs [rids]. *)
Definition updates (g : flow_row -> flow_row) rids d d' : Prop :=
  rd_waits d' = rd_waits d /\
  forall k, rd_flows d' !! k = if decide (k ∈ rids) then g <$> rd_flows d !! k else rd_flows d !! k.

Lemma updates_nil g d d' : rd_flows d' = rd_flows d -> rd_waits d' = rd_waits d -> updates g [] d d'.
Proof. intros H1 H2. split; [done|]. intros k. rewrite decide_False by apply not_elem_of_nil. by rewrite H1. Qed.

Lemma updates_cons g r rids d d1 d' : r ∉ rids -> rd_flows d1 = alter g r (rd_flows d) -> rd_waits d1 = rd_waits d ->
  updates g rids d1 d' -> updates g (r :: rids) d d'.
Proof.
  intros Hni Hf Hw [Hw' Hk]. split; [congruence|]. intros k. rewrite Hk, Hf. destruct (decide (k = r)) as [->|Hne].
  - rewrite decide_False by done. rewrite decide_True by (by left). by rewrite lookup_alter_eq.
  - rewrite lookup_alter_ne by done. destruct (decide (k ∈ rids)) as [Hin|Hnin].
    + rewrite decide_True by (by right). done.
    + rewrite decide_False; [done|]. by intros [->|?]%elem_of_cons.
Qed.

(** A loop whose body updates its run, as long as the run satisfies [q] *)
Lemma each_row_updates strict body g (q : flow_row -> Prop) rids d n :
  (forall r d row, rd_flows d !! r = Some row -> q row -> exists d1, body r d = (d1, Ok true) /\
     rd_flows d1 = alter g r (rd_flows d) /\ rd_waits d1 = rd_waits d) ->
  NoDup rids -> (forall r, r ∈ rids -> exists row, rd_flows d !! r = Some row /\ q row) ->
  exists d', each_row rv strict body rids d n = (d', n + Z.of_nat (length rids), true) /\ updates g rids d d'.
Proof.
  intros Hb. revert d n. induction rids as [|r rids IH]; intros d n Hnd Hq.
  - exists d. split; [by rewrite Z.add_0_r|by apply updates_nil].
  - apply NoDup_cons in Hnd as [Hni Hnd]. destruct (Hq r) as (row&Hr&Hrow); [by left|]. cbn [each_row].
    destruct (Hb r d row Hr Hrow) as (d1&->&Hf&Hw). destruct (IH d1 (n + 1) Hnd) as (d'&->&Hu).
    { intros r' Hr'. rewrite Hf, lookup_alter_ne by (by intros ->). apply Hq. by right. }
    exists d'. split; [cbn [length]; do 2 f_equal; lia|by eapply updates_cons].
Qed.

Lemma recover_stuck_row_updates now r d row : rd_flows d !! r = Some row ->
  exists d1, recover_stuck_row rv now r d = (d1, Ok true) /\
    rd_flows d1 = alter (touch (run_recovered RECOVERY_ERROR_MSG now) now) r (rd_flows d) /\ rd_waits d1 = rd_waits d.
Proof.
  intros Hr. unfold recover_stuck_row. rewrite Hr. case_bool_decide.
  - match goal with |- context [reading_agent rv r d ?k] => destruct (reading_agent_answers r d k) as [x ->] end.
    destruct (committing_answers (set_rext d x) (recover_agent_run now r)) as [x' ->]. eexists. split; [done|].
    unfold recover_agent_run. destruct (linked_agent _ _) as [a|]; [by destruct (ag_status a =s "executing")|done].
  - destruct (committing_answers d (recover_generic_run now r)) as [x' ->]. by eexists.
Qed.

Lemma move_to_dead_letter_updates now reason r d row : rd_flows d !! r = Some row -> fr_status (fw_run row) = "waiting" ->
  exists d1, move_to_dead_letter rv now r reason d = (d1, Ok true) /\
    rd_flows d1 = alter (touch (run_dead_letter reason now) now) r (rd_flows d) /\ rd_waits d1 = rd_waits d.
Proof.
  intros Hr Hst. unfold move_to_dead_letter.
  match goal with |- context [selecting rv d ?k] => destruct (selecting_answers d k) as [x ->] end.
  unfold is_waiting_row. cbn [rd_flows set_rext]. rewrite Hr, Hst. change ("waiting" =s "waiting") with true. cbv iota.
  destruct (committing_answers (set_rext d x) (update_flow r (run_dead_letter reason now) now)) as [x' ->]. by eexists.
Qed.

(** The run the scan makes of a row *)
Definition scanned (now threshold wait_timeout : Z) (row : flow_row) : flow_row :=
  if stale "running" (now - minutes threshold) row then touch (run_recovered RECOVERY_ERROR_MSG now) now row
  else if stale "waiting" (now - minutes wait_timeout) row
  then touch (run_dead_letter ("wait_timeout:" +:+ Z_to_string wait_timeout +:+ "m") now) now row
  else row.

Lemma flows_where_lookup p d k row : rd_flows d !! k = Some row -> (k ∈ flows_where p d) <-> p row = true.
Proof.
  intros Hk. rewrite flows_where_elem. split; [|by exists row]. intros (row'&Hk'&Hp). rewrite Hk in Hk'. by injection Hk' as <-.
Qed.

Lemma stale_exclusive b1 b2 row : stale "running" b1 row = true -> stale "waiting" b2 row = true -> False.
Proof.
  unfold stale. intros [H1%String.eqb_eq _]%andb_true_iff [H2%String.eqb_eq _]%andb_true_iff. rewrite H1 in H2. discriminate.
Qed.
End exact.

(** the scan for stuck runs, when the database answers.  Running runs that
    were not updated since the threshold become failed, waiting runs that were not
    updated since the wait timeout become dead letters, every other run is
    untouched, and the result counts both.  Only the time of the last update
    counts: a waiting run is moved also when its own [wait_deadline] is still
    ahead. *)
Theorem stuck_scan_exact {X} (rv : recovery_services X) now threshold wait_timeout (d : rdb X) :
  answers rv ->
  exists d' n m, scan_and_recover_stuck_runs rv now threshold wait_timeout true d = (d', (n, m)) /\
    (forall k, rd_flows d' !! k = scanned now threshold wait_timeout <$> rd_flows d !! k) /\ rd_waits d' = rd_waits d /\
    n = Z.of_nat (length (stale_rows "running" (now - minutes threshold) d)) /\
    m = Z.of_nat (length (stale_rows "waiting" (now - minutes wait_timeout) d)).
Proof.
  intros Hans. unfold scan_and_recover_stuck_runs. pose proof (Hans (rd_ext d)) as [Hs1 _].
  destruct (rv_select rv (rd_ext d)) as [x1 [[]|e]]; [|done]. pose proof (Hans x1) as [Hs2 _].
  destruct (rv_select rv x1) as [x2 [[]|e]]; [|done].
  change (stale_rows "running" (now - minutes threshold) (set_rext d x1)) with (stale_rows "running" (now - minutes threshold) d).
  change (stale_rows "waiting" (now - minutes wait_timeout) (set_rext d x2))
    with (stale_rows "waiting" (now - minutes wait_timeout) d).
  destruct (each_row_updates rv true (recover_stuck_row rv now) (touch (run_recovered RECOVERY_ERROR_MSG now) now)
    (fun row => stale "running" (now - minutes threshold) row = true)
    (stale_rows "running" (now - minutes threshold) d) (set_rext d x2) 0) as (d3&->&Hw3&Hk3).
  { intros r d0 row Hr _. by eapply recover_stuck_row_updates. } { apply flows_where_nodup. } { intros r Hr. by apply flows_where_elem. }
  cbn [rd_flows rd_waits set_rext] in Hw3, Hk3. set (reason := "wait_timeout:" +:+ _).
  destruct (each_row_updates rv false (fun rid => move_to_dead_letter rv now rid reason) (touch (run_dead_letter reason now) now)
    (fun row => fr_status (fw_run row) = "waiting") (stale_rows "waiting" (now - minutes wait_timeout) d) d3 0) as (d4&->&Hw4&Hk4).
  { intros r d0 row Hr Hq. by eapply move_to_dead_letter_updates. } { apply flows_where_nodup. }
  { intros r (row&Hr&Hst)%flows_where_elem. exists row. rewrite Hk3, decide_False; [split; [done|]|].
    - unfold stale in Hst. apply andb_true_iff in Hst as [Hst _]. by apply String.eqb_eq.
    - intros Hin. apply (flows_where_lookup _ _ _ _ Hr) in Hin. by eapply stale_exclusive. }
  exists d4, (0 + Z.of_nat (length (stale_rows "running" (now - minutes threshold) d))),
    (0 + Z.of_nat (length (stale_rows "waiting" (now - minutes wait_timeout) d))).
  split; [done|]. split_and!; [|congruence|lia|lia]. intros k. rewrite Hk4, Hk3.
  destruct (rd_flows d !! k) as [row|] eqn:Hk; [|by repeat destruct (decide _)].
  change (scanned now threshold wait_timeout <$> Some row) with (Some (scanned now threshold wait_timeout row)).
  unfold scanned. fold reason.
  destruct (stale "running" (now - minutes threshold) row) eqn:H1;
    destruct (stale "waiting" (now - minutes wait_timeout) row) eqn:H2.
  - exfalso. by eapply stale_exclusive.
  - rewrite decide_False, decide_True; [done|by eapply flows_where_lookup|].
    intros Hin. apply (flows_where_lookup _ _ _ _ Hk) in Hin. congruence.
  - rewrite decide_True, decide_False; [done| |by eapply flows_where_lookup].
    intros Hin. apply (flows_where_lookup _ _ _ _ Hk) in Hin. congruence.
  - rewrite !decide_False; [done|intros Hin; apply (flows_where_lookup _ _ _ _ Hk) in Hin; congruence..].
Qed.

Definition steady {X} : recovery_services X :=
  MkRecovery X (fun x => (x, Ok ())) (fun x => (x, Ok ())) (fun x => (x, Ok ())) (fun _ x => x) (fun _ x => (x, Stored)) (fun _ x => (x, Ok ())).
(** A run that waits until the time 10^12, last updated at 0 *)
Definition long_wait : FlowRun :=
  MkRun "r1" "f" None [] "a" "waiting" (Some "go") (Some 1000000000000) None None None None None.
Definition demo_rdb (run : FlowRun) : rdb unit := MkRdb {["r1" := MkFlowRow run 0]} ∅ [] [] tt.

Lemma stuck_scan_exact_witness :
  exists d' n m, scan_and_recover_stuck_runs steady 3600000000 45 30 true (demo_rdb long_wait) = (d', (n, m)) /\
    rd_flows d' !! "r1" = Some (MkFlowRow (run_dead_letter "wait_timeout:30m" 3600000000 long_wait) 3600000000).
Proof.
  destruct (stuck_scan_exact steady 3600000000 45 30 (demo_rdb long_wait)) as (d'&n&m&H1&H2&_); [done|].
  exists d', n, m. split; [exact H1|]. rewrite H2. vm_compute. reflexivity.
Defined.

Lemma recovery_leaves_other_runs_witness :
  rd_flows (foldl (run_job steady) (demo_rdb (run_claimed long_wait))
    [JScan 9000000000 45 30 true; JStuck 9000000000 45; JDeadlines 9000000000; JWaits 9000000000]) !! "r1" =
    Some (MkFlowRow (run_claimed long_wait) 0).
Proof. by apply (recovery_leaves_other_runs steady). Defined.

(** ** Expired waits *)
Definition tables {X} (d : rdb X) : gmap string flow_row * gmap string backup_row := (rd_flows d, rd_waits d).

Lemma expire_pending_tables {X} now pending (d d' : rdb X) :
  tables d = tables d' -> tables (expire_pending now pending d) = tables (expire_pending now pending d').
Proof.
  revert d d'. induction pending as [|r l IH]; intros d d' Ht; [done|]. cbn. apply IH. injection Ht as Hf Hw.
  unfold tables, expire_row. cbn. by rewrite Hf, Hw.
Qed.

Definition keeps_pending {X} (rv : recovery_services X) : Prop := forall rid x, (rv_announce rv rid x).2 <> Discarded.
Definition discards_pending {X} (rv : recovery_services X) : Prop := forall rid x, (rv_announce rv rid x).2 = Discarded.

(** When no event fails, the commits of the loop and the last one apply all rows. *)
Lemma expire_rows_kept {X} (rv : recovery_services X) (Hans : answers rv) (Hk : keeps_pending rv) now rids pending d :
  exists d' l, expire_rows rv now rids pending d = (d', Ok l) /\
    tables (expire_pending now l d') = tables (expire_pending now (pending ++ rids) d).
Proof.
  revert pending d. induction rids as [|r rids IH]; intros pending d; [exists d, pending; by rewrite app_nil_r|].
  cbn [expire_rows]. match goal with |- context [selecting rv d ?k] => destruct (selecting_answers rv Hans d k) as [x ->] end.
  cbn [rd_ext set_rext]. pose proof (Hk r x) as Hne. destruct (rv_announce rv r x) as [x' []]; [|done|].
  - destruct (IH [r] (expire_pending now pending (set_rext (set_rext d x) x'))) as (d'&l&->&Ht). exists d', l. split; [done|].
    rewrite Ht. change ([r] ++ rids) with (r :: rids). unfold expire_pending at 3. rewrite foldl_app.
    change (tables (expire_pending now (r :: rids) (expire_pending now pending (set_rext (set_rext d x) x'))) =
      tables (expire_pending now (r :: rids) (expire_pending now pending d))).
    by apply expire_pending_tables, expire_pending_tables.
  - destruct (IH (pending ++ [r]) (set_rext (set_rext d x) x')) as (d'&l&->&Ht). exists d', l. split; [done|].
    rewrite Ht, <- app_assoc. by apply expire_pending_tables.
Qed.

(** When every event fails, only the last row is left for the commit. *)
Lemma expire_rows_discarded {X} (rv : recovery_services X) (Hans : answers rv) (Hd : discards_pending rv) now rids r pending d :
  exists x, expire_rows rv now (rids ++ [r]) pending d = (set_rext d x, Ok [r]).
Proof.
  revert pending d. induction rids as [|r' rids IH]; intros pending d; cbn [app expire_rows];
    (match goal with |- context [selecting rv d ?k] => destruct (selecting_answers rv Hans d k) as [x ->] end);
    cbn [rd_ext set_rext].
  - pose proof (Hd r x) as He. destruct (rv_announce rv r x) as [x' []]; try done. by exists x'.
  - pose proof (Hd r' x) as He. destruct (rv_announce rv r' x) as [x' []]; try done.
    destruct (IH [r'] (set_rext (set_rext d x) x')) as [x2 ->]. by exists x2.
Qed.

Lemma expire_rows_lookup {X} now rids (d : rdb X) k : NoDup rids ->
  rd_flows (expire_pending now rids d) !! k =
    (if decide (k ∈ rids) then touch (run_recovered "WAIT_TIMEOUT" now) now <$> rd_flows d !! k else rd_flows d !! k) /\
  rd_waits (expire_pending now rids d) !! k = (if decide (k ∈ rids) then None else rd_waits d !! k).
Proof.
  revert d. induction rids as [|r rids IH]; intros d Hnd; [done|]. apply NoDup_cons in Hnd as [Hni Hnd]. unfold expire_pending. cbn [foldl].
  destruct (IH (expire_row now d r) Hnd) as [H1 H2]. unfold expire_pending in H1, H2. rewrite H1, H2.
  unfold expire_row. cbn [rd_flows rd_waits set_waits update_flow set_flows].
  destruct (decide (k = r)) as [->|Hne].
  - destruct (decide (r ∈ rids)) as [|_]; [done|]. destruct (decide (r ∈ r :: rids)) as [_|Hx]; [|destruct Hx; by left].
    by rewrite lookup_alter_eq, lookup_delete_eq.
  - rewrite lookup_alter_ne, lookup_delete_ne by done. destruct (decide (k ∈ rids)) as [Hin|Hnin].
    + destruct (decide (k ∈ r :: rids)) as [_|Hx]; [done|destruct Hx; by right].
    + destruct (decide (k ∈ r :: rids)) as [Hx|_]; [|done]. apply elem_of_cons in Hx as [->|?]; done.
Qed.

(** the expiry of recorded waits, when the database answers and the timeout
    events can be stored.  The rows of [waiting_flow_runs] whose wait took longer
    than its maximum are deleted, and exactly their runs become failed with a
    timeout; everything else stays.  The job does not look at the status of the
    run: one that has meanwhile finished, and whose row was left behind, is marked
    failed as well. *)
Theorem wait_expiry_exact {X} (rv : recovery_services X) now (d : rdb X) :
  answers rv -> keeps_pending rv ->
  let late k := match rd_waits d !! k with Some row => overdue now row | None => false end in
  exists d', expire_timed_out_wait_flows rv now d = (d', Z.of_nat (length (overdue_rows now d))) /\
    forall k, rd_waits d' !! k = (if late k then None else rd_waits d !! k) /\
      rd_flows d' !! k = (if late k then touch (run_recovered "WAIT_TIMEOUT" now) now <$> rd_flows d !! k else rd_flows d !! k).
Proof.
  intros Hans Hkeep late. unfold expire_timed_out_wait_flows. pose proof (Hans (rd_ext d)) as [Hs _].
  destruct (rv_select rv (rd_ext d)) as [x [[]|e]]; [|done].
  change (overdue_rows now (set_rext d x)) with (overdue_rows now d).
  destruct (expire_rows_kept rv Hans Hkeep now (overdue_rows now d) [] (set_rext d x)) as (d1&l&->&Ht).
  unfold commit_all. destruct (committing_answers rv Hans d1 (expire_pending now l)) as [x2 ->].
  eexists. split; [done|]. intros k.
  assert (tables (expire_pending now l (set_rext d1 x2)) = tables (expire_pending now (overdue_rows now d) d)) as [= -> ->].
  { rewrite (expire_pending_tables now l _ d1) by done. rewrite Ht. by apply expire_pending_tables. }
  destruct (expire_rows_lookup now (overdue_rows now d) d k) as [-> ->]; [apply NoDup_fst_map_to_list|].
  assert (k ∈ overdue_rows now d <-> late k = true) as Hl.
  { rewrite overdue_rows_elem. unfold late. destruct (rd_waits d !! k) as [row|]; [|by split; [intros (?&?&_)|]].
    split; [by intros (row'&[= <-]&H)|by exists row]. }
  destruct (late k), (decide (k ∈ overdue_rows now d)) as [Hin|Hni]; try done; [by destruct Hni; apply Hl|].
  by apply Hl in Hin.
Qed.

(** a failed timeout event undoes an expiry.  The event of a row is emitted in
    the session that holds the assignments of the row before it, and a failed
    emission rolls that session back.  When the database answers but no event can
    be stored, the job reports all overdue rows as expired and yet only the last
    of them is. *)
Theorem failed_events_undo_expiry {X} (rv : recovery_services X) now (d : rdb X) rids r :
  answers rv -> discards_pending rv -> overdue_rows now d = rids ++ [r] ->
  exists d', expire_timed_out_wait_flows rv now d = (d', Z.of_nat (length rids) + 1) /\
    rd_flows d' = alter (touch (run_recovered "WAIT_TIMEOUT" now) now) r (rd_flows d) /\
    rd_waits d' = delete r (rd_waits d).
Proof.
  intros Hans Hd Ho. unfold expire_timed_out_wait_flows. pose proof (Hans (rd_ext d)) as [Hs _].
  destruct (rv_select rv (rd_ext d)) as [x [[]|e]]; [|done].
  change (overdue_rows now (set_rext d x)) with (overdue_rows now d). rewrite Ho.
  destruct (expire_rows_discarded rv Hans Hd now rids r [] (set_rext d x)) as [x1 ->]. unfold commit_all.
  destruct (committing_answers rv Hans (set_rext (set_rext d x) x1) (expire_pending now [r])) as [x2 ->].
  eexists. split; [f_equal; rewrite length_app; cbn; lia|split; reflexivity].
Qed.

(** A finished run with a row that was left behind *)
Definition finished_rdb : rdb unit :=
  MkRdb {["r1" := MkFlowRow (run_success [] 5 long_wait) 5]}
    {["r1" := MkRow "r1" "go" None (utc_datetime 0) (Some 60) None None None "i1"]} [] [] tt.

Lemma wait_expiry_exact_witness :
  exists d', expire_timed_out_wait_flows steady 99000000 finished_rdb = (d', 1) /\
    (fr_status ∘ fw_run) <$> rd_flows d' !! "r1" = Some "failed".
Proof.
  destruct (wait_expiry_exact steady 99000000 finished_rdb) as (d'&H1&H2); [done|done|]. exists d'. split.
  - exact H1.
  - destruct (H2 "r1") as [_ ->]. vm_compute. reflexivity.
Defined.

(** Two overdue waits, and a database that stores no event *)
Definition two_overdue : rdb unit :=
  MkRdb {["r1" := MkFlowRow long_wait 5; "r2" := MkFlowRow long_wait 5]}
    {["r1" := MkRow "r1" "go" None (utc_datetime 0) (Some 60) None None None "i1";
      "r2" := MkRow "r2" "go" None (utc_datetime 0) (Some 60) None None None "i1"]} [] [] tt.
Definition eventless : recovery_services unit :=
  MkRecovery unit (fun x => (x, Ok ())) (fun x => (x, Ok ())) (fun x => (x, Ok ())) (fun _ x => x) (fun _ x => (x, Discarded))
    (fun _ x => (x, Ok ())).

Lemma failed_events_undo_expiry_witness :
  exists d', expire_timed_out_wait_flows eventless 99000000 two_overdue = (d', 2) /\ size (rd_waits d') = 1%nat.
Proof.
  destruct (failed_events_undo_expiry eventless 99000000 two_overdue (removelast (overdue_rows 99000000 two_overdue))
    (List.last (overdue_rows 99000000 two_overdue) "")) as (d'&H1&_&H3); [done|done|vm_compute; reflexivity|].
  exists d'. split; [exact H1|]. rewrite H3. vm_compute. reflexivity.
Defined.

(** ** Dead letters and live runners *)

(** a dead letter is not final.  The process that parked a run still holds its
    runner's callback after the run was moved to the dead letters, until
    [cleanup_stale_waits] evicts it.  When the event arrives before that, the
    callback resumes the run: its guard only concerns runs in status
    waiting, so the rest of the plan is executed and the dead letter ends as a
    success. *)
Theorem dead_letter_runs_on {X S} (E : env X) (db : eu_session S) (sv : @flow_services X S) registry B p user wf r pre post
    run reason now c fuel :
  calm sv -> env_testing E = false -> env_backend E = None -> (forall x, 0 <= fs_clock sv x <= B) ->
  c_runs c !! fr_id run = Some (run_dead_letter reason now run) -> json_truthy (jget (fr_state run) "trace_id") = true ->
  compile_plan_to_flow (pre ++ fr_current_node run :: post) = Ok (ru_flow r) -> NoDup (pre ++ fr_current_node run :: post) ->
  "" ∉ post -> Forall (fun s => succeeds sv (p s) s) (fr_current_node run :: post) ->
  affords E r (B / 1000 + 1) (Z.of_nat (length post) + 1) c ->
  ru_user r = Some user -> str_or_none (ru_workflow r) = Some wf -> fs_extractor sv wf = None -> fs_result_key sv wf = None ->
  extract_async_handoff (JObj (run_steps p (fr_current_node run :: post) (fr_state run))) = None ->
  (length post < fuel)%nat ->
  exists c' l run', execute_callback E db sv registry fuel (CbRunner r (fr_id run)) c = (c', Ok ()) /\
    c_history c' = c_history c ++ l /\ map fh_node l = fr_current_node run :: post /\
    c_runs c' !! fr_id run = Some run' /\ fr_status run' = "success".
Proof.
  intros Hcalm Ht Hb Hc Hrun Htr Hf Hnd Hne Hs Haff Hu Hw Hx Hk Hho Hfuel. cbn [execute_callback]. unfold mbind, M_bind.
  rewrite (resume_running E db sv fuel None r (fr_id run) _ c Hrun) by done. cbn [run_dead_letter fr_state fr_current_node].
  destruct (loop_plan E db sv Ht Hb B Hc p user wf (with_root r (event_id (fr_state run))) (fr_id run) pre (fr_current_node run)
    post (set_locals (fr_state run) [] c) fuel) as (c'&l&resp&run'&->&P1&P2&P3&P4&P5&P6&P7&P8); try done.
  - by exists (run_dead_letter reason now run).
  - by exists c', l, run'.
Qed.

Definition dead_cfg : @cfg unit (gmap UUID ExecutionUnit) :=
  set_runs (fun _ => {["run-1" := run_dead_letter "wait_timeout:30m" 7 restarted_run]}) quiet_cfg.

Lemma dead_letter_runs_on_witness :
  exists c' l run', execute_callback (quiet_env 5) quiet_session (quiet_services quiet_nodes) [] 2
      (CbRunner (quiet_runner (Some (MkUUID 9))) "run-1") dead_cfg = (c', Ok ()) /\ c_history c' = l /\ map fh_node l = ["a"; "b"] /\
    c_runs c' !! "run-1" = Some run' /\ fr_status run' = "success".
Proof.
  destruct (dead_letter_runs_on (quiet_env 5) quiet_session (quiet_services quiet_nodes) [] 0 (fun k _ => [(k, JInt 1)])
    (MkUUID 9) "demo" (quiet_runner (Some (MkUUID 9))) [] ["b"] restarted_run "wait_timeout:30m" 7 dead_cfg 2)
    as (c'&l&run'&H1&H2&H3&H4&H5).
  18: { exists c', l, run'. split; [exact H1|]. split; [exact H2|]. split; [exact H3|]. split; [exact H4|exact H5]. }
  - split; intro; intros; reflexivity.
  - reflexivity.
  - reflexivity.
  - intros x. cbn. lia.
  - reflexivity.
  - reflexivity.
  - reflexivity.
  - by_evaluation.
  - by_evaluation.
  - apply Forall_cons. split; [|apply Forall_cons; split; [|apply Forall_nil; exact I]];
      (split; [reflexivity|]; eexists; split; [reflexivity|]; intros st a x; exists x; reflexivity).
  - split; [split; reflexivity|]. split; [vm_compute; reflexivity|left; split; [reflexivity|vm_compute; reflexivity]].
  - reflexivity.
  - reflexivity.
  - reflexivity.
  - reflexivity.
  - reflexivity.
  - apply le_n.
Defined.
