(* ===== verification/NodusFlow.v ===== *)
(** * Flows compiled from Nodus scripts ([AINDY/runtime/nodus_flow_compiler.py])

    A script declares steps with [flow.step(node, when=key)]; [compile] turns them
    into a graph for the flow engine.  The interpreter that runs the script is a
    package of its own: [vm] gives the calls of [flow.step] a script makes and the
    result it ends with, and [None] stands for a package that is not installed.  [intended] is what the declarations mean according to the
    documentation: the steps in order, without those whose key is falsy.  The last
    section runs compiled scripts on the engine of [FlowEngine]. *)
From S2P Require Import Prelude PyDatetime Json PyUuid ResourceManager ExecutionUnit FlowEngine FlowFacts FlowSlots FlowPlans.
Local Open Scope Z_scope.

(** ** The graph builder *)
Record nodus_step := MkNodusStep { ns_node : string; ns_when : option string }.

(** [NodusFlowGraph.step] *)
Definition step (steps : list nodus_step) (node : string) (when : option string) : result (list nodus_step) :=
  if truthy (str_strip node) then Ok (steps ++ [MkNodusStep (str_strip node) when])
  else Raise (Exn "ValueError" ("flow.step() requires a non-empty string node_name; got " +:+ py_repr node)).

(** [_condition_truthy] and [_condition_falsy] *)
Definition condition_truthy (key : string) (st : dict json) : result bool := Ok (json_truthy (jget st key)).
Definition condition_falsy (key : string) (st : dict json) : result bool := Ok (negb (json_truthy (jget st key))).

(** The edges that leave a step with [rest] declared after it, and whether it is terminal *)
Definition edges_after (rest : list nodus_step) : edge_list * bool :=
  match rest with
  | [] => (Targets [], true)
  | next :: rest' =>
      match ns_when next with
      | None => (Targets [ns_node next], false)
      | Some key =>
          match rest' with
          | fallthrough :: _ =>
              (Conditions [(condition_truthy key, ns_node next); (condition_falsy key, ns_node fallthrough)], false)
          | [] => (Conditions [(condition_truthy key, ns_node next)], true)
          end
      end
  end.

(** [NodusFlowGraph.compile]; the loop assigns the edges of a node again when its
    name is declared again. *)
Fixpoint compile_steps (steps : list nodus_step) (edges : dict edge_list) (ends : list string) : dict edge_list * list string :=
  match steps with
  | [] => (edges, ends)
  | s :: rest =>
      let (e, terminal) := edges_after rest in
      compile_steps rest (dset edges (ns_node s) e) (if terminal then ends ++ [ns_node s] else ends)
  end.
Definition compile (name : string) (steps : list nodus_step) : result flow :=
  match steps with
  | [] => Raise (Exn "ValueError" ("Nodus flow " +:+ py_repr name +:+
            " declares no steps — call flow.step() at least once inside the script"))
  | s :: _ => let (edges, ends) := compile_steps steps [] [] in Ok (MkFlow (ns_node s) edges ends [])
  end.

(** [compile_nodus_flow]: a call that raises declares nothing; what the
    interpreter makes of the exception is part of its result. *)
Record vm_result := MkVmResult { vm_ok : bool; vm_error : option string }.
Definition declare (steps : list nodus_step) (call : string * option string) : list nodus_step :=
  match step steps call.1 call.2 with Ok steps' => steps' | Raise _ => steps end.
Definition interpreter := string -> list (string * option string) * vm_result.
Definition compile_nodus_flow (vm : option interpreter) (script name : string) : result flow :=
  match vm with
  | None => Raise (Exn "RuntimeError" "Nodus VM not installed — run: pip install nodus")
  | Some vm =>
      let (calls, res) := vm script in
      if vm_ok res then compile name (foldl declare [] calls)
      else Raise (Exn "ValueError" ("Nodus flow script error in " +:+ py_repr name +:+ ": " +:+
             str_or (vm_error res) "Nodus VM returned an error"))
  end.

(** ** What the declarations mean *)
Definition gate_open (s : nodus_step) (st : dict json) : bool :=
  match ns_when s with None => true | Some key => json_truthy (jget st key) end.
(** The nodes executed when every node [n] succeeds with the patch [p n] *)
Fixpoint intended (p : string -> dict json -> dict json) (steps : list nodus_step) (st : dict json) : list string :=
  match steps with
  | [] => []
  | s :: rest =>
      if gate_open s st then ns_node s :: intended p rest (dict_update st (p (ns_node s) st)) else intended p rest st
  end.

(** Scripts on which the graph keeps this meaning: the first and the last step are
    unconditional, and so is the step after a conditional one. *)
Definition unconditional (s : nodus_step) : bool := match ns_when s with None => true | Some _ => false end.
Fixpoint spaced (rest : list nodus_step) : bool :=
  match rest with
  | [] => true
  | s :: rest' =>
      (unconditional s || match rest' with t :: _ => unconditional t | [] => false end) && spaced rest'
  end.
Definition regular (steps : list nodus_step) : bool :=
  match steps with [] => false | s :: rest => unconditional s && spaced rest end.

(** ** The compiled graph *)
Section graph.
Implicit Types (steps rest pre : list nodus_step) (s : nodus_step).

Lemma compile_steps_other steps edges ends n : n ∉ map ns_node steps -> dget (compile_steps steps edges ends).1 n = dget edges n.
Proof.
  revert edges ends. induction steps as [|s rest IH]; intros edges ends; [done|]. cbn.
  intros [Hne Hni]%not_elem_of_cons. destruct (edges_after rest) as [e t]. rewrite IH by done. by apply dget_dset_ne.
Qed.
Lemma compile_steps_edges pre s rest edges ends : NoDup (map ns_node (pre ++ s :: rest)) ->
  dget (compile_steps (pre ++ s :: rest) edges ends).1 (ns_node s) = Some (edges_after rest).1.
Proof.
  revert edges ends. induction pre as [|s0 pre IH]; intros edges ends; cbn.
  - intros [Hni _]%NoDup_cons. destruct (edges_after rest) as [e t]. rewrite compile_steps_other by done. apply dget_dset_eq.
  - intros [_ Hnd]%NoDup_cons. destruct (edges_after (pre ++ s :: rest)) as [e t]. by apply IH.
Qed.
Lemma compile_steps_ends steps edges ends n : n ∈ (compile_steps steps edges ends).2 <->
  n ∈ ends \/ exists pre s rest, steps = pre ++ s :: rest /\ ns_node s = n /\ (edges_after rest).2 = true.
Proof.
  revert edges ends. induction steps as [|s rest IH]; intros edges ends; cbn.
  - split; [by left|]. intros [?|(pre&s&rest&Heq&_)]; [done|by destruct pre].
  - destruct (edges_after rest) as [e t] eqn:He. rewrite IH. split.
    + intros [Hin|(pre&s'&rest'&->&H)]; [|right; by exists (s :: pre), s', rest'].
      destruct t; [|by left]. apply elem_of_app in Hin as [?|Hn%list_elem_of_singleton]; [by left|].
      right. exists [], s, rest. by rewrite He.
    + intros [?|([|s0 pre]&s'&rest'&[= -> ->]&Hn&Ht)].
      * left. destruct t; set_solver.
      * left. rewrite He in Ht. cbn in Ht. subst. set_solver.
      * right. by exists pre, s', rest'.
Qed.

(** Distinct names split a script in one way. *)
Lemma split_unique pre s rest pre' s' rest' : NoDup (map ns_node (pre ++ s :: rest)) ->
  pre ++ s :: rest = pre' ++ s' :: rest' -> ns_node s = ns_node s' -> rest = rest'.
Proof.
  revert pre'. induction pre as [|s0 pre IH]; intros [|s0' pre'] Hnd Heq Hn; cbn in *; injection Heq as <- Heq; [done|..].
  - apply NoDup_cons in Hnd as [Hni _]. contradict Hni. rewrite Heq, Hn, map_app. cbn. set_solver.
  - apply NoDup_cons in Hnd as [Hni _]. contradict Hni. rewrite <- Hn, map_app. cbn. set_solver.
  - apply NoDup_cons in Hnd as [_ Hnd]. eauto.
Qed.

Lemma compile_inv name steps f : compile name steps = Ok f ->
  fl_edges f = (compile_steps steps [] []).1 /\ fl_end f = (compile_steps steps [] []).2.
Proof. unfold compile. destruct steps as [|s rest]; [done|]. destruct (compile_steps (s :: rest) [] []). by intros [= <-]. Qed.

Lemma compile_declared vm script name f : compile_nodus_flow (Some vm) script name = Ok f ->
  compile name (foldl declare [] (vm script).1) = Ok f.
Proof. cbn. destruct (vm script) as [calls res]. by destruct (vm_ok res). Qed.

Lemma compile_graph name steps f pre s rest : compile name steps = Ok f -> steps = pre ++ s :: rest ->
  NoDup (map ns_node steps) ->
  dget (fl_edges f) (ns_node s) = Some (edges_after rest).1 /\ str_in (ns_node s) (fl_end f) = (edges_after rest).2.
Proof.
  intros [-> ->]%compile_inv -> Hnd. split; [by apply compile_steps_edges|].
  pose proof (compile_steps_ends (pre ++ s :: rest) [] [] (ns_node s)) as He.
  destruct (edges_after rest).2 eqn:Ht.
  - apply str_in_spec, He. right. by exists pre, s, rest.
  - apply str_in_false. intros [?%not_elem_of_nil|(pre'&s'&rest'&Heq&Hn&Ht')]%He; [done|].
    rewrite (split_unique _ _ _ _ _ _ Hnd Heq (eq_sym Hn)) in Ht. congruence.
Qed.

(** The nodes the graph visits after step [s], with [rest] declared after it *)
Fixpoint follow p s rest (st : dict json) : list string :=
  let st' := dict_update st (p (ns_node s) st) in
  match rest with
  | [] => []
  | t :: rest' =>
      match ns_when t, rest' with
      | None, _ => ns_node t :: follow p t rest' st'
      | Some _, [] => []
      | Some key, u :: rest'' =>
          if json_truthy (jget st' key) then ns_node t :: follow p t rest' st' else ns_node u :: follow p u rest'' st'
      end
  end.

Lemma follow_cons p s t rest st : follow p s (t :: rest) st =
  let st' := dict_update st (p (ns_node s) st) in
  match ns_when t, rest with
  | None, _ => ns_node t :: follow p t rest st'
  | Some _, [] => []
  | Some key, u :: rest' => if json_truthy (jget st' key) then ns_node t :: follow p t rest st' else ns_node u :: follow p u rest' st'
  end.
Proof. done. Qed.

Lemma follow_walk p name steps f pre s rest st : compile name steps = Ok f -> steps = pre ++ s :: rest ->
  NoDup (map ns_node steps) -> "" ∉ map ns_node steps -> flow_walk f p st (ns_node s) (follow p s rest st).
Proof.
  intros Hc Heq Hnd Hne. remember (length rest) as n eqn:Hn. revert pre s rest st Heq Hn.
  induction (lt_wf n) as [n _ IH]. intros pre s rest st -> ->.
  destruct (compile_graph _ _ _ _ _ _ Hc eq_refl Hnd) as [Hed Hend].
  assert (forall t rest', rest = t :: rest' \/ (exists u, rest = u :: t :: rest') -> ns_node t <> "" /\
    forall st, flow_walk f p st (ns_node t) (follow p t rest' st)) as Hnext.
  { intros t rest' Ht.
    assert (exists pre', pre ++ s :: rest = pre' ++ t :: rest' /\ (length rest' < length rest)%nat) as (pre'&Hp&Hl).
    { destruct Ht as [->|[u ->]]; [exists (pre ++ [s])|exists (pre ++ [s; u])]; (rewrite <- app_assoc; split; [done|cbn; lia]). }
    split; [|intros st0; by apply (IH _ Hl pre' t rest')].
    intros Hemp. apply Hne. rewrite Hp, map_app. cbn. rewrite Hemp. set_solver. }
  destruct rest as [|t rest]; cbn in Hed, Hend; [by apply walk_end|].
  destruct (Hnext t rest) as (H1&H3); [by left|]. rewrite follow_cons; cbv zeta. destruct (ns_when t) as [key|] eqn:Hk.
  - destruct rest as [|u rest]; cbn in Hed, Hend; [by apply walk_end|].
    destruct (Hnext u rest) as (U1&U3); [right; by exists t|].
    destruct (json_truthy _) eqn:Hj; (apply walk_step; [done| |done|apply H3 || apply U3]); unfold resolve_next_node; rewrite Hed; cbn;
      unfold condition_truthy, condition_falsy; by rewrite Hj.
  - apply walk_step; [done| |done|apply H3]. unfold resolve_next_node. by rewrite Hed.
Qed.

Lemma follow_nodes p s rest st : follow p s rest st ⊆ map ns_node rest.
Proof.
  remember (length rest) as k eqn:Hk. revert s rest st Hk. induction (lt_wf k) as [k _ IH]. intros s [|t [|u rest]] st ->.
  - done.
  - cbn. destruct (ns_when t); set_solver.
  - pose proof (fun s st => IH (length rest) ltac:(cbn; lia) s rest st eq_refl) as H1.
    pose proof (fun s st => IH (length (u :: rest)) ltac:(cbn; lia) s (u :: rest) st eq_refl) as H2. cbn [map] in *.
    rewrite follow_cons; cbv zeta. destruct (ns_when t); [destruct (json_truthy _)|]; set_solver.
Qed.
Lemma follow_length p s rest st : (length (follow p s rest st) <= length rest)%nat.
Proof.
  remember (length rest) as k eqn:Hk. revert s rest st Hk. induction (lt_wf k) as [k _ IH]. intros s [|t [|u rest]] st ->.
  - done.
  - cbn. destruct (ns_when t); cbn; lia.
  - rewrite follow_cons; cbv zeta. destruct (ns_when t); [destruct (json_truthy _)|]; cbn [length]; apply le_n_S.
    1,3: apply (IH (length (u :: rest))); [cbn; lia|done].
    apply le_S. apply (IH (length rest)); [cbn; lia|done].
Qed.

(** On a regular script the graph visits what the declarations mean. *)
Lemma follow_regular p s rest st : spaced rest = true -> follow p s rest st = intended p rest (dict_update st (p (ns_node s) st)).
Proof.
  remember (length rest) as k eqn:Hk. revert s rest st Hk. induction (lt_wf k) as [k _ IH]. intros s [|t rest] st -> Hsp; [done|].
  cbn in Hsp. apply andb_true_iff in Hsp as [Hu Hsp]. unfold unconditional in Hu. rewrite follow_cons; cbv zeta; cbn [intended]. unfold gate_open at 1.
  assert (forall s st, follow p s rest st = intended p rest (dict_update st (p (ns_node s) st))) as Hrest
    by (intros; apply (IH (length rest)); [cbn; lia|done|done]).
  destruct (ns_when t) as [key|]; [|by rewrite Hrest]. destruct rest as [|u rest]; [done|].
  destruct (json_truthy _); [by rewrite Hrest|]. cbn in Hu, Hsp. apply andb_true_iff in Hsp as [_ Hsp]. cbn [intended]. unfold gate_open.
  destruct (ns_when u); [done|]. f_equal. apply (IH (length rest)); [cbn; lia|done|done].
Qed.

(** A conditional last step after an unconditional one is not visited. *)
Lemma follow_last p s rest t last st : ns_when t = None -> ns_when last <> None -> NoDup (map ns_node (rest ++ [t; last])) ->
  ns_node last ∉ follow p s (rest ++ [t; last]) st.
Proof.
  intros Ht Hw. remember (length rest) as k eqn:Hk. revert s rest st Hk. induction (lt_wf k) as [k _ IH]. intros s [|r rest] st -> Hnd.
  - cbn in *. rewrite Ht. destruct (ns_when last); [|done]. set_solver by (apply NoDup_cons in Hnd as [Hni _]; set_solver).
  - cbn in Hnd. apply NoDup_cons in Hnd as [Hni Hnd]. rewrite map_app in Hni.
    assert (ns_node last <> ns_node r) as Hne by set_solver.
    assert (forall s st, ns_node last ∉ follow p s (rest ++ [t; last]) st) as Hrest by (intros; apply (IH (length rest)); [cbn; lia|done|done]).
    cbn [app]; rewrite follow_cons; cbv zeta. destruct (ns_when r) as [key|]; [|by apply not_elem_of_cons].
    destruct rest as [|u rest]; cbn [app] in *.
    + destruct (json_truthy _); (apply not_elem_of_cons; split); try done; [set_solver by (apply NoDup_cons in Hnd as [? _]; set_solver)|].
      cbn. destruct (ns_when last); [apply not_elem_of_nil|done].
    + apply NoDup_cons in Hnd as [Hni' Hnd].
      destruct (json_truthy _); (apply not_elem_of_cons; split); try done; [set_solver|]. apply (IH (length rest)); [cbn; lia|done|done].
Qed.
End graph.

(** ** Compiled scripts on the engine *)
Section runs.
Context {X S : Type} (E : env X) (db : eu_session S) (sv : @flow_services X S) (B : Z).
Context (p : string -> dict json -> dict json) (user : UUID) (wf : string) (r : runner) (trace : string) (fresh : UUID).
Context (initial : dict json) (c : @cfg X S) (steps : list nodus_step).

(** A tenant below its limit, services that answer, nodes that succeed with the
    patches [p], and a budget of CPU time for every declared step *)
Record favourable : Prop := {
  fav_calm : calm sv; fav_testing : env_testing E = false; fav_backend : env_backend E = None;
  fav_clock : forall x, 0 <= fs_clock sv x <= B; fav_local : local_mode E (c_rm c);
  fav_nodes : Forall (fun s => succeeds sv (p s) s) (map ns_node steps);
  fav_user : ru_user r = Some user; fav_workflow : str_or_none (ru_workflow r) = Some wf;
  fav_extractor : fs_extractor sv wf = None; fav_result_key : fs_result_key sv wf = None;
  fav_units : forall e s, is_ok (db_add db e s).2 = true; fav_trace : trace <> "";
  fav_active : 0 <= active c (user_text r); fav_below : active c (user_text r) + 1 < env_max_concurrent E;
  fav_usage : rm_usage (c_rm c) !! uuid_to_string fresh = None;
  fav_purge : ~ (uuid_to_string fresh ∈ rm_pending_purge (c_rm c));
  fav_cpu : Z.of_nat (length steps) * (B / 1000 + 1) <= env_max_cpu_ms E; fav_syscalls : 0 <= env_max_syscalls E;
  fav_handoff : forall root s0 rest, let st := initial_state initial trace root in
    steps = s0 :: rest -> extract_async_handoff (JObj (run_steps p (ns_node s0 :: follow p s0 rest st) st)) = None
}.

Lemma declared_nonempty calls : "" ∉ map ns_node (foldl declare [] calls).
Proof.
  rewrite <- (rev_involutive calls). induction (rev calls) as [|call l IH]; [apply not_elem_of_nil|].
  cbn. rewrite foldl_app. cbn. unfold declare at 1, step. destruct (truthy (str_strip call.1)) eqn:Htr; [|done].
  rewrite map_app. intros [?|H%list_elem_of_singleton]%elem_of_app; [done|]. cbn in H. by rewrite <- H in Htr.
Qed.

Lemma script_runs s0 rest rid name fuel : favourable -> steps = s0 :: rest -> compile name steps = Ok (ru_flow r) ->
  NoDup (map ns_node steps) -> "" ∉ map ns_node steps -> (length steps <= fuel)%nat ->
  exists c' l resp run' root, start E db sv fuel rid trace fresh r initial name c = (c', Ok (Some resp)) /\ rs_status resp = "SUCCESS" /\
    c_history c' = c_history c ++ l /\ map fh_node l = ns_node s0 :: follow p s0 rest (initial_state initial trace root) /\
    c_runs c' !! rid = Some run' /\ fr_status run' = "success".
Proof.
  intros [Hcalm Ht Hb Hc Hl Hs Hu Hw Hx Hk Hadd Htr H0 Hact Hus Hpd Hcpu Hsys Hho] Heq Hcomp Hnd Hne Hfuel.
  assert (fl_start (ru_flow r) = ns_node s0) as Hst.
  { rewrite Heq in Hcomp. unfold compile in Hcomp. destruct (compile_steps (s0 :: rest) [] []). by injection Hcomp as <-. }
  destruct (start_walk E db sv Ht Hb B Hc p user wf (fun root => follow p s0 rest (initial_state initial trace root))
    (length steps) r rid trace fresh initial name c fuel) as (c'&l&resp&run'&root&H1&H2&H3&H4&_&H5&H6&_); rewrite ?Hst; try done.
  - intros root. by apply (follow_walk p name steps _ []).
  - intros root. apply Forall_forall. intros n Hn. apply (proj1 (Forall_forall _ _) Hs). rewrite Heq.
    apply elem_of_cons in Hn as [->|Hn]; [by left|]. right. by eapply follow_nodes.
  - intros root. rewrite Heq. cbn. apply le_n_S, follow_length.
  - intros root. by apply Hho.
  - exists c', l, resp, run', root. by rewrite <- Hst.
Qed.
End runs.


(** The example of the documentation, with and without its last step *)
Definition demo_vm : interpreter := fun script =>
  ([("fetch_data", None); ("analyze", Some "data_ready")] ++ (if String.eqb script "open" then [] else [("summarize", None)]), MkVmResult true None).
Definition demo_patch (ready : bool) (n : string) (_ : dict json) : dict json :=
  if String.eqb n "fetch_data" then [("data_ready", JBool ready)] else [(n, JInt 1)].
Definition demo_node (ready : bool) (n : string) : @node_fn unit :=
  fun st _ x => (x, st, Ok (MkNodeResult (Some "SUCCESS") (demo_patch ready n st) None None)).
Definition demo_nodes (ready : bool) : dict (@node_fn unit) :=
  map (fun n => (n, demo_node ready n)) ["fetch_data"; "analyze"; "summarize"].
Definition demo_runner (script : string) : runner :=
  MkRunner match compile_nodus_flow (Some demo_vm) script "demo" with Ok f => f | Raise _ => quiet_flow end
    (Some (MkUUID 9)) (Some "demo") None "normal" None None None.
Lemma demo_favourable ready script : script = "open" \/ script = "closed" ->
  favourable (quiet_env 5) quiet_session (quiet_services (demo_nodes ready)) 0 (demo_patch ready) (MkUUID 9) "demo" (demo_runner script)
    "trace-1" (MkUUID 1) [] quiet_cfg (foldl declare [] (demo_vm script).1).
Proof.
  assert (forall n, n ∈ ["fetch_data"; "analyze"; "summarize"] ->
    succeeds (quiet_services (demo_nodes ready)) (demo_patch ready n) n) as Hs.
  { intros n Hn. rewrite !elem_of_cons, elem_of_nil in Hn.
    destruct Hn as [-> |[-> |[-> |[]]]]; (split; [done|]; eexists; split; [reflexivity|]; intros st a x; by exists x). }
  intros Hscript. split; try done.
  - apply Forall_forall. intros n Hn. apply Hs. destruct Hscript as [-> | ->]; cbn in Hn; set_solver.
  - destruct Hscript as [-> | ->]; vm_compute; discriminate.
  - intros root s0 rest st. destruct Hscript as [-> | ->], ready; cbn; intros [= <- <-]; by destruct root as [[|]|].
Qed.


(** a conditional last step is never executed.  A script that ends in an
    unconditional step followed by a conditional one, started in the same
    circumstances, succeeds without executing its last step, whatever the value
    of the key: the step before it is an end node, and the engine finishes the
    run at an end node before it looks at the edges. *)
Theorem conditional_last_step_never_runs {X S} (E : env X) (db : eu_session S) sv B p user wf r trace fresh initial c vm script rid name fuel pre t last :
  let steps := foldl declare [] (vm script).1 in
  favourable E db sv B p user wf r trace fresh initial c steps ->
  compile_nodus_flow (Some vm) script name = Ok (ru_flow r) -> NoDup (map ns_node steps) ->
  steps = pre ++ [t; last] -> ns_when t = None -> ns_when last <> None ->
  (length steps <= fuel)%nat ->
  exists c' l resp run', start E db sv fuel rid trace fresh r initial name c = (c', Ok (Some resp)) /\ rs_status resp = "SUCCESS" /\
    c_history c' = c_history c ++ l /\ (ns_node last ∉ map fh_node l) /\ c_runs c' !! rid = Some run' /\ fr_status run' = "success".
Proof.
  intros steps Hfav Hf Hnd Heq Ht Hlast Hfuel. pose proof (declared_nonempty (vm script).1) as Hne. fold steps in Hne.
  apply compile_declared in Hf. fold steps in Hf.
  clearbody steps. assert (exists s0 rest, steps = s0 :: rest) as (s0&rest&Hst) by (rewrite Heq; destruct pre; eauto).
  destruct (script_runs E db sv B p user wf r trace fresh initial c _ s0 rest rid name fuel Hfav Hst Hf Hnd Hne Hfuel)
    as (c'&l&resp&run'&root&H1&H2&H3&H4&H5). exists c', l, resp, run'. split_and!; try done; [|by destruct H5..].
  rewrite H4. subst steps. rewrite Hst in Hnd. cbn in Hnd. apply NoDup_cons in Hnd as [Hni Hnd].
  destruct pre as [|s pre]; cbn in Hst; injection Hst as -> <-.
  - cbn in Hni |- *. destruct (ns_when last); [|done]. set_solver.
  - apply not_elem_of_cons. split; [|by apply follow_last]. rewrite map_app in Hni. set_solver.
Qed.

Lemma conditional_last_step_never_runs_witness :
  exists c' l resp, start (quiet_env 5) quiet_session (quiet_services (demo_nodes true)) 3 "run-1" "trace-1" (MkUUID 1)
      (demo_runner "open") [] "demo" quiet_cfg = (c', Ok (Some resp)) /\
    rs_status resp = "SUCCESS" /\ c_history c' = l /\ "analyze" ∉ map fh_node l.
Proof.
  destruct (conditional_last_step_never_runs (quiet_env 5) quiet_session (quiet_services (demo_nodes true)) 0 (demo_patch true) (MkUUID 9) "demo"
    (demo_runner "open") "trace-1" (MkUUID 1) [] quiet_cfg demo_vm "open" "run-1" "demo" 3 []
    (MkNodusStep "fetch_data" None) (MkNodusStep "analyze" (Some "data_ready"))) as (c'&l&resp&run'&H1&H2&H3&H4&_).
  - apply demo_favourable. by left.
  - reflexivity.
  - by_evaluation.
  - reflexivity.
  - reflexivity.
  - discriminate.
  - apply le_S, le_n.
  - exists c', l, resp. split; [exact H1|]. split; [exact H2|]. split; [exact H3|exact H4].
Defined.
