(* ===== verification/MemoryAddress.v ===== *)
(** * Memory addresses and tenant isolation

    [AINDY/memory/memory_address_space.py] and [AINDY/kernel/tenant_context.py].
    Paths are strings; the proofs look at them as lists of segments.  A fresh
    [uuid4] is an argument of the operations that draw one. *)
From S2P Require Import Prelude.

Definition MAS_ROOT : string := "/memory".
Definition LEGACY_NAMESPACE : string := "_legacy".
Definition TENANT_VIOLATION : string := "TENANT_VIOLATION".

Definition slash : Ascii.ascii := "/"%char.

(** ** Strings *)

(** [re.sub("/+", "/", s)]; [prev] says that the character before was a slash. *)
Fixpoint collapse (prev : bool) (s : string) : string :=
  match s with
  | EmptyString => EmptyString
  | String a s' =>
      if Ascii.eqb a slash then (if prev then collapse true s' else String a (collapse true s'))
      else String a (collapse false s')
  end.

(** [s.split("/")] *)
Fixpoint split_slash (s : string) : list string :=
  match s with
  | EmptyString => [EmptyString]
  | String a s' =>
      if Ascii.eqb a slash then EmptyString :: split_slash s'
      else match split_slash s' with x :: xs => String a x :: xs | [] => [String a EmptyString] end
  end.


(** [s.rstrip("/")] *)
Fixpoint lstrip_slash (s : string) : string :=
  match s with
  | String a s' => if Ascii.eqb a slash then lstrip_slash s' else s
  | EmptyString => EmptyString
  end.
Definition rstrip_slash (s : string) : string := String.rev (lstrip_slash (String.rev s)).

(** [s[:s.rfind("/")]], with the position; [None] when there is no slash. *)
Fixpoint str_rcut (s : string) : option (nat * string) :=
  match s with
  | EmptyString => None
  | String a s' =>
      match str_rcut s' with
      | Some (n, p) => Some (S n, String a p)
      | None => if Ascii.eqb a slash then Some (0, EmptyString) else None
      end
  end.

(** ** Paths *)

(** [normalize_path] *)
Definition normalize_path (path : string) : result string :=
  if negb (truthy path) then Raise (Exn "ValueError" "MAS path must not be empty") else
  let cleaned := collapse false (str_strip path) in
  if negb (startswith MAS_ROOT cleaned) then
    Raise (Exn "ValueError" ("MAS path must start with " +:+ py_repr MAS_ROOT +:+ "; got " +:+ py_repr path))
  else if negb (cleaned =s MAS_ROOT) && endswith "/" cleaned then Ok (rstrip_slash cleaned)
  else Ok cleaned.

(** [validate_tenant_path] *)
Definition validate_tenant_path (path tenant : string) : result unit :=
  let expected_prefix := MAS_ROOT +:+ "/" +:+ tenant +:+ "/" in
  let exact := MAS_ROOT +:+ "/" +:+ tenant in
  if startswith expected_prefix path || (path =s exact) then Ok ()
  else Raise (Exn "PermissionError" (TENANT_VIOLATION +:+ ": path " +:+ py_repr path +:+
                " is not under tenant namespace " +:+ py_repr expected_prefix)).

Record parsed_path := MkParsed {
  pp_tenant_id : option string; pp_namespace : option string; pp_addr_type : option string; pp_node_id : option string
}.

(** [parse_path] *)
Definition parse_path (path : string) : result parsed_path :=
  p ← normalize_path path;
  let segs := split_slash p in
  mret (MkParsed (str_or_none (segs !! 2)) (str_or_none (segs !! 3)) (str_or_none (segs !! 4)) (str_or_none (segs !! 5))).

(** [build_path] *)
Definition build_path (tenant : string) (namespace addr_type node_id : option string) : result string :=
  if negb (truthy tenant) then Raise (Exn "ValueError" "MAS build_path: tenant_id is required") else
  let parts := [MAS_ROOT; tenant] in
  match str_or_none namespace, str_or_none addr_type, str_or_none node_id with
  | None, Some _, _ => Raise (Exn "ValueError" "MAS build_path: addr_type requires namespace")
  | None, None, Some _ | Some _, None, Some _ =>
      Raise (Exn "ValueError" "MAS build_path: node_id requires namespace and addr_type")
  | None, None, None => Ok (str_join "/" parts)
  | Some n, None, None => Ok (str_join "/" (parts ++ [n]))
  | Some n, Some a, None => Ok (str_join "/" (parts ++ [n; a]))
  | Some n, Some a, Some i => Ok (str_join "/" (parts ++ [n; a; i]))
  end.

(** [generate_node_path]: the path and the node id *)
Definition generate_node_path (fresh tenant namespace addr_type : string) : result (string * string) :=
  p ← build_path tenant (Some namespace) (Some addr_type) (Some fresh);
  mret (p, fresh).

(** The keys of a memory node that the address space reads *)
Record mem_node := MkMemNode {
  mn_path : option string; mn_user_id : option string; mn_memory_type : option string; mn_node_type : option string;
  mn_id : option string
}.

(** [derive_legacy_path] *)
Definition derive_legacy_path (fresh : string) (n : mem_node) : result string :=
  build_path (str_or (mn_user_id n) "unknown") (Some LEGACY_NAMESPACE)
    (Some (str_or (mn_memory_type n) (str_or (mn_node_type n) "insight"))) (Some (str_or (mn_id n) fresh)).

(** [parent_path_of] *)
Definition parent_path_of (path : string) : result string :=
  p ← normalize_path path;
  mret (match str_rcut p with
        | Some (idx, prefix) => if Nat.leb idx (String.length MAS_ROOT) then MAS_ROOT else prefix
        | None => MAS_ROOT
        end).

(** [is_exact], [is_wildcard], [is_recursive] and [wildcard_prefix] *)
Definition is_exact (path : string) : bool := negb (str_contains "*" path) && negb (str_contains "**" path).
Definition is_wildcard (path : string) : result bool :=
  p ← normalize_path path; mret (endswith "/*" p && negb (endswith "/**" p)).
Definition is_recursive (path : string) : result bool := p ← normalize_path path; mret (endswith "/**" p).
Definition str_chop (n : nat) (s : string) : string := String.rev (str_drop n (String.rev s)).
Definition wildcard_prefix (path : string) : result string :=
  p ← normalize_path path;
  if endswith "/**" p then mret (str_chop 3 p)
  else if endswith "/*" p then mret (str_chop 2 p)
  else parent_path_of p.

(** ** Writes: [path_from_write_payload] *)
Record write_payload := MkWrite {
  wp_path : option string; wp_namespace : option string; wp_addr_type : option string; wp_node_type : option string
}.

Definition path_from_write_payload (fresh : string) (payload : write_payload) (tenant : string)
    : result (string * string * string) :=
  let node_type := default "general" (wp_node_type payload) in
  match str_or_none (wp_path payload) with
  | Some path =>
      raw ← normalize_path path;
      _ ← validate_tenant_path raw tenant;
      parsed ← parse_path raw;
      let ns := str_or (pp_namespace parsed) "general" in
      let at_ := str_or (pp_addr_type parsed) node_type in
      match pp_node_id parsed with
      | Some _ => mret (raw, ns, at_)
      | None => full ← generate_node_path fresh tenant ns at_; mret (full.1, ns, at_)
      end
  | None =>
      let ns := str_or (wp_namespace payload) "general" in
      let at_ := str_or (wp_addr_type payload) node_type in
      full ← generate_node_path fresh tenant ns at_; mret (full.1, ns, at_)
  end.

(** ** Trees: [build_tree] and [flatten_tree] *)
Record entry := MkEntry { en_node : mem_node; en_children : list string }.
Abbreviation tree := (dict entry).

Definition tree_step (fresh : string) (acc : tree * dict (list string)) (n : mem_node) : result (tree * dict (list string)) :=
  path ← match str_or_none (mn_path n) with Some p => Ok p | None => derive_legacy_path fresh n end;
  parent ← parent_path_of path;
  let by_path := dset acc.1 path (MkEntry n []) in
  let children := default [] (dget acc.2 parent) in
  mret (by_path, dset acc.2 parent (children ++ [path])).
Fixpoint tree_fold (fresh : string) (nodes : list mem_node) (acc : tree * dict (list string))
    : result (tree * dict (list string)) :=
  match nodes with
  | [] => Ok acc
  | n :: nodes' => acc' ← tree_step fresh acc n; tree_fold fresh nodes' acc'
  end.
Definition attach (t : tree) (pc : string * list string) : tree :=
  match dget t pc.1 with
  | Some e => dset t pc.1 (MkEntry (en_node e) pc.2)
  | None => t
  end.
Definition build_tree (fresh : string) (nodes : list mem_node) : result tree :=
  acc ← tree_fold fresh nodes ([], []);
  mret (foldl attach acc.1 acc.2).

(** [{parent_path_of(p) for p in tree if parent_path_of(p) in tree}] *)
Fixpoint parents_in (t : tree) (keys : list string) : result (list string) :=
  match keys with
  | [] => Ok []
  | p :: keys' =>
      q ← parent_path_of p;
      rest ← parents_in t keys';
      mret (if dmem t q then q :: rest else rest)
  end.

(** [_walk]; [fuel] bounds the depth. *)
Fixpoint walk (fuel : nat) (t : tree) (path : string) : list mem_node :=
  match fuel with
  | O => []
  | S f => match dget t path with
           | Some e => en_node e :: flat_map (walk f t) (en_children e)
           | None => []
           end
  end.
Definition flatten_tree (t : tree) : result (list mem_node) :=
  ps ← parents_in t (dkeys t);
  let roots := List.filter (fun p => negb (str_in p ps)) (dkeys t) in
  mret (flat_map (walk (S (length t)) t) (str_sort roots)).

(** [enrich_node_with_path] *)
Definition enrich_node_with_path (fresh : string) (n : mem_node) : result mem_node :=
  match str_or_none (mn_path n) with
  | Some _ => Ok n
  | None => p ← derive_legacy_path fresh n;
            mret (MkMemNode (Some p) (mn_user_id n) (mn_memory_type n) (mn_node_type n) (mn_id n))
  end.

(** ** [TenantContext] *)
Record TenantContext := MkTenant { tc_tenant_id : string; tc_user_id : string; tc_namespace : string; tc_scope : list string }.

Definition memory_prefix (c : TenantContext) : string := "/memory/" +:+ tc_tenant_id c +:+ "/".
Definition validate_memory_path (c : TenantContext) (path : string) : bool := startswith (memory_prefix c) path.
Definition assert_memory_path (c : TenantContext) (path : string) : result unit :=
  if validate_memory_path c path then Ok ()
  else Raise (Exn "PermissionError" (TENANT_VIOLATION +:+ ": memory path " +:+ py_repr path +:+ " is outside tenant namespace " +:+
                py_repr (memory_prefix c))).
Definition assert_same_tenant (c : TenantContext) (other : string) : result unit :=
  if other =s tc_tenant_id c then Ok ()
  else Raise (Exn "PermissionError" (TENANT_VIOLATION +:+ ": tenant " +:+ py_repr (tc_tenant_id c) +:+
                " attempted to access resource owned by tenant " +:+ py_repr other)).
Definition has_capability (c : TenantContext) (cap : string) : bool := str_in cap (tc_scope c).
Definition assert_capability (c : TenantContext) (cap : string) : result unit :=
  if has_capability c cap then Ok ()
  else Raise (Exn "PermissionError" (TENANT_VIOLATION +:+ ": tenant " +:+ py_repr (tc_tenant_id c) +:+
                " does not have capability " +:+ py_repr cap +:+ "; granted: " +:+ py_repr_list (tc_scope c))).

(** [build_tenant_context] *)
Definition build_tenant_context (user : option string) (scope : option (list string)) (tenant : option string) : TenantContext :=
  let t := str_or tenant (str_or user "") in
  MkTenant t (str_or user "") ("tenant:" +:+ t) (default [] scope).

(** ** Reversal and characters *)
Lemma rev_app_spec a b : String.rev_app a b = String.rev a +:+ b.
Proof.
  unfold String.rev. revert b. induction a as [|x a IH]; intros b; [done|].
  change (String.rev_app a (String x b) = String.rev_app a (String x "") +:+ b).
  rewrite IH, (IH (String x "")), str_app_assoc. done.
Qed.
Lemma rev_cons x a : String.rev (String x a) = String.rev a +:+ String x "".
Proof. exact (rev_app_spec a (String x "")). Qed.
Lemma rev_app_dist a b : String.rev (a +:+ b) = String.rev b +:+ String.rev a.
Proof.
  induction a as [|x a IH]; [by rewrite str_app_nil_l, str_app_nil_r|].
  by rewrite str_app_cons, !rev_cons, IH, str_app_assoc.
Qed.
Lemma rev_involutive a : String.rev (String.rev a) = a.
Proof. induction a as [|x a IH]; [done|]. by rewrite rev_cons, rev_app_dist, IH. Qed.

(** All characters satisfy [P]. *)
Fixpoint chars (P : Ascii.ascii -> bool) (s : string) : bool :=
  match s with EmptyString => true | String a s' => P a && chars P s' end.
Lemma chars_app P a b : chars P (a +:+ b) = chars P a && chars P b.
Proof. induction a as [|x a IH]; [done|]. rewrite str_app_cons. cbn. by rewrite IH, andb_assoc. Qed.
Lemma chars_rev P a : chars P (String.rev a) = chars P a.
Proof. induction a as [|x a IH]; [done|]. rewrite rev_cons, chars_app, IH. cbn. by rewrite andb_true_r, andb_comm. Qed.

Definition no_space : string -> bool := chars (fun a => negb (Ascii.is_space a)).
Definition no_slash : string -> bool := chars (fun a => negb (Ascii.eqb a slash)).

Lemma no_slash_has s : no_slash s = negb (str_has slash s).
Proof. unfold no_slash. induction s as [|a s IH]; [done|]. cbn. rewrite IH. by destruct (Ascii.eqb a slash). Qed.

Lemma lstrip_no_space s : no_space s = true -> str_lstrip s = s.
Proof. destruct s as [|a s]; [done|]. cbn. by destruct (Ascii.is_space a). Qed.
Lemma strip_no_space s : no_space s = true -> str_strip s = s.
Proof.
  intros Hs. unfold str_strip. rewrite (lstrip_no_space s Hs), lstrip_no_space; [apply rev_involutive|].
  unfold no_space. by rewrite chars_rev.
Qed.

(** ** Paths as lists of segments *)
Definition segment (s : string) : bool := truthy s && no_slash s && no_space s.

Fixpoint slashed (l : list string) : string :=
  match l with [] => "" | s :: l' => String slash (s +:+ slashed l') end.

Lemma join_slashed x l : str_join "/" (x :: l) = x +:+ slashed l.
Proof.
  revert x. induction l as [|y l IH]; intros x; [cbn; by rewrite str_app_nil_r|].
  change (str_join "/" (x :: y :: l)) with (x +:+ "/" +:+ str_join "/" (y :: l)). rewrite IH. done.
Qed.

Lemma slashed_snoc l x : slashed (l ++ [x]) = slashed l +:+ String slash x.
Proof. induction l as [|y l IH]; [cbn; by rewrite str_app_nil_r|]. cbn. rewrite IH. by rewrite !str_app_cons, str_app_assoc. Qed.

Lemma collapse_text x r prev : x <> "" -> no_slash x = true -> collapse prev (x +:+ r) = x +:+ collapse false r.
Proof.
  revert prev. induction x as [|a x IH]; intros prev Hne Hx; [done|]. cbn in Hx. apply andb_true_iff in Hx as [Ha Hx].
  rewrite !str_app_cons. cbn [collapse]. destruct (Ascii.eqb a slash); [done|]. f_equal.
  destruct x as [|b x]; [done|]. by apply IH.
Qed.

Lemma segment_true s : segment s = true <-> s <> "" /\ no_slash s = true /\ no_space s = true.
Proof. unfold segment. rewrite !andb_true_iff, truthy_true. naive_solver. Qed.

Lemma collapse_slashed l : Forall (fun s => segment s = true) l -> collapse false (slashed l) = slashed l.
Proof.
  induction 1 as [|s l (Hne&Hs&_)%segment_true _ IH]; [done|]. cbn. f_equal. by rewrite collapse_text, IH.
Qed.

Lemma slashed_no_space l : Forall (fun s => segment s = true) l -> no_space (slashed l) = true.
Proof.
  induction 1 as [|s l (_&_&Hs)%segment_true _ IH]; [done|]. cbn. unfold no_space in *. by rewrite chars_app, Hs, IH.
Qed.

Lemma endswith_slash_text a x : x <> "" -> no_slash x = true -> endswith "/" (a +:+ x) = false.
Proof.
  intros Hne Hx. unfold endswith. rewrite rev_app_dist. change (String.rev "/") with (String slash "").
  assert (no_slash (String.rev x) = true) as Hr by (unfold no_slash; by rewrite chars_rev).
  destruct (String.rev x) as [|b y] eqn:Hrx; [|].
  - apply (f_equal String.rev) in Hrx. rewrite rev_involutive in Hrx. done.
  - rewrite str_app_cons. cbn [startswith]. unfold no_slash in Hr. cbn [chars] in Hr. apply andb_true_iff in Hr as [Hb _].
    rewrite Ascii.eqb_sym. by destruct (Ascii.eqb b slash).
Qed.

Lemma endswith_slashed l : l <> [] -> Forall (fun s => segment s = true) l -> endswith "/" (slashed l) = false.
Proof.
  intros Hne Hl. destruct (exists_last Hne) as (l'&x&->). apply Forall_app in Hl as [_ Hx].
  apply Forall_cons in Hx as [(Hn&Hs&_)%segment_true _]. rewrite slashed_snoc.
  change (String slash x) with (String slash "" +:+ x). rewrite <- str_app_assoc. by apply endswith_slash_text.
Qed.

Lemma normalize_slashed l : Forall (fun s => segment s = true) l ->
  normalize_path (slashed ("memory" :: l)) = Ok (slashed ("memory" :: l)).
Proof.
  intros Hl. assert (Forall (fun s => segment s = true) ("memory" :: l)) as Hl' by (by constructor).
  unfold normalize_path. rewrite (strip_no_space _ (slashed_no_space _ Hl')), (collapse_slashed _ Hl').
  rewrite (endswith_slashed _ (not_eq_sym (nil_cons (x := "memory") (l := l))) Hl'), andb_false_r.
  change (slashed ("memory" :: l)) with (MAS_ROOT +:+ slashed l). rewrite startswith_app. done.
Qed.

Lemma split_text x : no_slash x = true -> split_slash x = [x].
Proof. induction x as [|a x IH]; [done|]. cbn. intros [Ha Hx]%andb_true_iff. destruct (Ascii.eqb a slash); [done|]. by rewrite IH. Qed.
Lemma split_text_app x r : no_slash x = true -> split_slash (x +:+ String slash r) = x :: split_slash r.
Proof.
  induction x as [|a x IH]; [done|]. cbn. intros [Ha Hx]%andb_true_iff. rewrite str_app_cons. cbn.
  destruct (Ascii.eqb a slash); [done|]. by rewrite IH.
Qed.
Lemma split_slashed s l : Forall (fun s => no_slash s = true) (s :: l) -> split_slash (slashed (s :: l)) = "" :: s :: l.
Proof.
  revert s. induction l as [|x l IH]; intros s Hl; apply Forall_cons in Hl as [Hs Hl].
  - cbn. rewrite str_app_nil_r. by rewrite split_text.
  - specialize (IH x Hl). change (slashed (s :: x :: l)) with (String slash (s +:+ slashed (x :: l))).
    cbn [split_slash]. change (Ascii.eqb slash slash) with true. cbv iota. f_equal.
    change (slashed (x :: l)) with (String slash (x +:+ slashed l)) in *. rewrite split_text_app by done.
    f_equal. cbn in IH. by injection IH.
Qed.

Lemma rcut_text x : no_slash x = true -> str_rcut x = None.
Proof.
  unfold no_slash. induction x as [|a x IH]; [done|]. cbn [chars str_rcut]. intros [Ha Hx]%andb_true_iff. rewrite (IH Hx).
  by destruct (Ascii.eqb a slash).
Qed.
Lemma rcut_app a x : no_slash x = true -> str_rcut (a +:+ String slash x) = Some (String.length a, a).
Proof.
  intros Hx. induction a as [|b a IH]; [cbn [str_rcut]; rewrite str_app_nil_l; cbn [str_rcut]; by rewrite rcut_text|].
  rewrite str_app_cons. cbn [str_rcut String.length]. by rewrite IH.
Qed.

Lemma parent_slashed l x : Forall (fun s => segment s = true) (l ++ [x]) ->
  parent_path_of (slashed ("memory" :: l ++ [x])) = Ok (slashed ("memory" :: l)).
Proof.
  intros Hl. unfold parent_path_of. rewrite (normalize_slashed _ Hl). cbn [mbind result_bind].
  apply Forall_app in Hl as [_ Hx]. apply Forall_cons in Hx as [(_&Hx&_)%segment_true _].
  change ("memory" :: l ++ [x]) with (("memory" :: l) ++ [x]). rewrite slashed_snoc, (rcut_app _ _ Hx).
  change (slashed ("memory" :: l)) with (MAS_ROOT +:+ slashed l). rewrite str_length_app.
  destruct (Nat.leb_spec (String.length MAS_ROOT + String.length (slashed l)) (String.length MAS_ROOT)) as [Hle|]; [|done].
  destruct l as [|y l]; [done|]. cbn in Hle. lia.
Qed.

(** ** Slashes *)
Fixpoint slashes (s : string) : nat :=
  match s with EmptyString => 0 | String a s' => (if Ascii.eqb a slash then 1 else 0) + slashes s' end.

Lemma split_length s : length (split_slash s) = S (slashes s).
Proof.
  induction s as [|a s IH]; [done|]. cbn [split_slash slashes]. destruct (Ascii.eqb a slash); cbn [length]; [by rewrite IH|].
  destruct (split_slash s); cbn in *; lia.
Qed.
Lemma slashes_app a b : slashes (a +:+ b) = (slashes a + slashes b)%nat.
Proof. induction a as [|x a IH]; [done|]. rewrite str_app_cons. cbn [slashes]. rewrite IH. lia. Qed.
Lemma slashes_rev a : slashes (String.rev a) = slashes a.
Proof. induction a as [|x a IH]; [done|]. rewrite rev_cons, slashes_app, IH. cbn [slashes]. lia. Qed.
Lemma slashes_lstrip s : (slashes (str_lstrip s) <= slashes s)%nat.
Proof. induction s as [|a s IH]; [done|]. cbn [str_lstrip]. destruct (Ascii.is_space a); cbn [slashes]; lia. Qed.
Lemma slashes_strip s : (slashes (str_strip s) <= slashes s)%nat.
Proof.
  unfold str_strip. rewrite slashes_rev. etrans; [apply slashes_lstrip|]. rewrite slashes_rev. apply slashes_lstrip.
Qed.
Lemma slashes_collapse p s : (slashes (collapse p s) <= slashes s)%nat.
Proof.
  revert p. induction s as [|a s IH]; intros p; [done|]. cbn [collapse slashes].
  destruct (Ascii.eqb a slash) eqn:Ha; [destruct p|]; cbn [slashes]; rewrite ?Ha; [specialize (IH true)|specialize (IH true)|specialize (IH false)]; lia.
Qed.
Lemma slashes_rstrip s : (slashes (rstrip_slash s) <= slashes s)%nat.
Proof.
  unfold rstrip_slash. rewrite slashes_rev. etrans; [|by rewrite <- (slashes_rev s)].
  generalize (String.rev s). intros r. induction r as [|a r IH]; [done|]. cbn [lstrip_slash slashes].
  destruct (Ascii.eqb a slash) eqn:Ha; [lia|]. cbn [slashes]. rewrite Ha. lia.
Qed.
Lemma slashes_normalize p q : normalize_path p = Ok q -> (slashes q <= slashes p)%nat.
Proof.
  unfold normalize_path. destruct (negb _); [done|]. destruct (negb _); [done|].
  pose proof (slashes_collapse false (str_strip p)). pose proof (slashes_strip p).
  destruct (_ && _); intros [= <-]; [pose proof (slashes_rstrip (collapse false (str_strip p)))|]; lia.
Qed.

(** The tenant segment of a path under the root *)
Definition tenant_of (rest : string) : string := match str_cut slash rest with Some (t, _) => t | None => rest end.

Lemma validate_tenant_of path t : validate_tenant_path path t = Ok () -> no_slash t = true ->
  exists rest, path = "/memory/" +:+ rest /\ tenant_of rest = t /\ (slashes path = 2%nat \/ startswith ("/memory/" +:+ t +:+ "/") path = true).
Proof.
  intros Hv Ht. unfold validate_tenant_path in Hv.
  change (MAS_ROOT +:+ "/" +:+ t +:+ "/") with ("/memory/" +:+ t +:+ "/") in Hv.
  change (MAS_ROOT +:+ "/" +:+ t) with ("/memory/" +:+ t) in Hv.
  assert (str_has slash t = false) as Ht' by (rewrite no_slash_has in Ht; by destruct (str_has slash t)).
  destruct (startswith _ path) eqn:Hp.
  - apply startswith_spec in Hp as Hp'. destruct Hp' as [r ->]. exists (t +:+ String slash r).
    split; [by rewrite !str_app_assoc|]. split; [|by right]. unfold tenant_of. by rewrite str_cut_app.
  - cbn in Hv. destruct (path =s _) eqn:Hq; [|done]. apply String.eqb_eq in Hq as ->. exists t. split; [done|].
    unfold tenant_of. rewrite (proj2 (str_cut_None slash t) Ht'). split; [done|left]. rewrite slashes_app.
    assert (slashes t = 0%nat) as ->; [|done]. clear -Ht. unfold no_slash in Ht. induction t as [|a t IH]; [done|].
    cbn in Ht |- *. apply andb_true_iff in Ht as [Ha Ht]. destruct (Ascii.eqb a slash); [done|]. by apply IH.
Qed.

(** ** Theorems *)

Lemma generated_prefix fresh t ns a fi : fresh <> "" -> generate_node_path fresh t ns a = Ok fi ->
  startswith ("/memory/" +:+ t +:+ "/") fi.1 = true.
Proof.
  intros Hf. unfold generate_node_path, build_path. rewrite (proj2 (str_or_none_Some (Some fresh) fresh) (conj eq_refl Hf)).
  destruct (negb (truthy t)); [done|]. destruct (str_or_none (Some ns)) as [n|], (str_or_none (Some a)) as [a'|]; try done.
  intros [= <-]. apply startswith_spec. exists (n +:+ "/" +:+ a' +:+ "/" +:+ fresh). by rewrite !str_app_assoc.
Qed.

Definition opt_segment (o : option string) : bool := match o with Some s => segment s | None => true end.

Lemma opt_segment_or_none o : opt_segment o = true -> str_or_none o = o.
Proof. destruct o as [s|]; [|done]. cbn. intros (Hne&_)%segment_true. by destruct s. Qed.

(** A path that [build_path] gives is the list of its parts. *)
Lemma build_path_parts t ns a i p : segment t = true -> opt_segment ns = true -> opt_segment a = true -> opt_segment i = true ->
  build_path t ns a i = Ok p ->
  p = slashed ("memory" :: t :: omap id [ns; a; i]) /\ Forall (fun s => segment s = true) (t :: omap id [ns; a; i]) /\
  (ns = None -> a = None) /\ (a = None -> i = None).
Proof.
  intros Ht Hn Ha Hi. unfold build_path. rewrite (opt_segment_or_none _ Hn), (opt_segment_or_none _ Ha), (opt_segment_or_none _ Hi).
  pose proof Ht as (Hne&_)%segment_true. rewrite (proj2 (truthy_true t) Hne). cbn [negb].
  assert (forall l, Ok (str_join "/" ([MAS_ROOT; t] ++ l)) = Ok p -> p = slashed ("memory" :: t :: l)) as Hok.
  { intros l H. change (Ok (str_join "/" (MAS_ROOT :: t :: l)) = Ok p) in H. rewrite join_slashed in H.
    transitivity (MAS_ROOT +:+ slashed (t :: l)); [congruence|reflexivity]. }
  destruct ns as [n|], a as [a|], i as [i|]; try done; intros H;
    [apply (Hok [n; a; i]) in H|apply (Hok [n; a]) in H|apply (Hok [n]) in H|apply (Hok []) in H]; subst p;
    (split; [reflexivity|]); (split; [|done]); by repeat constructor.
Qed.

(** addresses.  The path built from segments (non-empty, without slashes and
    white space) is canonical, parsing it gives the segments back, and its parent
    is the path of the same segments without the last one. *)
Theorem build_parse_roundtrip t ns a i p :
  segment t = true -> opt_segment ns = true -> opt_segment a = true -> opt_segment i = true -> build_path t ns a i = Ok p ->
  normalize_path p = Ok p /\ parse_path p = Ok (MkParsed (Some t) ns a i) /\
  parent_path_of p = match ns, a, i with
                     | _, _, Some _ => build_path t ns a None
                     | _, Some _, None => build_path t ns None None
                     | Some _, None, None => build_path t None None None
                     | None, None, None => Ok MAS_ROOT
                     end.
Proof.
  intros Ht Hn Ha Hi Hb. destruct (build_path_parts _ _ _ _ _ Ht Hn Ha Hi Hb) as (->&Hl&Hna&Hai).
  pose proof (normalize_slashed _ Hl) as Hnorm. split; [exact Hnorm|]. split.
  - unfold parse_path. rewrite Hnorm. cbn [mbind result_bind]. rewrite split_slashed.
    + destruct t as [|c t]; [done|]. destruct ns as [[|]|], a as [[|]|], i as [[|]|]; try done;
        try (by destruct (Hna eq_refl)); try (specialize (Hna eq_refl)); try (specialize (Hai eq_refl)); done.
    + constructor; [done|]. eapply Forall_impl; [exact Hl|]. by intros s (_&?&_)%segment_true.
  - assert (forall l x, Forall (fun s => segment s = true) (l ++ [x]) -> parent_path_of (slashed ("memory" :: l ++ [x])) = Ok (slashed ("memory" :: l)))
      as Hp by apply parent_slashed.
    assert (forall l, slashed ("memory" :: t :: l) = str_join "/" ([MAS_ROOT; t] ++ l)) as Hj.
    { intros l. exact (eq_sym (join_slashed MAS_ROOT (t :: l))). }
    unfold build_path. rewrite (opt_segment_or_none _ Hn), (opt_segment_or_none _ Ha).
    pose proof Ht as (Hne&_)%segment_true. rewrite (proj2 (truthy_true t) Hne). cbn [negb str_or_none].
    destruct ns as [n|], a as [a|], i as [i|]; try (by specialize (Hna eq_refl)); try (by specialize (Hai eq_refl)).
    + exact (eq_trans (Hp [t; n; a] i Hl) (f_equal Ok (Hj [n; a]))).
    + exact (eq_trans (Hp [t; n] a Hl) (f_equal Ok (Hj [n]))).
    + exact (eq_trans (Hp [t] n Hl) (f_equal Ok (Hj []))).
    + exact (Hp [] t Hl).
Qed.

Lemma build_parse_roundtrip_witness :
  parse_path "/memory/user-123/entities/updated/abc" =
    Ok (MkParsed (Some "user-123") (Some "entities") (Some "updated") (Some "abc")).
Proof.
  refine (proj1 (proj2 (build_parse_roundtrip "user-123" (Some "entities") (Some "updated") (Some "abc") _ _ _ _ _ _)));
    vm_compute; reflexivity.
Defined.

(** tenant isolation of writes.  The path chosen for a write of a tenant lies
    under the tenant's own prefix, so its [TenantContext] accepts it, and no other
    tenant's check accepts it. *)
Theorem write_stays_in_tenant fresh payload t full ns a t' ctx :
  fresh <> "" -> path_from_write_payload fresh payload t = Ok (full, ns, a) -> no_slash t = true -> no_slash t' = true ->
  tc_tenant_id ctx = t ->
  assert_memory_path ctx full = Ok () /\ (validate_tenant_path full t' = Ok () -> t' = t).
Proof.
  intros Hf Hw Ht Ht' Hctx. assert (startswith ("/memory/" +:+ t +:+ "/") full = true) as Hpre.
  { unfold path_from_write_payload in Hw. destruct (str_or_none (wp_path payload)) as [path|].
    - destruct (normalize_path path) as [raw|e] eqn:Hn; [|done]. cbn [mbind result_bind] in Hw.
      destruct (validate_tenant_path raw t) as [[]|e] eqn:Hv; [|done].
      destruct (parse_path raw) as [parsed|e] eqn:Hp; [|done].
      cbn [mbind result_bind] in Hw. destruct (pp_node_id parsed) as [i|] eqn:Hi.
      2: { match type of Hw with context [generate_node_path ?a ?b ?c ?d] => destruct (generate_node_path a b c d) as [fi|e] eqn:Hg end; [|done]. apply generated_prefix in Hg; [|done].
           injection Hw as <- _ _. exact Hg. }
      injection Hw as <- _ _. destruct (validate_tenant_of _ _ Hv Ht) as (rest&_&_&[H2|H2]); [|exact H2].
      exfalso. unfold parse_path in Hp. destruct (normalize_path raw) as [q|e] eqn:Hq; [|done]. injection Hp as <-. cbn [pp_node_id] in Hi.
      apply slashes_normalize in Hq. rewrite (lookup_ge_None_2 (split_slash q) 5) in Hi; [done|]. rewrite split_length. lia.
    - match type of Hw with context [generate_node_path ?a ?b ?c ?d] => destruct (generate_node_path a b c d) as [fi|e] eqn:Hg end; [|done]. apply generated_prefix in Hg; [|done].
           injection Hw as <- _ _. exact Hg. }
  split; [unfold assert_memory_path, validate_memory_path, memory_prefix; by rewrite Hctx, Hpre|].
  intros Hv. assert (validate_tenant_path full t = Ok ()) as Hv'.
  { unfold validate_tenant_path. change (MAS_ROOT +:+ "/" +:+ t +:+ "/") with ("/memory/" +:+ t +:+ "/"). by rewrite Hpre. }
  destruct (validate_tenant_of _ _ Hv Ht') as (r1&E1&<-&_). destruct (validate_tenant_of _ _ Hv' Ht) as (r2&E2&<-&_).
  rewrite E1 in E2. by simplify_eq.
Qed.

Lemma write_stays_in_tenant_witness :
  assert_memory_path (build_tenant_context (Some "u1") None None) "/memory/u1/entities/updated/n1" = Ok () /\
  (validate_tenant_path "/memory/u1/entities/updated/n1" "u2" = Ok () -> "u2" = "u1").
Proof.
  apply (write_stays_in_tenant "n1" (MkWrite (Some "/memory/u1//entities/updated/") None None None) "u1"
    "/memory/u1/entities/updated/n1" "entities" "updated" "u2" (build_tenant_context (Some "u1") None None)).
  - discriminate.
  - vm_compute. reflexivity.
  - reflexivity.
  - reflexivity.
  - reflexivity.
Defined.

(** ** Trees *)

(** The tree and the lists of children while [build_tree] reads the nodes *)
Definition tree_inv (acc : tree * dict (list string)) : Prop :=
  Forall (fun pe => en_children pe.2 = [] /\ is_ok (parent_path_of pe.1) = true) acc.1 /\
  Forall (fun pc => Forall (fun c => c ∈ dkeys acc.1 /\ parent_path_of c = Ok pc.1) pc.2) acc.2.

Lemma dset_keys_incl {V} (d : dict V) k v x : x ∈ dkeys (dset d k v) <-> x ∈ dkeys d \/ x = k.
Proof.
  destruct (decide (k ∈ dkeys d)) as [Hin|Hin].
  - rewrite dset_keys_mem by done. naive_solver.
  - rewrite dset_notin by done. unfold dkeys. rewrite fmap_app. cbn. set_solver.
Qed.

Lemma dset_elem {V} (d : dict V) k v p : p ∈ dset d k v -> p = (k, v) \/ p ∈ d.
Proof.
  induction d as [|[k' v'] d IH]; cbn; [by intros ->%list_elem_of_singleton; left|].
  destruct (k' =s k) eqn:E; rewrite !elem_of_cons.
  - apply String.eqb_eq in E as ->. naive_solver.
  - naive_solver.
Qed.

Lemma tree_step_inv fresh acc n acc' : tree_inv acc -> tree_step fresh acc n = Ok acc' -> tree_inv acc'.
Proof.
  intros [H1 H2]. unfold tree_step. destruct (match str_or_none _ with Some _ => _ | None => _ end) as [path|e]; [|done].
  cbn [mbind result_bind]. destruct (parent_path_of path) as [parent|e] eqn:Hp; [|done]. cbn. intros [= <-]. split; cbn.
  - apply Forall_forall. intros pe [->|Hin]%dset_elem; [cbn [fst snd en_children]; by rewrite Hp|]. by rewrite Forall_forall in H1; apply H1.
  - assert (forall pc, pc ∈ acc.2 -> Forall (fun c => c ∈ dkeys (dset acc.1 path (MkEntry n [])) /\ parent_path_of c = Ok pc.1) pc.2) as Hold.
    { intros pc Hin. rewrite Forall_forall in H2. eapply Forall_impl; [by apply H2|]. cbn. intros c [Hc ?].
      split; [|done]. apply dset_keys_incl. by left. }
    apply Forall_forall. intros pc [->|Hin]%dset_elem; [|by apply Hold]. cbn. apply Forall_app. split.
    + destruct (dget acc.2 parent) as [l|] eqn:Hg; [|constructor]. apply dget_Some_elem in Hg. exact (Hold _ Hg).
    + constructor; [|done]. split; [|done]. apply dset_keys_incl. by right.
Qed.

Lemma tree_fold_inv fresh nodes acc acc' : tree_inv acc -> tree_fold fresh nodes acc = Ok acc' -> tree_inv acc'.
Proof.
  revert acc. induction nodes as [|n nodes IH]; intros acc Hi; cbn; [by intros [= <-]|].
  destruct (tree_step fresh acc n) as [acc1|e] eqn:Hs; [|done]. apply IH. by eapply tree_step_inv.
Qed.

(** A tree in which every child of an entry is an entry with that parent *)
Definition tree_ok (t : tree) : Prop :=
  Forall (fun pe => is_ok (parent_path_of pe.1) = true /\
    Forall (fun c => c ∈ dkeys t /\ parent_path_of c = Ok pe.1) (en_children pe.2)) t.

Lemma attach_ok t pc : tree_ok t -> Forall (fun c => c ∈ dkeys t /\ parent_path_of c = Ok pc.1) pc.2 -> tree_ok (attach t pc) /\ dkeys (attach t pc) = dkeys t.
Proof.
  intros Ht Hc. unfold attach. destruct (dget t pc.1) as [e|] eqn:Hg; [|done].
  assert (pc.1 ∈ dkeys t) as Hin. { apply dmem_spec. unfold dmem. by rewrite Hg. }
  split; [|by apply dset_keys_mem]. apply Forall_forall. intros pe Hpe. rewrite dset_keys_mem by done.
  unfold tree_ok in Ht. rewrite Forall_forall in Ht. apply dset_elem in Hpe as [->|Hpe]; [|by apply Ht].
  apply dget_Some_elem in Hg. by destruct (Ht _ Hg).
Qed.

Lemma build_tree_ok fresh nodes t : build_tree fresh nodes = Ok t -> tree_ok t.
Proof.
  unfold build_tree. destruct (tree_fold fresh nodes ([], [])) as [[t0 cs]|e] eqn:Hf; [|done].
  apply tree_fold_inv in Hf as [H1 H2]; [|done]. cbn [fst snd] in *. intros H. injection H as <-. change (tree_ok (foldl attach t0 cs)).
  assert (tree_ok t0) as Ht0. { eapply Forall_impl; [exact H1|]. cbn. by intros pe [-> ?]. }
  clear H1 nodes. revert t0 H2 Ht0. induction cs as [|pc cs IH]; intros t0 H2 Ht0; [done|].
  apply Forall_cons in H2 as [Hpc H2]. cbn [foldl]. destruct (attach_ok t0 pc Ht0 Hpc) as [Hok Hk]. apply IH; [|done]. by rewrite Hk.
Qed.

Lemma parents_in_spec t keys : Forall (fun p => is_ok (parent_path_of p) = true) keys ->
  exists ps, parents_in t keys = Ok ps /\ forall q, q ∈ ps <-> dmem t q = true /\ exists p, p ∈ keys /\ parent_path_of p = Ok q.
Proof.
  induction 1 as [|p keys Hp _ (ps&IH1&IH2)]; [exists []; set_solver|]. cbn [parents_in].
  destruct (parent_path_of p) as [q|e] eqn:Hq; [|done]. cbn [mbind result_bind]. rewrite IH1. cbn [mbind result_bind mret result_ret].
  eexists. split; [reflexivity|]. intros q'. destruct (dmem t q) eqn:Hm; rewrite ?elem_of_cons, IH2; split.
  - intros [->|(H1&p'&H2&H3)]; [split; [done|exists p; set_solver]|split; [done|exists p'; set_solver]].
  - intros (H1&p'&[->|H2]%elem_of_cons&H3); [left; congruence|right; naive_solver].
  - intros (H1&p'&H2&H3). split; [done|]. exists p'. set_solver.
  - intros (H1&p'&[->|H2]%elem_of_cons&H3); [|naive_solver]. exfalso. congruence.
Qed.

(** flattening a tree keeps only its leaves.  [flatten_tree] starts at the
    entries that are not the parent of another entry, so its result holds exactly
    the nodes without children, in the order of their paths; every inner node of
    the tree, with its position above its children, is missing. *)
Theorem flatten_tree_only_leaves fresh nodes t : build_tree fresh nodes = Ok t ->
  exists leaves, flatten_tree t = Ok (omap (fun p => en_node <$> dget t p) (str_sort leaves)) /\
    forall p, p ∈ leaves <-> p ∈ dkeys t /\ forall q, q ∈ dkeys t -> parent_path_of q <> Ok p.
Proof.
  intros Hb. apply build_tree_ok in Hb as Ht. unfold tree_ok in Ht. rewrite Forall_forall in Ht.
  destruct (parents_in_spec t (dkeys t)) as (ps&Hps&Hspec).
  { apply Forall_forall. intros p (pe&->&Hin)%list_elem_of_fmap. by apply Ht. }
  unfold flatten_tree. rewrite Hps. cbn [mbind result_bind]. set (leaves := List.filter _ _). exists leaves.
  assert (forall p, p ∈ leaves <-> p ∈ dkeys t /\ forall q, q ∈ dkeys t -> parent_path_of q <> Ok p) as Hl.
  { intros p. unfold leaves. rewrite list_elem_of_In, filter_In, <- list_elem_of_In, negb_true_iff, str_in_false, Hspec, dmem_spec. naive_solver. }
  split; [|done]. cbn. f_equal. assert (Forall (fun p => p ∈ leaves) (str_sort leaves)) as Hall.
  { apply Forall_forall. intros p. by rewrite str_sort_perm. }
  induction Hall as [|p l [Hp Hnp]%Hl _ IH]; [done|]. cbn [flat_map omap list_omap walk]. rewrite IH.
  apply dmem_spec in Hp as Hm. unfold dmem in Hm. destruct (dget t p) as [e|] eqn:Hg; [|done]. cbn.
  apply dget_Some_elem in Hg. destruct (Ht _ Hg) as [_ Hch]. cbn [fst snd] in Hch. destruct (en_children e) as [|c cs]; [done|].
  apply Forall_cons in Hch as [[Hc1 Hc2] _]. by destruct (Hnp c Hc1).
Qed.

Lemma flatten_tree_only_leaves_witness :
  exists t leaves, build_tree "x" [MkMemNode (Some "/memory/u/ns") None None None None;
                                   MkMemNode (Some "/memory/u/ns/a") None None None None] = Ok t /\
    flatten_tree t = Ok (omap (fun p => en_node <$> dget t p) (str_sort leaves)) /\ "/memory/u/ns" ∉ leaves.
Proof.
  eexists. destruct (flatten_tree_only_leaves "x" [MkMemNode (Some "/memory/u/ns") None None None None;
    MkMemNode (Some "/memory/u/ns/a") None None None None] _ eq_refl) as (leaves&H1&H2).
  exists leaves. split; [vm_compute; reflexivity|]. split; [exact H1|].
  intros [_ Hn]%H2. apply (Hn "/memory/u/ns/a"); [by_evaluation|vm_compute; reflexivity].
Defined.
