(* ===== verification/Capability.v ===== *)
(** * Capability tokens of agent runs ([AINDY/agents/capability_service.py])

    The tool registry, the capability definitions and mappings, the restricted
    tools and the trust settings are what the installed applications and the
    users registered: they are the record [catalog].  SHA-256 is a parameter
    [sha256].  The texts of times come from the codec of [PyDatetime]; the
    persistence of mappings is best effort and changes no result. *)
From S2P Require Import Prelude PyDatetime.
Local Open Scope Z_scope.

Definition TOKEN_TTL_HOURS : Z := 24.
Definition DEFAULT_AGENT_TYPE : string := "default".

(** [RISK_POLICY] *)
Definition RISK_POLICY : dict string := [("low", "auto_allowed"); ("medium", "requires_approval"); ("high", "gated")].

Record trust_settings := MkTrust {
  ts_allowed_auto_grant_tools : option (list string);
  ts_auto_execute_low : bool;
  ts_auto_execute_medium : bool
}.

Record catalog := MkCatalog {
  cat_tools : dict (option string);              (* [TOOL_REGISTRY]: the risk of each tool *)
  cat_definitions : list string;
  cat_tool_capabilities : string -> list string;
  cat_agent_capabilities : string -> list string;
  cat_restricted : list string;
  cat_trust : string -> option trust_settings
}.

Section service.
Context {codec : IsoCodec} (sha256 : string -> string) (cat : catalog).

(** [_normalize_tool_list] and [_normalize_capability_list]; [None] stands for a value that is not a list. *)
Definition normalize_tool_list (v : option (list string)) : list string :=
  match v with None => [] | Some l => sort_set (List.filter (dmem (cat_tools cat)) l) end.
Definition normalize_capability_list (v : option (list string)) : list string :=
  match v with None => [] | Some l => sort_set (List.filter (fun c => str_in c (cat_definitions cat)) l) end.

(** [_get_capabilities_for_tool] and [_get_capabilities_for_agent] *)
Definition get_capabilities_for_tool (tool : string) : list string :=
  List.filter (fun c => str_in c (cat_definitions cat)) (cat_tool_capabilities cat tool).
Definition get_capabilities_for_agent (agent_type : string) : list string :=
  let caps := cat_agent_capabilities cat agent_type in
  let caps := match caps with
              | [] => if negb (agent_type =s DEFAULT_AGENT_TYPE) then cat_agent_capabilities cat DEFAULT_AGENT_TYPE else []
              | _ => caps
              end in
  List.filter (fun c => str_in c (cat_definitions cat)) caps.

(** [get_policy_for_risk] *)
Definition get_policy_for_risk (risk : option string) : string :=
  default "gated" (dget RISK_POLICY (str_lower (str_or risk ""))).

(** [get_tool_required_capability] *)
Definition get_tool_required_capability (tool : string) : option string := head (get_capabilities_for_tool tool).

(** The tools named by the steps of a plan; [None] where a step names none. *)
Abbreviation plan := (list (option string)).

(** [get_plan_required_capabilities]: empty as soon as a tool has no capability. *)
Fixpoint collect_capabilities (steps : plan) (caps : list string) : option (list string) :=
  match steps with
  | [] => Some caps
  | None :: steps' => collect_capabilities steps' caps
  | Some tool :: steps' =>
      match get_capabilities_for_tool tool with
      | [] => None
      | tc => collect_capabilities steps' (caps ++ tc)
      end
  end.
Definition get_plan_required_capabilities (p : plan) (agent_type : string) : list string :=
  match collect_capabilities p (get_capabilities_for_agent agent_type) with
  | Some caps => sort_set caps
  | None => []
  end.

(** [_token_hash] *)
Definition token_payload (run user execution_token issued expires mode : string) (tools caps : list string) : string :=
  str_join "|" [run; user; execution_token; issued; expires; mode; str_join "," (str_sort tools); str_join "," (str_sort caps)].
Definition token_hash (run user execution_token issued expires mode : string) (tools caps : list string) : string :=
  sha256 (token_payload run user execution_token issued expires mode tools caps).

(** [get_auto_grantable_tools] *)
Definition tool_risk (tool : string) : option string := default None (dget (cat_tools cat) tool).
Definition get_auto_grantable_tools (user : string) : list string :=
  match cat_trust cat user with
  | None => []
  | Some trust =>
      match normalize_tool_list (ts_allowed_auto_grant_tools trust) with
      | [] =>
          str_sort (dkeys (List.filter (fun tr =>
            negb (str_in tr.1 (cat_restricted cat)) &&
            match tr.2 with
            | Some risk => ((risk =s "low") && ts_auto_execute_low trust) || ((risk =s "medium") && ts_auto_execute_medium trust)
            | None => false
            end) (cat_tools cat)))
      | explicit =>
          List.filter (fun t => negb (str_in t (cat_restricted cat)) && (get_policy_for_risk (tool_risk t) =s "auto_allowed")) explicit
      end
  end.

(** [get_grantable_tools]: empty when a step names no registered tool. *)
Fixpoint plan_tools (steps : plan) : option (list string) :=
  match steps with
  | [] => Some []
  | None :: _ => None
  | Some t :: steps' => if dmem (cat_tools cat) t then option_map (cons t) (plan_tools steps') else None
  end.
Definition get_grantable_tools (p : plan) (user approval_mode : string) : list string :=
  match plan_tools p with
  | None => []
  | Some tools =>
      let unique_tools := sort_set tools in
      if approval_mode =s "manual" then unique_tools
      else if forallb (fun t => str_in t (get_auto_grantable_tools user) && (get_policy_for_risk (tool_risk t) =s "auto_allowed"))
                unique_tools
      then unique_tools else []
  end.

(** ** Tokens *)
Record token := MkToken {
  tk_run_id : option string;
  tk_user_id : option string;
  tk_agent_type : option string;
  tk_execution_token : option string;
  tk_issued_at : option string;
  tk_expires_at : option string;
  tk_granted_tools : option (list string);
  tk_allowed_capabilities : option (list string);
  tk_approval_mode : option string;
  tk_token_hash : option string
}.

Definition expiry (now : Z) : Z := now + TOKEN_TTL_HOURS * 3600 * 1000000.

(** [mint_token]; [fresh] is the new [uuid4]. *)
Definition mint_token (fresh : string) (now : Z) (run user : string) (p : plan) (approval_mode agent_type : string) : option token :=
  let granted := get_grantable_tools p user approval_mode in
  if match granted, p with [], _ :: _ => true | _, _ => false end then None else
  let caps := get_plan_required_capabilities p agent_type in
  match caps with
  | [] => None
  | _ =>
      if (approval_mode =s "auto") && negb (forallb (fun t => get_policy_for_risk (tool_risk t) =s "auto_allowed") granted) then None
      else
        let issued := isoformat (utc_datetime now) in
        let expires := isoformat (utc_datetime (expiry now)) in
        Some (MkToken (Some run) (Some user) (Some (str_or (Some agent_type) DEFAULT_AGENT_TYPE)) (Some fresh) (Some issued) (Some expires)
                (Some granted) (Some caps) (Some approval_mode)
                (Some (token_hash run user fresh issued expires approval_mode granted caps)))
  end.

(** [validate_token]: the granted tools, the capabilities and the agent type, or the error *)
Definition validate_token (tok : option token) (now : Z) (run user : string) : string + (list string * list string * string) :=
  match tok with
  | None => inl "missing capability token"
  | Some tk =>
      let execution_token := default "" (tk_execution_token tk) in
      let tools := normalize_tool_list (tk_granted_tools tk) in
      let caps := normalize_capability_list (tk_allowed_capabilities tk) in
      if negb (default "" (tk_run_id tk) =s run) then inl "token run mismatch"
      else if negb (default "" (tk_user_id tk) =s user) then inl "token user mismatch"
      else if negb (truthy execution_token) then inl "missing execution token"
      else match tk_approval_mode tk with
           | Some mode =>
               if negb (str_in mode ["manual"; "auto"]) then inl "invalid approval mode" else
               match str_or_none (tk_issued_at tk), str_or_none (tk_expires_at tk), tk_token_hash tk with
               | Some issued, Some expires, Some hash =>
                   match fromisoformat expires with
                   | None => inl "invalid token expiry"
                   | Some d =>
                       if instant (ensure_utc d) <=? now then inl "capability token expired"
                       else if negb (token_hash run user execution_token issued expires mode tools caps =s hash)
                       then inl "capability token hash mismatch"
                       else inr (tools, caps, str_or (tk_agent_type tk) DEFAULT_AGENT_TYPE)
                   end
               | _, _, _ => inl "incomplete capability token"
               end
           | None => inl "invalid approval mode"
           end
  end.

(** [check_execution_capability]: [None] grants, [Some error] refuses. *)
Definition not_granted (c : string) : string := "capability '" +:+ c +:+ "' not granted by execution token".
Definition check_execution_capability (tok : option token) (now : Z) (run user capability : string) : option string :=
  match validate_token tok now run user with
  | inl e => Some e
  | inr (_, caps, _) => if str_in capability caps then None else Some (not_granted capability)
  end.

(** [check_tool_capability] *)
Definition check_tool_capability (tok : option token) (now : Z) (run user tool : string) : option string :=
  match validate_token tok now run user with
  | inl e => Some e
  | inr (tools, caps, agent_type) =>
      if negb (str_in tool tools) then Some ("tool '" +:+ tool +:+ "' not granted by capability token") else
      let required := get_capabilities_for_tool tool in
      match List.find (fun c => negb (str_in c caps)) (required ++ get_capabilities_for_agent agent_type) with
      | Some c => Some (not_granted c)
      | None => match required with
                | [] => if dmem (cat_tools cat) tool then Some ("tool '" +:+ tool +:+ "' has no registered capability mapping") else None
                | _ => None
                end
      end
  end.
End service.

Section plans.
Context (cat : catalog).
Implicit Types (p : list (option string)).

Lemma plan_tools_Some p tools : plan_tools cat p = Some tools ->
  (forall t, Some t ∈ p <-> t ∈ tools) /\ forall t, t ∈ tools -> dmem (cat_tools cat) t = true.
Proof.
  revert tools. induction p as [|[t|] p IH]; intros tools; cbn; [intros [= <-]; set_solver| |done].
  destruct (dmem (cat_tools cat) t) eqn:Ht; [|done]. destruct (plan_tools cat p) as [ts|]; [|done]. cbn. intros [= <-].
  destruct (IH ts eq_refl) as [H1 H2]. split.
  - intros t'. rewrite !elem_of_cons, H1. naive_solver.
  - intros t' [->|?]%elem_of_cons; auto.
Qed.

Lemma filter_id_elem {A} (f : A -> bool) l : (forall x, x ∈ l -> f x = true) -> forall x, x ∈ List.filter f l <-> x ∈ l.
Proof. intros Hf x. rewrite !list_elem_of_In, filter_In, <- !list_elem_of_In. naive_solver. Qed.

Lemma normalize_tools_id tools : (forall t, t ∈ tools -> dmem (cat_tools cat) t = true) ->
  normalize_tool_list cat (Some (sort_set tools)) = sort_set tools.
Proof.
  intros H. apply sort_set_eq. intros x. rewrite filter_id_elem; [apply sort_set_elem|].
  intros y Hy. rewrite sort_set_elem in Hy. exact (H y Hy).
Qed.
Lemma normalize_caps_id caps : (forall c, c ∈ caps -> c ∈ cat_definitions cat) ->
  normalize_capability_list cat (Some (sort_set caps)) = sort_set caps.
Proof.
  intros H. apply sort_set_eq. intros x. rewrite filter_id_elem; [apply sort_set_elem|].
  intros y Hy. rewrite sort_set_elem in Hy. apply str_in_spec. exact (H y Hy).
Qed.

Lemma collect_spec p caps0 caps : collect_capabilities cat p caps0 = Some caps ->
  (forall c, c ∈ caps0 -> c ∈ caps) /\
  (forall t, Some t ∈ p -> get_capabilities_for_tool cat t <> [] /\ forall c, c ∈ get_capabilities_for_tool cat t -> c ∈ caps) /\
  (forall c, c ∈ caps -> c ∈ caps0 \/ c ∈ cat_definitions cat).
Proof.
  revert caps0. induction p as [|[t|] p IH]; intros caps0; cbn.
  - intros [= <-]. set_solver.
  - destruct (get_capabilities_for_tool cat t) as [|c0 cs] eqn:Hc; [done|]. rewrite <- Hc. intros (H1&H2&H3)%IH. split_and!.
    + intros c Hin. apply H1. set_solver.
    + intros t' [[= ->]|Hin]%elem_of_cons; [|by apply H2]. split; [by rewrite Hc|]. intros c Hin. apply H1. set_solver.
    + intros c Hin. destruct (H3 c Hin) as [[?|Ht]%elem_of_app|?]; [by left|right|by right].
      apply list_elem_of_In, filter_In in Ht as [_ Ht]. by apply str_in_spec.
  - intros (H1&H2&H3)%IH. split_and!; [done| |done]. intros t Hin. apply H2. by apply elem_of_cons in Hin as [?|?].
Qed.

Lemma agent_caps_defined agent c : c ∈ get_capabilities_for_agent cat agent -> c ∈ cat_definitions cat.
Proof. intros [_ H]%list_elem_of_In%filter_In. by apply str_in_spec. Qed.

End plans.

Section minted.
Context {codec : IsoCodec} (sha256 : string -> string) (cat : catalog).
Implicit Types (p : list (option string)).

(** What a minted token contains *)
Lemma mint_token_inv fresh now run user p mode agent tok : mint_token sha256 cat fresh now run user p mode agent = Some tok ->
  exists tools caps, plan_tools cat p = Some tools /\ collect_capabilities cat p (get_capabilities_for_agent cat agent) = Some caps /\
    tok = MkToken (Some run) (Some user) (Some (str_or (Some agent) DEFAULT_AGENT_TYPE)) (Some fresh)
      (Some (isoformat (utc_datetime now))) (Some (isoformat (utc_datetime (expiry now)))) (Some (sort_set tools)) (Some (sort_set caps))
      (Some mode) (Some (token_hash sha256 run user fresh (isoformat (utc_datetime now)) (isoformat (utc_datetime (expiry now))) mode
        (sort_set tools) (sort_set caps))).
Proof.
  unfold mint_token, get_plan_required_capabilities.
  assert (forall g, get_grantable_tools cat p user mode = g -> (match g, p with [], _ :: _ => true | _, _ => false end) = false ->
    exists tools, plan_tools cat p = Some tools /\ g = sort_set tools) as Hg.
  { intros g <-. unfold get_grantable_tools. destruct (plan_tools cat p) as [tools|] eqn:Hp; [|by destruct p as [|[]]].
    destruct (mode =s "manual"); [by exists tools|]. destruct (forallb _ _); [by exists tools|].
    destruct p; [|done]. intros _. cbn in Hp. simplify_eq. by exists []. }
  destruct (match get_grantable_tools cat p user mode, p with [], _ :: _ => true | _, _ => false end) eqn:Hc; [done|].
  destruct (Hg _ eq_refl Hc) as (tools&Ht&Heq). rewrite Heq.
  destruct (collect_capabilities cat p _) as [caps|] eqn:Hcol; [|done].
  destruct (sort_set caps) as [|c0 cs] eqn:Hcs; [done|]. destruct (_ && _); [done|].
  intros [= <-]. exists tools, caps. by rewrite Hcs.
Qed.

(** A minted token validates until it expires. *)
Lemma validate_minted fresh now run user p mode agent tok now' :
  mint_token sha256 cat fresh now run user p mode agent = Some tok -> fresh <> "" -> agent <> "" -> str_in mode ["manual"; "auto"] = true ->
  exists tools caps, plan_tools cat p = Some tools /\ collect_capabilities cat p (get_capabilities_for_agent cat agent) = Some caps /\
    validate_token sha256 cat (Some tok) now' run user =
      if expiry now <=? now' then inl "capability token expired" else inr (sort_set tools, sort_set caps, agent).
Proof.
  intros Hm Hf Ha Hmode. destruct (mint_token_inv _ _ _ _ _ _ _ _ Hm) as (tools&caps&Ht&Hc&->).
  exists tools, caps. split; [done|]. split; [done|]. unfold validate_token. cbn [from_option id tk_run_id tk_user_id tk_execution_token
    tk_approval_mode tk_issued_at tk_expires_at tk_token_hash tk_granted_tools tk_allowed_capabilities tk_agent_type].
  rewrite !String.eqb_refl, (proj2 (truthy_true fresh) Hf), Hmode. cbn [negb].
  rewrite (proj2 (str_or_none_Some (Some (isoformat (utc_datetime now))) _) (conj eq_refl (isoformat_nonempty _))),
    (proj2 (str_or_none_Some (Some (isoformat (utc_datetime (expiry now)))) _) (conj eq_refl (isoformat_nonempty _))), fromisoformat_isoformat.
  destruct (collect_spec cat _ _ _ Hc) as (_&_&Hdef).
  rewrite normalize_tools_id by (by apply plan_tools_Some in Ht as [_ ?]).
  rewrite normalize_caps_id by (intros c [Hin|?]%Hdef; [by apply agent_caps_defined in Hin|done]).
  change (instant (ensure_utc (utc_datetime (expiry now)))) with (expiry now - 0). rewrite Z.sub_0_r.
  destruct (expiry now <=? now'); [done|]. rewrite String.eqb_refl. cbn [negb].
  unfold str_or. rewrite (proj2 (str_or_none_Some (Some agent) agent) (conj eq_refl Ha)).
  by rewrite (proj2 (str_or_none_Some (Some agent) agent) (conj eq_refl Ha)).
Qed.

(** Before its expiry a minted token allows exactly the tools of its plan. *)
Lemma minted_check fresh now run user p mode agent tok tool now' :
  mint_token sha256 cat fresh now run user p mode agent = Some tok -> fresh <> "" -> agent <> "" -> str_in mode ["manual"; "auto"] = true ->
  now' < expiry now -> check_tool_capability sha256 cat (Some tok) now' run user tool = None <-> Some tool ∈ p.
Proof.
  intros Hm Hf Ha Hmode Hn. destruct (validate_minted _ _ _ _ _ _ _ _ now' Hm Hf Ha Hmode) as (tools&caps&Ht&Hc&Hv).
  unfold check_tool_capability. rewrite Hv. destruct (Z.leb_spec (expiry now) now'); [lia|].
  destruct (plan_tools_Some cat p tools Ht) as [Hp _]. destruct (collect_spec cat p _ _ Hc) as (Hagent&Htool&_).
  destruct (str_in tool (sort_set tools)) eqn:Hin; cbn [negb].
  - apply str_in_spec in Hin. rewrite sort_set_elem, <- Hp in Hin. destruct (Htool tool Hin) as [Hne Hsub]. split; [done|]. intros _.
    destruct (List.find _ _) as [c|] eqn:Hfind.
    + apply find_some in Hfind as [Hc1 Hc2]. apply list_elem_of_In, elem_of_app in Hc1.
      assert (c ∈ caps) as Hcc by (destruct Hc1; auto). rewrite <- sort_set_elem, <- str_in_spec in Hcc. by rewrite Hcc in Hc2.
    + by destruct (get_capabilities_for_tool cat tool).
  - split; [done|]. intros Hq. rewrite Hp, <- sort_set_elem, <- str_in_spec in Hq. congruence.
Qed.
End minted.

(** the scope of a minted token.  Until it expires a token that [mint_token]
    issued allows exactly the tools of the plan it was minted for; from its expiry
    on, and for any other run or user, every tool is refused. *)
Theorem minted_token_scope `{!IsoCodec} sha256 cat fresh now run user p mode agent tok tool :
  mint_token sha256 cat fresh now run user p mode agent = Some tok -> fresh <> "" -> agent <> "" -> str_in mode ["manual"; "auto"] = true ->
  (forall now', now' < expiry now -> check_tool_capability sha256 cat (Some tok) now' run user tool = None <-> Some tool ∈ p) /\
  (forall now', expiry now <= now' -> check_tool_capability sha256 cat (Some tok) now' run user tool = Some "capability token expired") /\
  (forall now' run' user', run' <> run \/ user' <> user -> check_tool_capability sha256 cat (Some tok) now' run' user' tool <> None).
Proof.
  intros Hm Hf Ha Hmode. split_and!.
  - intros now' Hn. by apply (minted_check sha256 cat fresh now run user p mode agent).
  - intros now' Hn. destruct (validate_minted sha256 cat _ _ _ _ _ _ _ _ now' Hm Hf Ha Hmode) as (tools&caps&_&_&Hv).
    unfold check_tool_capability. rewrite Hv. destruct (Z.leb_spec (expiry now) now'); [done|lia].
  - intros now' run' user' Hne. destruct (mint_token_inv _ _ _ _ _ _ _ _ _ _ Hm) as (tools&caps&_&_&->).
    unfold check_tool_capability, validate_token. cbn [from_option id tk_run_id tk_user_id].
    destruct (run =s run') eqn:H1; [|done]. destruct (user =s user') eqn:H2; [|done].
    apply String.eqb_eq in H1, H2. naive_solver.
Qed.

(** Plans that can be approved: registered tools, all with capabilities, and a capability in any case *)
Definition mintable (cat : catalog) (p : list (option string)) (agent capability : string) : Prop :=
  (exists tools, plan_tools cat p = Some tools) /\
  exists caps, collect_capabilities cat p (get_capabilities_for_agent cat agent) = Some caps /\ capability ∈ caps.

Lemma mintable_mint `{!IsoCodec} sha256 cat fresh now run user p agent capability : mintable cat p agent capability ->
  exists tok, mint_token sha256 cat fresh now run user p "manual" agent = Some tok.
Proof.
  intros [[tools Ht] (caps&Hc&Hin)]. unfold mint_token, get_grantable_tools, get_plan_required_capabilities. rewrite Ht, Hc.
  change ("manual" =s "manual") with true. cbv iota. rewrite <- sort_set_elem in Hin.
  assert (match sort_set tools, p with [], _ :: _ => true | _, _ => false end = false) as ->.
  { destruct p as [|[t|] p']; [by destruct (sort_set tools)| |done]. destruct (sort_set tools) as [|t0 ts] eqn:He; [|done].
    destruct (plan_tools_Some cat _ _ Ht) as [Hp _]. assert (t ∈ tools) as Ht0 by (apply Hp; left). rewrite <- sort_set_elem, He in Ht0. by apply elem_of_nil in Ht0. }
  destruct (sort_set caps); [by apply elem_of_nil in Hin|]. by eexists.
Qed.
Lemma mintable_execution `{!IsoCodec} sha256 cat fresh now run user p agent capability tok now' : mintable cat p agent capability ->
  mint_token sha256 cat fresh now run user p "manual" agent = Some tok -> fresh <> "" -> agent <> "" -> now' < expiry now ->
  check_execution_capability sha256 cat (Some tok) now' run user capability = None.
Proof.
  intros [_ (caps&Hc&Hin)] Hm Hf Ha Hn. destruct (validate_minted sha256 cat _ _ _ _ _ _ _ _ now' Hm Hf Ha eq_refl) as (tools&caps'&_&Hc'&Hv).
  unfold check_execution_capability. rewrite Hv. destruct (Z.leb_spec (expiry now) now'); [lia|].
  assert (caps' = caps) as -> by congruence. rewrite <- sort_set_elem, <- str_in_spec in Hin. by rewrite Hin.
Qed.

(** ** Integrity of tokens *)

Lemma cut_inj c x x' r r' : str_has c x = false -> str_has c x' = false ->
  x +:+ String c r = x' +:+ String c r' -> x = x' /\ r = r'.
Proof. intros Hx Hx' He. apply (f_equal (str_cut c)) in He. rewrite !str_cut_app in He by done. by simplify_eq. Qed.

(** Lists of non-empty names without the separator are determined by their join. *)
Definition plain_name (n : string) : bool := truthy n && negb (str_has "|"%char n) && negb (str_has ","%char n).

Lemma plain_name_true n : plain_name n = true <-> n <> "" /\ str_has "|"%char n = false /\ str_has ","%char n = false.
Proof. unfold plain_name. rewrite !andb_true_iff, truthy_true, !negb_true_iff. naive_solver. Qed.

Lemma join_cons2 sep x y l : str_join sep (x :: y :: l) = x +:+ sep +:+ str_join sep (y :: l).
Proof. done. Qed.

Lemma join_names_inj l1 l2 : Forall (fun n => plain_name n = true) l1 -> Forall (fun n => plain_name n = true) l2 ->
  str_join "," l1 = str_join "," l2 -> l1 = l2.
Proof.
  intros H1. revert l2. induction H1 as [|x l1 (Hx&_&Hxc)%plain_name_true H1 IH]; intros l2 H2;
    destruct H2 as [|y l2 (Hy&_&Hyc)%plain_name_true H2].
  - done.
  - destruct l2; cbn; intros He; [congruence|]. by destruct y.
  - destruct l1; cbn; intros He; [congruence|]. by destruct x.
  - destruct l1 as [|x' l1], l2 as [|y' l2]; rewrite ?join_cons2.
    + intros He. by f_equal.
    + change (str_join "," [x]) with x. intros ->. change ("," +:+ str_join "," (y' :: l2)) with (String ","%char (str_join "," (y' :: l2))) in Hxc.
      rewrite str_has_app in Hxc. cbn in Hxc. by rewrite orb_true_r in Hxc.
    + change (str_join "," [y]) with y. intros <-. change ("," +:+ str_join "," (x' :: l1)) with (String ","%char (str_join "," (x' :: l1))) in Hyc.
      rewrite str_has_app in Hyc. cbn in Hyc. by rewrite orb_true_r in Hyc.
    + intros He. apply (cut_inj ","%char) in He as [-> He]; [|done..]. f_equal. by apply IH.
Qed.

Lemma join_no_bar l : Forall (fun n => plain_name n = true) l -> str_has "|"%char (str_join "," l) = false.
Proof.
  induction 1 as [|x l (_&Hx&_)%plain_name_true Hl IH]; [done|]. destruct l as [|y l]; [done|].
  rewrite join_cons2, !str_has_app, Hx, IH. done.
Qed.

(** The hashed text determines its parts. *)
Lemma token_payload_inj run user e1 i1 x1 m1 t1 c1 e2 i2 x2 m2 t2 c2 :
  Forall (fun s => str_has "|"%char s = false) [e1; i1; x1; m1; e2; i2; x2; m2] ->
  Forall (fun n => plain_name n = true) (t1 ++ t2) -> Forall (fun n => plain_name n = true) (c1 ++ c2) ->
  Sorted String.le t1 -> Sorted String.le t2 -> Sorted String.le c1 -> Sorted String.le c2 ->
  token_payload run user e1 i1 x1 m1 t1 c1 = token_payload run user e2 i2 x2 m2 t2 c2 ->
  e1 = e2 /\ i1 = i2 /\ x1 = x2 /\ m1 = m2 /\ t1 = t2 /\ c1 = c2.
Proof.
  intros Hb [Ht1 Ht2]%Forall_app [Hc1 Hc2]%Forall_app St1 St2 Sc1 Sc2. unfold token_payload. rewrite !join_cons2.
  assert (forall l, Sorted String.le l -> str_sort l = l) as Hsort.
  { intros l Hl. apply (Sorted_unique String.le); [apply str_sort_sorted|done|apply str_sort_perm]. }
  rewrite (Hsort t1), (Hsort t2), (Hsort c1), (Hsort c2) by done.
  repeat match goal with H : Forall _ (_ :: _) |- _ => apply Forall_cons in H as [? H] end.
  pose proof (join_no_bar _ Ht1). pose proof (join_no_bar _ Ht2). intros He.
  apply (inj (String.app run)) in He. apply (inj (String.app "|")) in He. apply (inj (String.app user)) in He. apply (inj (String.app "|")) in He.
  apply (cut_inj "|"%char) in He as [-> He]; [|done..]. apply (cut_inj "|"%char) in He as [-> He]; [|done..].
  apply (cut_inj "|"%char) in He as [-> He]; [|done..]. apply (cut_inj "|"%char) in He as [-> He]; [|done..].
  apply (cut_inj "|"%char) in He as [He1 He2]; [|done..]. split_and!; try done; by apply join_names_inj.
Qed.

Lemma validate_token_inv `{!IsoCodec} sha256 cat tk now run user tools caps agent :
  validate_token sha256 cat (Some tk) now run user = inr (tools, caps, agent) ->
  exists e i x m, tk_execution_token tk = Some e /\ tk_issued_at tk = Some i /\ tk_expires_at tk = Some x /\ tk_approval_mode tk = Some m /\
    str_in m ["manual"; "auto"] = true /\ tools = normalize_tool_list cat (tk_granted_tools tk) /\
    caps = normalize_capability_list cat (tk_allowed_capabilities tk) /\
    tk_token_hash tk = Some (token_hash sha256 run user e i x m tools caps).
Proof.
  unfold validate_token. destruct (negb _); [done|]. destruct (negb _); [done|].
  destruct (tk_execution_token tk) as [e|]; cbn [from_option id]; [|done]. destruct (negb (truthy e)); [done|].
  destruct (tk_approval_mode tk) as [m|]; [|done]. destruct (str_in m _) eqn:Hm; cbn [negb]; [|done].
  destruct (str_or_none (tk_issued_at tk)) as [i|] eqn:Hi; [|done]. destruct (str_or_none (tk_expires_at tk)) as [x|] eqn:Hx; [|done].
  destruct (tk_token_hash tk) as [h|]; [|done]. destruct (fromisoformat x) as [d|]; [|done].
  destruct (_ <=? now); [done|]. destruct (_ =s h) eqn:Hh; cbn [negb]; [|done]. apply String.eqb_eq in Hh as <-.
  apply str_or_none_Some in Hi as [Hi _]. apply str_or_none_Some in Hx as [Hx _]. intros [= <- <- <-].
  exists e, i, x, m. by split_and!.
Qed.

(** tampering.  With a hash without collisions, two tokens that carry the same
    hash and validate for the same run and user agree on the execution token, the
    times, the approval mode, the granted tools and the capabilities: a token whose
    scope was changed after minting is refused.  (Registered names contain neither
    separator, and the text fields no bar.) *)
Theorem token_tampering_detected `{!IsoCodec} sha256 cat tk1 tk2 now1 now2 run user r1 r2 :
  Inj (=) (=) sha256 ->
  Forall (fun n => plain_name n = true) (dkeys (cat_tools cat) ++ cat_definitions cat) ->
  Forall (fun o => forall s, o = Some s -> str_has "|"%char s = false)
    [tk_execution_token tk1; tk_issued_at tk1; tk_expires_at tk1; tk_execution_token tk2; tk_issued_at tk2; tk_expires_at tk2] ->
  tk_token_hash tk1 = tk_token_hash tk2 ->
  validate_token sha256 cat (Some tk1) now1 run user = inr r1 -> validate_token sha256 cat (Some tk2) now2 run user = inr r2 ->
  r1.1 = r2.1 /\ tk_execution_token tk1 = tk_execution_token tk2 /\ tk_issued_at tk1 = tk_issued_at tk2 /\
  tk_expires_at tk1 = tk_expires_at tk2 /\ tk_approval_mode tk1 = tk_approval_mode tk2.
Proof.
  intros Hinj [Hpt Hpc]%Forall_app Hbar Hh Hv1 Hv2. destruct r1 as [[t1 c1] a1], r2 as [[t2 c2] a2].
  destruct (validate_token_inv _ _ _ _ _ _ _ _ _ Hv1) as (e1&i1&x1&m1&E1&I1&X1&M1&Hm1&Ht1&Hc1&H1).
  destruct (validate_token_inv _ _ _ _ _ _ _ _ _ Hv2) as (e2&i2&x2&m2&E2&I2&X2&M2&Hm2&Ht2&Hc2&H2).
  rewrite H1, H2 in Hh. injection Hh as Hh. apply Hinj in Hh.
  repeat match goal with H : Forall _ (_ :: _) |- _ => apply Forall_cons in H as [? H] end.
  assert (forall m, str_in m ["manual"; "auto"] = true -> str_has "|"%char m = false) as Hmode.
  { intros m Hm%str_in_spec. rewrite !elem_of_cons, elem_of_nil in Hm. by destruct Hm as [->|[->|[]]]. }
  assert (forall v t, t = normalize_tool_list cat v -> Forall (fun n => plain_name n = true) t /\ Sorted String.le t) as Htools.
  { intros [l|] t ->; [|by split; constructor]. split; [|apply str_sort_sorted]. apply Forall_forall. intros n Hn.
    cbn in Hn. rewrite sort_set_elem, list_elem_of_In, filter_In in Hn. destruct Hn as [_ Hn%dmem_spec]. rewrite Forall_forall in Hpt. auto. }
  assert (forall v t, t = normalize_capability_list cat v -> Forall (fun n => plain_name n = true) t /\ Sorted String.le t) as Hcaps.
  { intros [l|] t ->; [|by split; constructor]. split; [|apply str_sort_sorted]. apply Forall_forall. intros n Hn.
    cbn in Hn. rewrite sort_set_elem, list_elem_of_In, filter_In in Hn. destruct Hn as [_ Hn%str_in_spec]. rewrite Forall_forall in Hpc. auto. }
  destruct (Htools _ _ Ht1), (Htools _ _ Ht2), (Hcaps _ _ Hc1), (Hcaps _ _ Hc2).
  apply token_payload_inj in Hh as (->&->&->&->&->&->).
  - split_and!; [done|congruence..].
  - repeat constructor; auto.
  - by apply Forall_app.
  - by apply Forall_app.
  - done.
  - done.
  - done.
  - done.
Qed.

(** the hash is not a signature.  [_token_hash] uses no secret, so a token for
    any registered tools and capabilities, any run, any user and any agent type can
    be computed without [mint_token], and [validate_token] accepts it. *)
Theorem token_forgeable `{!IsoCodec} sha256 cat now run user tools caps agent :
  Forall (fun t => dmem (cat_tools cat) t = true) tools -> Forall (fun c => c ∈ cat_definitions cat) caps -> agent <> "" ->
  exists tk, tk_token_hash tk = Some (sha256 (token_payload run user "x" (isoformat (utc_datetime now))
      (isoformat (utc_datetime (now + 1))) "manual" (sort_set tools) (sort_set caps))) /\
    validate_token sha256 cat (Some tk) now run user = inr (sort_set tools, sort_set caps, agent).
Proof.
  intros Ht Hc Ha. rewrite Forall_forall in Ht, Hc.
  exists (MkToken (Some run) (Some user) (Some agent) (Some "x") (Some (isoformat (utc_datetime now)))
    (Some (isoformat (utc_datetime (now + 1)))) (Some (sort_set tools)) (Some (sort_set caps)) (Some "manual")
    (Some (sha256 (token_payload run user "x" (isoformat (utc_datetime now)) (isoformat (utc_datetime (now + 1))) "manual" (sort_set tools) (sort_set caps))))).
  split; [done|]. unfold validate_token. cbn [from_option id tk_run_id tk_user_id tk_execution_token
    tk_approval_mode tk_issued_at tk_expires_at tk_token_hash tk_granted_tools tk_allowed_capabilities tk_agent_type].
  rewrite !String.eqb_refl. cbn [negb truthy str_in existsb]. change ("manual" =s "manual") with true. cbn [orb negb].
  rewrite (proj2 (str_or_none_Some (Some (isoformat (utc_datetime now))) _) (conj eq_refl (isoformat_nonempty _))),
    (proj2 (str_or_none_Some (Some (isoformat (utc_datetime (now + 1)))) _) (conj eq_refl (isoformat_nonempty _))), fromisoformat_isoformat.
  rewrite (normalize_tools_id cat) by done. rewrite (normalize_caps_id cat) by done.
  change (instant (ensure_utc (utc_datetime (now + 1)))) with (now + 1 - 0).
  destruct (Z.leb_spec (now + 1 - 0) now); [lia|]. unfold token_hash. rewrite String.eqb_refl. cbn [negb].
  unfold str_or. by rewrite (proj2 (str_or_none_Some (Some agent) agent) (conj eq_refl Ha)).
Qed.

(** ** A small catalogue *)
Definition demo_catalog : catalog :=
  MkCatalog [("search", Some "low"); ("deploy", Some "high")] ["agent.run"; "web.read"; "prod.write"]
    (fun t => if t =s "search" then ["web.read"] else if t =s "deploy" then ["prod.write"] else [])
    (fun _ => ["agent.run"]) ["deploy"] (fun _ => None).
Definition demo_mint : option token :=
  mint_token (fun s => s) demo_catalog "tok-1" 0 "run-1" "user-1" [Some "search"] "manual" "default".
Definition demo_token : token := default (MkToken None None None None None None None None None None) demo_mint.

Lemma minted_token_scope_witness :
  check_tool_capability (fun s => s) demo_catalog (Some demo_token) 5 "run-1" "user-1" "search" = None /\
  check_tool_capability (fun s => s) demo_catalog (Some demo_token) (expiry 0) "run-1" "user-1" "search" = Some "capability token expired".
Proof.
  destruct (minted_token_scope (fun s => s) demo_catalog "tok-1" 0 "run-1" "user-1" [Some "search"] "manual" "default" demo_token "search")
    as (H1&H2&_).
  - vm_compute. reflexivity.
  - discriminate.
  - discriminate.
  - reflexivity.
  - split; [|apply H2; apply Z.le_refl]. apply H1; [vm_compute; reflexivity|]. by_evaluation.
Defined.

(** The same token with another agent type, which the hash does not cover *)
Definition demo_token' : token :=
  MkToken (tk_run_id demo_token) (tk_user_id demo_token) (Some "other") (tk_execution_token demo_token) (tk_issued_at demo_token)
    (tk_expires_at demo_token) (tk_granted_tools demo_token) (tk_allowed_capabilities demo_token) (tk_approval_mode demo_token)
    (tk_token_hash demo_token).

Lemma token_tampering_detected_witness :
  tk_agent_type demo_token <> tk_agent_type demo_token' /\ tk_approval_mode demo_token = tk_approval_mode demo_token'.
Proof.
  split; [vm_compute; discriminate|].
  refine (proj2 (proj2 (proj2 (proj2 (token_tampering_detected (fun s => s) demo_catalog demo_token demo_token' 5 6 "run-1" "user-1"
    (["search"], ["agent.run"; "web.read"], "default") (["search"], ["agent.run"; "web.read"], "other") (fun x y H => H) _ _ _ _ _))))).
  - by_evaluation.
  - repeat (apply Forall_cons_2; [intros s Hs; vm_compute in Hs; injection Hs as <-; vm_compute; reflexivity|]). apply Forall_nil_2.
  - reflexivity.
  - vm_compute. reflexivity.
  - vm_compute. reflexivity.
Defined.

Lemma token_forgeable_witness :
  exists tk, tk_token_hash tk = Some (token_payload "run-1" "user-1" "x" (isoformat (utc_datetime 0)) (isoformat (utc_datetime 1)) "manual"
      (sort_set ["deploy"]) (sort_set ["agent.run"; "prod.write"])) /\
    validate_token (fun s => s) demo_catalog (Some tk) 0 "run-1" "user-1" = inr (sort_set ["deploy"], sort_set ["agent.run"; "prod.write"], "default").
Proof.
  apply (token_forgeable (fun s => s) demo_catalog 0 "run-1" "user-1" ["deploy"] ["agent.run"; "prod.write"] "default").
  - by_evaluation.
  - by_evaluation.
  - discriminate.
Defined.
