(* ===== verification/BootGraph.v ===== *)
(** * Boot order of applications

    [AINDY/platform_layer/bootstrap_graph.py] and
    [AINDY/platform_layer/bootstrap_contract.py]: Kahn's algorithm in two variants
    and the searches for dependency cycles that explain a failure.  A graph is the
    dictionary from applications to their declared dependencies.  The loops carry
    fuel; the lemmas show that the number of applications is enough. *)
From S2P Require Import Prelude.
Local Open Scope Z_scope.

Abbreviation graph := (dict (list string)).
Definition deps_of (g : graph) (a : string) : list string := default [] (dget g a).

(** [list(dict.fromkeys(xs))]: the first occurrence of each element *)
Fixpoint dedup (seen l : list string) : list string :=
  match l with
  | [] => []
  | x :: l' => if str_in x seen then dedup seen l' else x :: dedup (x :: seen) l'
  end.

(** ** Kahn's loop *)

(** [indegree[y] -= 1], and [y] joins the queue when its counter reaches zero. *)
Definition relax (push : list string -> string -> list string) (s : gmap string Z * list string) (y : string) : gmap string Z * list string :=
  let n := default 0 (s.1 !! y) - 1 in
  (<[y := n]> s.1, if n =? 0 then push s.2 y else s.2).

Fixpoint kahn (fuel : nat) (push : list string -> string -> list string) (dependents : string -> list string)
    (queue : list string) (indegree : gmap string Z) (ordered : list string) : option (list string) :=
  match fuel with
  | O => None
  | S f =>
      match queue with
      | [] => Some ordered
      | x :: queue' =>
          let s := foldl (relax push) (indegree, queue') (dependents x) in
          kahn f push dependents s.2 s.1 (ordered ++ [x])
      end
  end.

(** [adjacency[d].append(a)] for each dependency of each application *)
Definition add_edges (adj : gmap string (list string)) (a : string) (ds : list string) : gmap string (list string) :=
  foldl (fun m d => <[d := default [] (m !! d) ++ [a]]> m) adj ds.
Definition adjacency (g : list (string * list string)) : gmap string (list string) :=
  foldl (fun m ad => add_edges m ad.1 ad.2) ∅ g.
Definition neighbours (m : gmap string (list string)) (x : string) : list string := default [] (m !! x).

Definition degrees (g : list (string * list string)) : gmap string Z :=
  foldl (fun m ad => <[ad.1 := Z.of_nat (length ad.2)]> m) ∅ g.

(** ** [_find_cycle] *)

(** [visiting[stack_index[d]:]] *)
Fixpoint from_first (d : string) (l : list string) : list string :=
  match l with [] => [] | x :: l' => if x =s d then l else from_first d l' end.

Section find_cycle.
Context (g : graph) (blocked : string -> bool).

Definition visit_deps (visit : string -> list string -> list string * option (list string)) (stack : list string)
    : list string -> list string -> list string * option (list string) :=
  fix go ds visited :=
    match ds with
    | [] => (visited, None)
    | d :: ds' =>
        if negb (blocked d) then go ds' visited
        else if str_in d stack then (visited, Some (from_first d stack ++ [d]))
        else if str_in d visited then go ds' visited
        else match visit d visited with
             | (v, Some c) => (v, Some c)
             | (v, None) => go ds' v
             end
    end.
Fixpoint visit (fuel : nat) (stack : list string) (node : string) (visited : list string) : list string * option (list string) :=
  match fuel with
  | O => (visited, None)
  | S f => visit_deps (visit f (stack ++ [node])) (stack ++ [node]) (deps_of g node) (node :: visited)
  end.
Fixpoint find_cycle_from (nodes visited : list string) : list string :=
  match nodes with
  | [] => []
  | n :: nodes' =>
      if blocked n && negb (str_in n visited) then
        match visit (S (length g)) [] n visited with
        | (_, Some c) => c
        | (v, None) => find_cycle_from nodes' v
        end
      else find_cycle_from nodes' visited
  end.
Definition find_cycle : list string := find_cycle_from (dkeys g) [].
End find_cycle.

(** ** [resolve_boot_order] *)
Definition missing_dependency (g : graph) : option (string * string) :=
  head (flat_map (fun ad => map (fun d => (ad.1, d)) (List.filter (fun d => negb (dmem g d)) ad.2)) g).

Definition append (q : list string) (y : string) : list string := q ++ [y].
Definition unique_deps (g : graph) : graph := map (fun ad => (ad.1, dedup [] ad.2)) g.

Definition resolve_boot_order (g : graph) : result (list string) :=
  match g with
  | [] => Ok []
  | _ =>
      match missing_dependency g with
      | Some (a, d) => Raise (Exn "RuntimeError" ("App '" +:+ a +:+ "' declares dependency on '" +:+ d +:+ "' but no such app is registered."))
      | None =>
          let u := unique_deps g in
          let indegree := degrees u in
          let queue := List.filter (fun a => default 0 (indegree !! a) =? 0) (dkeys g) in
          match kahn (S (length g)) append (neighbours (adjacency u)) queue indegree [] with
          | None => Raise (Exn "" "")
          | Some ordered =>
              if Nat.eqb (length ordered) (length g) then Ok ordered else
              match find_cycle g (fun a => dmem g a && negb (str_in a ordered)) with
              | [] => Raise (Exn "RuntimeError" "Bootstrap dependency cycle detected.")
              | cycle => Raise (Exn "RuntimeError" ("Bootstrap dependency cycle detected: " +:+ str_join " → " cycle))
              end
          end
      end
  end.

(** ** [bootstrap_contract] *)

(** [find_missing_dependencies]; an application listed twice sets the same entry again *)
Definition find_missing_dependencies (registered : list string) (g : graph) : list (string * list string) :=
  flat_map (fun a => match str_sort (List.filter (fun d => negb (str_in d registered)) (deps_of g a)) with
                     | [] => []
                     | unresolved => [(a, unresolved)]
                     end) (dedup [] (str_sort registered)).

(** [find_circular_dependencies]: the cycles found so far, in order *)
Section circular.
Context (g : graph).

Definition circ_deps (visit : string -> list string * list (list string) -> list string * list (list string)) (stack : list string)
    : list string -> list string * list (list string) -> list string * list (list string) :=
  fix go ds s :=
    match ds with
    | [] => s
    | d :: ds' =>
        if negb (dmem g d) then go ds' s
        else if str_in d stack then
          let cycle := from_first d stack ++ [d] in
          go ds' (s.1, if decide (cycle ∈ s.2) then s.2 else s.2 ++ [cycle])
        else go ds' (visit d s)
    end.
Fixpoint circ_visit (fuel : nat) (stack : list string) (node : string) (s : list string * list (list string))
    : list string * list (list string) :=
  match fuel with
  | O => s
  | S f =>
      if str_in node s.1 then s else
      let s' := circ_deps (circ_visit f (stack ++ [node])) (stack ++ [node]) (str_sort (deps_of g node)) s in
      (node :: s'.1, s'.2)
  end.
Definition find_circular_dependencies : list (list string) :=
  (foldl (fun s n => circ_visit (S (length g)) [] n s) ([], []) (str_sort (dkeys g))).2.
End circular.

(** [compute_boot_order] *)
Definition push_sorted (q : list string) (y : string) : list string := str_sort (q ++ [y]).
Definition known_deps (g : graph) : graph :=
  map (fun ad => (ad.1, List.filter (dmem g) (sort_set ad.2))) g.

Definition compute_boot_order (g : graph) : result (list string) :=
  match find_circular_dependencies g with
  | [] =>
      let u := known_deps g in
      let in_degree := degrees u in
      let ready := str_sort (List.filter (fun a => default 0 (in_degree !! a) =? 0) (dkeys g)) in
      match kahn (S (length g)) push_sorted (fun x => str_sort (neighbours (adjacency u) x)) ready in_degree [] with
      | None => Raise (Exn "" "")
      | Some order =>
          if Nat.eqb (length order) (length g) then Ok order
          else Raise (Exn "BootstrapDependencyError" "Unable to compute boot order due to a dependency cycle.")
      end
  | cycles => Raise (Exn "BootstrapDependencyError" ("Circular dependencies detected: " +:+ str_join "; " (map (str_join " -> ") cycles)))
  end.

(** [validate_bootstrap_manifest] *)
Definition newline : string := String "010"%char "".
Definition validate_bootstrap_manifest (apps core : list string) (declared : graph) : result unit :=
  let registered := sort_set apps in
  let missing_core := List.filter (fun c => negb (str_in c registered)) (sort_set core) in
  let missing := find_missing_dependencies registered declared in
  let cycles := find_circular_dependencies (map (fun a => (a, deps_of declared a)) registered) in
  match missing_core, missing, cycles with
  | [], [], [] => Ok ()
  | _, _, _ =>
      let lines := ["Bootstrap validation failed:"; ""] ++
        (match missing_core with [] => [] | _ =>
           ["MISSING CORE DOMAINS:"; "  Missing required core domains: " +:+ py_repr_list missing_core; ""] end) ++
        (match missing with [] => [] | _ =>
           "MISSING DECLARED DEPENDENCIES:" :: map (fun ad => "  " +:+ ad.1 +:+ ": declares missing dependencies " +:+ py_repr_list ad.2) missing ++ [""] end) ++
        (match cycles with [] => [] | _ =>
           "CIRCULAR DEPENDENCIES:" :: map (fun c => "  Cycle detected: " +:+ str_join " -> " c) cycles ++ [""] end) ++
        ["Fix: update bootstrap dependency declarations for registered plugins."] in
      Raise (Exn "BootstrapDependencyError" (str_join newline lines))
  end.

(** ** Correctness of the loop *)
Lemma NoDup_incl_length' (l k : list string) : NoDup l -> (forall a, a ∈ l -> a ∈ k) -> (length l <= length k)%nat.
Proof. intros Hl Hk. apply submseteq_length, NoDup_submseteq; done. Qed.

Section kahn_correct.
Context (apps : list string) (deps : string -> list string) (push : list string -> string -> list string) (dependents : string -> list string).
Hypothesis Happs : NoDup apps.
Hypothesis Hdeps : forall a, NoDup (deps a).
Hypothesis Hpush : forall q y, push q y ≡ₚ q ++ [y].
Hypothesis Hdep_nodup : forall x, NoDup (dependents x).
Hypothesis Hdependents : forall x y, y ∈ dependents x <-> y ∈ apps /\ x ∈ deps y.

(** The dependencies of [a] that are not in [l] *)
Definition remaining (l : list string) (a : string) : Z := Z.of_nat (length (List.filter (fun d => negb (str_in d l)) (deps a))).

Lemma remaining_zero l a : remaining l a = 0 <-> forall d, d ∈ deps a -> d ∈ l.
Proof.
  unfold remaining. split.
  - intros H d Hd. destruct (str_in d l) eqn:E; [by apply str_in_spec|]. exfalso.
    assert (d ∈ List.filter (fun d => negb (str_in d l)) (deps a)) as Hin.
    { apply list_elem_of_In, filter_In. rewrite E. by rewrite <- list_elem_of_In. }
    destruct (List.filter _ _); [by apply elem_of_nil in Hin|cbn in H; lia].
  - intros H. destruct (List.filter _ _) as [|d ds] eqn:E; [done|]. exfalso.
    assert (d ∈ List.filter (fun d => negb (str_in d l)) (deps a)) as Hin by (rewrite E; left).
    apply list_elem_of_In, filter_In in Hin as [Hd Hn]. rewrite <- list_elem_of_In in Hd. apply H, str_in_spec in Hd. by rewrite Hd in Hn.
Qed.

Lemma remaining_snoc l x a : x ∉ l -> remaining (l ++ [x]) a = remaining l a - (if str_in x (deps a) then 1 else 0).
Proof.
  intros Hx. unfold remaining. specialize (Hdeps a). induction (deps a) as [|d ds IH]; [done|].
  apply NoDup_cons in Hdeps as [Hd Hds]. specialize (IH Hds). cbn [List.filter].
  assert (str_in d (l ++ [x]) = str_in d l || (d =s x)) as ->.
  { unfold str_in. rewrite existsb_app. cbn. by rewrite orb_false_r. }
  change (str_in x (d :: ds)) with ((x =s d) || str_in x ds). rewrite (String.eqb_sym x d).
  destruct (d =s x) eqn:E.
  - apply String.eqb_eq in E as ->. rewrite (proj2 (str_in_false x l) Hx). cbn.
    rewrite (proj2 (str_in_false x ds) Hd) in IH. unfold str_in in *. lia.
  - rewrite orb_false_r. cbn [orb]. destruct (str_in d l); cbn [negb length]; unfold str_in in *; destruct (existsb _ ds); lia.
Qed.

Lemma relax_fold ys m q : NoDup ys ->
  let s := foldl (relax push) (m, q) ys in
  (forall a, default 0 (s.1 !! a) = default 0 (m !! a) - (if str_in a ys then 1 else 0)) /\
  s.2 ≡ₚ q ++ List.filter (fun y => default 0 (m !! y) =? 1) ys.
Proof.
  revert m q. induction ys as [|y ys IH]; intros m q Hnd; [cbn; split; [intros; lia|by rewrite app_nil_r]|].
  apply NoDup_cons in Hnd as [Hy Hnd]. cbn [foldl].
  set (m1 := <[y := default 0 (m !! y) - 1]> m). set (q1 := if default 0 (m !! y) - 1 =? 0 then push q y else q).
  change (relax push (m, q) y) with (m1, q1). specialize (IH m1 q1 Hnd). cbn in IH. destruct IH as [IH1 IH2].
  assert (List.filter (fun z => default 0 (m1 !! z) =? 1) ys = List.filter (fun z => default 0 (m !! z) =? 1) ys) as Hf.
  { clear -Hy. induction ys as [|z ys IH]; [done|]. cbn [List.filter]. rewrite IH by set_solver.
    unfold m1. rewrite lookup_insert_ne by set_solver. done. }
  split.
  - intros a. rewrite IH1. change (str_in a (y :: ys)) with ((a =s y) || str_in a ys). unfold m1.
    destruct (a =s y) eqn:E.
    + apply String.eqb_eq in E as ->. rewrite lookup_insert_eq, (proj2 (str_in_false y ys) Hy). cbn. lia.
    + apply String.eqb_neq in E. by rewrite lookup_insert_ne.
  - rewrite IH2, Hf. cbn [List.filter]. unfold q1.
    destruct (Z.eqb_spec (default 0 (m !! y) - 1) 0) as [H0|H0], (Z.eqb_spec (default 0 (m !! y)) 1) as [H1|H1]; try lia; [|done].
    rewrite Hpush, <- app_assoc. done.
Qed.

Record kinv (l q : list string) (m : gmap string Z) : Prop := {
  k_nodup : NoDup (l ++ q);
  k_apps a : a ∈ l ++ q -> a ∈ apps;
  k_count a : a ∈ apps -> default 0 (m !! a) = remaining l a;
  k_zero a : a ∈ apps -> (a ∈ l ++ q <-> remaining l a = 0);
  k_topo l1 a l2 d : l = l1 ++ a :: l2 -> d ∈ deps a -> d ∈ l1
}.

Lemma kahn_step l x q m : kinv l (x :: q) m ->
  let s := foldl (relax push) (m, q) (dependents x) in kinv (l ++ [x]) s.2 s.1.
Proof.
  intros [K1 K2 K3 K4 K5]. destruct (relax_fold (dependents x) m q (Hdep_nodup x)) as [R1 R2]. cbn in *.
  set (s := foldl (relax push) (m, q) (dependents x)) in *. clearbody s.
  assert (x ∉ l) as Hx. { apply NoDup_app in K1 as (_&Hd&_). intros Hin. apply (Hd x Hin). left. }
  assert (forall a, a ∈ apps -> str_in a (dependents x) = str_in x (deps a)) as Hda.
  { intros a Ha. apply eq_bool_prop_intro. rewrite !Is_true_true, !str_in_spec, Hdependents. naive_solver. }
  set (new := List.filter (fun y => default 0 (m !! y) =? 1) (dependents x)) in *.
  assert (forall a, a ∈ new <-> a ∈ apps /\ x ∈ deps a /\ remaining l a = 1) as Hnew.
  { intros a. unfold new. rewrite list_elem_of_In, filter_In, <- list_elem_of_In, Hdependents, Z.eqb_eq. split.
    - intros [[Ha Hd] H1]. rewrite K3 in H1 by done. done.
    - intros (Ha&Hd&H1). rewrite K3 by done. done. }
  assert (forall a, a ∈ (l ++ [x]) ++ s.2 <-> a ∈ l ++ x :: q \/ a ∈ new) as Hall.
  { intros a. rewrite R2. rewrite !elem_of_app, !elem_of_cons, elem_of_nil. naive_solver. }
  assert (forall a, a ∈ apps -> remaining (l ++ [x]) a = 0 <-> remaining l a = 0 \/ a ∈ new) as Hrem.
  { intros a Ha. rewrite remaining_snoc, Hnew by done. assert (0 <= remaining l a) by (unfold remaining; lia).
    destruct (str_in x (deps a)) eqn:E; [apply str_in_spec in E|apply str_in_false in E]; [|naive_solver lia].
    assert (remaining l a <> 0); [|naive_solver lia]. intros H0. destruct (remaining_zero l a) as [Hz _]. by apply (Hz H0) in E. }
  split.
  - rewrite <- app_assoc. cbn. rewrite R2. replace (l ++ x :: q ++ new) with ((l ++ x :: q) ++ new) by (by rewrite <- app_assoc).
    apply NoDup_app. split; [done|]. split; [|apply NoDup_ListNoDup, List.NoDup_filter, NoDup_ListNoDup, Hdep_nodup].
    intros a Hin (Ha&_&H1)%Hnew. apply K4 in Hin; [lia|done].
  - intros a [Hin|(Ha&_)%Hnew]%Hall; auto.
  - intros a Ha. rewrite R1, K3, remaining_snoc, Hda by done. done.
  - intros a Ha. rewrite Hall, Hrem, K4 by done. done.
  - intros l1 a l2 d Hl Hd. destruct l2 as [|b l2] using rev_ind.
    + apply app_inj_tail in Hl as [<- <-]. assert (remaining l x = 0) as H0; [|by apply (remaining_zero l x) in Hd].
      apply K4; [apply K2; set_solver|set_solver].
    + clear IHl2. rewrite app_comm_cons, app_assoc in Hl. apply app_inj_tail in Hl as [Hl _]. by eapply K5.
Qed.

Lemma kinv_length l q m : kinv l q m -> (length l + length q <= length apps)%nat.
Proof.
  intros [K1 K2 _ _ _]. rewrite <- length_app. apply NoDup_incl_length'; [done|]. exact K2.
Qed.

Lemma kahn_result fuel l q m : kinv l q m -> (length apps < fuel + length l)%nat ->
  exists l' m', kahn fuel push dependents q m l = Some l' /\ kinv l' [] m'.
Proof.
  revert l q m. induction fuel as [|fuel IH]; intros l q m Hk Hf.
  - apply kinv_length in Hk. lia.
  - destruct q as [|x q]; [by exists l, m|]. cbn [kahn]. apply IH; [by apply kahn_step|]. rewrite length_app. cbn. lia.
Qed.

Lemma kinv_init q m : NoDup q -> (forall a, a ∈ q <-> a ∈ apps /\ deps a = []) ->
  (forall a, a ∈ apps -> default 0 (m !! a) = Z.of_nat (length (deps a))) -> kinv [] q m.
Proof.
  clear Hdependents. intros Hq Hz Hm. assert (forall a, remaining [] a = Z.of_nat (length (deps a))) as Hr.
  { intros a. unfold remaining. by rewrite List.filter_true. }
  split; [done|by intros a [Ha _]%Hz| | |].
  - intros a Ha. by rewrite Hr, Hm.
  - intros a Ha. rewrite Hr. cbn. rewrite Hz. destruct (deps a); cbn; naive_solver lia.
  - intros l1 a l2 d Hl. by destruct l1.
Qed.

(** A graph without cycles: some ranking decreases along the dependencies. *)
Definition acyclic : Prop := exists rank : string -> nat, forall a d, a ∈ apps -> d ∈ deps a -> (rank d < rank a)%nat.

(** An order in which every application comes after its dependencies *)
Definition boot_order (l : list string) : Prop :=
  l ≡ₚ apps /\ forall l1 a l2 d, l = l1 ++ a :: l2 -> d ∈ deps a -> d ∈ l1.

Lemma kinv_done l m : kinv l [] m -> length l = length apps <-> boot_order l.
Proof.
  intros [K1 K2 _ _ K5]. rewrite app_nil_r in *. split.
  - intros Hlen. split; [|exact K5]. apply submseteq_length_Permutation; [|lia].
    apply NoDup_submseteq; [done|]. intros a Ha. by apply K2.
  - intros [Hp _]. by rewrite Hp.
Qed.

Hypothesis Hclosed : forall a d, a ∈ apps -> d ∈ deps a -> d ∈ apps.

Lemma kinv_acyclic l m : kinv l [] m -> acyclic -> length l = length apps.
Proof.
  intros Hk [rank Hrank]. assert (forall n a, (rank a < n)%nat -> a ∈ apps -> a ∈ l) as Hall.
  { intros n. induction n as [|n IH]; intros a Hn Ha; [lia|]. destruct Hk as [_ _ _ K4 _].
    specialize (K4 a Ha). rewrite app_nil_r in K4. apply K4. apply remaining_zero. intros d Hd.
    apply IH; [specialize (Hrank a d Ha Hd); lia|by eapply Hclosed]. }
  apply Nat.le_antisymm.
  - apply kinv_length in Hk. cbn in Hk. lia.
  - apply NoDup_incl_length'; [done|]. intros a Ha. apply (Hall (S (rank a))); [lia|done].
Qed.

Lemma index_before (l : list string) l1 a l2 d : NoDup l -> l = l1 ++ a :: l2 -> d ∈ l1 ->
  exists i j, l !! i = Some d /\ l !! j = Some a /\ (i < j)%nat.
Proof.
  intros Hnd -> [i Hi]%list_elem_of_lookup. exists i, (length l1). split_and!.
  - by apply lookup_app_l_Some.
  - by rewrite lookup_app_r, Nat.sub_diag.
  - by eapply lookup_lt_Some.
Qed.

Lemma boot_order_acyclic l : NoDup l -> boot_order l -> acyclic.
Proof.
  intros Hnd [Hp Ho]. exists (fun a => default 0%nat (list_find (fun x => x = a) l ≫= fun ix => Some ix.1)).
  intros a d Ha Hd. rewrite <- Hp in Ha. apply list_elem_of_split in Ha as (l1&l2&->).
  specialize (Ho l1 a l2 d eq_refl Hd). destruct (index_before _ l1 a l2 d Hnd eq_refl Ho) as (i&j&Hi&Hj&Hlt).
  assert (forall x k, (l1 ++ a :: l2) !! k = Some x -> list_find (fun y => y = x) (l1 ++ a :: l2) = Some (k, x)) as Hfind.
  { intros x k Hk. apply list_find_Some. split_and!; [done|done|]. intros k' y Hy Hlt' ->. pose proof (NoDup_lookup _ _ _ _ Hnd Hk Hy). lia. }
  by rewrite (Hfind d i Hi), (Hfind a j Hj).
Qed.

(** A node all of whose remaining dependencies are never served *)
Lemma kinv_stuck l m a : kinv l [] m -> a ∈ apps -> a ∉ l -> exists d, d ∈ deps a /\ d ∈ apps /\ d ∉ l.
Proof.
  intros [_ _ _ K4 _] Ha Hn. specialize (K4 a Ha). rewrite app_nil_r in K4.
  destruct (List.find (fun d => negb (str_in d l)) (deps a)) as [d|] eqn:Hf.
  - apply find_some in Hf as [Hd Hdl]. rewrite <- list_elem_of_In in Hd. exists d. split; [done|]. split; [by eapply Hclosed|].
    apply str_in_false. by apply negb_true_iff.
  - exfalso. apply Hn, K4, remaining_zero. intros d Hd. apply str_in_spec. rewrite list_elem_of_In in Hd.
    by apply negb_false_iff, (find_none _ _ Hf).
Qed.
End kahn_correct.

(** ** Adjacency and degrees of a graph without repeated edges *)
Section tables.
Implicit Types (u : list (string * list string)).

Lemma add_edges_neighbours m a ds x : NoDup ds ->
  neighbours (add_edges m a ds) x = neighbours m x ++ (if str_in x ds then [a] else []).
Proof.
  unfold add_edges, neighbours. revert m. induction ds as [|d ds IH]; intros m Hnd; [cbn; by rewrite app_nil_r|].
  apply NoDup_cons in Hnd as [Hd Hnd]. cbn [foldl]. rewrite IH by done. change (str_in x (d :: ds)) with ((x =s d) || str_in x ds).
  destruct (x =s d) eqn:E.
  - apply String.eqb_eq in E as ->. rewrite lookup_insert_eq, (proj2 (str_in_false d ds) Hd). cbn. by rewrite app_nil_r.
  - apply String.eqb_neq in E. by rewrite lookup_insert_ne.
Qed.

Lemma adjacency_neighbours u x : Forall (fun ad => NoDup ad.2) u ->
  neighbours (adjacency u) x = dkeys (List.filter (fun ad => str_in x ad.2) u).
Proof.
  intros Hu. unfold adjacency. induction u as [|[a ds] u IH] using rev_ind; [done|].
  apply Forall_app in Hu as [Hu Ha]. apply Forall_cons in Ha as [Ha _]. rewrite foldl_app. cbn [foldl fst snd] in *.
  rewrite add_edges_neighbours, IH, List.filter_app by done. unfold dkeys. rewrite fmap_app. f_equal.
  cbn [List.filter fst snd]. by destruct (str_in x ds).
Qed.

Lemma degrees_lookup u a ds : dict_wf u -> (a, ds) ∈ u -> degrees u !! a = Some (Z.of_nat (length ds)).
Proof.
  unfold degrees. induction u as [|[b es] u IH] using rev_ind; intros Hwf Hin; [by apply elem_of_nil in Hin|].
  unfold dict_wf, dkeys in Hwf. rewrite fmap_app in Hwf. apply NoDup_app in Hwf as (Hwf&Hd&_).
  rewrite foldl_app. cbn [foldl fst snd]. apply elem_of_app in Hin as [Hin|Hin%list_elem_of_singleton].
  - rewrite lookup_insert_ne; [by apply IH|]. intros ->. apply (Hd a); [|by left]. apply list_elem_of_fmap. by exists (a, ds).
  - simplify_eq. by rewrite lookup_insert_eq.
Qed.

Lemma deps_of_elem u a : dict_wf u -> a ∈ dkeys u -> (a, deps_of u a) ∈ u.
Proof.
  intros Hwf [[b ds] [-> Hin]]%list_elem_of_fmap. unfold deps_of. cbn [fst]. by rewrite (dget_elem u b ds).
Qed.

Lemma neighbours_elem u x y : dict_wf u -> Forall (fun ad => NoDup ad.2) u ->
  y ∈ neighbours (adjacency u) x <-> y ∈ dkeys u /\ x ∈ deps_of u y.
Proof.
  intros Hwf Hnd. rewrite adjacency_neighbours by done. split.
  - intros [[b ds] [-> Hin]]%list_elem_of_fmap. apply list_elem_of_In, filter_In in Hin as [Hin Hx].
    rewrite <- list_elem_of_In in Hin. unfold deps_of. cbn. rewrite (dget_elem u b ds) by done. split; [|by apply str_in_spec].
    apply list_elem_of_fmap. by exists (b, ds).
  - intros [Hy Hx]. apply (deps_of_elem u y Hwf) in Hy. apply list_elem_of_fmap. exists (y, deps_of u y). split; [done|].
    apply list_elem_of_In, filter_In. rewrite <- list_elem_of_In. split; [done|]. by apply str_in_spec.
Qed.

Lemma neighbours_nodup u x : dict_wf u -> Forall (fun ad => NoDup ad.2) u -> NoDup (neighbours (adjacency u) x).
Proof.
  intros Hwf Hnd. rewrite adjacency_neighbours by done. unfold dict_wf, dkeys in *. clear Hnd.
  induction u as [|[a ds] u IH]; [constructor|]. apply NoDup_cons in Hwf as [Ha Hwf].
  cbn [List.filter fst snd]. destruct (str_in x ds); [|by apply IH]. apply NoDup_cons. split; [|by apply IH].
  intros [ad [E Hin]]%list_elem_of_fmap. apply Ha. rewrite E. apply list_elem_of_In, filter_In in Hin as [Hin _].
  apply list_elem_of_fmap. exists ad. by rewrite list_elem_of_In.
Qed.

Lemma deps_of_nodup u a : Forall (fun ad => NoDup ad.2) u -> NoDup (deps_of u a).
Proof.
  intros Hnd. unfold deps_of. destruct (dget u a) as [ds|] eqn:E; [|constructor]. apply dget_Some_elem in E.
  rewrite Forall_forall in Hnd. exact (Hnd _ E).
Qed.
End tables.

(** The loop on a graph [u]: it ends, and with a boot order exactly when [u] has no cycle. *)
Lemma kahn_graph (u : list (string * list string)) push q dependents : dict_wf u -> Forall (fun ad => NoDup ad.2) u ->
  (forall a d, a ∈ dkeys u -> d ∈ deps_of u a -> d ∈ dkeys u) ->
  (forall q y, push q y ≡ₚ q ++ [y]) -> (forall x, dependents x ≡ₚ neighbours (adjacency u) x) ->
  q ≡ₚ List.filter (fun a => default 0 (degrees u !! a) =? 0) (dkeys u) ->
  exists l m, kahn (S (length u)) push dependents q (degrees u) [] = Some l /\
    kinv (dkeys u) (deps_of u) l [] m /\ (length l = length u <-> boot_order (dkeys u) (deps_of u) l) /\
    (length l = length u <-> acyclic (dkeys u) (deps_of u)).
Proof.
  intros Hwf Hnd Hcl Hpush Hdep Hq.
  assert (forall a, a ∈ dkeys u -> degrees u !! a = Some (Z.of_nat (length (deps_of u a)))) as Hdeg.
  { intros a Ha. apply degrees_lookup; [done|]. by apply deps_of_elem. }
  assert (length (dkeys u) = length u) as Hlen by apply length_fmap.
  destruct (kahn_result (dkeys u) (deps_of u) push dependents Hwf (fun a => deps_of_nodup u a Hnd) Hpush) with
    (fuel := S (length u)) (l := @nil string) (q := q) (m := degrees u) as (l&m&Hl&Hk).
  - intros x. rewrite Hdep. by apply neighbours_nodup.
  - intros x y. rewrite Hdep. by apply neighbours_elem.
  - apply kinv_init.
    + rewrite Hq. apply NoDup_ListNoDup, List.NoDup_filter, NoDup_ListNoDup, Hwf.
    + intros a. rewrite Hq, list_elem_of_In, filter_In, <- list_elem_of_In. split.
      * intros [Ha H0]. rewrite (Hdeg a Ha) in H0. cbn in H0. split; [done|]. by destruct (deps_of u a).
      * intros [Ha H0]. rewrite (Hdeg a Ha), H0. done.
    + intros a Ha. by rewrite (Hdeg a Ha).
  - rewrite Hlen. cbn. lia.
  - exists l, m. split; [done|]. split; [done|]. rewrite <- Hlen. split; [by eapply kinv_done|]. split.
    + intros He. eapply boot_order_acyclic; [|by eapply kinv_done]. destruct Hk as [K1 _ _ _ _]. by rewrite app_nil_r in K1.
    + by eapply kinv_acyclic.
Qed.

(** ** Cycles *)
Section cycles.
Context (deps : string -> list string).

(** Each element depends on the next one. *)
Fixpoint linked (l : list string) : Prop :=
  match l with
  | x :: ((y :: _) as l') => y ∈ deps x /\ linked l'
  | _ => True
  end.
Definition is_cycle (c : list string) : Prop := exists d mid, c = d :: mid ++ [d] /\ linked c.

Lemma linked_app l1 x l2 : linked (l1 ++ x :: l2) -> linked (x :: l2).
Proof.
  induction l1 as [|y l1 IH]; [done|]. intros H. apply IH. destruct l1; [by destruct H|by destruct H].
Qed.

Lemma linked_snoc l x d : linked (l ++ [x]) -> d ∈ deps x -> linked (l ++ [x; d]).
Proof.
  induction l as [|y l IH]; intros H Hd; [done|]. destruct l as [|z l]; [by destruct H|]. destruct H as [H1 H2].
  split; [done|]. by apply IH.
Qed.

Lemma from_first_split d l : d ∈ l -> exists l1 l2, l = l1 ++ d :: l2 /\ from_first d l = d :: l2.
Proof.
  induction l as [|x l IH]; intros Hd; [by apply elem_of_nil in Hd|]. cbn. destruct (x =s d) eqn:E.
  - apply String.eqb_eq in E as ->. by exists [], l.
  - apply String.eqb_neq in E. apply elem_of_cons in Hd as [->|Hd]; [done|]. destruct (IH Hd) as (l1&l2&->&->). by exists (x :: l1), l2.
Qed.

(** Closing the search path on one of its nodes gives a cycle. *)
Lemma closed_path stack node d : linked (stack ++ [node]) -> d ∈ deps node -> d ∈ stack ++ [node] ->
  is_cycle (from_first d (stack ++ [node]) ++ [d]).
Proof.
  intros Hl Hd Hin. destruct (from_first_split d _ Hin) as (l1&l2&E&->). exists d, l2. split; [done|].
  assert (l1 ++ d :: (l2 ++ [d]) = stack ++ [node; d]) as E'.
  { change (d :: (l2 ++ [d])) with ((d :: l2) ++ [d]). rewrite app_assoc, <- E. by rewrite <- app_assoc. }
  apply (linked_app l1 d (l2 ++ [d])). rewrite E'. by apply linked_snoc.
Qed.

Lemma cycle_not_acyclic apps c : (forall a d, d ∈ deps a -> a ∈ apps) -> is_cycle c -> ~ acyclic apps deps.
Proof.
  intros Hk (d&mid&->&Hl) [rank Hr]. assert (forall l x z, linked (x :: l ++ [z]) -> (rank z < rank x)%nat) as H.
  { induction l as [|y l IH]; intros x z [H1 H2].
    - by apply Hr; [by eapply Hk|].
    - specialize (IH y z H2). pose proof (Hr x y (Hk _ _ H1) H1). lia. }
  specialize (H mid d d Hl). lia.
Qed.
End cycles.

Lemma linked_ext deps1 deps2 l : (forall a d, d ∈ deps1 a -> d ∈ deps2 a) -> linked deps1 l -> linked deps2 l.
Proof. intros H. induction l as [|x [|y l] IH]; [done|done|]. intros [H1 H2]. split; [by apply H|by apply IH]. Qed.

Lemma is_cycle_ext deps1 deps2 c : (forall a d, d ∈ deps1 a -> d ∈ deps2 a) -> is_cycle deps1 c -> is_cycle deps2 c.
Proof. intros H (d&mid&->&Hl). exists d, mid. split; [done|]. by eapply linked_ext. Qed.

Lemma boot_order_ext apps deps1 deps2 l : (forall a d, d ∈ deps1 a <-> d ∈ deps2 a) -> boot_order apps deps1 l -> boot_order apps deps2 l.
Proof. intros H [Hp Ho]. split; [done|]. intros l1 a l2 d E Hd. apply (Ho l1 a l2 d E). by apply H. Qed.

Lemma acyclic_ext apps deps1 deps2 : (forall a d, d ∈ deps1 a <-> d ∈ deps2 a) -> acyclic apps deps1 <-> acyclic apps deps2.
Proof. intros H. split; intros [rank Hr]; exists rank; intros a d Ha Hd; apply Hr; [done|by apply H|done|by apply H]. Qed.

(** ** The searches *)
Section search.
Context (g : graph).

(** A search path: distinct applications, each depending on the next, and fuel for the rest *)
Definition path_ok (fuel : nat) (stack : list string) (node : string) : Prop :=
  NoDup (stack ++ [node]) /\ (forall a, a ∈ stack ++ [node] -> a ∈ dkeys g) /\ (length g < fuel + length stack)%nat.

Lemma path_ok_start node : node ∈ dkeys g -> path_ok (S (length g)) [] node.
Proof. intros Hn. split_and!; [apply NoDup_singleton|by intros a ->%list_elem_of_singleton|cbn; lia]. Qed.

Lemma path_ok_push f stack node d : path_ok (S f) stack node -> d ∈ dkeys g -> d ∉ stack ++ [node] -> path_ok f (stack ++ [node]) d.
Proof.
  intros (P1&P2&P3) Hd Hn. split_and!.
  - apply NoDup_app. split_and!; [done| |apply NoDup_singleton]. intros a Ha ->%list_elem_of_singleton. done.
  - intros a [Ha| ->%list_elem_of_singleton]%elem_of_app; auto.
  - rewrite length_app. cbn. lia.
Qed.

Lemma path_ok_fuel stack node : ~ path_ok 0 stack node.
Proof.
  intros (P1&P2&P3). assert (length (stack ++ [node]) <= length (dkeys g))%nat as H by (by apply NoDup_incl_length').
  unfold dkeys in H. rewrite length_fmap, length_app in H. cbn in H. lia.
Qed.

Lemma visit_deps_cons blocked vis stack d ds visited :
  visit_deps blocked vis stack (d :: ds) visited =
  if negb (blocked d) then visit_deps blocked vis stack ds visited
  else if str_in d stack then (visited, Some (from_first d stack ++ [d]))
  else if str_in d visited then visit_deps blocked vis stack ds visited
  else match vis d visited with
       | (v, Some c) => (v, Some c)
       | (v, None) => visit_deps blocked vis stack ds v
       end.
Proof. done. Qed.

Lemma visit_sound blocked f stack node visited v c : linked (deps_of g) (stack ++ [node]) ->
  visit g blocked f stack node visited = (v, Some c) -> is_cycle (deps_of g) c.
Proof.
  revert stack node visited v. induction f as [|f IH]; intros stack node visited v Hl; [done|]. cbn [visit].
  assert (forall d, d ∈ deps_of g node -> d ∈ deps_of g node) as Hin by done. revert Hin.
  generalize (node :: visited) as vd. generalize (deps_of g node) at 1 3 as ds.
  induction ds as [|d ds IHd]; intros vd Hin; [done|]. rewrite visit_deps_cons.
  assert (d ∈ deps_of g node) as Hd by (apply Hin; left).
  destruct (negb (blocked d)); [apply IHd; intros; apply Hin; by right|].
  destruct (str_in d (stack ++ [node])) eqn:Es.
  { intros [= _ <-]. apply closed_path; [done|done|by apply str_in_spec]. }
  destruct (str_in d vd); [apply IHd; intros; apply Hin; by right|].
  destruct (visit g blocked f (stack ++ [node]) d vd) as [v' [c'|]] eqn:Ev.
  - intros [= _ <-]. eapply IH; [|exact Ev]. rewrite <- app_assoc. by apply linked_snoc.
  - apply IHd. intros; apply Hin; by right.
Qed.

(** When every blocked application has a blocked dependency, the search meets its own path. *)
Lemma visit_complete blocked f stack node visited :
  (forall a, blocked a = true -> a ∈ dkeys g /\ exists d, d ∈ deps_of g a /\ blocked d = true) ->
  path_ok f stack node -> blocked node = true -> (forall a, a ∈ visited -> a ∈ stack) ->
  exists v c, visit g blocked f stack node visited = (v, Some c).
Proof.
  intros Hb. revert stack node visited. induction f as [|f IH]; intros stack node visited Hp Hn Hv; [by apply path_ok_fuel in Hp|].
  cbn [visit]. destruct (Hb node Hn) as (_&d0&Hd0&Hd0b). revert Hd0.
  assert (forall a, a ∈ node :: visited -> a ∈ stack ++ [node]) as Hv' by set_solver. revert Hv'.
  generalize (node :: visited) as vd. induction (deps_of g node) as [|d ds IHd]; intros vd Hv' Hd0; [by apply elem_of_nil in Hd0|].
  rewrite visit_deps_cons. destruct (blocked d) eqn:Ebd; cbn [negb].
  - destruct (str_in d (stack ++ [node])) eqn:Es; [eauto|]. apply str_in_false in Es.
    destruct (str_in d vd) eqn:Ed; [apply str_in_spec, Hv' in Ed; done|].
    destruct (IH (stack ++ [node]) d vd) as (v&c&->); [|done|done|eauto].
    apply path_ok_push; [done|by apply Hb|done].
  - apply IHd; [done|]. apply elem_of_cons in Hd0 as [->|]; [congruence|done].
Qed.

Lemma find_cycle_spec blocked :
  (forall a, blocked a = true -> a ∈ dkeys g /\ exists d, d ∈ deps_of g a /\ blocked d = true) ->
  (exists a, blocked a = true) -> is_cycle (deps_of g) (find_cycle g blocked).
Proof.
  intros Hb [a Ha]. unfold find_cycle. assert (exists a, a ∈ dkeys g /\ blocked a = true) as He by (exists a; split; [by apply Hb|done]).
  clear a Ha. revert He. generalize (dkeys g) at 1 2 as ns.
  induction ns as [|n ns IH]; intros (a&Ha&Hab); [by apply elem_of_nil in Ha|].
  cbn [find_cycle_from]. destruct (blocked n) eqn:Hn; cbn [andb].
  - change (str_in n []) with false. cbn [negb]. destruct (visit_complete blocked (S (length g)) [] n []) as (v&c&Ev); [done| |done|set_solver|].
    + apply path_ok_start. by apply Hb.
    + rewrite Ev. by eapply visit_sound, Ev.
  - apply IH. apply elem_of_cons in Ha as [->|Ha]; [congruence|by exists a].
Qed.

(** *** [find_circular_dependencies] *)
Lemma circ_deps_cons vis stack d ds s :
  circ_deps g vis stack (d :: ds) s =
  if negb (dmem g d) then circ_deps g vis stack ds s
  else if str_in d stack then
    circ_deps g vis stack ds (s.1, if decide (from_first d stack ++ [d] ∈ s.2) then s.2 else s.2 ++ [from_first d stack ++ [d]])
  else circ_deps g vis stack ds (vis d s).
Proof. done. Qed.

Lemma circ_visit_sound f stack node s : linked (deps_of g) (stack ++ [node]) ->
  Forall (is_cycle (deps_of g)) s.2 -> Forall (is_cycle (deps_of g)) (circ_visit g f stack node s).2.
Proof.
  revert stack node s. induction f as [|f IH]; intros stack node s Hl Hs; [done|]. cbn [circ_visit].
  destruct (str_in node s.1); [done|]. cbn [snd].
  assert (forall d, d ∈ str_sort (deps_of g node) -> d ∈ deps_of g node) as Hin by (intros d; by rewrite str_sort_perm).
  revert Hin s Hs. induction (str_sort (deps_of g node)) as [|d ds IHd]; intros Hin s Hs; [done|]. rewrite circ_deps_cons.
  assert (d ∈ deps_of g node) as Hd by (apply Hin; left). specialize (IHd (fun x Hx => Hin x (list_elem_of_further _ _ _ Hx))).
  destruct (negb (dmem g d)); [by apply IHd|]. destruct (str_in d (stack ++ [node])) eqn:Es; apply IHd.
  - cbn [snd]. case_decide; [done|]. apply Forall_app. split; [done|]. apply Forall_singleton, closed_path; [done|done|by apply str_in_spec].
  - apply IH; [|done]. rewrite <- app_assoc. by apply linked_snoc.
Qed.

Lemma find_circular_sound : Forall (is_cycle (deps_of g)) (find_circular_dependencies g).
Proof.
  unfold find_circular_dependencies. generalize (str_sort (dkeys g)) as ns. intros ns.
  assert (Forall (is_cycle (deps_of g)) ([] : list string, [] : list (list string)).2) as Hs by constructor. revert Hs.
  generalize ([] : list string, [] : list (list string)) as s.
  induction ns as [|n ns IH]; intros s Hs; [done|]. cbn [foldl]. apply IH. by apply circ_visit_sound.
Qed.

(** Nodes that wait for each other: once one of them is finished, a cycle is recorded. *)
Section waiting.
Context (stuck : string -> Prop).
Hypothesis Hstuck : forall a, stuck a -> exists d, d ∈ deps_of g a /\ d ∈ dkeys g /\ stuck d.

Definition reported (s : list string * list (list string)) : Prop := forall a, a ∈ s.1 -> stuck a -> s.2 <> [].

Definition step_ok (node : string) (s s' : list string * list (list string)) : Prop :=
  reported s' /\ (s.2 <> [] -> s'.2 <> []) /\ (stuck node -> s'.2 <> []).

Lemma circ_visit_reports f stack node s : path_ok f stack node -> reported s -> step_ok node s (circ_visit g f stack node s).
Proof.
  revert stack node s. induction f as [|f IH]; intros stack node s Hp Hs; [by apply path_ok_fuel in Hp|]. cbn [circ_visit].
  destruct (str_in node s.1) eqn:En.
  { apply str_in_spec in En. split_and!; [done|done|]. by apply Hs. }
  set (s' := circ_deps _ _ _ _ _).
  assert (reported s' /\ (s.2 <> [] -> s'.2 <> []) /\
          ((exists d, d ∈ str_sort (deps_of g node) /\ d ∈ dkeys g /\ stuck d) -> s'.2 <> [])) as (H1&H2&H3).
  { subst s'. clear En. revert s Hs. induction (str_sort (deps_of g node)) as [|d ds IHd]; intros s Hs.
    { split_and!; [done|done|]. intros (d&Hd&_). by apply elem_of_nil in Hd. }
    rewrite circ_deps_cons. destruct (dmem g d) eqn:Ed; cbn [negb].
    - apply dmem_spec in Ed. destruct (str_in d (stack ++ [node])) eqn:Es.
      + set (s1 := (s.1, _)). assert (s1.2 <> []) as Hne.
        { subst s1. cbn [snd]. case_decide as Hc; [|by destruct s.2]. intros E. rewrite E in Hc. by apply elem_of_nil in Hc. }
        destruct (IHd s1) as (R1&R2&_); [by intros a _ _|]. split_and!; [done|auto|auto].
      + apply str_in_false in Es. destruct (IH (stack ++ [node]) d s) as (S1&S2&S3); [by apply path_ok_push|done|].
        destruct (IHd _ S1) as (R1&R2&R3). split_and!; [done|auto|]. intros (x&Hx&Hxk&Hxs).
        apply elem_of_cons in Hx as [->|Hx]; [auto|]. apply R3. by exists x.
    - destruct (IHd s Hs) as (R1&R2&R3). split_and!; [done|done|]. intros (x&Hx&Hxk&Hxs). apply R3. exists x. split_and!; [|done|done].
      apply elem_of_cons in Hx as [->|Hx]; [|done]. apply dmem_spec in Hxk. congruence. }
  assert (stuck node -> s'.2 <> []) as H4.
  { intros (d&Hd&Hk&Hsd)%Hstuck. apply H3. exists d. split_and!; [by rewrite str_sort_perm|done|done]. }
  split_and!; cbn [snd]; [|done|done]. intros a [->|Ha]%elem_of_cons Hsa; [by apply H4|]. by apply (H1 a).
Qed.

Lemma find_circular_complete a : a ∈ dkeys g -> stuck a -> find_circular_dependencies g <> [].
Proof.
  intros Ha Hsa. unfold find_circular_dependencies.
  assert (forall n, n ∈ str_sort (dkeys g) -> n ∈ dkeys g) as Hin by (intros n; by rewrite str_sort_perm).
  assert (a ∈ str_sort (dkeys g) \/ ([] : list string, [] : list (list string)).2 <> []) as Ho by (left; by rewrite str_sort_perm).
  assert (reported ([], [])) as Hr by (intros x Hx; by apply elem_of_nil in Hx). revert Hin Ho Hr.
  generalize ([] : list string, [] : list (list string)) as s. generalize (str_sort (dkeys g)) as ns.
  induction ns as [|n ns IH]; intros s Hin Ho Hr; [destruct Ho as [Ho|Ho]; [by apply elem_of_nil in Ho|done]|]. cbn [foldl].
  destruct (circ_visit_reports (S (length g)) [] n s) as (S1&S2&S3); [apply path_ok_start, Hin; left|done|].
  apply IH; [intros x Hx; apply Hin; by right| |done].
  destruct Ho as [[->|Ho]%elem_of_cons|Ho]; auto.
Qed.
End waiting.
End search.

(** ** The two boot orders *)
Lemma deps_of_map (f : list string -> list string) (g : graph) a : f [] = [] ->
  deps_of (map (fun ad => (ad.1, f ad.2)) g) a = f (deps_of g a).
Proof.
  intros Hf. unfold deps_of. induction g as [|[b ds] g IH]; [done|]. cbn. destruct (b =s a); [done|]. exact IH.
Qed.

Lemma dkeys_map (f : list string -> list string) (g : graph) : dkeys (map (fun ad => (ad.1, f ad.2)) g) = dkeys g.
Proof. induction g as [|ad g IH]; [done|]. cbn. by f_equal. Qed.

Lemma dedup_elem seen l d : d ∈ dedup seen l <-> d ∈ l /\ d ∉ seen.
Proof.
  revert seen. induction l as [|x l IH]; intros seen; cbn [dedup]; [set_solver|].
  destruct (str_in x seen) eqn:E; [apply str_in_spec in E|apply str_in_false in E]; rewrite ?elem_of_cons, IH, ?elem_of_cons; [naive_solver|].
  destruct (decide (d = x)) as [->|Hne]; naive_solver.
Qed.

Lemma dedup_nodup seen l : NoDup (dedup seen l).
Proof.
  revert seen. induction l as [|x l IH]; intros seen; cbn [dedup]; [constructor|]. destruct (str_in x seen); [done|].
  apply NoDup_cons. split; [|done]. rewrite dedup_elem. set_solver.
Qed.

Lemma deps_of_keys (g : graph) a d : d ∈ deps_of g a -> a ∈ dkeys g.
Proof.
  unfold deps_of. destruct (dget g a) as [ds|] eqn:E; cbn; [|by intros ?%elem_of_nil]. intros _. apply dmem_spec. unfold dmem. by rewrite E.
Qed.

Lemma missing_dependency_spec g : dict_wf g ->
  match missing_dependency g with
  | Some (a, d) => d ∈ deps_of g a /\ d ∉ dkeys g
  | None => forall a d, d ∈ deps_of g a -> d ∈ dkeys g
  end.
Proof.
  intros Hwf. unfold missing_dependency. set (l := flat_map _ _).
  assert (forall a d, (a, d) ∈ l <-> exists ds, (a, ds) ∈ g /\ d ∈ ds /\ d ∉ dkeys g) as Hl.
  { intros a d. subst l. rewrite list_elem_of_In, in_flat_map. split.
    - intros ([b ds]&Hb&Hin). apply in_map_iff in Hin as (d'&[= <- <-]&Hd). apply filter_In in Hd as [Hd Hn].
      exists ds. rewrite !list_elem_of_In. split_and!; [done|done|]. rewrite <- list_elem_of_In, <- dmem_spec. by destruct (dmem g d').
    - intros (ds&Hin&Hd&Hn). exists (a, ds). rewrite <- list_elem_of_In. split; [done|]. apply in_map_iff. exists d. split; [done|].
      apply filter_In. rewrite <- list_elem_of_In. split; [done|]. rewrite <- dmem_spec in Hn. by destruct (dmem g d). }
  clearbody l. destruct l as [|[a d] l]; cbn.
  - intros a d Hd. destruct (decide (d ∈ dkeys g)) as [|Hn]; [done|]. exfalso. pose proof (deps_of_keys g a d Hd) as Ha.
    assert ((a, d) ∈ ([] : list (string * string))) as Hin; [|by apply elem_of_nil in Hin].
    apply Hl. exists (deps_of g a). split; [by apply deps_of_elem|done].
  - assert ((a, d) ∈ (a, d) :: l) as (ds&Hin&Hd&Hn)%Hl by left. unfold deps_of. by rewrite (dget_elem g a ds).
Qed.

Section unique.
Context (g : graph).

Lemma unique_deps_elem a d : d ∈ deps_of (unique_deps g) a <-> d ∈ deps_of g a.
Proof. unfold unique_deps. rewrite deps_of_map by done. rewrite dedup_elem. set_solver. Qed.

Lemma unique_deps_nodup : Forall (fun ad => NoDup ad.2) (unique_deps g).
Proof. apply Forall_fmap, Forall_true. intros ad. apply dedup_nodup. Qed.

Definition registered_deps (a : string) : list string := List.filter (dmem g) (deps_of g a).

Lemma registered_deps_elem a d : d ∈ registered_deps a <-> d ∈ deps_of g a /\ d ∈ dkeys g.
Proof. unfold registered_deps. by rewrite list_elem_of_In, filter_In, <- list_elem_of_In, dmem_spec. Qed.

Lemma known_deps_elem a d : d ∈ deps_of (known_deps g) a <-> d ∈ registered_deps a.
Proof.
  unfold known_deps. rewrite (deps_of_map (fun ds => List.filter (dmem g) (sort_set ds))) by done.
  rewrite registered_deps_elem, list_elem_of_In, filter_In, <- list_elem_of_In, dmem_spec, sort_set_elem. done.
Qed.

Lemma known_deps_nodup : Forall (fun ad => NoDup ad.2) (known_deps g).
Proof.
  apply Forall_fmap, Forall_true. intros ad. cbn. apply NoDup_ListNoDup, List.NoDup_filter, NoDup_ListNoDup.
  unfold sort_set. rewrite str_sort_perm. apply NoDup_remove_dups.
Qed.
End unique.

(** What [resolve_boot_order] computes: the loop ends, and its list is complete exactly on acyclic graphs. *)
Lemma resolve_kahn g : dict_wf g -> (forall a d, d ∈ deps_of g a -> d ∈ dkeys g) ->
  let u := unique_deps g in
  exists l m, kahn (S (length g)) append (neighbours (adjacency u)) (List.filter (fun a => default 0 (degrees u !! a) =? 0) (dkeys g)) (degrees u) [] = Some l /\
    kinv (dkeys g) (deps_of u) l [] m /\ (length l = length g -> boot_order (dkeys g) (deps_of g) l) /\
    (length l = length g <-> acyclic (dkeys g) (deps_of g)).
Proof.
  intros Hwf Hcl u. assert (dkeys u = dkeys g) as Hk by apply dkeys_map. assert (length u = length g) as Hlen by apply length_map.
  destruct (kahn_graph u append (List.filter (fun a => default 0 (degrees u !! a) =? 0) (dkeys g)) (neighbours (adjacency u)))
    as (l&m&Hl&Hkinv&Ho&Ha); rewrite ?Hk, ?Hlen in *; [|apply unique_deps_nodup| |done|done|done|].
  - unfold dict_wf. by rewrite Hk.
  - intros a d _ Hd. apply (Hcl a). by apply unique_deps_elem.
  - exists l, m. split_and!; [done|done| |].
    + intros He. apply (boot_order_ext _ (deps_of u)); [exact (unique_deps_elem g)|by apply Ho].
    + rewrite Ha. apply acyclic_ext, (unique_deps_elem g).
Qed.

(** [resolve_boot_order] on any dictionary of declared dependencies returns or
    raises, and does the right one: it names a declared dependency that is not
    registered if there is one; otherwise it returns every application once, after all
    its dependencies, exactly when the dependencies have no cycle, and when they have
    one the error names an actual cycle, each application in it depending on the next
    (the message without a cycle is never used). *)
Theorem resolve_boot_order_spec g : dict_wf g ->
  (exists a d, d ∈ deps_of g a /\ d ∉ dkeys g /\
     resolve_boot_order g = Raise (Exn "RuntimeError" ("App '" +:+ a +:+ "' declares dependency on '" +:+ d +:+ "' but no such app is registered."))) \/
  ((forall a d, d ∈ deps_of g a -> d ∈ dkeys g) /\ acyclic (dkeys g) (deps_of g) /\
     exists l, resolve_boot_order g = Ok l /\ boot_order (dkeys g) (deps_of g) l) \/
  ((forall a d, d ∈ deps_of g a -> d ∈ dkeys g) /\ ~ acyclic (dkeys g) (deps_of g) /\
     exists c, is_cycle (deps_of g) c /\
       resolve_boot_order g = Raise (Exn "RuntimeError" ("Bootstrap dependency cycle detected: " +:+ str_join " → " c))).
Proof.
  intros Hwf. unfold resolve_boot_order. destruct g as [|ad0 g0] eqn:Eg.
  { right; left. split_and!; [by intros a d ?%elem_of_nil|exists (fun _ => 0%nat); by intros a d ?%elem_of_nil|].
    exists []. split; [done|]. split; [done|]. intros [|] ????; done. }
  rewrite <- Eg in *. clear ad0 g0 Eg. pose proof (missing_dependency_spec g Hwf) as Hm.
  destruct (missing_dependency g) as [[a d]|]; [left; exists a, d; naive_solver|right].
  destruct (resolve_kahn g Hwf Hm) as (l&m&Hl&Hk&Ho&Ha). cbv zeta in *. rewrite Hl.
  destruct (Nat.eqb_spec (length l) (length g)) as [He|Hne].
  { left. split_and!; [done|by apply Ha|]. exists l. split; [done|by apply Ho]. }
  right. split_and!; [done|by rewrite <- Ha|].
  assert (is_cycle (deps_of g) (find_cycle g (fun a => dmem g a && negb (str_in a l)))) as Hc.
  { apply find_cycle_spec.
    - intros a [Hd Hn]%andb_true_iff. apply dmem_spec in Hd. apply negb_true_iff, str_in_false in Hn. split; [done|].
      destruct (kinv_stuck (dkeys g) (deps_of (unique_deps g))) with (l := l) (m := m) (a := a) as (d&Hd1&Hd2&Hd3); [|done..|].
      { intros x d _ Hx. apply (Hm x), unique_deps_elem, Hx. }
      exists d. split; [by apply unique_deps_elem|]. apply andb_true_iff. split; [by apply dmem_spec|]. by apply negb_true_iff, str_in_false.
    - destruct (List.find (fun a => negb (str_in a l)) (dkeys g)) as [a|] eqn:Hf.
      + apply find_some in Hf as [Hin Hn]. exists a. rewrite Hn, andb_true_r. by apply dmem_spec, list_elem_of_In.
      + exfalso. apply Hne. assert (length (dkeys g) = length g) as <- by apply length_fmap. apply Nat.le_antisymm.
        * apply kinv_length in Hk. cbn in Hk. lia.
        * apply NoDup_incl_length'; [done|]. intros a Hin. apply str_in_spec, negb_false_iff. apply (find_none _ _ Hf). by apply list_elem_of_In. }
  eexists. split; [exact Hc|]. destruct (find_cycle _ _) as [|x c]; [|done]. by destruct Hc as (?&?&?&_).
Qed.

(** The witness's applications: [web] depends on [db] and [auth], [auth] on [db]. *)
Definition demo_graph : graph := [("web", ["db"; "auth"; "db"]); ("auth", ["db"]); ("db", [])].

Lemma resolve_boot_order_spec_witness : resolve_boot_order demo_graph = Ok ["db"; "auth"; "web"] /\ dict_wf demo_graph /\
  ((exists a d, d ∈ deps_of demo_graph a /\ d ∉ dkeys demo_graph /\
     resolve_boot_order demo_graph = Raise (Exn "RuntimeError" ("App '" +:+ a +:+ "' declares dependency on '" +:+ d +:+ "' but no such app is registered."))) \/
  ((forall a d, d ∈ deps_of demo_graph a -> d ∈ dkeys demo_graph) /\ acyclic (dkeys demo_graph) (deps_of demo_graph) /\
     exists l, resolve_boot_order demo_graph = Ok l /\ boot_order (dkeys demo_graph) (deps_of demo_graph) l) \/
  ((forall a d, d ∈ deps_of demo_graph a -> d ∈ dkeys demo_graph) /\ ~ acyclic (dkeys demo_graph) (deps_of demo_graph) /\
     exists c, is_cycle (deps_of demo_graph) c /\
       resolve_boot_order demo_graph = Raise (Exn "RuntimeError" ("Bootstrap dependency cycle detected: " +:+ str_join " → " c)))).
Proof.
  split; [vm_compute; reflexivity|]. assert (dict_wf demo_graph) as Hwf by (apply (bool_decide_unpack _); vm_compute; exact I).
  split; [exact Hwf|]. exact (resolve_boot_order_spec demo_graph Hwf).
Defined.

Lemma cycle_registered g c : is_cycle (deps_of g) c -> is_cycle (registered_deps g) c.
Proof.
  intros (d&mid&->&Hl). exists d, mid. split; [done|].
  assert (d ∈ dkeys g) as Hd by (destruct mid as [|y mid]; destruct Hl as [Hl _]; by eapply deps_of_keys).
  revert Hl. generalize d at 1 3 as x. induction mid as [|y mid IH]; intros x [H1 H2].
  - split; [|done]. by apply registered_deps_elem.
  - split; [|by apply IH]. apply registered_deps_elem. split; [done|].
    destruct mid as [|z mid]; destruct H2 as [H2 _]; by eapply deps_of_keys.
Qed.

(** The loop of [compute_boot_order] on the registered part of the graph *)
Lemma compute_kahn g : dict_wf g ->
  let u := known_deps g in
  exists l m, kahn (S (length g)) push_sorted (fun x => str_sort (neighbours (adjacency u) x))
      (str_sort (List.filter (fun a => default 0 (degrees u !! a) =? 0) (dkeys g))) (degrees u) [] = Some l /\
    kinv (dkeys g) (deps_of u) l [] m /\ (length l = length g -> boot_order (dkeys g) (registered_deps g) l) /\
    (length l = length g <-> acyclic (dkeys g) (registered_deps g)).
Proof.
  intros Hwf u. assert (dkeys u = dkeys g) as Hk by apply (dkeys_map (fun ds => List.filter (dmem g) (sort_set ds))).
  assert (length u = length g) as Hlen by apply length_map.
  destruct (kahn_graph u push_sorted (str_sort (List.filter (fun a => default 0 (degrees u !! a) =? 0) (dkeys g))) (fun x => str_sort (neighbours (adjacency u) x)))
    as (l&m&Hl&Hkinv&Ho&Ha); rewrite ?Hk, ?Hlen in *; [|apply known_deps_nodup| | | | |].
  - unfold dict_wf. by rewrite Hk.
  - intros a d _ Hd. by apply known_deps_elem, registered_deps_elem in Hd as [_ Hd].
  - intros q y. apply str_sort_perm.
  - intros x. apply str_sort_perm.
  - apply str_sort_perm.
  - exists l, m. split_and!; [done|done| |].
    + intros He. apply (boot_order_ext _ (deps_of u)); [exact (known_deps_elem g)|by apply Ho].
    + rewrite Ha. apply acyclic_ext, (known_deps_elem g).
Qed.

(** The search finds a cycle exactly when there is one. *)
Lemma find_circular_acyclic g : dict_wf g -> find_circular_dependencies g = [] <-> acyclic (dkeys g) (registered_deps g).
Proof.
  intros Hwf. split.
  - intros Hno. destruct (compute_kahn g Hwf) as (l&m&_&Hk&_&Ha). apply Ha. assert (length (dkeys g) = length g) as <- by apply length_fmap.
    apply Nat.le_antisymm; [apply kinv_length in Hk; cbn in Hk; lia|]. apply NoDup_incl_length'; [done|]. intros a Hin.
    destruct (decide (a ∈ l)) as [|Hn]; [done|]. exfalso. revert Hno.
    apply (find_circular_complete g (fun x => x ∈ dkeys g /\ x ∉ l)) with (a := a); [|done|done].
    intros x [Hx Hxl]. destruct (kinv_stuck (dkeys g) (deps_of (known_deps g))) with (l := l) (m := m) (a := x) as (d&Hd1&Hd2&Hd3); [|done..|].
    { intros y d _ Hd. by apply known_deps_elem, registered_deps_elem in Hd as [_ Hd]. }
    exists d. split_and!; [|done|done|done]. by apply known_deps_elem, registered_deps_elem in Hd1 as [Hd1 _].
  - intros Ha. pose proof (find_circular_sound g) as Hs. destruct (find_circular_dependencies g) as [|c cs]; [done|]. exfalso.
    apply Forall_cons in Hs as [Hc _]. apply cycle_registered in Hc.
    revert Ha. apply (cycle_not_acyclic _ _ c); [|done]. intros a d Hd. apply registered_deps_elem in Hd as [Hd _]. by eapply deps_of_keys.
Qed.

(** [compute_boot_order] ignores dependencies on unregistered applications.  It
    returns every application once, after its registered dependencies, exactly when
    these have no cycle; otherwise the error lists cycles, each of them real, and at
    least one ([Unable to compute boot order] is never raised). *)
Theorem compute_boot_order_spec g : dict_wf g ->
  (acyclic (dkeys g) (registered_deps g) /\ exists l, compute_boot_order g = Ok l /\ boot_order (dkeys g) (registered_deps g) l) \/
  (~ acyclic (dkeys g) (registered_deps g) /\ find_circular_dependencies g <> [] /\
     Forall (is_cycle (registered_deps g)) (find_circular_dependencies g) /\
     compute_boot_order g = Raise (Exn "BootstrapDependencyError"
       ("Circular dependencies detected: " +:+ str_join "; " (map (str_join " -> ") (find_circular_dependencies g))))).
Proof.
  intros Hwf. pose proof (find_circular_acyclic g Hwf) as Hc. unfold compute_boot_order.
  pose proof (Forall_impl _ _ _ (find_circular_sound g) (cycle_registered g)) as Hs.
  destruct (find_circular_dependencies g) as [|c cs].
  - left. split; [by apply Hc|]. destruct (compute_kahn g Hwf) as (l&m&Hl&_&Ho&Ha). cbv zeta in *. rewrite Hl.
    assert (length l = length g) as He by (by apply Ha, Hc). rewrite He, Nat.eqb_refl. exists l. split; [done|by apply Ho].
  - right. split_and!; [by rewrite <- Hc|done|done|done].
Qed.

Lemma compute_boot_order_spec_witness : dict_wf demo_graph /\ compute_boot_order demo_graph = Ok ["db"; "auth"; "web"] /\
  ((acyclic (dkeys demo_graph) (registered_deps demo_graph) /\
     exists l, compute_boot_order demo_graph = Ok l /\ boot_order (dkeys demo_graph) (registered_deps demo_graph) l) \/
  (~ acyclic (dkeys demo_graph) (registered_deps demo_graph) /\ find_circular_dependencies demo_graph <> [] /\
     Forall (is_cycle (registered_deps demo_graph)) (find_circular_dependencies demo_graph) /\
     compute_boot_order demo_graph = Raise (Exn "BootstrapDependencyError"
       ("Circular dependencies detected: " +:+ str_join "; " (map (str_join " -> ") (find_circular_dependencies demo_graph)))))).
Proof.
  assert (dict_wf demo_graph) as Hwf by (apply (bool_decide_unpack _); vm_compute; exact I).
  split; [exact Hwf|]. split; [vm_compute; reflexivity|]. exact (compute_boot_order_spec demo_graph Hwf).
Defined.

(** ** The manifest *)
Lemma filter_nil {A} (f : A -> bool) (l : list A) : List.filter f l = [] <-> forall x, x ∈ l -> f x = false.
Proof.
  split.
  - intros H x Hx. destruct (f x) eqn:E; [|done]. assert (x ∈ List.filter f l) as Hin; [|rewrite H in Hin; by apply elem_of_nil in Hin].
    apply list_elem_of_In, filter_In. by rewrite <- list_elem_of_In.
  - intros H. destruct (List.filter f l) as [|x k] eqn:E; [done|]. exfalso.
    assert (x ∈ List.filter f l) as Hin by (rewrite E; left). apply list_elem_of_In, filter_In in Hin as [Hin Hx].
    rewrite <- list_elem_of_In in Hin. rewrite (H x Hin) in Hx. done.
Qed.

Lemma find_missing_nil registered declared :
  find_missing_dependencies registered declared = [] <-> forall a d, a ∈ registered -> d ∈ deps_of declared a -> d ∈ registered.
Proof.
  unfold find_missing_dependencies.
  transitivity (forall a, a ∈ dedup [] (str_sort registered) -> List.filter (fun d => negb (str_in d registered)) (deps_of declared a) = []).
  - induction (dedup [] (str_sort registered)) as [|a l IH]; [split; [by intros _ a ?%elem_of_nil|done]|]. cbn [flat_map].
    set (ds := List.filter _ (deps_of declared a)). assert (str_sort ds = [] <-> ds = []) as Hd.
    { split; [|by intros ->]. intros E. apply Permutation_nil_r. by rewrite <- E, str_sort_perm. }
    destruct (str_sort ds) as [|x xs] eqn:E.
    + rewrite IH. split; [intros H b [->|Hb]%elem_of_cons; [by apply Hd|by apply H]|]. intros H b Hb. apply H. by right.
    + split; [done|]. intros H. exfalso. assert (x :: xs = []); [|done]. apply Hd, H. left.
  - split.
    + intros H a d Ha Hd. apply str_in_spec, negb_false_iff. specialize (H a). rewrite filter_nil in H. apply H; [|done].
      rewrite dedup_elem, str_sort_perm. split; [done|by intros ?%elem_of_nil].
    + intros H a Ha. rewrite dedup_elem, str_sort_perm in Ha. apply filter_nil. intros d Hd. apply negb_false_iff, str_in_spec.
      by eapply H; [apply Ha|].
Qed.

Section manifest.
Context (apps : list string) (declared : graph).
Let registered_graph : graph := map (fun a => (a, deps_of declared a)) (sort_set apps).

Lemma registered_graph_keys : dkeys registered_graph = sort_set apps.
Proof. unfold registered_graph, dkeys. induction (sort_set apps) as [|a l IH]; [done|]. cbn. by f_equal. Qed.

Lemma registered_graph_wf : dict_wf registered_graph.
Proof. unfold dict_wf. rewrite registered_graph_keys. unfold sort_set. rewrite str_sort_perm. apply NoDup_remove_dups. Qed.

Lemma registered_graph_deps a d : d ∈ registered_deps registered_graph a <-> a ∈ apps /\ d ∈ apps /\ d ∈ deps_of declared a.
Proof.
  rewrite registered_deps_elem, registered_graph_keys, sort_set_elem.
  assert (forall x, x ∈ deps_of registered_graph a <-> a ∈ apps /\ x ∈ deps_of declared a) as ->; [|naive_solver].
  intros x. split.
  - intros Hx. pose proof (deps_of_keys _ _ _ Hx) as Ha. rewrite registered_graph_keys, sort_set_elem in Ha. split; [done|].
    unfold deps_of at 1 in Hx. destruct (dget registered_graph a) as [ds|] eqn:E; [|by apply elem_of_nil in Hx].
    apply dget_Some_elem in E. apply list_elem_of_fmap in E as (b&[= <- ->]&_). done.
  - intros [Ha Hx]. unfold deps_of at 1. rewrite (dget_elem registered_graph a (deps_of declared a)); [done|apply registered_graph_wf|].
    apply list_elem_of_fmap. exists a. by rewrite sort_set_elem.
Qed.
End manifest.

(** [validate_bootstrap_manifest] accepts a manifest exactly when every core domain
    is registered, every dependency a registered application declares is registered, and
    the declared dependencies of the registered applications have no cycle; it raises
    [BootstrapDependencyError] on every other manifest. *)
Theorem validate_bootstrap_manifest_spec apps core declared :
  (validate_bootstrap_manifest apps core declared = Ok () <->
     (forall c, c ∈ core -> c ∈ apps) /\
     (forall a d, a ∈ apps -> d ∈ deps_of declared a -> d ∈ apps) /\
     acyclic apps (deps_of declared)) /\
  (validate_bootstrap_manifest apps core declared = Ok () \/
   exists msg, validate_bootstrap_manifest apps core declared = Raise (Exn "BootstrapDependencyError" msg)).
Proof.
  set (g := map (fun a => (a, deps_of declared a)) (sort_set apps)).
  assert (List.filter (fun c => negb (str_in c (sort_set apps))) (sort_set core) = [] <-> (forall c, c ∈ core -> c ∈ apps)) as Hcore.
  { rewrite filter_nil. split; intros H c; specialize (H c); rewrite negb_false_iff, str_in_spec, !sort_set_elem in *; done. }
  assert (find_missing_dependencies (sort_set apps) declared = [] <-> forall a d, a ∈ apps -> d ∈ deps_of declared a -> d ∈ apps) as Hmiss.
  { rewrite find_missing_nil. split; intros H a d; specialize (H a d); rewrite !sort_set_elem in *; done. }
  assert ((forall a d, a ∈ apps -> d ∈ deps_of declared a -> d ∈ apps) -> find_circular_dependencies g = [] <-> acyclic apps (deps_of declared)) as Hcyc.
  { intros Hcl. rewrite (find_circular_acyclic g (registered_graph_wf apps declared)). split; intros [rank Hr]; exists rank; intros a d Ha Hd.
    - apply Hr; [unfold g; by rewrite registered_graph_keys, sort_set_elem|]. apply registered_graph_deps. naive_solver.
    - apply registered_graph_deps in Hd as (Ha'&_&Hd). by apply Hr. }
  unfold validate_bootstrap_manifest. fold g.
  destruct (List.filter _ (sort_set core)) as [|x xs]; [|split; [split; [done|]|right; by eexists]].
  2: { intros (H&_). by apply Hcore in H. }
  destruct (find_missing_dependencies _ _) as [|y ys]; [|split; [split; [done|]|right; by eexists]].
  2: { intros (_&H&_). by apply Hmiss in H. }
  specialize (Hcyc (proj1 Hmiss eq_refl)).
  destruct (find_circular_dependencies g) as [|z zs]; [|split; [split; [done|]|right; by eexists]].
  - split; [|by left]. split; [|done]. intros _. split_and!; [by apply Hcore|by apply Hmiss|by apply Hcyc].
  - intros (_&_&H). by apply Hcyc in H.
Qed.
