(* ===== verification/PyEffects.v ===== *)
(** * Stateful code that may raise

    A method is a function of its state that returns the new state and a value or
    a raised exception.  [wp m Q s]: run from [s], [m] ends in a state and result
    that satisfy [Q]. *)
From S2P Require Import Prelude.

Definition SE (S A : Type) : Type := S -> S * result A.

#[export] Instance SE_ret {S} : MRet (SE S) := fun A a s => (s, Ok a).
#[export] Instance SE_bind {S} : MBind (SE S) := fun A B f m s =>
  match m s with (s', Ok a) => f a s' | (s', Raise e) => (s', Raise e) end.
#[export] Instance SE_fmap {S} : FMap (SE S) := fun A B f m s =>
  match m s with (s', Ok a) => (s', Ok (f a)) | (s', Raise e) => (s', Raise e) end.

Section effects.
Context {S : Type}.

Definition throw {A} (e : exn) : SE S A := fun s => (s, Raise e).
Definition reads {A} (f : S -> A) : SE S A := fun s => (s, Ok (f s)).
Definition writes (f : S -> S) : SE S unit := fun s => (f s, Ok ()).
Definition of_result {A} (r : result A) : SE S A := fun s => (s, r).

(** [try: m except Exception as e: h(e)] *)
Definition try_except {A} (m : SE S A) (h : exn -> SE S A) : SE S A := fun s =>
  match m s with (s', Ok a) => (s', Ok a) | (s', Raise e) => h e s' end.

(** [try: m finally: f] where [f] does not raise *)
Definition try_finally {A} (m : SE S A) (f : S -> S) : SE S A := fun s => let (s', r) := m s in (f s', r).

(** A loop over a list; an exception ends it. *)
Fixpoint for_each {A} (l : list A) (body : A -> SE S unit) : SE S unit :=
  match l with [] => mret () | x :: l' => body x ≫= fun _ => for_each l' body end.

Definition wp {A} (m : SE S A) (Q : S -> result A -> Prop) (s : S) : Prop := Q (m s).1 (m s).2.

Lemma wp_mono {A} (m : SE S A) (P Q : S -> result A -> Prop) s : wp m P s -> (forall s' r, P s' r -> Q s' r) -> wp m Q s.
Proof. unfold wp. auto. Qed.
Lemma wp_ret {A} (a : A) (Q : S -> result A -> Prop) s : Q s (Ok a) -> wp (mret a) Q s.
Proof. done. Qed.
Lemma wp_throw {A} e (Q : S -> result A -> Prop) s : Q s (Raise e) -> wp (throw e) Q s.
Proof. done. Qed.
Lemma wp_reads {A} (f : S -> A) (Q : S -> result A -> Prop) s : Q s (Ok (f s)) -> wp (reads f) Q s.
Proof. done. Qed.
Lemma wp_writes (f : S -> S) (Q : S -> result unit -> Prop) s : Q (f s) (Ok ()) -> wp (writes f) Q s.
Proof. done. Qed.
Lemma wp_of_result {A} (r : result A) (Q : S -> result A -> Prop) s : Q s r -> wp (of_result r) Q s.
Proof. done. Qed.
Lemma wp_bind {A B} (m : SE S A) (f : A -> SE S B) (Q : S -> result B -> Prop) s :
  wp m (fun s' r => match r with Ok a => wp (f a) Q s' | Raise e => Q s' (Raise e) end) s -> wp (m ≫= f) Q s.
Proof. unfold wp, mbind, SE_bind. by destruct (m s) as [s' [a|e]]. Qed.
Lemma wp_fmap {A B} (f : A -> B) (m : SE S A) (Q : S -> result B -> Prop) s :
  wp m (fun s' r => match r with Ok a => Q s' (Ok (f a)) | Raise e => Q s' (Raise e) end) s -> wp (f <$> m) Q s.
Proof. unfold wp, fmap, SE_fmap. by destruct (m s) as [s' [a|e]]. Qed.
Lemma wp_try {A} (m : SE S A) (h : exn -> SE S A) (Q : S -> result A -> Prop) s :
  wp m (fun s' r => match r with Ok a => Q s' (Ok a) | Raise e => wp (h e) Q s' end) s -> wp (try_except m h) Q s.
Proof. unfold wp, try_except. by destruct (m s) as [s' [a|e]]. Qed.
Lemma wp_finally {A} (m : SE S A) (f : S -> S) (Q : S -> result A -> Prop) s :
  wp m (fun s' r => Q (f s') r) s -> wp (try_finally m f) Q s.
Proof. unfold wp, try_finally. by destruct (m s) as [s' r]. Qed.

(** What holds of every run holds of this one. *)
Lemma wp_run {A} (m : SE S A) (Q : S -> result A -> Prop) s s' r : wp m Q s -> m s = (s', r) -> Q s' r.
Proof. unfold wp. intros H E. by rewrite E in H. Qed.

(** A loop invariant over the elements done *)
Lemma wp_for_each {A} (body : A -> SE S unit) (I : list A -> S -> Prop) l s :
  I [] s -> (forall done x s, I done s -> x ∈ l -> wp (body x) (fun s' r => r = Ok () /\ I (done ++ [x]) s') s) ->
  wp (for_each l body) (fun s' r => r = Ok () /\ I l s') s.
Proof.
  intros H0 Hs. assert (forall k done s, (forall x, x ∈ k -> x ∈ l) -> I done s -> wp (for_each k body) (fun s' r => r = Ok () /\ I (done ++ k) s') s) as H.
  { induction k as [|x k IH]; intros dn s0 Hk Hi; [apply wp_ret; by rewrite app_nil_r|]. cbn [for_each]. apply wp_bind.
    eapply wp_mono; [apply Hs; [done|apply Hk; left]|]. intros s1 r [-> H1].
    eapply wp_mono; [apply (IH (dn ++ [x])); [intros; apply Hk; by right|done]|]. intros s2 r. by rewrite <- app_assoc. }
  exact (H l [] s ltac:(done) H0).
Qed.
End effects.

Create HintDb wp.
#[export] Hint Resolve wp_ret wp_throw wp_reads wp_writes wp_of_result : wp.

(** One step of symbolic execution *)
Ltac wp_step :=
  match goal with
  | |- wp (_ ≫= _) _ _ => apply wp_bind
  | |- wp (_ <$> _) _ _ => apply wp_fmap
  | |- wp (mret _) _ _ => apply wp_ret
  | |- wp (throw _) _ _ => apply wp_throw
  | |- wp (reads _) _ _ => apply wp_reads
  | |- wp (writes _) _ _ => apply wp_writes
  | |- wp (of_result _) _ _ => apply wp_of_result
  | |- wp (try_except _ _) _ _ => apply wp_try
  | |- wp (try_finally _ _) _ _ => apply wp_finally
  end.
Ltac wp_steps := repeat (wp_step; cbn beta iota).
