(* ===== verification/JobQueue.v ===== *)
(** * Job queue: payloads, the contract of a backend, and the in-memory backend
    ([AINDY/core/distributed_queue.py])

    [QueueJobPayload] with its wire format, the abstract queue that the module's
    documentation describes as a labelled transition relation, and
    [InMemoryQueueBackend].  Times are in microseconds.  The threads of a process
    interleave at the operations; [queue.Queue] and the locks make each operation
    below atomic with respect to the fields it changes. *)
From S2P Require Import Prelude Json.
Local Open Scope Z_scope.

(** ** Payloads *)
Record QueueJobPayload := MkJob {
  job_id : string;
  task_name : string;
  idempotency_key : string;
  context : dict json;
  retry_metadata : dict json;
  enqueued_at : string
}.

(** [__post_init__] *)
Definition post_init (p : QueueJobPayload) : QueueJobPayload :=
  if truthy (idempotency_key p) then p
  else MkJob (job_id p) (task_name p) (job_id p) (context p) (retry_metadata p) (enqueued_at p).

(** [to_json]: [asdict] keeps the order of the fields. *)
Definition to_json (p : QueueJobPayload) : string :=
  dumps (JObj [("job_id", JStr (job_id p)); ("task_name", JStr (task_name p)); ("idempotency_key", JStr (idempotency_key p));
               ("context", JObj (context p)); ("retry_metadata", JObj (retry_metadata p)); ("enqueued_at", JStr (enqueued_at p))]).

(** An optional argument of the constructor, with its default. *)
Definition str_arg_or (d : dict json) (k dflt : string) : result string :=
  match dget d k with None => Ok dflt | Some _ => str_arg d k end.
Definition dict_arg_or (d : dict json) (k : string) : result (dict json) :=
  match dget d k with
  | None => Ok []
  | Some (JObj v) => Ok v
  | Some _ => Raise (TypeError k)
  end.

(** [from_json]: unknown fields are dropped, missing optional ones get their defaults.
    [now] is the text of the current time. *)
Definition from_json (now raw : string) : result QueueJobPayload :=
  match loads raw with
  | Raise e => Raise e
  | Ok (JObj d) =>
      i ← str_arg d "job_id"; t ← str_arg d "task_name"; k ← str_arg_or d "idempotency_key" "";
      c ← dict_arg_or d "context"; r ← dict_arg_or d "retry_metadata"; a ← str_arg_or d "enqueued_at" now;
      Ok (post_init (MkJob i t k c r a))
  | Ok _ => Raise (Exn "AttributeError" "items")
  end.

(** A payload as its constructor leaves it, with JSON dictionaries *)
Definition job_wf (p : QueueJobPayload) : Prop :=
  post_init p = p /\ json_wf (JObj (context p)) /\ json_wf (JObj (retry_metadata p)).

Lemma job_roundtrip now p : job_wf p -> from_json now (to_json p) = Ok p.
Proof.
  intros (Hp&Hc&Hr). unfold from_json, to_json. rewrite loads_dumps.
  - transitivity (Ok (post_init p)); [by destruct p|by rewrite Hp].
  - apply json_wf_obj. split.
    + apply (dict_wf_keys ["job_id"; "task_name"; "idempotency_key"; "context"; "retry_metadata"; "enqueued_at"]); [done|by_evaluation].
    + by repeat (apply Forall_cons; split; [done|]).
Qed.

(** Every payload the constructor builds is read back unchanged by the process
    that pops its wire form, whatever the clock says there; in particular its
    idempotency key is never empty unless its job id is. *)
Theorem payload_roundtrip now p : json_wf (JObj (context p)) -> json_wf (JObj (retry_metadata p)) ->
  from_json now (to_json (post_init p)) = Ok (post_init p) /\
  (idempotency_key (post_init p) = "" -> job_id p = "").
Proof.
  intros Hc Hr. assert (post_init (post_init p) = post_init p) as Hpp.
  { unfold post_init at 2 3. destruct (truthy (idempotency_key p)) eqn:E; [unfold post_init; by rewrite E|].
    unfold post_init. cbn [idempotency_key job_id task_name context retry_metadata enqueued_at]. by destruct (truthy (job_id p)). }
  split.
  - apply job_roundtrip. split; [done|]. unfold post_init. by destruct (truthy _).
  - unfold post_init. destruct (truthy (idempotency_key p)) eqn:E; [|done]. intros H. by rewrite H in E.
Qed.

Lemma payload_roundtrip_witness :
  from_json "t1" (to_json (post_init (MkJob "j" "agent.create_run" "" [("trace_id", JStr "t")] [("attempt_count", JInt 0)] "t0"))) =
  Ok (MkJob "j" "agent.create_run" "j" [("trace_id", JStr "t")] [("attempt_count", JInt 0)] "t0").
Proof.
  refine (proj1 (payload_roundtrip "t1" (MkJob "j" "agent.create_run" "" [("trace_id", JStr "t")] [("attempt_count", JInt 0)] "t0") _ _)).
  - apply json_wf_obj. split; [by_evaluation|by repeat constructor].
  - apply json_wf_obj. split; [by_evaluation|by repeat constructor].
Defined.

(** ** The contract of a backend

    The queue that the module documentation describes: ready jobs in order, delayed
    jobs with their due times, jobs in flight by id with the time they were taken, and
    dead letters. *)
Record dead_letter := MkDead {
  dl_job_id : string;
  dl_payload : option QueueJobPayload;
  dl_error : string;
  dl_failed_at : Z
}.

Record aqueue := MkAQ {
  aq_ready : list QueueJobPayload;
  aq_delayed : list (Z * QueueJobPayload);
  aq_inflight : gmap string (QueueJobPayload * Z);
  aq_dead : list dead_letter
}.

Definition a_init : aqueue := MkAQ [] [] ∅ [].
Definition a_pending (a : aqueue) : Z := Z.of_nat (length (aq_ready a)) + Z.of_nat (length (aq_delayed a)).

Inductive qop :=
| OEnqueue (p : QueueJobPayload)
| OEnqueueDelayed (p : QueueJobPayload) (delay now : Z)
| ODequeue (now : Z)
| OAck (id : string)
| OFail (id err : string) (now : Z)
| OTick (now : Z)                          (* delays elapse *)
| ORequeueStale (timeout now : Z)
| ORemoveDead (id : string)
| ODrainDead.

Inductive qreply :=
| RDone
| RRaise (e : exn)
| RJob (o : option QueueJobPayload)
| RCount (n : Z)
| RFlag (b : bool)
| RBlocked (held : list QueueJobPayload).  (* the call waits for room, with jobs in hand *)

(** [QueueSaturatedError] *)
Definition saturated (cap : Z) : exn :=
  Exn "QueueSaturatedError" ("Async queue is saturated (capacity=" +:+ Z_to_string cap +:+ "). Retry later.").

(** In flight for longer than the visibility timeout *)
Definition stale (timeout now : Z) (e : QueueJobPayload * Z) : bool := timeout <? now - e.2.

Inductive spec_step (cap : Z) : aqueue -> qop * qreply -> aqueue -> Prop :=
| sp_enqueue p a : a_pending a < cap ->
    spec_step cap a (OEnqueue p, RDone) (MkAQ (aq_ready a ++ [p]) (aq_delayed a) (aq_inflight a) (aq_dead a))
| sp_enqueue_full p a : cap <= a_pending a -> spec_step cap a (OEnqueue p, RRaise (saturated cap)) a
| sp_delay p delay now a : a_pending a < cap ->
    spec_step cap a (OEnqueueDelayed p delay now, RDone) (MkAQ (aq_ready a) (aq_delayed a ++ [(now + delay, p)]) (aq_inflight a) (aq_dead a))
| sp_delay_full p delay now a : cap <= a_pending a -> spec_step cap a (OEnqueueDelayed p delay now, RRaise (saturated cap)) a
| sp_dequeue_none now a : aq_ready a = [] -> spec_step cap a (ODequeue now, RJob None) a
| sp_dequeue now p r a : aq_ready a = p :: r ->
    spec_step cap a (ODequeue now, RJob (Some p)) (MkAQ r (aq_delayed a) (<[job_id p := (p, now)]> (aq_inflight a)) (aq_dead a))
| sp_ack id a : spec_step cap a (OAck id, RDone) (MkAQ (aq_ready a) (aq_delayed a) (delete id (aq_inflight a)) (aq_dead a))
| sp_fail id err now a :
    spec_step cap a (OFail id err now, RDone)
      (MkAQ (aq_ready a) (aq_delayed a) (delete id (aq_inflight a)) (aq_dead a ++ [MkDead id (fst <$> aq_inflight a !! id) err now]))
| sp_tick now moved rest a : aq_delayed a ≡ₚ moved ++ rest -> Forall (fun dp => dp.1 <= now) moved ->
    spec_step cap a (OTick now, RDone) (MkAQ (aq_ready a ++ moved.*2) rest (aq_inflight a) (aq_dead a))
| sp_requeue timeout now l fl a : l ≡ₚ List.filter (fun e => stale timeout now e.2) (map_to_list (aq_inflight a)) ->
    fl = filter (fun e : string * (QueueJobPayload * Z) => stale timeout now e.2 = false) (aq_inflight a) ->
    spec_step cap a (ORequeueStale timeout now, RCount (Z.of_nat (length l)))
      (MkAQ (aq_ready a ++ map (fun e => e.2.1) l) (aq_delayed a) fl (aq_dead a))
| sp_remove_dead id d1 e d2 a : aq_dead a = d1 ++ e :: d2 -> dl_job_id e = id ->
    spec_step cap a (ORemoveDead id, RFlag true) (MkAQ (aq_ready a) (aq_delayed a) (aq_inflight a) (d1 ++ d2))
| sp_remove_dead_none id a : Forall (fun e => dl_job_id e <> id) (aq_dead a) -> spec_step cap a (ORemoveDead id, RFlag false) a
| sp_drain a : spec_step cap a (ODrainDead, RCount (Z.of_nat (length (aq_dead a)))) (MkAQ (aq_ready a) (aq_delayed a) (aq_inflight a) []).

(** The job ids a history accepted, and those it settled. *)
Definition accepted (l : qop * qreply) : list string :=
  match l with
  | (OEnqueue p, RDone) | (OEnqueueDelayed p _ _, RDone) => [job_id p]
  | _ => []
  end.
Definition settled (l : qop * qreply) : list string :=
  match l with (OAck id, _) | (OFail id _ _, _) => [id] | _ => [] end.
Definition held_by (a : aqueue) (id : string) : Prop :=
  id ∈ job_id <$> aq_ready a \/ id ∈ (fun dp => job_id dp.2) <$> aq_delayed a \/
  exists p t, aq_inflight a !! id = Some (p, t).

Definition keyed (a : aqueue) : Prop := forall id p t, aq_inflight a !! id = Some (p, t) -> job_id p = id.

Lemma spec_keyed cap a l a' : keyed a -> spec_step cap a l a' -> keyed a'.
Proof.
  unfold keyed. intros Hk Hs id p t. destruct Hs; subst; cbn [aq_inflight]; try apply Hk.
  - rewrite lookup_insert_Some. intros [[<- [= <- <-]]|[_ Hl]]; [done|by eapply Hk].
  - rewrite lookup_delete_Some. intros [_ Hl]. by eapply Hk.
  - rewrite lookup_delete_Some. intros [_ Hl]. by eapply Hk.
  - rewrite map_lookup_filter_Some. intros [Hl _]. by eapply Hk.
Qed.

(** A step keeps every job it does not settle, and adds the one it accepts. *)
Lemma spec_holds cap a l a' id : keyed a -> spec_step cap a l a' ->
  held_by a id \/ id ∈ accepted l -> id ∈ settled l \/ held_by a' id.
Proof.
  unfold held_by. intros Hk Hs. destruct Hs; cbn [accepted settled aq_ready aq_delayed aq_inflight];
    rewrite ?fmap_app, ?elem_of_app; cbn [fmap list_fmap snd]; rewrite ?list_elem_of_singleton, ?elem_of_nil; try tauto.
  - rewrite H. cbn. rewrite elem_of_cons. intros [[[->|?]|[?|(q&t&Hq)]]|[]]; try tauto.
    + right; right; right. exists p, now. by rewrite lookup_insert_eq.
    + right; right; right. destruct (decide (job_id p = id)) as [<-|]; [exists p, now; by rewrite lookup_insert_eq|].
      exists q, t. by rewrite lookup_insert_ne.
  - destruct (decide (id = id0)) as [->|]; [tauto|]. rewrite lookup_delete_ne by done. tauto.
  - destruct (decide (id = id0)) as [->|]; [tauto|]. rewrite lookup_delete_ne by done. tauto.
  - rewrite H, fmap_app, elem_of_app, <- list_fmap_compose. unfold compose. tauto.
  - intros [[?|[?|(q&t&Hq)]]|[]]; try tauto. right. destruct (stale timeout now (q, t)) eqn:E.
    + left; right. apply list_elem_of_fmap. exists q. split; [symmetry; by eapply Hk|]. apply list_elem_of_fmap. exists (id, (q, t)). split; [done|].
      rewrite H. apply list_elem_of_In, filter_In. split; [|done]. apply list_elem_of_In. by apply elem_of_map_to_list.
    + right; right. exists q, t. rewrite H0. by apply map_lookup_filter_Some.
Qed.

(** No job is lost: along every history of the contract, an accepted job waits, is in
    flight, or has been acknowledged or failed. *)
Lemma spec_no_loss cap tr a : trace (spec_step cap) a_init tr a ->
  forall id, id ∈ (tr ≫= accepted) -> id ∈ (tr ≫= settled) \/ held_by a id.
Proof.
  intros Ht. assert (keyed a /\ forall id, id ∈ (tr ≫= accepted) -> id ∈ (tr ≫= settled) \/ held_by a id) as [_ H]; [|done].
  revert Ht. apply (trace_ind_snoc (spec_step cap) (fun tr a => keyed a /\ forall id, id ∈ (tr ≫= accepted) -> id ∈ (tr ≫= settled) \/ held_by a id)).
  - split; [intros id p t; cbn [a_init aq_inflight]; by rewrite lookup_empty|by intros id ?%elem_of_nil].
  - intros ls s1 l s2 _ [Hk IH] Hs. split; [by eapply spec_keyed|]. intros id. rewrite !bind_app, !elem_of_app. cbn. rewrite !app_nil_r.
    intros Hid. assert (id ∈ (ls ≫= settled) \/ (held_by s1 id \/ id ∈ accepted l)) as [?|Hh] by (destruct Hid as [Hid|?]; [destruct (IH id Hid)|]; tauto); [tauto|].
    destruct (spec_holds _ _ _ _ _ Hk Hs Hh); tauto.
Qed.

(** ** [InMemoryQueueBackend] *)
Record memq := MkMem {
  mq_max : Z;
  mq_q : list QueueJobPayload;
  mq_inflight : dict (QueueJobPayload * Z);
  mq_dlq : list dead_letter;
  mq_timers : list (Z * QueueJobPayload);      (* the running timers and when they fire *)
  mq_delayed_count : Z
}.

(** [__init__] *)
Definition mem_init (cap : Z) : memq := MkMem cap [] [] [] [] 0.

(** [_pending_depth] *)
Definition pending_depth (s : memq) : Z := Z.of_nat (length (mq_q s)) + mq_delayed_count s.

(** [_reject_if_full] *)
Definition reject_if_full (s : memq) : result unit :=
  if mq_max s <=? pending_depth s then Raise (saturated (mq_max s)) else Ok ().

(** [queue.Queue]: a queue with a positive [maxsize] is full at that size. *)
Definition q_full (s : memq) : bool := (0 <? mq_max s) && (mq_max s <=? Z.of_nat (length (mq_q s))).
Definition q_put (p : QueueJobPayload) (s : memq) : memq :=
  MkMem (mq_max s) (mq_q s ++ [p]) (mq_inflight s) (mq_dlq s) (mq_timers s) (mq_delayed_count s).
Definition put_nowait (p : QueueJobPayload) (s : memq) : memq * result unit :=
  if q_full s then (s, Raise (Exn "Full" "")) else (q_put p s, Ok ()).

(** [enqueue] *)
Definition mem_enqueue (p : QueueJobPayload) (s : memq) : memq * result unit :=
  match reject_if_full s with
  | Raise e => (s, Raise e)
  | Ok _ => put_nowait p s
  end.

(** [dequeue] *)
Definition mem_dequeue (now : Z) (s : memq) : memq * option QueueJobPayload :=
  match mq_q s with
  | [] => (s, None)
  | p :: q' => (MkMem (mq_max s) q' (dset (mq_inflight s) (job_id p) (p, now)) (mq_dlq s) (mq_timers s) (mq_delayed_count s), Some p)
  end.

(** [ack] *)
Definition mem_ack (id : string) (s : memq) : memq :=
  MkMem (mq_max s) (mq_q s) (ddel (mq_inflight s) id) (mq_dlq s) (mq_timers s) (mq_delayed_count s).

(** [fail] *)
Definition mem_fail (id err : string) (now : Z) (s : memq) : memq :=
  MkMem (mq_max s) (mq_q s) (ddel (mq_inflight s) id)
    (mq_dlq s ++ [MkDead id (fst <$> dget (mq_inflight s) id) err now]) (mq_timers s) (mq_delayed_count s).

(** [enqueue_delayed], and [_fire] of its timer: the counter goes down whether the job
    was put or not. *)
Definition mem_enqueue_delayed (p : QueueJobPayload) (delay now : Z) (s : memq) : memq * result unit :=
  match reject_if_full s with
  | Raise e => (s, Raise e)
  | Ok _ => (MkMem (mq_max s) (mq_q s) (mq_inflight s) (mq_dlq s) (mq_timers s ++ [(now + delay, p)]) (mq_delayed_count s + 1), Ok ())
  end.
Definition mem_fire (i : nat) (s : memq) : memq :=
  match mq_timers s !! i with
  | None => s
  | Some (_, p) =>
      let s1 := (put_nowait p s).1 in
      MkMem (mq_max s1) (mq_q s1) (mq_inflight s1) (mq_dlq s1) (delete i (mq_timers s1)) (Z.max 0 (mq_delayed_count s1 - 1))
  end.

(** [requeue_stale_jobs]: the stale jobs leave the in-flight table, then each is put
    with a blocking [put]; the rest is what the call still holds when it blocks. *)
Definition take_stale (timeout now : Z) (s : memq) : memq * list (string * (QueueJobPayload * Z)) :=
  (MkMem (mq_max s) (mq_q s) (List.filter (fun e => negb (stale timeout now e.2)) (mq_inflight s)) (mq_dlq s) (mq_timers s) (mq_delayed_count s),
   List.filter (fun e => stale timeout now e.2) (mq_inflight s)).
Fixpoint put_all (l : list QueueJobPayload) (s : memq) : memq * list QueueJobPayload :=
  match l with
  | [] => (s, [])
  | p :: l' => if q_full s then (s, l) else put_all l' (q_put p s)
  end.
Definition mem_requeue_stale (timeout now : Z) (s : memq) : memq * qreply :=
  let (s1, l) := take_stale timeout now s in
  match put_all (map (fun e => e.2.1) l) s1 with
  | (s2, []) => (s2, RCount (Z.of_nat (length l)))
  | (s2, held) => (s2, RBlocked held)
  end.

(** [remove_dead_letter] and [drain_dead_letters] *)
Fixpoint remove_dead (id : string) (l : list dead_letter) : list dead_letter * bool :=
  match l with
  | [] => ([], false)
  | e :: l' => if dl_job_id e =s id then (l', true) else let (r, b) := remove_dead id l' in (e :: r, b)
  end.
Definition with_dlq (s : memq) (l : list dead_letter) : memq :=
  MkMem (mq_max s) (mq_q s) (mq_inflight s) l (mq_timers s) (mq_delayed_count s).
Definition mem_remove_dead (id : string) (s : memq) : memq * bool :=
  let (l, b) := remove_dead id (mq_dlq s) in (with_dlq s l, b).
Definition mem_drain (s : memq) : memq * Z := (with_dlq s [], Z.of_nat (length (mq_dlq s))).

Definition reply_of (r : result unit) : qreply := match r with Ok _ => RDone | Raise e => RRaise e end.

(** The steps of a process; [OTick] is one timer thread that is due. *)
Inductive mem_step : memq -> qop * qreply -> memq -> Prop :=
| ms_enqueue p s s' r : mem_enqueue p s = (s', r) -> mem_step s (OEnqueue p, reply_of r) s'
| ms_delay p delay now s s' r : mem_enqueue_delayed p delay now s = (s', r) -> mem_step s (OEnqueueDelayed p delay now, reply_of r) s'
| ms_dequeue now s s' o : mem_dequeue now s = (s', o) -> mem_step s (ODequeue now, RJob o) s'
| ms_ack id s : mem_step s (OAck id, RDone) (mem_ack id s)
| ms_fail id err now s : mem_step s (OFail id err now, RDone) (mem_fail id err now s)
| ms_fire now i due p s : mq_timers s !! i = Some (due, p) -> due <= now -> mem_step s (OTick now, RDone) (mem_fire i s)
| ms_requeue timeout now s s' r : mem_requeue_stale timeout now s = (s', r) -> mem_step s (ORequeueStale timeout now, r) s'
| ms_remove id s s' b : mem_remove_dead id s = (s', b) -> mem_step s (ORemoveDead id, RFlag b) s'
| ms_drain s s' n : mem_drain s = (s', n) -> mem_step s (ODrainDead, RCount n) s'.

(** ** Dictionaries as maps *)
Section dict_map.
Context {V : Type}.
Implicit Types (d : dict V).

Lemma dict_map_lookup d k : (list_to_map d : gmap string V) !! k = dget d k.
Proof.
  induction d as [|[j v] d IH]; [done|]. cbn [list_to_map dget foldr fst snd]. destruct (j =s k) eqn:E; breflect; subst.
  - by rewrite lookup_insert_eq.
  - by rewrite lookup_insert_ne.
Qed.

Lemma dict_map_dset d k v : (list_to_map (dset d k v) : gmap string V) = <[k := v]> (list_to_map d).
Proof.
  apply map_eq. intros i. rewrite dict_map_lookup. destruct (decide (i = k)) as [->|].
  - by rewrite lookup_insert_eq, dget_dset_eq.
  - by rewrite lookup_insert_ne, dget_dset_ne, dict_map_lookup.
Qed.

Lemma dict_map_ddel d k : (list_to_map (ddel d k) : gmap string V) = delete k (list_to_map d).
Proof.
  apply map_eq. intros i. rewrite dict_map_lookup. destruct (decide (i = k)) as [->|].
  - by rewrite lookup_delete_eq, dget_ddel_eq.
  - by rewrite lookup_delete_ne, dget_ddel_ne, dict_map_lookup.
Qed.

Lemma dict_filter_wf (f : string * V -> bool) d : dict_wf d -> dict_wf (List.filter f d).
Proof.
  unfold dict_wf, dkeys. induction d as [|[k v] d IH]; [done|]. intros [Hk Hd]%NoDup_cons. cbn [List.filter].
  destruct (f (k, v)); [|by apply IH]. apply NoDup_cons. split; [|by apply IH].
  intros [kv [E Hin]]%list_elem_of_fmap. apply Hk. apply list_elem_of_fmap. exists kv. split; [done|].
  apply list_elem_of_In in Hin. apply filter_In in Hin as [Hin _]. by apply list_elem_of_In.
Qed.

Lemma dict_map_filter (f : V -> bool) d : dict_wf d ->
  (list_to_map (List.filter (fun e => negb (f e.2)) d) : gmap string V) =
  filter (fun e : string * V => f e.2 = false) (list_to_map d : gmap string V).
Proof.
  intros Hd. apply map_eq. intros i. apply option_eq. intros v. rewrite map_lookup_filter_Some, dict_map_lookup, dict_map_lookup.
  split.
  - intros H%dget_Some_elem. apply list_elem_of_In, filter_In in H as [H Hf]. rewrite <- list_elem_of_In in H. cbn in Hf.
    split; [by apply dget_elem|by apply negb_true_iff].
  - intros [H Hf]. apply dget_elem; [by apply dict_filter_wf|]. apply list_elem_of_In, filter_In. rewrite <- list_elem_of_In.
    split; [by apply dget_Some_elem|by apply negb_true_iff].
Qed.

Lemma dict_map_to_list d : dict_wf d -> map_to_list (list_to_map d : gmap string V) ≡ₚ d.
Proof. intros Hd. by apply map_to_list_to_map. Qed.
End dict_map.

#[export] Instance list_filter_perm {A} (f : A -> bool) : Proper ((≡ₚ) ==> (≡ₚ)) (List.filter f).
Proof.
  intros l k H. induction H as [|x l k H IH|x y l|l k m H1 IH1 H2 IH2]; cbn; [done| | |by rewrite IH1].
  - destruct (f x); [by rewrite IH|done].
  - destruct (f x), (f y); try done. apply Permutation_swap.
Qed.

(** ** The in-memory backend implements the contract *)
Definition mem_abs (s : memq) : aqueue := MkAQ (mq_q s) (mq_timers s) (list_to_map (mq_inflight s)) (mq_dlq s).

Record mem_inv (cap : Z) (s : memq) : Prop := {
  mi_cap : mq_max s = cap;
  mi_pos : 0 < cap;
  mi_wf : dict_wf (mq_inflight s);
  mi_count : mq_delayed_count s = Z.of_nat (length (mq_timers s));
  mi_bound : pending_depth s <= cap
}.

(** There is room for what a recovery of stale jobs puts back. *)
Definition room (s : memq) (op : qop) : Prop :=
  match op with
  | ORequeueStale timeout now => pending_depth s + Z.of_nat (length (take_stale timeout now s).2) <= mq_max s
  | _ => True
  end.
Definition roomy_step (s : memq) (l : qop * qreply) (s' : memq) : Prop := mem_step s l s' /\ room s l.1.

Lemma not_full s cap : mem_inv cap s -> pending_depth s < cap \/ mq_timers s <> [] -> q_full s = false.
Proof.
  intros [Hc Hp _ Hn Hb] H. unfold q_full, pending_depth in *. apply andb_false_iff. right. apply Z.leb_gt.
  destruct H as [H|H]; [lia|]. destruct (mq_timers s); [done|cbn in *; lia].
Qed.

Lemma put_all_fits cap l s : mq_max s = cap -> 0 < cap -> Z.of_nat (length (mq_q s)) + Z.of_nat (length l) <= cap ->
  put_all l s = (MkMem (mq_max s) (mq_q s ++ l) (mq_inflight s) (mq_dlq s) (mq_timers s) (mq_delayed_count s), []).
Proof.
  revert s. induction l as [|p l IH]; intros s Hc Hp Hl; [cbn; rewrite app_nil_r; by destruct s|]. cbn [put_all length] in *.
  assert (q_full s = false) as -> by (unfold q_full; apply andb_false_iff; right; apply Z.leb_gt; lia).
  rewrite IH; [|done|done|]; unfold q_put; cbn [mq_q mq_max mq_inflight mq_dlq mq_timers mq_delayed_count]; [by rewrite <- app_assoc|].
  rewrite length_app. cbn. lia.
Qed.

Lemma remove_dead_spec id l : match remove_dead id l with
  | (r, true) => exists d1 e d2, l = d1 ++ e :: d2 /\ dl_job_id e = id /\ r = d1 ++ d2
  | (r, false) => r = l /\ Forall (fun e => dl_job_id e <> id) l
  end.
Proof.
  induction l as [|e l IH]; [by cbn|]. cbn [remove_dead]. destruct (dl_job_id e =s id) eqn:E; breflect; [by exists [], e, l|].
  destruct (remove_dead id l) as [r [|]].
  - destruct IH as (d1&e'&d2&->&He&->). by exists (e :: d1), e', d2.
  - destruct IH as [-> IH]. by split; [|constructor].
Qed.

Lemma mem_put_step cap p s s' r : mem_inv cap s -> mem_enqueue p s = (s', r) ->
  spec_step cap (mem_abs s) (OEnqueue p, reply_of r) (mem_abs s') /\ mem_inv cap s'.
Proof.
  intros Hi. pose proof Hi as [Hc Hp Hw Hn Hb]. unfold mem_enqueue, reject_if_full. destruct (mq_max s <=? pending_depth s) eqn:E; breflect.
  - intros [= <- <-]. split; [|done]. rewrite Hc in E |- *. apply sp_enqueue_full. unfold a_pending, mem_abs, pending_depth in *. cbn. lia.
  - unfold put_nowait. rewrite (not_full s cap Hi) by lia. intros [= <- <-]. split.
    + apply (sp_enqueue cap p (mem_abs s)). unfold a_pending, mem_abs, pending_depth in *. cbn. lia.
    + split; try done. unfold pending_depth, q_put in *. cbn. rewrite length_app. cbn. lia.
Qed.

Lemma mem_delay_step cap p delay now s s' r : mem_inv cap s -> mem_enqueue_delayed p delay now s = (s', r) ->
  spec_step cap (mem_abs s) (OEnqueueDelayed p delay now, reply_of r) (mem_abs s') /\ mem_inv cap s'.
Proof.
  intros Hi. pose proof Hi as [Hc Hp Hw Hn Hb]. unfold mem_enqueue_delayed, reject_if_full. destruct (mq_max s <=? pending_depth s) eqn:E; breflect.
  - intros [= <- <-]. split; [|done]. rewrite Hc in E |- *. apply sp_delay_full. unfold a_pending, mem_abs, pending_depth in *. cbn. lia.
  - intros [= <- <-]. split.
    + apply (sp_delay cap p delay now (mem_abs s)). unfold a_pending, mem_abs, pending_depth in *. cbn. lia.
    + split; try done; unfold pending_depth in *; cbn; rewrite ?length_app; cbn; lia.
Qed.

Lemma mem_fire_step cap now i due p s : mem_inv cap s -> mq_timers s !! i = Some (due, p) -> due <= now ->
  spec_step cap (mem_abs s) (OTick now, RDone) (mem_abs (mem_fire i s)) /\ mem_inv cap (mem_fire i s).
Proof.
  intros Hi Ht Hdue. pose proof Hi as [Hc Hp Hw Hn Hb]. unfold mem_fire. rewrite Ht. unfold put_nowait.
  rewrite (not_full s cap Hi) by (right; intros H0; by rewrite H0 in Ht). cbn. split.
  - apply (sp_tick cap now [(due, p)] (delete i (mq_timers s)) (mem_abs s)); [|by repeat constructor].
    cbn. by apply delete_Permutation.
  - pose proof (length_delete _ _ (mk_is_Some _ _ Ht)) as Hl. pose proof (lookup_lt_Some _ _ _ Ht).
    split; try done; unfold pending_depth in *; cbn; rewrite ?length_app; cbn; lia.
Qed.

Lemma mem_requeue_step cap timeout now s s' r : mem_inv cap s -> room s (ORequeueStale timeout now) ->
  mem_requeue_stale timeout now s = (s', r) ->
  spec_step cap (mem_abs s) (ORequeueStale timeout now, r) (mem_abs s') /\ mem_inv cap s'.
Proof.
  intros Hi Hr. pose proof Hi as [Hc Hp Hw Hn Hb]. unfold room, mem_requeue_stale, take_stale, pending_depth in *. cbn [snd] in Hr.
  set (l := List.filter _ _) in Hr. rewrite (put_all_fits cap); cbn [mq_max mq_q]; [|done|done|rewrite length_map; fold l; lia].
  intros [= <- <-]. fold l. split.
  - apply (sp_requeue cap timeout now l _ (mem_abs s)).
    + cbn. by rewrite (dict_map_to_list _ Hw).
    + cbn. by apply dict_map_filter.
  - split; try done; cbn; [by apply dict_filter_wf|]. unfold pending_depth. cbn. rewrite length_app, length_map. lia.
Qed.

Lemma mem_step_simulates cap s l s' : mem_inv cap s -> roomy_step s l s' ->
  spec_step cap (mem_abs s) l (mem_abs s') /\ mem_inv cap s'.
Proof.
  intros Hi [Hs Hr]. pose proof Hi as [Hc Hp Hw Hn Hb]. destruct Hs as [p s s' r He|p delay now s s' r He|now s s' o He|id s|id err now s|now i due p s Ht Hd|timeout now s s' r He|id s s' b He|s s' n He].
  - by apply mem_put_step.
  - by apply mem_delay_step.
  - unfold mem_dequeue in He. destruct (mq_q s) as [|p q] eqn:Eq.
    + simplify_eq. split; [|done]. by apply sp_dequeue_none.
    + injection He as <- <-. split.
      * unfold mem_abs at 2. cbn. rewrite dict_map_dset. by apply (sp_dequeue cap now p q (mem_abs s)).
      * split; try done; cbn; [by apply dset_wf|]. unfold pending_depth in *. rewrite Eq in Hb. cbn in *. lia.
  - split; [|split; try done; cbn; by apply ddel_wf]. unfold mem_abs, mem_ack. cbn. rewrite dict_map_ddel. apply (sp_ack cap id (mem_abs s)).
  - split; [|split; try done; cbn; by apply ddel_wf]. unfold mem_abs, mem_fail. cbn. rewrite dict_map_ddel, <- dict_map_lookup.
    apply (sp_fail cap id err now (mem_abs s)).
  - by eapply mem_fire_step.
  - by apply mem_requeue_step.
  - unfold mem_remove_dead in He. pose proof (remove_dead_spec id (mq_dlq s)) as H. destruct (remove_dead id (mq_dlq s)) as [r [|]]; injection He as <- <-.
    + destruct H as (d1&e&d2&Hd&He&->). split; [|done]. by apply (sp_remove_dead cap id d1 e d2 (mem_abs s)).
    + destruct H as [-> H]. split; [|done]. by apply (sp_remove_dead_none cap id (mem_abs s)).
  - injection He as <- <-. split; [|done]. apply (sp_drain cap (mem_abs s)).
Qed.


(** The witness's history: a job is taken and becomes stale, is put back and taken again,
    fails, and a delayed one becomes ready. *)
Definition demo_job (id : string) : QueueJobPayload := MkJob id "task" id [] [] "t".
Definition demo_history : list (qop * qreply) :=
  [(OEnqueue (demo_job "a"), RDone); (ODequeue 0, RJob (Some (demo_job "a"))); (OEnqueueDelayed (demo_job "b") 5 0, RDone);
   (OEnqueue (demo_job "c"), RRaise (saturated 1)); (OTick 5, RDone); (ODequeue 6, RJob (Some (demo_job "b")));
   (ORequeueStale 8 10, RCount 1); (OFail "b" "boom" 11, RDone)].


(** Without that room a delayed job is lost: on a queue of capacity one, a job that is
    taken and becomes stale and a second job accepted with a delay lead to a state in
    which the timer of the second fires on a full queue, and afterwards the second job is
    in no part of the queue although nothing settled it. *)
Theorem stale_requeue_loses_delayed p1 p2 timeout delay now : 0 < timeout -> 0 < delay -> timeout + delay < now -> job_id p1 <> job_id p2 ->
  exists tr s, trace mem_step (mem_init 1) tr s /\
    job_id p2 ∈ (tr ≫= accepted) /\ job_id p2 ∉ (tr ≫= settled) /\ ~ held_by (mem_abs s) (job_id p2) /\ mq_dlq s = [].
Proof.
  intros Ht Hd Hnow Hne.
  exists [(OEnqueue p1, RDone); (ODequeue 0, RJob (Some p1)); (OEnqueueDelayed p2 delay 0, RDone); (ORequeueStale timeout now, RCount 1); (OTick now, RDone)],
    (MkMem 1 [p1] [] [] [] 0). split_and!.
  - eapply trace_cons; [apply (ms_enqueue _ _ _ (Ok ())); reflexivity|].
    eapply trace_cons; [apply ms_dequeue; reflexivity|].
    eapply trace_cons; [apply (ms_delay _ _ _ _ _ (Ok ())); reflexivity|].
    eapply trace_cons.
    { apply (ms_requeue _ _ _ (MkMem 1 [p1] [] [] [(delay, p2)] 1)). unfold mem_requeue_stale, take_stale, stale. cbn -[Z.ltb].
      by rewrite (proj2 (Z.ltb_lt timeout (now - 0))) by lia. }
    eapply trace_cons; [|apply trace_nil]. apply (ms_fire now 0 delay p2); [done|lia].
  - cbn. set_solver.
  - cbn. set_solver.
  - unfold held_by. cbn. intros [H|[H|(p&t&H)]]; [set_solver|set_solver|by rewrite lookup_empty in H].
  - done.
Qed.

Lemma stale_requeue_loses_delayed_witness :
  exists tr s, trace mem_step (mem_init 1) tr s /\
    job_id (demo_job "b") ∈ (tr ≫= accepted) /\ job_id (demo_job "b") ∉ (tr ≫= settled) /\ ~ held_by (mem_abs s) (job_id (demo_job "b")) /\ mq_dlq s = [].
Proof. apply (stale_requeue_loses_delayed (demo_job "a") (demo_job "b") 300 5 400); [lia|lia|lia|done]. Defined.
