(* ===== verification/RedisQueue.v ===== *)
(** * Redis queue backend ([RedisQueueBackend] of [AINDY/core/distributed_queue.py])

    The commands the backend sends, on an abstract server state [X].  [RedisServer]
    states what the Redis documentation promises of each command and of the Lua
    scripts of the source, on the four keys of the backend ([rdata]): a command that
    raises either took no effect or, when the reply was lost, took its effect.
    Scores and times are in microseconds. *)
From S2P Require Import Prelude PyDatetime Json PyEffects JobQueue.
Local Open Scope Z_scope.

(** ** The data under the keys of the backend *)
Record rdata := MkR {
  rd_queue : list string;             (* <queue>, head first *)
  rd_delayed : gmap string Z;         (* <queue>:delayed, member to score *)
  rd_inflight : gmap string string;   (* <queue>:inflight *)
  rd_dead : list string               (* <queue>:dead, head first *)
}.
Definition r_empty : rdata := MkR [] ∅ ∅ [].

(** Members with a score up to [now], by score and then by member, as [ZRANGEBYSCORE] lists them *)
Definition zle (e1 e2 : string * Z) : Prop := e1.2 < e2.2 \/ (e1.2 = e2.2 /\ String.le e1.1 e2.1).
#[export] Instance zle_dec : RelDecision zle.
Proof. intros e1 e2. unfold zle. apply _. Defined.
Definition zrange (now : Z) (z : gmap string Z) : list (string * Z) :=
  take 100 (List.filter (fun e => e.2 <=? now) (merge_sort zle (map_to_list z))).

Definition r_total (d : rdata) : Z := Z.of_nat (length (rd_queue d)) + Z.of_nat (size (rd_delayed d)).
Definition lpush (raw : string) (d : rdata) : rdata := MkR (raw :: rd_queue d) (rd_delayed d) (rd_inflight d) (rd_dead d).

(** [_ENQUEUE_WITH_CAPACITY_LUA] *)
Definition lua_enqueue (raw : string) (cap : Z) (d : rdata) : rdata * Z :=
  if cap <=? r_total d then (d, -1) else let d' := lpush raw d in (d', Z.of_nat (length (rd_queue d'))).

(** [_ENQUEUE_DELAYED_WITH_CAPACITY_LUA] *)
Definition lua_enqueue_delayed (raw : string) (score cap : Z) (d : rdata) : rdata * Z :=
  if cap <=? r_total d then (d, -1)
  else (MkR (rd_queue d) (<[raw := score]> (rd_delayed d)) (rd_inflight d) (rd_dead d),
        match rd_delayed d !! raw with Some _ => 0 | None => 1 end).

(** [_PROCESS_DELAYED_LUA] *)
Definition lua_promote (d : rdata) (e : string * Z) : rdata :=
  let d' := lpush e.1 d in MkR (rd_queue d') (delete e.1 (rd_delayed d')) (rd_inflight d') (rd_dead d').
Definition lua_process_delayed (now : Z) (d : rdata) : rdata * Z :=
  let ready := zrange now (rd_delayed d) in (foldl lua_promote d ready, Z.of_nat (length ready)).

(** ** The commands *)
Inductive rcmd :=
| CPing
| CEnqueueScript (raw : string) (cap : Z)
| CDelayScript (raw : string) (score cap : Z)
| CProcessScript (now : Z)
| CRpop
| CBrpop (timeout : Z)
| CLpush (raw : string)
| CHset (field value : string)
| CHget (field : string)
| CHdel (field : string)
| CHgetall
| CLpushDead (raw : string)
| CLrangeDead (first last : Z)
| CLremDead (raw : string)
| CDelDead
| CLlen
| CZcard
| CHlen
| CLlenDead.

Inductive rreply :=
| RInt (z : Z)
| RText (o : option string)
| RPairs (l : list (string * string))
| RTexts (l : list string).

(** [RPOP] takes the tail. *)
Definition rpop (d : rdata) : rdata * option string :=
  match rev (rd_queue d) with
  | [] => (d, None)
  | raw :: r => (MkR (rev r) (rd_delayed d) (rd_inflight d) (rd_dead d), Some raw)
  end.
(** [LREM key 1 value] *)
Fixpoint lrem (raw : string) (l : list string) : list string * Z :=
  match l with
  | [] => ([], 0)
  | x :: l' => if x =s raw then (l', 1) else let (r, n) := lrem raw l' in (x :: r, n)
  end.
Definition set_inflight (d : rdata) (m : gmap string string) : rdata := MkR (rd_queue d) (rd_delayed d) m (rd_dead d).
Definition set_dead (d : rdata) (l : list string) : rdata := MkR (rd_queue d) (rd_delayed d) (rd_inflight d) l.
(** [LRANGE key first last], with -1 for the last element *)
Definition lrange (first last : Z) (l : list string) : list string :=
  let last' := if last <? 0 then Z.of_nat (length l) + last else last in
  take (Z.to_nat (last' - first + 1)) (drop (Z.to_nat first) l).

(** The documented effect of a command, and its reply *)
Definition effect (c : rcmd) (d : rdata) : rdata :=
  match c with
  | CEnqueueScript raw cap => (lua_enqueue raw cap d).1
  | CDelayScript raw score cap => (lua_enqueue_delayed raw score cap d).1
  | CProcessScript now => (lua_process_delayed now d).1
  | CRpop | CBrpop _ => (rpop d).1
  | CLpush raw => lpush raw d
  | CHset f v => set_inflight d (<[f := v]> (rd_inflight d))
  | CHdel f => set_inflight d (delete f (rd_inflight d))
  | CLpushDead raw => set_dead d (raw :: rd_dead d)
  | CLremDead raw => set_dead d (lrem raw (rd_dead d)).1
  | CDelDead => set_dead d []
  | _ => d
  end.
Definition reply_ok (c : rcmd) (d : rdata) (r : rreply) : Prop :=
  match c with
  | CPing => True
  | CEnqueueScript raw cap => r = RInt (lua_enqueue raw cap d).2
  | CDelayScript raw score cap => r = RInt (lua_enqueue_delayed raw score cap d).2
  | CProcessScript now => r = RInt (lua_process_delayed now d).2
  | CRpop | CBrpop _ => r = RText (rpop d).2
  | CLpush raw => r = RInt (Z.of_nat (length (rd_queue d)) + 1)
  | CHset f v => r = RInt (match rd_inflight d !! f with Some _ => 0 | None => 1 end)
  | CHget f => r = RText (rd_inflight d !! f)
  | CHdel f => r = RInt (match rd_inflight d !! f with Some _ => 1 | None => 0 end)
  | CHgetall => exists l, r = RPairs l /\ l ≡ₚ map_to_list (rd_inflight d)
  | CLpushDead raw => r = RInt (Z.of_nat (length (rd_dead d)) + 1)
  | CLrangeDead first last => r = RTexts (lrange first last (rd_dead d))
  | CLremDead raw => r = RInt (lrem raw (rd_dead d)).2
  | CDelDead => r = RInt (match rd_dead d with [] => 0 | _ => 1 end)
  | CLlen => r = RInt (Z.of_nat (length (rd_queue d)))
  | CZcard => r = RInt (Z.of_nat (size (rd_delayed d)))
  | CHlen => r = RInt (Z.of_nat (size (rd_inflight d)))
  | CLlenDead => r = RInt (Z.of_nat (length (rd_dead d)))
  end.

Class RedisServer (X : Type) := {
  exec : rcmd -> X -> X * result rreply;
  view : X -> rdata;
  exec_ok c x x' r : exec c x = (x', Ok r) -> view x' = effect c (view x) /\ reply_ok c (view x) r;
  exec_raise c x x' e : exec c x = (x', Raise e) -> view x' = effect c (view x) \/ view x' = view x
}.

(** ** The backend *)
Record redis_config := MkRC {
  rc_cap : Z;              (* max_queue_size *)
  rc_threshold : Z;        (* circuit_breaker_threshold *)
  rc_open : Z              (* circuit_breaker_open_seconds *)
}.

(** The fields of one backend object, and the server it is connected to *)
Record rq (X : Type) := MkRq { rq_x : X; rq_failures : Z; rq_open_until : Z }.
Arguments MkRq {X}. Arguments rq_x {X}. Arguments rq_failures {X}. Arguments rq_open_until {X}.

Section backend.
Context {X : Type} {server : RedisServer X} {iso : IsoCodec}.
Context (cfg : redis_config) (transient : exn -> bool).   (* [self._redis_exceptions] *)
Implicit Types (s : rq X) (mono now : Z).

Definition command (c : rcmd) : SE (rq X) rreply := fun s =>
  let (x, r) := exec c (rq_x s) in (MkRq x (rq_failures s) (rq_open_until s), r).

(** [_check_circuit_breaker] *)
Definition check_circuit_breaker mono : SE (rq X) unit := fun s =>
  if mono <? rq_open_until s then (s, Raise (Exn "ConnectionError" "Circuit breaker open")) else (s, Ok ()).

(** [_record_success] and [_record_failure] *)
Definition record_success s : rq X := MkRq (rq_x s) 0 0.
Definition record_failure mono (e : exn) s : rq X :=
  if negb (transient e) then s else
  let n := rq_failures s + 1 in
  MkRq (rq_x s) n (if rc_threshold cfg <=? n then mono + rc_open cfg else rq_open_until s).

(** [_redis_retry]: a transient failure is tried again, [more] times at most. *)
Fixpoint attempts (more : nat) (c : rcmd) : SE (rq X) rreply :=
  try_except (command c) (fun e =>
    match more with
    | O => throw e
    | S more' => if transient e then attempts more' c else throw e
    end).

(** [_run_redis_operation] *)
Definition run_redis_operation mono (c : rcmd) : SE (rq X) rreply :=
  r ← try_except (attempts 2 c) (fun e => if transient e then writes (record_failure mono e) ≫= fun _ => throw e else throw e);
  writes record_success ≫= fun _ => mret r.

(** [assert_ready] *)
Definition assert_ready mono : SE (rq X) unit :=
  check_circuit_breaker mono ≫= fun _ => run_redis_operation mono CPing ≫= fun _ => mret ().

Definition as_int (r : rreply) : SE (rq X) Z := match r with RInt z => mret z | _ => throw (Exn "TypeError" "int") end.

(** [get_metrics]: the commands are sent outside [_run_redis_operation]. *)
Record queue_metrics := MkMetrics {
  qm_queue_depth : Z; qm_in_flight : Z; qm_failed : Z; qm_delayed : Z; qm_dlq_depth : Z; qm_max : Z; qm_total_pending : Z
}.
Definition get_dlq_depth : SE (rq X) Z := command CLlenDead ≫= as_int.
Definition get_metrics : SE (rq X) queue_metrics :=
  q ← command CLlen ≫= as_int; z ← command CZcard ≫= as_int; h ← command CHlen ≫= as_int;
  f ← get_dlq_depth; d ← get_dlq_depth;
  mret (MkMetrics q h f z d (rc_cap cfg) (q + z)).
Definition refresh_metrics : SE (rq X) unit := get_metrics ≫= fun _ => mret ().

(** [enqueue] *)
Definition redis_enqueue mono (p : QueueJobPayload) : SE (rq X) unit :=
  check_circuit_breaker mono ≫= fun _ =>
  n ← run_redis_operation mono (CEnqueueScript (to_json p) (rc_cap cfg)) ≫= as_int;
  if n =? -1 then throw (saturated (rc_cap cfg)) else refresh_metrics.

(** The in-flight entry of a payload *)
Definition inflight_entry (raw : string) now : string :=
  dumps (JObj [("payload", JStr raw); ("dequeued_at", JStr (isoformat (utc_datetime now)))]).

(** [dequeue]: a payload that cannot be decoded has left the queue and is dropped. *)
Definition redis_dequeue mono now (timeout : Z) : SE (rq X) (option QueueJobPayload) :=
  check_circuit_breaker mono ≫= fun _ =>
  r ← run_redis_operation mono (if timeout =? 0 then CRpop else CBrpop timeout);
  match r with
  | RText (Some raw) =>
      match from_json (isoformat (utc_datetime now)) raw with
      | Raise _ => mret None
      | Ok job =>
          run_redis_operation mono (CHset (job_id job) (inflight_entry raw now)) ≫= fun _ =>
          refresh_metrics ≫= fun _ => mret (Some job)
      end
  | _ => mret None
  end.

(** [ack] *)
Definition redis_ack mono (id : string) : SE (rq X) unit :=
  run_redis_operation mono (CHdel id) ≫= fun _ => refresh_metrics.

(** [fail] *)
Definition payload_raw_of (inflight_raw : option string) : json :=
  match loads (str_or inflight_raw "{}") with
  | Ok (JObj d) => default (JStr "") (dget d "payload")
  | _ => JStr ""
  end.
Definition dead_entry (id : string) (payload_raw : json) (err : string) now : string :=
  dumps (JObj [("job_id", JStr id); ("payload_raw", payload_raw); ("error", JStr err); ("failed_at", JStr (isoformat (utc_datetime now)))]).
Definition redis_fail mono now (id err : string) : SE (rq X) unit :=
  r ← run_redis_operation mono (CHget id);
  run_redis_operation mono (CHdel id) ≫= fun _ =>
  run_redis_operation mono (CLpushDead (dead_entry id (payload_raw_of (match r with RText o => o | _ => None end)) err now)) ≫= fun _ =>
  refresh_metrics.

(** [enqueue_delayed] and [process_delayed_jobs] *)
Definition redis_enqueue_delayed mono now (p : QueueJobPayload) (delay : Z) : SE (rq X) unit :=
  n ← run_redis_operation mono (CDelayScript (to_json p) (now + delay) (rc_cap cfg)) ≫= as_int;
  if n =? -1 then throw (saturated (rc_cap cfg)) else refresh_metrics.
Definition redis_process_delayed mono now : SE (rq X) Z :=
  n ← run_redis_operation mono (CProcessScript now) ≫= as_int;
  refresh_metrics ≫= fun _ => mret n.

(** [requeue_stale_jobs]: the body of the loop, whose exceptions are logged; [true] when
    the entry was put back. *)
Definition entry_of (entry_raw : string) : option (option string * Z) :=
  match loads entry_raw with
  | Ok (JObj d) =>
      match dget d "dequeued_at" with
      | Some (JStr t) =>
          match fromisoformat t with
          | Some (MkDatetime w (Some o)) => Some (match dget d "payload" with Some (JStr raw) => Some raw | _ => None end, w - o)
          | _ => None                                     (* a naive time cannot be subtracted *)
          end
      | _ => None
      end
  | _ => None
  end.
Definition requeue_entry mono now (timeout : Z) (e : string * string) : SE (rq X) bool :=
  match entry_of e.2 with
  | None => mret false
  | Some (raw, dequeued_at) =>
      if negb (timeout <? now - dequeued_at) then mret false else
      try_except (
        n ← run_redis_operation mono (CHdel e.1) ≫= as_int;
        if n =? 0 then mret false else
        match raw with
        | None => throw (Exn "KeyError" "payload")
        | Some raw => run_redis_operation mono (CLpush raw) ≫= fun _ => mret true
        end) (fun _ => mret false)
  end.
Fixpoint requeue_entries mono now (timeout : Z) (l : list (string * string)) : SE (rq X) Z :=
  match l with
  | [] => mret 0
  | e :: l' => b ← requeue_entry mono now timeout e; n ← requeue_entries mono now timeout l'; mret (n + if (b : bool) then 1 else 0)
  end.
Definition redis_requeue_stale mono now (timeout : Z) : SE (rq X) Z :=
  r ← run_redis_operation mono CHgetall;
  n ← requeue_entries mono now timeout (match r with RPairs l => l | _ => [] end);
  refresh_metrics ≫= fun _ => mret n.

(** [peek_dead_letters] *)
Definition redis_peek_dead (n : Z) : SE (rq X) (list string) :=
  r ← command (CLrangeDead 0 (Z.max 0 n - 1)); mret (match r with RTexts l => l | _ => [] end).

(** [remove_dead_letter] *)
Definition is_dead_of (id raw : string) : bool :=
  match loads raw with Ok (JObj d) => match dget d "job_id" with Some (JStr i) => i =s id | _ => false end | _ => false end.
Definition redis_remove_dead mono (id : string) : SE (rq X) bool :=
  r ← run_redis_operation mono (CLrangeDead 0 (-1));
  match List.find (is_dead_of id) (match r with RTexts l => l | _ => [] end) with
  | None => mret false
  | Some raw =>
      n ← run_redis_operation mono (CLremDead raw) ≫= as_int;
      if n =? 0 then mret false else refresh_metrics ≫= fun _ => mret (0 <? n)
  end.

(** [drain_dead_letters] *)
Definition redis_drain mono : SE (rq X) Z :=
  n ← get_dlq_depth;
  if n <=? 0 then mret 0
  else run_redis_operation mono CDelDead ≫= fun _ => refresh_metrics ≫= fun _ => mret n.
End backend.

(** ** A server that answers *)
Section answering.
Context {X : Type} {server : RedisServer X} {iso : IsoCodec}.
Context (cfg : redis_config) (transient : exn -> bool).
Hypothesis answers : forall c x, exists x' r, exec c x = (x', Ok r).
Implicit Types (s : rq X) (mono now : Z).

(** The server data behind a backend whose breaker is closed *)
Definition holds s (d : rdata) : Prop := view (rq_x s) = d /\ rq_failures s = 0 /\ rq_open_until s = 0.

Lemma wp_command c s d (Q : rq X -> result rreply -> Prop) : holds s d ->
  (forall s' r, holds s' (effect c d) -> reply_ok c d r -> Q s' (Ok r)) -> wp (command c) Q s.
Proof.
  intros (Hv&Hf&Ho) HQ. unfold wp, command. destruct (answers c (rq_x s)) as (x'&r&E). rewrite E. cbn.
  destruct (exec_ok _ _ _ _ E) as [Hv' Hr]. rewrite Hv in Hv', Hr. by apply HQ.
Qed.

Lemma wp_run_op mono c s d (Q : rq X -> result rreply -> Prop) : holds s d ->
  (forall s' r, holds s' (effect c d) -> reply_ok c d r -> Q s' (Ok r)) -> wp (run_redis_operation cfg transient mono c) Q s.
Proof.
  intros Hs HQ. unfold run_redis_operation, attempts. wp_steps. eapply wp_command; [exact Hs|].
  intros s' r (Hv&_&_) Hr. wp_steps. by apply HQ.
Qed.

Lemma wp_breaker mono s d (Q : rq X -> result unit -> Prop) : 0 <= mono -> holds s d -> Q s (Ok ()) -> wp (check_circuit_breaker mono) Q s.
Proof. intros Hm (_&_&Ho) HQ. unfold wp, check_circuit_breaker. rewrite Ho. by rewrite (proj2 (Z.ltb_ge mono 0)). Qed.

Lemma wp_int c s d z (Q : rq X -> result Z -> Prop) : holds s d -> (forall r, reply_ok c d r -> r = RInt z) ->
  (forall s', holds s' (effect c d) -> Q s' (Ok z)) -> wp (command c ≫= as_int) Q s.
Proof.
  intros Hs Hz HQ. wp_step. eapply wp_command; [exact Hs|]. intros s' r Hs' Hr. rewrite (Hz r Hr). by apply HQ.
Qed.

Definition metrics_of (d : rdata) : queue_metrics :=
  let q := Z.of_nat (length (rd_queue d)) in let z := Z.of_nat (size (rd_delayed d)) in let n := Z.of_nat (length (rd_dead d)) in
  MkMetrics q (Z.of_nat (size (rd_inflight d))) n z n (rc_cap cfg) (q + z).

Lemma wp_get_metrics s d (Q : rq X -> result queue_metrics -> Prop) :
  holds s d -> (forall s', holds s' d -> Q s' (Ok (metrics_of d))) -> wp (get_metrics cfg) Q s.
Proof.
  intros Hs HQ. unfold get_metrics, get_dlq_depth.
  do 5 (wp_step; eapply wp_int; [eassumption|by intros r ->|]; intros ? ?; cbn beta iota). wp_steps. by apply HQ.
Qed.
Lemma wp_metrics s d (Q : rq X -> result unit -> Prop) : holds s d -> (forall s', holds s' d -> Q s' (Ok ())) -> wp (refresh_metrics cfg) Q s.
Proof. intros Hs HQ. unfold refresh_metrics. wp_step. eapply wp_get_metrics; [done|]. intros s' H'. wp_steps. by apply HQ. Qed.
End answering.

(** ** What the keys hold *)
Section represents.
Context {iso : IsoCodec}.

Definition enc_inflight (e : QueueJobPayload * Z) : string := inflight_entry (to_json e.1) e.2.
Definition enc_dead (e : dead_letter) : string :=
  dead_entry (dl_job_id e) (JStr (match dl_payload e with Some p => to_json p | None => "" end)) (dl_error e) (dl_failed_at e).
Definition enc_delayed (dp : Z * QueueJobPayload) : string * Z := (to_json dp.2, dp.1).

Record represents (d : rdata) (a : aqueue) : Prop := {
  rp_queue : rd_queue d = rev (map to_json (aq_ready a));
  rp_delayed : map_to_list (rd_delayed d) ≡ₚ map enc_delayed (aq_delayed a);
  rp_inflight : rd_inflight d = enc_inflight <$> aq_inflight a;
  rp_dead : rd_dead d = rev (map enc_dead (aq_dead a));
  rp_ready_wf : Forall job_wf (aq_ready a);
  rp_delayed_wf : Forall (fun dp => job_wf dp.2) (aq_delayed a);
  rp_inflight_wf : map_Forall (fun _ e => job_wf e.1) (aq_inflight a)
}.

Lemma represents_init : represents r_empty a_init.
Proof. by split. Qed.

Lemma represents_total d a : represents d a -> r_total d = a_pending a.
Proof.
  intros H. unfold r_total, a_pending. rewrite (rp_queue _ _ H), length_rev, length_map.
  assert (size (rd_delayed d) = length (aq_delayed a)) as ->; [|done].
  rewrite <- length_map_to_list, (rp_delayed _ _ H). apply length_map.
Qed.

Lemma entry_of_enc p t : entry_of (enc_inflight (p, t)) = Some (Some (to_json p), t).
Proof.
  unfold entry_of, enc_inflight, inflight_entry. rewrite loads_dumps.
  - transitivity (match fromisoformat (isoformat (utc_datetime t)) with
      | Some (MkDatetime w (Some o)) => Some (Some (to_json p), w - o) | _ => None end); [done|].
    rewrite fromisoformat_isoformat. cbn. by rewrite Z.sub_0_r.
  - apply json_wf_obj. split; [apply (dict_wf_keys ["payload"; "dequeued_at"]); [done|by_evaluation]|by repeat constructor].
Qed.

Lemma payload_raw_enc o : payload_raw_of (enc_inflight <$> o) = JStr (match fst <$> o with Some p => to_json p | None => "" end).
Proof.
  destruct o as [[p t]|]; [|by vm_compute]. unfold payload_raw_of. cbn [fmap option_fmap option_map].
  assert (str_or (Some (enc_inflight (p, t))) "{}" = enc_inflight (p, t)) as -> by done.
  unfold enc_inflight, inflight_entry. rewrite loads_dumps; [done|].
  apply json_wf_obj. split; [apply (dict_wf_keys ["payload"; "dequeued_at"]); [done|by_evaluation]|by repeat constructor].
Qed.

Lemma to_json_inj p q : job_wf p -> job_wf q -> to_json p = to_json q -> p = q.
Proof. intros Hp Hq E. pose proof (job_roundtrip "" p Hp) as H. rewrite E, (job_roundtrip "" q Hq) in H. congruence. Qed.

(** The keys determine which jobs are held. *)
Lemma represents_held d a a' id : represents d a -> represents d a' -> held_by a id -> held_by a' id.
Proof.
  intros R R'. intros [Hid|[Hid|(p&t&Hid)]].
  - left. apply list_elem_of_fmap in Hid as (p&->&Hp). assert (to_json p ∈ rev (map to_json (aq_ready a'))) as Hin.
    { rewrite <- (rp_queue _ _ R'), (rp_queue _ _ R). apply list_elem_of_In, in_rev. rewrite rev_involutive. apply in_map. by apply list_elem_of_In. }
    apply list_elem_of_In, in_rev in Hin. apply in_map_iff in Hin as (q&E&Hq). apply list_elem_of_In in Hq. apply list_elem_of_fmap. exists q. split; [|done].
    f_equal. symmetry. apply to_json_inj; [|pose proof (rp_ready_wf _ _ R) as W; rewrite Forall_forall in W; by apply W|done].
    pose proof (rp_ready_wf _ _ R') as W; rewrite Forall_forall in W; by apply W.
  - right; left. apply list_elem_of_fmap in Hid as (dp&->&Hp). assert (enc_delayed dp ∈ map enc_delayed (aq_delayed a')) as Hin.
    { rewrite <- (rp_delayed _ _ R'), (rp_delayed _ _ R). apply list_elem_of_In, in_map. by apply list_elem_of_In. }
    apply list_elem_of_In, in_map_iff in Hin as (dq&E&Hq). apply list_elem_of_In in Hq. apply list_elem_of_fmap. exists dq. split; [|done].
    apply (f_equal fst) in E. change (to_json dq.2 = to_json dp.2) in E. f_equal. symmetry. apply to_json_inj; [|pose proof (rp_delayed_wf _ _ R) as W; rewrite Forall_forall in W; by apply (W dp)|done].
    pose proof (rp_delayed_wf _ _ R') as W; rewrite Forall_forall in W; by apply (W dq).
  - right; right. assert (is_Some ((enc_inflight <$> aq_inflight a') !! id)) as [v Hv].
    { rewrite <- (rp_inflight _ _ R'), (rp_inflight _ _ R), lookup_fmap, Hid. by eexists. }
    rewrite lookup_fmap in Hv. apply fmap_Some in Hv as ([q t']&Hq&_). eauto.
Qed.

Lemma is_dead_of_enc id e : is_dead_of id (enc_dead e) = (dl_job_id e =s id).
Proof.
  unfold is_dead_of, enc_dead, dead_entry. rewrite loads_dumps; [done|].
  apply json_wf_obj. split; [apply (dict_wf_keys ["job_id"; "payload_raw"; "error"; "failed_at"]); [done|by_evaluation]|by repeat constructor].
Qed.

Lemma lrange_all l : lrange 0 (-1) l = l.
Proof.
  unfold lrange. cbn [Z.ltb Z.compare]. rewrite drop_0. replace (Z.of_nat (length l) + -1 - 0 + 1) with (Z.of_nat (length l)) by lia.
  rewrite Nat2Z.id. apply firstn_all.
Qed.

Lemma lrem_split raw l1 l2 : raw ∉ l1 -> lrem raw (l1 ++ raw :: l2) = (l1 ++ l2, 1).
Proof.
  induction l1 as [|x l1 IH]; intros H; cbn; [by rewrite String.eqb_refl|]. apply not_elem_of_cons in H as [Hne H].
  destruct (x =s raw) eqn:E; breflect; [congruence|]. by rewrite IH.
Qed.
End represents.

(** ** The operations against the contract, on a server that answers *)
Section simulates.
Context {X : Type} {server : RedisServer X} {iso : IsoCodec}.
Context (cfg : redis_config) (transient : exn -> bool).
Hypothesis answers : forall c x, exists x' r, exec c x = (x', Ok r).
Implicit Types (s : rq X) (mono now : Z) (a : aqueue).

Definition reply_with {A} (f : A -> qreply) (r : result A) : qreply := match r with Ok x => f x | Raise e => RRaise e end.

(** The outcome of an operation is a step of the contract. *)
Definition conforms {A} (a : aqueue) (op : qop) (f : A -> qreply) (s' : rq X) (r : result A) : Prop :=
  exists a' d', spec_step (rc_cap cfg) a (op, reply_with f r) a' /\ holds s' d' /\ represents d' a'.

Lemma redis_enqueue_conforms mono p s d a : 0 <= mono -> holds s d -> represents d a -> job_wf p ->
  wp (redis_enqueue cfg transient mono p) (conforms a (OEnqueue p) (fun _ => RDone)) s.
Proof.
  intros Hm Hs Hr Hp. unfold redis_enqueue. wp_step. eapply wp_breaker; [done|exact Hs|]. cbn beta iota.
  wp_step. wp_step. eapply wp_run_op; [done|exact Hs|]. cbn [reply_ok effect]. intros s1 r H1 ->. cbn [as_int]. wp_steps.
  unfold lua_enqueue in *. rewrite (represents_total _ _ Hr) in *. destruct (rc_cap cfg <=? a_pending a) eqn:E; breflect; cbv zeta in *; cbn [fst snd] in *.
  - wp_steps. exists a, d. split_and!; [by apply sp_enqueue_full|done|done].
  - rewrite (proj2 (Z.eqb_neq _ (-1))) by lia. eapply wp_metrics; [done|exact H1|]. intros s2 H2. eexists _, _. split_and!; [by apply sp_enqueue|exact H2|].
    destruct Hr. split; cbn; try done; [by rewrite rp_queue0, map_app, rev_app_distr|]. apply Forall_app. split; [done|by apply Forall_singleton].
Qed.

Lemma redis_delay_conforms mono now p delay s d a : holds s d -> represents d a -> job_wf p -> to_json p ∉ (map_to_list (rd_delayed d)).*1 ->
  wp (redis_enqueue_delayed cfg transient mono now p delay) (conforms a (OEnqueueDelayed p delay now) (fun _ => RDone)) s.
Proof.
  intros Hs Hr Hp Hfresh. unfold redis_enqueue_delayed.
  wp_step. wp_step. eapply wp_run_op; [done|exact Hs|]. cbn [reply_ok effect]. intros s1 r H1 ->. cbn [as_int]. wp_steps.
  unfold lua_enqueue_delayed in *. rewrite (represents_total _ _ Hr) in *. destruct (rc_cap cfg <=? a_pending a) eqn:E; breflect; cbv zeta in *; cbn [fst snd] in *.
  - wp_steps. exists a, d. split_and!; [by apply sp_delay_full|done|done].
  - assert (rd_delayed d !! to_json p = None) as Hnone.
    { destruct (rd_delayed d !! to_json p) as [z|] eqn:Ez; [|done]. exfalso. apply Hfresh. apply list_elem_of_fmap. exists (to_json p, z). by rewrite elem_of_map_to_list. }
    rewrite Hnone. cbn [Z.eqb]. eapply wp_metrics; [done|exact H1|]. intros s2 H2. eexists _, _. split_and!; [by apply sp_delay|exact H2|].
    destruct Hr. split; cbn; try done.
    + rewrite map_to_list_insert, rp_delayed0, map_app by done. cbn. by rewrite Permutation_app_comm.
    + apply Forall_app. split; [done|by apply Forall_singleton].
Qed.

Lemma redis_dequeue_conforms mono now timeout s d a : 0 <= mono -> holds s d -> represents d a ->
  wp (redis_dequeue cfg transient mono now timeout) (conforms a (ODequeue now) RJob) s.
Proof.
  intros Hm Hs Hr. unfold redis_dequeue. wp_step. eapply wp_breaker; [done|exact Hs|]. cbn beta iota. wp_step.
  set (c := if timeout =? 0 then CRpop else CBrpop timeout).
  assert (forall r, reply_ok c d r -> r = RText (rpop d).2) as Hc by (subst c; by destruct (timeout =? 0)).
  assert (effect c d = (rpop d).1) as He by (subst c; by destruct (timeout =? 0)).
  eapply wp_run_op; [done|exact Hs|]. intros s1 r H1 ->%Hc. rewrite He in H1. clear Hc He c.
  unfold rpop in *. pose proof Hr as []. rewrite rp_queue0, rev_involutive in *. destruct (aq_ready a) as [|p q] eqn:Ea; cbn [map fst snd] in *.
  - wp_steps. exists a, d. split_and!; [by apply sp_dequeue_none|done|done].
  - apply Forall_cons in rp_ready_wf0 as [Hp Hq]. rewrite (job_roundtrip _ _ Hp). wp_step. eapply wp_run_op; [done|exact H1|].
    cbn [effect reply_ok]. intros s2 r2 H2 _. cbn beta iota. wp_step. eapply wp_metrics; [done|exact H2|]. intros s3 H3. cbn beta iota. wp_steps.
    eexists _, _. split_and!; [by apply sp_dequeue|exact H3|]. split; cbn; try done.
    + by rewrite rp_inflight0, fmap_insert.
    + by apply map_Forall_insert_2.
Qed.

Lemma redis_ack_conforms mono id s d a : holds s d -> represents d a ->
  wp (redis_ack cfg transient mono id) (conforms a (OAck id) (fun _ => RDone)) s.
Proof.
  intros Hs Hr. unfold redis_ack. wp_step. eapply wp_run_op; [done|exact Hs|]. cbn [effect]. intros s1 r H1 _. cbn beta iota.
  eapply wp_metrics; [done|exact H1|]. intros s2 H2. eexists _, _. split_and!; [apply sp_ack|exact H2|].
  destruct Hr. split; cbn; try done; [by rewrite rp_inflight0, fmap_delete|by apply map_Forall_delete].
Qed.

Lemma redis_fail_conforms mono now id err s d a : holds s d -> represents d a ->
  wp (redis_fail cfg transient mono now id err) (conforms a (OFail id err now) (fun _ => RDone)) s.
Proof.
  intros Hs Hr. pose proof Hr as []. unfold redis_fail. wp_step. eapply wp_run_op; [done|exact Hs|]. cbn [effect reply_ok]. intros s1 r H1 ->. cbn beta iota.
  wp_step. eapply wp_run_op; [done|exact H1|]. cbn [effect]. intros s2 r2 H2 _. cbn beta iota.
  wp_step. eapply wp_run_op; [done|exact H2|]. cbn [effect]. intros s3 r3 H3 _. cbn beta iota.
  eapply wp_metrics; [done|exact H3|]. intros s4 H4. eexists _, _. split_and!; [apply sp_fail|exact H4|].
  unfold set_dead, set_inflight. split; cbn [rd_queue rd_delayed rd_inflight rd_dead aq_ready aq_delayed aq_inflight aq_dead]; try done.
  - by rewrite rp_inflight0, fmap_delete.
  - by rewrite rp_inflight0, lookup_fmap, payload_raw_enc, rp_dead0, map_app, rev_app_distr.
  - by apply map_Forall_delete.
Qed.

(** *** Promotion of delayed jobs *)
Lemma promote_all l (d : rdata) r : map_to_list (rd_delayed d) ≡ₚ l ++ r ->
  rd_queue (foldl lua_promote d l) = rev l.*1 ++ rd_queue d /\ map_to_list (rd_delayed (foldl lua_promote d l)) ≡ₚ r /\
  rd_inflight (foldl lua_promote d l) = rd_inflight d /\ rd_dead (foldl lua_promote d l) = rd_dead d.
Proof.
  revert d. induction l as [|[k v] l IH]; intros d Hp; [done|]. cbn [foldl].
  assert (rd_delayed d !! k = Some v) as Hk by (apply elem_of_map_to_list; rewrite Hp; left).
  destruct (IH (lua_promote d (k, v))) as (H1&H2&H3&H4).
  - cbn. apply (Permutation_cons_inv (a := (k, v))). change ((k, v) :: l ++ r) with (((k, v) :: l) ++ r). rewrite <- Hp.
    by apply (map_to_list_delete (rd_delayed d) k v).
  - split_and!; [|done|done|done]. rewrite H1. change (((k, v) :: l).*1) with (k :: l.*1). cbn [rev]. rewrite <- app_assoc. done.
Qed.

Lemma zrange_split now z : exists rest, map_to_list z ≡ₚ zrange now z ++ rest /\ Forall (fun e => e.2 <= now) (zrange now z).
Proof.
  unfold zrange. set (l := merge_sort zle (map_to_list z)). set (f := fun e : string * Z => e.2 <=? now).
  exists (drop 100 (List.filter f l) ++ List.filter (fun e => negb (f e)) l). split.
  - rewrite app_assoc, take_drop. rewrite <- (merge_sort_Permutation zle (map_to_list z)). fold l. clearbody l.
    induction l as [|e l IH]; [done|]. cbn. destruct (f e); cbn; [by rewrite <- IH|]. rewrite IH at 1. apply Permutation_middle.
  - apply Forall_take, Forall_forall. intros e He. apply list_elem_of_In, filter_In in He as [_ He]. by apply Z.leb_le.
Qed.

Lemma redis_tick_conforms mono now s d a : holds s d -> represents d a ->
  wp (redis_process_delayed cfg transient mono now) (conforms a (OTick now) (fun _ => RDone)) s.
Proof.
  intros Hs Hr. pose proof Hr as []. unfold redis_process_delayed. wp_step. wp_step. eapply wp_run_op; [done|exact Hs|].
  cbn [reply_ok effect]. intros s1 r H1 ->. cbn [as_int]. wp_steps. eapply wp_metrics; [done|exact H1|]. intros s2 H2. cbn beta iota. wp_steps.
  destruct (zrange_split now (rd_delayed d)) as (rest&Hz&Hdue). destruct (promote_all _ _ _ Hz) as (Q1&Q2&Q3&Q4).
  unfold lua_process_delayed in H2. cbn [fst] in H2.
  assert (zrange now (rd_delayed d) ++ rest ≡ₚ map enc_delayed (aq_delayed a)) as Hm by (by rewrite <- Hz).
  apply Permutation_map_inv in Hm as (l3&Hl3&Hp3). symmetry in Hl3. apply map_eq_app in Hl3 as (moved&rest'&->&Hmv&<-).
  eexists _, _. split_and!; [apply (sp_tick _ now moved rest' a Hp3)|exact H2|].
  - rewrite <- Hmv in Hdue. apply (proj1 (Forall_fmap enc_delayed _ moved)) in Hdue. exact Hdue.
  - rewrite Hp3 in rp_delayed_wf0. apply Forall_app in rp_delayed_wf0 as [Hw1 Hw2].
    split; cbn [aq_ready aq_delayed aq_inflight aq_dead]; [|done|by rewrite Q3|by rewrite Q4| |done|done].
    + rewrite Q1, rp_queue0, map_app, rev_app_distr, <- Hmv.
      assert ((map enc_delayed moved).*1 = map to_json moved.*2) as ->; [|done]. clear. induction moved as [|e l IH]; [done|]. cbn. by rewrite <- IH.
    + apply Forall_app. split; [done|]. by apply Forall_fmap.
Qed.

(** *** Recovery of stale jobs *)
Definition enc_pair (e : string * (QueueJobPayload * Z)) : string * string := (e.1, enc_inflight e.2).

Definition put_back (timeout now : Z) (l : list (string * (QueueJobPayload * Z))) (a : aqueue) : aqueue :=
  let st := List.filter (fun e => stale timeout now e.2) l in
  MkAQ (aq_ready a ++ map (fun e => e.2.1) st) (aq_delayed a) (foldr (fun e m => delete e.1 m) (aq_inflight a) st) (aq_dead a).

Lemma put_back_one timeout now e l a : (forall f, f ∈ l -> f.1 <> e.1) -> stale timeout now e.2 = true ->
  put_back timeout now (e :: l) a =
  put_back timeout now l (MkAQ (aq_ready a ++ [e.2.1]) (aq_delayed a) (delete e.1 (aq_inflight a)) (aq_dead a)).
Proof.
  intros Hne He. unfold put_back. cbn [List.filter]. rewrite He. cbn. rewrite <- app_assoc. cbn. f_equal.
  clear Hne. induction (List.filter _ l) as [|f k IH]; [done|]. cbn. rewrite <- IH. apply delete_delete.
Qed.

Lemma requeue_entries_spec mono now timeout l s d a : holds s d -> represents d a ->
  NoDup l.*1 -> (forall e, e ∈ l -> aq_inflight a !! e.1 = Some e.2) ->
  wp (requeue_entries cfg transient mono now timeout (map enc_pair l))
     (fun s' r => r = Ok (Z.of_nat (length (List.filter (fun e => stale timeout now e.2) l))) /\
        exists d', holds s' d' /\ represents d' (put_back timeout now l a)) s.
Proof.
  revert s d a. induction l as [|[id [p t]] l IH]; intros s d a Hs Hr Hnd Hin.
  - wp_steps. split; [done|]. exists d. split; [done|]. unfold put_back. cbn. rewrite app_nil_r. by destruct a.
  - apply NoDup_cons in Hnd as [Hid Hnd]. pose proof Hr as []. assert (aq_inflight a !! id = Some (p, t)) as Hget by (apply (Hin (id, (p, t))); left).
    assert (forall f, f ∈ l -> f.1 <> id) as Hne. { intros f Hf E. apply Hid. apply list_elem_of_fmap. exists f. by rewrite E. }
    cbn [map requeue_entries]. wp_step. unfold requeue_entry, enc_pair at 1 2. cbn [fst snd]. rewrite entry_of_enc.
    destruct (stale timeout now (p, t)) eqn:Est; pose proof Est as Est'; unfold stale in Est; cbn [snd] in Est; rewrite Est; cbn [negb].
    + wp_step. wp_step. wp_step. eapply wp_run_op; [done|exact Hs|]. cbn [reply_ok effect]. intros s1 r H1 ->. cbn [as_int].
      rewrite rp_inflight0, lookup_fmap, Hget. cbn [fmap option_fmap option_map]. wp_steps. cbn [Z.eqb]. wp_step.
      eapply wp_run_op; [done|exact H1|]. cbn [reply_ok effect]. intros s2 r2 H2 _. wp_steps.
      eapply wp_mono; [eapply (IH s2 _ (MkAQ (aq_ready a ++ [p]) (aq_delayed a) (delete id (aq_inflight a)) (aq_dead a)) H2)|].
      * split; cbn [lpush set_inflight rd_queue rd_delayed rd_inflight rd_dead aq_ready aq_delayed aq_inflight aq_dead]; try done.
        -- by rewrite rp_queue0, map_app, rev_app_distr.
        -- by rewrite rp_inflight0, fmap_delete.
        -- apply Forall_app. split; [done|]. apply Forall_singleton. by apply (rp_inflight_wf0 id (p, t)).
        -- by apply map_Forall_delete.
      * done.
      * intros e He. cbn. rewrite lookup_delete_ne by (symmetry; by apply Hne). apply Hin. by right.
      * intros s3 r3 [-> Hx]. wp_steps. cbn [List.filter snd]. rewrite Est'. split; [cbn [length]; f_equal; lia|].
        rewrite (put_back_one timeout now (id, (p, t))); [done|done|exact Est].
    + wp_steps. eapply wp_mono; [eapply (IH s d a Hs Hr Hnd); intros e He; apply Hin; by right|].
      intros s3 r3 [-> Hx]. wp_steps. unfold put_back in *. cbn [List.filter snd]. rewrite Est'. split; [f_equal; lia|done].
Qed.

Lemma put_back_all timeout now l a : l ≡ₚ map_to_list (aq_inflight a) ->
  aq_inflight (put_back timeout now l a) =
  filter (fun e : string * (QueueJobPayload * Z) => stale timeout now e.2 = false) (aq_inflight a).
Proof.
  intros Hl. cbn. set (st := List.filter _ l). apply map_eq. intros i. apply option_eq. intros v. rewrite map_lookup_filter_Some.
  assert (forall m : gmap string (QueueJobPayload * Z), foldr (fun e m => delete e.1 m) m st !! i = Some v <-> m !! i = Some v /\ i ∉ st.*1) as ->.
  { intros m. clear Hl. induction st as [|e st IH]; [set_solver|]. cbn [foldr]. rewrite lookup_delete_Some, IH. cbn. rewrite not_elem_of_cons. naive_solver. }
  split; intros [Hi Hn]; (split; [done|]).
  - cbn. destruct (stale timeout now v) eqn:E; [|done]. exfalso. apply Hn. apply list_elem_of_fmap. exists (i, v). split; [done|].
    apply list_elem_of_In, filter_In. split; [|done]. apply list_elem_of_In. rewrite Hl. by apply elem_of_map_to_list.
  - intros [[j w] [-> Hin]]%list_elem_of_fmap. apply list_elem_of_In, filter_In in Hin as [Hin Hst]. apply list_elem_of_In in Hin. rewrite Hl in Hin.
    apply elem_of_map_to_list in Hin. cbn in *. rewrite Hi in Hin. simplify_eq. congruence.
Qed.

Lemma redis_requeue_conforms mono now timeout s d a : holds s d -> represents d a ->
  wp (redis_requeue_stale cfg transient mono now timeout) (conforms a (ORequeueStale timeout now) RCount) s.
Proof.
  intros Hs Hr. pose proof Hr as []. unfold redis_requeue_stale. wp_step. eapply wp_run_op; [done|exact Hs|].
  cbn [reply_ok effect]. intros s1 r H1 (l&->&Hl). wp_step.
  rewrite rp_inflight0, map_to_list_fmap in Hl. apply Permutation_map_inv in Hl as (l0&->&Hl0).
  eapply wp_mono; [apply (requeue_entries_spec mono now timeout l0 s1 d a H1 Hr)|].
  - rewrite <- Hl0. apply NoDup_fst_map_to_list.
  - intros [i e] He. rewrite <- Hl0 in He. by apply elem_of_map_to_list.
  - intros s2 r2 [-> (d2&H2&R2)]. cbn beta iota. wp_step. eapply wp_metrics; [done|exact H2|]. intros s3 H3. cbn beta iota. wp_steps.
    exists (put_back timeout now l0 a), d2. split_and!; [|done|done]. cbn [reply_with].
    eapply (sp_requeue _ timeout now (List.filter (fun e => stale timeout now e.2) l0) _ a); [by rewrite Hl0|].
    by apply put_back_all.
Qed.

Lemma find_split {A} (f : A -> bool) l x : List.find f l = Some x -> exists l1 l2, l = l1 ++ x :: l2 /\ f x = true /\ Forall (fun y => f y = false) l1.
Proof.
  induction l as [|y l IH]; [done|]. cbn. destruct (f y) eqn:E.
  - intros [= ->]. by exists [], l.
  - intros (l1&l2&->&Hx&Hf)%IH. exists (y :: l1), l2. split_and!; [done|done|by constructor].
Qed.

Lemma redis_remove_dead_conforms mono id s d a : holds s d -> represents d a ->
  wp (redis_remove_dead cfg transient mono id) (conforms a (ORemoveDead id) RFlag) s.
Proof.
  intros Hs Hr. pose proof Hr as []. unfold redis_remove_dead. wp_step. eapply wp_run_op; [done|exact Hs|].
  cbn [reply_ok effect]. intros s1 r H1 ->. rewrite lrange_all, rp_dead0, <- map_rev.
  destruct (List.find _ _) as [raw|] eqn:Ef.
  - apply find_split in Ef as (l1&l2&El&Hx&Hf). apply map_eq_app in El as (d1&d2'&Ed&<-&El2).
    destruct d2' as [|e d2]; [done|]. cbn [map] in El2. injection El2 as E1 E2. subst raw l2. rewrite is_dead_of_enc in Hx. breflect.
    assert (enc_dead e ∉ map enc_dead d1) as Hni.
    { intros Hin. rewrite Forall_forall in Hf. specialize (Hf _ Hin). rewrite is_dead_of_enc, Hx, String.eqb_refl in Hf. done. }
    wp_step. wp_step. eapply wp_run_op; [done|exact H1|]. cbn [reply_ok effect]. rewrite rp_dead0, <- map_rev, Ed, map_app. cbn [map].
    rewrite lrem_split by done. cbn [fst snd]. intros s2 r2 H2 ->. cbn [as_int]. wp_steps. cbn [Z.eqb]. wp_step.
    eapply wp_metrics; [done|exact H2|]. intros s3 H3. cbn beta iota. wp_steps.
    assert (aq_dead a = rev d2 ++ e :: rev d1) as Hdead.
    { rewrite <- (rev_involutive (aq_dead a)), Ed, rev_app_distr. cbn. by rewrite <- app_assoc. }
    eexists _, _. split_and!; [by apply (sp_remove_dead _ id (rev d2) e (rev d1) a)|exact H3|]. split; cbn; try done.
    by rewrite <- map_rev, rev_app_distr, !rev_involutive, map_app.
  - wp_steps. exists a, d. split_and!; [|done|done]. apply sp_remove_dead_none. apply Forall_forall. intros e He Hid.
    assert (is_dead_of id (enc_dead e) = false) as Hd.
    { apply (find_none _ _ Ef). apply in_map, (proj1 (in_rev (aq_dead a) e)). by apply list_elem_of_In. }
    rewrite is_dead_of_enc, Hid, String.eqb_refl in Hd. done.
Qed.

Lemma redis_drain_conforms mono s d a : holds s d -> represents d a ->
  wp (redis_drain cfg transient mono) (conforms a ODrainDead RCount) s.
Proof.
  intros Hs Hr. pose proof Hr as []. unfold redis_drain, get_dlq_depth. wp_step.
  assert (length (rd_dead d) = length (aq_dead a)) as Hlen by (by rewrite rp_dead0, length_rev, length_map).
  eapply wp_int; [done|exact Hs|by intros r ->|]. cbn [effect]. intros s1 H1. cbn beta iota. rewrite Hlen.
  destruct (Z.of_nat (length (aq_dead a)) <=? 0) eqn:E; breflect.
  - wp_steps. assert (aq_dead a = []) as Hnil by (destruct (aq_dead a); [done|cbn in E; lia]).
    exists a, d. split_and!; [|done|done]. cbn [reply_with]. pose proof (sp_drain (rc_cap cfg) a) as Hst. rewrite Hnil in Hst. destruct a. cbn in *. by subst.
  - wp_step. eapply wp_run_op; [done|exact H1|]. cbn [reply_ok effect]. intros s2 r2 H2 _. cbn beta iota. wp_step.
    eapply wp_metrics; [done|exact H2|]. intros s3 H3. cbn beta iota. wp_steps. eexists _, _. split_and!; [apply sp_drain|exact H3|]. by split.
Qed.
End simulates.

(** ** Refinement *)
Section refinement.
Context {X : Type} {server : RedisServer X} {iso : IsoCodec}.
Context (cfg : redis_config) (transient : exn -> bool).

(** What the callers of the queue respect: payloads come from their constructor, a
    delayed payload differs from those already delayed (it carries its enqueue time),
    and the monotonic clock is not negative. *)
Definition admissible (s : rq X) (op : qop) (mono : Z) : Prop :=
  0 <= mono /\
  match op with
  | OEnqueue p => job_wf p
  | OEnqueueDelayed p _ _ => job_wf p /\ to_json p ∉ (map_to_list (rd_delayed (view (rq_x s)))).*1
  | _ => True
  end.

(** One call of one worker *)
Inductive redis_step : rq X -> qop * qreply -> rq X -> Prop :=
| rs_enqueue mono p s s' r : admissible s (OEnqueue p) mono -> redis_enqueue cfg transient mono p s = (s', r) ->
    redis_step s (OEnqueue p, reply_with (fun _ => RDone) r) s'
| rs_delay mono now p delay s s' r : admissible s (OEnqueueDelayed p delay now) mono ->
    redis_enqueue_delayed cfg transient mono now p delay s = (s', r) ->
    redis_step s (OEnqueueDelayed p delay now, reply_with (fun _ => RDone) r) s'
| rs_dequeue mono now timeout s s' r : admissible s (ODequeue now) mono -> redis_dequeue cfg transient mono now timeout s = (s', r) ->
    redis_step s (ODequeue now, reply_with RJob r) s'
| rs_ack mono id s s' r : redis_ack cfg transient mono id s = (s', r) -> redis_step s (OAck id, reply_with (fun _ => RDone) r) s'
| rs_fail mono now id err s s' r : redis_fail cfg transient mono now id err s = (s', r) ->
    redis_step s (OFail id err now, reply_with (fun _ => RDone) r) s'
| rs_tick mono now s s' r : redis_process_delayed cfg transient mono now s = (s', r) -> redis_step s (OTick now, reply_with (fun _ => RDone) r) s'
| rs_requeue mono now timeout s s' r : redis_requeue_stale cfg transient mono now timeout s = (s', r) ->
    redis_step s (ORequeueStale timeout now, reply_with RCount r) s'
| rs_remove mono id s s' r : redis_remove_dead cfg transient mono id s = (s', r) -> redis_step s (ORemoveDead id, reply_with RFlag r) s'
| rs_drain mono s s' r : redis_drain cfg transient mono s = (s', r) -> redis_step s (ODrainDead, reply_with RCount r) s'.

Lemma redis_step_simulates s l s' a : (forall c x, exists x' r, exec c x = (x', Ok r)) ->
  (exists d, holds s d /\ represents d a) -> redis_step s l s' ->
  exists a', spec_step (rc_cap cfg) a l a' /\ (exists d, holds s' d /\ represents d a').
Proof.
  intros Ha (d&Hs&Hr) Hstep.
  assert (forall A (m : SE (rq X) A) op f s' r, wp m (conforms cfg a op f) s -> m s = (s', r) ->
    exists a', spec_step (rc_cap cfg) a (op, reply_with f r) a' /\ (exists d, holds s' d /\ represents d a')) as Hgo.
  { intros A m op f s1 r Hwp E. destruct (wp_run _ _ _ _ _ Hwp E) as (a'&d'&H1&H2&H3). eauto. }
  pose proof Hs as (Hv&_&_).
  inversion Hstep as [mono p ? ? r [Hm Hp] E|mono now p delay ? ? r [Hm [Hp Hf]] E|mono now timeout ? ? r [Hm _] E|mono id ? ? r E|
    mono now id err ? ? r E|mono now ? ? r E|mono now timeout ? ? r E|mono id ? ? r E|mono ? ? r E]; subst; eapply Hgo; try exact E.
  - by eapply redis_enqueue_conforms.
  - by eapply redis_delay_conforms.
  - by eapply redis_dequeue_conforms.
  - by eapply redis_ack_conforms.
  - by eapply redis_fail_conforms.
  - by eapply redis_tick_conforms.
  - by eapply redis_requeue_conforms.
  - by eapply redis_remove_dead_conforms.
  - by eapply redis_drain_conforms.
Qed.
End refinement.


(** *** A server *)
Definition demo_reply (c : rcmd) (d : rdata) : rreply :=
  match c with
  | CPing => RText (Some "PONG")
  | CEnqueueScript raw cap => RInt (lua_enqueue raw cap d).2
  | CDelayScript raw score cap => RInt (lua_enqueue_delayed raw score cap d).2
  | CProcessScript now => RInt (lua_process_delayed now d).2
  | CRpop | CBrpop _ => RText (rpop d).2
  | CLpush raw => RInt (Z.of_nat (length (rd_queue d)) + 1)
  | CHset f v => RInt (match rd_inflight d !! f with Some _ => 0 | None => 1 end)
  | CHget f => RText (rd_inflight d !! f)
  | CHdel f => RInt (match rd_inflight d !! f with Some _ => 1 | None => 0 end)
  | CHgetall => RPairs (map_to_list (rd_inflight d))
  | CLpushDead raw => RInt (Z.of_nat (length (rd_dead d)) + 1)
  | CLrangeDead first last => RTexts (lrange first last (rd_dead d))
  | CLremDead raw => RInt (lrem raw (rd_dead d)).2
  | CDelDead => RInt (match rd_dead d with [] => 0 | _ => 1 end)
  | CLlen => RInt (Z.of_nat (length (rd_queue d)))
  | CZcard => RInt (Z.of_nat (size (rd_delayed d)))
  | CHlen => RInt (Z.of_nat (size (rd_inflight d)))
  | CLlenDead => RInt (Z.of_nat (length (rd_dead d)))
  end.

#[export] Program Instance demo_server : RedisServer rdata := {|
  exec c d := (effect c d, Ok (demo_reply c d));
  view d := d
|}.
Next Obligation. intros c x x' r E. cbv beta in E. injection E as <- <-. split; [done|]. destruct c; try done. by exists (map_to_list (rd_inflight x)). Qed.
Next Obligation. intros c x x' e E. cbv beta in E. discriminate. Qed.

Definition demo_cfg : redis_config := MkRC 1 5 30000000.
Definition connection_error (e : exn) : bool := exn_class e =s "ConnectionError".


(** ** Two recoveries at once *)

(** Worker A scans the in-flight hash; worker B recovers the stale job; worker C takes it;
    A goes on with the entries it read. *)
Definition recovery_race {X} {server : RedisServer X} {iso : IsoCodec} cfg transient (mono now timeout now_c : Z)
    : SE (rq X) (option QueueJobPayload * Z) :=
  r ← run_redis_operation cfg transient mono CHgetall;
  redis_requeue_stale cfg transient mono now timeout ≫= fun _ =>
  taken ← redis_dequeue cfg transient mono now_c 5;
  n ← requeue_entries cfg transient mono now timeout (match r with RPairs l => l | _ => [] end);
  mret (taken, n).

(** Two workers recovering at the same time can take a job back from a third that is
    executing it: although the third took the job a moment ago, the scan of the first
    still deletes the in-flight entry (which is now the third's) and pushes the job
    again, so it is ready while it is being executed and no entry protects it. *)
Theorem concurrent_recovery_duplicates {X} (server : RedisServer X) (iso : IsoCodec) cfg transient p t0 timeout now now_c mono s :
  (forall c x, exists x' r, exec c x = (x', Ok r)) -> 0 <= mono -> job_wf p -> timeout < now - t0 -> now - now_c <= timeout ->
  rq_failures s = 0 -> rq_open_until s = 0 ->
  represents (view (rq_x s)) (MkAQ [] [] {[job_id p := (p, t0)]} []) ->
  wp (recovery_race cfg transient mono now timeout now_c)
     (fun s' r => r = Ok (Some p, 1) /\ represents (view (rq_x s')) (MkAQ [p] [] ∅ [])) s.
Proof.
  intros Ha Hm Hp Hst Hfr Hf Ho Hr. set (a0 := MkAQ [] [] {[job_id p := (p, t0)]} []) in *. assert (holds s (view (rq_x s))) as Hs by done.
  unfold recovery_race. wp_step. eapply wp_run_op; [done|exact Hs|]. cbn [reply_ok effect]. intros s1 r H1 (l&->&Hl).
  rewrite (rp_inflight _ _ Hr) in Hl. unfold a0 in Hl. cbn [aq_inflight] in Hl. rewrite map_fmap_singleton, map_to_list_singleton in Hl.
  apply Permutation_singleton_r in Hl as ->. wp_step.
  eapply wp_mono; [eapply redis_requeue_conforms; [done|exact H1|exact Hr]|]. intros s2 r2 (a2&d2&Hst2&H2&R2).
  destruct r2 as [n2|e]; cbn [reply_with] in Hst2; inversion Hst2 as [| | | | | | | | |timeout' now' l2 fl a' Hl2 Hfl| | |]; subst. cbn beta iota.
  assert (l2 = [(job_id p, (p, t0))]) as ->.
  { apply Permutation_singleton_r. rewrite Hl2. unfold a0. cbn [aq_inflight]. rewrite map_to_list_singleton. unfold stale. cbn [List.filter snd].
    by rewrite (proj2 (Z.ltb_lt timeout (now - t0))). }
  wp_step. eapply wp_mono; [eapply redis_dequeue_conforms; [done|done|exact H2|exact R2]|]. intros s3 r3 (a3&d3&Hst3&H3&R3).
  destruct r3 as [o|e]; cbn [reply_with] in Hst3; inversion Hst3 as [| | | |? ? Hnil|? p' q' ? Hq| | | | | | |]; subst; [done|]. cbn beta iota.
  cbn in Hq. injection Hq as <- <-. cbn [map snd fst aq_ready aq_delayed aq_inflight aq_dead] in R3. wp_step. unfold requeue_entries. wp_step.
  unfold requeue_entry. cbn [snd fst]. rewrite entry_of_enc, (proj2 (Z.ltb_lt timeout (now - t0))) by done. cbn [negb].
  wp_step. wp_step. wp_step. eapply wp_run_op; [done|exact H3|]. cbn [reply_ok effect]. intros s4 r4 H4 ->. pose proof R3 as [].
  rewrite rp_inflight0, lookup_fmap. cbn [aq_inflight]. rewrite lookup_insert_eq. cbn [fmap option_fmap option_map as_int]. wp_steps. cbn [Z.eqb]. wp_step.
  eapply wp_run_op; [done|exact H4|]. cbn [reply_ok effect]. intros s5 r5 (H5&_&_) _. wp_steps. split; [done|]. rewrite H5.
  split; cbn [lpush set_inflight rd_queue rd_delayed rd_inflight rd_dead aq_ready aq_delayed aq_inflight aq_dead] in *; try done.
  - by rewrite rp_queue0.
  - rewrite rp_inflight0, fmap_insert, delete_insert_eq, fmap_empty. apply map_eq. intros i. rewrite lookup_empty, lookup_delete_None, lookup_fmap.
    destruct (decide (job_id p = i)) as [|Hne]; [by left|]. right. apply fmap_None. apply map_lookup_filter_None. left. by apply lookup_singleton_ne.
  - by apply Forall_singleton.
Qed.

Definition race_start : rq rdata := MkRq (MkR [] ∅ {["a" := enc_inflight (demo_job "a", 0)]} []) 0 0.

Lemma concurrent_recovery_duplicates_witness :
  wp (recovery_race (X := rdata) demo_cfg connection_error 0 400 300 399)
     (fun s' r => r = Ok (Some (demo_job "a"), 1) /\ represents (view (rq_x s')) (MkAQ [demo_job "a"] [] ∅ [])) race_start.
Proof.
  assert (job_wf (demo_job "a")) as Hj by (split; [done|]; split; apply json_wf_obj; (split; [by_evaluation|constructor])).
  apply (concurrent_recovery_duplicates demo_server demo_codec demo_cfg connection_error (demo_job "a") 0 300 400 399 0 race_start);
    [intros c x; eexists; eexists; reflexivity|lia|exact Hj|lia|lia|reflexivity|reflexivity|].
  split; [reflexivity|reflexivity|symmetry; exact (map_fmap_singleton enc_inflight "a" (demo_job "a", 0))|reflexivity|constructor|constructor|apply map_Forall_singleton; exact Hj].
Defined.

(** ** Lost replies *)

(** A server that loses the reply of the next command: within its documentation *)
#[export] Program Instance lossy_server : RedisServer (bool * rdata) := {|
  exec c x := ((false, effect c x.2), if x.1 then Raise (Exn "ConnectionError" "lost reply") else Ok (demo_reply c x.2));
  view x := x.2
|}.
Next Obligation. intros c [[|] x] x' r E; cbn in E; [discriminate|]. injection E as <- <-. split; [done|]. destruct c; try done. by exists (map_to_list (rd_inflight x)). Qed.
Next Obligation. intros c [[|] x] x' e E; cbn in E; [|discriminate]. injection E as <- <-. by left. Qed.

(** [_run_redis_operation] repeats a command whose reply was lost.  So one lost reply
    makes [enqueue] put the job into the queue twice and report success, and makes
    [dequeue] discard the job it popped: it reports an empty queue and the job is in no
    key any more. *)
Theorem lost_reply_repeats_command (iso : IsoCodec) cfg p mono now : 2 <= rc_cap cfg -> 0 <= mono ->
  redis_enqueue cfg connection_error mono p (MkRq (true, r_empty) 0 0) = (MkRq (false, MkR [to_json p; to_json p] ∅ ∅ []) 0 0, Ok ()) /\
  redis_dequeue cfg connection_error mono now 0 (MkRq (true, MkR [to_json p] ∅ ∅ []) 0 0) = (MkRq (false, r_empty) 0 0, Ok None).
Proof.
  intros Hcap Hm. assert ((mono <? 0) = false) as Hb by lia. split.
  - destruct cfg as [cap th op]. cbn in Hcap.
    assert (forall raw, lua_enqueue raw cap r_empty = (MkR [raw] ∅ ∅ [], 1)) as L0.
    { intros raw. unfold lua_enqueue, r_total. cbn [r_empty rd_queue rd_delayed]. rewrite map_size_empty. destruct (cap <=? _) eqn:E; [apply Z.leb_le in E; cbn in E; lia|done]. }
    assert (forall raw, lua_enqueue raw cap (MkR [raw] ∅ ∅ []) = (MkR [raw; raw] ∅ ∅ [], 2)) as L1.
    { intros raw. unfold lua_enqueue, r_total. cbn [rd_queue rd_delayed]. rewrite map_size_empty. destruct (cap <=? _) eqn:E; [apply Z.leb_le in E; cbn in E; lia|done]. }
    unfold redis_enqueue, check_circuit_breaker, run_redis_operation, attempts, command, try_except, mbind, SE_bind, writes, mret, SE_ret, throw.
    cbn -[lua_enqueue Z.ltb to_json refresh_metrics r_empty]. rewrite Hb. cbn -[lua_enqueue to_json refresh_metrics r_empty].
    rewrite !L0. change (connection_error (Exn "ConnectionError" "lost reply")) with true.
    cbn -[lua_enqueue to_json refresh_metrics empty]. rewrite !L1. reflexivity.
  - unfold redis_dequeue, check_circuit_breaker, mbind, SE_bind. cbn [rq_open_until]. rewrite Hb. reflexivity.
Qed.

Lemma lost_reply_repeats_command_witness : 2 <= rc_cap (MkRC 2 5 30000000) /\
  redis_dequeue (MkRC 2 5 30000000) connection_error 0 7 0 (MkRq (true, MkR [to_json (demo_job "a")] ∅ ∅ []) 0 0) = (MkRq (false, r_empty) 0 0, Ok None).
Proof. split; [cbn; lia|]. exact (proj2 (lost_reply_repeats_command demo_codec (MkRC 2 5 30000000) (demo_job "a") 0 7 ltac:(cbn; lia) ltac:(lia))). Defined.
