(* ===== verification/QueueModule.v ===== *)
(** * The queue of a process ([AINDY/core/distributed_queue.py], module level)

    Limits read from the environment, the choice of the backend ([get_queue]), the
    fallback to memory and the reconnection to Redis. *)
From S2P Require Import Prelude PyDatetime Json PyEffects JobQueue RedisQueue.
Local Open Scope Z_scope.

(** ** [int(text)]: blanks around, a sign, digits with single underscores between them *)
Definition digit_value (a : Ascii.ascii) : option Z :=
  let n := Z.of_N (Ascii.N_of_ascii a) in if (48 <=? n) && (n <=? 57) then Some (n - 48) else None.
Fixpoint int_digits (after_digit : bool) (acc : Z) (s : string) : option Z :=
  match s with
  | EmptyString => if after_digit then Some acc else None
  | String a s' =>
      match digit_value a with
      | Some d => int_digits true (acc * 10 + d) s'
      | None => if Ascii.eqb a "_" && after_digit then int_digits false acc s' else None
      end
  end.
Definition py_int (text : string) : option Z :=
  match str_strip text with
  | String "-" s => Z.opp <$> int_digits false 0 s
  | String "+" s => int_digits false 0 s
  | s => int_digits false 0 s
  end.

(** An attribute of the settings object *)
Inductive setting := SInt (z : Z) | SText (s : string) | SOther.

Record queue_env := MkEnv {
  qe_getenv : string -> option string;
  qe_settings : string -> option setting;
  qe_redis_url : option string;          (* settings.REDIS_URL *)
  qe_is_prod : bool;
  qe_require_redis : bool                (* settings.AINDY_REQUIRE_REDIS *)
}.

Section env.
Context (E : queue_env).

(** [_safe_int_env] *)
Definition safe_int_env (name : string) (dflt : Z) : Z :=
  match qe_getenv E name with
  | Some raw => default dflt (py_int raw)
  | None =>
      match qe_settings E name with
      | None => dflt
      | Some (SInt z) => z
      | Some (SText s) => default dflt (py_int s)
      | Some SOther => dflt
      end
  end.

(** [_queue_capacity_limit] and [_saturation_threshold] *)
Definition queue_capacity_limit : Z := Z.max 1 (safe_int_env "MAX_QUEUE_SIZE" (safe_int_env "AINDY_ASYNC_QUEUE_MAXSIZE" 100)).
Definition saturation_threshold : Z :=
  Z.max 1 (Z.min (safe_int_env "AINDY_QUEUE_SATURATION_THRESHOLD" queue_capacity_limit) queue_capacity_limit).

(** Whatever the environment holds, the limits are positive and ordered. *)
Lemma queue_limits : 1 <= saturation_threshold <= queue_capacity_limit.
Proof. unfold saturation_threshold. assert (1 <= queue_capacity_limit) by (unfold queue_capacity_limit; lia). lia. Qed.

(** [os.getenv(name, "false").lower() in {"1", "true", "yes"}] *)
Definition env_flag (name : string) : bool := str_in (str_lower (default "false" (qe_getenv E name))) ["1"; "true"; "yes"].
Definition QUEUE_NAME_DEFAULT : string := "aindy:jobs".
(** [settings.REDIS_URL or os.getenv("REDIS_URL")] *)
Definition redis_url : option string :=
  match str_or_none (qe_redis_url E) with Some u => Some u | None => str_or_none (qe_getenv E "REDIS_URL") end.
End env.

(** ** The singleton *)
Record mem_backend := MkMemBackend { mb_queue : memq; mb_degraded : bool; mb_reason : option string }.
Inductive backend (X : Type) :=
| BMem (m : mem_backend)
| BRedis (failures open_until : Z).      (* a connected [RedisQueueBackend] *)
Arguments BMem {X}. Arguments BRedis {X}.

(** The module variable [_QUEUE_INSTANCE] and the outside world *)
Record qmod (X : Type) := MkMod { md_instance : option (backend X); md_x : X }.
Arguments MkMod {X}. Arguments md_instance {X}. Arguments md_x {X}.

Section module.
Context {X : Type} {server : RedisServer X}.
Context (E : queue_env) (cfg : redis_config) (transient : exn -> bool).
(** [RedisQueueBackend(url, queue_name)]: importing the client and parsing the URL *)
Context (connect : string -> string -> X -> X * result unit).
Implicit Types (m : qmod X) (mono : Z).

Definition new_memory (degraded : bool) (reason : option string) : mem_backend := MkMemBackend (mem_init (queue_capacity_limit E)) degraded reason.

(** A new Redis backend that answers a ping *)
Definition open_redis mono (url : string) (x : X) : X * result (backend X) :=
  match connect url (default QUEUE_NAME_DEFAULT (qe_getenv E "AINDY_QUEUE_NAME")) x with
  | (x1, Raise e) => (x1, Raise e)
  | (x1, Ok _) =>
      match assert_ready cfg transient mono (MkRq x1 0 0) with
      | (s, Ok _) => (rq_x s, Ok (BRedis (rq_failures s) (rq_open_until s)))
      | (s, Raise e) => (rq_x s, Raise e)
      end
  end.

(** [_fallback_to_memory_backend] *)
Definition fallback_to_memory (e : exn) : result (backend X) :=
  if qe_require_redis E then
    Raise (Exn "RuntimeError" ("AINDY_REQUIRE_REDIS=true but Redis is unavailable: " +:+ exn_msg e +:+
                               ". Set AINDY_REQUIRE_REDIS=false to allow in-memory fallback."))
  else Ok (BMem (new_memory true (Some (exn_msg e)))).

(** [backend.assert_ready()] and the metrics of a backend that was chosen *)
Definition settle_backend mono (b : backend X) (x : X) : X * result (backend X) :=
  match b with
  | BMem _ => (x, Ok b)
  | BRedis f o =>
      match (assert_ready cfg transient mono ≫= fun _ => refresh_metrics cfg) (MkRq x f o) with
      | (s, Ok _) => (rq_x s, Ok (BRedis (rq_failures s) (rq_open_until s)))
      | (s, Raise e) => (rq_x s, Raise e)
      end
  end.

(** The branches of [get_queue] that create a backend *)
Definition choose_backend mono (x : X) : X * result (backend X) :=
  match redis_url E with
  | None =>
      if qe_is_prod E then
        (x, Raise (Exn "RuntimeError" "Production requires RedisQueueBackend for async job durability. Set REDIS_URL before startup."))
      else if str_lower (default "thread" (qe_getenv E "EXECUTION_MODE")) =s "distributed" then
        (x, Raise (Exn "RuntimeError" ("EXECUTION_MODE=distributed requires REDIS_URL to be set. Jobs would be silently lost on process restart " +:+
                   "with an in-memory queue. Either set REDIS_URL or switch to EXECUTION_MODE=thread for single-process execution.")))
      else (x, Ok (BMem (new_memory false None)))
  | Some url =>
      match open_redis mono url x with
      | (x1, Ok b) => (x1, Ok b)
      | (x1, Raise e) => (x1, fallback_to_memory e)
      end
  end.

(** [get_queue]; the instance is set before the final checks, which may raise. *)
Definition get_queue mono (m : qmod X) : qmod X * result (backend X) :=
  match md_instance m with
  | Some b => (m, Ok b)
  | None =>
      if env_flag E "TESTING" || env_flag E "TEST_MODE" then
        let b := BMem (new_memory false None) in (MkMod (Some b) (md_x m), Ok b)
      else
        match choose_backend mono (md_x m) with
        | (x1, Raise e) => (MkMod None x1, Raise e)
        | (x1, Ok b) =>
            match settle_backend mono b x1 with
            | (x2, Ok b') => (MkMod (Some b') x2, Ok b')
            | (x2, Raise e) => (MkMod (Some b) x2, Raise e)
            end
        end
  end.

(** [reset_queue] *)
Definition reset_queue (m : qmod X) : qmod X := MkMod None (md_x m).

(** [attempt_queue_backend_reconnect] *)
Definition attempt_reconnect mono (m : qmod X) : qmod X * result bool :=
  match redis_url E, md_instance m with
  | Some url, Some (BMem b) =>
      if negb (mb_degraded b) then (m, Ok false) else
      match open_redis mono url (md_x m) with
      | (x1, Raise _) => (MkMod (md_instance m) x1, Ok false)
      | (x1, Ok (BRedis f o)) =>
          match refresh_metrics cfg (MkRq x1 f o) with
          | (s, Ok _) => (MkMod (Some (BRedis (rq_failures s) (rq_open_until s))) (rq_x s), Ok true)
          | (s, Raise e) => (MkMod (Some (BRedis f o)) (rq_x s), Raise e)
          end
      | (x1, Ok b') => (MkMod (Some b') x1, Ok true)
      end
  | _, _ => (m, Ok false)
  end.
End module.

Section facts.
Context {X : Type} {server : RedisServer X}.
Context (E : queue_env) (cfg : redis_config) (transient : exn -> bool) (connect : string -> string -> X -> X * result unit).
Hypothesis answers : forall c x, exists x' r, exec c x = (x', Ok r).
Hypothesis connects : forall u q x, exists x', connect u q x = (x', Ok ()) /\ view x' = view x.

Lemma open_redis_answers mono url x : 0 <= mono ->
  exists x', open_redis E cfg transient connect mono url x = (x', Ok (BRedis 0 0)) /\ view x' = view x.
Proof.
  intros Hm. unfold open_redis. destruct (connects url (default QUEUE_NAME_DEFAULT (qe_getenv E "AINDY_QUEUE_NAME")) x) as (x1&->&Hv).
  assert (wp (assert_ready cfg transient mono) (fun s r => holds s (view x) /\ r = Ok ()) (MkRq x1 0 0)) as Hw.
  { unfold assert_ready. assert (holds (MkRq x1 0 0) (view x)) as Hs by done. wp_step. eapply wp_breaker; [done|exact Hs|]. cbn beta iota.
    wp_step. eapply wp_run_op; [done|exact Hs|]. cbn [effect]. intros s1 r H1 _. wp_steps. done. }
  unfold wp in Hw. destruct (assert_ready _ _ _ _) as [s r]. cbn in Hw. destruct Hw as [(H1&H2&H3) ->]. exists (rq_x s). by rewrite H2, H3.
Qed.
End facts.

(** When Redis comes back, a process that had fallen back to memory switches to it and
    leaves its in-memory jobs behind: after a successful reconnection the backend is the
    Redis one, the Redis keys hold what they held before, and so a job that only the
    in-memory queue held is in no queue the process can reach. *)
Theorem reconnect_abandons_jobs {X} (server : RedisServer X) (iso : IsoCodec) E cfg transient connect mono m url b a id :
  (forall c x, exists x' r, exec c x = (x', Ok r)) -> (forall u q x, exists x', connect u q x = (x', Ok ()) /\ view x' = view x) ->
  0 <= mono -> redis_url E = Some url -> md_instance m = Some (BMem b) -> mb_degraded b = true ->
  represents (view (md_x m)) a -> held_by (mem_abs (mb_queue b)) id -> ~ held_by a id ->
  exists m', attempt_reconnect E cfg transient connect mono m = (m', Ok true) /\
    md_instance m' = Some (BRedis 0 0) /\ forall a', represents (view (md_x m')) a' -> ~ held_by a' id.
Proof.
  intros Ha Hc Hm Hu Hi Hd Hr _ Hn. unfold attempt_reconnect. rewrite Hu, Hi, Hd. cbn [negb].
  destruct (open_redis_answers E cfg transient connect Ha Hc mono url (md_x m) Hm) as (x1&->&Hv).
  assert (wp (refresh_metrics cfg) (fun s r => holds s (view (md_x m)) /\ r = Ok ()) (MkRq x1 0 0)) as Hw.
  { eapply (wp_metrics cfg Ha _ (view (md_x m))); [done|]. intros s Hs. done. }
  unfold wp in Hw. destruct (refresh_metrics cfg (MkRq x1 0 0)) as [s r]. cbn in Hw. destruct Hw as [(H1&H2&H3) ->].
  eexists. split; [done|]. rewrite H2, H3. split; [done|]. cbn. rewrite H1. intros a' Ha' Hh. by apply Hn, (represents_held _ _ _ _ Ha' Hr).
Qed.

Definition demo_env : queue_env :=
  MkEnv (fun n => if n =s "EXECUTION_MODE" then Some "distributed" else None) (fun _ => None) (Some "redis://cache") true false.

Definition demo_memory : memq := MkMem 100 [demo_job "a"] [] [] [] 0.

Lemma reconnect_abandons_jobs_witness :
  exists m', attempt_reconnect (X := rdata) demo_env demo_cfg connection_error (fun _ _ x => (x, Ok ())) 0
      (MkMod (Some (BMem (MkMemBackend demo_memory true (Some "down")))) r_empty) = (m', Ok true) /\
    md_instance m' = Some (BRedis 0 0) /\ forall a', represents (view (md_x m')) a' -> ~ held_by a' "a".
Proof.
  refine (reconnect_abandons_jobs demo_server demo_codec demo_env demo_cfg connection_error (fun _ _ x => (x, Ok ())) 0
    (MkMod (Some (BMem (MkMemBackend demo_memory true (Some "down")))) r_empty) "redis://cache" (MkMemBackend demo_memory true (Some "down")) a_init "a" _ _ _ _ _ _ _ _ _).
  - intros c x; eexists; eexists; reflexivity.
  - intros u q x. exists x. split; reflexivity.
  - lia.
  - reflexivity.
  - reflexivity.
  - reflexivity.
  - apply represents_init.
  - left. apply list_elem_of_here.
  - intros [H|[H|(p&t&H)]]; [by apply elem_of_nil in H|by apply elem_of_nil in H|]. cbn [a_init aq_inflight] in H. by rewrite lookup_empty in H.
Defined.

(** Production and the distributed mode insist on a Redis URL, not on Redis: when the server
    does not answer, the process gets a degraded in-memory queue. *)
Lemma unreachable_redis_falls_back {X} (server : RedisServer X) E cfg transient connect mono (m : qmod X) url x1 e :
  md_instance m = None -> env_flag E "TESTING" = false -> env_flag E "TEST_MODE" = false -> redis_url E = Some url ->
  qe_require_redis E = false -> open_redis E cfg transient connect mono url (md_x m) = (x1, Raise e) ->
  (get_queue E cfg transient connect mono m).2 = Ok (BMem (new_memory E true (Some (exn_msg e)))).
Proof.
  intros Hi Ht Hm Hu Hr Ho. unfold get_queue, choose_backend, fallback_to_memory. by rewrite Hi, Ht, Hm, Hu, Ho, Hr.
Qed.
