(* ===== verification/QueueInterface.v ===== *)
(** * What the queue promises to the job system ([DistributedQueueBackend])

    The methods the dispatcher and the worker call, with their contract: each call is a
    step of the abstract queue of [JobQueue].  Both backends are instances, the
    in-memory one in every state its invariant allows and the Redis one on a server
    that answers. *)
From S2P Require Import Prelude PyDatetime Json PyEffects JobQueue RedisQueue.
Local Open Scope Z_scope.

Class Queue (Q : Type) := {
  q_enqueue : QueueJobPayload -> SE Q unit;
  q_enqueue_delayed : QueueJobPayload -> Z -> Z -> SE Q unit;       (* payload, delay, now *)
  q_dequeue : Z -> SE Q (option QueueJobPayload);
  q_ack : string -> SE Q unit;
  q_fail : string -> string -> Z -> SE Q unit;
  q_pending : SE Q Z                                                (* [get_metrics()], its total_pending_jobs *)
}.

(** [q] is in the state the abstract queue [a] describes. *)
Class QueueLaws (Q : Type) {queue : Queue Q} (cap : Z) (rep : Q -> aqueue -> Prop) := {
  law_enqueue p q q' r a : rep q a -> job_wf p -> q_enqueue p q = (q', r) ->
    exists a', spec_step cap a (OEnqueue p, reply_of r) a' /\ rep q' a';
  law_delay p delay now q q' r a : rep q a -> job_wf p -> p ∉ (aq_delayed a).*2 -> q_enqueue_delayed p delay now q = (q', r) ->
    exists a', spec_step cap a (OEnqueueDelayed p delay now, reply_of r) a' /\ rep q' a';
  law_dequeue now q q' r a : rep q a -> q_dequeue now q = (q', r) ->
    exists a', spec_step cap a (ODequeue now, reply_with RJob r) a' /\ rep q' a';
  law_ack id q q' r a : rep q a -> q_ack id q = (q', r) ->
    exists a', spec_step cap a (OAck id, reply_of r) a' /\ rep q' a';
  law_fail id err now q q' r a : rep q a -> q_fail id err now q = (q', r) ->
    exists a', spec_step cap a (OFail id err now, reply_of r) a' /\ rep q' a';
  law_pending q q' r a : rep q a -> q_pending q = (q', r) -> r = Ok (a_pending a) /\ rep q' a
}.

(** ** The in-memory backend *)
#[export] Instance mem_queue : Queue memq := {|
  q_enqueue := mem_enqueue;
  q_enqueue_delayed p delay now := mem_enqueue_delayed p delay now;
  q_dequeue now q := let (q', o) := mem_dequeue now q in (q', Ok o);
  q_ack id q := (mem_ack id q, Ok ());
  q_fail id err now q := (mem_fail id err now q, Ok ());
  q_pending := reads pending_depth
|}.

Definition mem_rep (cap : Z) (q : memq) (a : aqueue) : Prop := mem_inv cap q /\ a = mem_abs q.

#[export] Instance mem_queue_laws cap : QueueLaws memq cap (mem_rep cap).
Proof.
  assert (forall q q' l a, mem_rep cap q a -> mem_step q l q' -> room q l.1 -> exists a', spec_step cap a l a' /\ mem_rep cap q' a') as Hgo.
  { intros q q' l a [Hi ->] Hs Hr. destruct (mem_step_simulates cap q l q' Hi (conj Hs Hr)). exists (mem_abs q'). split; [done|by split]. }
  split.
  - intros p q q' r a Ha _ E. exact (Hgo _ _ _ _ Ha (ms_enqueue p q q' r E) I).
  - intros p delay now q q' r a Ha _ _ E. exact (Hgo _ _ _ _ Ha (ms_delay p delay now q q' r E) I).
  - intros now q q' r a Ha E. cbn in E. destruct (mem_dequeue now q) as [q1 o] eqn:Ed. injection E as <- <-. exact (Hgo _ _ _ _ Ha (ms_dequeue now q q1 o Ed) I).
  - intros id q q' r a Ha E. cbn in E. injection E as <- <-. exact (Hgo _ _ _ _ Ha (ms_ack id q) I).
  - intros id err now q q' r a Ha E. cbn in E. injection E as <- <-. exact (Hgo _ _ _ _ Ha (ms_fail id err now q) I).
  - intros q q' r a [Hi ->] E. injection E as <- <-. split; [|done]. unfold pending_depth, a_pending, mem_abs. cbn. by rewrite (mi_count _ _ Hi).
Qed.

(** ** The Redis backend *)
Section redis.
Context {X : Type} {server : RedisServer X} {iso : IsoCodec}.
Context (cfg : redis_config) (transient : exn -> bool) (mono timeout : Z).

#[local] Instance redis_queue : Queue (rq X) := {|
  q_enqueue := redis_enqueue cfg transient mono;
  q_enqueue_delayed p delay now := redis_enqueue_delayed cfg transient mono now p delay;
  q_dequeue now := redis_dequeue cfg transient mono now timeout;
  q_ack := redis_ack cfg transient mono;
  q_fail id err now := redis_fail cfg transient mono now id err;
  q_pending := qm_total_pending <$> get_metrics cfg
|}.

Definition redis_rep (s : rq X) (a : aqueue) : Prop := exists d, holds s d /\ represents d a.

Lemma redis_queue_laws : (forall c x, exists x' r, exec c x = (x', Ok r)) -> 0 <= mono -> QueueLaws (rq X) (rc_cap cfg) redis_rep.
Proof.
  intros Ha Hm. assert (forall A (m : SE (rq X) A) op f q q' r a, redis_rep q a -> (forall d, holds q d -> represents d a -> wp m (conforms cfg a op f) q) ->
    m q = (q', r) -> exists a', spec_step (rc_cap cfg) a (op, reply_with f r) a' /\ redis_rep q' a') as Hgo.
  { intros A m op f q q' r a (d&Hh&Hr) Hw E. destruct (wp_run _ _ _ _ _ (Hw d Hh Hr) E) as (a'&d'&H1&H2&H3). exists a'. split; [done|]. by exists d'. }
  split.
  - intros p q q' r a Hq Hp E. replace (reply_of r) with (reply_with (fun _ : unit => RDone) r) by (by destruct r).
    eapply Hgo; [exact Hq| |exact E]. intros d Hh Hr. exact (redis_enqueue_conforms cfg transient Ha mono p q d a Hm Hh Hr Hp).
  - intros p delay now q q' r a Hq Hp Hf E. replace (reply_of r) with (reply_with (fun _ : unit => RDone) r) by (by destruct r).
    eapply Hgo; [exact Hq| |exact E]. intros d Hh Hr. eapply redis_delay_conforms; [done|done|done|done|]. rewrite (rp_delayed _ _ Hr).
    intros [e [Ee Hin]]%list_elem_of_fmap. apply list_elem_of_In, in_map_iff in Hin as (dp&<-&Hin). apply list_elem_of_In in Hin. apply Hf.
    change (to_json p = to_json dp.2) in Ee. apply to_json_inj in Ee as ->; [apply list_elem_of_fmap; by exists dp|done|].
    pose proof (rp_delayed_wf _ _ Hr) as W. rewrite Forall_forall in W. by apply (W dp).
  - intros now q q' r a Hq E. eapply Hgo; [exact Hq| |exact E]. intros d Hh Hr. exact (redis_dequeue_conforms cfg transient Ha mono now timeout q d a Hm Hh Hr).
  - intros id q q' r a Hq E. replace (reply_of r) with (reply_with (fun _ : unit => RDone) r) by (by destruct r).
    eapply Hgo; [exact Hq| |exact E]. intros d Hh Hr. exact (redis_ack_conforms cfg transient Ha mono id q d a Hh Hr).
  - intros id err now q q' r a Hq E. replace (reply_of r) with (reply_with (fun _ : unit => RDone) r) by (by destruct r).
    eapply Hgo; [exact Hq| |exact E]. intros d Hh Hr. exact (redis_fail_conforms cfg transient Ha mono now id err q d a Hh Hr).
  - intros q q' r a (d&Hh&Hr) E. assert (wp (qm_total_pending <$> get_metrics cfg) (fun q r => r = Ok (a_pending a) /\ redis_rep q a) q) as Hw.
    { apply wp_fmap. eapply (wp_get_metrics cfg Ha); [done|]. intros s' Hs'. split; [|by exists d]. f_equal. exact (represents_total _ _ Hr). }
    exact (wp_run _ _ _ _ _ Hw E).
Qed.
End redis.
