(* ===== verification/AsyncJobs.v ===== *)
(** * Async jobs: the job log, the dispatcher and the execution of a job
    ([AINDY/platform_layer/async_job_service.py], [AINDY/core/execution_dispatcher.py])

    The table [job_logs] with the uncommitted changes of the open session: reading a row
    sees the session's changes, [commit] makes them durable and [rollback] discards
    them.  Event emission, job handlers and the execution-unit service are services on
    an outside state [X]; an emission commits the session when it succeeds and rolls it
    back when it fails ([AINDY/core/system_event_service.py]), and a handler, which is
    given the session, may do either.  The queue is any implementation of [Queue]. *)
From S2P Require Import Prelude PyDatetime Json PyEffects JobQueue RedisQueue QueueInterface.
Local Open Scope Z_scope.

(** ** The job log *)
Record JobLog := MkLog {
  jl_source : string;
  jl_task : string;
  jl_payload : dict json;
  jl_status : string;
  jl_attempts : Z;
  jl_max : Z;
  jl_error : option string;
  jl_user : option string;
  jl_result : option json;
  jl_started : option Z;
  jl_completed : option Z;
  jl_created : Z;
  jl_scheduled : option Z
}.

Definition log_status (st : string) (l : JobLog) : JobLog :=
  MkLog (jl_source l) (jl_task l) (jl_payload l) st (jl_attempts l) (jl_max l) (jl_error l) (jl_user l) (jl_result l)
    (jl_started l) (jl_completed l) (jl_created l) (jl_scheduled l).
Definition log_error (err : string) (l : JobLog) : JobLog :=
  MkLog (jl_source l) (jl_task l) (jl_payload l) (jl_status l) (jl_attempts l) (jl_max l) (Some err) (jl_user l) (jl_result l)
    (jl_started l) (jl_completed l) (jl_created l) (jl_scheduled l).
Definition log_started (now : Z) (l : JobLog) : JobLog :=
  MkLog (jl_source l) (jl_task l) (jl_payload l) (jl_status l) (jl_attempts l) (jl_max l) (jl_error l) (jl_user l) (jl_result l)
    (Some now) (jl_completed l) (jl_created l) (jl_scheduled l).
Definition log_completed (now : Z) (l : JobLog) : JobLog :=
  MkLog (jl_source l) (jl_task l) (jl_payload l) (jl_status l) (jl_attempts l) (jl_max l) (jl_error l) (jl_user l) (jl_result l)
    (jl_started l) (Some now) (jl_created l) (jl_scheduled l).
Definition log_result (r : json) (l : JobLog) : JobLog :=
  MkLog (jl_source l) (jl_task l) (jl_payload l) (jl_status l) (jl_attempts l) (jl_max l) (jl_error l) (jl_user l) (Some r)
    (jl_started l) (jl_completed l) (jl_created l) (jl_scheduled l).
Definition log_attempt (l : JobLog) : JobLog :=
  MkLog (jl_source l) (jl_task l) (jl_payload l) (jl_status l) (jl_attempts l + 1) (jl_max l) (jl_error l) (jl_user l) (jl_result l)
    (jl_started l) (jl_completed l) (jl_created l) (jl_scheduled l).
Definition log_scheduled (at_ : Z) (l : JobLog) : JobLog :=
  MkLog (jl_source l) (jl_task l) (jl_payload l) (jl_status l) (jl_attempts l) (jl_max l) (jl_error l) (jl_user l) (jl_result l)
    (jl_started l) (jl_completed l) (jl_created l) (Some at_).

(** ** Services *)

(** What a call does to the transaction of the session it is given *)
Inductive txn := Keep | Commit | Rollback.

(** [decision["decision"]] with its [defer_seconds] *)
Inductive decision := DIgnore | DDefer (seconds : option Z) | DExecute.

Record async_services (X : Type) := {
  sv_clock : X -> Z;
  sv_emit : string -> string -> X -> X * txn * option string;       (* event type, job: [_emit_async_system_event] *)
  sv_error_event : string -> X -> X * txn * result unit;            (* [emit_error_event(required=True)] *)
  sv_started_exists : string -> X -> bool;                          (* [_has_existing_execution_started] *)
  sv_eu_status : string -> string -> X -> X;                        (* [get_by_source] and [update_status], errors ignored *)
  sv_eu_create : string -> X -> X * result unit;                    (* [ExecutionUnitService.create] *)
  sv_commit : X -> X * result unit;                                 (* does [db.commit()] reach the database? *)
  sv_handler : string -> option (dict json -> X -> X * txn * result json);   (* [_JOB_REGISTRY] *)
  sv_written : string -> X -> X;                                    (* [_emit_job_log_written] *)
  sv_worker_event : string -> string -> X -> X;                     (* [_emit_worker_event], own session *)
  sv_uuid : X -> X * string;                                        (* [uuid.uuid4()] *)
  sv_trace_id : X -> string;                                        (* the active trace, or a new id *)
  sv_eu_id : X -> string;                                           (* the active execution unit, or empty *)
  sv_iso : X -> string;                                             (* the text of the current time *)
  sv_decide : string -> string -> dict json -> X -> X * txn * result decision;  (* [evaluate_live_trigger], by task, source and payload *)
  sv_record : string -> X -> X * txn * result unit                  (* [record_decision] *)
}.
Arguments sv_clock {X}. Arguments sv_emit {X}. Arguments sv_error_event {X}. Arguments sv_started_exists {X}.
Arguments sv_eu_status {X}. Arguments sv_eu_create {X}. Arguments sv_commit {X}. Arguments sv_handler {X}. Arguments sv_written {X}.
Arguments sv_worker_event {X}. Arguments sv_uuid {X}. Arguments sv_trace_id {X}. Arguments sv_eu_id {X}. Arguments sv_iso {X}.
Arguments sv_decide {X}. Arguments sv_record {X}.

(** Environment variables *)
Record async_env := MkAsyncEnv {
  ae_distributed : bool;          (* EXECUTION_MODE=distributed *)
  ae_heavy : bool;                (* [async_heavy_execution_enabled()] *)
  ae_backoff_base : Z;            (* AINDY_RETRY_BACKOFF_BASE_MS *)
  ae_backoff_max : Z;             (* AINDY_RETRY_BACKOFF_MAX_MS *)
  ae_force_inline : bool;         (* a test environment *)
  ae_background : bool;           (* the background runner is enabled and active *)
  ae_sqlite : bool;               (* the session's dialect is sqlite *)
  ae_accepting : bool;            (* [_ASYNC_ACCEPTING] *)
  ae_global_cap : Z;              (* AINDY_ASYNC_MAX_CONCURRENT_GLOBAL *)
  ae_user_cap : Z;                (* AINDY_ASYNC_MAX_CONCURRENT_PER_USER *)
  ae_capacity : Z;                (* [_queue_capacity_limit()] *)
  ae_threshold : Z;               (* [_saturation_threshold()] *)
  ae_test_mode : bool             (* [settings.TEST_MODE] *)
}.

(** A call handed to the thread pool *)
Inductive call :=
| CallJob (log_id task : string) (payload : dict json)         (* [_execute_job(log_id, task_name, payload)] *)
| CallSubmitted (log_id task : string) (payload : dict json)   (* [_submit_and_release] *)
| CallHandler (name : string).                                 (* another caller's handler *)

Record world (Q X : Type) := MkWorld {
  w_rows : gmap string JobLog;       (* committed *)
  w_pending : gmap string JobLog;    (* changed in the open session *)
  w_queue : Q;
  w_pool : list call;                (* submitted to the thread pool, in order *)
  w_slots : Z;                       (* free slots of the job semaphore *)
  w_x : X
}.
Arguments MkWorld {Q X}. Arguments w_rows {Q X}. Arguments w_pending {Q X}. Arguments w_queue {Q X}. Arguments w_pool {Q X}. Arguments w_slots {Q X}. Arguments w_x {Q X}.

Section jobs.
Context {Q X : Type} {queue : Queue Q} (sv : async_services X) (env : async_env).
Abbreviation W := (SE (world Q X)).

(** ** The session *)
Definition with_rows (w : world Q X) (rows pend : gmap string JobLog) : world Q X := MkWorld rows pend (w_queue w) (w_pool w) (w_slots w) (w_x w).
Definition with_x (w : world Q X) (x : X) : world Q X := MkWorld (w_rows w) (w_pending w) (w_queue w) (w_pool w) (w_slots w) x.

Definition apply_txn (t : txn) (w : world Q X) : world Q X :=
  match t with
  | Keep => w
  | Commit => with_rows w (w_pending w ∪ w_rows w) ∅
  | Rollback => with_rows w (w_rows w) ∅
  end.

(** A service that is given the session *)
Definition db_call {A} (f : X -> X * txn * result A) : W A := fun w =>
  let '(x, t, r) := f (w_x w) in (apply_txn t (with_x w x), r).
Definition effect_x (f : X -> X) : W unit := writes (fun w => with_x w (f (w_x w))).
Definition on_queue {A} (m : SE Q A) : W A := fun w =>
  let (q, r) := m (w_queue w) in (MkWorld (w_rows w) (w_pending w) q (w_pool w) (w_slots w) (w_x w), r).

(** [db.commit()], [db.rollback()] and [db.close()]; a commit that fails discards the changes. *)
Definition commit : W unit := fun w =>
  match sv_commit sv (w_x w) with
  | (x, Ok _) => (apply_txn Commit (with_x w x), Ok ())
  | (x, Raise e) => (apply_txn Rollback (with_x w x), Raise e)
  end.
Definition rollback : W unit := writes (apply_txn Rollback).
Definition close (w : world Q X) : world Q X := with_rows w (w_rows w) ∅.

(** [db.query(JobLog).filter(JobLog.id == log_id).first()] *)
Definition find_log (id : string) : W (option JobLog) :=
  reads (fun w => match w_pending w !! id with Some l => Some l | None => w_rows w !! id end).
(** An assignment to attributes of a loaded row *)
Definition change_log (id : string) (f : JobLog -> JobLog) : W unit := fun w =>
  match (match w_pending w !! id with Some l => Some l | None => w_rows w !! id end) with
  | Some l => (with_rows w (w_rows w) (<[id := f l]> (w_pending w)), Ok ())
  | None => (w, Ok ())
  end.
Definition now : W Z := reads (fun w => sv_clock sv (w_x w)).
Definition emit (ty id : string) : W (option string) := db_call (fun x => let '(x', t, r) := sv_emit sv ty id x in (x', t, Ok r)).
Definition eu_status (id st : string) : W unit := effect_x (sv_eu_status sv id st).
Definition written (id : string) : W unit := effect_x (sv_written sv id).

(** ** The dispatcher *)

(** [_compute_retry_delay], in milliseconds; it reads the committed row in a session of its own. *)
Definition compute_retry_delay (id : string) (w : world Q X) : Z :=
  let attempt := match w_rows w !! id with Some l => Z.max 1 (if jl_attempts l =? 0 then 1 else jl_attempts l) | None => 1 end in
  Z.min (ae_backoff_base env * 2 ^ (attempt - 1)) (ae_backoff_max env).

(** The fields of an execution unit that the dispatcher reads *)
Record unit_info := MkUnit {
  ui_type : string;
  ui_priority : string;
  ui_id : string;                    (* empty when there is none *)
  ui_user : string;
  ui_async_hint : option bool
}.
(** [JOB_DISPATCH_STUB] *)
Definition JOB_DISPATCH_STUB : unit_info := MkUnit "job" "normal" "" "" (Some true).

(** The context a caller passes to [dispatch] *)
Record dispatch_context := MkCtx {
  cx_log_id : option string;
  cx_task_name : option string;
  cx_operation_name : option string;
  cx_user_id : option string;
  cx_retry : bool
}.

(** [_decide_mode]: [true] is ASYNC *)
Definition decide_mode (u : unit_info) : bool :=
  match ui_async_hint u with
  | Some true => true
  | h =>
      if negb (ae_heavy env) then false
      else match h with
           | Some false => false
           | _ => if str_lower (ui_priority u) =s "high" then true
                  else str_in (str_lower (ui_type u)) ["flow"; "agent"; "nodus"; "job"]
           end
  end.

(** The payload [_enqueue_distributed] builds; [fresh] is a new id. *)
Definition queue_payload (u : unit_info) (cx : dispatch_context) (fresh : string) (x : X) : QueueJobPayload :=
  let eu_id := if truthy (sv_eu_id sv x) then sv_eu_id sv x else ui_id u in
  let job_id := str_or (cx_log_id cx) (if truthy eu_id then eu_id else fresh) in
  let operation_name := str_or (cx_operation_name cx) (default "" (cx_task_name cx)) in
  let task_name := str_or (cx_task_name cx) operation_name in
  post_init (MkJob job_id task_name ""
    [("trace_id", JStr (sv_trace_id sv x)); ("eu_id", JStr eu_id); ("user_id", JStr (str_or (cx_user_id cx) (ui_user u)));
     ("operation_name", JStr operation_name)]
    [("attempt_count", JInt 0); ("max_attempts", JInt 1); ("is_retry", JBool (cx_retry cx))]
    (sv_iso sv x)).

(** [_enqueue_distributed] *)
Definition enqueue_distributed (u : unit_info) (cx : dispatch_context) : W unit := fun w =>
  let (x1, fresh) := sv_uuid sv (w_x w) in
  let p := queue_payload u cx fresh x1 in
  let w1 := with_x w (sv_worker_event sv "job_enqueued" (job_id p) x1) in
  let delay := compute_retry_delay (job_id p) w1 in
  if cx_retry cx && (0 <? delay) then on_queue (q_enqueue_delayed p (delay * 1000) (sv_clock sv (w_x w1))) w1
  else on_queue (q_enqueue p) w1.

(** The ASYNC branch of [dispatch]: in distributed mode the call itself is not used. *)
Definition dispatch_async (u : unit_info) (c : call) (cx : dispatch_context) : W unit :=
  if ae_distributed env then enqueue_distributed u cx
  else writes (fun w => MkWorld (w_rows w) (w_pending w) (w_queue w) (w_pool w ++ [c]) (w_slots w) (w_x w)).

(** ** [_execute_job_inline] *)

(** [_is_execution_envelope] *)
Definition is_execution_envelope (r : json) : bool :=
  match r with
  | JObj d => forallb (fun k => dmem d k) ["status"; "result"; "events"; "next_action"; "trace_id"]
  | _ => false
  end.
(** [success] and [error] of [AINDY/core/execution_envelope.py] *)
Definition execution_success (r : json) (trace : string) : json :=
  JObj [("status", JStr "SUCCESS"); ("data", r); ("result", r); ("events", JArr []); ("next_action", JNull); ("trace_id", JStr trace)].
Definition execution_error (msg trace : string) : json :=
  let payload := JObj [("message", JStr msg)] in
  JObj [("status", JStr "ERROR"); ("data", payload); ("result", payload); ("events", JArr []); ("next_action", JNull); ("trace_id", JStr trace)].

(** [_ensure_root_execution_event_id] *)
Definition ensure_root (id : string) : W unit :=
  known ← reads (fun w => sv_started_exists sv id (w_x w));
  if (known : bool) then mret () else emit "execution.started" id ≫= fun _ => mret ().

(** The run of the handler up to the final commit; an exception of it has marked the row
    failed in the session. *)
Definition run_handler (id : string) (queued : bool) (h : dict json -> X -> X * txn * result json) (payload : dict json) : W unit :=
  try_except (
    r ← db_call (h payload);
    let r := if is_execution_envelope r then r else execution_success r id in
    t ← now;
    change_log id (fun l => log_completed t (log_result r (log_status "success" l))) ≫= fun _ =>
    eu_status id "completed" ≫= fun _ =>
    (if queued then emit "async_job.completed" id ≫= fun _ => mret () else mret ()) ≫= fun _ =>
    emit "execution.completed" id ≫= fun _ => mret ())
  (fun e => t ← now; change_log id (fun l => log_completed t (log_error (exn_msg e) (log_status "failed" l))) ≫= fun _ => throw e) ≫= fun _ =>
  commit ≫= fun _ => written id.

(** The outer handler: the attempt is rolled back, then retried or recorded as failed. *)
Definition handle_failure (id task : string) (payload : dict json) (e : exn) : W unit :=
  rollback ≫= fun _ =>
  o ← find_log id;
  match o with
  | None => mret ()
  | Some l =>
      if jl_attempts l <? jl_max l then
        change_log id (fun l => log_error (exn_msg e) (log_status "pending" l)) ≫= fun _ =>
        commit ≫= fun _ =>
        dispatch_async JOB_DISPATCH_STUB (CallJob id task payload) (MkCtx (Some id) None None (jl_user l) true)
      else
        t ← now;
        change_log id (fun l => log_completed t (log_result (execution_error (exn_msg e) id) (log_error (exn_msg e) (log_status "failed" l)))) ≫= fun _ =>
        eu_status id "failed" ≫= fun _ =>
        known ← reads (fun w => sv_started_exists sv id (w_x w));
        (if (known : bool) then emit "async_job.failed" id ≫= fun _ => mret () else mret ()) ≫= fun _ =>
        emit "execution.failed" id ≫= fun _ =>
        db_call (sv_error_event sv id) ≫= fun _ =>
        commit ≫= fun _ => written id
  end.

Definition execute_job_inline (id task : string) (payload : dict json) : W unit :=
  ensure_root id ≫= fun _ =>
  try_except (
    o ← find_log id;
    match o with
    | None => mret ()
    | Some _ =>
        match sv_handler sv task with
        | None => throw (Exn "RuntimeError" ("Async job handler '" +:+ task +:+ "' is not registered"))
        | Some h =>
            queued ← reads (fun w => sv_started_exists sv id (w_x w));
            t ← now;
            change_log id (fun l => log_attempt (log_started t (log_status "running" l))) ≫= fun _ =>
            eu_status id "executing" ≫= fun _ =>
            (if (queued : bool) then emit "async_job.started" id ≫= fun _ => mret () else mret ()) ≫= fun _ =>
            run_handler id queued h payload
        end
    end) (handle_failure id task payload).

(** [_execute_job]: a session of its own *)
Definition execute_job (id task : string) (payload : dict json) : W unit :=
  writes close ≫= fun _ => try_finally (execute_job_inline id task payload) close.

(** ** Submission *)

(** The rows a query of this session matches *)
Definition count_logs (P : JobLog -> bool) : W Z := reads (fun w => Z.of_nat (length (List.filter P (map snd (map_to_list (w_pending w ∪ w_rows w)))))).

Definition active (l : JobLog) : bool := str_in (jl_status l) ["pending"; "running"; "deferred"].
Definition owned_by (u : string) (l : JobLog) : bool := match jl_user l with Some v => v =s u | None => false end.

(** [_enforce_job_admission_limits] *)
Definition enforce_admission (user : option string) : W unit :=
  (if 0 <? ae_global_cap env then
     n ← count_logs active;
     if ae_global_cap env <=? n then throw (Exn "QueueSaturatedError" ("Global async job admission cap reached (" +:+ Z_to_string (ae_global_cap env) +:+ "). Retry later."))
     else mret ()
   else mret ()) ≫= fun _ =>
  match user with
  | Some u =>
      if 0 <? ae_user_cap env then
        n ← count_logs (fun l => owned_by u l && active l);
        if ae_user_cap env <=? n then throw (Exn "QueueSaturatedError" ("User async job admission cap reached (" +:+ Z_to_string (ae_user_cap env) +:+ "). Retry later."))
        else mret ()
      else mret ()
  | None => mret ()
  end.

(** [_enforce_distributed_queue_backpressure] *)
Definition enforce_backpressure (task : string) : W unit :=
  if negb (ae_distributed env) then mret ()
  else
    n ← on_queue q_pending;
    if ae_threshold env <=? n
    then throw (Exn "QueueSaturatedError" ("Async queue saturation threshold reached for " +:+ task +:+ " (" +:+ Z_to_string n +:+ "/" +:+
                                           Z_to_string (ae_capacity env) +:+ "). Retry later."))
    else mret ().

Definition fresh_id : W string := fun w => let (x, i) := sv_uuid sv (w_x w) in (with_x w x, Ok i).
Definition add_log (id : string) (l : JobLog) : W unit := writes (fun w => with_rows w (w_rows w) (<[id := l]> (w_pending w))).
Definition add_slots (n : Z) (w : world Q X) : world Q X := MkWorld (w_rows w) (w_pending w) (w_queue w) (w_pool w) (w_slots w + n) (w_x w).

(** The row and its execution unit; a unit that cannot be created is ignored. *)
Definition create_log (id : string) (l : JobLog) : W unit :=
  add_log id l ≫= fun _ => commit ≫= fun _ => written id ≫= fun _ =>
  try_except (db_call (fun x => let (x', r) := sv_eu_create sv id x in (x', Keep, r)) ≫= fun _ => commit) (fun _ => rollback).

(** The guard after an inline run: a row without a final status is a success. *)
Definition terminal_guard (id : string) : W unit :=
  try_except (
    o ← find_log id;
    match o with
    | Some l =>
        if str_in (jl_status l) ["success"; "failed"] then mret ()
        else t ← now;
             change_log id (fun l => log_completed (default t (jl_completed l)) (log_status "success" l)) ≫= fun _ => commit ≫= fun _ => written id
    | None => mret ()
    end) (fun _ => mret ()).

(** The outer [except] of a submission *)
Definition submission_failed (id : string) (e : exn) : W string :=
  try_finally (
    o ← find_log id;
    match o with
    | Some _ =>
        t ← now;
        change_log id (fun l => log_completed t (log_error (exn_msg e) (log_status "failed" l))) ≫= fun _ =>
        emit "execution.failed" id ≫= fun _ => db_call (sv_error_event sv id)
    | None => mret ()
    end) (apply_txn Rollback) ≫= fun _ => throw e.

(** Handing the job over: to the queue or to the pool, within a slot of the semaphore *)
Definition hand_over (id task : string) (payload : dict json) (user : option string) : W unit := fun w =>
  if w_slots w <=? 0 then
    (o ← find_log id;
     match o with
     | Some _ =>
         t ← now;
         change_log id (fun l => log_completed t (log_error "Execution queue full -- retry later" (log_status "failed" l))) ≫= fun _ =>
         commit ≫= fun _ => written id
     | None => mret ()
     end ≫= fun _ =>
     throw (Exn "QueueSaturatedError" ("Async job queue full (max=" +:+ Z_to_string (ae_capacity env) +:+ "). Job rejected. Retry later or increase MAX_QUEUE_SIZE."))) w
  else if ae_distributed env then
    try_finally (dispatch_async JOB_DISPATCH_STUB (CallJob id task payload) (MkCtx (Some id) (Some task) None user false)) (add_slots 1) (add_slots (-1) w)
  else (MkWorld (w_rows w) (w_pending w) (w_queue w) (w_pool w ++ [CallSubmitted id task payload]) (w_slots w - 1) (w_x w), Ok ()).

Definition inline_enabled (exec_inline : bool) : bool :=
  ae_force_inline env || (negb (ae_background env) && negb (ae_distributed env)) || (exec_inline && ae_sqlite env).

(** [submit_async_job] *)
Definition submit_async_job (task : string) (payload : dict json) (user : option string) (source : string) (max_attempts : Z) (exec_inline : bool) : W string :=
  if negb (ae_accepting env)
  then throw (Exn "QueueSaturatedError" "Async job service is shutting down. New jobs are temporarily rejected.")
  else
    writes close ≫= fun _ =>
    try_finally (
      (if inline_enabled exec_inline then mret () else enforce_admission user ≫= fun _ => enforce_backpressure task) ≫= fun _ =>
      id ← fresh_id;
      try_except (
        t ← now;
        create_log id (MkLog source task payload "pending" 0 max_attempts None user None None None t None) ≫= fun _ =>
        emit "execution.started" id ≫= fun _ =>
        (if inline_enabled exec_inline then try_finally (execute_job_inline id task payload) (fun w => (terminal_guard id w).1)
         else if negb exec_inline then mret ()
         else hand_over id task payload user) ≫= fun _ =>
        mret id) (submission_failed id)) close.

(** [dispatch]: [run] is the handler; in ASYNC mode [c] is what the pool would run. *)
Definition dispatch (u : unit_info) (run : W unit) (c : call) (cx : dispatch_context) : W unit :=
  if decide_mode u then dispatch_async u c cx else run.

(** The job system's own dispatches never run inline, so [dispatch_async] is [dispatch] for them. *)
Lemma stub_is_async run c cx : dispatch JOB_DISPATCH_STUB run c cx = dispatch_async JOB_DISPATCH_STUB c cx.
Proof. done. Qed.

(** A thread of the pool takes its next call; [handlers] runs another caller's. *)
Definition run_pool (handlers : string -> W unit) : W bool := fun w =>
  match w_pool w with
  | [] => (w, Ok false)
  | c :: rest =>
      let w1 := MkWorld (w_rows w) (w_pending w) (w_queue w) rest (w_slots w) (w_x w) in
      (match c with
       | CallJob id task payload => execute_job id task payload
       | CallSubmitted id task payload => try_finally (execute_job id task payload) (add_slots 1)
       | CallHandler name => handlers name
       end ≫= fun _ => mret true) w1
  end.

(** ** Deferred and autonomous jobs *)

(** [int(decision.get("defer_seconds") or 300)], in microseconds *)
Definition defer_delay (s : option Z) : Z := (match s with Some n => if n =? 0 then 300 else n | None => 300 end) * 1000000.

(** [defer_async_job] *)
Definition defer_async_job (task : string) (payload : dict json) (user : option string) (source : string) (seconds : option Z) : W string :=
  writes close ≫= fun _ =>
  try_finally (
    id ← fresh_id;
    t ← now;
    create_log id (MkLog source task payload "deferred" 0 1 None user None None None t (Some (t + defer_delay seconds))) ≫= fun _ =>
    db_call (sv_record sv id) ≫= fun _ => mret id) close.

Inductive outcome := Ignored (trace : string) | Deferred (log_id : string) | Queued (log_id : string).

(** [submit_autonomous_async_job] without a session of the caller's *)
Definition submit_autonomous (task : string) (payload : dict json) (user : option string) (source trigger : string) (ctx : dict json) (max_attempts : Z) : W outcome :=
  let autonomy := [("trigger_type", JStr trigger); ("source", JStr source); ("context", JObj ctx)] in
  writes close ≫= fun _ =>
  td ← try_finally (
    trace ← fresh_id;
    d ← db_call (sv_decide sv task source autonomy);
    match d with DIgnore => db_call (sv_record sv trace) | _ => mret () end ≫= fun _ => mret (trace, d)) close;
  let payload' := dset payload "__autonomy" (JObj autonomy) in
  match (td.2 : decision) with
  | DIgnore => mret (Ignored td.1)
  | DDefer s => Deferred <$> defer_async_job task payload' user source s
  | DExecute => Queued <$> submit_async_job task payload' user source max_attempts true
  end.

(** Deferred rows that are due, the earliest first *)
Definition due (t : Z) (l : JobLog) : bool :=
  (jl_status l =s "deferred") && match jl_scheduled l with Some s => s <=? t | None => false end.
Fixpoint insert_due (e : string * JobLog) (l : list (string * JobLog)) : list (string * JobLog) :=
  match l with
  | [] => [e]
  | f :: l' => if default 0 (jl_scheduled e.2) <=? default 0 (jl_scheduled f.2) then e :: l else f :: insert_due e l'
  end.
Definition due_logs (t : Z) (limit : nat) (w : world Q X) : list (string * JobLog) :=
  take limit (foldr insert_due [] (List.filter (fun e => due t e.2) (map_to_list (w_rows w)))).

Definition autonomy_of (payload : dict json) : dict json := match dget payload "__autonomy" with Some (JObj a) => a | _ => [] end.

(** One row of [process_deferred_jobs]; [true] when it was resumed. The row's attributes
    are read again after each commit. *)
Definition process_deferred_one (t : Z) (e : string * JobLog) : W bool :=
  let '(id, l) := e in
  d ← db_call (sv_decide sv (jl_task l) (jl_source l) (autonomy_of (jl_payload l)));
  db_call (sv_record sv id) ≫= fun _ =>
  match (d : decision) with
  | DIgnore => change_log id (fun l => log_completed t (log_status "ignored" l)) ≫= fun _ => commit ≫= fun _ => mret false
  | DDefer s => change_log id (log_scheduled (t + defer_delay s)) ≫= fun _ => commit ≫= fun _ => mret false
  | DExecute =>
      change_log id (log_status "pending") ≫= fun _ => commit ≫= fun _ =>
      (if ae_test_mode env then execute_job id (jl_task l) (jl_payload l)
       else dispatch_async JOB_DISPATCH_STUB (CallJob id (jl_task l) (jl_payload l)) (MkCtx (Some id) None None None false)) ≫= fun _ =>
      mret true
  end.

Fixpoint process_deferred_all (t : Z) (l : list (string * JobLog)) : W Z :=
  match l with
  | [] => mret 0
  | e :: l' => b ← process_deferred_one t e; n ← process_deferred_all t l'; mret (if (b : bool) then n + 1 else n)
  end.

(** [process_deferred_jobs] *)
Definition process_deferred_jobs (limit : nat) : W Z :=
  writes close ≫= fun _ =>
  try_finally (t ← now; l ← reads (due_logs t limit); process_deferred_all t l) close.

(** [_cleanup_stale_logs] of [AINDY/platform_layer/scheduler_service.py] *)
Definition stale_log (t : Z) (l : JobLog) : bool := (jl_status l =s "pending") && (jl_created l <? t - 3600 * 1000000).
Definition mark_stale (l : JobLog) : JobLog := log_error "Stale: never started within 1 hour of creation" (log_status "failed" l).
Definition cleanup_stale_logs : W unit := fun w =>
  let t := sv_clock sv (w_x w) in
  try_except (writes (fun w => with_rows w (w_rows w) ((fun l => if stale_log t l then mark_stale l else l) <$> w_rows w)) ≫= fun _ => commit)
    (fun _ => mret ()) (close w).
End jobs.
