(* ===== verification/Worker.v ===== *)
(** * The queue worker ([AINDY/worker/worker_loop.py])

    [process_one_job] takes a job from the queue, claims its row in the job log, runs it
    through the job system and acknowledges it.  The state adds to that of [AsyncJobs] the
    health record, the failure window and the concurrency semaphore of the process. *)
From S2P Require Import Prelude PyDatetime Json PyEffects JobQueue RedisQueue QueueInterface AsyncJobs.
Local Open Scope Z_scope.

(** [WorkerRuntimeHealth] *)
Record health := MkHealth {
  h_state : string;
  h_heartbeat : Z;
  h_first_iteration : bool;
  h_active : Z;
  h_depth : Z;
  h_capacity : Z
}.

Record worker (Q X : Type) := MkWorker {
  wk_world : world Q X;
  wk_health : health;
  wk_failures : list Z;              (* [_failure_window] *)
  wk_sem : option Z                  (* free slots of [_CONCURRENCY_SEM]; none: unlimited *)
}.
Arguments MkWorker {Q X}. Arguments wk_world {Q X}. Arguments wk_health {Q X}. Arguments wk_failures {Q X}. Arguments wk_sem {Q X}.

(** ** Failure window *)
Definition FAILURE_WINDOW : Z := 300 * 1000000.

(** [_prune_failure_window] *)
Fixpoint prune_failure_window (cutoff : Z) (l : list Z) : list Z :=
  match l with
  | [] => []
  | t :: l' => if t <? cutoff then prune_failure_window cutoff l' else l
  end.

(** [_record_job_failure_alert]: the window, and whether the alert is raised *)
Definition record_failure_alert (threshold now : Z) (l : list Z) : list Z * bool :=
  let l' := prune_failure_window (now - FAILURE_WINDOW) (l ++ [now]) in
  (l', threshold <=? Z.of_nat (length l')).

Section worker.
Context {Q X : Type} {queue : Queue Q} (sv : async_services X) (env : async_env) (mono : X -> Z) (alert_threshold : Z).
Abbreviation WK := (SE (worker Q X)).

Definition on_world {A} (m : SE (world Q X) A) : WK A := fun k =>
  let (w, r) := m (wk_world k) in (MkWorker w (wk_health k) (wk_failures k) (wk_sem k), r).
Definition on_health (f : health -> health) : WK unit := writes (fun k => MkWorker (wk_world k) (f (wk_health k)) (wk_failures k) (wk_sem k)).
Definition add_sem (n : Z) (k : worker Q X) : worker Q X := MkWorker (wk_world k) (wk_health k) (wk_failures k) ((fun s => s + n) <$> wk_sem k).

(** [_update_worker_queue_snapshot] *)
Definition update_snapshot : WK unit :=
  try_except (
    n ← on_world (on_queue q_pending);
    on_health (fun h => MkHealth (h_state h) (h_heartbeat h) (h_first_iteration h) (h_active h) n (ae_capacity env)))
  (fun _ => mret ()).
(** [_record_worker_heartbeat(iteration_completed=...)] *)
Definition record_heartbeat (completed : bool) : WK unit :=
  t ← reads (fun k => mono (w_x (wk_world k)));
  on_health (fun h =>
    if completed && negb (h_first_iteration h)
    then MkHealth (if h_state h =s "DRAINING" then h_state h else "READY") t true (h_active h) (h_depth h) (h_capacity h)
    else MkHealth (h_state h) t (h_first_iteration h) (h_active h) (h_depth h) (h_capacity h)) ≫= fun _ =>
  update_snapshot.
(** [_increment_active_jobs] and [_decrement_active_jobs] *)
Definition add_active (n : Z) (h : health) : health :=
  MkHealth (h_state h) (h_heartbeat h) (h_first_iteration h) (Z.max 0 (h_active h + n)) (h_depth h) (h_capacity h).

(** [_try_claim_job]: in a session of its own *)
Definition try_claim_job (id : string) : SE (world Q X) bool := fun w =>
  let claimable := match w_rows w !! id with Some l => jl_status l =s "pending" | None => false end in
  match sv_commit sv (w_x w) with
  | (x, Ok _) =>
      let t := sv_clock sv (w_x w) in
      (with_x (with_rows w (if claimable then alter (fun l => log_started t (log_status "running" l)) id (w_rows w) else w_rows w) (w_pending w)) x, Ok claimable)
  | (x, Raise _) => (with_x w x, Ok false)
  end.

(** [_fetch_job_data] *)
Definition fetch_job_data (id : string) : SE (world Q X) (option (string * dict json)) :=
  reads (fun w => (fun l => (jl_task l, jl_payload l)) <$> w_rows w !! id).

Definition worker_event (ty id : string) : WK unit := on_world (effect_x (sv_worker_event sv ty id)).

Definition failure_alert (id : string) : WK unit := fun k =>
  let (l, alert) := record_failure_alert alert_threshold (mono (w_x (wk_world k))) (wk_failures k) in
  (if alert then worker_event "queue.failure_rate_alert" id else mret ()) (MkWorker (wk_world k) (wk_health k) l (wk_sem k)).

(** The body of [process_one_job] once a slot is held *)
Definition process_claimed (id : string) : WK unit :=
  try_except (
    worker_event "job_started" id ≫= fun _ =>
    claimed ← on_world (try_claim_job id);
    if negb claimed then on_world (on_queue (q_ack id))
    else
      o ← on_world (fetch_job_data id);
      match (o : option (string * dict json)) with
      | None => on_world (on_queue (q_ack id))
      | Some (task, payload) =>
          on_world (execute_job sv env id task payload) ≫= fun _ =>
          on_world (on_queue (q_ack id)) ≫= fun _ =>
          worker_event "job_completed" id
      end)
  (fun e =>
    worker_event "job_failed" id ≫= fun _ =>
    t ← reads (fun k => sv_clock sv (w_x (wk_world k)));
    on_world (on_queue (q_fail id (exn_msg e) t)) ≫= fun _ => failure_alert id).

(** The dequeued job waits for a slot; [slot_freed] is how the wait ends: another job
    released one, or the process is stopping. *)
Definition with_slot (slot_freed : bool) (job : QueueJobPayload) : WK bool := fun k =>
  let waited := match wk_sem k with Some n => n <=? 0 | None => false end in
  if waited && negb slot_freed then (on_world (on_queue (q_enqueue job)) ≫= fun _ => mret false) k
  else
    (on_health (add_active 1) ≫= fun _ =>
     try_finally (process_claimed (job_id job))
       (fun k => add_sem 1 ((on_health (add_active (-1)) ≫= fun _ => update_snapshot) k).1) ≫= fun _ =>
     mret true) (if waited then k else add_sem (-1) k).

(** [process_one_job] *)
Definition process_one_job (slot_freed : bool) : WK bool :=
  update_snapshot ≫= fun _ =>
  t ← reads (fun k => sv_clock sv (w_x (wk_world k)));
  o ← on_world (on_queue (q_dequeue t));
  record_heartbeat true ≫= fun _ =>
  match (o : option QueueJobPayload) with
  | None => mret false
  | Some job => with_slot slot_freed job
  end.
End worker.

(** ** Dead letters of the in-memory queue *)

(** One entry of [drain_dead_letters(requeue=True)]: the queue, how many were requeued, and the errors *)
Definition requeue_letter (st : memq * Z * list string) (e : dead_letter) : memq * Z * list string :=
  let '(s, n, errs) := st in
  match dl_payload e with
  | None => (s, n, errs ++ ["job_id=" +:+ dl_job_id e +:+ " missing payload"])
  | Some p =>
      match mem_enqueue p s with
      | (s', Ok _) => (s', n + 1, errs)
      | (s', Raise ex) => (s', n, errs ++ ["job_id=" +:+ dl_job_id e +:+ " requeue_failed=" +:+ exn_msg ex])
      end
  end.

(** [drain_dead_letters]: the letters leave the store before they are put back into the queue. *)
Definition drain_dead_letters (max_items : Z) (requeue : bool) (s : memq) : memq * (Z * Z * list string) :=
  let limit := Z.to_nat (Z.max 0 (Z.min max_items 100)) in
  if (limit =? 0)%nat then (s, (0, 0, []))
  else
    let letters := take limit (mq_dlq s) in
    if requeue then
      let '(s', n, errs) := fold_left requeue_letter letters (with_dlq s (drop limit (mq_dlq s)), 0, []) in
      (s', (Z.of_nat (length letters), n, errs))
    else (s, (Z.of_nat (length letters), 0, [])).

Definition put_back (s : memq) (ps : list QueueJobPayload) : memq :=
  MkMem (mq_max s) (mq_q s ++ ps) (mq_inflight s) (mq_dlq s) (mq_timers s) (mq_delayed_count s).

Lemma requeue_letters letters s n errs : 0 < mq_max s -> 0 <= mq_delayed_count s ->
  exists errs', fold_left requeue_letter letters (s, n, errs) =
    (put_back s (take (Z.to_nat (mq_max s - pending_depth s)) (omap dl_payload letters)),
     n + Z.of_nat (length (take (Z.to_nat (mq_max s - pending_depth s)) (omap dl_payload letters))), errs') /\
    (length errs' + length (take (Z.to_nat (mq_max s - pending_depth s)) (omap dl_payload letters)) = length errs + length letters)%nat.
Proof.
  intros Hm Hd. revert s n errs Hm Hd. induction letters as [|e l IH]; intros s n errs Hm Hd; cbn [fold_left omap list_omap].
  - exists errs. rewrite take_nil. destruct s. unfold put_back. cbn. rewrite app_nil_r, Z.add_0_r. done.
  - cbn [requeue_letter]. destruct (dl_payload e) as [p|]; cbn [mbind option_bind].
    + unfold mem_enqueue, reject_if_full. destruct (mq_max s <=? pending_depth s) eqn:E; breflect.
      * destruct (IH s n (errs ++ ["job_id=" +:+ dl_job_id e +:+ " requeue_failed=" +:+ exn_msg (saturated (mq_max s))]) Hm Hd) as (errs'&->&Hl).
        exists errs'. replace (Z.to_nat (mq_max s - pending_depth s)) with 0%nat in * by lia. cbn [take length] in *. split; [done|]. rewrite length_app in Hl. rewrite take_0 in Hl. cbn [length] in *. lia.
      * unfold put_nowait, q_full. destruct ((0 <? mq_max s) && (mq_max s <=? Z.of_nat (length (mq_q s)))) eqn:Ef; [unfold pending_depth in E; breflect; lia|].
        destruct (IH (q_put p s) (n + 1) errs Hm Hd) as (errs'&->&Hl).
        assert (Z.to_nat (mq_max s - pending_depth s) = S (Z.to_nat (mq_max (q_put p s) - pending_depth (q_put p s)))) as ->
          by (unfold pending_depth in *; cbn; rewrite length_app; cbn; lia).
        exists errs'. cbn [take length]. split; [|lia]. f_equal. f_equal; [|lia]. unfold put_back. cbn. by rewrite <- app_assoc.
    + destruct (IH s n (errs ++ ["job_id=" +:+ dl_job_id e +:+ " missing payload"]) Hm Hd) as (errs'&->&Hl).
      exists errs'. split; [done|]. rewrite length_app in Hl. cbn in *. lia.
Qed.

(** Draining the dead letters back into the in-memory queue puts back, in order, the
    payloads that fit the room the queue has, and loses the rest: every inspected letter
    has left the store, and those that met a full queue or had no payload are only
    counted as errors. *)
Theorem drain_dead_letters_spec max_items s cap : mem_inv cap s -> 0 < max_items ->
  exists errs, drain_dead_letters max_items true s =
    (put_back (with_dlq s (drop (Z.to_nat (Z.min max_items 100)) (mq_dlq s)))
       (take (Z.to_nat (cap - pending_depth s)) (omap dl_payload (take (Z.to_nat (Z.min max_items 100)) (mq_dlq s)))),
     (Z.of_nat (length (take (Z.to_nat (Z.min max_items 100)) (mq_dlq s))),
      Z.of_nat (length (take (Z.to_nat (cap - pending_depth s)) (omap dl_payload (take (Z.to_nat (Z.min max_items 100)) (mq_dlq s))))), errs)) /\
    (length errs + length (take (Z.to_nat (cap - pending_depth s)) (omap dl_payload (take (Z.to_nat (Z.min max_items 100)) (mq_dlq s)))) =
     length (take (Z.to_nat (Z.min max_items 100)) (mq_dlq s)))%nat.
Proof.
  intros [Hc Hp _ Hn _] Hi. unfold drain_dead_letters. replace (Z.max 0 (Z.min max_items 100)) with (Z.min max_items 100) by lia.
  set (limit := Z.to_nat (Z.min max_items 100)). destruct (limit =? 0)%nat eqn:E; [apply Nat.eqb_eq in E; lia|].
  destruct (requeue_letters (take limit (mq_dlq s)) (with_dlq s (drop limit (mq_dlq s))) 0 []) as (errs&->&Hl); [cbn; lia|cbn; lia|].
  exists errs. cbn [mq_max with_dlq] in *. change (pending_depth (with_dlq s (drop limit (mq_dlq s)))) with (pending_depth s) in *. rewrite Hc in *. by rewrite Z.add_0_l.
Qed.

Definition full_queue : memq :=
  MkMem 1 [MkJob "a" "t" "a" [] [] ""] [] [MkDead "b" (Some (MkJob "b" "t" "b" [] [] "")) "boom" 0] [] 0.

Lemma drain_dead_letters_spec_witness :
  exists errs, drain_dead_letters 50 true full_queue =
    (MkMem 1 [MkJob "a" "t" "a" [] [] ""] [] [] [] 0, (1, 0, errs)) /\ (length errs + 0 = 1)%nat.
Proof.
  refine (drain_dead_letters_spec 50 full_queue 1 _ _); [|lia].
  split; [done|lia|apply NoDup_nil_2|done|vm_compute; discriminate].
Defined.
