(* ===== verification/JobFacts.v ===== *)
(** * Jobs from submission to completion

    What the job system of [AsyncJobs] and [Worker] does with one job, for every queue
    that keeps the contract of [QueueInterface], and what a failing event store, a
    crashed worker or the inline fallback does to it. *)
From S2P Require Import Prelude PyDatetime Json PyEffects JobQueue RedisQueue QueueInterface AsyncJobs Worker.
Local Open Scope Z_scope.

Section one_job.
Context {Q X : Type} {queue : Queue Q} (sv : async_services X) (env : async_env) (id : string).

(** The committed row of the job, the row as the session sees it, and the rest of the state *)
Record job_state (com vis : option JobLog) (q : Q) (pool : list call) (slots : Z) (w : world Q X) : Prop := {
  js_com : w_rows w !! id = com;
  js_vis : (w_pending w ∪ w_rows w) !! id = vis;
  js_queue : w_queue w = q;
  js_pool : w_pool w = pool;
  js_slots : w_slots w = slots
}.

Lemma session_view (w : world Q X) :
  (match w_pending w !! id with Some l => Some l | None => w_rows w !! id end) = (w_pending w ∪ w_rows w) !! id.
Proof. rewrite lookup_union. by destruct (w_pending w !! id), (w_rows w !! id). Qed.

Definition txn_com (t : txn) (com vis : option JobLog) : option JobLog := match t with Commit => vis | _ => com end.
Definition txn_vis (t : txn) (com vis : option JobLog) : option JobLog := match t with Rollback => com | _ => vis end.

Lemma js_txn t com vis q pool slots w : job_state com vis q pool slots w ->
  job_state (txn_com t com vis) (txn_vis t com vis) q pool slots (apply_txn t w).
Proof.
  intros [H1 H2 H3 H4 H5]. destruct t; split; cbn; try done; by rewrite ?map_empty_union, ?(left_id_L ∅ (∪)).
Qed.
Lemma js_x x com vis q pool slots w : job_state com vis q pool slots w -> job_state com vis q pool slots (with_x w x).
Proof. by intros []. Qed.

Section rules.
Context (com vis : option JobLog) (q : Q) (pool : list call) (slots : Z).
Implicit Types w : world Q X.

Lemma wp_db_call {A} (f : X -> X * txn * result A) w (P : world Q X -> result A -> Prop) :
  job_state com vis q pool slots w ->
  (forall x t r w', f (w_x w) = (x, t, r) -> w_x w' = x -> job_state (txn_com t com vis) (txn_vis t com vis) q pool slots w' -> P w' r) ->
  wp (db_call f) P w.
Proof.
  intros Hw HP. unfold wp, db_call. destruct (f (w_x w)) as [[x t] r] eqn:E. cbn. eapply HP; [done|by destruct t|]. by apply js_txn, js_x.
Qed.
Lemma wp_effect_x f w (P : world Q X -> result unit -> Prop) :
  job_state com vis q pool slots w -> (forall w', job_state com vis q pool slots w' -> P w' (Ok ())) -> wp (effect_x f) P w.
Proof. intros Hw HP. apply HP. by apply js_x. Qed.
Lemma wp_find_log w (P : world Q X -> result (option JobLog) -> Prop) :
  job_state com vis q pool slots w -> P w (Ok vis) -> wp (find_log id) P w.
Proof. intros Hw HP. unfold find_log. wp_step. rewrite session_view. by rewrite (js_vis _ _ _ _ _ _ Hw). Qed.
Lemma wp_change_log f w (P : world Q X -> result unit -> Prop) :
  job_state com vis q pool slots w -> (forall w', job_state com (f <$> vis) q pool slots w' -> P w' (Ok ())) -> wp (change_log id f) P w.
Proof.
  intros Hw HP. unfold wp, change_log. rewrite session_view. rewrite (js_vis _ _ _ _ _ _ Hw). destruct vis as [l|] eqn:Ev; cbn.
  - apply HP. destruct Hw as [H1 H2 H3 H4 H5]. split; cbn; try done. by rewrite <- insert_union_l, lookup_insert_eq.
  - by apply HP.
Qed.
Lemma wp_now w (P : world Q X -> result Z -> Prop) : P w (Ok (sv_clock sv (w_x w))) -> wp (now sv) P w.
Proof. done. Qed.
Lemma wp_rollback w (P : world Q X -> result unit -> Prop) :
  job_state com vis q pool slots w -> (forall w', job_state com com q pool slots w' -> P w' (Ok ())) -> wp rollback P w.
Proof. intros Hw HP. apply HP. exact (js_txn Rollback _ _ _ _ _ _ Hw). Qed.
Lemma wp_close w (P : world Q X -> result unit -> Prop) :
  job_state com vis q pool slots w -> (forall w', job_state com com q pool slots w' -> P w' (Ok ())) -> wp (writes close) P w.
Proof. intros Hw HP. apply HP. exact (js_txn Rollback _ _ _ _ _ _ Hw). Qed.
End rules.

(** ** Outcomes of a run *)

(** Documented behaviour of the services: the database commits; an emission that stores
    its event commits the session, one that fails rolls it back. *)
Definition commits : Prop := forall x, exists x', sv_commit sv x = (x', Ok ()).
Definition events_stored : Prop :=
  (forall ty i x, exists x' e, sv_emit sv ty i x = (x', Commit, e)) /\
  (forall i x, sv_started_exists sv i (sv_emit sv "execution.started" i x).1.1 = true).
Definition events_lost : Prop := forall ty i x, exists x', sv_emit sv ty i x = (x', Rollback, None).

Lemma wp_commit com vis q pool slots w (P : world Q X -> result unit -> Prop) : commits ->
  job_state com vis q pool slots w -> (forall w', job_state vis vis q pool slots w' -> P w' (Ok ())) -> wp (commit sv) P w.
Proof.
  intros Hc Hw HP. unfold wp, commit. destruct (Hc (w_x w)) as [x' ->]. cbn. apply HP. exact (js_txn Commit _ _ _ _ _ _ (js_x x' _ _ _ _ _ _ Hw)).
Qed.
Lemma wp_emit_stored ty i com vis q pool slots w (P : world Q X -> result (option string) -> Prop) : events_stored ->
  job_state com vis q pool slots w -> (forall w' r, job_state vis vis q pool slots w' -> P w' (Ok r)) -> wp (emit sv ty i) P w.
Proof.
  intros [He _] Hw HP. unfold emit. eapply wp_db_call; [exact Hw|]. intros x t r w' E _ Hw'. destruct (He ty i (w_x w)) as (x'&e&Ex). rewrite Ex in E. injection E as <- <- <-.
  by apply HP.
Qed.
Lemma wp_emit_lost ty i com vis q pool slots w (P : world Q X -> result (option string) -> Prop) : events_lost ->
  job_state com vis q pool slots w -> (forall w' r, job_state com com q pool slots w' -> P w' (Ok r)) -> wp (emit sv ty i) P w.
Proof.
  intros He Hw HP. unfold emit. eapply wp_db_call; [exact Hw|]. intros x t r w' E _ Hw'. destruct (He ty i (w_x w)) as (x'&Ex). rewrite Ex in E. injection E as <- <- <-.
  by apply HP.
Qed.

(** What a run that succeeds leaves of the row [l] *)
Definition envelope_of (r : json) : json := if is_execution_envelope r then r else execution_success r id.
Definition begun (t : Z) (l : JobLog) : JobLog := log_attempt (log_started t (log_status "running" l)).
Definition finished (t0 t1 : Z) (r : json) (l : JobLog) : JobLog := log_completed t1 (log_result (envelope_of r) (log_status "success" (begun t0 l))).

Lemma stored_not_lost : events_stored -> events_lost -> X -> False.
Proof. intros [He _] Hl x. destruct (He "" "" x) as (x1&e&E1), (Hl "" "" x) as [x2 E2]. congruence. Qed.

Lemma wp_ensure_root com q pool slots w (P : world Q X -> result unit -> Prop) :
  job_state com com q pool slots w ->
  (forall w', job_state com com q pool slots w' -> (events_stored -> sv_started_exists sv id (w_x w') = true) -> P w' (Ok ())) -> wp (ensure_root sv id) P w.
Proof.
  intros Hw HP. unfold ensure_root. wp_steps. destruct (sv_started_exists _ _ _) eqn:Es; wp_steps; [by apply HP|].
  unfold emit. eapply wp_db_call; [exact Hw|]. intros x t r w' Ex Hx Hw'. destruct (sv_emit sv "execution.started" id (w_x w)) as [[x1 t1] r1] eqn:E1. injection Ex as <- <- <-.
  wp_steps. apply HP; [by destruct t1|]. intros [_ Hs]. rewrite Hx. specialize (Hs id (w_x w)). by rewrite E1 in Hs.
Qed.

(** One step of a run, whose state is known by [job_state] *)
Ltac job_step :=
  lazymatch goal with
  | |- wp (commit _) _ _ => eapply wp_commit; [eassumption|eassumption|intros ? ?; cbn beta iota]
  | |- wp (emit _ _ _) _ _ =>
      first [eapply wp_emit_stored; [eassumption|eassumption|intros ? ? ?; cbn beta iota]
            |eapply wp_emit_lost; [eassumption|eassumption|intros ? ? ?; cbn beta iota]]
  | |- wp (find_log _) _ _ => eapply wp_find_log; [eassumption|cbn beta iota]
  | |- wp (change_log _ _) _ _ => eapply wp_change_log; [eassumption|intros ? ?; cbn beta iota]
  | |- wp (now _) _ _ => apply wp_now; cbn beta iota
  | |- wp (eu_status _ _ _) _ _ => eapply wp_effect_x; [eassumption|intros ? ?; cbn beta iota]
  | |- wp (written _ _) _ _ => eapply wp_effect_x; [eassumption|intros ? ?; cbn beta iota]
  | |- wp rollback _ _ => eapply wp_rollback; [eassumption|intros ? ?; cbn beta iota]
  | |- wp (writes close) _ _ => eapply wp_close; [eassumption|intros ? ?; cbn beta iota]
  | |- wp (ensure_root _ _) _ _ => eapply wp_ensure_root; [eassumption|intros ? ? ?; cbn beta iota]
  | |- _ => wp_step; cbn beta iota
  end.

(** Up to the call of the handler: the attempt is in the session, and committed when the
    event of its start was stored; a lost event takes it back. *)
Definition after_begin (t : Z) (queued : bool) (l : JobLog) (com vis : option JobLog) : Prop :=
  (events_stored /\ queued = true /\ vis = Some (begun t l) /\ com = Some (begun t l)) \/
  (events_lost /\ com = Some l /\ vis = (if queued then Some l else Some (begun t l))).

Lemma js_close com vis q pool slots w : job_state com vis q pool slots w -> job_state com com q pool slots (close w).
Proof. exact (js_txn Rollback _ _ _ _ _ _). Qed.

Lemma wp_execute_job task payload com vis q pool slots w (P : world Q X -> result unit -> Prop) : job_state com vis q pool slots w ->
  (forall w', job_state com com q pool slots w' -> wp (execute_job_inline sv env id task payload) (fun w2 r => P (close w2) r) w') ->
  wp (execute_job sv env id task payload) P w.
Proof. intros Hw HP. unfold execute_job. do 2 job_step. wp_step. by apply HP. Qed.

Lemma wp_execute_begin task payload h l q pool slots w (P : world Q X -> result unit -> Prop) : events_stored \/ events_lost ->
  sv_handler sv task = Some h -> job_state (Some l) (Some l) q pool slots w ->
  (forall t queued com vis' w', after_begin t queued l com vis' -> job_state com vis' q pool slots w' ->
    wp (run_handler sv id queued h payload)
       (fun w1 r => match r with Ok _ => P w1 (Ok ()) | Raise e => wp (handle_failure sv env id task payload e) P w1 end) w') ->
  wp (execute_job_inline sv env id task payload) P w.
Proof.
  intros He Hh Hw HP. unfold execute_job_inline. do 5 job_step. rewrite Hh. do 8 job_step.
  match goal with Hs : events_stored -> sv_started_exists sv id (w_x ?w) = true |- _ => set (t := sv_clock sv (w_x w)) in *; destruct He as [He|He];
    [rewrite (Hs He)|destruct (sv_started_exists sv id (w_x w))] end; repeat (lazymatch goal with |- wp (run_handler _ _ _ _ _) _ _ => fail | |- _ => job_step end).
  - eapply wp_mono; [eapply (HP t true); [by left|eassumption]|]. by intros w2 [[]|e].
  - eapply wp_mono; [eapply (HP t true); [by right|eassumption]|]. by intros w2 [[]|e].
  - eapply wp_mono; [eapply (HP t false); [by right|eassumption]|]. by intros w2 [[]|e].
Qed.

(** A job whose handler returns is recorded as a success, with one attempt more. *)
Lemma execute_job_success task payload h r l vis q pool slots w : commits -> events_stored ->
  sv_handler sv task = Some h -> (forall x, exists x' t, h payload x = (x', t, Ok r)) ->
  job_state (Some l) vis q pool slots w ->
  wp (execute_job sv env id task payload) (fun w' res => res = Ok () /\ exists t0 t1, job_state (Some (finished t0 t1 r l)) (Some (finished t0 t1 r l)) q pool slots w') w.
Proof.
  intros Hc He Hh Hr Hw. eapply wp_execute_job; [exact Hw|]. clear w Hw. intros w Hw.
  eapply wp_execute_begin; [by left|done|done|]. clear w Hw. intros t queued com vis' w Hb Hw. unfold run_handler. do 3 job_step.
  eapply wp_db_call; [exact Hw|]. intros x t' r' w' Ex _ Hw'. destruct (Hr (w_x w)) as (x1&t1&E1). rewrite E1 in Ex. injection Ex as <- <- <-. cbn beta iota.
  assert (txn_vis t1 com vis' = Some (begun t l)) as Ev.
  { destruct Hb as [(_&_&->&->)|(Hl&_)]; [by destruct t1|]. destruct (stored_not_lost He Hl (w_x w)). }
  rewrite Ev in Hw'. do 6 job_step. destruct queued; repeat job_step.
  all: split; [done|]. all: exists t, (sv_clock sv (w_x w')). all: eapply js_close; eassumption.
Qed.

(** A run whose handler raises ends in the outer handler, with the session still open. *)
Lemma wp_handler_raises task payload h e l q pool slots w (P : world Q X -> result unit -> Prop) : events_stored \/ events_lost ->
  sv_handler sv task = Some h -> (forall x, exists x' t, h payload x = (x', t, Raise e) /\ (events_lost -> t <> Commit)) -> job_state (Some l) (Some l) q pool slots w ->
  (forall t com vis' w', (events_stored /\ com = Some (begun t l)) \/ (events_lost /\ com = Some l) -> job_state com vis' q pool slots w' ->
    wp (handle_failure sv env id task payload e) P w') ->
  wp (execute_job_inline sv env id task payload) P w.
Proof.
  intros He Hh Hr Hw HP. eapply wp_execute_begin; [done|done|done|]. clear w Hw. intros t queued com vis' w Hb Hw. unfold run_handler. do 3 job_step.
  eapply wp_db_call; [exact Hw|]. intros x t' r' w' Ex _ Hw'. destruct (Hr (w_x w)) as (x1&t1&E1&Ht). rewrite E1 in Ex. injection Ex as <- <- <-. cbn beta iota.
  do 5 job_step. eapply (HP t); [|eassumption]. destruct Hb as [(Hs&_&->&->)|(Hl&->&_)]; [left; split; [done|]; by destruct t1|].
  right. split; [done|]. destruct t1; [done|by destruct (Ht Hl)|done].
Qed.

(** What a failed run leaves of the row while attempts remain, and at the end *)
Definition rescheduled (e : exn) (l : JobLog) : JobLog := log_error (exn_msg e) (log_status "pending" l).
Definition exhausted (t : Z) (e : exn) (l : JobLog) : JobLog :=
  log_completed t (log_result (execution_error (exn_msg e) id) (log_error (exn_msg e) (log_status "failed" l))).

(** The retry's backoff in microseconds after [n] attempts *)
Definition backoff (n : Z) : Z := Z.min (ae_backoff_base env * 2 ^ (Z.max 1 n - 1)) (ae_backoff_max env) * 1000.

Lemma compute_backoff l (w : world Q X) : w_rows w !! id = Some l -> 0 <= jl_attempts l -> compute_retry_delay env id w * 1000 = backoff (jl_attempts l).
Proof.
  intros Hw Hl. unfold compute_retry_delay, backoff. rewrite Hw.
  assert (Z.max 1 (if jl_attempts l =? 0 then 1 else jl_attempts l) = Z.max 1 (jl_attempts l)) as -> by (destruct (jl_attempts l =? 0) eqn:E; breflect; lia). done.
Qed.

(** Where a retry goes: the delayed set of the queue, or the thread pool *)
Definition retry_handed_over (l : JobLog) (task : string) (payload : dict json) (q : Q) (pool : list call) (w : world Q X) (r : result unit) : Prop :=
  if ae_distributed env then
    w_pool w = pool /\
    exists p t, job_wf p /\ job_id p = id /\ (w_queue w, r) = (if 0 <? backoff (jl_attempts l) then q_enqueue_delayed p (backoff (jl_attempts l)) t q else q_enqueue p q)
  else r = Ok () /\ w_queue w = q /\ w_pool w = pool ++ [CallJob id task payload].

Lemma queue_payload_wf u cx fresh x : job_wf (queue_payload sv u cx fresh x).
Proof.
  unfold queue_payload. match goal with |- context [post_init ?j] => set (p := j) end. split; [|].
  - unfold post_init at 2 3. destruct (truthy (idempotency_key p)) eqn:E; [unfold post_init; by rewrite E|].
    unfold post_init. cbn [idempotency_key job_id task_name context retry_metadata enqueued_at]. by destruct (truthy (job_id p)).
  - assert (context (post_init p) = context p /\ retry_metadata (post_init p) = retry_metadata p) as [-> ->] by (unfold post_init; by destruct (truthy _)).
    split; apply json_wf_obj; (split; [by_evaluation|by repeat constructor]).
Qed.

Lemma queue_payload_id u cx fresh x : truthy id = true -> cx_log_id cx = Some id -> job_id (queue_payload sv u cx fresh x) = id.
Proof.
  intros Ht Hc. unfold queue_payload, post_init. cbn [idempotency_key]. rewrite Hc. change (truthy "") with false. cbn [job_id]. unfold str_or. cbn. by rewrite Ht.
Qed.

(** A failure with attempts left: the row is pending again and the retry is handed over. *)
Lemma wp_failure_retry task payload e l vis q pool slots w : commits -> truthy id = true -> 0 <= jl_attempts l < jl_max l ->
  job_state (Some l) vis q pool slots w ->
  wp (handle_failure sv env id task payload e) 
     (fun w' r => w_rows w' !! id = Some (rescheduled e l) /\ (w_pending w' ∪ w_rows w') !! id = Some (rescheduled e l) /\ w_slots w' = slots /\
       retry_handed_over l task payload q pool w' r) w.
Proof.
  intros Hc Ht Hl Hw. unfold handle_failure. do 4 job_step. destruct (jl_attempts l <? jl_max l) eqn:E; breflect; [|lia]. do 4 job_step.
  match goal with H : job_state _ _ _ _ _ ?v |- wp _ _ ?v => rename H into Hd; rename v into wd end. destruct Hd as [G1 G2 G3 G4 G5].
  unfold dispatch_async, retry_handed_over. destruct (ae_distributed env).
  - unfold wp, enqueue_distributed. destruct (sv_uuid sv (w_x wd)) as [x1 fresh]. cbn [fst snd].
    pose proof (queue_payload_wf JOB_DISPATCH_STUB (MkCtx (Some id) None None (jl_user l) true) fresh x1) as Hp.
    pose proof (queue_payload_id JOB_DISPATCH_STUB (MkCtx (Some id) None None (jl_user l) true) fresh x1 Ht eq_refl) as Hi.
    set (p := queue_payload _ _ _ _ _) in *. rewrite Hi. cbn [cx_retry andb].
    set (w1 := with_x wd _). pose proof (compute_backoff _ w1 G1 (proj1 Hl)) as Hb. change (jl_attempts (rescheduled e l)) with (jl_attempts l) in Hb.
    change (jl_attempts (log_error (exn_msg e) (log_status "pending" l))) with (jl_attempts l) in Hb.
    rewrite Hb. unfold on_queue. rewrite <- Hb. assert ((0 <? compute_retry_delay env id w1 * 1000) = (0 <? compute_retry_delay env id w1)) as -> by (destruct (0 <? compute_retry_delay env id w1) eqn:E1; breflect; [apply Z.ltb_lt|apply Z.ltb_ge]; lia).
    assert (w_queue w1 = q) as -> by done.
    destruct (0 <? compute_retry_delay env id w1).
    + destruct (q_enqueue_delayed p (compute_retry_delay env id w1 * 1000) (sv_clock sv (w_x w1)) q) as [q' r] eqn:Eq. do 4 (split; [done|]). by exists p, (sv_clock sv (w_x w1)).
    + destruct (q_enqueue p q) as [q' r] eqn:Eq. do 4 (split; [done|]). by exists p, 0.
  - wp_step. do 3 (split; [done|]). cbn. by rewrite G3, G4.
Qed.

(** A failure without attempts left is recorded, by the event that reports it. *)
Lemma wp_failure_final task payload e l vis q pool slots w : commits -> events_stored -> (forall x, exists x' t, sv_error_event sv id x = (x', t, Ok ())) ->
  jl_max l <= jl_attempts l -> job_state (Some l) vis q pool slots w ->
  wp (handle_failure sv env id task payload e)
     (fun w' r => r = Ok () /\ exists t, job_state (Some (exhausted t e l)) (Some (exhausted t e l)) q pool slots w') w.
Proof.
  intros Hc He Hx Hl Hw. unfold handle_failure. do 4 job_step. destruct (jl_attempts l <? jl_max l) eqn:E; breflect; [lia|]. clear E.
  job_step. apply wp_now. cbn beta iota. match goal with |- context [sv_clock sv (w_x ?v)] => set (t := sv_clock sv (w_x v)) end.
  do 6 job_step.
  match goal with |- context [if ?b then emit _ _ _ ≫= _ else _] => destruct b end; repeat (lazymatch goal with |- wp (db_call _) _ _ => fail | |- _ => job_step end).
  all: match goal with H : job_state _ _ _ _ _ ?v |- wp _ _ ?v => eapply wp_db_call; [exact H|]; intros xf tf rf wf Ex _ Hf; destruct (Hx (w_x v)) as (x2&t2&E2) end.
  all: rewrite E2 in Ex; injection Ex as <- <- <-; cbn beta iota; repeat job_step; split; [done|]; exists t.
  all: replace (txn_vis t2 _ _) with (Some (exhausted t e l)) in * by (by destruct t2); done.
Qed.

(** A run whose handler raises, with the event store working *)
Definition failed_run (task : string) (payload : dict json) (e : exn) (l : JobLog) (q : Q) (pool : list call) (slots : Z) (w : world Q X) (r : result unit) : Prop :=
  exists t, w_slots w = slots /\
    if jl_attempts l + 1 <? jl_max l then w_rows w !! id = Some (rescheduled e (begun t l)) /\ (w_pending w ∪ w_rows w) !! id = Some (rescheduled e (begun t l)) /\
      retry_handed_over (begun t l) task payload q pool w r
    else r = Ok () /\ w_queue w = q /\ w_pool w = pool /\ exists t1, w_rows w !! id = Some (exhausted t1 e (begun t l)).

Lemma execute_inline_failure task payload h e l q pool slots w : commits -> events_stored -> (forall x, exists x' t, sv_error_event sv id x = (x', t, Ok ())) ->
  truthy id = true -> 0 <= jl_attempts l -> sv_handler sv task = Some h -> (forall x, exists x' t, h payload x = (x', t, Raise e)) ->
  job_state (Some l) (Some l) q pool slots w -> wp (execute_job_inline sv env id task payload) (failed_run task payload e l q pool slots) w.
Proof.
  intros Hc He Hx Hi Ha Hh Hr Hw. eapply wp_handler_raises; [by left|done| |done|].
  - intros x. destruct (Hr x) as (x'&t&E). exists x', t. split; [done|]. intros Hl. destruct (stored_not_lost He Hl x).
  - clear w Hw. intros t com vis' w [[_ ->]|[Hl _]] Hw; [|destruct (stored_not_lost He Hl (w_x w))]. unfold failed_run.
    destruct (jl_attempts l + 1 <? jl_max l) eqn:E; breflect.
    + eapply wp_mono; [eapply wp_failure_retry; [done|done| |exact Hw]; cbn; lia|]. intros w2 r (H1&H2&H3&H4). by exists t.
    + eapply wp_mono; [eapply (wp_failure_final task payload e (begun t l)); [done|done|done|cbn; lia|exact Hw]|]. intros w2 r (->&t1&[H1 H2 H3 H4 H5]).
      exists t. split; [done|]. split; [done|]. split; [done|]. split; [done|]. by exists t1.
Qed.
Lemma execute_job_failure task payload h e l vis q pool slots w : commits -> events_stored -> (forall x, exists x' t, sv_error_event sv id x = (x', t, Ok ())) ->
  truthy id = true -> 0 <= jl_attempts l -> sv_handler sv task = Some h -> (forall x, exists x' t, h payload x = (x', t, Raise e)) ->
  job_state (Some l) vis q pool slots w -> wp (execute_job sv env id task payload) (failed_run task payload e l q pool slots) w.
Proof.
  intros Hc He Hx Hi Ha Hh Hr Hw. eapply wp_execute_job; [exact Hw|]. clear w Hw. intros w Hw.
  eapply wp_mono; [by eapply execute_inline_failure|]. intros w2 r (t&H1&H2). exists t. split; [done|]. destruct (_ <? _); [|done].
  destruct H2 as (H2&H3&H4). split; [done|]. split; [cbn; by rewrite (left_id_L ∅ (∪))|done].
Qed.

(** A success that no event reports is taken back. *)
Lemma execute_job_lost task payload h r l vis q pool slots w : commits -> events_lost ->
  sv_handler sv task = Some h -> (forall x, exists x' t, h payload x = (x', t, Ok r) /\ t <> Commit) ->
  job_state (Some l) vis q pool slots w ->
  wp (execute_job sv env id task payload) (fun w' res => res = Ok () /\ job_state (Some l) (Some l) q pool slots w') w.
Proof.
  intros Hc He Hh Hr Hw. eapply wp_execute_job; [exact Hw|]. clear w Hw. intros w Hw.
  eapply wp_execute_begin; [by right|done|done|]. clear w Hw. intros t queued com vis' w Hb Hw. unfold run_handler. do 3 job_step.
  eapply wp_db_call; [exact Hw|]. intros x t' r' w' Ex _ Hw'. destruct (Hr (w_x w)) as (x1&t1&E1&Ht). rewrite E1 in Ex. injection Ex as <- <- <-. cbn beta iota.
  assert (txn_com t1 com vis' = Some l) as Ev.
  { destruct Hb as [(Hs&_)|(_&->&_)]; [destruct (stored_not_lost Hs He (w_x w))|by destruct t1]. }
  rewrite Ev in Hw'. do 6 job_step. destruct queued; repeat job_step; (split; [done|]); by eapply js_close.
Qed.

(** The new row is committed, whatever becomes of its execution unit. *)
Lemma wp_create_log l com vis q pool slots w (P : world Q X -> result unit -> Prop) : commits ->
  job_state com vis q pool slots w -> (forall w', job_state (Some l) (Some l) q pool slots w' -> P w' (Ok ())) -> wp (create_log sv id l) P w.
Proof.
  intros Hc [H1 H2 H3 H4 H5] HP. unfold create_log, add_log. do 2 wp_step. cbn beta iota.
  assert (job_state com (Some l) q pool slots (with_rows w (w_rows w) (<[id := l]> (w_pending w)))) as Hw.
  { split; try done. cbn. by rewrite <- insert_union_l, lookup_insert_eq. }
  do 6 job_step. match goal with |- wp (db_call _) _ ?v => eapply wp_db_call; [eassumption|] end. intros xf tf rf wf E _ Hf.
  match type of E with (let (_, _) := ?u in _) = _ => destruct u as [x1 r1] end. injection E as <- <- ->. destruct rf as [[]|e]; repeat job_step; by apply HP.
Qed.

(** The guard of the inline fallback turns any row that is not final into a success. *)
Lemma wp_terminal_guard l q pool slots w : commits -> job_state (Some l) (Some l) q pool slots w -> str_in (jl_status l) ["success"; "failed"] = false ->
  wp (terminal_guard sv id) (fun w' _ => exists t l', l' = log_completed (default t (jl_completed l)) (log_status "success" l) /\ job_state (Some l') (Some l') q pool slots w') w.
Proof.
  intros Hc Hw Hl. unfold terminal_guard. do 3 job_step. rewrite Hl. job_step. apply wp_now. cbn beta iota.
  match goal with |- context [sv_clock sv (w_x ?v)] => set (t := sv_clock sv (w_x v)) end. repeat job_step. exists t. by eexists.
Qed.

(** The row of a new job *)
Definition new_log (source task : string) (payload : dict json) (max : Z) (user : option string) (t : Z) : JobLog :=
  MkLog source task payload "pending" 0 max None user None None None t None.
End one_job.

(** ** The worker, on any queue that keeps its contract *)
Section worker_facts.
Context {Q X : Type} {queue : Queue Q} {cap : Z} {rep : Q -> aqueue -> Prop} {laws : QueueLaws Q cap rep}.
Context (sv : async_services X) (env : async_env) (mono : X -> Z) (alert_threshold : Z) (id : string).
Implicit Types (k : worker Q X) (a : aqueue).

(** The row of the job and the contents of the queue *)
Definition worker_state (com vis : option JobLog) (a : aqueue) (pool : list call) (slots : Z) (w : world Q X) : Prop :=
  exists q, rep q a /\ job_state id com vis q pool slots w.

Lemma wp_on_world {A} (m : SE (world Q X) A) (P : worker Q X -> result A -> Prop) k :
  wp m (fun w r => P (MkWorker w (wk_health k) (wk_failures k) (wk_sem k)) r) (wk_world k) -> wp (on_world m) P k.
Proof. unfold wp, on_world. by destruct (m (wk_world k)). Qed.

Lemma wp_on_queue {A} (m : SE Q A) com vis a pool slots (P : world Q X -> result A -> Prop) w :
  worker_state com vis a pool slots w ->
  (forall q q' r w', rep q a -> m q = (q', r) -> w_x w' = w_x w -> (forall a', rep q' a' -> worker_state com vis a' pool slots w') -> P w' r) -> wp (on_queue m) P w.
Proof.
  intros (q&Hq&[H1 H2 H3 H4 H5]) HP. unfold wp, on_queue. rewrite H3. destruct (m q) as [q' r] eqn:E. cbn.
  eapply HP; [exact Hq|exact E|done|]. intros a' Ha'. by exists q'.
Qed.

Lemma wp_pending com vis a pool slots (P : world Q X -> result Z -> Prop) w : worker_state com vis a pool slots w ->
  (forall w', worker_state com vis a pool slots w' -> w_x w' = w_x w -> P w' (Ok (a_pending a))) -> wp (on_queue q_pending) P w.
Proof.
  intros Hw HP. eapply wp_on_queue; [exact Hw|]. intros q q' r w' Hq E Ex Hw'. destruct (law_pending _ _ _ _ Hq E) as [-> Hq']. apply HP; [by apply Hw'|done].
Qed.
Lemma wp_enqueue p com vis a pool slots (P : world Q X -> result unit -> Prop) w : job_wf p -> a_pending a < cap -> worker_state com vis a pool slots w ->
  (forall w', worker_state com vis (MkAQ (aq_ready a ++ [p]) (aq_delayed a) (aq_inflight a) (aq_dead a)) pool slots w' -> P w' (Ok ())) -> wp (on_queue (q_enqueue p)) P w.
Proof.
  intros Hp Hc Hw HP. eapply wp_on_queue; [exact Hw|]. intros q q' r w' Hq E Ex Hw'. destruct (law_enqueue _ _ _ _ _ Hq Hp E) as (a'&Hs&Ha').
  destruct r as [[]|e]; cbn in Hs; inversion Hs; subst; [by apply HP, Hw'|lia].
Qed.
Lemma wp_dequeue now p rest com vis a pool slots (P : world Q X -> result (option QueueJobPayload) -> Prop) w : aq_ready a = p :: rest -> worker_state com vis a pool slots w ->
  (forall w', worker_state com vis (MkAQ rest (aq_delayed a) (<[job_id p := (p, now)]> (aq_inflight a)) (aq_dead a)) pool slots w' -> P w' (Ok (Some p))) ->
  wp (on_queue (q_dequeue now)) P w.
Proof.
  intros Hr Hw HP. eapply wp_on_queue; [exact Hw|]. intros q q' r w' Hq E Ex Hw'. destruct (law_dequeue _ _ _ _ _ Hq E) as (a'&Hs&Ha').
  destruct r as [o|e]; cbn in Hs; inversion Hs; subst; [congruence|]. match goal with H : aq_ready a = _ :: _ |- _ => rewrite Hr in H; injection H as <- <- end. by apply HP, Hw'.
Qed.
Lemma wp_ack i com vis a pool slots (P : world Q X -> result unit -> Prop) w : worker_state com vis a pool slots w ->
  (forall w', worker_state com vis (MkAQ (aq_ready a) (aq_delayed a) (delete i (aq_inflight a)) (aq_dead a)) pool slots w' -> P w' (Ok ())) -> wp (on_queue (q_ack i)) P w.
Proof.
  intros Hw HP. eapply wp_on_queue; [exact Hw|]. intros q q' r w' Hq E Ex Hw'. destruct (law_ack _ _ _ _ _ Hq E) as (a'&Hs&Ha').
  destruct r as [[]|e]; cbn in Hs; inversion Hs; subst. by apply HP, Hw'.
Qed.

Lemma wp_snapshot com vis a pool slots (P : worker Q X -> result unit -> Prop) k : worker_state com vis a pool slots (wk_world k) ->
  (forall k', worker_state com vis a pool slots (wk_world k') -> wk_sem k' = wk_sem k -> P k' (Ok ())) -> wp (update_snapshot env) P k.
Proof.
  intros Hk HP. unfold update_snapshot, on_health. do 2 wp_step. apply wp_on_world. eapply wp_pending; [exact Hk|]. intros w' Hw' _. wp_steps. by apply HP.
Qed.
Lemma wp_heartbeat b com vis a pool slots (P : worker Q X -> result unit -> Prop) k : worker_state com vis a pool slots (wk_world k) ->
  (forall k', worker_state com vis a pool slots (wk_world k') -> wk_sem k' = wk_sem k -> P k' (Ok ())) -> wp (record_heartbeat env mono b) P k.
Proof. intros Hk HP. unfold record_heartbeat, on_health. wp_steps. eapply wp_snapshot; [exact Hk|]. intros k' H1 H2. by apply HP. Qed.

Lemma with_slot_runs freed job k : freed = true \/ wk_sem k = None \/ (exists n, wk_sem k = Some n /\ 0 < n) ->
  exists k', wk_world k' = wk_world k /\ forall P,
    wp (on_health (add_active 1) ≫= fun _ =>
        try_finally (process_claimed sv env mono alert_threshold (job_id job))
          (fun k => add_sem 1 ((on_health (add_active (-1)) ≫= fun _ => update_snapshot env) k).1) ≫= fun _ => mret true) P k' ->
    wp (with_slot sv env mono alert_threshold freed job) P k.
Proof.
  intros Hs. unfold wp, with_slot. destruct (match wk_sem k with Some n => n <=? 0 | None => false end) eqn:E.
  - assert (freed = true) as -> by (destruct Hs as [?|[Hn|(n&Hn&H)]]; [done|by rewrite Hn in E|rewrite Hn in E; breflect; lia]). by exists k.
  - by exists (add_sem (-1) k).
Qed.

(** One iteration of the worker on the queue's first job, given what it does once the job is taken *)
Lemma wp_process_one freed p rest com vis a pool slots k (G : Z -> option JobLog -> aqueue -> list call -> Prop) :
  worker_state com vis a pool slots (wk_world k) -> aq_ready a = p :: rest -> job_id p = id ->
  freed = true \/ wk_sem k = None \/ (exists n, wk_sem k = Some n /\ 0 < n) ->
  (forall t k', worker_state com vis (MkAQ rest (aq_delayed a) (<[id := (p, t)]> (aq_inflight a)) (aq_dead a)) pool slots (wk_world k') ->
    wp (process_claimed sv env mono alert_threshold id)
       (fun k2 r => r = Ok () /\ exists com' vis' a' pool', worker_state com' vis' a' pool' slots (wk_world k2) /\ G t com' a' pool') k') ->
  wp (process_one_job sv env mono alert_threshold freed)
     (fun k2 r => r = Ok true /\ exists t com' vis' a' pool', worker_state com' vis' a' pool' slots (wk_world k2) /\ G t com' a' pool') k.
Proof.
  intros Hk Hr Hp Hs HP. unfold process_one_job. wp_step. eapply wp_snapshot; [exact Hk|]. intros k1 H1 S1. wp_steps. apply wp_on_world.
  set (t := sv_clock sv (w_x (wk_world k1))). eapply wp_dequeue; [exact Hr|exact H1|]. intros w' Hw'. rewrite Hp in Hw'. cbn beta iota. wp_step.
  eapply wp_heartbeat; [exact Hw'|]. intros k2 H2 S2. cbn beta iota. cbn [wk_sem] in S2. rewrite <- S2 in S1.
  rewrite <- S1 in Hs. destruct (with_slot_runs freed p k2 Hs) as (k3&E3&Ew). apply Ew. clear Ew. rewrite <- E3 in H2.
  unfold on_health. do 4 wp_step. rewrite Hp. eapply wp_mono; [apply (HP t); exact H2|]. intros k4 r (->&com'&vis'&a'&pool'&H4&HG).
  cbn beta iota. wp_step. split; [done|]. exists t, com', vis', a', pool'. split; [|done].
  match goal with |- worker_state _ _ _ _ _ (wk_world (add_sem 1 (?m ?kk).1)) => enough (wp m (fun k' _ => worker_state com' vis' a' pool' slots (wk_world k')) kk) as Hw5 by exact Hw5 end.
  unfold on_health. wp_steps. eapply wp_snapshot; [exact H4|]. done.
Qed.

(** The claim of a pending row *)
Definition claimed (t : Z) (l : JobLog) : JobLog := log_started t (log_status "running" l).

Lemma wp_claim l vis a pool slots (P : world Q X -> result bool -> Prop) w : commits sv -> jl_status l = "pending" -> worker_state (Some l) vis a pool slots w ->
  (forall t vis' w', worker_state (Some (claimed t l)) vis' a pool slots w' -> P w' (Ok true)) -> wp (try_claim_job sv id) P w.
Proof.
  intros Hc Hl (q&Hq&[H1 H2 H3 H4 H5]) HP. unfold wp, try_claim_job. destruct (Hc (w_x w)) as [x' ->]. rewrite H1, Hl. cbn [String.eqb fst snd].
  eapply (HP (sv_clock sv (w_x w))). exists q. split; [done|]. split; [|reflexivity|done|done|done].
  change (alter (claimed (sv_clock sv (w_x w))) id (w_rows w) !! id = Some (claimed (sv_clock sv (w_x w)) l)). by rewrite lookup_alter_eq, H1.
Qed.
(** A row that is not pending, or a database that does not answer *)
Lemma wp_claim_refused com vis a pool slots (P : world Q X -> result bool -> Prop) w :
  (match com with Some l => jl_status l <> "pending" | None => True end) \/ (forall x, exists x' e, sv_commit sv x = (x', Raise e)) ->
  worker_state com vis a pool slots w ->
  (forall w', worker_state com vis a pool slots w' -> P w' (Ok false)) -> wp (try_claim_job sv id) P w.
Proof.
  intros Hc (q&Hq&Hj) HP. unfold wp, try_claim_job. destruct (sv_commit sv (w_x w)) as [x' [[]|e]] eqn:E.
  - destruct Hc as [Hc|Hc]; [|destruct (Hc (w_x w)) as (y&e&E2); congruence]. rewrite (js_com _ _ _ _ _ _ _ Hj).
    assert (match com with Some l => jl_status l =s "pending" | None => false end = false) as -> by (destruct com; [by apply String.eqb_neq|done]).
    cbn. apply HP. exists q. split; [done|]. apply js_x. by destruct Hj.
  - cbn. apply HP. exists q. split; [done|]. by apply js_x.
Qed.
Lemma wp_worker_event ty i com vis a pool slots (P : worker Q X -> result unit -> Prop) k : worker_state com vis a pool slots (wk_world k) ->
  (forall k', worker_state com vis a pool slots (wk_world k') -> P k' (Ok ())) -> wp (worker_event sv ty i) P k.
Proof. intros (q&Hq&Hj) HP. apply wp_on_world. eapply wp_effect_x; [exact Hj|]. intros w' Hw'. apply HP. by exists q. Qed.

(** A job that cannot be claimed is acknowledged. *)
Lemma process_unclaimed com vis a pool slots k :
  (match com with Some l => jl_status l <> "pending" | None => True end) \/ (forall x, exists x' e, sv_commit sv x = (x', Raise e)) ->
  worker_state com vis a pool slots (wk_world k) ->
  wp (process_claimed sv env mono alert_threshold id)
     (fun k2 r => r = Ok () /\ worker_state com vis (MkAQ (aq_ready a) (aq_delayed a) (delete id (aq_inflight a)) (aq_dead a)) pool slots (wk_world k2)) k.
Proof.
  intros Hc Hk. unfold process_claimed. do 2 wp_step. eapply wp_worker_event; [exact Hk|]. intros k1 H1. cbn beta iota. wp_step.
  apply wp_on_world. eapply wp_claim_refused; [exact Hc|exact H1|]. intros w' Hw'. cbn beta iota. cbn [negb]. apply wp_on_world.
  eapply wp_ack; [exact Hw'|]. intros w2 H2. done.
Qed.

(** A pending job is claimed, run and acknowledged; [R] is what the run leaves of its row. *)
Lemma process_claims l vis a pool slots k (R : option JobLog -> Prop) : commits sv -> jl_status l = "pending" ->
  worker_state (Some l) vis a pool slots (wk_world k) ->
  (forall t vis' q w, job_state id (Some (claimed t l)) vis' q pool slots w ->
    wp (execute_job sv env id (jl_task l) (jl_payload l)) (fun w' r => r = Ok () /\ exists com', job_state id com' com' q pool slots w' /\ R com') w) ->
  wp (process_claimed sv env mono alert_threshold id)
     (fun k2 r => r = Ok () /\ exists com', worker_state com' com' (MkAQ (aq_ready a) (aq_delayed a) (delete id (aq_inflight a)) (aq_dead a)) pool slots (wk_world k2) /\ R com') k.
Proof.
  intros Hc Hl Hk HR. unfold process_claimed. do 2 wp_step. eapply wp_worker_event; [exact Hk|]. intros k1 H1. cbn beta iota. wp_step.
  apply wp_on_world. eapply wp_claim; [exact Hc|exact Hl|exact H1|]. intros t vis' w' (q&Hq&Hj). cbn beta iota. cbn [negb]. wp_step. apply wp_on_world.
  unfold fetch_job_data. wp_step. cbn beta iota. cbn [wk_world]. rewrite (js_com _ _ _ _ _ _ _ Hj). cbn [fmap option_fmap option_map]. wp_step. apply wp_on_world.
  change (jl_task (claimed t l)) with (jl_task l). change (jl_payload (claimed t l)) with (jl_payload l).
  eapply wp_mono; [apply (HR t vis' q); exact Hj|]. intros w2 r (->&com'&H2&HR'). cbn beta iota. wp_step. apply wp_on_world.
  eapply (wp_ack id com' com' a pool slots); [by exists q|]. intros w3 H3. cbn beta iota. eapply wp_worker_event; [exact H3|]. intros k4 H4.
  split; [done|]. by exists com'.
Qed.

(** One iteration on a pending job whose handler returns *)
Lemma process_one_success freed p rest l vis a pool slots k h r : commits sv -> events_stored sv ->
  worker_state (Some l) vis a pool slots (wk_world k) -> aq_ready a = p :: rest -> job_id p = id -> jl_status l = "pending" ->
  freed = true \/ wk_sem k = None \/ (exists n, wk_sem k = Some n /\ 0 < n) ->
  sv_handler sv (jl_task l) = Some h -> (forall x, exists x' t, h (jl_payload l) x = (x', t, Ok r)) ->
  wp (process_one_job sv env mono alert_threshold freed)
     (fun k2 res => res = Ok true /\ exists t t0 t1 vis' a', worker_state (Some (finished id t0 t1 r (claimed t l))) vis' a' pool slots (wk_world k2) /\
       a' = MkAQ rest (aq_delayed a) (delete id (aq_inflight a)) (aq_dead a)) k.
Proof.
  intros Hc He Hk Ha Hp Hl Hs Hh Hr.
  set (G := fun (_ : Z) com' a' pool' => (exists t t0 t1, com' = Some (finished id t0 t1 r (claimed t l))) /\ pool' = pool /\ a' = MkAQ rest (aq_delayed a) (delete id (aq_inflight a)) (aq_dead a)).
  eapply wp_mono; [apply (wp_process_one freed p rest (Some l) vis a pool slots k G); [done|done|done|done|]|].
  - intros t k' Hk'. eapply wp_mono; [eapply (process_claims l vis _ pool slots k' (fun com' => exists t t0 t1, com' = Some (finished id t0 t1 r (claimed t l)))); [done|done|exact Hk'|]|].
    + intros t' vis' q w Hw. eapply wp_mono; [eapply execute_job_success; [done|done|exact Hh|exact Hr|exact Hw]|].
      intros w' res (->&t0&t1&Hj). split; [done|]. eexists. split; [exact Hj|]. by exists t', t0, t1.
    + intros k2 res (->&com'&H1&H2). split; [done|]. eexists _, _, _, _. split; [exact H1|]. split; [done|]. split; [done|]. cbn [aq_ready aq_delayed aq_inflight aq_dead].
      by rewrite delete_insert_eq.
  - intros k2 res (->&t&com'&vis'&a'&pool'&H1&(t2&t0&t1&->)&->&->). split; [done|]. eexists t2, t0, t1, _, _. by split.
Qed.

(** ** Submission *)

(** A distributed deployment that accepts jobs, with the admission caps at their default *)
Definition accepts : Prop :=
  ae_accepting env = true /\ ae_distributed env = true /\ inline_enabled env true = false /\ ae_global_cap env <= 0 /\ ae_user_cap env <= 0 /\ ae_threshold env <= cap.

Lemma wp_admission user (P : world Q X -> result unit -> Prop) w : accepts -> P w (Ok ()) -> wp (enforce_admission env user) P w.
Proof.
  intros (_&_&_&Hg&Hu&_) HP. unfold enforce_admission. replace (0 <? ae_global_cap env) with false by (symmetry; apply Z.ltb_ge; lia).
  replace (0 <? ae_user_cap env) with false by (symmetry; apply Z.ltb_ge; lia). wp_steps. by destruct user; wp_step.
Qed.

Lemma wp_hand_over task payload user l a pool slots w (P : world Q X -> result unit -> Prop) : accepts -> truthy id = true -> 0 < slots -> a_pending a < cap ->
  worker_state (Some l) (Some l) a pool slots w ->
  (forall p w', job_id p = id -> worker_state (Some l) (Some l) (MkAQ (aq_ready a ++ [p]) (aq_delayed a) (aq_inflight a) (aq_dead a)) pool slots w' -> P w' (Ok ())) ->
  wp (hand_over sv env id task payload user) P w.
Proof.
  intros (_&Hd&_) Hi Hs Ha (q&Hq&[H1 H2 H3 H4 H5]) HP. unfold wp, hand_over. rewrite H5. destruct (slots <=? 0) eqn:E; breflect; [lia|]. unfold dispatch_async. rewrite Hd.
  match goal with |- P (try_finally ?m ?f ?w0).1 (try_finally ?m ?f ?w0).2 => change (wp (try_finally m f) P w0) end. wp_step.
  unfold enqueue_distributed, wp. cbn [add_slots w_x]. destruct (sv_uuid sv (w_x w)) as [x1 fresh].
  pose proof (queue_payload_wf sv JOB_DISPATCH_STUB (MkCtx (Some id) (Some task) None user false) fresh x1) as Hp.
  pose proof (queue_payload_id sv id JOB_DISPATCH_STUB (MkCtx (Some id) (Some task) None user false) fresh x1 Hi eq_refl) as Hj.
  set (p := queue_payload _ _ _ _ _) in *. cbn [cx_retry andb].
  match goal with |- P (add_slots 1 (?m ?w0).1) (?m ?w0).2 => change (wp m (fun w r => P (add_slots 1 w) r) w0); assert (worker_state (Some l) (Some l) a pool (slots - 1) w0) as Hw0 end.
  { exists q. split; [done|]. split; try done. cbn. lia. }
  eapply (wp_enqueue p); [done|done|exact Hw0|]. intros w' (q'&Hq'&[G1 G2 G3 G4 G5]). apply (HP p); [done|]. exists q'. split; [done|]. split; try done. cbn. lia.
Qed.

Lemma wp_submit task payload user source max com vis a pool slots w x' : commits sv -> events_stored sv -> accepts -> truthy id = true -> 0 < slots ->
  a_pending a < ae_threshold env -> sv_uuid sv (w_x w) = (x', id) -> worker_state com vis a pool slots w ->
  wp (submit_async_job sv env task payload user source max true)
     (fun w' r => r = Ok id /\ exists t p, job_id p = id /\
       worker_state (Some (new_log source task payload max user t)) (Some (new_log source task payload max user t))
         (MkAQ (aq_ready a ++ [p]) (aq_delayed a) (aq_inflight a) (aq_dead a)) pool slots w') w.
Proof.
  intros Hc He Hx Hi Hs Ha Hu Hw. pose proof Hx as (Hacc&Hd&Hin&_&_&Hth). unfold submit_async_job. rewrite Hacc, Hin. cbn [negb].
  do 2 wp_step. cbn beta iota. assert (worker_state com com a pool slots (close w)) as Hw0.
  { destruct Hw as (q&Hq&Hj). exists q. split; [done|]. by eapply js_close. }
  do 3 wp_step. apply (wp_admission user); [done|]. cbn beta iota. unfold enforce_backpressure. rewrite Hd. cbn [negb]. wp_step.
  eapply wp_pending; [exact Hw0|]. intros w1 (q1&Hq1&H1) Ex1. cbn beta iota. destruct (ae_threshold env <=? a_pending a) eqn:E; breflect; [lia|]. clear E.
  do 2 wp_step. cbn beta iota. unfold fresh_id. unfold wp at 1. rewrite Ex1. cbn [close with_rows w_x]. rewrite Hu. cbn [fst snd].
  do 2 wp_step. apply wp_now. cbn beta iota. wp_step. match goal with |- context [sv_clock sv ?x] => set (t := sv_clock sv x) end.
  eapply wp_create_log; [done|apply js_x; exact H1|]. intros w2 H2. cbn beta iota. wp_step.
  eapply wp_emit_stored; [done|exact H2|]. intros w3 r3 H3. cbn beta iota. wp_step.
  eapply wp_hand_over; [done|done|exact Hs| |by exists q1|]; [lia|]. intros p w4 Hp (q4&Hq4&H4). cbn beta iota. wp_step. split; [done|]. exists t, p. split; [done|].
  exists q4. split; [done|]. by eapply js_close.
Qed.
End worker_facts.
