(* ===== verification/JobOutcomes.v ===== *)
(** * What becomes of a job

    The properties of the job system: a submitted job is run and recorded, a failing
    one is retried with growing delays up to its budget, and what a failing event
    store, a crashed worker and the inline fallback do. *)
From S2P Require Import Prelude PyDatetime Json PyEffects JobQueue RedisQueue QueueInterface AsyncJobs Worker JobFacts.
Local Open Scope Z_scope.

(** ** A concrete deployment: services that record their events, and the in-memory queue *)

(** [stored]: the event store works; [outcome]: what the handler of every task does. *)
Definition demo_services (stored : bool) (outcome : result json) : async_services (list string) := {|
  sv_clock _ := 0;
  sv_emit ty i x := if stored then ((ty +:+ ":" +:+ i) :: x, Commit, Some "event") else (x, Rollback, None);
  sv_error_event _ x := (x, Keep, Ok ());
  sv_started_exists i x := str_in ("execution.started:" +:+ i) x;
  sv_eu_status _ _ x := x;
  sv_eu_create _ x := (x, Ok ());
  sv_commit x := (x, Ok ());
  sv_handler _ := Some (fun _ x => (x, Keep, outcome));
  sv_written _ x := x;
  sv_worker_event _ _ x := x;
  sv_uuid x := (x, "job-1");
  sv_trace_id _ := "trace";
  sv_eu_id _ := "";
  sv_iso _ := "2025-01-01T00:00:00+00:00";
  sv_decide _ _ _ x := (x, Keep, Ok DExecute);
  sv_record _ x := (x, Keep, Ok ())
|}.
Definition demo_env (distributed inline : bool) : async_env := MkAsyncEnv distributed true 1000 30000 inline true false true 0 0 10 10 false.
Definition demo_health : health := MkHealth "STARTING" 0 false 0 0 0.
Definition demo_world (rows : gmap string JobLog) (q : memq) (pool : list call) : world memq (list string) := MkWorld rows ∅ q pool 1 [].

Lemma demo_commits b o : commits (demo_services b o).
Proof. intros x. by exists x. Qed.
Lemma demo_stored o : events_stored (demo_services true o).
Proof. split; [intros ty i x; cbn; eauto|]. intros i x. cbn. apply orb_true_iff. left. apply String.eqb_refl. Qed.
Lemma demo_lost o : events_lost (demo_services false o).
Proof. intros ty i x. by exists x. Qed.
Lemma demo_mem_rep : mem_rep 10 (mem_init 10) a_init.
Proof. split; [|done]. split; [done|lia|apply NoDup_nil_2|done|unfold pending_depth; cbn; lia]. Qed.

Section outcomes.
Context {Q X : Type} {queue : Queue Q} {cap : Z} {rep : Q -> aqueue -> Prop} {laws : QueueLaws Q cap rep}.
Context (sv : async_services X) (env : async_env) (mono : X -> Z) (alert_threshold : Z) (id : string).

Lemma start_state (w : world Q X) a : rep (w_queue w) a ->
  worker_state (rep := rep) id (w_rows w !! id) ((w_pending w ∪ w_rows w) !! id) a (w_pool w) (w_slots w) w.
Proof. intros H. exists (w_queue w). by split. Qed.

(** The clean-up changes only pending rows. *)
Lemma cleanup_keeps (w : world Q X) l : w_rows w !! id = Some l -> jl_status l <> "pending" -> w_rows (cleanup_stale_logs sv w).1 !! id = Some l.
Proof.
  intros Hw Hl. unfold cleanup_stale_logs, try_except, mbind, SE_bind, writes, commit. cbn [close with_rows w_x w_rows with_x apply_txn w_pending].
  destruct (sv_commit sv (w_x w)) as [x [[]|e]]; cbn [fst w_rows with_x with_rows apply_txn w_pending]; [|done].
  rewrite lookup_union, lookup_fmap, Hw. cbn. unfold stale_log. apply String.eqb_neq in Hl. by rewrite Hl.
Qed.

(** One iteration on the queue's first job, given what it leaves of the row *)
Lemma process_one_result freed p rest l a k (R : option JobLog -> Prop) : rep (w_queue (wk_world k)) a -> aq_ready a = p :: rest -> job_id p = id ->
  w_rows (wk_world k) !! id = Some l -> freed = true \/ wk_sem k = None ->
  (forall a' vis k', worker_state (rep := rep) id (Some l) vis a' (w_pool (wk_world k)) (w_slots (wk_world k)) (wk_world k') ->
    wp (process_claimed sv env mono alert_threshold id)
       (fun k2 r => r = Ok () /\ exists com' vis', worker_state (rep := rep) id com' vis' (MkAQ (aq_ready a') (aq_delayed a') (delete id (aq_inflight a')) (aq_dead a'))
          (w_pool (wk_world k)) (w_slots (wk_world k)) (wk_world k2) /\ R com') k') ->
  exists k', process_one_job sv env mono alert_threshold freed k = (k', Ok true) /\ R (w_rows (wk_world k') !! id) /\
    rep (w_queue (wk_world k')) (MkAQ rest (aq_delayed a) (delete id (aq_inflight a)) (aq_dead a)).
Proof.
  intros Hq Ha Hp Hw Hs HP. pose proof (start_state (wk_world k) a Hq) as Hk. rewrite Hw in Hk.
  set (G := fun (_ : Z) com' a' (_ : list call) => R com' /\ a' = MkAQ rest (aq_delayed a) (delete id (aq_inflight a)) (aq_dead a)).
  epose proof (wp_process_one sv env mono alert_threshold id freed p rest (Some l) _ a _ _ k G Hk Ha Hp ltac:(tauto) _) as Hwp. Unshelve.
  - unfold wp in Hwp. destruct (process_one_job sv env mono alert_threshold freed k) as [k' r'] eqn:E. cbn [fst snd] in Hwp.
    destruct Hwp as (->&t&com'&vis'&a'&pool'&(q&Hq'&[H1 H2 H3 H4 H5])&HR&->). exists k'. split; [done|]. by rewrite H1, H3.
  - intros t k' Hk'. eapply wp_mono; [exact (HP _ _ k' Hk')|]. intros k2 res (->&com'&vis'&H1&H2). split; [done|]. eexists _, _, _, _. split; [exact H1|].
    split; [done|]. cbn. by rewrite delete_insert_eq.
Qed.


(** A run that fails with attempts left in a distributed deployment leaves the row
    pending, with its attempt counted and the error recorded, and puts exactly one job for
    it into the delayed set, due after the base delay doubled for every earlier attempt and
    capped at the maximum. *)
Theorem failed_job_backs_off task payload h e l a (w : world Q X) :
  commits sv -> events_stored sv -> (forall x, exists x' t, sv_error_event sv id x = (x', t, Ok ())) -> ae_distributed env = true ->
  truthy id = true -> 0 <= jl_attempts l -> jl_attempts l + 1 < jl_max l -> w_rows w !! id = Some l ->
  0 < ae_backoff_base env -> 0 < ae_backoff_max env ->
  rep (w_queue w) a -> a_pending a < cap -> id ∉ (fun dp => job_id dp.2) <$> aq_delayed a ->
  sv_handler sv task = Some h -> (forall x, exists x' t, h payload x = (x', t, Raise e)) ->
  exists w' l' p t, execute_job sv env id task payload w = (w', Ok ()) /\
    w_rows w' !! id = Some l' /\ jl_status l' = "pending" /\ jl_attempts l' = jl_attempts l + 1 /\ jl_error l' = Some (exn_msg e) /\ job_id p = id /\
    rep (w_queue w') (MkAQ (aq_ready a) (aq_delayed a ++ [(t + Z.min (ae_backoff_base env * 2 ^ jl_attempts l) (ae_backoff_max env) * 1000, p)]) (aq_inflight a) (aq_dead a)).
Proof.
  intros Hc He Hx Hd Hi Ha Hm Hw Hb1 Hb2 Hq Hp Hf Hh Hr.
  assert (job_state id (Some l) ((w_pending w ∪ w_rows w) !! id) (w_queue w) (w_pool w) (w_slots w) w) as Hj by by split.
  pose proof (execute_job_failure sv env id task payload h e l _ _ _ _ w Hc He Hx Hi Ha Hh Hr Hj) as Hwp. unfold wp in Hwp.
  destruct (execute_job sv env id task payload w) as [w' r] eqn:Ee. cbn [fst snd] in Hwp. destruct Hwp as (t0&_&Hwp).
  destruct (jl_attempts l + 1 <? jl_max l) eqn:Em; breflect; [|lia]. destruct Hwp as (Hrow&_&Hret). unfold retry_handed_over in Hret. rewrite Hd in Hret.
  destruct Hret as (_&p&t&Hwf&Hid&Eq). change (jl_attempts (begun t0 l)) with (jl_attempts l + 1) in Eq.
  assert (backoff env (jl_attempts l + 1) = Z.min (ae_backoff_base env * 2 ^ jl_attempts l) (ae_backoff_max env) * 1000) as Hbo.
  { unfold backoff. do 4 f_equal. lia. }
  rewrite Hbo in Eq. assert (0 < 2 ^ jl_attempts l) as Hpow by (apply Z.pow_pos_nonneg; lia).
  destruct (0 <? _) eqn:E0 in Eq; breflect; [|nia].
  assert (p ∉ (aq_delayed a).*2) as Hfresh.
  { intros [dp [-> Hin]]%list_elem_of_fmap. apply Hf. apply list_elem_of_fmap. by exists dp. }
  symmetry in Eq. destruct (law_delay _ _ _ _ _ _ _ Hq Hwf Hfresh Eq) as (a'&Hs&Ha'). destruct r as [[]|e']; cbn in Hs; inversion Hs; subst; [|lia].
  eexists w', _, p, t. split; [done|]. split; [exact Hrow|]. by repeat (split; [done|]).
Qed.

(** While the event store fails, the success of a job is lost: the handler returned
    and the worker acknowledged the job, yet its row still says running and holds no
    result, because the emission that fails rolls the session back. *)
Theorem success_lost_in_outage freed p rest l h r a k :
  commits sv -> events_lost sv -> rep (w_queue (wk_world k)) a -> aq_ready a = p :: rest -> job_id p = id ->
  w_rows (wk_world k) !! id = Some l -> jl_status l = "pending" -> freed = true \/ wk_sem k = None ->
  sv_handler sv (jl_task l) = Some h -> (forall x, exists x' t, h (jl_payload l) x = (x', t, Ok r) /\ t <> Commit) ->
  exists k' l' a', process_one_job sv env mono alert_threshold freed k = (k', Ok true) /\
    w_rows (wk_world k') !! id = Some l' /\ jl_status l' = "running" /\ jl_result l' = jl_result l /\ jl_attempts l' = jl_attempts l /\
    rep (w_queue (wk_world k')) a' /\ aq_ready a' = rest /\ aq_delayed a' = aq_delayed a /\ aq_inflight a' !! id = None.
Proof.
  intros Hc He Hq Ha Hp Hw Hl Hs Hh Hr.
  destruct (process_one_result freed p rest l a k (fun com' => exists t, com' = Some (claimed t l)) Hq Ha Hp Hw Hs) as (k'&E&(t&H1)&H2).
  - intros a' vis k' Hk'. eapply wp_mono; [eapply (process_claims sv env mono alert_threshold id l _ _ _ _ k' (fun com' => exists t, com' = Some (claimed t l))); [done|done|exact Hk'|]|].
    + intros t' vis' q w Hj. eapply wp_mono; [eapply execute_job_lost; [done|done|exact Hh|exact Hr|exact Hj]|].
      intros w' res (->&Hj'). split; [done|]. eexists. split; [exact Hj'|]. by exists t'.
    + intros k2 res (->&com'&H1&H2). split; [done|]. by exists com', com'.
  - eexists k', _, _. split; [done|]. split; [exact H1|]. do 3 (split; [done|]). split; [exact H2|]. do 2 (split; [done|]). apply lookup_delete_eq.
Qed.

(** A job whose row is not pending is never run again.  In particular, when a worker
    dies after it claimed the job, the delivery that the visibility timeout brings back is
    acknowledged by the next worker without a run, and the hourly clean-up, which looks for
    pending rows only, does not touch the row either: it says running for ever. *)
Theorem claimed_job_never_recovered freed p rest l a k :
  rep (w_queue (wk_world k)) a -> aq_ready a = p :: rest -> job_id p = id ->
  w_rows (wk_world k) !! id = Some l -> jl_status l = "running" -> freed = true \/ wk_sem k = None ->
  exists k' a', process_one_job sv env mono alert_threshold freed k = (k', Ok true) /\
    w_rows (wk_world k') !! id = Some l /\ w_rows (cleanup_stale_logs sv (wk_world k')).1 !! id = Some l /\
    rep (w_queue (wk_world k')) a' /\ aq_ready a' = rest /\ aq_delayed a' = aq_delayed a /\ aq_inflight a' !! id = None.
Proof.
  intros Hq Ha Hp Hw Hl Hs. destruct (process_one_result freed p rest l a k (fun com' => com' = Some l) Hq Ha Hp Hw Hs) as (k'&E&H1&H2).
  - intros a' vis k' Hk'. eapply wp_mono; [eapply (process_unclaimed sv env mono alert_threshold id (Some l)); [left; by rewrite Hl|exact Hk']|].
    intros k2 res (->&H1). split; [done|]. by exists (Some l), vis.
  - eexists k', _. split; [done|]. split; [exact H1|]. split; [apply cleanup_keeps; [exact H1|by rewrite Hl]|]. split; [exact H2|]. do 2 (split; [done|]). apply lookup_delete_eq.
Qed.
End outcomes.

(** ** Jobs on the thread pool *)
Section threads.
Context {Q X : Type} {queue : Queue Q} (sv : async_services X) (env : async_env) (handlers : string -> SE (world Q X) unit) (id : string).

Definition pool_steps (n : nat) (w : world Q X) : world Q X := Nat.iter n (fun w => (run_pool sv env handlers w).1) w.

Lemma wp_run_pool task payload rest (w : world Q X) (P : world Q X -> Prop) : w_pool w = CallJob id task payload :: rest ->
  (forall w', job_state id (w_rows w !! id) ((w_pending w ∪ w_rows w) !! id) (w_queue w) rest (w_slots w) w' -> wp (execute_job sv env id task payload) (fun w2 _ => P w2) w') ->
  P (run_pool sv env handlers w).1.
Proof.
  intros Hw HP. unfold run_pool. rewrite Hw. match goal with |- P ((_ ≫= _) ?w1).1 => specialize (HP w1 ltac:(by split)) end.
  unfold wp in HP. unfold mbind, SE_bind. destruct (execute_job sv env id task payload _) as [w2 [[]|e]]; done.
Qed.


(** While the event store fails the budget is not counted: every run of a failing
    job rolls its attempt back, so after any number of runs the row has the attempts it
    began with and the pool holds the job again. *)
Theorem outage_retries_forever n task payload h e l (w : world Q X) :
  commits sv -> events_lost sv -> ae_distributed env = false -> truthy id = true -> 0 <= jl_attempts l < jl_max l ->
  w_rows w !! id = Some l -> w_pool w = [CallJob id task payload] ->
  sv_handler sv task = Some h -> (forall x, exists x' t, h payload x = (x', t, Raise e) /\ t <> Commit) ->
  exists l', w_rows (pool_steps n w) !! id = Some l' /\ jl_attempts l' = jl_attempts l /\ jl_max l' = jl_max l /\ w_pool (pool_steps n w) = [CallJob id task payload].
Proof.
  intros Hc He Hd Hi Ha Hw Hp Hh Hr. induction n as [|n (l'&H1&H2&H3&H4)]; [by exists l|].
  apply (wp_run_pool task payload [] (pool_steps n w) (fun w1 => exists l', w_rows w1 !! id = Some l' /\ jl_attempts l' = jl_attempts l /\ jl_max l' = jl_max l /\ w_pool w1 = [CallJob id task payload])); [done|]. intros w' Hw'. rewrite H1 in Hw'. eapply wp_execute_job; [exact Hw'|]. clear w' Hw'. intros w' Hw'.
  eapply wp_handler_raises; [by right|done| |exact Hw'|].
  - intros x. destruct (Hr x) as (x'&t&E&Ht). exists x', t. by split.
  - clear w' Hw'. intros t com vis' w' [[Hs _]|[_ ->]] Hw'; [destruct (stored_not_lost sv Hs He (w_x w'))|].
    eapply wp_mono; [eapply wp_failure_retry; [done|done| |exact Hw']; lia|]. intros w2 r (G1&_&_&G2). unfold retry_handed_over in G2. rewrite Hd in G2. destruct G2 as (_&_&G2).
    eexists. split; [exact G1|]. by split.
Qed.

(** The inline fallback reports a failed job as a success: when the handler raises and
    attempts are left, the run reschedules the job, and the guard that follows then marks
    the row, which is not final, as success; the submission returns the job's id, the row
    keeps the error and has no result, and the retry is still to come. *)
Theorem inline_fallback_hides_failure task payload user source max exec_inline h e (w : world Q X) x' :
  commits sv -> events_stored sv -> (forall x, exists x' t, sv_error_event sv id x = (x', t, Ok ())) ->
  ae_accepting env = true -> ae_distributed env = false -> inline_enabled env exec_inline = true -> truthy id = true -> 1 < max ->
  sv_uuid sv (w_x w) = (x', id) -> sv_handler sv task = Some h -> (forall x, exists x' t, h payload x = (x', t, Raise e)) ->
  exists w' l, submit_async_job sv env task payload user source max exec_inline w = (w', Ok id) /\ w_rows w' !! id = Some l /\
    jl_status l = "success" /\ jl_error l = Some (exn_msg e) /\ jl_result l = None /\ w_pool w' = w_pool w ++ [CallJob id task payload].
Proof.
  intros Hc He Hx Hacc Hd Hin Hi Hm Hu Hh Hr.
  enough (wp (submit_async_job sv env task payload user source max exec_inline) (fun w' r => r = Ok id /\ exists l, w_rows w' !! id = Some l /\
    jl_status l = "success" /\ jl_error l = Some (exn_msg e) /\ jl_result l = None /\ w_pool w' = w_pool w ++ [CallJob id task payload]) w) as Hwp.
  { unfold wp in Hwp. destruct (submit_async_job sv env task payload user source max exec_inline w) as [w' r]. cbn in Hwp. destruct Hwp as (->&l&H). by exists w', l. }
  unfold submit_async_job. rewrite Hacc, Hin. cbn [negb]. do 5 wp_step. cbn beta iota. wp_step. unfold fresh_id, wp at 1. cbn [close with_rows w_x]. rewrite Hu. cbn [fst snd].
  assert (job_state id (w_rows w !! id) (w_rows w !! id) (w_queue w) (w_pool w) (w_slots w) (with_x (close w) x')) as Hw by (split; try done; cbn; by rewrite (left_id_L ∅ (∪))).
  do 2 wp_step. apply wp_now. cbn beta iota. wp_step. eapply wp_create_log; [done|exact Hw|]. intros w2 H2. cbn beta iota. wp_step.
  eapply wp_emit_stored; [done|exact H2|]. intros w3 r3 H3. cbn beta iota. do 2 wp_step.
  eapply wp_mono; [eapply execute_inline_failure; [done|done|done|done| |exact Hh|exact Hr|exact H3]; done|].
  intros w4 r4 (t&_&H). cbn [jl_attempts jl_max] in H. destruct (0 + 1 <? max) eqn:E; breflect; [|lia]. destruct H as (H4&H5&H6).
  unfold retry_handed_over in H6. rewrite Hd in H6. destruct H6 as (->&H6&H7). cbn beta iota. wp_step. split; [done|].
  pose proof (@Build_job_state Q X id _ _ _ _ _ w4 H4 H5 H6 H7 eq_refl) as Hw4.
  pose proof (wp_terminal_guard sv id _ _ _ _ w4 Hc Hw4 eq_refl) as (t'&l'&->&[G1 G2 G3 G4 G5]). eexists. split; [exact G1|]. by repeat (split; [done|]).
Qed.
End threads.

(** ** The properties at concrete deployments *)
Definition demo_done : async_services (list string) := demo_services true (Ok (JStr "done")).
Definition demo_error : exn := Exn "ValueError" "bad input".
Definition demo_fails (stored : bool) : async_services (list string) := demo_services stored (Raise demo_error).
Definition demo_log (status : string) (attempts max : Z) : JobLog := MkLog "test" "agent.create_run" [] status attempts max None None None None None 0 None.
Definition demo_payload : QueueJobPayload := MkJob "job-1" "agent.create_run" "job-1" [] [] "2025-01-01T00:00:00+00:00".
Definition demo_queue : memq := (mem_enqueue demo_payload (mem_init 10)).1.
Definition demo_ready : aqueue := mem_abs demo_queue.

Lemma demo_queue_rep : mem_rep 10 demo_queue demo_ready.
Proof. split; [|done]. split; [done|lia|apply NoDup_nil_2|done|vm_compute; discriminate]. Qed.
Lemma demo_accepts : accepts (cap := 10) (demo_env true false).
Proof. repeat split; cbn; lia. Qed.


Lemma failed_job_backs_off_witness :
  exists w' l' p t, execute_job (demo_fails true) (demo_env true false) "job-1" "agent.create_run" []
      (demo_world {["job-1" := demo_log "running" 1 3]} (mem_init 10) []) = (w', Ok ()) /\
    w_rows w' !! "job-1" = Some l' /\ jl_status l' = "pending" /\ jl_attempts l' = 1 + 1 /\ jl_error l' = Some "bad input" /\ job_id p = "job-1" /\
    mem_rep 10 (w_queue w') (MkAQ [] [(t + 2000 * 1000, p)] ∅ []).
Proof.
  refine (failed_job_backs_off (rep := mem_rep 10) (demo_fails true) (demo_env true false) "job-1" "agent.create_run" [] _ demo_error (demo_log "running" 1 3) a_init
    (demo_world {["job-1" := demo_log "running" 1 3]} (mem_init 10) []) (demo_commits _ _) (demo_stored _) _ eq_refl eq_refl _ _ _ _ _ demo_mem_rep _ _ eq_refl _);
    try (cbn; lia); try (intros x; by exists x, Keep); try done.
  intros H. cbn in H. by apply elem_of_nil in H.
Defined.

Lemma success_lost_in_outage_witness :
  exists k' l' a', process_one_job (demo_services false (Ok (JStr "done"))) (demo_env true false) (fun _ => 0) 10 false
      (MkWorker (demo_world {["job-1" := demo_log "pending" 0 1]} demo_queue []) demo_health [] None) = (k', Ok true) /\
    w_rows (wk_world k') !! "job-1" = Some l' /\ jl_status l' = "running" /\ jl_result l' = None /\ jl_attempts l' = 0 /\
    mem_rep 10 (w_queue (wk_world k')) a' /\ aq_ready a' = [] /\ aq_delayed a' = [] /\ aq_inflight a' !! "job-1" = None.
Proof.
  refine (success_lost_in_outage (rep := mem_rep 10) (demo_services false (Ok (JStr "done"))) (demo_env true false) (fun _ => 0) 10 "job-1" false demo_payload []
    (demo_log "pending" 0 1) _ (JStr "done") demo_ready (MkWorker (demo_world {["job-1" := demo_log "pending" 0 1]} demo_queue []) demo_health [] None)
    (demo_commits _ _) (demo_lost _) demo_queue_rep eq_refl eq_refl _ eq_refl (or_intror eq_refl) eq_refl _).
  - done.
  - intros x. by exists x, Keep.
Defined.

Lemma claimed_job_never_recovered_witness :
  exists k' a', process_one_job demo_done (demo_env true false) (fun _ => 0) 10 false
      (MkWorker (demo_world {["job-1" := demo_log "running" 0 3]} demo_queue []) demo_health [] None) = (k', Ok true) /\
    w_rows (wk_world k') !! "job-1" = Some (demo_log "running" 0 3) /\
    w_rows (cleanup_stale_logs demo_done (wk_world k')).1 !! "job-1" = Some (demo_log "running" 0 3) /\
    mem_rep 10 (w_queue (wk_world k')) a' /\ aq_ready a' = [] /\ aq_delayed a' = [] /\ aq_inflight a' !! "job-1" = None.
Proof.
  refine (claimed_job_never_recovered (rep := mem_rep 10) demo_done (demo_env true false) (fun _ => 0) 10 "job-1" false demo_payload [] (demo_log "running" 0 3) demo_ready
    (MkWorker (demo_world {["job-1" := demo_log "running" 0 3]} demo_queue []) demo_health [] None) demo_queue_rep eq_refl eq_refl _ eq_refl (or_intror eq_refl)).
  done.
Defined.


Lemma outage_retries_forever_witness :
  exists l', w_rows (pool_steps (demo_fails false) (demo_env false false) (fun _ => mret ()) 100
      (demo_world {["job-1" := demo_log "pending" 0 3]} (mem_init 10) [CallJob "job-1" "agent.create_run" []])) !! "job-1" = Some l' /\
    jl_attempts l' = 0 /\ jl_max l' = 3 /\
    w_pool (pool_steps (demo_fails false) (demo_env false false) (fun _ => mret ()) 100
      (demo_world {["job-1" := demo_log "pending" 0 3]} (mem_init 10) [CallJob "job-1" "agent.create_run" []])) = [CallJob "job-1" "agent.create_run" []].
Proof.
  refine (outage_retries_forever (demo_fails false) (demo_env false false) (fun _ => mret ()) "job-1" 100 "agent.create_run" [] _ demo_error (demo_log "pending" 0 3)
    (demo_world {["job-1" := demo_log "pending" 0 3]} (mem_init 10) [CallJob "job-1" "agent.create_run" []])
    (demo_commits _ _) (demo_lost _) eq_refl eq_refl _ _ eq_refl eq_refl _); try (intros x; by exists x, Keep); done.
Defined.

Lemma inline_fallback_hides_failure_witness :
  exists w' l, submit_async_job (demo_fails true) (demo_env false true) "agent.create_run" [] None "test" 3 true (demo_world ∅ (mem_init 10) []) = (w', Ok "job-1") /\
    w_rows w' !! "job-1" = Some l /\ jl_status l = "success" /\ jl_error l = Some "bad input" /\ jl_result l = None /\
    w_pool w' = [CallJob "job-1" "agent.create_run" []].
Proof.
  refine (inline_fallback_hides_failure (demo_fails true) (demo_env false true) "job-1" "agent.create_run" [] None "test" 3 true _ demo_error
    (demo_world ∅ (mem_init 10) []) [] (demo_commits _ _) (demo_stored _) _ eq_refl eq_refl eq_refl eq_refl _ eq_refl eq_refl _); try (intros x; by exists x, Keep); done.
Defined.
