(* ===== verification/Watcher.v ===== *)
(** * The desktop watcher: classification and sessions ([AINDY/watcher])

    [Classifier] maps the foreground window to an activity
    ([watcher/classifier.py]); [Tracker] is the session state machine
    ([watcher/session_tracker.py]).  Durations and delays are in microseconds and
    exact: the code computes the same numbers as floats and rounds the ones it
    reports.  Text is ASCII, and the iteration order of a [frozenset] is the
    argument [order] of the functions that iterate one. *)
From S2P Require Import Prelude PyDatetime PyUuid.
From Stdlib Require Import QArith.
Local Open Scope Z_scope.

Inductive ActivityType := WORK | COMMUNICATION | DISTRACTION | IDLE | UNKNOWN.
#[export] Instance ActivityType_eq_dec : EqDecision ActivityType.
Proof. solve_decision. Defined.
(** The value of the enumeration member *)
Definition activity_value (a : ActivityType) : string :=
  match a with
  | WORK => "work" | COMMUNICATION => "communication" | DISTRACTION => "distraction" | IDLE => "idle" | UNKNOWN => "unknown"
  end.

(** [confidence] is in hundredths. *)
Record ClassificationResult := MkResult {
  activity_type : ActivityType; confidence : Z; matched_rule : string; app_name : string; window_title : string
}.

(** ** Classification *)
Module Classifier.
(** [WindowInfo] as far as the classifier reads it *)
Record WindowInfo := MkWindow { wi_app : string; wi_title : string }.

Definition IDLE_PROCESSES : list string := ["screensaver"; "loginwindow"; "lockapp"; "logonui"; "systemuiserver"].
Definition WORK_PROCESSES : list string :=
  [ "cursor"; "code"; "code - insiders"; "pycharm"; "pycharm64"; "idea"; "idea64"; "webstorm"; "webstorm64"; "phpstorm"; "goland"; "clion";
    "rider"; "rubymine"; "datagrip"; "vim"; "nvim"; "neovim"; "sublime_text"; "atom"; "emacs"; "notepad++"; "zed";
    "terminal"; "iterm"; "iterm2"; "warp"; "windows terminal"; "windowsterminal"; "cmd"; "powershell"; "pwsh"; "bash"; "zsh"; "alacritty";
    "kitty"; "hyper"; "wezterm"; "konsole"; "gnome-terminal"; "xterm";
    "python"; "python3"; "node"; "npm"; "cargo"; "rustc"; "go"; "java"; "javac"; "gradle"; "mvn"; "make"; "cmake";
    "git"; "sourcetree"; "gitkraken"; "fork"; "figma"; "sketch"; "affinity"; "notion"; "obsidian"; "logseq"; "roamresearch" ].
Definition COMMUNICATION_PROCESSES : list string :=
  [ "slack"; "teams"; "discord"; "zoom"; "meet"; "webex"; "skype"; "outlook"; "thunderbird"; "mail"; "airmail"; "mimestream"; "spark";
    "superhuman"; "telegram"; "signal"; "whatsapp"; "messenger"; "imessage"; "messages"; "facetime" ].
Definition DISTRACTION_PROCESSES : list string :=
  [ "youtube"; "netflix"; "twitch"; "hulu"; "disneyplus"; "primevideo"; "spotify"; "music"; "vlc"; "mpv"; "steam"; "epicgameslauncher";
    "roblox"; "minecraft"; "origin"; "battlenet"; "gog galaxy" ].
Definition BROWSER_PROCESSES : list string :=
  [ "chrome"; "chromium"; "firefox"; "safari"; "edge"; "msedge"; "opera"; "brave browser"; "brave"; "vivaldi"; "arc" ].

(** The regular expressions, on text already in lower case.  [word_rest prev w s]
    is the text after the first [\bw\b] in [s] that [k] accepts. *)
Definition word_char (a : Ascii.ascii) : bool :=
  let n := Ascii.N_of_ascii (ascii_lower a) in
  ((97 <=? n) && (n <=? 122) || (48 <=? n) && (n <=? 57) || (n =? 95))%N.
Definition head_word (s : string) : bool := match s with String a _ => word_char a | EmptyString => false end.
Fixpoint word_search (prev : bool) (w : string) (k : string -> bool) (s : string) : bool :=
  let rest := str_drop (String.length w) s in
  (startswith w s && negb prev && negb (head_word rest) && k rest) ||
  match s with EmptyString => false | String a s' => word_search (word_char a) w k s' end.
(** The text up to the end of the line, where [.] stops *)
Fixpoint to_newline (s : string) : string :=
  match s with
  | EmptyString => EmptyString
  | String a s' => if Ascii.eqb a "010"%char then EmptyString else String a (to_newline s')
  end.
Definition DISTRACTION_TITLE_PATTERNS : list (string * (string -> bool)) :=
  [ ("youtube", str_contains "youtube");
    ("netflix", str_contains "netflix");
    ("twitch", str_contains "twitch");
    ("\breddit\b", word_search false "reddit" (fun _ => true));
    ("twitter|x\.com", fun s => str_contains "twitter" s || str_contains "x.com" s);
    ("tiktok", str_contains "tiktok");
    ("instagram", str_contains "instagram");
    ("facebook", str_contains "facebook");
    ("\bsteam\b.*store", word_search false "steam" (fun rest => str_contains "store" (to_newline rest)));
    ("hacker news", str_contains "hacker news") ].

(** [re.sub(r"\.(exe|app|bin)$", "", app)]; [app] is stripped, so the end of the
    text is the only place where [$] matches. *)
Definition str_take (n : nat) (s : string) : string := String.substring 0 n s.
Definition app_base_of (app : string) : string :=
  let n := (String.length app - 4)%nat in
  if (4 <=? String.length app)%nat && (String.eqb (str_drop n app) ".exe" || String.eqb (str_drop n app) ".app" || String.eqb (str_drop n app) ".bin")
  then str_take n app else app.

Section classify.
Variable order : list string -> list string.

(** [pat in app_base or pat in app], for the first pattern in iteration order *)
Definition matching (app : string) (pats : list string) : option string :=
  List.find (fun pat => str_contains pat (app_base_of app) || str_contains pat app) (order pats).

Definition classify (window : option WindowInfo) : ClassificationResult :=
  match window with
  | None => MkResult IDLE 100 "no_active_window" "" ""
  | Some w =>
      let app := str_strip (str_lower (wi_app w)) in
      let title := str_strip (str_lower (wi_title w)) in
      let found kind conf rule := MkResult kind conf rule app (wi_title w) in
      match matching app IDLE_PROCESSES with
      | Some pat => found IDLE 95 ("idle_process:" +:+ pat)
      | None =>
      match matching app DISTRACTION_PROCESSES with
      | Some pat => found DISTRACTION 90 ("distraction_process:" +:+ pat)
      | None =>
      match (if matching app BROWSER_PROCESSES is Some _ then
               List.find (fun p => p.2 title || p.2 (str_lower (wi_title w))) DISTRACTION_TITLE_PATTERNS
             else None) with
      | Some p => found DISTRACTION 85 ("distraction_title:" +:+ p.1)
      | None =>
      match matching app WORK_PROCESSES with
      | Some pat => found WORK 90 ("work_process:" +:+ pat)
      | None =>
      match matching app COMMUNICATION_PROCESSES with
      | Some pat => found COMMUNICATION 90 ("communication_process:" +:+ pat)
      | None => found UNKNOWN 50 "no_match"
      end end end end end
  end.
End classify.

Lemma find_permutation {A} (f : A -> bool) l l' : l ≡ₚ l' -> is_Some (List.find f l) -> is_Some (List.find f l').
Proof.
  intros Hp [x Hx]. apply List.find_some in Hx as [Hin Hf]. destruct (List.find f l') eqn:He; [by eexists|].
  pose proof (List.find_none _ _ He x) as Hn. rewrite Hn in Hf; [done|]. apply list_elem_of_In. rewrite <- Hp. by apply list_elem_of_In.
Qed.
Lemma matching_order order order' app pats : (forall l, order l ≡ₚ order' l) ->
  is_Some (matching order app pats) -> is_Some (matching order' app pats).
Proof. intros Hp. apply find_permutation, Hp. Qed.

(** The activity and the confidence do not depend on the iteration order of the
    sets; the name of the rule can. *)
Lemma classify_order order order' w : (forall l, order l ≡ₚ order' l) ->
  activity_type (classify order w) = activity_type (classify order' w) /\ confidence (classify order w) = confidence (classify order' w).
Proof.
  intros Hp. destruct w as [w|]; [|done]. cbn [classify]. cbv zeta.
  assert (forall pats, (exists a b, matching order (str_strip (str_lower (wi_app w))) pats = Some a /\
      matching order' (str_strip (str_lower (wi_app w))) pats = Some b) \/
    (matching order (str_strip (str_lower (wi_app w))) pats = None /\ matching order' (str_strip (str_lower (wi_app w))) pats = None)) as Hm.
  { intros pats. pose proof (matching_order order order' (str_strip (str_lower (wi_app w))) pats Hp) as H1.
    pose proof (matching_order order' order (str_strip (str_lower (wi_app w))) pats (fun l => symmetry (Hp l))) as H2.
    destruct (matching order _ pats) as [a|], (matching order' _ pats) as [b|]; [left; eauto|..|by right].
    - by destruct (H1 (mk_is_Some _ _ eq_refl)).
    - by destruct (H2 (mk_is_Some _ _ eq_refl)). }
  destruct (Hm IDLE_PROCESSES) as [(?&?&-> & ->)|[-> ->]]; [done|].
  destruct (Hm DISTRACTION_PROCESSES) as [(?&?&-> & ->)|[-> ->]]; [done|].
  destruct (Hm BROWSER_PROCESSES) as [(?&?&-> & ->)|[-> ->]]; [destruct (List.find _ DISTRACTION_TITLE_PATTERNS); [done|]|].
  all: destruct (Hm WORK_PROCESSES) as [(?&?&-> & ->)|[-> ->]]; [done|].
  all: by destruct (Hm COMMUNICATION_PROCESSES) as [(?&?&-> & ->)|[-> ->]].
Qed.

(** Substring matching misplaces two common applications: "msteams" contains
    "steam", and "google chrome" contains "go". *)
Lemma misplaced_applications order title : (forall l, order l ≡ₚ l) ->
  activity_type (classify order (Some (MkWindow "MSTeams" title))) = DISTRACTION /\
  activity_type (classify order (Some (MkWindow "Google Chrome" "Inbox"))) = WORK.
Proof.
  intros Hp. rewrite (proj1 (classify_order order id _ Hp)), (proj1 (classify_order order id _ Hp)). split; reflexivity.
Qed.
End Classifier.

(** ** Sessions *)
Module Tracker.
Inductive SessionState := S_IDLE | CONFIRMING_WORK | WORKING | DISTRACTED | RECOVERING.
#[export] Instance SessionState_eq_dec : EqDecision SessionState.
Proof. solve_decision. Defined.

(** The metadata of an event, by the kind of event that carries it *)
Inductive event_metadata :=
| NoMetadata
| DistractionMetadata (elapsed_distracted : Z) (distraction_category : string)
| RecoveryMetadata (recovery : Z)
| EndMetadata (duration focused : Z) (focus_score : Q)
| SwitchMetadata (from_app : string) (from_type : ActivityType) (to_app : string) (to_type : ActivityType)
| HeartbeatMetadata (state : SessionState).
Record SessionEvent := MkEvent {
  signal_type : string; ev_session : string; ev_timestamp : string; ev_app : string; ev_title : string;
  ev_activity : ActivityType; ev_metadata : event_metadata
}.

Record tracker_config := MkTrackerConfig {
  confirmation_delay : Z; distraction_timeout : Z; recovery_delay : Z; heartbeat_interval : Z
}.
Record tracker := MkTracker {
  tr_state : SessionState; tr_session_id : string; tr_session_start : option Z; tr_state_since : Z;
  tr_focused : Z; tr_total : Z; tr_last_heartbeat : option Z; tr_last_result : option ClassificationResult
}.
(** [SessionTracker.__init__] at the instant [now] *)
Definition tracker_init (now : Z) : tracker := MkTracker S_IDLE "" None now 0 0 None None.

Section tracker.
Context `{IsoCodec}.
Variable cfg : tracker_config.
Implicit Types (t : tracker) (r : ClassificationResult) (now elapsed : Z).

(** [_make_event] *)
Definition make_event t (signal : string) r now (metadata : event_metadata) : SessionEvent :=
  MkEvent signal (tr_session_id t) (isoformat (utc_datetime now)) (app_name r) (window_title r) (activity_type r) metadata.

(** [_transition_to] *)
Definition transition_to (s : SessionState) now t : tracker :=
  MkTracker s (tr_session_id t) (tr_session_start t) now (tr_focused t) (tr_total t) (tr_last_heartbeat t) (tr_last_result t).

(** [_close_session] *)
Definition close_session t r now : tracker * list SessionEvent :=
  match tr_session_start t with
  | Some start =>
      if truthy (tr_session_id t) then
        let duration := now - start in
        let focus_score := if bool_decide (0 < duration) then tr_focused t # Z.to_pos duration else 0%Q in
        (MkTracker (tr_state t) "" None (tr_state_since t) 0 0 (tr_last_heartbeat t) (tr_last_result t),
         [make_event t "session_ended" r now (EndMetadata duration (tr_focused t) focus_score)])
      else (t, [])
  | None => (t, [])
  end.

(** Closing the session and going idle, the first branch of three handlers *)
Definition go_idle t r now : tracker * list SessionEvent :=
  let (t', events) := close_session t r now in (transition_to S_IDLE now t', events).

(** [_handle_idle] *)
Definition handle_idle t r now : tracker * list SessionEvent :=
  (if bool_decide (activity_type r = WORK) then transition_to CONFIRMING_WORK now t else t, []).

(** [_handle_confirming_work]; [fresh] is what [uuid.uuid4()] draws *)
Definition handle_confirming_work t r elapsed now (fresh : UUID) : tracker * list SessionEvent :=
  if bool_decide (activity_type r <> WORK) then (transition_to S_IDLE now t, [])
  else if bool_decide (confirmation_delay cfg <= elapsed) then
    let t' := transition_to WORKING now
      (MkTracker (tr_state t) (uuid_to_string fresh) (Some now) (tr_state_since t) 0 0 (Some now) (tr_last_result t)) in
    (t', [make_event t' "session_started" r now NoMetadata])
  else (t, []).

Definition distracting (a : ActivityType) : bool := bool_decide (a = DISTRACTION) || bool_decide (a = COMMUNICATION).

(** [_handle_working] *)
Definition handle_working t r elapsed now : tracker * list SessionEvent :=
  if bool_decide (activity_type r = IDLE) then go_idle t r now
  else if distracting (activity_type r) then
    if bool_decide (distraction_timeout cfg <= elapsed) then
      (transition_to DISTRACTED now t,
       [make_event t "distraction_detected" r now (DistractionMetadata elapsed (matched_rule r))])
    else (t, [])
  else (MkTracker (tr_state t) (tr_session_id t) (tr_session_start t) (tr_state_since t) (tr_focused t + elapsed)
          (tr_total t + elapsed) (tr_last_heartbeat t) (tr_last_result t), []).

(** [_handle_distracted] *)
Definition handle_distracted t r now : tracker * list SessionEvent :=
  if bool_decide (activity_type r = IDLE) then go_idle t r now
  else (if bool_decide (activity_type r = WORK) then transition_to RECOVERING now t else t, []).

(** [_handle_recovering] *)
Definition handle_recovering t r elapsed now : tracker * list SessionEvent :=
  if bool_decide (activity_type r = IDLE) then go_idle t r now
  else if distracting (activity_type r) then (transition_to DISTRACTED now t, [])
  else if bool_decide (activity_type r = WORK) && bool_decide (recovery_delay cfg <= elapsed) then
    (transition_to WORKING now t, [make_event t "focus_achieved" r now (RecoveryMetadata elapsed)])
  else (t, []).

(** [_check_context_switch] *)
Definition in_session (s : SessionState) : bool :=
  match s with WORKING | DISTRACTED | RECOVERING => true | _ => false end.
Definition check_context_switch t r now : list SessionEvent :=
  match tr_last_result t with
  | Some last =>
      if in_session (tr_state t) && negb (bool_decide (activity_type r = activity_type last)) && negb (bool_decide (app_name r = app_name last))
      then [make_event t "context_switch" r now (SwitchMetadata (app_name last) (activity_type last) (app_name r) (activity_type r))]
      else []
  | None => []
  end.

(** [_maybe_heartbeat] *)
Definition maybe_heartbeat t r now : tracker * list SessionEvent :=
  match tr_state t, tr_last_heartbeat t with
  | (WORKING | DISTRACTED), Some last =>
      if bool_decide (heartbeat_interval cfg <= now - last) then
        (MkTracker (tr_state t) (tr_session_id t) (tr_session_start t) (tr_state_since t) (tr_focused t) (tr_total t) (Some now) (tr_last_result t),
         [make_event t "heartbeat" r now (HeartbeatMetadata (tr_state t))])
      else (t, [])
  | _, _ => (t, [])
  end.

(** [update] *)
Definition handle t r elapsed now (fresh : UUID) : tracker * list SessionEvent :=
  match tr_state t with
  | S_IDLE => handle_idle t r now
  | CONFIRMING_WORK => handle_confirming_work t r elapsed now fresh
  | WORKING => handle_working t r elapsed now
  | DISTRACTED => handle_distracted t r now
  | RECOVERING => handle_recovering t r elapsed now
  end.
Definition set_last_result (r : ClassificationResult) t : tracker :=
  MkTracker (tr_state t) (tr_session_id t) (tr_session_start t) (tr_state_since t) (tr_focused t) (tr_total t) (tr_last_heartbeat t) (Some r).
Definition update t r now (fresh : UUID) : tracker * list SessionEvent :=
  let switch := check_context_switch t r now in
  let (t1, events) := handle t r (now - tr_state_since t) now fresh in
  let (t2, beat) := maybe_heartbeat t1 r now in
  (set_last_result r t2, switch ++ events ++ beat).

(** The samples of a run of the watcher, each with its instant and the identifier
    that would be drawn *)
Definition sample := (ClassificationResult * Z * UUID)%type.
Fixpoint updates t (l : list sample) : tracker * list SessionEvent :=
  match l with
  | [] => (t, [])
  | (r, now, fresh) :: l' =>
      let (t', events) := update t r now fresh in
      let (t'', rest) := updates t' l' in (t'', events ++ rest)
  end.
End tracker.

(** *** The session protocol

    What a receiver of the events may rely on: a session is opened by
    [session_started], every event until its end carries its identifier, and
    [session_ended] closes it and reports the time since it was opened. *)
Section protocol.
Context `{IsoCodec}.

Definition session := option (string * Z).
Inductive session_step : session -> SessionEvent -> session -> Prop :=
| step_started e sid t : signal_type e = "session_started" -> ev_session e = sid -> sid <> "" ->
    ev_timestamp e = isoformat (utc_datetime t) -> session_step None e (Some (sid, t))
| step_inside e sid t : signal_type e ∈ ["distraction_detected"; "focus_achieved"; "context_switch"; "heartbeat"] ->
    ev_session e = sid -> session_step (Some (sid, t)) e (Some (sid, t))
| step_ended e sid t t' focused score : signal_type e = "session_ended" -> ev_session e = sid ->
    ev_timestamp e = isoformat (utc_datetime t') -> ev_metadata e = EndMetadata (t' - t) focused score ->
    session_step (Some (sid, t)) e None.
Inductive session_steps : session -> list SessionEvent -> session -> Prop :=
| steps_nil s : session_steps s [] s
| steps_cons s e s' l s'' : session_step s e s' -> session_steps s' l s'' -> session_steps s (e :: l) s''.

Lemma session_steps_app s l s' l' s'' : session_steps s l s' -> session_steps s' l' s'' -> session_steps s (l ++ l') s''.
Proof. induction 1; [done|]. intros. cbn. econstructor; eauto. Qed.
Lemma session_steps_one s e s' : session_step s e s' -> session_steps s [e] s'.
Proof. intros. econstructor; [done|constructor]. Qed.

(** The session a tracker is in, and its well-formedness *)
Definition session_of (t : tracker) : session :=
  match tr_session_start t with Some start => Some (tr_session_id t, start) | None => None end.
Definition tracker_ok (t : tracker) : Prop :=
  if in_session (tr_state t) then tr_session_id t <> "" /\ is_Some (tr_session_start t) /\ is_Some (tr_last_heartbeat t)
  else tr_session_id t = "" /\ tr_session_start t = None.

Implicit Types (t : tracker) (cfg : tracker_config).

Lemma uuid_text_nonempty u : uuid_to_string u <> "".
Proof. unfold uuid_to_string. generalize (hex_digits 32 (uuid_int u) ""). intros h. by destruct (String.substring 0 8 h). Qed.

Lemma session_inside t signal r now m : tracker_ok t -> in_session (tr_state t) = true ->
  signal ∈ ["distraction_detected"; "focus_achieved"; "context_switch"; "heartbeat"] ->
  session_step (session_of t) (make_event t signal r now m) (session_of t).
Proof. unfold tracker_ok. intros Hok Hin Hs. rewrite Hin in Hok. destruct Hok as (_&[s Hs']&_). unfold session_of. rewrite Hs'. by apply step_inside. Qed.

Lemma check_context_switch_ok t r now : tracker_ok t -> session_steps (session_of t) (check_context_switch t r now) (session_of t).
Proof.
  intros Hok. unfold check_context_switch. destruct (tr_last_result t); [|constructor].
  destruct (in_session (tr_state t)) eqn:Hin; cbn [andb]; [|constructor]. case_match; [|constructor].
  apply session_steps_one, session_inside; [done..|set_solver].
Qed.

Lemma go_idle_ok t r now : tracker_ok t -> in_session (tr_state t) = true ->
  session_steps (session_of t) (go_idle t r now).2 (session_of (go_idle t r now).1) /\ tracker_ok (go_idle t r now).1.
Proof.
  unfold tracker_ok. intros Hok Hin. rewrite Hin in Hok. destruct Hok as (Hs&[start Hst]&_).
  unfold go_idle, close_session, session_of. rewrite Hst. destruct (truthy (tr_session_id t)) eqn:Htr; [|by destruct (tr_session_id t)].
  cbn. split; [|done]. apply session_steps_one. by eapply step_ended.
Qed.

Lemma handle_ok cfg t r elapsed now fresh : tracker_ok t ->
  session_steps (session_of t) (handle cfg t r elapsed now fresh).2 (session_of (handle cfg t r elapsed now fresh).1) /\
  tracker_ok (handle cfg t r elapsed now fresh).1.
Proof.
  intros Hok. pose proof (go_idle_ok t r now Hok) as Hgo.
  assert (session_steps (session_of t) [] (session_of t)) as Hnil by constructor.
  unfold handle. destruct (tr_state t) eqn:Hst.
  - unfold handle_idle. unfold tracker_ok in Hok |- *. rewrite Hst in Hok. cbn in *. case_match; cbn; [done|by rewrite Hst].
  - unfold handle_confirming_work. unfold tracker_ok in Hok. rewrite Hst in Hok. destruct Hok as [Hs Hn].
    repeat case_match; cbn; unfold tracker_ok; cbn; rewrite ?Hst; try done.
    split; [|split; [apply uuid_text_nonempty|by eauto]]. unfold session_of. rewrite Hn. cbn.
    apply session_steps_one. by apply step_started; [..|apply uuid_text_nonempty|].
  - unfold handle_working. case_match; [by apply Hgo|].
    repeat case_match; (split; [|unfold tracker_ok in Hok |- *; rewrite Hst in Hok; cbn; by rewrite ?Hst]); try done.
    refine (session_steps_one _ _ _ (session_inside t _ r now _ Hok _ _)); [by rewrite Hst|set_solver].
  - unfold handle_distracted. case_match; [by apply Hgo|].
    destruct (bool_decide (activity_type r = WORK)); (split; [done|]); [|done]. unfold tracker_ok in Hok |- *. by rewrite Hst in Hok.
  - unfold handle_recovering. case_match; [by apply Hgo|].
    repeat case_match; (split; [|unfold tracker_ok in Hok |- *; rewrite Hst in Hok; cbn; by rewrite ?Hst]); try done.
    refine (session_steps_one _ _ _ (session_inside t _ r now _ Hok _ _)); [by rewrite Hst|set_solver].
Qed.

Lemma maybe_heartbeat_ok cfg t r now : tracker_ok t ->
  session_steps (session_of t) (maybe_heartbeat cfg t r now).2 (session_of (maybe_heartbeat cfg t r now).1) /\
  tracker_ok (maybe_heartbeat cfg t r now).1.
Proof.
  intros Hok. assert (session_steps (session_of t) [] (session_of t)) as Hnil by constructor.
  unfold maybe_heartbeat. destruct (tr_state t) eqn:Hst, (tr_last_heartbeat t) eqn:Hb; try done; case_match; try done.
  all: split; [refine (session_steps_one _ _ _ (session_inside t _ r now _ Hok _ _)); [by rewrite Hst|set_solver]|].
  all: unfold tracker_ok in Hok |- *; rewrite Hst in Hok; cbn in *; rewrite ?Hst; naive_solver.
Qed.

Lemma update_ok cfg t r now fresh : tracker_ok t ->
  session_steps (session_of t) (update cfg t r now fresh).2 (session_of (update cfg t r now fresh).1) /\
  tracker_ok (update cfg t r now fresh).1.
Proof.
  intros Hok. pose proof (check_context_switch_ok t r now Hok) as H0. unfold update.
  pose proof (handle_ok cfg t r (now - tr_state_since t) now fresh Hok) as [H1 Hok1].
  destruct (handle cfg t r _ now fresh) as [t1 ev]. cbn in *.
  pose proof (maybe_heartbeat_ok cfg t1 r now Hok1) as [H2 Hok2]. destruct (maybe_heartbeat cfg t1 r now) as [t2 beat]. cbn in *.
  split; [|by unfold tracker_ok in *]. eapply session_steps_app; [done|]. by eapply session_steps_app.
Qed.

Lemma updates_ok cfg t l : tracker_ok t ->
  session_steps (session_of t) (updates cfg t l).2 (session_of (updates cfg t l).1) /\ tracker_ok (updates cfg t l).1.
Proof.
  revert t. induction l as [|[[r now] fresh] l IH]; intros t Hok; [split; [constructor|done]|]. cbn.
  pose proof (update_ok cfg t r now fresh Hok) as [H1 Hok1]. destruct (update cfg t r now fresh) as [t' ev].
  destruct (IH t' Hok1) as [H2 Hok2]. destruct (updates cfg t' l) as [t'' rest]. cbn in *. split; [|done]. by eapply session_steps_app.
Qed.

(** C30: the events of the tracker follow the session protocol.  Whatever is
    sampled, and whenever, the events of a run split into sessions: each is opened
    by one [session_started] with a non-empty identifier, carries that identifier
    in every event until [session_ended], and that event reports the time since the
    session was opened; no event falls outside a session. *)
Theorem tracker_refines_protocol cfg (t0 : Z) l :
  session_steps None (updates cfg (tracker_init t0) l).2 (session_of (updates cfg (tracker_init t0) l).1).
Proof. by apply (updates_ok cfg (tracker_init t0) l). Qed.
End protocol.

(** *** Times *)
Section times.
Context `{IsoCodec}.
Variable cfg : tracker_config.
Implicit Types (t : tracker) (l : list sample).

Definition sample_work (s : sample) : Prop := activity_type s.1.1 = WORK.
(** While work is being confirmed, every sample since the state was entered was work. *)
Definition confirming (l : list sample) t : Prop :=
  tr_state t = CONFIRMING_WORK ->
  exists pre s suf, l = pre ++ s :: suf /\ Forall sample_work (s :: suf) /\ s.1.2 = tr_state_since t.

Lemma maybe_heartbeat_state t r now :
  tr_state (maybe_heartbeat cfg t r now).1 = tr_state t /\ tr_state_since (maybe_heartbeat cfg t r now).1 = tr_state_since t.
Proof. unfold maybe_heartbeat. destruct (tr_state t) eqn:Hs, (tr_last_heartbeat t); repeat case_match; done. Qed.
Lemma update_state t r now fresh : let t1 := (handle cfg t r (now - tr_state_since t) now fresh).1 in
  tr_state (update cfg t r now fresh).1 = tr_state t1 /\ tr_state_since (update cfg t r now fresh).1 = tr_state_since t1.
Proof.
  intros t1. unfold update. fold t1. destruct (handle _ _ _ _ _ _) as [t1' ev]. subst t1. cbn.
  pose proof (maybe_heartbeat_state t1' r now). by destruct (maybe_heartbeat cfg t1' r now).
Qed.

Lemma go_idle_state t r now : tr_state (go_idle t r now).1 = S_IDLE.
Proof. unfold go_idle. by destruct (close_session t r now). Qed.

Lemma update_confirming l t r now fresh : confirming l t -> confirming (l ++ [(r, now, fresh)]) (update cfg t r now fresh).1.
Proof.
  intros Hc. unfold confirming. destruct (update_state t r now fresh) as [-> ->]. unfold handle. destruct (tr_state t) eqn:Hst.
  - unfold handle_idle. case_bool_decide as Hw; cbn; [|by rewrite Hst]. intros _. exists l, (r, now, fresh), [].
    split_and!; [done|by repeat constructor|done].
  - unfold handle_confirming_work. case_bool_decide as Hw; [done|]. case_bool_decide; [done|]. intros _.
    destruct (Hc Hst) as (pre&s&suf&->&Hall&Hs). exists pre, s, (suf ++ [(r, now, fresh)]). split_and!; [by rewrite <- app_assoc| |done].
    rewrite app_comm_cons. apply Forall_app. split; [done|]. repeat constructor. by destruct (decide (activity_type r = WORK)).
  - unfold handle_working. repeat case_match; cbn; rewrite ?go_idle_state, ?Hst; done.
  - unfold handle_distracted. repeat case_match; cbn; rewrite ?go_idle_state, ?Hst; done.
  - unfold handle_recovering. repeat case_match; cbn; rewrite ?go_idle_state, ?Hst; done.
Qed.

Lemma updates_app t l l' : updates cfg t (l ++ l') =
  let (t', ev) := updates cfg t l in let (t'', ev') := updates cfg t' l' in (t'', ev ++ ev').
Proof.
  revert t. induction l as [|[[r now] fresh] l IH]; intros t; cbn.
  - by destruct (updates cfg t l').
  - destruct (update cfg t r now fresh) as [t' ev]. rewrite IH. destruct (updates cfg t' l) as [t1 ev1].
    destruct (updates cfg t1 l') as [t2 ev2]. by rewrite app_assoc.
Qed.
Lemma updates_snoc t l r now fresh : updates cfg t (l ++ [(r, now, fresh)]) =
  let t' := (updates cfg t l).1 in ((update cfg t' r now fresh).1, (updates cfg t l).2 ++ (update cfg t' r now fresh).2).
Proof. rewrite updates_app. destruct (updates cfg t l) as [t' ev]. cbn. destruct (update cfg t' r now fresh). cbn. by rewrite app_nil_r. Qed.

Lemma updates_confirming (t0 : Z) l : confirming l (updates cfg (tracker_init t0) l).1.
Proof.
  induction l as [|[[r now] fresh] l IH] using rev_ind; [done|]. rewrite updates_snoc. by apply update_confirming.
Qed.

(** Only confirmed work opens a session. *)
Lemma started_inv t r now fresh e : e ∈ (update cfg t r now fresh).2 -> signal_type e = "session_started" ->
  tr_state t = CONFIRMING_WORK /\ activity_type r = WORK /\ confirmation_delay cfg <= now - tr_state_since t.
Proof.
  unfold update. intros He Hs.
  destruct (handle cfg t r _ now fresh) as [t1 ev] eqn:Hh. destruct (maybe_heartbeat cfg t1 r now) as [t2 beat] eqn:Hb. cbn in He.
  apply elem_of_app in He as [He|[He|He]%elem_of_app].
  - unfold check_context_switch in He. repeat case_match; set_solver.
  - unfold handle in Hh. destruct (tr_state t).
    + injection Hh as <- <-. set_solver.
    + unfold handle_confirming_work in Hh. case_bool_decide as H1; [injection Hh as <- <-; set_solver|].
      case_bool_decide as H2; [|injection Hh as <- <-; set_solver]. split; [done|]. split; [|done]. by destruct (decide (activity_type r = WORK)).
    + unfold handle_working, go_idle, close_session in Hh. repeat case_match; simplify_eq; set_solver.
    + unfold handle_distracted, go_idle, close_session in Hh. repeat case_match; simplify_eq; set_solver.
    + unfold handle_recovering, go_idle, close_session in Hh. repeat case_match; simplify_eq; set_solver.
  - unfold maybe_heartbeat in Hb. repeat case_match; simplify_eq; set_solver.
Qed.

(** only sustained work opens a session.  When the last sample of a run makes
    the tracker emit [session_started], the run ends with samples that are all work
    and that span at least the confirmation delay. *)
Theorem session_needs_sustained_work (t0 : Z) l r now fresh e :
  e ∈ (update cfg (updates cfg (tracker_init t0) l).1 r now fresh).2 -> signal_type e = "session_started" ->
  exists pre s suf, l = pre ++ s :: suf /\ Forall sample_work (s :: suf ++ [(r, now, fresh)]) /\
    confirmation_delay cfg <= now - s.1.2.
Proof.
  intros He Hs. destruct (started_inv _ _ _ _ _ He Hs) as (Hst&Hw&Hd).
  destruct (updates_confirming t0 l Hst) as (pre&s&suf&Hl&Hall&Ht). exists pre, s, suf. split; [done|]. rewrite Ht. split; [|done].
  rewrite app_comm_cons. apply Forall_app. split; [done|]. by repeat constructor.
Qed.

(** [n] samples, one every [d], from the instant [s] on *)
Definition samples (r : ClassificationResult) (fresh : UUID) (s d : Z) (n : nat) : list sample :=
  map (fun k => (r, s + Z.of_nat k * d, fresh)) (List.seq 1 n).

(** A tracker at work since [s], in a session that began then *)
Definition at_work (s focused : Z) (sid : string) t : Prop :=
  tr_state t = WORKING /\ tr_state_since t = s /\ tr_session_start t = Some s /\ tr_session_id t = sid /\ tr_focused t = focused.

Lemma update_at_work s f sid t r now fresh : at_work s f sid t -> activity_type r = WORK ->
  at_work s (f + (now - s)) sid (update cfg t r now fresh).1.
Proof.
  destruct t as [st sid' ss since f' tot hb lr]. intros (Hst&Hs&Hss&Hsid&Hf) Hw. cbn in *. subst.
  unfold update, handle, handle_working. rewrite Hw.
  change (bool_decide (WORK = IDLE)) with false. change (distracting WORK) with false. cbn. unfold maybe_heartbeat. cbn.
  destruct hb; [case_bool_decide|]; by repeat split.
Qed.

Lemma updates_at_work s sid t r fresh d n : at_work s 0 sid t -> activity_type r = WORK ->
  exists f, at_work s f sid (updates cfg t (samples r fresh s d n)).1 /\ 2 * f = d * Z.of_nat n * (Z.of_nat n + 1).
Proof.
  intros Ht Hr. induction n as [|n [f [Hf Heq]]]; [exists 0; split; [done|lia]|].
  unfold samples in *. rewrite List.seq_S, map_app. cbn [map]. rewrite updates_snoc. eexists. split; [by apply update_at_work|].
  rewrite Nat2Z.inj_succ. lia.
Qed.

Lemma update_idle_at_work s f sid t r now fresh : at_work s f sid t -> sid <> "" -> activity_type r = IDLE ->
  exists e, last (update cfg t r now fresh).2 = Some e /\ signal_type e = "session_ended" /\
    ev_metadata e = EndMetadata (now - s) f (if bool_decide (0 < now - s) then f # Z.to_pos (now - s) else 0%Q).
Proof.
  intros (Hst&Hs&Hss&Hsid&Hf) Hne Hr. unfold update, handle, handle_working. rewrite Hst, Hr.
  change (bool_decide (IDLE = IDLE)) with true. cbn. unfold go_idle, close_session. rewrite Hss.
  destruct (truthy (tr_session_id t)) eqn:Htr; [|rewrite Hsid in Htr; by destruct sid]. cbn. rewrite last_app. cbn.
  eexists. split; [done|]. cbn. by rewrite Hf.
Qed.

Lemma work_opens_session (t0 t1 t2 : Z) w fresh : activity_type w = WORK -> confirmation_delay cfg <= t2 - t1 ->
  at_work t2 0 (uuid_to_string fresh) (updates cfg (tracker_init t0) [(w, t1, fresh); (w, t2, fresh)]).1.
Proof.
  intros Hw Hd. cbn. unfold update. cbn. unfold handle_idle. rewrite Hw. change (bool_decide (WORK = WORK)) with true. cbn.
  unfold handle_confirming_work. rewrite Hw. change (bool_decide (WORK <> WORK)) with false. cbn. rewrite bool_decide_true by done. cbn.
  unfold maybe_heartbeat. cbn. by case_bool_decide.
Qed.

(** focus time is counted more than once.  Each sample of work adds the time
    since the state was entered, not since the last sample: a session of [n] samples
    of work, one every [d], closed by an idle sample, lasted [(n + 1) d] and reports
    [n (n + 1) d / 2] of focus, a score of [n / 2] where 1 is the most it means. *)
Theorem focus_time_overcounted (t0 t1 t2 : Z) w idle fresh d n :
  activity_type w = WORK -> activity_type idle = IDLE -> confirmation_delay cfg <= t2 - t1 -> 0 < d ->
  exists e focused score,
    last (updates cfg (tracker_init t0) ([(w, t1, fresh); (w, t2, fresh)] ++ samples w fresh t2 d n ++
      [(idle, t2 + (Z.of_nat n + 1) * d, fresh)])).2 = Some e /\
    signal_type e = "session_ended" /\ ev_metadata e = EndMetadata ((Z.of_nat n + 1) * d) focused score /\
    2 * focused = d * Z.of_nat n * (Z.of_nat n + 1) /\ Qeq score (Z.of_nat n # 2).
Proof.
  intros Hw Hi Hd Hpos. pose proof (work_opens_session t0 t1 t2 w fresh Hw Hd) as H0. rewrite app_assoc, updates_snoc, updates_app.
  destruct (updates cfg (tracker_init t0) _) as [t ev]. cbn [fst] in H0.
  destruct (updates_at_work t2 (uuid_to_string fresh) t w fresh d n H0 Hw) as (f&Hf&Heq).
  destruct (updates cfg t (samples w fresh t2 d n)) as [t' ev']. cbn [fst] in Hf. cbn [fst snd].
  destruct (update_idle_at_work _ _ _ _ idle (t2 + (Z.of_nat n + 1) * d) fresh Hf (uuid_text_nonempty fresh) Hi) as (e&He&Hs&Hm).
  replace (t2 + (Z.of_nat n + 1) * d - t2) with ((Z.of_nat n + 1) * d) in Hm by ring.
  rewrite bool_decide_true in Hm by nia.
  eexists e, f, _. split; [rewrite last_app, He; done|]. split_and!; [done|exact Hm|done|].
  unfold Qeq. cbn [Qnum Qden]. rewrite Z2Pos.id by nia. lia.
Qed.

(** the distraction timeout is not measured from the distraction.  It is
    measured from the start of work: after work for as long as the timeout, the
    first sample of communication or distraction is reported as a distraction, with
    the time at work as its duration. *)
Theorem distraction_timed_from_work (t0 t1 t2 : Z) w r fresh d n :
  activity_type w = WORK -> distracting (activity_type r) = true -> confirmation_delay cfg <= t2 - t1 -> 0 < d ->
  distraction_timeout cfg <= (Z.of_nat n + 1) * d ->
  let (t, events) := updates cfg (tracker_init t0) ([(w, t1, fresh); (w, t2, fresh)] ++ samples w fresh t2 d n ++
      [(r, t2 + (Z.of_nat n + 1) * d, fresh)]) in
  tr_state t = DISTRACTED /\
  exists e, e ∈ events /\ signal_type e = "distraction_detected" /\
    ev_metadata e = DistractionMetadata ((Z.of_nat n + 1) * d) (matched_rule r).
Proof.
  intros Hw Hr Hd Hpos Ht. pose proof (work_opens_session t0 t1 t2 w fresh Hw Hd) as H0. rewrite app_assoc, updates_snoc, updates_app.
  destruct (updates cfg (tracker_init t0) _) as [t ev]. cbn [fst] in H0.
  destruct (updates_at_work t2 (uuid_to_string fresh) t w fresh d n H0 Hw) as (f&Hf&_).
  destruct (updates cfg t (samples w fresh t2 d n)) as [t' ev']. cbn [fst] in Hf. cbn [fst snd].
  destruct (update_state t' r (t2 + (Z.of_nat n + 1) * d) fresh) as [-> _]. destruct Hf as (Hst&Hs&_). unfold update, handle, handle_working.
  rewrite Hst, Hs, Hr. replace (t2 + (Z.of_nat n + 1) * d - t2) with ((Z.of_nat n + 1) * d) by ring.
  rewrite bool_decide_false by (intros Hi; by rewrite Hi in Hr). rewrite bool_decide_true by done. split; [done|].
  destruct (maybe_heartbeat cfg (transition_to DISTRACTED _ t') _ _) as [t3 beat]. cbn [fst snd].
  exists (make_event t' "distraction_detected" r (t2 + (Z.of_nat n + 1) * d) (DistractionMetadata ((Z.of_nat n + 1) * d) (matched_rule r))).
  split; [set_solver|done].
Qed.
End times.

(** Witnesses: work sampled every 5 seconds with the default configuration *)
Definition seconds (n : Z) : Z := n * 1000000.
Definition default_config : tracker_config := MkTrackerConfig (seconds 30) (seconds 60) (seconds 30) (seconds 300).
Definition demo_result (a : ActivityType) : ClassificationResult := MkResult a 90 "rule" "app" "title".

Lemma session_needs_sustained_work_witness :
  exists pre s suf, [(demo_result WORK, 0, MkUUID 1)] = pre ++ s :: suf /\
    Forall sample_work (s :: suf ++ [(demo_result WORK, seconds 30, MkUUID 1)]) /\
    confirmation_delay default_config <= seconds 30 - s.1.2.
Proof.
  apply (session_needs_sustained_work default_config 0 [(demo_result WORK, 0, MkUUID 1)] (demo_result WORK) (seconds 30) (MkUUID 1)
    (MkEvent "session_started" (uuid_to_string (MkUUID 1)) (isoformat (utc_datetime (seconds 30))) "app" "title" WORK NoMetadata)).
  - left.
  - reflexivity.
Defined.

Lemma focus_time_overcounted_witness :
  exists e focused score,
    last (updates default_config (tracker_init 0) ([(demo_result WORK, 0, MkUUID 1); (demo_result WORK, seconds 30, MkUUID 1)] ++
      samples (demo_result WORK) (MkUUID 1) (seconds 30) (seconds 5) 9 ++
      [(demo_result IDLE, seconds 30 + 10 * seconds 5, MkUUID 1)])).2 = Some e /\
    signal_type e = "session_ended" /\ ev_metadata e = EndMetadata (seconds 50) focused score /\
    2 * focused = 2 * seconds 225 /\ Qeq score (9 # 2).
Proof.
  apply (focus_time_overcounted default_config 0 0 (seconds 30) (demo_result WORK) (demo_result IDLE) (MkUUID 1) (seconds 5) 9).
  - reflexivity.
  - reflexivity.
  - vm_compute. discriminate.
  - reflexivity.
Defined.

Lemma distraction_timed_from_work_witness :
  tr_state (updates default_config (tracker_init 0) ([(demo_result WORK, 0, MkUUID 1); (demo_result WORK, seconds 30, MkUUID 1)] ++
      samples (demo_result WORK) (MkUUID 1) (seconds 30) (seconds 5) 11 ++
      [(demo_result COMMUNICATION, seconds 30 + 12 * seconds 5, MkUUID 1)])).1 = DISTRACTED.
Proof.
  pose proof (distraction_timed_from_work default_config 0 0 (seconds 30) (demo_result WORK) (demo_result COMMUNICATION) (MkUUID 1) (seconds 5) 11
    eq_refl eq_refl ltac:(vm_compute; discriminate) eq_refl ltac:(vm_compute; discriminate)) as H.
  cbv beta in H. change (Z.of_nat 11 + 1) with 12 in H.
  destruct (updates default_config _ _) as [t ev]. exact (proj1 H).
Defined.
End Tracker.
