(* ===== verification/WatcherDelivery.v ===== *)
(** * The desktop watcher: delivery of its events ([AINDY/watcher], [AINDY/routes/watcher_router.py])

    The emitter buffers events and posts them in batches
    ([watcher/signal_emitter.py]); the main loop samples, classifies, tracks and
    emits ([watcher/watcher.py]); the API validates what it receives
    ([routes/watcher_router.py], [watcher/constants.py]).  Main loop and flush
    thread interleave at the points where the emitter's lock is released. *)
From S2P Require Import Prelude PyDatetime PyUuid Watcher.
Import Classifier Tracker.
Local Open Scope Z_scope.

(** ** Configuration ([watcher/config.py]) *)
Record WatcherConfig := MkConfig {
  wc_api_url : string; wc_api_key : string; wc_poll_interval : Z; wc_batch_size : Z; wc_tracker : tracker_config; wc_dry_run : bool
}.
Definition validate (c : WatcherConfig) : list string :=
  (if truthy (wc_api_url c) then [] else ["AINDY_WATCHER_API_URL is required"]) ++
  (if negb (wc_dry_run c) && negb (truthy (wc_api_key c)) then ["AINDY_API_KEY is required when DRY_RUN is false"] else []) ++
  (if bool_decide (wc_poll_interval c < seconds 1) then ["AINDY_WATCHER_POLL_INTERVAL must be >= 1 second"] else []) ++
  (if bool_decide (wc_batch_size c < 1) then ["AINDY_WATCHER_BATCH_SIZE must be >= 1"] else []) ++
  (if bool_decide (confirmation_delay (wc_tracker c) < 0) then ["AINDY_WATCHER_CONFIRMATION_DELAY must be >= 0"] else []) ++
  (if bool_decide (distraction_timeout (wc_tracker c) < 0) then ["AINDY_WATCHER_DISTRACTION_TIMEOUT must be >= 0"] else []).

(** ** The receiving side *)
Section server.
Context `{IsoCodec}.

Definition VALID_SIGNAL_TYPES : list string :=
  ["session_started"; "session_ended"; "distraction_detected"; "focus_achieved"; "context_switch"; "heartbeat"].
Definition VALID_ACTIVITY_TYPES : list string := ["work"; "communication"; "distraction"; "idle"; "unknown"].

Definition parse_timestamp (ts : string) : result datetime :=
  match fromisoformat (replace_Z ts) with
  | Some d => Ok (match dt_offset d with None => replace_utc d | Some _ => d end)
  | None => Raise (Exn "ValueError" ("Invalid timestamp: " +:+ py_repr ts))
  end.

(** [SignalPayload] as far as validation reads it *)
Record SignalPayload := MkPayload { sp_signal_type : string; sp_timestamp : string; sp_activity_type : string; sp_user_id : option string }.
(** [asdict] and the JSON encoding of an event; the emitter sends no user *)
Definition asdict (e : SessionEvent) : SignalPayload :=
  MkPayload (signal_type e) (ev_timestamp e) (activity_value (ev_activity e)) None.

Definition http_422 (detail : string) : exn := Exn "HTTPException" ("422: " +:+ detail).
Definition validate_signal (sig : SignalPayload) (idx : nat) : result unit :=
  let at_idx s := "Signal [" +:+ Z_to_string (Z.of_nat idx) +:+ "]: " +:+ s in
  if negb (str_in (sp_signal_type sig) VALID_SIGNAL_TYPES) then
    Raise (http_422 (at_idx ("unknown signal_type " +:+ py_repr (sp_signal_type sig))))
  else if negb (str_in (sp_activity_type sig) VALID_ACTIVITY_TYPES) then
    Raise (http_422 (at_idx ("unknown activity_type " +:+ py_repr (sp_activity_type sig))))
  else match parse_timestamp (sp_timestamp sig) with
       | Raise (Exn _ msg) => Raise (http_422 msg)
       | Ok _ =>
           match str_or_none (sp_user_id sig) with
           | None => Ok tt
           | Some u => match uuid_of_string u with
                       | Some _ => Ok tt
                       | None => Raise (http_422 (at_idx ("invalid user_id " +:+ py_repr u)))
                       end
           end
       end.
Fixpoint validate_signals (idx : nat) (l : list SignalPayload) : result unit :=
  match l with
  | [] => Ok tt
  | sig :: l' => match validate_signal sig idx with Ok _ => validate_signals (S idx) l' | Raise e => Raise e end
  end.

(** The web framework around the handler: authentication, the rate limiter and the
    pipeline, each with the status it refuses a request with, and the flow that
    stores the signals, with the status of its response *)
Record api_services {X : Type} := MkApi {
  api_authenticate : X -> option Z;
  api_limit : X -> X * option Z;
  api_store : list SignalPayload -> X -> X * Z
}.
(** [receive_signals], the status of its response *)
Definition receive_signals {X} (api : api_services (X := X)) (batch : list SignalPayload) (x : X) : X * Z :=
  match api_authenticate api x with
  | Some status => (x, status)
  | None =>
      if (1 <=? length batch)%nat && (length batch <=? 100)%nat then
        match api_limit api x with
        | (x1, Some status) => (x1, status)
        | (x1, None) =>
            match validate_signals 0 batch with
            | Raise _ => (x1, 422)
            | Ok _ => api_store api batch x1
            end
        end
      else (x, 422)
  end.
End server.

(** ** The emitter *)
Record emitter_config := MkEmitter { batch_size : Z; max_queue : Z; dry_run : bool }.
Definition DEFAULT_MAX_QUEUE : Z := 500.
Definition MAX_RETRIES : nat := 3.
Definition RETRY_BASE_DELAY : Z := seconds 1.
(** [_build_emitter] *)
Definition build_emitter (c : WatcherConfig) : emitter_config := MkEmitter (wc_batch_size c) DEFAULT_MAX_QUEUE (wc_dry_run c).

(** [emit]: the queue and the events it lost.  [popleft] of an empty queue raises,
    and the exception is swallowed before the event is appended. *)
Definition emit (ec : emitter_config) (q : list SessionEvent) (e : SessionEvent) : list SessionEvent * list SessionEvent :=
  if bool_decide (max_queue ec <= Z.of_nat (length q)) then
    match q with [] => ([], [e]) | oldest :: q' => (q' ++ [e], [oldest]) end
  else (q ++ [e], []).
Fixpoint emit_many (ec : emitter_config) (q : list SessionEvent) (events : list SessionEvent) : list SessionEvent * list SessionEvent :=
  match events with
  | [] => (q, [])
  | e :: events' => let (q1, lost) := emit ec q e in let (q2, lost') := emit_many ec q1 events' in (q2, lost ++ lost')
  end.

Section emitter.
Context {X : Type} (ec : emitter_config) (post : list SessionEvent -> X -> X * result Z).

(** The loop of [_send_with_retry]: whether an attempt was accepted, and the sleeps *)
Fixpoint post_attempts (left : nat) (delay : Z) (batch : list SessionEvent) (x : X) : X * (bool * list Z) :=
  match left with
  | O => (x, (false, []))
  | S left' =>
      match post batch x with
      | (x1, Ok status) =>
          if bool_decide (status < 400) then (x1, (true, []))
          else if bool_decide (left' = O) then (x1, (false, []))
          else let '(x2, (ok, sleeps)) := post_attempts left' (delay * 2) batch x1 in (x2, (ok, delay :: sleeps))
      | (x1, Raise _) =>
          if bool_decide (left' = O) then (x1, (false, []))
          else let '(x2, (ok, sleeps)) := post_attempts left' (delay * 2) batch x1 in (x2, (ok, delay :: sleeps))
      end
  end.
(** [_send_with_retry]: a dry run only logs the batch *)
Inductive sending := Logged | Sent (sleeps : list Z) | Dropped (sleeps : list Z).
Definition send_with_retry (batch : list SessionEvent) (x : X) : X * sending :=
  if dry_run ec then (x, Logged)
  else let '(x', (ok, sleeps)) := post_attempts MAX_RETRIES RETRY_BASE_DELAY batch x in
       (x', if ok then Sent sleeps else Dropped sleeps).

(** The batch that one pass of [_flush_batch] takes under the lock *)
Definition take_batch (q : list SessionEvent) : list SessionEvent * list SessionEvent :=
  (firstn (Z.to_nat (batch_size ec)) q, skipn (Z.to_nat (batch_size ec)) q).

(** ** The process *)
Record watcher_state := MkWatcher {
  ws_tracker : tracker; ws_queue : list SessionEvent; ws_inflight : option (list SessionEvent); ws_world : X;
  ws_emitted : list SessionEvent; ws_delivered : list SessionEvent; ws_overflow : list SessionEvent; ws_failed : list SessionEvent
}.
Definition watcher_init (now : Z) (x : X) : watcher_state := MkWatcher (tracker_init now) [] None x [] [] [] [].

(** The steps: one round of the main loop of [run], the flush thread taking a
    batch, and the flush thread sending the batch it took *)
Inductive watcher_step := Tick (window : option WindowInfo) (now : Z) (fresh : UUID) | Take | Send.

Definition settle (batch : list SessionEvent) (o : sending) (w : watcher_state) : watcher_state :=
  match o with
  | Logged => w
  | Sent _ => MkWatcher (ws_tracker w) (ws_queue w) (ws_inflight w) (ws_world w) (ws_emitted w) (ws_delivered w ++ batch) (ws_overflow w) (ws_failed w)
  | Dropped _ => MkWatcher (ws_tracker w) (ws_queue w) (ws_inflight w) (ws_world w) (ws_emitted w) (ws_delivered w) (ws_overflow w) (ws_failed w ++ batch)
  end.
Definition send_inflight (w : watcher_state) : watcher_state :=
  match ws_inflight w with
  | None => w
  | Some batch =>
      let (x, o) := send_with_retry batch (ws_world w) in
      settle batch o (MkWatcher (ws_tracker w) (ws_queue w) None x (ws_emitted w) (ws_delivered w) (ws_overflow w) (ws_failed w))
  end.
Definition take_inflight (w : watcher_state) : watcher_state :=
  match ws_inflight w with
  | Some _ => w
  | None =>
      let (batch, q) := take_batch (ws_queue w) in
      match batch with
      | [] => w
      | _ => MkWatcher (ws_tracker w) q (Some batch) (ws_world w) (ws_emitted w) (ws_delivered w) (ws_overflow w) (ws_failed w)
      end
  end.
Context `{IsoCodec} (tc : tracker_config) (order : list string -> list string).
Definition tick (window : option WindowInfo) (now : Z) (fresh : UUID) (w : watcher_state) : watcher_state :=
  let (t, events) := update tc (ws_tracker w) (classify order window) now fresh in
  let (q, lost) := emit_many ec (ws_queue w) events in
  MkWatcher t q (ws_inflight w) (ws_world w) (ws_emitted w ++ events) (ws_delivered w) (ws_overflow w ++ lost) (ws_failed w).
Definition watcher_do (w : watcher_state) (s : watcher_step) : watcher_state :=
  match s with
  | Tick window now fresh => tick window now fresh w
  | Take => take_inflight w
  | Send => send_inflight w
  end.

(** [stop]: the flush thread finishes the batch it holds, then the queue is
    drained; [fuel] bounds the number of batches. *)
Fixpoint drain (fuel : nat) (w : watcher_state) : watcher_state :=
  match fuel with
  | O => w
  | S fuel' => match (take_batch (ws_queue w)).1 with [] => w | _ => drain fuel' (send_inflight (take_inflight w)) end
  end.
Definition stop (w : watcher_state) : watcher_state := let w1 := send_inflight w in drain (length (ws_queue w1)) w1.
Definition run (steps : list watcher_step) (now : Z) (x : X) : watcher_state := stop (foldl watcher_do (watcher_init now x) steps).
End emitter.

(** ** Accounting *)
Lemma sublist_Forall {A} (P : A -> Prop) l k : l `sublist_of` k -> Forall P k -> Forall P l.
Proof. induction 1; [done|intros []%Forall_cons; constructor; auto|intros []%Forall_cons; auto]. Qed.
Lemma sublist_same_length {A} (l k : list A) : l `sublist_of` k -> length l = length k -> l = k.
Proof.
  induction 1 as [|x l k Hlk IH|x l k Hlk _]; cbn; intros Hlen; [done|f_equal; by apply IH; injection Hlen|].
  apply sublist_length in Hlk. lia.
Qed.
Section accounting.
Context {X : Type} (ec : emitter_config) (post : list SessionEvent -> X -> X * result Z).
Context `{IsoCodec} (tc : tracker_config) (order : list string -> list string).
Hypothesis Hreal : dry_run ec = false.
Notation inflight w := (default [] (ws_inflight w)).

(** Every event emitted is delivered, lost, in flight or queued, and what is
    delivered or still to be sent is in the order it was emitted. *)
Record accounted (w : @watcher_state X) : Prop := {
  acc_all : ws_emitted w ≡ₚ ws_delivered w ++ ws_overflow w ++ ws_failed w ++ inflight w ++ ws_queue w;
  acc_order : ws_delivered w ++ inflight w ++ ws_queue w `sublist_of` ws_emitted w;
  acc_session : session_steps None (ws_emitted w) (session_of (ws_tracker w));
  acc_tracker : tracker_ok (ws_tracker w)
}.

Lemma emit_all q e : q ++ [e] ≡ₚ (emit ec q e).2 ++ (emit ec q e).1.
Proof. unfold emit. case_bool_decide; [|done]. by destruct q. Qed.
Lemma emit_order q e : (emit ec q e).1 `sublist_of` q ++ [e].
Proof. unfold emit. case_bool_decide; [|done]. destruct q; cbn; [by do 2 constructor|by constructor]. Qed.
Lemma emit_many_all q l : q ++ l ≡ₚ (emit_many ec q l).2 ++ (emit_many ec q l).1.
Proof.
  revert q. induction l as [|e l IH]; intros q; cbn; [by rewrite app_nil_r|].
  pose proof (emit_all q e) as He. destruct (emit ec q e) as [q1 lost]. cbn in He.
  specialize (IH q1). destruct (emit_many ec q1 l) as [q2 lost']. cbn in *.
  change (e :: l) with ([e] ++ l). rewrite (app_assoc q), He, <- !app_assoc. by rewrite IH.
Qed.
Lemma emit_many_order q l : (emit_many ec q l).1 `sublist_of` q ++ l.
Proof.
  revert q. induction l as [|e l IH]; intros q; cbn; [by rewrite app_nil_r|].
  pose proof (emit_order q e) as He. destruct (emit ec q e) as [q1 lost]. cbn in He.
  specialize (IH q1). destruct (emit_many ec q1 l) as [q2 lost']. cbn in *.
  etrans; [done|]. change (e :: l) with ([e] ++ l). rewrite app_assoc. by apply sublist_app.
Qed.

Lemma tick_accounted window now fresh w : accounted w -> accounted (tick ec tc order window now fresh w).
Proof.
  intros [Ha Ho Hs Ht]. unfold tick.
  destruct (update_ok tc (ws_tracker w) (classify order window) now fresh Ht) as [Hsteps Hok].
  destruct (update tc (ws_tracker w) (classify order window) now fresh) as [t ev]. cbn in Hsteps, Hok.
  pose proof (emit_many_all (ws_queue w) ev) as He. pose proof (emit_many_order (ws_queue w) ev) as Heo.
  destruct (emit_many ec (ws_queue w) ev) as [q lost]. cbn in He, Heo. split; cbn; [..|done].
  - rewrite Ha, <- !app_assoc, He. solve_Permutation.
  - etrans; [|by apply sublist_app; [exact Ho|done]]. rewrite <- !app_assoc. by do 2 (apply sublist_app; [done|]).
  - by eapply session_steps_app.
Qed.

Lemma send_accounted w : accounted w -> accounted (send_inflight ec post w).
Proof.
  intros Hw. pose proof Hw as [Ha Ho Hs Ht]. unfold send_inflight. destruct (ws_inflight w) as [batch|] eqn:Hi; [|done].
  cbn in Ha, Ho. unfold send_with_retry. rewrite Hreal. destruct (post_attempts _ _ _ _ _) as [x [[] sleeps]]; split; cbn; try done.
  - rewrite Ha. solve_Permutation.
  - by rewrite <- app_assoc.
  - rewrite Ha. solve_Permutation.
  - etrans; [|exact Ho]. apply sublist_app; [done|]. by apply sublist_inserts_l.
Qed.
Lemma take_accounted w : accounted w -> accounted (take_inflight ec w).
Proof.
  intros Hw. pose proof Hw as [Ha Ho Hs Ht]. unfold take_inflight. destruct (ws_inflight w) as [batch|] eqn:Hi; [done|].
  unfold take_batch. destruct (take _ (ws_queue w)) as [|e batch] eqn:Hb; [done|]. cbn in Ha, Ho.
  rewrite <- (take_drop (Z.to_nat (batch_size ec)) (ws_queue w)), Hb in Ha, Ho. by split.
Qed.
Lemma watcher_do_accounted w s : accounted w -> accounted (watcher_do ec post tc order w s).
Proof. destruct s; [apply tick_accounted|apply take_accounted|apply send_accounted]. Qed.
Lemma drain_accounted fuel w : accounted w -> accounted (drain ec post fuel w).
Proof.
  revert w. induction fuel as [|fuel IH]; intros w Hw; cbn; [done|]. destruct (take _ _); [done|]. by apply IH, send_accounted, take_accounted.
Qed.
Lemma init_accounted now x : accounted (watcher_init now x).
Proof. split; cbn; [done..|constructor|done]. Qed.
Lemma steps_accounted steps w : accounted w -> accounted (foldl (watcher_do ec post tc order) w steps).
Proof. revert w. induction steps as [|s steps IH]; intros w Hw; cbn; [done|]. by apply IH, watcher_do_accounted. Qed.

(** What [stop] leaves behind *)
Lemma send_idle w : ws_inflight (send_inflight ec post w) = None.
Proof.
  unfold send_inflight. destruct (ws_inflight w) eqn:Hi; [|done]. unfold send_with_retry. destruct (dry_run ec); [done|].
  by destruct (post_attempts _ _ _ _ _) as [x [[] sleeps]].
Qed.
Lemma send_queue w : ws_queue (send_inflight ec post w) = ws_queue w.
Proof.
  unfold send_inflight. destruct (ws_inflight w) eqn:Hi; [|done]. unfold send_with_retry. destruct (dry_run ec); [done|].
  by destruct (post_attempts _ _ _ _ _) as [x [[] sleeps]].
Qed.
Lemma drain_empty fuel w : 1 <= batch_size ec -> (length (ws_queue w) <= fuel)%nat -> ws_inflight w = None ->
  ws_queue (drain ec post fuel w) = [] /\ ws_inflight (drain ec post fuel w) = None.
Proof.
  intros Hb. revert w. induction fuel as [|fuel IH]; intros w Hlen Hi; cbn.
  - by destruct (ws_queue w) eqn:Hq; cbn in Hlen; [|lia].
  - destruct (take _ (ws_queue w)) as [|e batch] eqn:Ht.
    + split; [|done]. destruct (ws_queue w); [done|]. destruct (Z.to_nat (batch_size ec)) eqn:Hz; [lia|done].
    + apply IH; [|apply send_idle]. rewrite send_queue. unfold take_inflight. rewrite Hi. cbn. rewrite Ht. cbn. rewrite length_drop.
      assert (ws_queue w <> []) by (intros Hq; rewrite Hq, take_nil in Ht; done). destruct (ws_queue w); [done|]. cbn in *. lia.
Qed.

Lemma stop_accounted now x steps : 1 <= batch_size ec ->
  let w := run ec post tc order steps now x in
  ws_emitted w ≡ₚ ws_delivered w ++ ws_overflow w ++ ws_failed w /\ ws_delivered w `sublist_of` ws_emitted w /\
  session_steps None (ws_emitted w) (session_of (ws_tracker w)).
Proof.
  intros Hb w. set (w1 := foldl (watcher_do ec post tc order) (watcher_init now x) steps).
  assert (accounted (send_inflight ec post w1)) as Hacc by apply send_accounted, steps_accounted, init_accounted.
  destruct (drain_empty (length (ws_queue (send_inflight ec post w1))) (send_inflight ec post w1) Hb (le_n _) (send_idle w1)) as [Hq Hi].
  destruct (drain_accounted (length (ws_queue (send_inflight ec post w1))) _ Hacc) as [Ha Ho Hs _].
  fold (stop ec post w1) in *. change (stop ec post w1) with w in *. rewrite Hq, Hi in Ha, Ho. cbn in Ha, Ho. rewrite app_nil_r in Ha, Ho. done.
Qed.

(** no event disappears.  Whatever the windows, the times, the interleaving of
    the main loop with the flush thread and the answers of the API, when the watcher
    has stopped every event it emitted was delivered, dropped from a full queue or
    given up after three attempts; what was delivered is in the order in which it was
    emitted, and the emitted events follow the session protocol. *)
Theorem watcher_accounts_events now x steps : 1 <= batch_size ec ->
  let w := run ec post tc order steps now x in
  ws_emitted w ≡ₚ ws_delivered w ++ ws_overflow w ++ ws_failed w /\ ws_delivered w `sublist_of` ws_emitted w /\
  session_steps None (ws_emitted w) (session_of (ws_tracker w)).
Proof. by apply stop_accounted. Qed.
End accounting.

(** ** The watcher and the API *)
Section composition.
Context {X : Type} `{IsoCodec} (api : api_services (X := X)) (ec : emitter_config) (tc : tracker_config) (order : list string -> list string).

(** The POST of a batch *)
Definition post_signals (batch : list SessionEvent) (x : X) : X * result Z :=
  let (x', status) := receive_signals api (map asdict batch) x in (x', Ok status).

Definition valid_event (e : SessionEvent) : Prop :=
  signal_type e ∈ VALID_SIGNAL_TYPES /\ exists t, ev_timestamp e = isoformat (utc_datetime t).

Lemma make_valid t s r now m : s ∈ VALID_SIGNAL_TYPES -> valid_event (make_event t s r now m).
Proof. split; [done|by exists now]. Qed.

Lemma update_valid t r now fresh : Forall valid_event (update tc t r now fresh).2.
Proof.
  assert (forall t s r now m, s ∈ VALID_SIGNAL_TYPES -> Forall valid_event [make_event t s r now m]) as Hone
    by (intros; apply Forall_singleton; by apply make_valid).
  assert (Forall valid_event (go_idle t r now).2) as Hgo.
  { unfold go_idle, close_session. repeat case_match; simplify_eq; try apply Forall_nil_2; apply Hone; set_solver. }
  unfold update. destruct (handle tc t r _ now fresh) as [t1 ev] eqn:Hh. destruct (maybe_heartbeat tc t1 r now) as [t2 beat] eqn:Hb. cbn.
  apply Forall_app. split; [|apply Forall_app; split].
  - unfold check_context_switch. repeat case_match; try apply Forall_nil_2; apply Hone; set_solver.
  - change ev with (t1, ev).2. rewrite <- Hh. unfold handle. destruct (tr_state t).
    + constructor.
    + unfold handle_confirming_work. repeat case_match; try apply Forall_nil_2; apply Hone; set_solver.
    + unfold handle_working. repeat case_match; try done; try apply Forall_nil_2; apply Hone; set_solver.
    + unfold handle_distracted. case_match; [done|apply Forall_nil_2].
    + unfold handle_recovering. repeat case_match; try done; try apply Forall_nil_2; apply Hone; set_solver.
  - change beat with (t2, beat).2. rewrite <- Hb. unfold maybe_heartbeat. repeat case_match; try apply Forall_nil_2; apply Hone; set_solver.
Qed.

Lemma valid_event_accepted e idx : valid_event e -> validate_signal (asdict e) idx = Ok tt.
Proof.
  intros [Hs [t Ht]]. unfold validate_signal, asdict. cbn [sp_signal_type sp_activity_type sp_timestamp sp_user_id].
  rewrite (proj2 (str_in_spec _ _) Hs). cbn [negb]. destruct (str_in (activity_value (ev_activity e)) VALID_ACTIVITY_TYPES) eqn:Ha;
    [|by destruct (ev_activity e)].
  cbn [negb]. unfold parse_timestamp. rewrite Ht, replace_Z_id by apply isoformat_no_Z. by rewrite fromisoformat_isoformat.
Qed.
Lemma valid_events_accepted l idx : Forall valid_event l -> validate_signals idx (map asdict l) = Ok tt.
Proof. intros Hl. revert idx. induction Hl as [|e l He Hl IH]; intros idx; cbn [map validate_signals]; [done|]. by rewrite valid_event_accepted. Qed.

(** An API in service: it authenticates the watcher, does not limit it and stores
    what it validates. *)
Record in_service : Prop := {
  srv_authenticates : forall x, api_authenticate api x = None;
  srv_unlimited : forall x, (api_limit api x).2 = None;
  srv_stores : forall batch x, (api_store api batch x).2 < 400
}.

Lemma post_accepted batch x : in_service -> Forall valid_event batch -> (1 <= length batch <= 100)%nat ->
  exists x' status, post_signals batch x = (x', Ok status) /\ status < 400.
Proof.
  intros [Ha Hl Hs] Hv [H1 H2]. unfold post_signals, receive_signals. rewrite Ha, length_map.
  rewrite (proj2 (Nat.leb_le _ _) H1), (proj2 (Nat.leb_le _ _) H2). cbn [andb].
  specialize (Hl x). destruct (api_limit api x) as [x1 o]. cbn in Hl. subst o. rewrite valid_events_accepted by done.
  specialize (Hs (map asdict batch) x1). destruct (api_store api _ x1) as [x2 status]. by exists x2, status.
Qed.

(** Nothing fails, and every event is valid. *)
Definition smooth (w : @watcher_state X) : Prop :=
  ws_failed w = [] /\ Forall valid_event (default [] (ws_inflight w) ++ ws_queue w) /\
  forall batch, ws_inflight w = Some batch -> (1 <= length batch <= 100)%nat.

Lemma send_smooth w : in_service -> smooth w -> smooth (send_inflight ec post_signals w).
Proof.
  intros Hsrv (Hf&Hv&Hlen). unfold send_inflight. destruct (ws_inflight w) as [batch|] eqn:Hi; [|unfold smooth; by rewrite Hi].
  cbn in Hv. apply Forall_app in Hv as [Hb Hq]. unfold send_with_retry. destruct (dry_run ec); [done|].
  destruct (post_accepted batch (ws_world w) Hsrv Hb (Hlen _ eq_refl)) as (x'&status&Hp&Hs). cbn [MAX_RETRIES post_attempts].
  rewrite Hp, bool_decide_true by done. done.
Qed.
Lemma take_smooth w : batch_size ec <= 100 -> smooth w -> smooth (take_inflight ec w).
Proof.
  intros Hb Hw. unfold take_inflight. destruct (ws_inflight w) as [batch|] eqn:Hi; [done|]. unfold take_batch.
  destruct (take _ (ws_queue w)) as [|e batch] eqn:Ht; [done|]. destruct Hw as (Hf&Hv&_). rewrite Hi in Hv. cbn in Hv.
  rewrite <- (take_drop (Z.to_nat (batch_size ec)) (ws_queue w)), Ht in Hv. split_and!; [done..|]. cbn. intros ? [= <-].
  pose proof (firstn_le_length (Z.to_nat (batch_size ec)) (ws_queue w)) as Hl. rewrite Ht in Hl. cbn in *. lia.
Qed.
Lemma tick_smooth window now fresh w : smooth w -> smooth (tick ec tc order window now fresh w).
Proof.
  intros (Hf&Hv&Hlen). unfold tick. pose proof (update_valid (ws_tracker w) (classify order window) now fresh) as Hu.
  destruct (update tc (ws_tracker w) (classify order window) now fresh) as [t ev]. cbn in Hu.
  pose proof (emit_many_order ec (ws_queue w) ev) as Ho. destruct (emit_many ec (ws_queue w) ev) as [q lost]. cbn in Ho.
  split_and!; [done| |done]. cbn. apply Forall_app in Hv as [Hb Hq]. apply Forall_app. split; [done|].
  eapply sublist_Forall; [exact Ho|]. by apply Forall_app.
Qed.
Lemma drain_smooth fuel w : in_service -> batch_size ec <= 100 -> smooth w -> smooth (drain ec post_signals fuel w).
Proof. intros Hs Hb. revert w. induction fuel as [|fuel IH]; intros w Hw; cbn; [done|]. destruct (take _ _); [done|]. by apply IH, send_smooth, take_smooth. Qed.
Lemma run_smooth now x steps : in_service -> batch_size ec <= 100 -> smooth (run ec post_signals tc order steps now x).
Proof.
  intros Hs Hb. apply drain_smooth, send_smooth; [done..|]. assert (smooth (watcher_init now x)) as Hw by done.
  revert Hw. generalize (watcher_init now x). induction steps as [|s steps IH]; intros w Hw; cbn; [done|]. apply IH.
  destruct s; [by apply tick_smooth|by apply take_smooth|by apply send_smooth].
Qed.

End composition.

Lemma post_attempts_refused {X} (post : list SessionEvent -> X -> X * result Z) batch :
  (forall x, exists x' s, post batch x = (x', Ok s) /\ 400 <= s) -> forall n delay x, (post_attempts post n delay batch x).2.1 = false.
Proof.
  intros Hp n. induction n as [|n IH]; intros delay x; cbn; [done|]. destruct (Hp x) as (x'&s&->&Hs). rewrite bool_decide_false by lia.
  case_bool_decide; [done|]. specialize (IH (delay * 2) x'). by destruct (post_attempts post n (delay * 2) batch x') as [x2 [ok sl]].
Qed.

(** batches of more than 100 signals are lost.  The configuration check accepts
    any positive batch size and the API refuses more than 100 signals at once, so
    with a larger batch size a full batch is posted three times, refused each time,
    and given up. *)
Theorem oversized_batch_lost {X} `{IsoCodec} (api : api_services (X := X)) c w :
  wc_dry_run c = false -> 100 < wc_batch_size c -> wc_batch_size c <= Z.of_nat (length (ws_queue w)) -> ws_inflight w = None ->
  (forall x s, api_authenticate api x = Some s -> 400 <= s) ->
  let ec := build_emitter c in let w' := send_inflight ec (post_signals api) (take_inflight ec w) in
  ws_failed w' = ws_failed w ++ take (Z.to_nat (wc_batch_size c)) (ws_queue w) /\ ws_delivered w' = ws_delivered w.
Proof.
  intros Hd Hb Hlen Hi Hauth ec w'. unfold w', take_inflight, take_batch. rewrite Hi. cbn [batch_size ec build_emitter].
  set (batch := take _ _). assert (100 < length batch)%nat as Hbig by (unfold batch; rewrite length_take; lia).
  destruct batch as [|e l] eqn:Hbatch; [cbn in Hbig; lia|]. unfold send_inflight. cbn [ws_inflight ws_world].
  assert (forall x, exists x' s, post_signals api (e :: l) x = (x', Ok s) /\ 400 <= s) as Hpost.
  { intros x. unfold post_signals, receive_signals. destruct (api_authenticate api x) as [s|] eqn:Ha; [by eauto|].
    rewrite length_map. destruct (Nat.leb_spec (length (e :: l)) 100); [lia|]. rewrite andb_false_r. by exists x, 422. }
  unfold send_with_retry. cbn [dry_run ec build_emitter]. rewrite Hd. 
  pose proof (post_attempts_refused _ _ Hpost MAX_RETRIES RETRY_BASE_DELAY (ws_world w)) as Hr.
  destruct (post_attempts _ _ _ _ _) as [x' [ok sleeps]]. cbn in Hr. by subst ok.
Qed.

(** ** Witnesses: an editor, then no window, with an API that stores everything *)
Definition demo_api : api_services (X := unit) := MkApi _ (fun _ => None) (fun x => (x, None)) (fun _ x => (x, 201)).
Definition demo_emitter : emitter_config := MkEmitter 20 DEFAULT_MAX_QUEUE false.
Definition demo_steps : list watcher_step :=
  [Tick (Some (MkWindow "Code.exe" "main.py")) 0 (MkUUID 1); Tick (Some (MkWindow "Code.exe" "main.py")) (seconds 30) (MkUUID 1);
   Take; Tick None (seconds 60) (MkUUID 2); Send].
Definition demo_run : watcher_state := run demo_emitter (post_signals demo_api) default_config id demo_steps 0 ().

Lemma watcher_accounts_events_witness :
  ws_emitted demo_run ≡ₚ ws_delivered demo_run ++ ws_overflow demo_run ++ ws_failed demo_run /\ length (ws_emitted demo_run) = 3%nat.
Proof.
  destruct (watcher_accounts_events demo_emitter (post_signals demo_api) default_config id eq_refl 0 () demo_steps) as (H&_&_).
  - vm_compute. discriminate.
  - split; [exact H|]. vm_compute. reflexivity.
Defined.


Definition large_config : WatcherConfig := MkConfig "http://localhost:8000" "key" (seconds 5) 101 default_config false.
Definition demo_event : SessionEvent := MkEvent "heartbeat" "s" (isoformat (utc_datetime 0)) "app" "title" WORK (HeartbeatMetadata WORKING).
Definition full_queue : @watcher_state unit := MkWatcher (tracker_init 0) (replicate 101 demo_event) None () [] [] [] [].
Lemma oversized_batch_lost_witness :
  validate large_config = [] /\
  ws_failed (send_inflight (build_emitter large_config) (post_signals demo_api) (take_inflight (build_emitter large_config) full_queue))
    = replicate 101 demo_event.
Proof.
  split; [vm_compute; reflexivity|].
  destruct (oversized_batch_lost demo_api large_config full_queue) as [H _].
  - reflexivity.
  - reflexivity.
  - vm_compute. discriminate.
  - reflexivity.
  - intros x s. discriminate.
  - rewrite H. reflexivity.
Defined.
