(* ===== verification/Pipeline.v ===== *)
(** * The execution pipeline ([AINDY/core/execution_pipeline], [AINDY/core/execution_gate.py])

    Every HTTP handler runs inside [ExecutionPipeline.run]: the pipeline registers
    an execution unit, takes a slot of the tenant, runs the handler, applies the
    signals it left, reports events and settles the unit.  The state is the resource
    manager of [ResourceManager], the session with the units of [ExecutionUnit], the
    metadata of the request and the context variables.  A handler is an arbitrary
    function of that state.  Events, memory and the scheduler's wait table are
    services; Prometheus metrics and logging are left out. *)
From S2P Require Import Prelude PyDatetime Json PyUuid WaitCondition RetryPolicy ResourceManager ExecutionUnit FlowEngine.
Local Open Scope Z_scope.

(** ** The gate *)
Definition EU_TYPE_TO_EXEC_TYPE : dict string := [("flow", "flow"); ("agent", "agent"); ("job", "job"); ("nodus", "nodus")].
(** [_resolve_policy_for_eu]: the policy that is stored with a unit *)
Definition resolve_policy_for_eu (eu_type : string) (workflow_type risk_level : option string) : RetryPolicy :=
  let exec_type := default "job" (dget EU_TYPE_TO_EXEC_TYPE (str_lower eu_type)) in
  let exec_type := if startswith "nodus" (str_or workflow_type "") then "nodus" else exec_type in
  resolve_retry_policy (Some exec_type) risk_level None None.

(** A session that also answers [get_by_source], whose failures count as no row *)
Record gate_session (S : Type) := MkGate { gs_db : eu_session S; gs_by_source : string -> string -> S -> S * option ExecutionUnit }.
Arguments gs_db {S}. Arguments gs_by_source {S}.

(** [require_execution_unit]: the id of the unit; the policy goes to a column that
    no other modelled code reads *)
Definition require_execution_unit {S} (gs : gate_session S) (fresh : UUID) (now : Z) (eu_type : string) (user : string)
    (source_type source_id : string) (correlation : option string) (s : S) : S * option UUID :=
  let (s1, found) := gs_by_source gs source_type source_id s in
  match found with
  | None =>
      let (s2, eu) := create (gs_db gs) fresh now eu_type (IdText user) (Some source_type) (Some source_id) IdNone None
                        (Some (str_or correlation source_id)) "executing" s1 in
      (s2, eu_id <$> eu)
  | Some eu => ((update_status (gs_db gs) now (IdUuid (eu_id eu)) "executing" s1).1, Some (eu_id eu))
  end.

(** [to_envelope] *)
Definition opt_json (o : option string) : json := match o with Some s => JStr s | None => JNull end.
Definition to_envelope (eu trace : option string) (status : string) (output error duration attempts : json) : json :=
  JObj [("eu_id", opt_json eu); ("trace_id", opt_json (str_or_none trace)); ("status", JStr status); ("output", output);
        ("error", error); ("duration_ms", duration); ("attempt_count", attempts)].

(** ** The request *)
Record context := MkContext {
  cx_request_id : string; cx_route : string; cx_user : option string; cx_db : bool; cx_eu_type : string; cx_success_code : Z
}.
Record side_effect := MkEffect { se_status : string; se_required : bool; se_error : option string }.
Record metadata := MkMeta {
  md_trace_id : string; md_eu_id : option string; md_effects : dict side_effect; md_event_refs : list (string * string);
  md_eu_status : option string; md_eu_wait_for : option string; md_queued : dict json
}.
Definition md_init (trace : string) : metadata := MkMeta trace None [] [] None None [].
(** The context variables of [platform_layer/trace_context.py]; the current context
    is named by its request. *)
Record ctx_vars := MkVars { cv_parent : option string; cv_active : bool; cv_context : option string }.

(** [ExecutionWaitSignal] *)
Record wait_signal := MkWait { sig_wait_for : string; sig_resume_key : option string; sig_payload : dict json; sig_condition : option WaitCondition }.
(** What a handler returns, and what it raises *)
Inductive returned := RJson (j : json) | RWaitSignal (w : wait_signal) | RResponse.
Inductive raised := EWait (w : wait_signal) | EHttp (status_code : Z) (detail : json) | EOther (e : exn).

Record pipeline_event := MkPEvent {
  pe_type : string; pe_user : option string; pe_trace : string; pe_parent : option string; pe_required : bool; pe_payload : dict json
}.
Record wait_registration := MkReg {
  reg_run : string; reg_event : string; reg_tenant : string; reg_trace : string; reg_eu_type : string; reg_condition : WaitCondition
}.

(** [ExecutionResult]; of the metadata of a failure, [pr_code] and [pr_detail] are the
    keys [status_code] and [detail]. *)
Record presult := MkPResult {
  pr_success : bool; pr_data : option returned; pr_error : option string; pr_memory : Z; pr_md : metadata;
  pr_eu_status : option string; pr_code : option Z; pr_detail : json
}.

Section pipeline.
Context {X S : Type} `{IsoCodec}.

Record pstate := MkP { p_rm : rm X; p_units : S; p_md : metadata; p_vars : ctx_vars }.
Definition p_ext (p : pstate) : X := rm_ext (p_rm p).

(** The services: the emission of an event after its contract check, memory capture
    and recall, the scheduler's [register_wait], and the duration of a handler in
    milliseconds, the float as it is printed and its integer part *)
Record pipeline_services := MkPServices {
  pv_clock : X -> Z;
  pv_duration : X -> X -> string * Z;
  pv_enforce : bool;
  pv_async : X -> bool;
  pv_emit : pipeline_event -> X -> S -> X * S * result (option string);
  pv_capture : dict json -> X -> S -> X * S * result unit;
  pv_recall : X -> S -> X * S * result Z;
  pv_register : wait_registration -> X -> X * result unit
}.
Context (E : env X) (gs : gate_session S) (sv : pipeline_services) (ctx : context).
Implicit Types (p : pstate).

Definition set_md (f : metadata -> metadata) p : pstate := MkP (p_rm p) (p_units p) (f (p_md p)) (p_vars p).
Definition set_prm (r : rm X) p : pstate := MkP r (p_units p) (p_md p) (p_vars p).
Definition set_punits (s : S) p : pstate := MkP (p_rm p) s (p_md p) (p_vars p).
Definition set_vars (v : ctx_vars) p : pstate := MkP (p_rm p) (p_units p) (p_md p) v.
Definition set_world (x : X) (s : S) p : pstate := MkP (with_ext (p_rm p) x) s (p_md p) (p_vars p).
Definition now p : Z := pv_clock sv (p_ext p).
Definition user_of : option string := str_or_none (cx_user ctx).
Definition eu_of p : option string := str_or_none (md_eu_id (p_md p)).

(** [_record_side_effect] *)
Definition record_side_effect (name status : string) (required : bool) (error : option string) : pstate -> pstate :=
  set_md (fun m => MkMeta (md_trace_id m) (md_eu_id m) (dset (md_effects m) name (MkEffect status required error)) (md_event_refs m)
    (md_eu_status m) (md_eu_wait_for m) (md_queued m)).
(** [_set_event_refs] *)
Definition set_event_refs (started terminal : option string) (completed : bool) : pstate -> pstate :=
  let ref ty o := match str_or_none o with Some id => [(ty, id)] | None => [] end in
  set_md (fun m => MkMeta (md_trace_id m) (md_eu_id m) (md_effects m)
    (ref "execution.started" started ++ ref (if completed then "execution.completed" else "execution.failed") terminal)
    (md_eu_status m) (md_eu_wait_for m) (md_queued m)).
Definition set_eu_id (id : string) : pstate -> pstate :=
  set_md (fun m => MkMeta (md_trace_id m) (Some id) (md_effects m) (md_event_refs m) (md_eu_status m) (md_eu_wait_for m) (md_queued m)).
Definition set_waiting_for (ev : string) : pstate -> pstate :=
  set_md (fun m => MkMeta (md_trace_id m) (md_eu_id m) (md_effects m) (md_event_refs m) (Some "waiting") (Some ev) (md_queued m)).
Definition set_queued (q : dict json) : pstate -> pstate :=
  set_md (fun m => MkMeta (md_trace_id m) (md_eu_id m) (md_effects m) (md_event_refs m) (md_eu_status m) (md_eu_wait_for m) q).

(** *** Events *)
(** [emit_system_event]: an execution event outside a pipeline breaks the contract *)
Definition emit_system_event (ty : string) (user : option string) (trace : string) (parent : option string) (required : bool)
    (payload : dict json) p : pstate * result (option string) :=
  if startswith "execution." ty && negb (cv_active (p_vars p)) && negb (pv_async sv (p_ext p)) && pv_enforce sv then
    (p, Raise (Exn "RuntimeError" ("ExecutionContract violation: execution event '" +:+ ty +:+ "' emitted outside pipeline")))
  else
    let parent := match str_or_none parent with Some e => Some e | None => cv_parent (p_vars p) end in
    let '(x, s, r) := pv_emit sv (MkPEvent ty user trace parent required payload) (p_ext p) (p_units p) in
    (set_world x s p, r).

(** [_safe_emit_event] *)
Definition safe_emit_event (ty : string) (parent : option string) (required : bool) (payload : dict json) p : pstate * option string :=
  let name := "system_event." +:+ ty in
  if cx_db ctx then
    match emit_system_event ty (cx_user ctx) (cx_request_id ctx) parent required payload p with
    | (p1, Ok o) =>
        match str_or_none o with
        | Some id => (record_side_effect name "ok" required None p1, Some id)
        | None => (record_side_effect name "missing" required (Some "emit_system_event returned no event id") p1, None)
        end
    | (p1, Raise e) => (record_side_effect name "failed" required (Some (exn_msg e)) p1, None)
    end
  else (if required then record_side_effect name "missing" true (Some "db session is absent") p else p, None).
Definition route_payload (extra : dict json) : dict json := ("route_name", JStr (cx_route ctx)) :: extra.

(** *** Resources *)
(** [_safe_require_eu] *)
Definition safe_require_eu (fresh : UUID) p : pstate :=
  match user_of with
  | Some user =>
      if cx_db ctx then
        let (s, o) := require_execution_unit gs fresh (now p) (cx_eu_type ctx) user "route" (cx_request_id ctx)
                        (Some (cx_request_id ctx)) (p_units p) in
        let p1 := set_punits s p in
        match o with
        | Some u => record_side_effect "execution_unit.create" "ok" true None (set_eu_id (uuid_to_string u) p1)
        | None => record_side_effect "execution_unit.create" "missing" true (Some "require_execution_unit returned no execution unit") p1
        end
      else p
  | None => p
  end.

(** [_safe_finalize_eu] *)
Definition safe_finalize_eu (status : string) p : pstate :=
  match eu_of p with
  | Some eu =>
      if cx_db ctx then
        let (s, ok) := update_status (gs_db gs) (now p) (IdText eu) status (p_units p) in
        let p1 := set_punits s p in
        if ok then record_side_effect ("execution_unit.finalize." +:+ status) "ok" true None p1
        else record_side_effect ("execution_unit.finalize." +:+ status) "failed" true
               (Some ("failed to persist status " +:+ py_repr status)) p1
      else p
  | None => p
  end.

(** [_safe_check_quota]: [false] refuses the execution *)
Definition safe_check_quota (started : option string) p : pstate * bool :=
  match eu_of p, user_of with
  | Some _, Some user =>
      let (r, refused) := can_execute E (now p) user (p_rm p) in
      let p1 := set_prm r p in
      match refused with
      | None => (p1, true)
      | Some reason =>
          let (p2, _) := safe_emit_event "execution.failed" started false (route_payload [("detail", JStr (str_or (Some reason) "quota_exceeded"))]) p1 in
          (record_side_effect "quota_check" "quota_exceeded" false (Some reason) (safe_finalize_eu "failed" p2), false)
      end
  | _, _ => (p, true)
  end.

(** [_safe_rm_mark_started], [_safe_rm_mark_completed] and [_safe_rm_record_and_complete] *)
Definition safe_rm_mark_started p : pstate :=
  match eu_of p, user_of with
  | Some eu, Some user => set_prm (mark_started E (now p) user (Some eu) (p_rm p)) p
  | _, _ => p
  end.
Definition safe_rm_mark_completed p : pstate :=
  match eu_of p, user_of with
  | Some eu, Some user => set_prm (mark_completed E (now p) user (Some eu) (p_rm p)) p
  | _, _ => p
  end.
Definition safe_rm_record_and_complete (duration_ms : Z) p : pstate :=
  match eu_of p, user_of with
  | Some eu, Some user =>
      match record_usage E eu duration_ms 0 0 (p_rm p) with
      | (r, Ok _) => let p1 := set_prm r p in set_prm (mark_completed E (now p1) user (Some eu) (p_rm p1)) p1
      | (r, Raise _) => set_prm r p
      end
  | _, _ => p
  end.

(** *** Waits *)
(** [_detect_wait] *)
Definition detect_wait (res : returned) : option (string * dict json * option WaitCondition) :=
  match res with
  | RWaitSignal w => Some (sig_wait_for w, sig_payload w, sig_condition w)
  | RJson (JObj d) =>
      if str_upper (or_text (jget d "status") "") =s "WAITING" then
        Some (or_text (jget d "wait_for") (or_text (jget d "waiting_for") "unknown"), [], None)
      else None
  | _ => None
  end.

Definition trace_of p : string := str_or (Some (md_trace_id (p_md p))) (cx_request_id ctx).
(** The body of the [try] of [_safe_transition_eu_waiting] *)
Definition enter_wait (eu wait_for : string) (cond : option WaitCondition) p : pstate * result unit :=
  match (match cond with Some c => Ok c | None => for_event wait_for (Some (trace_of p)) end) with
  | Raise e => (p, Raise e)
  | Ok c =>
      let (s1, ok) := update_status (gs_db gs) (now p) (IdText eu) "waiting" (p_units p) in
      let p1 := set_punits s1 p in
      if ok then
        let (s2, ok2) := set_wait_condition (gs_db gs) (now p1) (IdText eu) (CaCondition c) (p_units p1) in
        let p2 := set_punits s2 p1 in
        if ok2 then
          let (x, r) := pv_register sv (MkReg eu wait_for (str_or (cx_user ctx) "") (trace_of p2) (cx_eu_type ctx) c) (p_ext p2) in
          let p3 := set_world x (p_units p2) p2 in
          match r with
          | Ok _ => (p3, Ok ())
          | Raise _ => (p3, Raise (Exn "RuntimeError" ("failed to register resumable wait for eu_id=" +:+ py_repr eu)))
          end
        else (p2, Raise (Exn "RuntimeError" ("failed to persist wait condition for eu_id=" +:+ py_repr eu)))
      else (p1, Raise (Exn "RuntimeError" ("failed to persist waiting status for eu_id=" +:+ py_repr eu)))
  end.
(** [_safe_transition_eu_waiting] *)
Definition safe_transition_eu_waiting (wait_for : string) (cond : option WaitCondition) p : pstate * result unit :=
  match eu_of p with
  | None => (p, Raise (Exn "RuntimeError" ("WAIT requires ExecutionUnit context - eu_id is absent (route=" +:+ py_repr (cx_route ctx) +:+
              ", wait_for=" +:+ py_repr wait_for +:+ "). Ensure the route has an authenticated user_id and a DB session " +:+
              "so an ExecutionUnit can be created before entering WAIT.")))
  | Some eu =>
      if cx_db ctx then
        match enter_wait eu wait_for cond p with
        | (p1, Ok _) => (record_side_effect "execution_unit.wait" "ok" true None p1, Ok ())
        | (p1, Raise e) => (record_side_effect "execution_unit.wait" "failed" true (Some (exn_msg e)) p1, Raise e)
        end
      else (p, Raise (Exn "RuntimeError" ("WAIT requires ExecutionUnit context - db session is absent (route=" +:+ py_repr (cx_route ctx) +:+
              ", eu_id=" +:+ py_repr eu +:+ ", wait_for=" +:+ py_repr wait_for +:+ "). Cannot persist waiting status without a database session.")))
  end.

(** *** Signals *)
(** [dict(v or {})]; an entry of a list is a pair or a text of two characters, and
    the messages of the interpreter are abbreviated *)
Definition dict_entry (acc : result (dict json)) (j : json) : result (dict json) :=
  match acc, j with
  | Raise e, _ => Raise e
  | Ok d, JArr [JStr k; v] => Ok (dset d k v)
  | Ok d, JArr [(JArr _ | JObj _); _] => Raise (Exn "TypeError" "unhashable type")
  | Ok d, JArr [_; _] => Ok d
  | Ok d, JStr (String a (String b EmptyString)) => Ok (dset d (String a EmptyString) (JStr (String b EmptyString)))
  | Ok _, _ => Raise (Exn "ValueError" "cannot convert dictionary update sequence element")
  end.
Definition dict_of_json (j : json) : result (dict json) :=
  if json_truthy j then
    match j with
    | JObj d => Ok d
    | JArr l => foldl dict_entry (Ok []) l
    | JStr _ => Raise (Exn "ValueError" "cannot convert dictionary update sequence element")
    | _ => Raise (Exn "TypeError" "object is not iterable")
    end
  else Ok [].

(** [_extract_execution_result_and_signals] *)
Definition extract_signals (res : returned) : result (returned * dict json) :=
  match res with
  | RJson (JObj d) =>
      if dmem d "execution_signals" then
        match dict_of_json (jget d "execution_signals") with Ok sigs => Ok (RJson (jget d "data"), sigs) | Raise e => Raise e end
      else if dmem d "execution_hints" then
        match dict_of_json (jget d "execution_hints") with
        | Ok hints => Ok (RJson (jget d "data"), [("memory", jget hints "memory"); ("events", jget hints "events"); ("log", jget hints "log")])
        | Raise e => Raise e
        end
      else if dmem d "memory_hint" then Ok (RJson (jget d "data"), [("memory", jget d "memory_hint")])
      else Ok (res, [])
  | _ => Ok (res, [])
  end.

(** [_merge_queued_signals] *)
Definition as_items (j : json) : list json := match j with JArr l => l | JNull => [] | v => [v] end.
Definition merge_queued_signals (signals : dict json) p : pstate * dict json :=
  let queued := md_queued (p_md p) in
  let merge acc key := if json_truthy (jget queued key) then dset acc key (JArr (as_items (jget acc key) ++ as_items (jget queued key))) else acc in
  (set_queued [] p, foldl merge signals ["memory"; "events"]).

(** The dictionaries of a signal *)
Definition signal_items (j : json) : list (dict json) :=
  match j with JObj d => [d] | JArr l => omap (fun x => match x with JObj d => Some d | _ => None end) l | _ => [] end.

(** [_safe_capture_memory_hint] *)
Definition safe_capture_memory_hint (hint : dict json) p : pstate * bool :=
  if cx_db ctx then
    let '(x, s, r) := pv_capture sv hint (p_ext p) (p_units p) in
    let p1 := set_world x s p in
    match r with
    | Ok _ => (p1, true)
    | Raise e => (record_side_effect "memory.capture_hint" "failed" false (Some (exn_msg e)) p1, false)
    end
  else (p, false).
(** [_apply_memory_signals] *)
Definition apply_memory_signals (signal : json) p : pstate * Z :=
  foldl (fun acc hint => let (p1, ok) := safe_capture_memory_hint hint acc.1 in (p1, if ok then acc.2 + 1 else acc.2)) (p, 0) (signal_items signal).

(** [_apply_event_signals] *)
Definition text_or (j : json) (d : option string) : option string := if json_truthy j then Some (status_text j) else d.
Definition apply_event_signal (event : dict json) p : pstate :=
  let ty := str_strip (or_text (jget event "event_type") (or_text (jget event "type") "")) in
  if truthy ty && cx_db ctx then
    match dict_of_json (jget event "payload") with
    | Ok payload =>
        (emit_system_event ty (text_or (jget event "user_id") (cx_user ctx)) (or_text (jget event "trace_id") (cx_request_id ctx))
           (text_or (jget event "parent_event_id") None) (json_truthy (jget event "required")) payload p).1
    | Raise _ => p
    end
  else p.
Definition apply_event_signals (signal : json) p : pstate := foldl (fun p event => apply_event_signal event p) p (signal_items signal).

(** [_apply_log_signal]: only the conversion of [extra] can raise *)
Definition apply_log_signal (signal : json) : result unit :=
  match signal with
  | JObj d => match dict_of_json (jget d "extra") with Ok _ => Ok () | Raise e => Raise e end
  | _ => Ok ()
  end.

(** [_apply_execution_signals] *)
Definition apply_execution_signals (signals : dict json) p : pstate * result Z :=
  let (p1, n) := apply_memory_signals (jget signals "memory") p in
  let p2 := apply_event_signals (jget signals "events") p1 in
  let (p3, queued) := merge_queued_signals [] p2 in
  let (p4, n') := if json_truthy (jget queued "memory") || json_truthy (jget queued "events") then
                    let (p5, k) := apply_memory_signals (jget queued "memory") p3 in
                    (apply_event_signals (jget queued "events") p5, Z.max n k)
                  else (p3, n) in
  (p4, match apply_log_signal (jget signals "log") with Ok _ => Ok n' | Raise e => Raise e end).

(** [_extract_memory_context_count] *)
Definition extract_memory_context_count (res : returned) : Z :=
  match res with
  | RJson (JObj d) =>
      match jget d "memory_context_count" with
      | JInt n => n
      | JBool b => if b then 1 else 0
      | _ => match jget d "memory_context" with
             | JArr l => Z.of_nat (length l)
             | JStr s => if truthy (str_strip s) then 1 else 0
             | _ => 0
             end
      end
  | _ => 0
  end.

(** [_safe_recall_memory_count] *)
Definition safe_recall_memory_count p : pstate * Z :=
  match user_of with
  | Some _ =>
      if cx_db ctx then
        let '(x, s, r) := pv_recall sv (p_ext p) (p_units p) in
        let p1 := set_world x s p in
        match r with
        | Ok n => (p1, n)
        | Raise e => (record_side_effect "memory.recall" "failed" false (Some (exn_msg e)) p1, 0)
        end
      else (p, 0)
  | None => (p, 0)
  end.

(** [_inject_execution_envelope] *)
Definition inject_execution_envelope (duration : string) (res : returned) p : returned :=
  match res with
  | RJson (JObj d) =>
      if dmem d "execution_envelope" then res
      else RJson (JObj (dset d "execution_envelope"
             (to_envelope (md_eu_id (p_md p)) (Some (trace_of p)) "SUCCESS" JNull JNull (JFloat duration) (JInt 1))))
  | _ => res
  end.

(** *** Responses *)
(** The [status] of [to_response], and the status code [adapt_response] answers with
    on a route without an adapter of its own *)
Definition status_label (r : presult) : string := str_or (pr_eu_status r) (if pr_success r then "success" else "error").
Definition response_code (r : presult) : Z :=
  if status_label r =s "error" then default (cx_success_code ctx) (if pr_success r then None else pr_code r) else cx_success_code ctx.
(** [degraded_side_effects] *)
Definition degraded (r : presult) : list string :=
  omap (fun kv => if str_in (se_status kv.2) ["failed"; "missing"] then Some kv.1 else None) (md_effects (pr_md r)).

(** *** The run *)
Definition waiting_result (data : returned) p : presult := MkPResult true (Some data) None 0 (p_md p) (Some "waiting") None JNull.
Definition failure_result (code : Z) (error : string) (detail : json) p : presult :=
  MkPResult false None (Some error) 0 (p_md p) None (Some code) detail.
(** [str(exc.detail)]; a detail that is a dictionary is written as JSON *)
Definition detail_text (j : json) : string := status_text j.

(** The part of the [try] block after the handler has returned: the state, whether
    the slot is still held, and a result or an exception *)
Definition settle_wait (started : option string) (res : returned) (wait_for : string) (payload : dict json) (cond : option WaitCondition) p
    : pstate * (presult + raised) :=
  match safe_transition_eu_waiting wait_for cond p with
  | (p1, Raise e) => (p1, inr (EOther e))
  | (p1, Ok _) =>
      let (p2, ev) := safe_emit_event "execution.waiting" started (cx_db ctx) (dict_update (route_payload [("wait_for", JStr wait_for)]) payload) p1 in
      let p3 := set_waiting_for wait_for (set_event_refs started ev false p2) in
      (p3, inl (waiting_result res p3))
  end.
Definition settle_success (started : option string) (res : returned) (signals : dict json) (duration : string * Z) p
    : pstate * bool * (presult + raised) :=
  match apply_execution_signals signals p with
  | (p1, Raise e) => (p1, true, inr (EOther e))
  | (p1, Ok injected) =>
      let (p2, recalled) := safe_recall_memory_count p1 in
      let count := Z.max (Z.max (extract_memory_context_count res) injected) recalled in
      let p3 := safe_rm_record_and_complete duration.2 p2 in
      let res' := inject_execution_envelope duration.1 res p3 in
      let (p4, ev) := safe_emit_event "execution.completed" started (cx_db ctx) (route_payload [("success", JBool true)]) p3 in
      let p5 := safe_finalize_eu "completed" (set_event_refs started ev true p4) in
      (p5, false, inl (MkPResult true (Some res') None count (p_md p5) None None JNull))
  end.
Definition after_handler (started : option string) (res : returned) (duration : string * Z) p : pstate * bool * (presult + raised) :=
  match res with
  | RResponse =>
      if pv_enforce sv then (p, true, inr (EOther (Exn "RuntimeError" "ExecutionContract violation: raw Response returned")))
      else let (p1, signals) := merge_queued_signals [] p in settle_success started res signals duration p1
  | _ =>
      match extract_signals res with
      | Raise e => (p, true, inr (EOther e))
      | Ok (res', signals) =>
          let (p1, signals') := merge_queued_signals signals p in
          match detect_wait res' with
          | Some (wait_for, payload, cond) => let (p2, o) := settle_wait started res' wait_for payload cond p1 in (p2, true, o)
          | None => settle_success started res' signals' duration p1
          end
      end
  end.

Variable handler : pstate -> pstate * (returned + raised).

(** The [try] block after the context variables are set: the state, whether the slot
    is held, and how it ended *)
Definition try_block (fresh : UUID) (started : option string) p : pstate * bool * (presult + raised) :=
  let p1 := safe_require_eu fresh p in
  match safe_check_quota started p1 with
  | (p2, false) =>
      (p2, false, inl (failure_result 429 "Tenant concurrency limit exceeded" (JStr "Too many concurrent executions for this tenant.") p2))
  | (p2, true) =>
      let p3 := safe_rm_mark_started p2 in
      match handler p3 with
      | (p4, inr e) => (p4, true, inr e)
      | (p4, inl res) => after_handler started res (pv_duration sv (p_ext p3) (p_ext p4)) p4
      end
  end.

(** The [except] clauses *)
Definition fail_with (started : option string) (code : Z) (error : string) (detail : json) (payload : dict json) p : pstate * presult :=
  let (p1, ev) := safe_emit_event "execution.failed" started (cx_db ctx) payload p in
  let p2 := safe_finalize_eu "failed" (set_event_refs started ev false p1) in
  (p2, failure_result code error detail p2).
Definition except_clauses (started : option string) (e : raised) p : pstate * presult :=
  match e with
  | EWait w =>
      match safe_transition_eu_waiting (sig_wait_for w) (sig_condition w) p with
      | (p1, Raise g) => fail_with started 500 (exn_msg g) (JStr (exn_msg g)) (route_payload [("detail", JStr (exn_msg g))]) p1
      | (p1, Ok _) =>
          let (p2, ev) := safe_emit_event "execution.waiting" started (cx_db ctx)
            (dict_update (route_payload [("wait_for", JStr (sig_wait_for w)); ("resume_key", opt_json (sig_resume_key w))]) (sig_payload w)) p1 in
          let p3 := set_waiting_for (sig_wait_for w) (set_event_refs started ev false p2) in
          (p3, waiting_result (RJson (JObj (dict_update [("status", JStr "WAITING"); ("wait_for", JStr (sig_wait_for w));
                 ("resume_key", opt_json (sig_resume_key w))] (sig_payload w)))) p3)
      end
  | EHttp code detail => fail_with started code (detail_text detail) detail (route_payload [("status_code", JInt code); ("detail", detail)]) p
  | EOther g => fail_with started 500 (exn_msg g) (JStr (exn_msg g)) (route_payload [("detail", JStr (exn_msg g))]) p
  end.

(** [run]: the [finally] clause gives the slot back when it is held and restores the
    context variables; the parent event is only restored when it was set *)
Definition run (fresh : UUID) p : pstate * presult :=
  let (p0, started) := safe_emit_event "execution.started" None (cx_db ctx) (route_payload []) p in
  let old := p_vars p0 in
  let entered := MkVars (match started with Some id => Some id | None => cv_parent old end) true (Some (cx_request_id ctx)) in
  let '(p1, held, ended) := try_block fresh started (set_vars entered p0) in
  let (p2, res) := match ended with inl res => (p1, res) | inr e => except_clauses started e p1 end in
  let p3 := if held then safe_rm_mark_completed p2 else p2 in
  (set_vars (MkVars (match started with Some _ => cv_parent old | None => cv_parent (p_vars p3) end) (cv_active old) (cv_context old)) p3, res).
End pipeline.
