(* ===== verification/PipelineFacts.v ===== *)
(** * Properties of the execution pipeline

    What a run of the pipeline leaves behind, for every handler: its slot is given
    back and the context variables are restored on every path; a refused request
    does not reach its handler; what the session holds and what it has committed
    after each kind of ending. *)
From S2P Require Import Prelude PyDatetime Json PyUuid WaitCondition ResourceManager ExecutionUnit FlowEngine Pipeline.
Local Open Scope Z_scope.

Section steady.
Context {X S : Type} `{IsoCodec} (E : env X) (gs : gate_session S) (sv : @pipeline_services X S) (ctx : context).
Implicit Types (p : @pstate X S).

(** The counters, the unit of the request and the context variables are as before. *)
Definition steady p p' : Prop :=
  (forall t, local_active (p_rm p') t = local_active (p_rm p) t) /\ rm_redis (p_rm p') = rm_redis (p_rm p) /\
  eu_of p' = eu_of p /\ p_vars p' = p_vars p.
#[local] Instance steady_preorder : PreOrder steady.
Proof.
  split; [done|]. intros p1 p2 p3 (A1&A2&A3&A4) (B1&B2&B3&B4). split_and!; congruence.
Qed.

Lemma steady_md f p : (forall m, md_eu_id (f m) = md_eu_id m) -> steady p (set_md f p).
Proof. intros Hf. split_and!; try done. unfold eu_of. cbn. by rewrite Hf. Qed.
Lemma steady_effect name st req err p : steady p (record_side_effect name st req err p).
Proof. by apply steady_md. Qed.
Lemma steady_refs a b c p : steady p (set_event_refs a b c p).
Proof. by apply steady_md. Qed.
Lemma steady_queued q p : steady p (set_queued q p).
Proof. by apply steady_md. Qed.
Lemma steady_waiting ev p : steady p (set_waiting_for ev p).
Proof. by apply steady_md. Qed.
Lemma steady_world x s p : steady p (set_world x s p).
Proof. done. Qed.
Lemma steady_units s p : steady p (set_punits s p).
Proof. done. Qed.

(** A step at a time *)
Lemma steady_then p p1 p2 : steady p p1 -> steady p1 p2 -> steady p p2.
Proof. apply transitivity. Qed.

Lemma steady_emit ty u tr par req pl p : steady p (emit_system_event sv ty u tr par req pl p).1.
Proof. unfold emit_system_event. case_match; [done|]. by destruct (pv_emit sv _ _ _) as [[x s] r]. Qed.
Lemma steady_safe_emit ty par req pl p : steady p (safe_emit_event sv ctx ty par req pl p).1.
Proof.
  unfold safe_emit_event. destruct (cx_db ctx); [|destruct req; [apply steady_effect|done]].
  pose proof (steady_emit ty (cx_user ctx) (cx_request_id ctx) par req pl p) as He.
  destruct (emit_system_event sv ty _ _ par req pl p) as [p1 [o|e]]; [destruct (str_or_none o)|];
    (eapply steady_then; [exact He|apply steady_effect]).
Qed.
Lemma steady_finalize st p : steady p (safe_finalize_eu gs sv ctx st p).
Proof.
  unfold safe_finalize_eu. destruct (eu_of p) as [eu|]; [|done]. destruct (cx_db ctx); [|done].
  destruct (update_status _ _ _ _ _) as [s []]; (eapply steady_then; [apply steady_units|apply steady_effect]).
Qed.
Lemma steady_transition ev c p : steady p (safe_transition_eu_waiting gs sv ctx ev c p).1.
Proof.
  unfold safe_transition_eu_waiting. destruct (eu_of p) as [eu|]; [|done]. destruct (cx_db ctx); [|done].
  assert (steady p (enter_wait gs sv ctx eu ev c p).1) as He.
  { unfold enter_wait. destruct (match c with Some _ => _ | None => _ end); [|done].
    destruct (update_status _ _ _ _ _) as [s1 []]; [|apply steady_units].
    destruct (set_wait_condition _ _ _ _ _) as [s2 []]; [|by eapply steady_then; apply steady_units].
    destruct (pv_register sv _ _) as [x [r|e]]; done. }
  destruct (enter_wait _ _ _ _ _ _ _) as [p1 [r|e]]; (eapply steady_then; [exact He|apply steady_effect]).
Qed.
Lemma steady_capture hint p : steady p (safe_capture_memory_hint sv ctx hint p).1.
Proof.
  unfold safe_capture_memory_hint. destruct (cx_db ctx); [|done]. destruct (pv_capture sv _ _ _) as [[x s] [r|e]]; [done|].
  eapply steady_then; [apply steady_world|apply steady_effect].
Qed.
Lemma steady_memory j p : steady p (apply_memory_signals sv ctx j p).1.
Proof.
  unfold apply_memory_signals. generalize 0. revert p. induction (signal_items j) as [|hint l IH]; intros p n; [done|]. cbn.
  pose proof (steady_capture hint p) as Hc. destruct (safe_capture_memory_hint sv ctx hint p) as [p1 ok]. eapply steady_then; [exact Hc|]. apply IH.
Qed.
Lemma steady_events j p : steady p (apply_event_signals sv ctx j p).
Proof.
  unfold apply_event_signals. revert p. induction (signal_items j) as [|ev l IH]; intros p; [done|]. cbn.
  eapply steady_then; [|apply IH]. unfold apply_event_signal. case_match; [|done]. case_match; [apply steady_emit|done].
Qed.
Lemma steady_merge sg p : steady p (merge_queued_signals sg p).1.
Proof. apply steady_queued. Qed.
Lemma steady_signals sg p : steady p (apply_execution_signals sv ctx sg p).1.
Proof.
  unfold apply_execution_signals.
  pose proof (steady_memory (jget sg "memory") p) as H1. destruct (apply_memory_signals _ _ _ p) as [p1 n]. cbn in H1.
  pose proof (steady_events (jget sg "events") p1) as H2. set (p2 := apply_event_signals _ _ _ p1) in *.
  pose proof (steady_merge [] p2) as H3. destruct (merge_queued_signals [] p2) as [p3 q]. cbn in H3.
  assert (steady p p3) as Hp by (eapply steady_then; [exact H1|]; by eapply steady_then).
  destruct (_ || _); [|done]. pose proof (steady_memory (jget q "memory") p3) as H4. destruct (apply_memory_signals _ _ _ p3) as [p5 k]. cbn in *.
  eapply steady_then; [exact Hp|]. eapply steady_then; [exact H4|]. apply steady_events.
Qed.
Lemma steady_recall p : steady p (safe_recall_memory_count sv ctx p).1.
Proof.
  unfold safe_recall_memory_count. destruct (user_of ctx) as [u|]; [|done]. destruct (cx_db ctx); [|done].
  destruct (pv_recall sv _ _) as [[x s] [n|e]]; [done|]. eapply steady_then; [apply steady_world|apply steady_effect].
Qed.

(** Registering the unit changes only which unit the request has. *)
Lemma require_eu_steady fresh p : p_rm (safe_require_eu gs sv ctx fresh p) = p_rm p /\ p_vars (safe_require_eu gs sv ctx fresh p) = p_vars p.
Proof.
  unfold safe_require_eu. destruct (user_of ctx) as [u|]; [|done]. destruct (cx_db ctx); [|done].
  by destruct (require_execution_unit _ _ _ _ _ _ _ _ _) as [s [id|]].
Qed.

Hypothesis Hlocal : env_redis_url E = false.
Hypothesis Hbackend : env_backend E = None.
Notation local p := (rm_redis (p_rm p) = false).

Lemma check_quota_steady started p : local p -> steady p (safe_check_quota E gs sv ctx started p).1.
Proof.
  intros Hl. unfold safe_check_quota. destruct (eu_of p) as [eu|] eqn:Heu; [|done]. destruct (user_of ctx) as [u|]; [|done].
  assert (steady p (set_prm (can_execute E (now sv p) u (p_rm p)).1 p)) as Hc.
  { unfold can_execute. destruct (env_testing E); [done|].
    destruct (get_tenant_active_local E (now sv p) u (purge_pending (p_rm p)) (conj Hlocal Hl)) as [k ->]. by destruct (_ <=? _). }
  destruct (can_execute E (now sv p) u (p_rm p)) as [r [reason|]]; [|done]. cbn in Hc.
  pose proof (steady_safe_emit "execution.failed" started false (route_payload ctx [("detail", JStr (str_or (Some reason) "quota_exceeded"))]) (set_prm r p)) as He.
  destruct (safe_emit_event _ _ _ _ _ _ _) as [p2 ev]. cbn in *. eapply steady_then; [exact Hc|]. eapply steady_then; [exact He|].
  eapply steady_then; [apply steady_finalize|apply steady_effect].
Qed.

(** [d] slots more than in [p] *)
Definition holds (d : Z) p p' : Prop :=
  (forall t, local_active (p_rm p') t = local_active (p_rm p) t + (if decide (user_of ctx = Some t) then d else 0)) /\
  rm_redis (p_rm p') = false /\ eu_of p' = eu_of p /\ p_vars p' = p_vars p.

Lemma holds_steady d p p1 p2 : holds d p p1 -> steady p1 p2 -> holds d p p2.
Proof. intros (A1&A2&A3&A4) (B1&B2&B3&B4). split_and!; try congruence. intros t. by rewrite B1. Qed.
Lemma steady_holds d p p1 p2 : steady p p1 -> holds d p1 p2 -> holds d p p2.
Proof. intros (A1&A2&A3&A4) (B1&B2&B3&B4). split_and!; try congruence. intros t. by rewrite B1, A1. Qed.
(** The number of slots a run takes: none without a unit or a user *)
Definition taken p : Z := match eu_of p, user_of ctx with Some _, Some _ => 1 | _, _ => 0 end.

Lemma mark_started_holds p : local p -> holds (taken p) p (safe_rm_mark_started E sv ctx p).
Proof.
  intros Hl. unfold safe_rm_mark_started, taken. destruct (eu_of p) as [eu|] eqn:Heu, (user_of ctx) as [u|] eqn:Hu.
  2-4: (split_and!; [|done..]; intros t; destruct (decide _); lia).
  destruct (mark_started_local E (now sv p) u (Some eu) (p_rm p) (conj Hlocal Hl)) as [[_ Hm] Ha].
  split_and!; [|done|by rewrite Heu|done]. intros t. cbn. rewrite Ha, Hu. destruct (decide (u = t)), (decide (Some u = Some t)); congruence.
Qed.

Lemma mark_completed_holds p0 p : taken p = taken p0 -> holds (taken p0) p0 p -> (forall t, 0 <= local_active (p_rm p0) t) ->
  holds 0 p0 (safe_rm_mark_completed E sv ctx p).
Proof.
  intros Ht (Ha&Hl&He&Hv) Hpos. unfold safe_rm_mark_completed. unfold taken in *. destruct (eu_of p) as [eu|] eqn:Heu, (user_of ctx) as [u|] eqn:Hu;
    rewrite <- Ht in Ha.
  2-4: (split_and!; [|congruence..]; intros t; rewrite Ha, Hu; destruct (decide _); lia).
  destruct (mark_completed_local E (now sv p) u (Some eu) (p_rm p) (conj Hlocal Hl)) as ([_ Hm]&Hc&_).
  split_and!; [|done|unfold eu_of in *; cbn in *; congruence|done]. intros t. cbn. rewrite Hc, Ha, Hu. specialize (Hpos t).
  destruct (decide (u = t)), (decide (Some u = Some t)); try congruence; lia.
Qed.

Lemma record_usage_local e cpu mem calls r : exists r', record_usage E e cpu mem calls r = (r', Ok ()) /\ same_counts r r'.
Proof.
  destruct (record_usage E e cpu mem calls r) as [r' o] eqn:Hr. exists r'. split; [|by eapply record_usage_counts]. f_equal.
  revert Hr. unfold record_usage, record_cpu, record_memory, record_syscall, via_backend. rewrite Hbackend. cbn.
  destruct (_ =? 0); [by intros [= _ <-]|]. generalize (Z.to_nat (Z.max 0 calls)). intros n.
  match goal with |- backend_syscalls E n e ?s = _ -> _ => generalize s end.
  induction n as [|n IH]; intros s0; cbn; [by intros [= _ <-]|]. unfold via_backend. rewrite Hbackend. apply IH.
Qed.

Lemma record_and_complete_holds p0 p ms : taken p = taken p0 -> holds (taken p0) p0 p -> (forall t, 0 <= local_active (p_rm p0) t) ->
  holds 0 p0 (safe_rm_record_and_complete E sv ctx ms p).
Proof.
  intros Ht Hh Hpos. pose proof (mark_completed_holds p0 p Ht Hh Hpos) as Hm. unfold safe_rm_mark_completed, safe_rm_record_and_complete in *.
  destruct (eu_of p) as [eu|] eqn:Heu, (user_of ctx) as [u|] eqn:Hu; try done.
  destruct (record_usage_local eu ms 0 0 (p_rm p)) as (r'&->&Ha&_&Hr). clear Hm.
  pose proof (mark_completed_holds p0 (set_prm r' p)) as Hm. unfold safe_rm_mark_completed in Hm. change (eu_of (set_prm r' p)) with (eu_of p) in Hm.
  rewrite Heu, Hu in Hm. apply Hm; [done| |done]. destruct Hh as (A1&A2&A3&A4). split_and!; [|by cbn; rewrite Hr|done..].
  intros t. cbn. unfold local_active in *. by rewrite Ha.
Qed.

Variable handler : @pstate X S -> @pstate X S * (returned + raised).
Hypothesis Hhandler : forall p, local p -> steady p (handler p).1.

Lemma taken_steady p p' : eu_of p' = eu_of p -> taken p' = taken p.
Proof. unfold taken. by intros ->. Qed.

Lemma settle_success_holds started res sg d p0 p : holds (taken p0) p0 p -> (forall t, 0 <= local_active (p_rm p0) t) ->
  let '(p', held, _) := settle_success E gs sv ctx started res sg d p in holds (if held then taken p0 else 0) p0 p'.
Proof.
  intros Hh Hpos. unfold settle_success. pose proof (steady_signals sg p) as H1.
  destruct (apply_execution_signals _ _ _ p) as [p1 [n|e]]; cbn in H1; [|by eapply holds_steady].
  pose proof (steady_recall p1) as H2. destruct (safe_recall_memory_count _ _ p1) as [p2 k]. cbn in H2.
  assert (holds (taken p0) p0 p2) as Hh2 by (eapply holds_steady; [by eapply holds_steady|done]).
  assert (holds 0 p0 (safe_rm_record_and_complete E sv ctx d.2 p2)) as H3
    by (apply record_and_complete_holds; [apply taken_steady; by destruct Hh2 as (_&_&?&_)|done..]).
  set (p3 := safe_rm_record_and_complete _ _ _ _ _) in *.
  pose proof (steady_safe_emit "execution.completed" started (cx_db ctx) (route_payload ctx [("success", JBool true)]) p3) as H4.
  destruct (safe_emit_event _ _ _ _ _ _ p3) as [p4 ev]. cbn in H4. eapply holds_steady; [exact H3|].
  eapply steady_then; [exact H4|]. eapply steady_then; [apply steady_refs|apply steady_finalize].
Qed.

Lemma settle_wait_steady started res ev pl c p : steady p (settle_wait gs sv ctx started res ev pl c p).1.
Proof.
  unfold settle_wait. pose proof (steady_transition ev c p) as H1. destruct (safe_transition_eu_waiting _ _ _ _ _ p) as [p1 [r|e]]; [|done]. cbn in H1.
  pose proof (steady_safe_emit "execution.waiting" started (cx_db ctx) (dict_update (route_payload ctx [("wait_for", JStr ev)]) pl) p1) as H2.
  destruct (safe_emit_event _ _ _ _ _ _ p1) as [p2 id]. cbn in *. eapply steady_then; [exact H1|]. eapply steady_then; [exact H2|].
  eapply steady_then; [apply steady_refs|apply steady_waiting].
Qed.

Lemma except_steady started e p : steady p (except_clauses gs sv ctx started e p).1.
Proof.
  assert (forall code err det pl p, steady p (fail_with gs sv ctx started code err det pl p).1) as Hf.
  { intros code err det pl q. unfold fail_with. pose proof (steady_safe_emit "execution.failed" started (cx_db ctx) pl q) as H1.
    destruct (safe_emit_event _ _ _ _ _ _ q) as [p1 ev]. cbn in *. eapply steady_then; [exact H1|].
    eapply steady_then; [apply steady_refs|apply steady_finalize]. }
  destruct e as [w|code det|g]; cbn; [|apply Hf..].
  pose proof (steady_transition (sig_wait_for w) (sig_condition w) p) as H1. destruct (safe_transition_eu_waiting _ _ _ _ _ p) as [p1 [r|g]]; cbn in H1.
  - match goal with |- context [safe_emit_event sv ctx ?a ?b ?c ?d p1] => pose proof (steady_safe_emit a b c d p1) as H2;
      destruct (safe_emit_event sv ctx a b c d p1) as [p2 id] end.
    cbn in *. eapply steady_then; [exact H1|]. eapply steady_then; [exact H2|]. eapply steady_then; [apply steady_refs|apply steady_waiting].
  - eapply steady_then; [exact H1|apply Hf].
Qed.

Lemma after_handler_holds started res d p0 p : holds (taken p0) p0 p -> (forall t, 0 <= local_active (p_rm p0) t) ->
  let '(p', held, _) := after_handler E gs sv ctx started res d p in holds (if held then taken p0 else 0) p0 p'.
Proof.
  intros Hh Hpos. unfold after_handler.
  assert (forall sg, holds (taken p0) p0 (merge_queued_signals sg p).1) as Hm by (intros sg; eapply holds_steady; [exact Hh|apply steady_merge]).
  destruct res as [j|w|].
  3: { destruct (pv_enforce sv); [done|]. specialize (Hm []). destruct (merge_queued_signals [] p) as [p1 sg]. by apply settle_success_holds. }
  all: destruct (extract_signals _) as [[res' sg]|e]; [|done]; specialize (Hm sg); destruct (merge_queued_signals sg p) as [p1 sg'].
  all: destruct (detect_wait res') as [[[ev pl] c]|]; [|by apply settle_success_holds].
  all: pose proof (settle_wait_steady started res' ev pl c p1) as Hw; destruct (settle_wait _ _ _ _ _ _ _ _ p1) as [p2 o].
  all: by eapply holds_steady.
Qed.

Lemma try_block_holds fresh started p : local p -> (forall t, 0 <= local_active (p_rm p) t) ->
  let '(p', held, _) := try_block E gs sv ctx handler fresh started p in
  exists p0, (forall t, local_active (p_rm p0) t = local_active (p_rm p) t) /\ p_vars p0 = p_vars p /\ holds (if held then taken p0 else 0) p0 p'.
Proof.
  intros Hl Hpos. unfold try_block. destruct (require_eu_steady fresh p) as [Hr Hv]. set (p1 := safe_require_eu _ _ _ _ p) in *.
  pose proof (check_quota_steady started p1 ltac:(by rewrite Hr)) as Hq. destruct (safe_check_quota _ _ _ _ _ p1) as [p2 ok]. cbn in Hq.
  assert (local p2) as Hl2 by (destruct Hq as (_&->&_); by rewrite Hr).
  assert ((forall t, local_active (p_rm p2) t = local_active (p_rm p) t) /\ p_vars p2 = p_vars p) as [Ha2 Hv2]
    by (destruct Hq as (Ha&_&_&Hv'); rewrite Hr in Ha; split; [done|congruence]).
  destruct ok.
  2: { exists p2. split_and!; [done..|]. split_and!; try done. intros t. case_decide; lia. }
  pose proof (mark_started_holds p2 Hl2) as Hs. set (p3 := safe_rm_mark_started _ _ _ p2) in *.
  pose proof (Hhandler p3 ltac:(by destruct Hs as (_&?&_))) as Hh. destruct (handler p3) as [p4 [res|e]]; cbn in Hh.
  - assert (holds (taken p2) p2 p4) as H4 by (by eapply holds_steady).
    pose proof (after_handler_holds started res (pv_duration sv (p_ext p3) (p_ext p4)) p2 p4 H4) as Ha.
    destruct (after_handler _ _ _ _ _ _ _ p4) as [[p5 held] o]. exists p2. split_and!; [done..|]. apply Ha. intros t. by rewrite Ha2.
  - exists p2. split_and!; [done..|]. by eapply holds_steady.
Qed.

Lemma run_steady fresh p : local p -> (forall t, 0 <= local_active (p_rm p) t) ->
  let p' := (run E gs sv ctx handler fresh p).1 in
  (forall t, local_active (p_rm p') t = local_active (p_rm p) t) /\ p_vars p' = p_vars p.
Proof.
  intros Hl Hpos. unfold run.
  pose proof (steady_safe_emit "execution.started" None (cx_db ctx) (route_payload ctx []) p) as He.
  destruct (safe_emit_event _ _ _ _ _ _ p) as [p0 started]. destruct He as (Ha&Hr&_&Hv). cbn in Ha, Hr, Hv.
  set (entered := MkVars _ _ _).
  pose proof (try_block_holds fresh started (set_vars entered p0) ltac:(by cbn; rewrite Hr) ltac:(intros t; cbn; by rewrite Ha)) as Ht.
  destruct (try_block _ _ _ _ _ _ _ _) as [[p1 held] ended]. destruct Ht as (b&Hb&Hbv&Hh). cbn in Hb, Hbv.
  assert (holds (if held then taken b else 0) b (match ended with inl res => (p1, res) | inr e => except_clauses gs sv ctx started e p1 end).1) as H2.
  { destruct ended as [res|e]; [done|]. eapply holds_steady; [exact Hh|apply except_steady]. }
  destruct (match ended with inl res => (p1, res) | inr e => _ end) as [p2 res]. cbn in H2.
  assert (holds 0 b (if held then safe_rm_mark_completed E sv ctx p2 else p2)) as (H3&_&_&H4).
  { destruct held; [|done]. apply mark_completed_holds; [apply taken_steady; by destruct H2 as (_&_&?&_)|done|]. intros t. rewrite Hb, Ha. done. }
  set (p3 := if held then _ else p2) in *. cbn. split.
  - intros t. rewrite H3, Hb, Ha. case_decide; lia.
  - rewrite H4, Hbv. unfold entered. cbn. rewrite Hv. destruct started; by destruct (p_vars p).
Qed.
End steady.

(** C13: every request gives its slot back and restores its context.  With counters
    kept in the process, a run of the pipeline leaves the count of active executions
    of every tenant and the context variables (parent event, pipeline flag, current
    context) as it found them: on success, on a wait, on an HTTP error, on any
    other exception and on a refusal, whatever the services answer, for every
    handler that itself leaves them as it found them. *)
Theorem pipeline_leaves_no_trace {X S} `{IsoCodec} (E : env X) (gs : gate_session S) (sv : @pipeline_services X S) ctx handler fresh p :
  env_redis_url E = false -> env_backend E = None ->
  (forall q, rm_redis (p_rm q) = false -> steady q (handler q).1) ->
  rm_redis (p_rm p) = false -> (forall t, 0 <= local_active (p_rm p) t) ->
  let p' := (run E gs sv ctx handler fresh p).1 in
  (forall t, local_active (p_rm p') t = local_active (p_rm p) t) /\ p_vars p' = p_vars p.
Proof. intros H1 H2 H3 H4 H5. by apply run_steady. Qed.

(** ** What is committed

    [work] is what the session of the request shows and [saved] what the database
    has.  A flush changes the first only; emitting an event commits the session, and
    an event that could not be stored rolls it back ([core/system_event_service.py]);
    closing the session of a request discards what was not committed
    ([get_db] of [db/database.py]).  Capturing or recalling a memory may commit. *)
Definition delivered (r : result (option string)) : bool := match r with Ok o => bool_decide (is_Some (str_or_none o)) | Raise _ => false end.
Class TxLaws {X S} (gs : gate_session S) (sv : @pipeline_services X S) (work saved : S -> gmap UUID ExecutionUnit) := {
  tx_session :: SessionLaws (gs_db gs) work;
  tx_first id s : saved (db_first (gs_db gs) id s).1 = saved s;
  tx_add e s : saved (db_add (gs_db gs) e s).1 = saved s;
  tx_flush e s : saved (db_flush (gs_db gs) e s).1 = saved s;
  tx_source ty id s : work (gs_by_source gs ty id s).1 = work s /\ saved (gs_by_source gs ty id s).1 = saved s;
  tx_source_none ty id s : (forall u e, work s !! u = Some e -> ~ (eu_source_type e = Some ty /\ eu_source_id e = Some id)) ->
    (gs_by_source gs ty id s).2 = None;
  tx_emit ev x s : let '(_, s', r) := pv_emit sv ev x s in
    work s' = (if delivered r then work s else saved s) /\ saved s' = (if delivered r then work s else saved s);
  tx_capture hint x s : let '(_, s', _) := pv_capture sv hint x s in work s' = work s;
  tx_recall x s : let '(_, s', _) := pv_recall sv x s in work s' = work s
}.

Section committed.
Context {X S : Type} `{IsoCodec} (E : env X) (gs : gate_session S) (sv : @pipeline_services X S) (ctx : context).
Context (work saved : S -> gmap UUID ExecutionUnit) `{!TxLaws gs sv work saved}.
Hypothesis Hdb : cx_db ctx = true.
Hypothesis Hreliable : reliable (gs_db gs).
Hypothesis Hemit : forall ev x s, delivered (pv_emit sv ev x s).2 = true.
Implicit Types (p : @pstate X S).
Notation table p := (work (p_units p)).
Notation stored p := (saved (p_units p)).

Lemma modify_saved id f s : saved (modify (gs_db gs) id f s).1 = saved s.
Proof.
  unfold modify. pose proof (tx_first (coerce_uuid id) s) as H1. destruct (db_first _ _ s) as [s1 [[e|]|ex]]; try done. cbn in H1.
  destruct (f e) as [e'|]; [|done]. pose proof (tx_flush e' s1) as H2. destruct (db_flush _ e' s1) as [s2 r]. cbn in *. congruence.
Qed.

(** An event inside the pipeline commits the session and leaves the rows as they are. *)
Lemma emit_commits ty u tr par req pl p : cv_active (p_vars p) = true ->
  let p' := (emit_system_event sv ty u tr par req pl p).1 in table p' = table p /\ stored p' = table p.
Proof.
  intros Ha. unfold emit_system_event. rewrite Ha, andb_false_r. cbn [negb andb].
  match goal with |- context [pv_emit sv ?e ?x ?s] => pose proof (tx_emit e x s) as Ht; pose proof (Hemit e x s) as Hd; destruct (pv_emit sv e x s) as [[x' s'] r] end.
  cbn in Hd. rewrite Hd in Ht. done.
Qed.
Lemma emit_safe_commits ty par req pl p : cv_active (p_vars p) = true ->
  let p' := (safe_emit_event sv ctx ty par req pl p).1 in table p' = table p /\ stored p' = table p.
Proof.
  intros Ha. unfold safe_emit_event. rewrite Hdb. pose proof (emit_commits ty (cx_user ctx) (cx_request_id ctx) par req pl p Ha) as He.
  destruct (emit_system_event sv ty _ _ par req pl p) as [p1 [o|e]]; [destruct (str_or_none o)|]; done.
Qed.

Lemma capture_table hint p : table (safe_capture_memory_hint sv ctx hint p).1 = table p.
Proof.
  unfold safe_capture_memory_hint. rewrite Hdb. pose proof (tx_capture hint (p_ext p) (p_units p)) as Ht.
  by destruct (pv_capture sv _ _ _) as [[x s] [r|e]].
Qed.
Lemma memory_table j p : table (apply_memory_signals sv ctx j p).1 = table p.
Proof.
  unfold apply_memory_signals. generalize 0. revert p. induction (signal_items j) as [|hint l IH]; intros p n; [done|]. cbn.
  pose proof (capture_table hint p) as Hc. destruct (safe_capture_memory_hint sv ctx hint p) as [p1 ok]. cbn in *. by rewrite IH.
Qed.
Lemma events_table j p : cv_active (p_vars p) = true -> table (apply_event_signals sv ctx j p) = table p.
Proof.
  unfold apply_event_signals. revert p. induction (signal_items j) as [|ev l IH]; intros p Ha; [done|]. cbn.
  assert (table (apply_event_signal sv ctx ev p) = table p /\ p_vars (apply_event_signal sv ctx ev p) = p_vars p) as [Ht Hv].
  { unfold apply_event_signal. case_match; [|done]. case_match; [|done]. split; [by apply emit_commits|].
    match goal with |- p_vars (emit_system_event sv ?a ?b ?c ?d ?e ?f p).1 = _ => by destruct (steady_emit sv a b c d e f p) as (_&_&_&->) end. }
  rewrite IH by (by rewrite Hv). done.
Qed.
Lemma signals_table sg p : cv_active (p_vars p) = true -> table (apply_execution_signals sv ctx sg p).1 = table p.
Proof.
  intros Ha. unfold apply_execution_signals.
  pose proof (memory_table (jget sg "memory") p) as H1. pose proof (steady_memory sv ctx (jget sg "memory") p) as (_&_&_&V1).
  destruct (apply_memory_signals _ _ _ p) as [p1 n]. cbn in H1, V1.
  pose proof (events_table (jget sg "events") p1 ltac:(by rewrite V1)) as H2. pose proof (steady_events sv ctx (jget sg "events") p1) as (_&_&_&V2).
  set (p2 := apply_event_signals _ _ _ p1) in *. unfold merge_queued_signals.
  destruct (_ || _); [|cbn; congruence].
  match goal with |- context [apply_memory_signals sv ctx ?j ?q] => pose proof (memory_table j q) as H4; pose proof (steady_memory sv ctx j q) as (_&_&_&V4);
    destruct (apply_memory_signals sv ctx j q) as [p5 k] end.
  cbn in *. rewrite events_table by congruence. congruence.
Qed.
Lemma recall_table p : table (safe_recall_memory_count sv ctx p).1 = table p.
Proof.
  unfold safe_recall_memory_count. destruct (user_of ctx); [|done]. rewrite Hdb. pose proof (tx_recall (p_ext p) (p_units p)) as Ht.
  by destruct (pv_recall sv _ _) as [[x s0] [n|e]].
Qed.

Lemma emit_safe_table ty par req pl p : table (safe_emit_event sv ctx ty par req pl p).1 = table p.
Proof.
  unfold safe_emit_event. rewrite Hdb. assert (table (emit_system_event sv ty (cx_user ctx) (cx_request_id ctx) par req pl p).1 = table p) as He.
  { unfold emit_system_event. case_match; [done|].
    match goal with |- context [pv_emit sv ?e ?x ?s] => pose proof (tx_emit e x s) as Ht; pose proof (Hemit e x s) as Hd; destruct (pv_emit sv e x s) as [[x' s'] r] end.
    cbn in Hd. rewrite Hd in Ht. by destruct Ht. }
  destruct (emit_system_event sv ty _ _ par req pl p) as [p1 [o|e]]; [destruct (str_or_none o)|]; done.
Qed.

(** *** Entering the handler with a unit of its own *)
Variable user : string.
Hypothesis Huser : user_of ctx = Some user.
Hypothesis Hlocal : env_redis_url E = false.
Hypothesis Htesting : env_testing E = false.
Hypothesis Hadd : forall e s, is_ok (db_add (gs_db gs) e s).2 = true.
Variable fresh : UUID.
Hypothesis Hfresh : uuid_of_string (uuid_to_string fresh) = Some fresh.

Lemma text_nonempty : str_or_none (Some (uuid_to_string fresh)) = Some (uuid_to_string fresh).
Proof. apply str_or_none_Some. split; [done|]. intros Heq. rewrite Heq in Hfresh. discriminate. Qed.

(** A request whose session holds nothing of its own yet, below the tenant's limit *)
Record eligible p : Prop := {
  el_new : forall u e, table p !! u = Some e -> ~ (eu_source_type e = Some "route" /\ eu_source_id e = Some (cx_request_id ctx));
  el_local : rm_redis (p_rm p) = false;
  el_below : local_active (p_rm p) user < env_max_concurrent E
}.

Lemma require_eu_new p :
  (forall u e, table p !! u = Some e -> ~ (eu_source_type e = Some "route" /\ eu_source_id e = Some (cx_request_id ctx))) -> exists u0, eu_status u0 = "executing" /\ eu_completed_at u0 = None /\
  let p' := safe_require_eu gs sv ctx fresh p in
  table p' = <[fresh := u0]> (table p) /\ eu_of p' = Some (uuid_to_string fresh).
Proof.
  intros Hnew. unfold safe_require_eu. rewrite Huser, Hdb. unfold require_execution_unit.
  destruct (tx_source "route" (cx_request_id ctx) (p_units p)) as [Hw _]. pose proof (tx_source_none "route" (cx_request_id ctx) (p_units p) Hnew) as Hn.
  destruct (gs_by_source gs _ _ (p_units p)) as [s1 o]. cbn in Hw, Hn. subst o. unfold create.
  match goal with |- context [db_add _ ?e s1] => pose proof (law_add (db := gs_db gs) e s1) as Ha; pose proof (Hadd e s1) as Hok; exists e; destruct (db_add _ e s1) as [s2 r] end.
  cbn in Ha, Hok. destruct r as [r|x]; [|done]. cbn in Ha |- *. split_and!; [done..|by rewrite Ha, Hw|]. apply text_nonempty.
Qed.

Lemma try_block_enters handler started p : eligible p -> exists p3 u0, eu_status u0 = "executing" /\ eu_completed_at u0 = None /\
  table p3 = <[fresh := u0]> (table p) /\ eu_of p3 = Some (uuid_to_string fresh) /\ p_vars p3 = p_vars p /\
  try_block E gs sv ctx handler fresh started p =
    match handler p3 with
    | (p4, inr e) => (p4, true, inr e)
    | (p4, inl res) => after_handler E gs sv ctx started res (pv_duration sv (p_ext p3) (p_ext p4)) p4
    end.
Proof.
  intros Hel. destruct (require_eu_new p (el_new _ Hel)) as (u0&Hs&Hc&Ht&He). destruct (require_eu_steady gs sv ctx fresh p) as [Hr Hv].
  unfold try_block. set (p1 := safe_require_eu _ _ _ _ p) in *. unfold safe_check_quota. rewrite He, Huser.
  destruct (can_execute E (now sv p1) user (p_rm p1)) as [r o] eqn:Hcan.
  destruct (can_execute_local E (now sv p1) user (p_rm p1) r o Htesting) as [_ Hnone]; [by rewrite Hr; split; [|apply Hel]|done|].
  rewrite (proj2 Hnone) in * by (rewrite Hr; apply Hel).
  exists (safe_rm_mark_started E sv ctx (set_prm r p1)), u0. unfold safe_rm_mark_started. change (eu_of (set_prm r p1)) with (eu_of p1). rewrite He, Huser.
  split_and!; done.
Qed.

Lemma eligible_started p : eligible p ->
  let '(p0, started) := safe_emit_event sv ctx "execution.started" None (cx_db ctx) (route_payload ctx []) p in
  forall v, eligible (set_vars v p0).
Proof.
  intros [H1 H2 H3]. pose proof (emit_safe_table "execution.started" None (cx_db ctx) (route_payload ctx []) p) as Ht.
  pose proof (steady_safe_emit sv ctx "execution.started" None (cx_db ctx) (route_payload ctx []) p) as (Ha&Hr&_).
  destruct (safe_emit_event _ _ _ _ _ _ p) as [p0 started]. cbn in *. intros v. split; cbn; [by rewrite Ht|congruence|by rewrite Ha].
Qed.

(** A handler that leaves the unit of its request, and the context, alone *)
Definition discreet (handler : @pstate X S -> @pstate X S * (returned + raised)) : Prop :=
  forall p, table (handler p).1 !! fresh = table p !! fresh /\ eu_of (handler p).1 = eu_of p /\ p_vars (handler p).1 = p_vars p.

(** Finishing a unit: the row in the session changes and the stored one does not. *)
Lemma finalize_unsaved st p u0 : eu_of p = Some (uuid_to_string fresh) -> table p !! fresh = Some u0 ->
  may_transition (eu_status u0) st = true ->
  let p' := safe_finalize_eu gs sv ctx st p in
  stored p' = stored p /\ exists u', table p' !! fresh = Some u' /\ eu_status u' = st.
Proof.
  intros He Ht Hm. unfold safe_finalize_eu. rewrite He, Hdb.
  destruct (update_reliable (gs_db gs) work (now sv p) (IdText (uuid_to_string fresh)) st (p_units p) fresh u0 Hreliable Hfresh Ht) as (s'&Hu&Hv).
  pose proof (modify_saved (IdText (uuid_to_string fresh)) (fun eu => if may_transition (eu_status eu) st then Some (set_status eu st (now sv p)) else None) (p_units p)) as Hs.
  change (modify _ _ _ _) with (update_status (gs_db gs) (now sv p) (IdText (uuid_to_string fresh)) st (p_units p)) in Hs.
  rewrite Hu in Hs |- *. rewrite Hm in Hv |- *. cbn in *. split; [done|]. exists (set_status u0 st (now sv p)). by rewrite Hv, lookup_insert_eq.
Qed.

Lemma settle_success_unsaved started res d p u0 : cv_active (p_vars p) = true -> eu_of p = Some (uuid_to_string fresh) ->
  table p !! fresh = Some u0 -> eu_status u0 = "executing" ->
  forall sg, apply_log_signal (jget sg "log") = Ok () ->
  exists p' r, settle_success E gs sv ctx started res sg d p = (p', false, inl r) /\ pr_success r = true /\
    stored p' !! fresh = Some u0 /\ exists u', table p' !! fresh = Some u' /\ eu_status u' = "completed".
Proof.
  intros Ha He Ht Hs sg Hlog. unfold settle_success.
  pose proof (signals_table sg p Ha) as T1. pose proof (steady_signals sv ctx sg p) as (_&_&E1&V1).
  assert (exists n, (apply_execution_signals sv ctx sg p).2 = Ok n) as [n Hn].
  { unfold apply_execution_signals. destruct (apply_memory_signals _ _ _ p) as [q n]. destruct (merge_queued_signals [] _) as [q' g].
    rewrite Hlog. destruct (_ || _); [destruct (apply_memory_signals _ _ _ q') as [q5 k]|]; by eexists. }
  destruct (apply_execution_signals sv ctx sg p) as [p1 o]. cbn in T1, E1, V1, Hn. subst o.
  pose proof (recall_table p1) as T2. pose proof (steady_recall sv ctx p1) as (_&_&E2&V2).
  destruct (safe_recall_memory_count sv ctx p1) as [p2 k]. cbn in T2, E2, V2.
  set (p3 := safe_rm_record_and_complete E sv ctx d.2 p2).
  assert (p_units p3 = p_units p2 /\ eu_of p3 = eu_of p2 /\ p_vars p3 = p_vars p2) as (U3&E3&V3).
  { unfold p3, safe_rm_record_and_complete. destruct (eu_of p2) as [eu|] eqn:He2; [|by rewrite He2]. rewrite Huser. by destruct (record_usage _ _ _ _ _ _) as [r [|]]. }
  pose proof (emit_safe_commits "execution.completed" started (cx_db ctx) (route_payload ctx [("success", JBool true)]) p3 ltac:(congruence)) as [T4 S4].
  pose proof (steady_safe_emit sv ctx "execution.completed" started (cx_db ctx) (route_payload ctx [("success", JBool true)]) p3) as (_&_&E4&V4).
  destruct (safe_emit_event _ _ _ _ _ _ p3) as [p4 ev]. cbn in T4, S4, E4.
  assert (table p4 !! fresh = Some u0) as Ht4 by (rewrite T4, U3, T2, T1; done).
  destruct (finalize_unsaved "completed" (set_event_refs started ev true p4) u0) as [Hst Hwk].
  - change (eu_of (set_event_refs started ev true p4)) with (eu_of p4). congruence.
  - done.
  - by rewrite Hs.
  - eexists _, _. split; [reflexivity|]. split; [done|]. split; [|done]. rewrite Hst. cbn. rewrite S4, U3, T2, T1. done.
Qed.

(** *** Waiting *)
Lemma transition_waits wait_for cond c p u0 : eu_of p = Some (uuid_to_string fresh) -> table p !! fresh = Some u0 -> eu_status u0 = "executing" ->
  match cond with Some c => Ok c | None => for_event wait_for (Some (trace_of ctx p)) end = Ok c ->
  (forall reg x, is_ok (pv_register sv reg x).2 = true) ->
  exists p' u', safe_transition_eu_waiting gs sv ctx wait_for cond p = (p', Ok ()) /\ table p' !! fresh = Some u' /\
    eu_status u' = "waiting" /\ eu_wait_condition u' = Some (to_dict c) /\ p_vars p' = p_vars p.
Proof.
  intros He Ht Hs Hc Hreg. unfold safe_transition_eu_waiting. rewrite He, Hdb. unfold enter_wait. rewrite Hc.
  destruct (update_reliable (gs_db gs) work (now sv p) (IdText (uuid_to_string fresh)) "waiting" (p_units p) fresh u0 Hreliable Hfresh Ht) as (s1&Hu1&Hv1).
  rewrite Hu1. rewrite Hs in Hv1 |- *. change (may_transition "executing" "waiting") with true in *. cbv iota in *.
  set (u1 := set_status u0 "waiting" (now sv p)) in *. set (p1 := set_punits s1 p).
  destruct (modify_reliable (gs_db gs) work (IdText (uuid_to_string fresh)) (fun eu => Some (set_wait eu (Some (to_dict c)) (now sv p1))) s1 fresh u1)
    as (s2&Hm2&Hv2); [done|done|by rewrite Hv1, lookup_insert_eq|by intros e' [= <-]|].
  unfold set_wait_condition. cbn [p1 set_punits p_units]. rewrite Hm2. cbn [p_units]. cbv iota.
  match goal with |- context [pv_register sv ?reg ?x] => pose proof (Hreg reg x) as Hr; destruct (pv_register sv reg x) as [x' [r|e]]; [|done] end.
  eexists _, (set_wait u1 (Some (to_dict c)) (now sv p1)). split; [reflexivity|]. cbn. by rewrite Hv2, lookup_insert_eq.
Qed.

(** The rest of both ways to wait: the event commits the session. *)
Lemma announce_wait started wait_for payload p : cv_active (p_vars p) = true ->
  let '(p1, ev) := safe_emit_event sv ctx "execution.waiting" started (cx_db ctx) payload p in
  stored (set_waiting_for wait_for (set_event_refs started ev false p1)) = table p.
Proof.
  intros Ha. pose proof (emit_safe_commits "execution.waiting" started (cx_db ctx) payload p Ha) as [_ Hs].
  by destruct (safe_emit_event _ _ _ _ _ _ p) as [p1 ev].
Qed.
End committed.

Lemma mark_completed_units {X S} (E : env X) (sv : @pipeline_services X S) ctx p : p_units (safe_rm_mark_completed E sv ctx p) = p_units p.
Proof. unfold safe_rm_mark_completed. by destruct (eu_of p), (user_of ctx). Qed.
Lemma merge_log {X S} (p : @pstate X S) : jget (merge_queued_signals [] p).2 "log" = JNull.
Proof. unfold merge_queued_signals. cbn. by repeat case_match. Qed.
Lemma after_handler_plain {X S} `{IsoCodec} (E : env X) (gs : gate_session S) (sv : @pipeline_services X S) ctx started res d p :
  res <> RResponse -> extract_signals res = Ok (res, []) -> detect_wait res = None ->
  after_handler E gs sv ctx started res d p = settle_success E gs sv ctx started res (merge_queued_signals [] p).2 d (set_queued [] p).
Proof. intros Hn Hs Hw. unfold after_handler. destruct res as [j|w|]; [..|done]; by rewrite Hs; cbn [fst snd merge_queued_signals]; rewrite Hw. Qed.

(** a finished request stays executing in the database.  A request that is
    below the tenant's limit gets a new unit, and its handler returns a plain
    result; every event is stored and every flush succeeds.  The pipeline reports
    success and its session shows the unit completed, but the last commit is the one
    of the event before that, so the database keeps the unit executing when the
    session of the request is closed. *)
Theorem finished_unit_stays_executing {X S} `{IsoCodec} (E : env X) (gs : gate_session S) (sv : @pipeline_services X S) ctx work saved
    `{!TxLaws gs sv work saved} handler user fresh res p :
  cx_db ctx = true -> user_of ctx = Some user -> reliable (gs_db gs) -> (forall e s, is_ok (db_add (gs_db gs) e s).2 = true) ->
  (forall ev x s, delivered (pv_emit sv ev x s).2 = true) -> env_redis_url E = false -> env_testing E = false ->
  uuid_of_string (uuid_to_string fresh) = Some fresh -> eligible E ctx work user p ->
  discreet work fresh handler -> (forall q, (handler q).2 = inl res) ->
  res <> RResponse -> extract_signals res = Ok (res, []) -> detect_wait res = None ->
  let (p', r) := run E gs sv ctx handler fresh p in
  pr_success r = true /\
  (exists u, saved (p_units p') !! fresh = Some u /\ eu_status u = "executing" /\ eu_completed_at u = None) /\
  (exists u, work (p_units p') !! fresh = Some u /\ eu_status u = "completed").
Proof.
  intros Hdb Hu Hrel Hadd Hemit Hl Htest Hf Hel Hdis Hres Hnr Hsig Hw. unfold run.
  pose proof (eligible_started E gs sv ctx work saved Hdb Hemit user p Hel) as Hst.
  destruct (safe_emit_event _ _ _ _ _ _ p) as [p0 started]. set (v := MkVars _ _ _).
  destruct (try_block_enters E gs sv ctx work saved Hdb user Hu Hl Htest Hadd fresh Hf handler started (set_vars v p0) (Hst v))
    as (p3&u0&Hs&Hc&Ht&He&Hv&->).
  destruct (Hdis p3) as (D1&D2&D3). specialize (Hres p3). destruct (handler p3) as [p4 o]. cbn in D1, D2, D3, Hres. subst o.
  rewrite after_handler_plain by done.
  destruct (settle_success_unsaved E gs sv ctx work saved Hdb Hrel Hemit user Hu fresh Hf started res (pv_duration sv (p_ext p3) (p_ext p4))
    (set_queued [] p4) u0) with (sg := (merge_queued_signals [] p4).2) as (p'&r'&->&Hok&Hsv&Hwk).
  - cbn. by rewrite D3, Hv.
  - change (eu_of (set_queued [] p4)) with (eu_of p4). congruence.
  - cbn. by rewrite D1, Ht, lookup_insert_eq.
  - done.
  - by rewrite merge_log.
  - cbn. split_and!; [done|by exists u0|done].
Qed.

(** The circumstances of the theorems on waits: a request with a new unit below the
    tenant's limit, a session and an event store that work, and a scheduler that
    registers *)
Record can_wait {X S} (E : env X) (gs : gate_session S) (sv : @pipeline_services X S) ctx (work : S -> gmap UUID ExecutionUnit) (user : string) (fresh : UUID)
    (p : @pstate X S) : Prop := {
  cw_db : cx_db ctx = true; cw_user : user_of ctx = Some user; cw_reliable : reliable (gs_db gs);
  cw_add : forall e s, is_ok (db_add (gs_db gs) e s).2 = true;
  cw_emit : forall ev x s, delivered (pv_emit sv ev x s).2 = true;
  cw_register : forall reg x, is_ok (pv_register sv reg x).2 = true;
  cw_local : env_redis_url E = false; cw_testing : env_testing E = false;
  cw_fresh : uuid_of_string (uuid_to_string fresh) = Some fresh; cw_eligible : eligible E ctx work user p
}.

(** a wait is stored before the request is answered.  When a handler raises a
    wait signal, the answer is a success with status waiting, and the database has
    the unit waiting with the condition of the signal, or with one for its event. *)
Theorem wait_signal_stored {X S} `{IsoCodec} (E : env X) (gs : gate_session S) (sv : @pipeline_services X S) ctx work saved
    `{!TxLaws gs sv work saved} handler user fresh w p :
  can_wait E gs sv ctx work user fresh p -> discreet work fresh handler -> (forall q, (handler q).2 = inr (EWait w)) ->
  (sig_condition w = None -> forall trace, is_ok (for_event (sig_wait_for w) (Some trace)) = true) ->
  let (p', r) := run E gs sv ctx handler fresh p in
  pr_success r = true /\ status_label r = "waiting" /\
  exists u c, saved (p_units p') !! fresh = Some u /\ eu_status u = "waiting" /\ eu_wait_condition u = Some (to_dict c) /\
    (sig_condition w = Some c \/ sig_condition w = None /\ exists trace, for_event (sig_wait_for w) (Some trace) = Ok c).
Proof.
  intros [Hdb Hu Hrel Hadd Hemit Hreg Hl Htest Hf Hel] Hdis Hres Hcond. unfold run.
  pose proof (eligible_started E gs sv ctx work saved Hdb Hemit user p Hel) as Hst.
  destruct (safe_emit_event _ _ _ _ _ _ p) as [p0 started]. set (v := MkVars _ _ _).
  destruct (try_block_enters E gs sv ctx work saved Hdb user Hu Hl Htest Hadd fresh Hf handler started (set_vars v p0) (Hst v))
    as (p3&u0&Hs&Hc&Ht&He&Hv&->).
  destruct (Hdis p3) as (D1&D2&D3). specialize (Hres p3). destruct (handler p3) as [p4 o]. cbn in D1, D2, D3, Hres. subst o.
  assert (exists c, match sig_condition w with Some c => Ok c | None => for_event (sig_wait_for w) (Some (trace_of ctx p4)) end = Ok c /\
    (sig_condition w = Some c \/ sig_condition w = None /\ exists trace, for_event (sig_wait_for w) (Some trace) = Ok c)) as (c&Hok&Hwhich).
  { destruct (sig_condition w) as [c|]; [exists c; split; [done|by left]|]. specialize (Hcond eq_refl (trace_of ctx p4)).
    destruct (for_event _ _) as [c|] eqn:Hfe; [|done]. exists c. split; [done|]. right. eauto. }
  destruct (transition_waits gs sv ctx work saved Hdb Hrel fresh Hf (sig_wait_for w) (sig_condition w) c p4 u0) as (p5&u'&Htr&Hwt&Hws&Hwc&Hwv);
    [congruence|by rewrite D1, Ht, lookup_insert_eq|done|done|done|].
  cbn [except_clauses]. rewrite Htr.
  match goal with |- context [safe_emit_event sv ctx _ started _ ?pl p5] =>
    pose proof (announce_wait gs sv ctx work saved Hdb Hemit started (sig_wait_for w) pl p5 ltac:(by rewrite Hwv, D3, Hv)) as Ha;
    destruct (safe_emit_event sv ctx _ started _ pl p5) as [p6 ev] end.
  split; [done|]. split; [done|]. exists u', c. split_and!; try done. rewrite <- Hwt, <- Ha. cbn [set_vars p_units]. by rewrite mark_completed_units.
Qed.

(** a payload with status waiting is taken for a wait.  A handler that only
    returns a dictionary whose [status] is waiting, such as the description of a
    waiting run, makes its own request wait: the request is answered as waiting and
    its unit is stored waiting for the event named in the payload. *)
Theorem payload_taken_for_wait {X S} `{IsoCodec} (E : env X) (gs : gate_session S) (sv : @pipeline_services X S) ctx work saved
    `{!TxLaws gs sv work saved} handler user fresh d ev p :
  can_wait E gs sv ctx work user fresh p -> discreet work fresh handler -> (forall q, (handler q).2 = inl (RJson (JObj d))) ->
  extract_signals (RJson (JObj d)) = Ok (RJson (JObj d), []) ->
  str_upper (or_text (jget d "status") "") = "WAITING" -> jget d "wait_for" = JNull -> jget d "waiting_for" = JStr ev -> ev <> "" ->
  (forall trace, is_ok (for_event ev (Some trace)) = true) ->
  let (p', r) := run E gs sv ctx handler fresh p in
  status_label r = "waiting" /\
  exists u trace c, saved (p_units p') !! fresh = Some u /\ eu_status u = "waiting" /\ eu_wait_condition u = Some (to_dict c) /\
    for_event ev (Some trace) = Ok c.
Proof.
  intros [Hdb Hu Hrel Hadd Hemit Hreg Hl Htest Hf Hel] Hdis Hres Hsig Hst Hw1 Hw2 Hev Hfe. unfold run.
  pose proof (eligible_started E gs sv ctx work saved Hdb Hemit user p Hel) as Hel'.
  destruct (safe_emit_event _ _ _ _ _ _ p) as [p0 started]. set (v := MkVars _ _ _).
  destruct (try_block_enters E gs sv ctx work saved Hdb user Hu Hl Htest Hadd fresh Hf handler started (set_vars v p0) (Hel' v))
    as (p3&u0&Hs&Hc&Ht&He&Hv&->).
  destruct (Hdis p3) as (D1&D2&D3). specialize (Hres p3). destruct (handler p3) as [p4 o]. cbn [fst snd] in D1, D2, D3, Hres. subst o.
  assert (detect_wait (RJson (JObj d)) = Some (ev, [], None)) as Hd.
  { unfold detect_wait. rewrite Hst, Hw1, Hw2. change (or_text JNull ?x) with x. unfold or_text. cbn. by destruct ev. }
  unfold after_handler. rewrite Hsig. cbn [merge_queued_signals fst snd]. rewrite Hd. unfold settle_wait.
  set (q := set_queued [] p4). specialize (Hfe (trace_of ctx q)). destruct (for_event ev (Some (trace_of ctx q))) as [c|] eqn:Hc'; [|done].
  destruct (transition_waits gs sv ctx work saved Hdb Hrel fresh Hf ev None c q u0) as (p5&u'&Htr&Hwt&Hws&Hwc&Hwv);
    [change (eu_of q) with (eu_of p4); congruence|by cbn; rewrite D1, Ht, lookup_insert_eq|done|done|done|].
  rewrite Htr.
  match goal with |- context [safe_emit_event sv ctx _ started _ ?pl p5] =>
    pose proof (announce_wait gs sv ctx work saved Hdb Hemit started ev pl p5 ltac:(rewrite Hwv; cbn; by rewrite D3, Hv)) as Ha;
    destruct (safe_emit_event sv ctx _ started _ pl p5) as [p6 id] end.
  split; [done|]. exists u', (trace_of ctx q), c. split_and!; try done. rewrite <- Hwt, <- Ha. cbn [set_vars p_units]. by rewrite mark_completed_units.
Qed.

(** *** Event references *)
Section refs.
Context {X S : Type} `{IsoCodec} (E : env X) (gs : gate_session S) (sv : @pipeline_services X S) (ctx : context).
Implicit Types (p : @pstate X S).
Notation refs p := (md_event_refs (p_md p)).
Definition unstarted (l : list (string * string)) : Prop := forall id, ("execution.started", id) ∉ l.

Lemma refs_emit ty u tr par req pl p : p_md (emit_system_event sv ty u tr par req pl p).1 = p_md p.
Proof. unfold emit_system_event. case_match; [done|]. by destruct (pv_emit sv _ _ _) as [[x s] r]. Qed.
Lemma refs_safe_emit ty par req pl p : refs (safe_emit_event sv ctx ty par req pl p).1 = refs p.
Proof.
  unfold safe_emit_event. destruct (cx_db ctx); [|by destruct req]. pose proof (refs_emit ty (cx_user ctx) (cx_request_id ctx) par req pl p) as He.
  destruct (emit_system_event _ _ _ _ _ _ _ p) as [p1 [o|e]]; [destruct (str_or_none o)|]; cbn in *; by rewrite He.
Qed.
Lemma refs_finalize st p : refs (safe_finalize_eu gs sv ctx st p) = refs p.
Proof. unfold safe_finalize_eu. destruct (eu_of p); [|done]. destruct (cx_db ctx); [|done]. by destruct (update_status _ _ _ _ _) as [s0 []]. Qed.
Lemma refs_require fresh p : refs (safe_require_eu gs sv ctx fresh p) = refs p.
Proof.
  unfold safe_require_eu. destruct (user_of ctx); [|done]. destruct (cx_db ctx); [|done].
  by destruct (require_execution_unit _ _ _ _ _ _ _ _ _) as [s0 [id|]].
Qed.
Lemma set_refs_unstarted terminal completed p : unstarted (refs (set_event_refs None terminal completed p)).
Proof. intros id. cbn. destruct (str_or_none terminal); cbn; [|apply not_elem_of_nil]. destruct completed; set_solver. Qed.

Lemma quota_refs started p : refs (safe_check_quota E gs sv ctx started p).1 = refs p.
Proof.
  unfold safe_check_quota. destruct (eu_of p); [|done]. destruct (user_of ctx) as [u|]; [|done]. destruct (can_execute _ _ _ _) as [r [reason|]]; [|done].
  match goal with |- context [safe_emit_event sv ctx ?a ?b ?c ?d ?q] => pose proof (refs_safe_emit a b c d q) as He; destruct (safe_emit_event sv ctx a b c d q) as [p2 ev] end.
  cbn in *. by rewrite refs_finalize, He.
Qed.

Lemma settle_wait_refs res ev pl c p r : (settle_wait gs sv ctx None res ev pl c p).2 = inl r -> unstarted (md_event_refs (pr_md r)).
Proof.
  unfold settle_wait. destruct (safe_transition_eu_waiting _ _ _ _ _ p) as [p1 [o|e]]; [|done].
  destruct (safe_emit_event _ _ _ _ _ _ p1) as [p2 id]. intros [= <-]. cbn. apply (set_refs_unstarted id false p2).
Qed.
Lemma settle_success_refs res sg d p r : (settle_success E gs sv ctx None res sg d p).2 = inl r -> unstarted (md_event_refs (pr_md r)).
Proof.
  unfold settle_success. destruct (apply_execution_signals _ _ _ p) as [p1 [n|e]]; [|done]. destruct (safe_recall_memory_count _ _ p1) as [p2 k].
  destruct (safe_emit_event _ _ _ _ _ _ _) as [p4 ev]. intros [= <-]. cbn [pr_md]. rewrite refs_finalize. apply set_refs_unstarted.
Qed.
Lemma after_handler_refs res d p r : (after_handler E gs sv ctx None res d p).2 = inl r -> unstarted (md_event_refs (pr_md r)).
Proof.
  unfold after_handler. destruct res as [j|w|].
  3: { destruct (pv_enforce sv); [done|]. destruct (merge_queued_signals [] p) as [p1 sg]. apply settle_success_refs. }
  all: destruct (extract_signals _) as [[res' sg]|e]; [|done]; destruct (merge_queued_signals sg p) as [p1 sg'].
  all: destruct (detect_wait res') as [[[ev pl] c]|]; [|apply settle_success_refs].
  all: pose proof (settle_wait_refs res' ev pl c p1 r) as Hw; by destruct (settle_wait _ _ _ _ _ _ _ _ p1) as [p2 o].
Qed.
Lemma except_refs e p : unstarted (md_event_refs (pr_md (except_clauses gs sv ctx None e p).2)).
Proof.
  assert (forall code err det pl p, unstarted (md_event_refs (pr_md (fail_with gs sv ctx None code err det pl p).2))) as Hf.
  { intros code err det pl q. unfold fail_with. destruct (safe_emit_event _ _ _ _ _ _ q) as [p1 ev]. cbn [snd pr_md failure_result].
    rewrite refs_finalize. apply set_refs_unstarted. }
  destruct e as [w|code det|g]; cbn [except_clauses]; [|apply Hf..].
  destruct (safe_transition_eu_waiting _ _ _ _ _ p) as [p1 [o|g]]; [|apply Hf].
  destruct (safe_emit_event _ _ _ _ _ _ p1) as [p2 id]. cbn [snd pr_md waiting_result]. apply (set_refs_unstarted id false p2).
Qed.
Lemma try_block_refs handler fresh p r : refs p = [] ->
  (try_block E gs sv ctx handler fresh None p).2 = inl r -> unstarted (md_event_refs (pr_md r)).
Proof.
  intros Hr. unfold try_block. pose proof (quota_refs None (safe_require_eu gs sv ctx fresh p)) as Hq. rewrite refs_require, Hr in Hq.
  destruct (safe_check_quota _ _ _ _ _ _) as [p2 []]; cbn in Hq.
  - destruct (handler _) as [p4 [res|e]]; [apply after_handler_refs|done].
  - intros [= <-] id. cbn. rewrite Hq. apply not_elem_of_nil.
Qed.
End refs.

(** the start of a request is not recorded.  With the execution contract
    enforced, as it is by default, the event [execution.started] is emitted before
    the pipeline is marked active and is refused: whatever the handler does, no
    event of the response is the start of the execution. *)
Theorem started_event_refused {X S} `{IsoCodec} (E : env X) (gs : gate_session S) (sv : @pipeline_services X S) ctx handler fresh p :
  pv_enforce sv = true -> cv_active (p_vars p) = false -> pv_async sv (p_ext p) = false -> md_event_refs (p_md p) = [] ->
  forall id, ("execution.started", id) ∉ md_event_refs (pr_md (run E gs sv ctx handler fresh p).2).
Proof.
  intros Henf Hact Has Hrefs. unfold run.
  assert (exists p0, safe_emit_event sv ctx "execution.started" None (cx_db ctx) (route_payload ctx []) p = (p0, None) /\ md_event_refs (p_md p0) = [])
    as (p0&->&Hr0).
  { unfold safe_emit_event. destruct (cx_db ctx); [|by eexists]. unfold emit_system_event. rewrite Hact, Has, Henf.
    change (startswith "execution." "execution.started") with true. by eexists. }
  match goal with |- context [set_vars ?v p0] => pose proof (try_block_refs E gs sv ctx handler fresh (set_vars v p0)) as Ht end.
  destruct (try_block _ _ _ _ _ _ _ _) as [[p1 held] [r|e]]; cbn [snd] in *; [by apply Ht|].
  pose proof (except_refs gs sv ctx e p1) as He. by destruct (except_clauses _ _ _ _ _ _) as [p2 r].
Qed.

(** a refused request does not reach its handler.  When the tenant is at its
    limit, the outcome of the run is the same for every handler: the response is 429
    and the session shows the unit failed. *)
Theorem refused_request_runs_nothing {X S} `{IsoCodec} (E : env X) (gs : gate_session S) (sv : @pipeline_services X S) ctx work saved
    `{!TxLaws gs sv work saved} user fresh p :
  cx_db ctx = true -> user_of ctx = Some user -> reliable (gs_db gs) -> (forall e s, is_ok (db_add (gs_db gs) e s).2 = true) ->
  (forall ev x s, delivered (pv_emit sv ev x s).2 = true) -> env_redis_url E = false -> env_testing E = false ->
  uuid_of_string (uuid_to_string fresh) = Some fresh -> rm_redis (p_rm p) = false ->
  (forall u e, work (p_units p) !! u = Some e -> ~ (eu_source_type e = Some "route" /\ eu_source_id e = Some (cx_request_id ctx))) ->
  env_max_concurrent E <= local_active (p_rm p) user ->
  exists p' r u, (forall handler, run E gs sv ctx handler fresh p = (p', r)) /\ response_code ctx r = 429 /\
    work (p_units p') !! fresh = Some u /\ eu_status u = "failed".
Proof.
  intros Hdb Hu Hrel Hadd Hemit Hl Htest Hf Hlm Hnew Hfull. unfold run.
  pose proof (emit_safe_table gs sv ctx work saved Hdb Hemit "execution.started" None (cx_db ctx) (route_payload ctx []) p) as T0.
  pose proof (steady_safe_emit sv ctx "execution.started" None (cx_db ctx) (route_payload ctx []) p) as (A0&R0&_&_).
  destruct (safe_emit_event _ _ _ _ _ _ p) as [p0 started]. cbn in T0, A0, R0. set (v := MkVars _ _ _).
  destruct (require_eu_new gs sv ctx work saved Hdb user Hu Hadd fresh Hf (set_vars v p0)) as (u0&Hs&_&Ht&He); [by cbn; rewrite T0|].
  destruct (require_eu_steady gs sv ctx fresh (set_vars v p0)) as [Hr Hv]. unfold try_block.
  set (p1 := safe_require_eu _ _ _ _ (set_vars v p0)) in *. unfold safe_check_quota. rewrite He, Hu.
  destruct (can_execute E (now sv p1) user (p_rm p1)) as [rm' o] eqn:Hcan.
  destruct (can_execute_local E (now sv p1) user (p_rm p1) rm' o Htest) as [_ Hnone]; [by rewrite Hr; split; [|cbn; congruence]|done|].
  destruct o as [reason|].
  2: { pose proof (proj1 Hnone eq_refl) as Hlt. rewrite Hr in Hlt. cbn in Hlt. rewrite A0 in Hlt. lia. }
  match goal with |- context [safe_emit_event sv ctx ?a ?b ?c ?d (set_prm rm' p1)] =>
    pose proof (emit_safe_table gs sv ctx work saved Hdb Hemit a b c d (set_prm rm' p1)) as T2;
    pose proof (steady_safe_emit sv ctx a b c d (set_prm rm' p1)) as (_&_&E2&_);
    destruct (safe_emit_event sv ctx a b c d (set_prm rm' p1)) as [p2 ev] end.
  cbn in T2. change (eu_of (set_prm rm' p1)) with (eu_of p1) in E2. cbn in E2.
  destruct (finalize_unsaved gs sv ctx work saved Hdb Hrel fresh Hf "failed" p2 u0) as (_&u&Hu'&Hst);
    [congruence|by rewrite T2, Ht, lookup_insert_eq|by rewrite Hs|].
  eexists _, _, u. split; [intros handler; reflexivity|]. done.
Qed.

(** A request is matched to a unit by its trace id alone: when the id belongs to a
    unit, whoever owns it, the request runs under that unit. *)
Lemma unit_of_trace_reused {X S} `{IsoCodec} (gs : gate_session S) (sv : @pipeline_services X S) ctx fresh p s1 eu user :
  cx_db ctx = true -> user_of ctx = Some user -> gs_by_source gs "route" (cx_request_id ctx) (p_units p) = (s1, Some eu) ->
  eu_of (safe_require_eu gs sv ctx fresh p) = str_or_none (Some (uuid_to_string (eu_id eu))).
Proof. intros Hdb Hu Hs. unfold safe_require_eu. rewrite Hu, Hdb. unfold require_execution_unit. by rewrite Hs. Qed.

(** ** Witnesses: a session with a working copy and a committed table *)
Definition unit_table : Type := { m : gmap UUID ExecutionUnit | map_Forall (fun u e => eu_id e = u) m }.
Definition tx_state : Type := unit_table * unit_table.
Definition put (e : ExecutionUnit) (t : unit_table) : unit_table :=
  exist _ (<[eu_id e := e]> (`t)) (map_Forall_insert_2 _ _ _ _ eq_refl (proj2_sig t)).
Definition tx_gate : gate_session tx_state := {|
  gs_db := {| db_first id s := (s, Ok (u ← id; `s.1 !! u)); db_add e s := ((put e s.1, s.2), Ok ()); db_flush e s := ((put e s.1, s.2), Ok ()) |};
  gs_by_source ty id s :=
    (s, snd <$> List.find (fun kv => bool_decide (eu_source_type kv.2 = Some ty /\ eu_source_id kv.2 = Some id)) (map_to_list (`s.1)))
|}.
Definition tx_services (enforce : bool) : @pipeline_services Z tx_state := {|
  pv_clock x := x; pv_duration _ _ := ("0.0", 0); pv_enforce := enforce; pv_async _ := false;
  pv_emit ev x s := (x + 1, (s.1, s.1), Ok (Some "event")); pv_capture _ x s := (x, s, Ok ()); pv_recall x s := (x, s, Ok 0);
  pv_register _ x := (x, Ok ())
|}.
#[export] Instance tx_services_laws enforce : TxLaws tx_gate (tx_services enforce) (fun s => `s.1) (fun s => `s.2).
Proof.
  split; try done.
  - split; try done; [by intros id s o [= <-]|]. intros s u e Hu. exact (proj2_sig s.1 u e Hu).
  - intros ty id s Hn. cbn. destruct (List.find _ _) as [[u e]|] eqn:Hf; [|done]. apply List.find_some in Hf as [Hin Hb].
    apply list_elem_of_In, elem_of_map_to_list in Hin. apply bool_decide_eq_true in Hb. by destruct (Hn u e Hin).
Qed.

Definition empty_table : unit_table := exist _ ∅ (map_Forall_empty _).
Definition demo_context : context := MkContext "req-1" "flow.runs.get" (Some "00000000-0000-0000-0000-000000000009") true "flow" 200.
Definition demo_pstate : @pstate Z tx_state :=
  MkP (rm_init 0) (empty_table, empty_table) (md_init "req-1") (MkVars None false None).
Definition answer (d : dict json) : @pstate Z tx_state -> @pstate Z tx_state * (returned + raised) := fun p => (p, inl (RJson (JObj d))).
Definition raises (e : raised) : @pstate Z tx_state -> @pstate Z tx_state * (returned + raised) := fun p => (p, inr e).
Lemma demo_eligible : eligible demo_env demo_context (fun s => `s.1) "00000000-0000-0000-0000-000000000009" demo_pstate.
Proof. split; [by intros u e Hu|done|done]. Qed.
Lemma demo_can_wait : can_wait demo_env tx_gate (tx_services true) demo_context (fun s => `s.1) "00000000-0000-0000-0000-000000000009" (MkUUID 5) demo_pstate.
Proof. by split. Qed.
Lemma demo_discreet out : discreet (fun s : tx_state => `s.1) (MkUUID 5) (fun p : @pstate Z tx_state => (p, out)).
Proof. by intros p. Qed.
Definition stored_status (p : @pstate Z tx_state) (u : UUID) : option string := eu_status <$> (proj1_sig (p_units p).2 !! u).

Lemma pipeline_leaves_no_trace_witness :
  local_active (p_rm (run demo_env tx_gate (tx_services true) demo_context (raises (EHttp 404 (JStr "no"))) (MkUUID 5) demo_pstate).1) "t" = 0.
Proof.
  destruct (pipeline_leaves_no_trace demo_env tx_gate (tx_services true) demo_context (raises (EHttp 404 (JStr "no"))) (MkUUID 5) demo_pstate) as [H _].
  - reflexivity.
  - reflexivity.
  - intros q _. repeat split.
  - reflexivity.
  - intros t. vm_compute. discriminate.
  - rewrite H. reflexivity.
Defined.

Lemma finished_unit_stays_executing_witness :
  stored_status (run demo_env tx_gate (tx_services true) demo_context (answer [("ok", JBool true)]) (MkUUID 5) demo_pstate).1 (MkUUID 5)
    = Some "executing".
Proof.
  pose proof (finished_unit_stays_executing demo_env tx_gate (tx_services true) demo_context (fun s => `s.1) (fun s => `s.2)
    (answer [("ok", JBool true)]) "00000000-0000-0000-0000-000000000009" (MkUUID 5) (RJson (JObj [("ok", JBool true)])) demo_pstate
    eq_refl eq_refl (conj (fun _ _ => eq_refl) (fun _ _ => eq_refl)) (fun _ _ => eq_refl) (fun _ _ _ => eq_refl) eq_refl eq_refl
    ltac:(vm_compute; reflexivity) demo_eligible (demo_discreet _) (fun _ => eq_refl) ltac:(discriminate) eq_refl eq_refl) as H.
  destruct (run _ _ _ _ _ _ _) as [p' r]. destruct H as (_&(u&H1&H2&_)&_). unfold stored_status. cbn. rewrite H1. cbn. rewrite H2. reflexivity.
Defined.

Lemma wait_signal_stored_witness :
  stored_status (run demo_env tx_gate (tx_services true) demo_context (raises (EWait (MkWait "payment.confirmed" None [] None))) (MkUUID 5) demo_pstate).1
    (MkUUID 5) = Some "waiting".
Proof.
  pose proof (wait_signal_stored demo_env tx_gate (tx_services true) demo_context (fun s => `s.1) (fun s => `s.2)
    (raises (EWait (MkWait "payment.confirmed" None [] None))) "00000000-0000-0000-0000-000000000009" (MkUUID 5)
    (MkWait "payment.confirmed" None [] None) demo_pstate demo_can_wait (demo_discreet _) (fun _ => eq_refl) (fun _ _ => eq_refl)) as H.
  destruct (run _ _ _ _ _ _ _) as [p' r]. destruct H as (_&_&u&c&H1&H2&_). unfold stored_status. cbn. rewrite H1. cbn. rewrite H2. reflexivity.
Defined.

Lemma payload_taken_for_wait_witness :
  stored_status (run demo_env tx_gate (tx_services true) demo_context
    (answer [("id", JStr "run-1"); ("status", JStr "waiting"); ("waiting_for", JStr "payment.confirmed")]) (MkUUID 5) demo_pstate).1
    (MkUUID 5) = Some "waiting".
Proof.
  pose proof (payload_taken_for_wait demo_env tx_gate (tx_services true) demo_context (fun s => `s.1) (fun s => `s.2)
    (answer [("id", JStr "run-1"); ("status", JStr "waiting"); ("waiting_for", JStr "payment.confirmed")])
    "00000000-0000-0000-0000-000000000009" (MkUUID 5)
    [("id", JStr "run-1"); ("status", JStr "waiting"); ("waiting_for", JStr "payment.confirmed")] "payment.confirmed" demo_pstate demo_can_wait
    (demo_discreet _) (fun _ => eq_refl) eq_refl eq_refl eq_refl eq_refl ltac:(discriminate) (fun _ => eq_refl)) as H.
  destruct (run _ _ _ _ _ _ _) as [p' r]. destruct H as (_&u&tr&c&H1&H2&_). unfold stored_status. cbn. rewrite H1. cbn. rewrite H2. reflexivity.
Defined.

Lemma started_event_refused_witness :
  md_event_refs (pr_md (run demo_env tx_gate (tx_services true) demo_context (answer []) (MkUUID 5) demo_pstate).2) = [("execution.completed", "event")] /\
  (("execution.started", "event") ∉ md_event_refs (pr_md (run demo_env tx_gate (tx_services true) demo_context (answer []) (MkUUID 5) demo_pstate).2)).
Proof.
  split; [vm_compute; reflexivity|].
  apply (started_event_refused demo_env tx_gate (tx_services true) demo_context (answer []) (MkUUID 5) demo_pstate eq_refl eq_refl eq_refl eq_refl).
Defined.

Definition full_pstate : @pstate Z tx_state :=
  MkP (with_active (rm_init 0) {["00000000-0000-0000-0000-000000000009" := 1]}) (empty_table, empty_table) (md_init "req-1") (MkVars None false None).
Lemma refused_request_runs_nothing_witness :
  response_code demo_context (run demo_env tx_gate (tx_services true) demo_context (raises (EOther (Exn "E" "x"))) (MkUUID 5) full_pstate).2 = 429.
Proof.
  destruct (refused_request_runs_nothing demo_env tx_gate (tx_services true) demo_context (fun s => `s.1) (fun s => `s.2)
    "00000000-0000-0000-0000-000000000009" (MkUUID 5) full_pstate eq_refl eq_refl (conj (fun _ _ => eq_refl) (fun _ _ => eq_refl)) (fun _ _ => eq_refl)
    (fun _ _ _ => eq_refl) eq_refl eq_refl ltac:(vm_compute; reflexivity) eq_refl) as (p'&r&u&H1&H2&_).
  - intros u e Hu. discriminate.
  - vm_compute. discriminate.
  - rewrite H1. exact H2.
Defined.
