(* ===== verification/AgentFlow.v ===== *)
(** * The flow of an agent run ([AINDY/runtime/nodus_adapter.py], [AINDY/agents/tool_registry.py])

    An approved agent run is executed as a flow of three nodes: check the plan,
    execute one step per turn, finish the run.  The tables [agent_runs] and
    [agent_steps] are part of the outside world [X] of the flow engine, reached
    through the lens [AgentStore]; [ag_calls] lists the invocations of registered
    tool functions in order and is read by no code.  Columns of a run that are
    only displayed are left out, and commits succeed.  Registered tools, event
    emission, memory recall and completion hooks are the services [agent_services]. *)
From S2P Require Import Prelude PyDatetime PyUuid Json PyEffects RetryPolicy Capability FlowEngine.
Local Open Scope Z_scope.

(** ** Tables *)

(** The columns of [AgentRun] that are set when the row is added *)
Record run_identity := MkIdentity {
  ri_id : UUID;
  ri_user_id : UUID;
  ri_agent_type : string;
  ri_goal : string;
  ri_overall_risk : string;
  ri_steps_total : Z;
  ri_replayed_from : option string;
  ri_parent_run_id : option UUID;
  ri_spawned_by : option UUID;
  ri_coordination_role : option string;
  ri_correlation_id : string
}.

Record AgentRun := MkAgentRun {
  ar_identity : run_identity;
  ar_plan : dict json;
  ar_status : string;
  ar_steps_completed : Z;
  ar_current_step : Z;
  ar_result : json;
  ar_error_message : option string;
  ar_capability_token : option token;
  ar_flow_run_id : option string;
  ar_approved_at : option Z;
  ar_started_at : option Z;
  ar_completed_at : option Z
}.
Definition ar_id (r : AgentRun) : UUID := ri_id (ar_identity r).
Definition ar_user_id (r : AgentRun) : UUID := ri_user_id (ar_identity r).
Definition ar_agent_type (r : AgentRun) : string := ri_agent_type (ar_identity r).

Record AgentStep := MkAgentStep {
  as_run_id : UUID;
  as_step_index : Z;
  as_tool_name : string;
  as_tool_args : json;
  as_risk_level : string;
  as_status : string;
  as_result : json;
  as_error_message : option string;
  as_execution_ms : Z
}.

(** One invocation of a registered tool function; [tc_checked] is the time of the
    capability check it has passed. *)
Record tool_call := MkCall {
  tc_run : string;
  tc_user : string;
  tc_tool : string;
  tc_args : json;
  tc_checked : option Z
}.

Record agents := MkAgents {
  ag_runs : gmap UUID AgentRun;
  ag_steps : list AgentStep;
  ag_calls : list tool_call
}.

(** Where the tables are in the outside world *)
Class AgentStore (X : Type) := {
  ag_get : X -> agents;
  ag_set : agents -> X -> X;
  ag_get_set a x : ag_get (ag_set a x) = a
}.

(** Assignments to a row *)
Definition run_progress (n : Z) (r : AgentRun) : AgentRun :=
  MkAgentRun (ar_identity r) (ar_plan r) (ar_status r) n n (ar_result r) (ar_error_message r) (ar_capability_token r)
    (ar_flow_run_id r) (ar_approved_at r) (ar_started_at r) (ar_completed_at r).
Definition run_completed (res : json) (now : Z) (r : AgentRun) : AgentRun :=
  MkAgentRun (ar_identity r) (ar_plan r) "completed" (ar_steps_completed r) (ar_current_step r) res (ar_error_message r)
    (ar_capability_token r) (ar_flow_run_id r) (ar_approved_at r) (ar_started_at r) (Some now).

(** ** Tokens in the flow state *)
Definition json_of_opt (o : option string) : json := match o with Some s => JStr s | None => JNull end.
Definition opt_of_json (j : json) : option string := match j with JStr s => Some s | _ => None end.
Definition json_of_list (o : option (list string)) : json := match o with Some l => JArr (map JStr l) | None => JNull end.
Definition list_of_json (j : json) : option (list string) :=
  match j with JArr l => Some (omap opt_of_json l) | _ => None end.
Definition json_of_token (tk : token) : json := JObj [
  ("run_id", json_of_opt (tk_run_id tk)); ("user_id", json_of_opt (tk_user_id tk));
  ("agent_type", json_of_opt (tk_agent_type tk)); ("execution_token", json_of_opt (tk_execution_token tk));
  ("issued_at", json_of_opt (tk_issued_at tk)); ("expires_at", json_of_opt (tk_expires_at tk));
  ("granted_tools", json_of_list (tk_granted_tools tk));
  ("allowed_capabilities", json_of_list (tk_allowed_capabilities tk));
  ("approval_mode", json_of_opt (tk_approval_mode tk)); ("token_hash", json_of_opt (tk_token_hash tk))].
Definition token_of_json (j : json) : option token :=
  match j with
  | JObj d =>
      let text k := opt_of_json (jget d k) in
      Some (MkToken (text "run_id") (text "user_id") (text "agent_type") (text "execution_token") (text "issued_at")
              (text "expires_at") (list_of_json (jget d "granted_tools")) (list_of_json (jget d "allowed_capabilities"))
              (text "approval_mode") (text "token_hash"))
  | _ => None
  end.

Lemma token_json_roundtrip tk : token_of_json (json_of_token tk) = Some tk.
Proof.
  assert (forall o, opt_of_json (json_of_opt o) = o) as Ho by (by intros []).
  assert (forall o, list_of_json (json_of_list o) = o) as Hl.
  { intros [l|]; [|done]. cbn. f_equal. induction l as [|x l IH]; [done|]. cbn. by rewrite IH. }
  destruct tk as [a b c d e f g h i j].
  transitivity (Some (MkToken (opt_of_json (json_of_opt a)) (opt_of_json (json_of_opt b)) (opt_of_json (json_of_opt c))
    (opt_of_json (json_of_opt d)) (opt_of_json (json_of_opt e)) (opt_of_json (json_of_opt f)) (list_of_json (json_of_list g))
    (list_of_json (json_of_list h)) (opt_of_json (json_of_opt i)) (opt_of_json (json_of_opt j)))); [done|].
  by rewrite !Ho, !Hl.
Qed.

(** ** Plans *)
Definition json_list (j : json) : list json := match j with JArr l => l | _ => [] end.
Definition json_object (j : json) : dict json := match j with JObj d => d | _ => [] end.
(** [d.get(k, default)] of a value used as a text *)
Definition text_field (d : dict json) (k dflt : string) : string :=
  match dget d k with Some j => status_text j | None => dflt end.

(** The steps of a plan and the tools they name, as the capability service reads them; the
    steps of a stored plan are objects, because planning fails on anything else. *)
Definition plan_steps (p : dict json) : list json := json_list (jget p "steps").
Definition step_tool (s : json) : option string := opt_of_json (jget (json_object s) "tool").
Definition named_tools (p : dict json) : list (option string) := map step_tool (plan_steps p).

(** ** Services *)
Section flow.
Context {X : Type} `{!AgentStore X} `{!IsoCodec} (sha256 : string -> string) (cat : catalog).

(** [sv_tool] is [TOOL_REGISTRY[name]["fn"]]; its keys are those of the catalog.
    [sv_event] is [record_agent_event(required=True)] with the type, the run and the
    payload, [sv_system] is [queue_system_event(required=True)], [sv_completed] the
    handlers of [execution.completed]. *)
Record agent_services := MkAgentServices {
  sv_clock : X -> Z;
  sv_tool : string -> json -> string -> X -> X * result json;
  sv_event : string -> string -> dict json -> X -> X * result (option string);
  sv_system : string -> string -> dict json -> X -> X * result (option string);
  sv_enrich : string -> X -> X;
  sv_completed : string -> json -> X -> X * result (list json)
}.
Context (sv : agent_services).
Local Abbreviation SE := (SE X).

Definition on_store (f : agents -> agents) (x : X) : X := ag_set (f (ag_get x)) x.
Definition store_runs (f : gmap UUID AgentRun -> gmap UUID AgentRun) (g : agents) : agents :=
  MkAgents (f (ag_runs g)) (ag_steps g) (ag_calls g).
Definition log_call (tc : tool_call) (g : agents) : agents := MkAgents (ag_runs g) (ag_steps g) (ag_calls g ++ [tc]).
Definition runs (x : X) : gmap UUID AgentRun := ag_runs (ag_get x).

(** ** [execute_tool] *)
Record tool_result := MkToolResult { tr_success : bool; tr_result : json; tr_error : option string }.
Definition tool_error (msg : string) : tool_result := MkToolResult false JNull (Some msg).

(** The guard of a tool call: an error, or the time of the check that was passed *)
Definition check_call (tool user run : string) (tok : option token) : SE (tool_result + option Z) :=
  match tok with
  | None => mret (if truthy run then inl (tool_error "capability token is required for agent run tool execution") else inr None)
  | Some _ =>
      if negb (truthy run) then mret (inl (tool_error "run_id is required when execution_token is supplied")) else
      try_except (
        now ← reads (sv_clock sv);
        match check_tool_capability sha256 cat tok now run user tool with
        | Some e => _ ← sv_system sv "capability.denied" run [("tool_name", JStr tool); ("error", JStr e)] : SE (option string);
                    mret (inl (tool_error e))
        | None => _ ← sv_system sv "capability.allowed" run [("tool_name", JStr tool)] : SE (option string); mret (inr (Some now))
        end)
        (fun _ => mret (inl (tool_error "capability enforcement failed")))
  end.

Definition execute_tool (tool : string) (args : json) (user run : string) (tok : option token) : SE tool_result :=
  if negb (dmem (cat_tools cat) tool) then mret (tool_error ("Tool '" +:+ tool +:+ "' not found in registry")) else
  checked ← check_call tool user run tok;
  match checked with
  | inl res => mret res
  | inr t =>
      _ ← writes (on_store (log_call (MkCall run user tool args t)));
      try_except (res ← sv_tool sv tool args user : SE json; mret (MkToolResult true res None))
        (fun e => mret (tool_error (exn_msg e)))
  end.

(** ** The nodes *)
Definition success (patch : dict json) : node_result := MkNodeResult (Some "SUCCESS") patch None None.
Definition failure (msg : string) (patch : dict json) : node_result := MkNodeResult (Some "FAILURE") patch (Some msg) None.

Definition agent_validate_steps (st : dict json) : SE node_result :=
  mret (if json_truthy (jget st "steps") then success [("current_step_index", JInt 0); ("step_results", JArr [])]
        else failure "Plan has no steps to execute" []).

(** The loop over the attempts of one step; the duration is that of the last one. *)
Fixpoint attempt_tool (n : nat) (policy : RetryPolicy) (tool : string) (args : json) (user run : string) (tok : option token)
    : SE (tool_result * Z) :=
  match n with
  | O => throw (Exn "TypeError" "'NoneType' object is not subscriptable")
  | Datatypes.S n' =>
      t0 ← reads (sv_clock sv);
      res ← execute_tool tool args user run tok;
      t1 ← reads (sv_clock sv);
      let ms := t1 / 1000 - t0 / 1000 in
      if tr_success res || high_risk_immediate_fail policy then mret (res, ms)
      else match n' with O => mret (res, ms) | _ => attempt_tool n' policy tool args user run tok end
  end.

(** The audit row and the counters of the run *)
Definition add_step (run : string) (f : UUID -> AgentStep) (n : Z) : SE unit :=
  match uuid_of_string run with
  | None => throw (Exn "StatementError" "badly formed hexadecimal UUID string")
  | Some id => writes (on_store (fun g => MkAgents (alter (run_progress n) id (ag_runs g)) (ag_steps g ++ [f id]) (ag_calls g)))
  end.

Definition step_result (idx : Z) (tool status : string) (res : json) (err : option string) : json :=
  JObj [("step_index", JInt idx); ("tool", JStr tool); ("status", JStr status); ("result", res); ("error", json_of_opt err)].
Definition step_events (run : string) (kind : string) (payload : dict json) : SE unit :=
  _ ← sv_system sv "agent.step" run payload : SE (option string);
  _ ← sv_system sv kind run payload : SE (option string);
  mret ().
Definition step_payload (run : string) (idx : Z) (tool status : string) (err : option string) : dict json :=
  [("run_id", JStr run); ("step_index", JInt idx); ("tool_name", JStr tool); ("status", JStr status); ("error", json_of_opt err)].

(** [state["k"]] *)
Definition state_text (st : dict json) (k : string) : SE string :=
  match dget st k with Some j => mret (status_text j) | None => throw (Exn "KeyError" (py_repr k)) end.
(** [state.get("execution_token") or state.get("capability_token")] *)
Definition state_token (st : dict json) : option token :=
  token_of_json (if json_truthy (jget st "execution_token") then jget st "execution_token" else jget st "capability_token").
Definition step_index (st : dict json) : Z := match dget st "current_step_index" with Some (JInt i) => i | _ => 0 end.

(** A step whose tool is refused *)
Definition deny_step (st : dict json) (run tool risk : string) (idx : Z) (args : json) (e : string) : SE node_result :=
  let msg := "Capability denied for step " +:+ Z_to_string idx +:+ " (" +:+ tool +:+ "): " +:+ e in
  _ ← add_step run (fun id => MkAgentStep id idx tool args risk "failed" JNull (Some msg) 0) (idx + 1);
  _ ← sv_event sv "CAPABILITY_DENIED" run [("step_index", JInt idx); ("tool_name", JStr tool); ("error", JStr e)] : SE (option string);
  _ ← step_events run "agent.step.failed" (step_payload run idx tool "failed" (Some msg));
  mret (failure msg [("step_results", JArr (json_list (jget st "step_results") ++ [step_result idx tool "failed" JNull (Some msg)]))]).

(** A step whose tool is allowed *)
Definition perform_step (st : dict json) (run user tool risk : string) (idx : Z) (args : json) : SE node_result :=
  _ ← writes (sv_enrich sv tool);
  let policy := resolve_retry_policy (Some "agent") (Some risk) None None in
  out ← attempt_tool (Z.to_nat (max_attempts policy)) policy tool args user run (state_token st);
  let '(res, ms) := out in
  let status := if tr_success res then "success" else "failed" in
  _ ← add_step run (fun id => MkAgentStep id idx tool args risk status (tr_result res) (tr_error res) ms) (idx + 1);
  _ ← step_events run (if tr_success res then "agent.step.completed" else "agent.step.failed")
        (step_payload run idx tool status (tr_error res));
  let results := JArr (json_list (jget st "step_results") ++ [step_result idx tool status (tr_result res) (tr_error res)]) in
  mret (if tr_success res then success [("current_step_index", JInt (idx + 1)); ("step_results", results)]
        else failure ("Step " +:+ Z_to_string idx +:+ " (" +:+ tool +:+ ", " +:+ risk +:+ ") failed" +:+
               (if risk =s "high" then "" else " after " +:+ Z_to_string (max_attempts policy) +:+ " attempt(s)") +:+ ": " +:+
               default "None" (tr_error res)) [("step_results", results)]).

(** [agent_execute_step]; the index starts at 0 and only grows. *)
Definition agent_execute_step (st : dict json) : SE node_result :=
  let steps := json_list (jget st "steps") in
  let idx := step_index st in
  match steps !! Z.to_nat idx with
  | None => mret (success [])
  | Some (JObj step) =>
      let tool := text_field step "tool" "" in
      let args := default (JObj []) (dget step "args") in
      let risk := text_field step "risk_level" "high" in
      run ← state_text st "agent_run_id";
      user ← state_text st "user_id";
      now ← reads (sv_clock sv);
      let checked := dmem st "execution_token" || dmem st "capability_token" in
      match (if checked then check_tool_capability sha256 cat (state_token st) now run user tool else None) with
      | Some e => deny_step st run tool risk idx args e
      | None => perform_step st run user tool risk idx args
      end
  | Some _ => throw (Exn "AttributeError" "object has no attribute 'get'")
  end.

(** [agent_finalize_run] *)
Definition first_object (l : list json) : dict json :=
  match List.find (fun j => match j with JObj _ => true | _ => false end) l with
  | Some (JObj d) => d
  | _ => [("next_action", JNull)]
  end.
Definition agent_finalize_run (st : dict json) : SE node_result :=
  run ← state_text st "agent_run_id";
  let results := default (JArr []) (dget st "step_results") in
  row ← reads (fun x => uuid_of_string run ≫= fun id => runs x !! id);
  payload ← match row with
            | Some _ =>
                if json_truthy (jget st "user_id") then
                  hooks ← sv_completed sv (status_text (jget st "user_id")) results : SE (list json);
                  mret [("steps", results); ("loop_enforced", JBool (match hooks with [] => false | _ => true end));
                        ("next_action", jget (first_object hooks) "next_action")]
                else mret [("steps", results)]
            | None => mret [("steps", results)]
            end;
  _ ← match row with
      | Some r => writes (fun x => on_store (store_runs (alter (run_completed (JObj payload) (sv_clock sv x)) (ar_id r))) x)
      | None => mret ()
      end;
  _ ← sv_event sv "COMPLETED" run [("steps_completed", JInt (Z.of_nat (length (json_list results))));
        ("loop_enforced", JBool (json_truthy (jget payload "loop_enforced")))] : SE (option string);
  mret (success [("finalized", JBool true)]).

(** ** The flow graph *)
Definition more_steps (st : dict json) : result bool := Ok (step_index st <? Z.of_nat (length (json_list (jget st "steps")))).
Definition AGENT_FLOW : flow := MkFlow "agent_validate_steps"
  [("agent_validate_steps", Targets ["agent_execute_step"]);
   ("agent_execute_step", Conditions [(more_steps, "agent_execute_step"); (fun _ => Ok true, "agent_finalize_run")]);
   ("agent_finalize_run", Targets [])]
  ["agent_finalize_run"] [].

(** The registration of the nodes, which change the state only by their patches *)
Definition as_node (body : dict json -> SE node_result) : @node_fn X := fun st _ x => let (x', res) := body st x in (x', st, res).
Definition agent_nodes : dict (@node_fn X) :=
  [("agent_validate_steps", as_node agent_validate_steps); ("agent_execute_step", as_node agent_execute_step);
   ("agent_finalize_run", as_node agent_finalize_run)].
End flow.

(** The edges out of [agent_execute_step] *)
Lemma agent_next st : resolve_next_node "agent_execute_step" st AGENT_FLOW =
  Ok (Some (if step_index st <? Z.of_nat (length (json_list (jget st "steps"))) then "agent_execute_step" else "agent_finalize_run")).
Proof.
  transitivity (first_condition [(more_steps, "agent_execute_step"); (fun _ => Ok true, "agent_finalize_run")] st); [done|].
  unfold first_condition, more_steps. by destruct (step_index st <? _).
Qed.
