(* ===== verification/AgentRuns.v ===== *)
(** * The life cycle of agent runs ([AINDY/agents/agent_runtime/])

    Planning, creation, approval, rejection, execution, delegation and replay of
    agent runs, as programs of the flow engine's monad over the tables of
    [AgentFlow]; execution starts the agent flow in the engine itself.  Run and user
    ids are UUIDs: the text forms are parsed on entry, and a text that is no UUID
    matches no row.  The language model, the coordinator's ranking and assignment,
    memory recall, hooks, trust settings and identifiers are the services
    [run_services]; trust settings may change between calls.  Commits succeed; a
    failed emission of a required event rolls back what was not committed. *)
From S2P Require Import Prelude PyDatetime PyUuid Json PyEffects Capability ResourceManager ExecutionUnit FlowEngine AgentFlow.
Local Open Scope Z_scope.

(** ** Planning *)

(** [risk_order.get(risk, default)] *)
Definition risk_rank (dflt : Z) (risk : json) : Z :=
  match risk with
  | JStr r => default dflt (dget [("low", 0); ("medium", 1); ("high", 2)] r)
  | _ => dflt
  end.
Definition hashable (j : json) : bool := match j with JArr _ | JObj _ => false | _ => true end.

(** [step.get("risk_level", "high")] for the steps *)
Fixpoint risk_levels (steps : list json) : result (list json) :=
  match steps with
  | [] => Ok []
  | JObj s :: steps' =>
      match risk_levels steps' with Ok l => Ok (default (JStr "high") (dget s "risk_level") :: l) | Raise e => Raise e end
  | _ => Raise (Exn "AttributeError" "object has no attribute 'get'")
  end.
Definition step_risks (steps : json) : result (list json) :=
  match steps with
  | JArr l => risk_levels l
  | JStr "" | JObj [] => Ok []
  | JStr _ | JObj _ => Raise (Exn "AttributeError" "'str' object has no attribute 'get'")
  | _ => Raise (Exn "TypeError" "object is not iterable")
  end.

(** [max(step_risks, key=..., default="high")]: the first of the largest *)
Definition max_risk (risks : list json) : json :=
  match risks with
  | [] => JStr "high"
  | r :: rs => foldl (fun m r => if risk_rank 2 m <? risk_rank 2 r then r else m) r rs
  end.

(** The end of [generate_plan], from the text the model answered *)
Definition assess_plan (content : string) : result (option (dict json)) :=
  match loads content with
  | Raise e => Raise e
  | Ok (JObj plan) =>
      match dget plan "steps", dget plan "overall_risk" with
      | Some steps, Some overall =>
          match step_risks steps with
          | Raise e => Raise e
          | Ok risks =>
              if negb (forallb hashable (overall :: risks)) then Raise (Exn "TypeError" "unhashable type") else
              Ok (Some (if risk_rank 0 overall <? risk_rank 0 (max_risk risks)
                        then dset plan "overall_risk" (max_risk risks) else plan))
          end
      | _, _ => Ok None
      end
  | Ok _ => Ok None
  end.

(** [_requires_approval] *)
Definition requires_approval (risk : string) (trust : option trust_settings) : bool :=
  if risk =s "high" then true else
  match trust with
  | None => true
  | Some t => if risk =s "medium" then negb (ts_auto_execute_medium t)
              else if risk =s "low" then negb (ts_auto_execute_low t) else true
  end.

(** ** Assignments to a row *)
Definition new_run (h : run_identity) (plan : dict json) (status : string) : AgentRun :=
  MkAgentRun h plan status 0 0 JNull None None None None None None.
Definition run_granted (tk : token) (r : AgentRun) : AgentRun :=
  MkAgentRun (ar_identity r) (ar_plan r) (ar_status r) (ar_steps_completed r) (ar_current_step r) (ar_result r) (ar_error_message r)
    (Some tk) (ar_flow_run_id r) (ar_approved_at r) (ar_started_at r) (ar_completed_at r).
Definition run_held (msg : string) (r : AgentRun) : AgentRun :=
  MkAgentRun (ar_identity r) (ar_plan r) "pending_approval" (ar_steps_completed r) (ar_current_step r) (ar_result r) (Some msg)
    (ar_capability_token r) (ar_flow_run_id r) (ar_approved_at r) (ar_started_at r) (ar_completed_at r).
Definition run_approved (now : Z) (tk : token) (r : AgentRun) : AgentRun :=
  MkAgentRun (ar_identity r) (ar_plan r) "approved" (ar_steps_completed r) (ar_current_step r) (ar_result r) None
    (Some tk) (ar_flow_run_id r) (Some now) (ar_started_at r) (ar_completed_at r).
Definition run_not_approved (r : AgentRun) : AgentRun :=
  MkAgentRun (ar_identity r) (ar_plan r) (ar_status r) (ar_steps_completed r) (ar_current_step r) (ar_result r)
    (Some "Capability preflight failed; run not approved.")
    (ar_capability_token r) (ar_flow_run_id r) (ar_approved_at r) (ar_started_at r) (ar_completed_at r).
Definition run_rejected (now : Z) (r : AgentRun) : AgentRun :=
  MkAgentRun (ar_identity r) (ar_plan r) "rejected" (ar_steps_completed r) (ar_current_step r) (ar_result r) (ar_error_message r)
    (ar_capability_token r) (ar_flow_run_id r) (ar_approved_at r) (ar_started_at r) (Some now).
Definition run_failed (now : Z) (res : option json) (msg : string) (r : AgentRun) : AgentRun :=
  MkAgentRun (ar_identity r) (ar_plan r) "failed" (ar_steps_completed r) (ar_current_step r) (default (ar_result r) res) (Some msg)
    (ar_capability_token r) (ar_flow_run_id r) (ar_approved_at r) (ar_started_at r) (Some now).
Definition run_delegated (res : option json) (r : AgentRun) : AgentRun :=
  MkAgentRun (ar_identity r) (ar_plan r) "delegated" (ar_steps_completed r) (ar_current_step r) (default (ar_result r) res)
    (ar_error_message r) (ar_capability_token r) (ar_flow_run_id r) (ar_approved_at r) (ar_started_at r) None.
Definition run_executing (now : Z) (plan : dict json) (r : AgentRun) : AgentRun :=
  MkAgentRun (ar_identity r) plan "executing" (ar_steps_completed r) (ar_current_step r) (ar_result r) (ar_error_message r)
    (ar_capability_token r) (ar_flow_run_id r) (ar_approved_at r) (Some now) (ar_completed_at r).
Definition run_linked (flow_run : string) (r : AgentRun) : AgentRun :=
  MkAgentRun (ar_identity r) (ar_plan r) (ar_status r) (ar_steps_completed r) (ar_current_step r) (ar_result r) (ar_error_message r)
    (ar_capability_token r) (Some flow_run) (ar_approved_at r) (ar_started_at r) (ar_completed_at r).

(** ** Services *)
Record coordination := MkCoordination {
  co_mode : string;
  co_agent : UUID;          (* [selected_agent["agent_id"]] *)
  co_selected : json;
  co_candidates : json
}.

Section runs.
Context {X S : Type} `{!AgentStore X} `{!IsoCodec} (sha256 : string -> string) (cat : catalog).

(** [lv_answer] is the planner context with the call of the language model: [None]
    when no planner is registered.  [lv_register] is the lookup of the local tools with
    [register_or_update_agent], [lv_assign] is [assign_operation], [lv_error] is
    [emit_error_event(required=True)], [lv_hooks] the completion hooks. *)
Record run_services := MkRunServices {
  lv_answer : string -> UUID -> X -> X * result (option string);
  lv_trust : X -> string -> option trust_settings;
  lv_uuid : X -> X * UUID;
  lv_error : string -> string -> X -> X * result (option string);
  lv_by_source : string -> S -> S * option UUID;
  lv_register : AgentRun -> X -> X * result unit;
  lv_decide : AgentRun -> list string -> X -> X * result coordination;
  lv_assign : AgentRun -> AgentRun -> list string -> X -> X * result unit;
  lv_memory : AgentRun -> X -> X * json;
  lv_hooks : AgentRun -> X -> X * result unit
}.
Context (E : env X) (db : eu_session S) (fsv : @flow_services X S) (sv : @agent_services X) (lv : run_services).
Local Abbreviation cfg := (@cfg X S).
Local Abbreviation M := (@M X S).

Definition fresh_uuid : M UUID := call (fun x => let (x', u) := lv_uuid lv x in (x', Ok u)).
Definition now : M Z := gets (fun c => sv_clock sv (c_ext c)).
Definition get_run (id : UUID) : M (option AgentRun) := gets (fun c => runs (c_ext c) !! id).
Definition add_run (r : AgentRun) : M unit := effect (on_store (store_runs (insert (ar_id r) r))).
Definition edit_run (id : UUID) (f : AgentRun -> AgentRun) : M unit := effect (on_store (store_runs (alter f id))).
Definition event (ty : string) (id : UUID) (payload : dict json) : M (option string) := call (sv_event sv ty (uuid_to_string id) payload).
Definition cat_at (x : X) : catalog :=
  MkCatalog (cat_tools cat) (cat_definitions cat) (cat_tool_capabilities cat) (cat_agent_capabilities cat) (cat_restricted cat)
    (lv_trust lv x).

(** [mint_token] for a run *)
Definition mint (r : AgentRun) (user : UUID) (mode agent_type : string) : M (option token) :=
  u ← fresh_uuid;
  t ← now;
  gets (fun c => mint_token sha256 (cat_at (c_ext c)) (uuid_to_string u) t (uuid_to_string (ar_id r)) (uuid_to_string user)
                   (named_tools (ar_plan r)) mode agent_type).

(** [generate_plan]: whatever goes wrong, there is no plan. *)
Definition generate_plan (objective : string) (user : UUID) : M (option (dict json)) :=
  catch (
    answer ← call (lv_answer lv objective user);
    match answer with
    | None => mret None
    | Some content => (fun c => (c, assess_plan content)) : M (option (dict json))
    end)
    (fun _ => mret None).

(** The row a plan gives and the token of an auto-approved run: the common part of
    [create_run] and [_create_run_from_plan] around the hook [created] *)
Definition plan_risk (plan : dict json) : string := text_field plan "overall_risk" "high".
Definition open_run (objective : string) (user : UUID) (plan : dict json) (origin : option string) (created : AgentRun -> M unit)
    : M UUID :=
  trust ← gets (fun c => lv_trust lv (c_ext c) (uuid_to_string user));
  let approved := negb (requires_approval (plan_risk plan) trust) in
  corr ← fresh_uuid;
  id ← fresh_uuid;
  let r := new_run (MkIdentity id user "default" objective (plan_risk plan) (Z.of_nat (length (plan_steps plan))) origin None None None
                      ("run_" +:+ uuid_to_string corr)) plan (if approved then "approved" else "pending_approval") in
  _ ← add_run r;
  _ ← created r;
  _ ← (if approved then
         tok ← mint r user "auto" (ar_agent_type r);
         match tok with
         | Some tk => edit_run id (run_granted tk)
         | None => edit_run id (run_held "Capability preflight failed for auto-approval; manual approval required.")
         end
       else mret ());
  mret id.

Definition create_unit (r : AgentRun) : M unit :=
  u ← fresh_uuid;
  t ← now;
  modifies (fun c => set_units (create db u t "agent" (IdUuid (ar_user_id r)) (Some "agent_run") (Some (uuid_to_string (ar_id r)))
                                  IdNone None (Some (ri_correlation_id (ar_identity r))) "pending" (c_units c)).1 c).

(** [create_run] *)
Definition create_run (objective : string) (user : UUID) : M (option AgentRun) :=
  catch (
    o ← generate_plan objective user;
    match o with
    | None => _ ← call (lv_error lv "agent_plan_generation" "Failed to generate agent plan"); mret None
    | Some plan =>
        id ← open_run objective user plan None create_unit;
        r ← get_run id;
        _ ← event "PLAN_CREATED" id [("overall_risk", JStr (plan_risk plan));
              ("auto_executed", JBool (match r with Some r => ar_status r =s "approved" | None => false end))];
        get_run id
    end)
    (fun e => _ ← call (lv_error lv "agent_create_run" (exn_msg e)); mret None).

(** [_create_run_from_plan] *)
Definition create_run_from_plan (objective : string) (plan : dict json) (user : UUID) (origin : string) : M (option AgentRun) :=
  catch (id ← open_run objective user plan (Some origin) (fun _ => mret ()); get_run id) (fun _ => mret None).

(** [replay_run] *)
Definition replay_run (id user : UUID) (mode : string) : M (option AgentRun) :=
  catch (
    o ← get_run id;
    match o with
    | Some original =>
        if negb (bool_decide (ar_user_id original = user)) then mret None else
        plan ← (if mode =s "new_plan" then generate_plan (ri_goal (ar_identity original)) user else mret (Some (ar_plan original)));
        match plan with
        | None => mret None
        | Some plan =>
            r ← create_run_from_plan (ri_goal (ar_identity original)) plan user (uuid_to_string id);
            match r with
            | None => mret None
            | Some r => _ ← event "REPLAY_CREATED" (ar_id r) [("original_run_id", JStr (uuid_to_string id)); ("mode", JStr mode)];
                        mret (Some r)
            end
        end
    | None => mret None
    end)
    (fun e => _ ← call (lv_error lv "agent_replay_run" (exn_msg e)); mret None).

(** [reject_run] *)
Definition reject_run (id user : UUID) : M (option AgentRun) :=
  catch (
    o ← get_run id;
    match o with
    | Some r =>
        if negb (bool_decide (ar_user_id r = user)) then mret None
        else if negb (ar_status r =s "pending_approval") then mret (Some r)
        else t ← now;
             _ ← edit_run id (run_rejected t);
             _ ← event "REJECTED" id [];
             get_run id
    | None => mret None
    end)
    (fun e => _ ← call (lv_error lv "agent_reject_run" (exn_msg e)); mret None).

(** ** Delegation: [dispatch_delegated_run] *)
Definition dispatch_delegated_run (parent : AgentRun) (co : coordination) : M (option AgentRun) :=
  let h := ar_identity parent in
  if negb (truthy (ri_goal h)) then mret None else
  id ← fresh_uuid;
  corr ← fresh_uuid;
  let child := new_run (MkIdentity id (ri_user_id h) (uuid_to_string (co_agent co)) (ri_goal h) (str_or (Some (ri_overall_risk h)) "high")
                          (ri_steps_total h) None (Some (ri_id h)) (Some (co_agent co)) (Some (co_mode co))
                          ("run_" +:+ uuid_to_string corr)) (ar_plan parent) "approved" in
  _ ← add_run child;
  tok ← mint child (ri_user_id h) "manual" (str_or (Some (ri_agent_type h)) "default");
  _ ← match tok with Some tk => edit_run id (run_granted tk) | None => mret () end;
  _ ← edit_run (ri_id h) (run_delegated None);
  catch (
    _ ← call (lv_assign lv parent child (default [] (tok ≫= tk_allowed_capabilities)));
    get_run id)
    (fun _ => mret None).

(** The branch of [execute_run] for a run that another agent is to execute *)
Definition delegate_run (r : AgentRun) (co : coordination) : M (option AgentRun) :=
  child ← dispatch_delegated_run r co;
  let child_id := match child with Some ch => JStr (uuid_to_string (ar_id ch)) | None => JNull end in
  _ ← edit_run (ar_id r) (run_delegated (Some (JObj [("coordination_mode", JStr (co_mode co)); ("selected_agent", co_selected co);
        ("candidates", co_candidates co); ("child_run_id", child_id);
        ("child_dispatched", JBool (match child with Some _ => true | None => false end));
        ("next_action", JObj [("type", JStr (co_mode co)); ("selected_agent", co_selected co); ("child_run_id", child_id)])])));
  _ ← event (if co_mode co =s "delegate" then "DELEGATION_DISPATCHED" else "COLLABORATION_STARTED") (ar_id r)
        [("child_run_id", child_id)];
  get_run (ar_id r).

(** ** Execution *)

(** The rows of [agent_steps] of a run in the order of their indices *)
Fixpoint insert_step (s : AgentStep) (l : list AgentStep) : list AgentStep :=
  match l with
  | [] => [s]
  | s' :: l' => if as_step_index s <? as_step_index s' then s :: l else s' :: insert_step s l'
  end.
Definition steps_of (id : UUID) (x : X) : list AgentStep :=
  foldl (fun l s => insert_step s l) [] (List.filter (fun s => bool_decide (as_run_id s = id)) (ag_steps (ag_get x))).
Definition step_json (s : AgentStep) : json :=
  step_result (as_step_index s) (as_tool_name s) (as_status s) (as_result s) (as_error_message s).

(** An assignment to a run that is still executing *)
Definition if_executing (f : AgentRun -> AgentRun) (r : AgentRun) : AgentRun := if ar_status r =s "executing" then f r else r.

(** The refusal of [execute_agent_flow_orchestration]: the assignments are committed
    by the emission, and rolled back when it fails. *)
Definition refuse_flow (id : UUID) (e : string) : M unit := fun c =>
  (_ ← edit_run id (fun r => if_executing (run_failed (sv_clock sv (c_ext c)) (Some (JObj [("steps", JArr [])])) e) r);
   r ← (fun c1 => match call (S := S) (sv_system sv "capability.denied" (uuid_to_string id) [("capability", JStr "execute_flow"); ("error", JStr e)]) c1 with
                  | (c2, Ok _) => (c2, Ok ())
                  | (c2, Raise ex) => (set_rm (with_ext (c_rm c2) (on_store (store_runs (fun _ => runs (c_ext c))) (c_ext c2))) c2, Raise ex)
                  end) : M unit;
   _ ← event "CAPABILITY_DENIED" id [("capability", JStr "execute_flow"); ("error", JStr e)];
   mret ()) c.

(** The state the flow starts with *)
Definition flow_state (id user : UUID) (plan : dict json) (corr : string) (tk : token) : dict json :=
  [("agent_run_id", JStr (uuid_to_string id)); ("user_id", JStr (uuid_to_string user)); ("steps", JArr (plan_steps plan));
   ("memory_context", jget plan "memory_context"); ("current_step_index", JInt 0); ("step_results", JArr []);
   ("correlation_id", JStr corr); ("execution_token", json_of_token tk)].

(** [execute_agent_flow_orchestration]: the response of the flow has no key ["error"],
    so that the error of a failed run is always the default.  The result is [None]
    when the flow does not end within the fuel. *)
Definition run_flow (fuel : nat) (id user : UUID) (plan : dict json) (corr : string) (tk : token) : M (option unit) :=
  _ ← call (sv_system sv "capability.allowed" (uuid_to_string id) [("capability", JStr "execute_flow")]);
  rid ← fresh_uuid;
  trace ← fresh_uuid;
  unit_id ← fresh_uuid;
  o ← start E db fsv fuel (uuid_to_string rid) (uuid_to_string trace) unit_id
        (MkRunner AGENT_FLOW (Some user) (Some "agent_execution") None "normal" None None None)
        (flow_state id user plan corr tk) "agent_execution";
  match o with
  | None => mret None
  | Some resp =>
      _ ← (if truthy (rs_run_id resp) then edit_run id (run_linked (rs_run_id resp)) else mret ());
      _ ← (if rs_status resp =s "SUCCESS" then mret () else
             t ← now;
             results ← gets (fun c => JArr (map step_json (steps_of id (c_ext c))));
             edit_run id (if_executing (run_failed t (Some (JObj [("steps", results)])) "Flow execution failed")));
      mret (Some ())
  end.
Definition execute_agent_flow_orchestration (fuel : nat) (id user : UUID) (plan : dict json) (corr : string) (tk : token)
    : M (option unit) :=
  catch (
    t ← now;
    match check_execution_capability sha256 cat (Some tk) t (uuid_to_string id) (uuid_to_string user) "execute_flow" with
    | Some e => _ ← refuse_flow id e; mret (Some ())
    | None => run_flow fuel id user plan corr tk
    end)
    (fun _ => mret (Some ())).

(** The status of the unit of a run, as far as it is changed *)
Definition update_unit (id : UUID) (status : string) : M unit := modifies (fun c =>
  let '(s, u) := lv_by_source lv (uuid_to_string id) (c_units c) in
  set_units (match u with Some u => (update_status db (sv_clock sv (c_ext c)) (IdUuid u) status s).1 | None => s end) c).

(** The local execution of a run *)
Definition perform_run (fuel : nat) (r : AgentRun) (user : UUID) (tk : token) : M (option (option AgentRun)) :=
  let id := ar_id r in
  t ← now;
  memory ← call (fun x => let (x', m) := lv_memory lv r x in (x', Ok m));
  let plan := dset (ar_plan r) "memory_context" memory in
  _ ← edit_run id (run_executing t plan);
  _ ← update_unit id "executing";
  _ ← event "EXECUTION_STARTED" id [];
  o ← execute_agent_flow_orchestration fuel id user plan (ri_correlation_id (ar_identity r)) tk;
  match o with
  | None => mret None
  | Some _ =>
      row ← get_run id;
      _ ← match row with
          | Some r' => if ar_status r' =s "completed" then call (lv_hooks lv r') else mret ()
          | None => mret ()
          end;
      row ← get_run id;
      _ ← match row with
          | Some r' => if str_in (ar_status r') ["completed"; "failed"] then update_unit id (ar_status r') else mret ()
          | None => mret ()
          end;
      Some <$> get_run id
  end.

(** [execute_run]; the outer [None] when the flow does not end within the fuel. *)
Definition execute_run (fuel : nat) (id user : UUID) : M (option (option AgentRun)) :=
  catch (
    o ← get_run id;
    match o with
    | None => mret (Some None)
    | Some r =>
        if negb (ar_status r =s "approved") then mret (Some (Some r))
        else if negb (bool_decide (ar_user_id r = user)) then mret (Some None)
        else match ar_capability_token r with
             | None =>
                 t ← now;
                 _ ← edit_run id (run_failed t None "Missing scoped capability token.");
                 _ ← event "CAPABILITY_DENIED" id [("error", JStr "missing scoped capability token")];
                 Some <$> get_run id
             | Some tk =>
                 _ ← call (lv_register lv r);
                 co ← call (lv_decide lv r (default [] (tk_allowed_capabilities tk)));
                 if str_in (co_mode co) ["delegate"; "collaborate"] then Some <$> delegate_run r co
                 else perform_run fuel r user tk
             end
    end)
    (fun e => catch (_ ← call (lv_error lv "agent_execution" (exn_msg e)); mret (Some None)) (fun _ => mret (Some None))).

(** [approve_run]: without a token the assignments are rolled back. *)
Definition approve_run (fuel : nat) (id user : UUID) : M (option (option AgentRun)) :=
  catch (
    o ← get_run id;
    match o with
    | None => mret (Some None)
    | Some r =>
        if negb (bool_decide (ar_user_id r = user)) then mret (Some None)
        else if negb (ar_status r =s "pending_approval") then mret (Some (Some r))
        else t ← now;
             tok ← mint r user "manual" (ar_agent_type r);
             match tok with
             | None => _ ← edit_run id run_not_approved; Some <$> get_run id
             | Some tk =>
                 _ ← edit_run id (run_approved t tk);
                 _ ← event "APPROVED" id [("auto_executed", JBool false)];
                 execute_run fuel id user
             end
    end)
    (fun e => _ ← call (lv_error lv "agent_approve_run" (exn_msg e)); mret (Some None)).
End runs.
