(* ===== verification/AgentSafety.v ===== *)
(** * Agent tools run only with authority

    Every tool call of every agent run, over any history of requests, passed a check
    of a token that was minted for that run, its owner and its plan; and either the
    owner asked for the approval of the run, or of a run it was delegated from, or
    the tool is one that needs no approval. *)
From S2P Require Import Prelude PyDatetime PyUuid Json Capability ResourceManager ExecutionUnit FlowEngine FlowFacts FlowWorld.
From S2P Require Import PyEffects AgentFlow AgentRuns.
Local Open Scope Z_scope.

(** ** Programs of the outside world that respect a relation *)
Section within.
Context {X : Type} (R : relation X) `{!PreOrder R}.
Lemma within_ret {A} (a : A) : within R (mret a : SE X A).
Proof. intros x. done. Qed.
Lemma within_throw {A} e : within R (throw e : SE X A).
Proof. intros x. done. Qed.
Lemma within_reads {A} (f : X -> A) : within R (reads f).
Proof. intros x. done. Qed.
Lemma within_bind {A B} (m : SE X A) (f : A -> SE X B) : within R m -> (forall a, within R (f a)) -> within R (m ≫= f).
Proof.
  intros Hm Hf x. unfold mbind, SE_bind. specialize (Hm x). destruct (m x) as [x' [a|e]]; [|done]. etrans; [exact Hm|apply Hf].
Qed.
Lemma within_try {A} (m : SE X A) (h : exn -> SE X A) : within R m -> (forall e, within R (h e)) -> within R (try_except m h).
Proof.
  intros Hm Hh x. unfold try_except. specialize (Hm x). destruct (m x) as [x' [a|e]]; [done|]. etrans; [exact Hm|apply Hh].
Qed.
Lemma wp_within {A} (m : SE X A) (Q : X -> result A -> Prop) x : within R m -> (forall x' r, R x x' -> Q x' r) -> wp m Q x.
Proof. intros Hm HQ. apply HQ, Hm. Qed.
Lemma within_wp {A} (m : SE X A) : (forall x, wp m (fun x' _ => R x x') x) -> within R m.
Proof. intros Hm x. apply Hm. Qed.
End within.
Create HintDb within discriminated.
#[export] Hint Resolve within_ret within_throw within_reads : within.
#[export] Hint Extern 1 (PreOrder _) => apply _ : within.
Ltac within_auto :=
  repeat lazymatch goal with
  | |- PreOrder _ => apply _
  | |- forall _, _ => intros ?
  | |- within _ (_ ≫= _) => apply within_bind
  | |- within _ (try_except _ _) => apply within_try
  | |- within _ (match ?x with _ => _ end) => destruct x
  | |- within _ _ => solve [auto with within]
  end.

(** ** How the tables may change *)

(** What the authority of a run consists of *)
Definition auth_of (r : AgentRun) : run_identity * list (option string) * option token :=
  (ar_identity r, named_tools (ar_plan r), ar_capability_token r).
Definition evolves (r r' : AgentRun) : Prop :=
  auth_of r' = auth_of r /\ (ar_status r' = "pending_approval" -> ar_status r = "pending_approval").
#[export] Instance evolves_preorder : PreOrder evolves.
Proof. split; [done|]. intros a b d [H1 H2] [H3 H4]. split; [congruence|auto]. Qed.

(** The rows keep their authority and the log grows by calls that satisfy [P]. *)
Definition grows (P : tool_call -> Prop) (g g' : agents) : Prop :=
  (forall id, option_Forall2 evolves (ag_runs g !! id) (ag_runs g' !! id)) /\
  exists l, ag_calls g' = ag_calls g ++ l /\ Forall P l.
#[export] Instance grows_preorder P : PreOrder (grows P).
Proof.
  split.
  - intros g. split; [intros id; by destruct (ag_runs g !! id); constructor|]. exists []. by rewrite app_nil_r.
  - intros g1 g2 g3 [H1 (l1&E1&F1)] [H2 (l2&E2&F2)]. split; [|exists (l1 ++ l2); rewrite E2, E1, <- app_assoc; split; [done|by apply Forall_app]].
    intros id. specialize (H1 id). specialize (H2 id). inversion H1 as [r r' Hr Ha Hb|Ha Hb]; rewrite <- Hb in H2; inversion H2; constructor; by etrans.
Qed.
Lemma grows_alter P f id g : (forall r, evolves r (f r)) -> grows P g (store_runs (alter f id) g).
Proof.
  intros Hf. split; [|exists []; by rewrite app_nil_r]. intros i. cbn. destruct (decide (i = id)) as [->|Hne].
  - rewrite lookup_alter_eq. destruct (ag_runs g !! id); constructor. apply Hf.
  - rewrite lookup_alter_ne by done. destruct (ag_runs g !! i); constructor. done.
Qed.

(** ** The nodes of the agent flow *)
Section nodes.
Context {X : Type} `{!AgentStore X} `{!IsoCodec} (sha256 : string -> string) (cat : catalog) (sv : @agent_services X).

(** The services leave the agent tables alone. *)
Definition same_tables (x x' : X) : Prop := ag_get x' = ag_get x.
#[export] Instance same_tables_preorder : PreOrder same_tables.
Proof. split; [done|]. intros a b d H1 H2. unfold same_tables in *. congruence. Qed.
Record agent_still : Prop := {
  st_tool t args u : within same_tables (sv_tool sv t args u);
  st_event a b p : within same_tables (sv_event sv a b p);
  st_system a b p : within same_tables (sv_system sv a b p);
  st_enrich t x : same_tables x (sv_enrich sv t x);
  st_completed u j : within same_tables (sv_completed sv u j)
}.
Hypothesis Hsv : agent_still.
Context (tk : token) (run user : string).

(** A call that the token allowed at the time of its check *)
Definition permitted (tc : tool_call) : Prop := tc_run tc = run /\ tc_user tc = user /\
  exists t, tc_checked tc = Some t /\ check_tool_capability sha256 cat (Some tk) t run user (tc_tool tc) = None.
Definition moves (x x' : X) : Prop := grows permitted (ag_get x) (ag_get x').
#[export] Instance moves_preorder : PreOrder moves.
Proof. split; [intros x; unfold moves; done|]. intros a b d H1 H2. unfold moves in *. by etrans. Qed.
Lemma same_tables_moves x x' : same_tables x x' -> moves x x'.
Proof. unfold same_tables, moves. by intros ->. Qed.
Lemma same_moves {A} (f : X -> X * A) : within same_tables f -> within moves f.
Proof. intros Hf x. unfold moves. by rewrite (Hf x). Qed.

Lemma writes_moves f : (forall g, grows permitted g (f g)) -> within moves (writes (on_store f)).
Proof. intros Hf x. unfold moves. cbn. unfold on_store. rewrite ag_get_set. apply Hf. Qed.
Lemma system_moves a b p : within moves (sv_system sv a b p).
Proof. apply same_moves, (st_system Hsv). Qed.
Lemma event_moves a b p : within moves (sv_event sv a b p).
Proof. apply same_moves, (st_event Hsv). Qed.
Lemma completed_moves u j : within moves (sv_completed sv u j).
Proof. apply same_moves, (st_completed Hsv). Qed.
Lemma tool_moves t a u : within moves (sv_tool sv t a u).
Proof. apply same_moves, (st_tool Hsv). Qed.
#[local] Hint Resolve system_moves event_moves completed_moves tool_moves : within.

Lemma check_call_spec tool x : wp (check_call sha256 cat sv tool user run (Some tk))
  (fun x' r => same_tables x x' /\ match r with
     | Ok (inr t) => exists now, t = Some now /\ check_tool_capability sha256 cat (Some tk) now run user tool = None
     | _ => True end) x.
Proof.
  unfold check_call. destruct (truthy run); cbn [negb]; [|by wp_steps]. apply wp_try. wp_steps.
  destruct (check_tool_capability _ _ _ _ _ _ _) as [e|] eqn:Hc; apply wp_bind;
    (eapply wp_within; [apply (st_system Hsv)|]); intros x' [o|ex] Hx; wp_steps; try done.
  split; [done|]. by exists (sv_clock sv x).
Qed.

Lemma execute_tool_moves tool args : within moves (execute_tool sha256 cat sv tool args user run (Some tk)).
Proof.
  unfold execute_tool. destruct (dmem _ _); cbn [negb]; [|within_auto]. apply within_wp. intros x.
  apply wp_bind. eapply wp_mono; [apply check_call_spec|].
  intros x1 [[res|t]|e] [Hx Hc]; [by apply wp_ret, same_tables_moves| |by apply same_tables_moves].
  destruct Hc as (now&->&Hc). apply wp_bind, wp_writes. set (tc := MkCall _ _ _ _ _).
  assert (moves x (on_store (log_call tc) x1)) as Hm.
  { etrans; [by apply same_tables_moves|]. apply (writes_moves (log_call tc)). intros g. split.
    - intros id. cbn. destruct (ag_runs g !! id); by constructor.
    - exists [tc]. split; [done|]. apply Forall_singleton. split_and!; [done..|]. by exists now. }
  eapply wp_within; [|intros x2 r H2; etrans; [exact Hm|exact H2]]. within_auto.
Qed.
#[local] Hint Resolve execute_tool_moves : within.

Lemma attempt_tool_moves n policy tool args : within moves (attempt_tool sha256 cat sv n policy tool args user run (Some tk)).
Proof. induction n as [|n IH]; cbn [attempt_tool]; within_auto. Qed.
Lemma add_step_moves id f n : within moves (add_step (X := X) id f n).
Proof.
  unfold add_step. destruct (uuid_of_string id) as [u|]; [|within_auto]. apply writes_moves. intros g.
  destruct (grows_alter permitted (run_progress n) u g) as [H1 H2]; [done|]. split; [exact H1|exact H2].
Qed.
#[local] Hint Resolve attempt_tool_moves add_step_moves : within.

(** The states of the flow that carry the token of the run *)
Definition carries (st : dict json) : Prop :=
  dmem st "execution_token" = true /\ state_token st = Some tk /\
  dget st "agent_run_id" = Some (JStr run) /\ dget st "user_id" = Some (JStr user).

Lemma enrich_moves t : within moves (writes (sv_enrich sv t)).
Proof. intros x. by apply same_tables_moves, (st_enrich Hsv). Qed.
#[local] Hint Resolve enrich_moves : within.
Lemma step_events_moves kind payload : within moves (step_events sv run kind payload).
Proof. unfold step_events. within_auto. Qed.
#[local] Hint Resolve step_events_moves : within.

Lemma execute_step_moves st : carries st -> within moves (agent_execute_step sha256 cat sv st).
Proof.
  intros (Hm&Ht&Hr&Hu). unfold agent_execute_step. destruct (_ !! _) as [[| | | | | |step]|]; try (within_auto; done).
  unfold state_text. rewrite Hr, Hu, Hm. cbn [orb status_text]. apply within_wp. intros x.
  apply wp_bind, wp_ret, wp_bind, wp_ret, wp_bind, wp_reads. eapply wp_within; [|done].
  destruct (check_tool_capability _ _ _ _ _ _ _) as [e|]; [unfold deny_step|unfold perform_step; rewrite Ht]; within_auto.
Qed.
Lemma finalize_moves st : within moves (agent_finalize_run sv st).
Proof.
  unfold agent_finalize_run, state_text. within_auto. intros x. unfold moves, writes, on_store. cbn. rewrite ag_get_set.
  by apply grows_alter.
Qed.

(** ** The flow *)
Lemma dict_update_other st patch k : k ∉ dkeys patch -> dget (dict_update st patch) k = dget st k.
Proof.
  unfold dict_update. revert st. induction patch as [|[k' v] patch IH]; intros st Hk; [done|].
  apply not_elem_of_cons in Hk as [H1 H2]. cbn [foldl fst snd]. rewrite IH by done. by apply dget_dset_ne.
Qed.
Lemma carries_same st st' : (forall k, str_in k ["execution_token"; "capability_token"; "agent_run_id"; "user_id"] = true ->
  dget st' k = dget st k) -> carries st -> carries st'.
Proof.
  intros Hk (H1&H2&H3&H4). unfold carries, state_token, jget in *. rewrite !Hk by done.
  split_and!; try done. unfold dmem in *. by rewrite Hk.
Qed.
Lemma carries_dset st k v : str_in k ["execution_token"; "capability_token"; "agent_run_id"; "user_id"] = false -> carries st -> carries (dset st k v).
Proof.
  intros Hk. apply carries_same. intros k' Hk'. apply dget_dset_ne. intros ->. congruence.
Qed.

(** What a node returns, if it returns *)
Definition returns {A} (P : A -> Prop) (m : SE X A) : Prop := forall x, match (m x).2 with Ok a => P a | Raise _ => True end.
Lemma returns_ret {A} (P : A -> Prop) a : P a -> returns P (mret a).
Proof. intros Ha x. done. Qed.
Lemma returns_throw {A} (P : A -> Prop) e : returns P (throw e).
Proof. intros x. done. Qed.
Lemma returns_bind {A B} (P : B -> Prop) (m : SE X A) (f : A -> SE X B) : (forall a, returns P (f a)) -> returns P (m ≫= f).
Proof. intros Hf x. unfold mbind, SE_bind. destruct (m x) as [x' [a|e]]; [apply Hf|done]. Qed.

Definition plain_patch (nres : node_result) : Prop :=
  forall k, k ∈ dkeys (nr_patch nres) -> str_in k ["execution_token"; "capability_token"; "agent_run_id"; "user_id"] = false.
Lemma plain_patch_keys nres ks : dkeys (nr_patch nres) = ks ->
  forallb (fun k => negb (str_in k ["execution_token"; "capability_token"; "agent_run_id"; "user_id"])) ks = true -> plain_patch nres.
Proof. intros <- Hks k Hk. rewrite forallb_forall in Hks. apply negb_true_iff, Hks, list_elem_of_In, Hk. Qed.
Lemma node_patches node g st a x : dget (agent_nodes sha256 cat sv) node = Some g ->
  match (g st a x).2 with Ok nres => plain_patch nres | Raise _ => True end.
Proof.
  assert (forall body : dict json -> SE X node_result, (forall st, returns plain_patch (body st)) -> as_node body = g ->
    match (g st a x).2 with Ok nres => plain_patch nres | Raise _ => True end) as Hb.
  { intros body Hbody <-. unfold as_node. specialize (Hbody st x). by destruct (body st x). }
  unfold agent_nodes. cbn [dget].
  destruct ("agent_validate_steps" =s node); [|destruct ("agent_execute_step" =s node); [|destruct ("agent_finalize_run" =s node); [|done]]];
    (intros [= <-]; eapply Hb; [|reflexivity]; intros st').
  - unfold agent_validate_steps. apply returns_ret. destruct (json_truthy _); by eapply plain_patch_keys.
  - unfold agent_execute_step. destruct (json_list _ !! _) as [[| | | | | |step]|]; try done; [|apply returns_ret; by eapply plain_patch_keys].
    do 3 (apply returns_bind; intros ?). destruct (if _ || _ then _ else _); [unfold deny_step|unfold perform_step].
    + do 3 (apply returns_bind; intros ?). apply returns_ret; by eapply plain_patch_keys.
    + do 2 (apply returns_bind; intros ?). destruct a4 as [res ms]. do 2 (apply returns_bind; intros ?).
      apply returns_ret. destruct (tr_success res); by eapply plain_patch_keys.
  - unfold agent_finalize_run. do 5 (apply returns_bind; intros ?). apply returns_ret; by eapply plain_patch_keys.
Qed.

Section engine.
Context {S : Type} (E : env X) (db : eu_session S) (fsv : @flow_services X S).
Definition registered : Prop := forall n g, dget (agent_nodes sha256 cat sv) n = Some g -> dget (fs_nodes fsv) n = Some g.
Hypothesis HE : env_within same_tables E.
Hypothesis Hfsv : services_within same_tables fsv.
Hypothesis Hreg : registered.

Definition agent_node (n : string) : Prop := str_in n ["agent_validate_steps"; "agent_execute_step"; "agent_finalize_run"] = true.
Lemma agent_node_within n : agent_node n -> node_within moves fsv carries n.
Proof.
  intros Hn g st a x Hg Hst. assert (dget (agent_nodes sha256 cat sv) n = Some g) as Hg'.
  { apply str_in_spec in Hn. rewrite !elem_of_cons, elem_of_nil in Hn. destruct Hn as [->|[->|[->|[]]]];
      rewrite <- Hg; symmetry; apply Hreg; reflexivity. }
  pose proof (node_patches n g st a x Hg') as Hp.
  assert (exists body, g = as_node body /\ within moves (body st)) as (body&->&Hb).
  { apply str_in_spec in Hn. rewrite !elem_of_cons, elem_of_nil in Hn. destruct Hn as [->|[->|[->|[]]]]; injection Hg' as <-; eexists; (split; [reflexivity|]).
    - unfold agent_validate_steps. within_auto.
    - by apply execute_step_moves.
    - apply finalize_moves. }
  unfold as_node in *. specialize (Hb x). destruct (body st x) as [x' [nres|e]]; cbn in *; [|done]. split_and!; [done..|].
  eapply carries_same; [|exact Hst]. intros k Hk. apply dict_update_other. intros Hin. rewrite (Hp k Hin) in Hk. done.
Qed.
Lemma agent_node_closed n st n' : agent_node n -> resolve_next_node n st AGENT_FLOW = Ok (Some n') -> agent_node n'.
Proof.
  intros Hn. apply str_in_spec in Hn. rewrite !elem_of_cons, elem_of_nil in Hn. destruct Hn as [->|[->|[->|[]]]].
  - by intros [= <-].
  - rewrite agent_next. destruct (_ <? _); by intros [= <-].
  - done.
Qed.
Lemma agent_flow_moves fuel rid trace fresh r st name c : ru_flow r = AGENT_FLOW -> carries st ->
  moves (c_ext c) (c_ext (start E db fsv fuel rid trace fresh r st name c).1).
Proof.
  intros Hr Hst. apply (start_within moves E db fsv (env_within_larger _ _ same_tables_moves E HE)
    (services_within_larger _ _ same_tables_moves fsv Hfsv) AGENT_FLOW carries agent_node agent_node_within agent_node_closed);
    [|done..].
  intros st' k v Hk. apply carries_dset. apply str_in_spec in Hk. rewrite !elem_of_cons, elem_of_nil in Hk. by destruct Hk as [->|[->|[]]].
Qed.
End engine.
End nodes.
