(* ===== verification/AgentDemo.v ===== *)
(** * A small world for agent runs

    Agent tables with a counter for identifiers, services that answer at once and a
    planner that proposes a search followed by a deployment: the concrete system on
    which the theorems about agent runs are evaluated. *)
From S2P Require Import Prelude PyDatetime PyUuid Json Capability ResourceManager ExecutionUnit FlowEngine FlowFacts AgentFlow AgentRuns.
Local Open Scope Z_scope.

Definition world : Type := agents * N.
#[export] Program Instance world_store : AgentStore world := {| ag_get := fst; ag_set a x := (a, x.2) |}.
Next Obligation. done. Qed.

Definition demo_cat : catalog :=
  MkCatalog [("search", Some "low"); ("deploy", Some "high")] ["execute_flow"; "web.read"; "prod.write"]
    (fun t => if t =s "search" then ["web.read"] else if t =s "deploy" then ["prod.write"] else [])
    (fun _ => ["execute_flow"]) ["deploy"] (fun _ => None).

Definition demo_client : quota_client world :=
  MkClient world (fun _ x => (x, Ok None)) (fun _ _ x => (x, Ok ())) (fun _ n x => (x, Ok n)) (fun _ _ x => (x, Ok ()))
    (fun _ x => (x, Ok ())) (fun _ x => (x, Ok [])).
Definition demo_env : env world :=
  MkEnv false false 5 1000 100 (fun x => (x, false)) demo_client None (fun _ => true) (fun _ x => (x, Ok ())).
Definition demo_sv : @agent_services world :=
  MkAgentServices (fun _ => 0) (fun t _ _ x => (x, Ok (JStr (t +:+ " done")))) (fun _ _ _ x => (x, Ok None)) (fun _ _ _ x => (x, Ok None))
    (fun _ x => x) (fun _ _ x => (x, Ok [])).
Definition demo_fsv : @flow_services world (gmap UUID ExecutionUnit) :=
  MkFlowServices (fun _ => 0) (fun _ x => (x, Ok None)) (fun _ _ x => x) (fun _ x => x) (fun _ _ x => (x, Ok ()))
    (fun _ _ x => (x, Ok ())) (fun _ x => (x, Ok ())) (fun _ => None) (fun _ => None) (fun _ s => (s, None))
    (fun x => (x, true)) (agent_nodes (fun s => s) demo_cat demo_sv) [] (fun _ => None) 30.

(** Identifiers above everything in use *)
Definition demo_uuid (x : world) : world * UUID :=
  let n := N.succ (N.max x.2 (map_fold (fun k _ m => N.max (uuid_int k) m) 0%N (ag_runs x.1))) in ((x.1, n), MkUUID n).
Lemma demo_uuid_fresh x : ag_runs x.1 !! (demo_uuid x).2 = None.
Proof.
  assert (forall (m : gmap UUID AgentRun) k r, m !! k = Some r -> (uuid_int k <= map_fold (fun k _ m => N.max (uuid_int k) m) 0 m)%N) as Hmax.
  { intros m. apply (map_fold_weak_ind (fun b m => forall k r, m !! k = Some r -> (uuid_int k <= b)%N)); [intros k r Hk; by rewrite lookup_empty in Hk|].
    intros i r0 m' b Hi IH k r [[<- _]|[_ Hk]]%lookup_insert_Some; [lia|]. apply IH in Hk. lia. }
  destruct (ag_runs x.1 !! (demo_uuid x).2) as [r|] eqn:Hr; [|done]. apply Hmax in Hr. cbn in Hr. lia.
Qed.

Definition demo_step (tool risk : string) : json := JObj [("tool", JStr tool); ("args", JObj []); ("risk_level", JStr risk)].
Definition demo_plan : json :=
  JObj [("steps", JArr [demo_step "search" "low"; demo_step "deploy" "high"]); ("overall_risk", JStr "low")].
Definition demo_lv (answer : json) (trust : option trust_settings) (co : coordination) : @run_services world (gmap UUID ExecutionUnit) :=
  MkRunServices (fun _ _ x => (x, Ok (Some (dumps answer)))) (fun _ _ => trust) demo_uuid (fun _ _ x => (x, Ok None))
    (fun _ s => (s, None)) (fun _ x => (x, Ok ())) (fun _ _ x => (x, Ok co)) (fun _ _ _ x => (x, Ok ()))
    (fun _ x => (x, JObj [])) (fun _ x => (x, Ok ())).
Definition here : coordination := MkCoordination "local" (MkUUID 0) JNull JNull.

Definition demo_cfg : @cfg world (gmap UUID ExecutionUnit) := MkCfg ∅ [] (rm_init (MkAgents ∅ [] [], 100%N)) ∅ [] [].
