(* ===== verification/AgentPlans.v ===== *)
(** * The risk of a generated plan

    What [generate_plan] makes of the labels of the steps, and which plans then need
    an approval ([AINDY/agents/agent_runtime/planning.py]). *)
From S2P Require Import Prelude Json Capability FlowEngine AgentFlow AgentRuns.
Local Open Scope Z_scope.

Definition known_label (l : string) : bool := str_in l ["low"; "medium"; "high"].
(** The label of a step *)
Definition label_of (s : dict json) : json := default (JStr "high") (dget s "risk_level").

Lemma risk_levels_objects l : risk_levels (map JObj l) = Ok (map label_of l).
Proof. induction l as [|s l IH]; [done|]. cbn. by rewrite IH. Qed.
Lemma risk_rank_range d r : 0 <= d <= 2 -> 0 <= risk_rank d r <= 2.
Proof.
  intros Hd. destruct r as [| | | | s | |]; try exact Hd. cbn [risk_rank dget]. destruct ("low" =s s); [done|]. destruct ("medium" =s s); [done|].
  by destruct ("high" =s s).
Qed.
Lemma risk_rank_known d d' l : known_label l = true -> risk_rank d (JStr l) = risk_rank d' (JStr l).
Proof. unfold known_label. rewrite str_in_spec, !elem_of_cons, elem_of_nil. by intros [->|[->|[->|[]]]]. Qed.
Lemma risk_rank_unknown d l : known_label l = false -> risk_rank d (JStr l) = d.
Proof.
  intros Hl. cbn. unfold known_label, str_in in Hl. cbn in Hl. rewrite !(String.eqb_sym l) in Hl.
  by destruct ("low" =s l), ("medium" =s l), ("high" =s l).
Qed.

(** The largest label is one of the labels, and none is larger. *)
Lemma max_risk_fold m rs : let b := foldl (fun m r => if risk_rank 2 m <? risk_rank 2 r then r else m) m rs in
  b ∈ m :: rs /\ forall r, r ∈ m :: rs -> risk_rank 2 r <= risk_rank 2 b.
Proof.
  revert m. induction rs as [|r rs IH]; intros m b.
  - split; [left|]. intros r Hr. apply list_elem_of_singleton in Hr as ->. subst b. cbn. lia.
  - subst b. cbn [foldl]. destruct (IH (if risk_rank 2 m <? risk_rank 2 r then r else m)) as [H1 H2]. set (b := foldl _ _ rs) in *. clearbody b.
    assert (risk_rank 2 m <= risk_rank 2 b /\ risk_rank 2 r <= risk_rank 2 b) as [Hm Hr].
    { specialize (H2 _ ltac:(left)). destruct (Z.ltb_spec (risk_rank 2 m) (risk_rank 2 r)); lia. }
    split; [destruct (_ <? _); set_solver|]. intros r' Hr'. rewrite !elem_of_cons in Hr'. destruct Hr' as [->|[->|Hr']]; [done..|]. apply H2. by right.
Qed.

Definition labelled (s : dict json) : Prop := exists k, label_of s = JStr k /\ known_label k = true.
Lemma labelled_hashable l : Forall labelled l -> forallb hashable (map label_of l) = true.
Proof. induction 1 as [|s l (k&Hk&_) _ IH]; [done|]. cbn. by rewrite Hk, IH. Qed.
Lemma labelled_rank l r d d' : Forall labelled l -> r ∈ map label_of l -> risk_rank d r = risk_rank d' r.
Proof.
  intros Hl Hr. apply list_elem_of_In, in_map_iff in Hr as (s&<-&Hs). rewrite Forall_forall in Hl.
  destruct (Hl s (proj2 (list_elem_of_In _ _) Hs)) as (k&->&Hk). by apply risk_rank_known.
Qed.

(** A plan whose labels are all low, medium or high: the risk of the generated plan is the
    declared one or the label of a step, it is at least the declared risk and the label of every
    step, the steps are unchanged, and a plan with a high step always needs an approval. *)
Theorem plan_risk_covers_steps content plan l overall :
  loads content = Ok (JObj plan) -> dget plan "steps" = Some (JArr (map JObj l)) -> dget plan "overall_risk" = Some (JStr overall) ->
  l <> [] -> known_label overall = true -> Forall labelled l ->
  exists plan', assess_plan content = Ok (Some plan') /\ plan_steps plan' = map JObj l /\
    JStr (plan_risk plan') ∈ JStr overall :: map label_of l /\
    (forall r, r ∈ JStr overall :: map label_of l -> risk_rank 0 r <= risk_rank 0 (JStr (plan_risk plan'))) /\
    (JStr "high" ∈ map label_of l -> forall trust, requires_approval (plan_risk plan') trust = true).
Proof.
  intros Hload Hsteps Hrisk Hne Hov Hl. unfold assess_plan. rewrite Hload, Hsteps, Hrisk. cbn [step_risks]. rewrite risk_levels_objects.
  cbn [forallb hashable andb]. rewrite (labelled_hashable l Hl). cbn [negb].
  assert (exists k, max_risk (map label_of l) = JStr k /\ JStr k ∈ map label_of l /\ forall r, r ∈ map label_of l -> risk_rank 0 r <= risk_rank 0 (JStr k))
    as (k&Hk&Hin&Hmax).
  { destruct l as [|s l]; [done|]. destruct (max_risk_fold (label_of s) (map label_of l)) as [H1 H2]. cbn [map max_risk]. set (b := foldl _ _ _) in *. clearbody b.
    pose proof H1 as Hb. apply (list_elem_of_In (label_of s :: map label_of l)) in H1. change (label_of s :: map label_of l) with (map label_of (s :: l)) in *.
    apply in_map_iff in H1 as (s'&Hs'&Hin'). rewrite Forall_forall in Hl. destruct (Hl s' (proj2 (list_elem_of_In _ _) Hin')) as (k&Hk&_).
    exists k. assert (b = JStr k) as -> by congruence. split_and!; try done. intros r Hr.
    rewrite (labelled_rank (s :: l) r 0 2), (labelled_rank (s :: l) (JStr k) 0 2); auto; by apply Forall_forall. }
  rewrite Hk. set (plan' := if _ <? _ then _ else plan). exists plan'. split; [done|].
  assert (plan_steps plan' = map JObj l /\ exists o, plan_risk plan' = o /\ JStr o ∈ JStr overall :: map label_of l /\
    risk_rank 0 (JStr overall) <= risk_rank 0 (JStr o) /\ risk_rank 0 (JStr k) <= risk_rank 0 (JStr o)) as [H1 (o&->&Ho&H2&H3)].
  { subst plan'. unfold plan_steps, plan_risk, text_field, jget. destruct (Z.ltb_spec (risk_rank 0 (JStr overall)) (risk_rank 0 (JStr k))).
    - rewrite dget_dset_ne, dget_dset_eq, Hsteps by done. split; [done|]. exists k. split; [done|]. split; [by right|lia].
    - rewrite Hsteps, Hrisk. split; [done|]. exists overall. split; [done|]. split; [left|lia]. }
  assert (forall r, r ∈ JStr overall :: map label_of l -> risk_rank 0 r <= risk_rank 0 (JStr o)) as Hall.
  { intros r Hr. apply elem_of_cons in Hr as [->|Hr]; [done|]. specialize (Hmax r Hr). lia. }
  split_and!; [done|done|done|]. intros Hh trust. assert (o = "high") as ->; [|done].
  specialize (Hall (JStr "high") ltac:(by right)). revert Hall. cbn [risk_rank dget]. destruct ("low" =s o); [done|]. destruct ("medium" =s o); [done|].
  destruct ("high" =s o) eqn:He; [by apply String.eqb_eq in He|done].
Qed.

(** The label of a step that is not low, medium or high hides the labels after it: it
    counts as high when the largest is chosen and as low when that is compared with the
    declared risk.  A plan declared low, with a first step of such a label, is left as it is
    whatever its other steps say, and needs no approval from a user who lets low plans run. *)
Theorem unknown_label_hides_risk content plan s0 rest label trust :
  loads content = Ok (JObj plan) -> dget plan "steps" = Some (JArr (JObj s0 :: map JObj rest)) -> dget plan "overall_risk" = Some (JStr "low") ->
  dget s0 "risk_level" = Some (JStr label) -> known_label label = false -> Forall labelled rest -> ts_auto_execute_low trust = true ->
  assess_plan content = Ok (Some plan) /\ requires_approval (plan_risk plan) (Some trust) = false.
Proof.
  intros Hload Hsteps Hrisk Hs0 Hlab Hl Ht. split.
  - unfold assess_plan. rewrite Hload, Hsteps, Hrisk. cbn [step_risks risk_levels]. rewrite risk_levels_objects, Hs0.
    change (default (JStr "high") (Some (JStr label))) with (JStr label). cbn [forallb hashable andb]. rewrite (labelled_hashable rest Hl). cbn [negb].
    assert (max_risk (JStr label :: map label_of rest) = JStr label) as ->.
    { cbn [max_risk]. induction (map label_of rest) as [|r rs IH]; [done|]. cbn [foldl]. rewrite (risk_rank_unknown 2 label Hlab).
      destruct (Z.ltb_spec 2 (risk_rank 2 r)); [pose proof (risk_rank_range 2 r); lia|done]. }
    by rewrite (risk_rank_unknown 0 label Hlab).
  - unfold plan_risk, text_field. rewrite Hrisk. unfold requires_approval.
    change ("low" =s "high") with false. change ("low" =s "medium") with false. change ("low" =s "low") with true. by rewrite Ht.
Qed.

Definition demo_trust : trust_settings := MkTrust None true false.
Definition demo_steps (labels : list string) : list (dict json) := map (fun l => [("tool", JStr "search"); ("risk_level", JStr l)]) labels.
Definition demo_answer (overall : string) (labels : list string) : dict json :=
  [("steps", JArr (map JObj (demo_steps labels))); ("overall_risk", JStr overall)].

Lemma plan_risk_covers_steps_witness : exists plan', assess_plan (dumps (JObj (demo_answer "low" ["medium"; "high"; "low"]))) = Ok (Some plan') /\
  forall trust, requires_approval (plan_risk plan') trust = true.
Proof.
  destruct (plan_risk_covers_steps (dumps (JObj (demo_answer "low" ["medium"; "high"; "low"]))) (demo_answer "low" ["medium"; "high"; "low"])
    (demo_steps ["medium"; "high"; "low"]) "low") as (plan'&H1&_&_&_&H2).
  - vm_compute. reflexivity.
  - reflexivity.
  - reflexivity.
  - discriminate.
  - reflexivity.
  - repeat (apply Forall_cons; split; [eexists; split; reflexivity|]). apply Forall_nil_2.
  - exists plan'. split; [exact H1|]. apply H2. right. left.
Defined.

Lemma unknown_label_hides_risk_witness :
  assess_plan (dumps (JObj (demo_answer "low" ["critical"; "high"]))) = Ok (Some (demo_answer "low" ["critical"; "high"])) /\
  requires_approval (plan_risk (demo_answer "low" ["critical"; "high"])) (Some demo_trust) = false.
Proof.
  apply (unknown_label_hides_risk _ _ [("tool", JStr "search"); ("risk_level", JStr "critical")] (demo_steps ["high"]) "critical").
  - vm_compute. reflexivity.
  - reflexivity.
  - reflexivity.
  - reflexivity.
  - reflexivity.
  - apply Forall_cons. split; [eexists; split; reflexivity|apply Forall_nil_2].
  - reflexivity.
Defined.
