(* ===== verification/AgentAuthority.v ===== *)
(** * The authority behind every tool call

    The invariant of the agent tables over any history of requests: every token was
    minted for its run, its owner and its plan, and every call of a tool was allowed
    by the token of its run. *)
From S2P Require Import Prelude PyDatetime PyUuid Json Capability ResourceManager ExecutionUnit FlowEngine.
From S2P Require Import AgentFlow AgentRuns AgentSafety AgentDemo FlowFacts FlowWorld.
Local Open Scope Z_scope.

(** The requests of the users *)
Inductive request :=
| Create (objective : string) (user : UUID)
| Replay (id user : UUID) (mode : string)
| Approve (id user : UUID)
| Reject (id user : UUID)
| Execute (id user : UUID).

(** [anc] is the run itself or a run it was delegated from. *)
Inductive descends (g : agents) : UUID -> UUID -> Prop :=
| descends_self id : descends g id id
| descends_parent id r p anc : ag_runs g !! id = Some r -> ri_parent_run_id (ar_identity r) = Some p ->
    descends g p anc -> descends g id anc.

Lemma descends_mono g g' id anc :
  (forall i r, ag_runs g !! i = Some r -> exists r', ag_runs g' !! i = Some r' /\ ar_identity r' = ar_identity r) ->
  descends g id anc -> descends g' id anc.
Proof.
  intros Hm. induction 1 as [id|id r p anc Hr Hp _ IH]; [constructor|].
  destruct (Hm id r Hr) as (r'&Hr'&Hid). econstructor; [exact Hr'|by rewrite Hid|done].
Qed.

Section invariant.
Context {X S : Type} `{!AgentStore X} `{!IsoCodec} (sha256 : string -> string) (cat : catalog) (lv : @run_services X S).
Implicit Types (g : agents) (r : AgentRun) (tk : token).

Definition needs_no_approval (tool : string) : Prop := get_policy_for_risk (tool_risk cat tool) = "auto_allowed".
(** A token of a run: minted for it, and for a reason *)
Definition granted (reqs : list request) g r tk : Prop :=
  (exists fresh t x mode agent, mint_token sha256 (cat_at cat lv x) fresh t (uuid_to_string (ar_id r)) (uuid_to_string (ar_user_id r))
     (named_tools (ar_plan r)) mode agent = Some tk) /\
  ((forall t, Some t ∈ named_tools (ar_plan r) -> needs_no_approval t) \/
   exists anc, descends g (ar_id r) anc /\ Approve anc (ar_user_id r) ∈ reqs).
(** A call allowed by the token of its run *)
Definition covered g (tc : tool_call) : Prop := exists id r tk, ag_runs g !! id = Some r /\ ar_capability_token r = Some tk /\
  permitted sha256 cat tk (uuid_to_string id) (uuid_to_string (ar_user_id r)) tc.

Record authorised (reqs : list request) g : Prop := {
  au_keyed id r : ag_runs g !! id = Some r -> ar_id r = id;
  au_pending id r : ag_runs g !! id = Some r -> ar_status r = "pending_approval" -> ar_capability_token r = None;
  au_granted id r tk : ag_runs g !! id = Some r -> ar_capability_token r = Some tk -> granted reqs g r tk;
  au_covered tc : tc ∈ ag_calls g -> covered g tc
}.

(** Rows that change in place *)
Lemma granted_mono reqs reqs' g g' r r' tk : auth_of r' = auth_of r -> (forall q, q ∈ reqs -> q ∈ reqs') ->
  (forall i r, ag_runs g !! i = Some r -> exists r', ag_runs g' !! i = Some r' /\ ar_identity r' = ar_identity r) ->
  granted reqs g r tk -> granted reqs' g' r' tk.
Proof.
  intros Ha Hq Hm [H1 H2]. unfold granted. injection Ha as Hi Hp Ht. unfold ar_id, ar_user_id in *. rewrite Hi, Hp. split; [done|].
  destruct H2 as [?|(anc&Hd&Hr)]; [by left|right]. exists anc. split; [by eapply descends_mono|auto].
Qed.
Lemma authorised_requests reqs q g : authorised reqs g -> authorised (reqs ++ [q]) g.
Proof.
  intros [H1 H2 H3 H4]. split; [done..| |done]. intros id r tk Hr Ht. eapply granted_mono; [done| |intros i r'; by eauto|by eapply H3].
  intros q' Hq. set_solver.
Qed.

Lemma authorised_evolves reqs g g' l : (forall id, option_Forall2 evolves (ag_runs g !! id) (ag_runs g' !! id)) ->
  ag_calls g' = ag_calls g ++ l -> Forall (covered g) l -> authorised reqs g -> authorised reqs g'.
Proof.
  intros Hrel Hl Hc [H1 H2 H3 H4].
  assert (forall i r', ag_runs g' !! i = Some r' -> exists r, ag_runs g !! i = Some r /\ evolves r r') as Hb.
  { intros i r' Hr. specialize (Hrel i). rewrite Hr in Hrel. inversion Hrel as [r r'' He|]; subst. by exists r. }
  assert (forall i r, ag_runs g !! i = Some r -> exists r', ag_runs g' !! i = Some r' /\ evolves r r') as Hf.
  { intros i r Hr. specialize (Hrel i). rewrite Hr in Hrel. inversion Hrel as [r' r'' He|]; subst. by exists r''. }
  assert (forall tc, covered g tc -> covered g' tc) as Hcov.
  { intros tc (id&r&tk&Hr&Ht&Hp). destruct (Hf id r Hr) as (r'&Hr'&Ha&_). injection Ha as Hi _ Htk. exists id, r', tk.
    unfold ar_user_id in *. by rewrite Htk, Hi. }
  split.
  - intros id r' Hr. destruct (Hb id r' Hr) as (r&Hr0&Ha&_). injection Ha as Hi _ _. unfold ar_id. rewrite Hi. by apply H1.
  - intros id r' Hr Hs. destruct (Hb id r' Hr) as (r&Hr0&Ha&Hst). injection Ha as _ _ ->. apply (H2 id); auto.
  - intros id r' tk Hr Ht. destruct (Hb id r' Hr) as (r&Hr0&Ha&_). eapply granted_mono; [exact Ha|done| |eapply H3; [done|]].
    + intros i r0 Hi. destruct (Hf i r0 Hi) as (r1&?&Hx&_). exists r1. split; [done|]. by injection Hx.
    + injection Ha as _ _ Hx. congruence.
  - intros tc Hin. rewrite Hl in Hin. apply Hcov. apply elem_of_app in Hin as [?|Hin]; [auto|]. by apply (proj1 (Forall_forall _ _) Hc).
Qed.

(** The calls of the flow of a run that holds its token *)
Lemma authorised_grows reqs g g' id r tk : ag_runs g !! id = Some r -> ar_capability_token r = Some tk ->
  grows (permitted sha256 cat tk (uuid_to_string id) (uuid_to_string (ar_user_id r))) g g' -> authorised reqs g -> authorised reqs g'.
Proof.
  intros Hr Ht [Hrel (l&Hl&Hp)]. apply (authorised_evolves reqs g g' l Hrel Hl). eapply Forall_impl; [exact Hp|].
  intros tc Htc. by exists id, r, tk.
Qed.

(** A new row has no token yet. *)
Lemma authorised_add reqs g r : ag_runs g !! ar_id r = None -> ar_capability_token r = None ->
  authorised reqs g -> authorised reqs (store_runs (insert (ar_id r) r) g).
Proof.
  intros Hfresh Ht [H1 H2 H3 H4].
  assert (forall i r0, ag_runs g !! i = Some r0 -> <[ar_id r := r]> (ag_runs g) !! i = Some r0) as Hf.
  { intros i r0 Hi. rewrite lookup_insert_ne; [done|]. intros <-. congruence. }
  split; cbn.
  - intros id r0 [[<- <-]|[_ Hr]]%lookup_insert_Some; [done|auto].
  - intros id r0 [[<- <-]|[_ Hr]]%lookup_insert_Some Hs; [done|eauto].
  - intros id r0 tk [[<- <-]|[_ Hr]]%lookup_insert_Some Htk; [congruence|].
    eapply granted_mono; [done|done| |by eapply H3]. intros i r1 Hi. exists r1. split; [by apply Hf|done].
  - intros tc Hin. destruct (H4 tc Hin) as (id&r0&tk&Hr&Htk&Hp). exists id, r0, tk. split; [by apply Hf|done].
Qed.

(** A run without a token is given one. *)
Lemma authorised_grant reqs g id r f tk : ag_runs g !! id = Some r -> ar_capability_token r = None ->
  ar_identity (f r) = ar_identity r -> named_tools (ar_plan (f r)) = named_tools (ar_plan r) -> ar_capability_token (f r) = Some tk ->
  ar_status (f r) <> "pending_approval" -> granted reqs g r tk ->
  authorised reqs g -> authorised reqs (store_runs (alter f id) g).
Proof.
  intros Hr Hnone Hi Hn Ht Hs Hg [H1 H2 H3 H4].
  assert (forall i r0, ag_runs g !! i = Some r0 -> exists r1, alter f id (ag_runs g) !! i = Some r1 /\ ar_identity r1 = ar_identity r0) as Hm.
  { intros i r0 Hi0. destruct (decide (i = id)) as [->|Hne]; [|rewrite lookup_alter_ne by done; by exists r0].
    rewrite lookup_alter_eq, Hr. exists (f r). split; [done|]. congruence. }
  assert (forall i r1, alter f id (ag_runs g) !! i = Some r1 -> (i = id /\ r1 = f r) \/ (i <> id /\ ag_runs g !! i = Some r1)) as Hb.
  { intros i r1. destruct (decide (i = id)) as [->|Hne]; [rewrite lookup_alter_eq, Hr; intros [= <-]; by left|].
    rewrite lookup_alter_ne by done. by right. }
  split; cbn.
  - intros i r1 [[-> ->]|[_ Hx]]%Hb; [|by apply H1]. unfold ar_id. rewrite Hi. by apply H1.
  - intros i r1 [[-> ->]|[_ Hx]]%Hb Hst; [done|eauto].
  - intros i r1 tk1 [[-> ->]|[_ Hx]]%Hb Htk.
    + assert (tk1 = tk) as -> by congruence. destruct Hg as [G1 G2]. unfold granted, ar_id, ar_user_id in *. rewrite Hi, Hn. split; [done|].
      destruct G2 as [?|(anc&Hd&Hq)]; [by left|right]. exists anc. split; [|done]. by eapply descends_mono.
    + eapply granted_mono; [done|done|exact Hm|by eapply H3].
  - intros tc Hin. destruct (H4 tc Hin) as (i&r0&tk0&Hr0&Htk0&Hp). exists i, r0, tk0. split; [|done].
    cbn. rewrite lookup_alter_ne; [done|]. intros ->. congruence.
Qed.
End invariant.

Lemma mint_auto_policy `{!IsoCodec} sha256 cat fresh t run user p agent tk tool :
  mint_token sha256 cat fresh t run user p "auto" agent = Some tk -> Some tool ∈ p -> get_policy_for_risk (tool_risk cat tool) = "auto_allowed".
Proof.
  unfold mint_token, get_grantable_tools. destruct (plan_tools cat p) as [tools|] eqn:Hp; [|by destruct p as [|[]]].
  change ("auto" =s "manual") with false. destruct (forallb _ (sort_set tools)) eqn:Hf; [|destruct p; [intros _ ?%elem_of_nil|]; done].
  intros _ Hin. rewrite forallb_forall in Hf. apply (plan_tools_Some cat p tools Hp) in Hin.
  assert (In tool (sort_set tools)) as Hs by (by apply list_elem_of_In, sort_set_elem).
  specialize (Hf tool Hs). apply andb_true_iff in Hf as [_ Hf]. by apply String.eqb_eq in Hf.
Qed.

(** ** The requests keep the invariant *)
Section requests.
Context {X S : Type} `{!AgentStore X} `{!IsoCodec} (sha256 : string -> string) (cat : catalog).
Context (E : env X) (db : eu_session S) (fsv : @flow_services X S) (sv : @agent_services X) (lv : @run_services X S).
Local Abbreviation cfg := (@cfg X S).
Local Abbreviation M := (@FlowEngine.M X S).
Implicit Types (c : cfg).

(** The services of the life cycle leave the tables alone, and identifiers are new. *)
Record run_still : Prop := {
  rs_answer o u : within same_tables (lv_answer lv o u);
  rs_uuid : within same_tables (lv_uuid lv);
  rs_error a b : within same_tables (lv_error lv a b);
  rs_register r : within same_tables (lv_register lv r);
  rs_decide r l : within same_tables (lv_decide lv r l);
  rs_assign r r' l : within same_tables (lv_assign lv r r' l);
  rs_memory r : within same_tables (lv_memory lv r);
  rs_hooks r : within same_tables (lv_hooks lv r);
  rs_fresh x : runs x !! (lv_uuid lv x).2 = None
}.
(** Everything that is not agent code leaves the agent tables alone. *)
Record apart : Prop := {
  ap_env : env_within same_tables E;
  ap_flow : services_within same_tables fsv;
  ap_nodes : registered sha256 cat sv fsv;
  ap_agent : agent_still sv;
  ap_run : run_still
}.
Hypothesis Hap : apart.

Definition tables c : agents := ag_get (c_ext c).
Definition same c c' : Prop := tables c' = tables c.
#[export] Instance same_preorder : PreOrder same.
Proof. split; [done|]. intros a b d H1 H2. unfold same in *. congruence. Qed.

Lemma call_same {A} (f : X -> X * result A) : within same_tables f -> keeps same (call (S := S) f).
Proof. intros Hf c. unfold same, tables, call. specialize (Hf (c_ext c)). by destruct (f (c_ext c)). Qed.
Lemma event_same ty id p : keeps same (event (S := S) sv ty id p).
Proof. apply call_same, (st_event _ (ap_agent Hap)). Qed.
Lemma error_same a b : keeps same (call (S := S) (lv_error lv a b)).
Proof. apply call_same, (rs_error (ap_run Hap)). Qed.
Lemma modifies_same (f : cfg -> cfg) : (forall c, c_rm (f c) = c_rm c) -> keeps same (modifies f).
Proof. intros Hf c. unfold same, tables, c_ext. cbn. by rewrite Hf. Qed.
Lemma fresh_uuid_same : keeps same (fresh_uuid (S := S) lv).
Proof. apply call_same. intros x. pose proof (rs_uuid (ap_run Hap) x) as H1. by destruct (lv_uuid lv x). Qed.
Lemma now_same : keeps same (now (S := S) sv).
Proof. intros c. done. Qed.
Lemma get_run_same id : keeps same (get_run (S := S) id).
Proof. intros c. done. Qed.
Lemma update_unit_same id st : keeps same (update_unit db sv lv id st).
Proof. apply modifies_same. intros c. by destruct (lv_by_source _ _ _). Qed.
Lemma generate_plan_same o u : keeps same (generate_plan (S := S) lv o u).
Proof.
  unfold generate_plan. apply keeps_catch; [apply _| |keeps_auto]. apply keeps_bind; [apply _|apply call_same, (rs_answer (ap_run Hap))|keeps_auto].
Qed.

Context (reqs : list request).
Local Abbreviation authorised := (authorised sha256 cat lv reqs).
Definition safe c c' : Prop := authorised (tables c) -> authorised (tables c').
#[export] Instance safe_preorder : PreOrder safe.
Proof. split; [intros c; exact id|]. intros a b d H1 H2 H3. exact (H2 (H1 H3)). Qed.
Lemma same_safe {A} (m : M A) : keeps same m -> keeps safe m.
Proof. intros Hm c Hc. by rewrite (Hm c). Qed.

(** An assignment that keeps the authority of a row *)
Lemma edit_evolves id f c : (forall r, evolves r (f r)) -> safe c (edit_run (S := S) id f c).1.
Proof.
  intros Hf Hc. unfold tables. cbn. unfold on_store. rewrite ag_get_set. eapply (authorised_evolves sha256 cat lv reqs (tables c) _ []); [|by rewrite app_nil_r|done|done].
  exact (proj1 (grows_alter (fun _ => True) f id (tables c) Hf)).
Qed.
Lemma edit_safe id f : (forall r, evolves r (f r)) -> keeps safe (edit_run (S := S) id f).
Proof. intros Hf c. by apply edit_evolves. Qed.
Lemma if_executing_evolves f r : (forall r, evolves r (f r)) -> evolves r (if_executing f r).
Proof. intros Hf. unfold if_executing. by destruct (_ =s _). Qed.

(** ** New rows *)
Lemma mint_spec r user mode agent c : wp (mint sha256 cat sv lv r user mode agent) (fun c' res => same c c' /\
    match res with
    | Ok (Some tk) => exists fresh t x, mint_token sha256 (cat_at cat lv x) fresh t (uuid_to_string (ar_id r)) (uuid_to_string user)
                        (named_tools (ar_plan r)) mode agent = Some tk
    | _ => True
    end) c.
Proof.
  unfold mint. apply flow_wp_bind. eapply wp_keeps; [apply fresh_uuid_same|]. intros c1 [u|e] H1; [|by split].
  apply flow_wp_bind. split; [done|]. unfold now, gets. cbn [fst snd].
  match goal with |- context [mint_token ?a ?b ?d ?e ?f ?g ?h ?i ?j] => destruct (mint_token a b d e f g h i j) as [tk|] eqn:Hm end; [|done].
  by eexists _, _, _.
Qed.

(** Two identifiers are drawn, the second one for the row. *)
Lemma fresh_uuid_new c : wp (fresh_uuid (S := S) lv) (fun c' res => same c c' /\ match res with Ok id => ag_runs (tables c') !! id = None | Raise _ => True end) c.
Proof.
  unfold wp, fresh_uuid, call. pose proof (rs_uuid (ap_run Hap) (c_ext c)) as H1. pose proof (rs_fresh (ap_run Hap) (c_ext c)) as H2.
  destruct (lv_uuid lv (c_ext c)) as [x u]. cbn in *. unfold same, tables, same_tables in *. cbn. split; [done|]. by rewrite H1.
Qed.

(** A row that was just added *)
Lemma add_run_safe r c : ag_runs (tables c) !! ar_id r = None -> ar_capability_token r = None -> authorised (tables c) ->
  authorised (tables (add_run (S := S) r c).1) /\ ag_runs (tables (add_run (S := S) r c).1) !! ar_id r = Some r.
Proof.
  intros Hf Ht Hc. unfold tables in *. cbn. unfold on_store. rewrite ag_get_set. split; [by apply authorised_add|]. apply lookup_insert_eq.
Qed.
Lemma grant_safe id r tk c : ag_runs (tables c) !! id = Some r -> ar_capability_token r = None -> ar_status r <> "pending_approval" ->
  granted sha256 cat lv reqs (tables c) r tk -> authorised (tables c) -> authorised (tables (edit_run (S := S) id (run_granted tk) c).1).
Proof.
  intros Hr Ht Hs Hg Hc. unfold tables in *. cbn. unfold on_store. rewrite ag_get_set. by eapply (authorised_grant sha256 cat lv reqs _ id r).
Qed.
(** A run is put back to its approval before it has a token. *)
Lemma held_safe id r msg c : ag_runs (tables c) !! id = Some r -> ar_capability_token r = None ->
  authorised (tables c) -> authorised (tables (edit_run (S := S) id (run_held msg) c).1).
Proof.
  intros Hr Ht [H1 H2 H3 H4]. unfold tables in *. cbn. unfold on_store. rewrite ag_get_set.
  assert (forall i r1, alter (run_held msg) id (ag_runs (ag_get (c_ext c))) !! i = Some r1 ->
    exists r0, ag_runs (ag_get (c_ext c)) !! i = Some r0 /\ auth_of r1 = auth_of r0 /\ (ar_status r1 = ar_status r0 \/ ar_capability_token r1 = None)) as Hb.
  { intros i r1. destruct (decide (i = id)) as [->|Hne]; [rewrite lookup_alter_eq, Hr; intros [= <-]; exists r; by split_and!; [..|right]|].
    rewrite lookup_alter_ne by done. intros Hi. exists r1. by split_and!; [..|left]. }
  assert (forall i r0, ag_runs (ag_get (c_ext c)) !! i = Some r0 ->
    exists r1, alter (run_held msg) id (ag_runs (ag_get (c_ext c))) !! i = Some r1 /\ auth_of r1 = auth_of r0) as Hf.
  { intros i r0 Hi. destruct (decide (i = id)) as [->|Hne]; [rewrite lookup_alter_eq, Hi; by eexists|].
    rewrite lookup_alter_ne by done. by exists r0. }
  split; cbn.
  - intros i r1 (r0&Hr0&Ha&_)%Hb. injection Ha as Hi _ _. unfold ar_id. rewrite Hi. by apply H1.
  - intros i r1 (r0&Hr0&Ha&[Hs|?])%Hb Hst; [|done]. injection Ha as _ _ ->. eapply H2; [done|congruence].
  - intros i r1 tk (r0&Hr0&Ha&_)%Hb Htk. eapply granted_mono; [exact Ha|done| |eapply H3; [done|by injection Ha as _ _ <-]].
    intros j r2 Hj. destruct (Hf j r2 Hj) as (r3&?&Hx). exists r3. split; [done|]. by injection Hx.
  - intros tc Hin. destruct (H4 tc Hin) as (i&r0&tk&Hr0&Htk&Hp). destruct (Hf i r0 Hr0) as (r1&Hr1&Ha). injection Ha as Hi _ Ht1.
    exists i, r1, tk. unfold ar_user_id in *. by rewrite Ht1, Hi.
Qed.

Lemma open_run_safe objective user plan origin created : (forall r, keeps same (created r)) ->
  keeps safe (open_run sha256 cat sv lv objective user plan origin created).
Proof.
  intros Hcr c Hc. change (wp (open_run sha256 cat sv lv objective user plan origin created) (fun c' _ => authorised (tables c')) c).
  unfold open_run. apply flow_wp_bind. unfold wp at 1. cbn [gets fst snd]. apply flow_wp_bind. eapply wp_keeps; [apply fresh_uuid_same|].
  intros c1 [corr|e] H1; unfold same in H1; [|by rewrite H1]. apply flow_wp_bind. eapply flow_wp_mono; [apply fresh_uuid_new|].
  intros c2 [id|e] [H2 Hnew]; unfold same in H2; rewrite H1 in H2; [|by rewrite H2]. rewrite <- H2 in Hc.
  set (r := new_run _ _ _). assert (ar_id r = id /\ ar_capability_token r = None) as [Hid Htok] by done.
  assert (ar_agent_type r = "default" /\ ar_plan r = plan /\ ar_user_id r = user) as (Hty&Hpl&Hus) by done.
  assert (ar_status r = if negb (requires_approval (plan_risk plan) (lv_trust lv (c_ext c) (uuid_to_string user))) then "approved" else "pending_approval") as Hst by done.
  set (approved := negb _) in *. clearbody r approved. subst id.
  apply flow_wp_bind. unfold wp at 1. destruct (add_run_safe r c2 Hnew Htok Hc) as [Hc3 Hr3]. cbn [snd fst]. set (c3 := (add_run r c2).1) in *.
  change ((add_run r c2).2) with (Ok (A := unit) ()). cbv beta iota. clearbody c3.
  apply flow_wp_bind. eapply wp_keeps; [apply Hcr|]. intros c4 [u|e] H4; unfold same in H4; [|by rewrite H4]. rewrite <- H4 in Hc3, Hr3.
  apply flow_wp_bind. destruct approved; [|by apply flow_wp_ret]. apply flow_wp_bind. eapply flow_wp_mono; [apply mint_spec|].
  intros c5 res [H5 Hm]. unfold same in H5. rewrite <- H5 in Hc3, Hr3. destruct res as [[tk|]|e]; [| |done].
  - apply (grant_safe (ar_id r) r tk c5); [done|done|by rewrite Hst| |done]. destruct Hm as (fresh&t&x&Hm). split.
    { exists fresh, t, x, "auto", (ar_agent_type r). by rewrite Hus. }
    left. intros tool Ht. exact (mint_auto_policy _ _ _ _ _ _ _ _ _ tool Hm Ht).
  - by apply (held_safe (ar_id r) r).
Qed.
Lemma create_unit_same r : keeps same (create_unit db sv lv r).
Proof.
  unfold create_unit. apply keeps_bind; [apply _|apply fresh_uuid_same|intros u]. apply keeps_bind; [apply _|apply now_same|intros t].
  by apply modifies_same.
Qed.

Lemma error_safe a b : keeps safe (call (S := S) (lv_error lv a b)).
Proof. apply same_safe, error_same. Qed.
Lemma event_safe ty id p : keeps safe (event (S := S) sv ty id p).
Proof. apply same_safe, event_same. Qed.
Lemma get_run_safe id : keeps safe (get_run (S := S) id).
Proof. apply same_safe, get_run_same. Qed.
Lemma now_safe : keeps safe (now (S := S) sv).
Proof. apply same_safe, now_same. Qed.
Lemma plan_safe o u : keeps safe (generate_plan (S := S) lv o u).
Proof. apply same_safe, generate_plan_same. Qed.
Lemma open_created_safe o u pl orig : keeps safe (open_run sha256 cat sv lv o u pl orig (create_unit db sv lv)).
Proof. apply open_run_safe, create_unit_same. Qed.
Lemma open_plain_safe o u pl orig : keeps safe (open_run sha256 cat sv lv o u pl orig (fun _ => mret ())).
Proof. apply open_run_safe. intros r. keeps_auto. Qed.
Lemma reject_edit_safe id t : keeps safe (edit_run (S := S) id (run_rejected t)).
Proof. by apply edit_safe. Qed.
#[local] Hint Resolve error_safe event_safe get_run_safe now_safe plan_safe open_created_safe open_plain_safe reject_edit_safe : keeps.

Lemma create_run_safe o u : keeps safe (create_run sha256 cat db sv lv o u).
Proof. unfold create_run. keeps_auto. Qed.
Lemma create_run_from_plan_safe o pl u orig : keeps safe (create_run_from_plan (S := S) sha256 cat sv lv o pl u orig).
Proof. unfold create_run_from_plan. keeps_auto. Qed.
#[local] Hint Resolve create_run_from_plan_safe : keeps.
Lemma replay_run_safe id u mode : keeps safe (replay_run (S := S) sha256 cat sv lv id u mode).
Proof. unfold replay_run. keeps_auto. Qed.
Lemma reject_run_safe id u : keeps safe (reject_run (S := S) sv lv id u).
Proof. unfold reject_run. keeps_auto. Qed.

(** ** Delegation *)
Lemma delegated_safe id res : keeps safe (edit_run (S := S) id (run_delegated res)).
Proof. by apply edit_safe. Qed.
Lemma assign_safe r r' l : keeps safe (call (S := S) (lv_assign lv r r' l)).
Proof. apply same_safe, call_same, (rs_assign (ap_run Hap)). Qed.
#[local] Hint Resolve delegated_safe assign_safe : keeps.

(** A child has the authority of its parent. *)
Lemma child_granted g parent child tkp tk fresh t x agent : ag_runs g !! ar_id parent = Some parent -> ag_runs g !! ar_id child = Some child ->
  ri_parent_run_id (ar_identity child) = Some (ar_id parent) -> ar_user_id child = ar_user_id parent -> ar_plan child = ar_plan parent ->
  ar_capability_token parent = Some tkp ->
  mint_token sha256 (cat_at cat lv x) fresh t (uuid_to_string (ar_id child)) (uuid_to_string (ar_user_id child)) (named_tools (ar_plan child))
    "manual" agent = Some tk -> authorised g -> granted sha256 cat lv reqs g child tk.
Proof.
  intros Hp Hc Hpar Hu Hpl Htk Hm Hg. split; [by exists fresh, t, x, "manual", agent|].
  destruct (au_granted _ _ _ _ _ Hg _ _ _ Hp Htk) as [_ [Hauto|(anc&Hd&Hq)]]; [left; by rewrite Hpl|right].
  exists anc. split; [|by rewrite Hu]. eapply descends_parent; [exact Hc|exact Hpar|exact Hd].
Qed.

Lemma dispatch_safe parent co tkp c : ag_runs (tables c) !! ar_id parent = Some parent -> ar_capability_token parent = Some tkp ->
  authorised (tables c) -> wp (dispatch_delegated_run sha256 cat sv lv parent co) (fun c' _ => authorised (tables c')) c.
Proof.
  intros Hp Htk Hc. unfold dispatch_delegated_run. destruct (truthy _); cbn [negb]; [|by apply flow_wp_ret].
  apply flow_wp_bind. eapply flow_wp_mono; [apply fresh_uuid_new|]. intros c1 [id|e] [H1 Hnew]; unfold same in H1; [|by rewrite H1].
  rewrite <- H1 in Hc, Hp. apply flow_wp_bind. eapply wp_keeps; [apply fresh_uuid_same|].
  intros c2 [corr|e] H2; unfold same in H2; [|by rewrite H2]. rewrite <- H2 in Hc, Hp, Hnew.
  set (child := new_run _ _ _).
  assert (ar_id child = id /\ ar_capability_token child = None /\ ar_status child = "approved" /\ ar_user_id child = ar_user_id parent /\
    ar_plan child = ar_plan parent /\ ri_parent_run_id (ar_identity child) = Some (ar_id parent)) as (Hid&Htok&Hst&Hu&Hpl&Hpar) by done.
  clearbody child. subst id. apply flow_wp_bind. unfold wp at 1. destruct (add_run_safe child c2 Hnew Htok Hc) as [Hc3 Hr3].
  assert (ag_runs (tables (add_run (S := S) child c2).1) !! ar_id parent = Some parent) as Hp3.
  { unfold tables in *. cbn. unfold on_store. rewrite ag_get_set. cbn. rewrite lookup_insert_ne; [done|]. congruence. }
  set (c3 := (add_run child c2).1) in *. change ((add_run child c2).2) with (Ok (A := unit) ()). cbv beta iota. clearbody c3. clear Hc Hp Hnew.
  apply flow_wp_bind. eapply flow_wp_mono; [apply mint_spec|]. intros c4 res [H4 Hm]. unfold same in H4. rewrite <- H4 in Hc3, Hr3, Hp3.
  destruct res as [tok|e]; [|done]. apply flow_wp_bind.
  assert (wp (match tok with Some tk => edit_run (S := S) (ar_id child) (run_granted tk) | None => mret () end)
    (fun c' _ => authorised (tables c')) c4) as Hgr.
  { destruct tok as [tk|]; [|by apply flow_wp_ret]. destruct Hm as (fresh&t&x&Hm). apply (grant_safe (ar_id child) child tk c4); try done.
    - by rewrite Hst.
    - eapply (child_granted _ parent child tkp); try done. by rewrite Hu. }
  eapply flow_wp_mono; [exact Hgr|]. intros c5 [u|e] Hc5; [|done]. clear Hgr.
  match goal with |- wp ?m ?Q c5 => eapply (wp_keeps safe m); [keeps_auto|] end. intros c6 res H6. by apply H6.
Qed.

Lemma delegate_run_safe r co tk c : ag_runs (tables c) !! ar_id r = Some r -> ar_capability_token r = Some tk ->
  authorised (tables c) -> wp (delegate_run sha256 cat sv lv r co) (fun c' _ => authorised (tables c')) c.
Proof.
  intros Hr Htk Hc. unfold delegate_run. apply flow_wp_bind. eapply flow_wp_mono; [by eapply dispatch_safe|].
  intros c1 [child|e] Hc1; [|done]. match goal with |- wp ?m ?Q c1 => eapply (wp_keeps safe m); [keeps_auto|] end. intros c2 res H2. by apply H2.
Qed.

(** ** Execution *)
Lemma system_same a b p : keeps same (call (S := S) (sv_system sv a b p)).
Proof. apply call_same, (st_system _ (ap_agent Hap)). Qed.
Lemma failed_evolves t res msg r : evolves r (run_failed t res msg r).
Proof. done. Qed.

Lemma refuse_flow_safe id e : keeps safe (refuse_flow (S := S) sv id e).
Proof.
  intros c Hc. unfold refuse_flow. set (f := fun r => if_executing _ r).
  match goal with |- authorised (tables (?m c).1) => change (wp m (fun c' _ => authorised (tables c')) c) end.
  apply flow_wp_bind. unfold wp at 1. assert (forall r, evolves r (f r)) as Hf by (intros r; apply if_executing_evolves; done).
  pose proof (edit_evolves id f c Hf Hc) as H1. set (c1 := (edit_run id f c).1) in *. change ((edit_run id f c).2) with (Ok (A := unit) ()).
  cbv beta iota. assert (ag_steps (tables c1) = ag_steps (tables c) /\ ag_calls (tables c1) = ag_calls (tables c)) as [Es Ec].
  { unfold c1, tables. cbn. unfold on_store. by rewrite ag_get_set. }
  clearbody c1. apply flow_wp_bind. unfold wp at 1.
  match goal with |- context [call ?g c1] => pose proof (system_same "capability.denied" (uuid_to_string id) [("capability", JStr "execute_flow"); ("error", JStr e)] c1) as H2;
    destruct (call g c1) as [c2 [o|ex]] end; unfold same in H2; cbn [fst] in H2; cbn [fst snd].
  - rewrite <- H2 in H1. apply flow_wp_bind. eapply wp_keeps; [apply event_same|].
    intros c3 [u|e'] H3; unfold same in H3; [apply flow_wp_ret|]; by rewrite H3.
  - unfold tables in *. cbn. unfold on_store. rewrite ag_get_set. cbn. rewrite H2. unfold store_runs, runs. rewrite Es, Ec.
    by destruct (ag_get (c_ext c)).
Qed.

Lemma flow_state_carries id user plan corr tk : carries tk (uuid_to_string id) (uuid_to_string user) (flow_state id user plan corr tk).
Proof. split_and!; [done| |done..]. exact (token_json_roundtrip tk). Qed.

Lemma run_flow_safe fuel id user plan corr r tk c : ag_runs (tables c) !! id = Some r -> ar_capability_token r = Some tk -> ar_user_id r = user ->
  authorised (tables c) -> wp (run_flow E db fsv sv lv fuel id user plan corr tk) (fun c' _ => authorised (tables c')) c.
Proof.
  intros Hr Ht Hu Hc. unfold run_flow. apply flow_wp_bind. eapply wp_keeps; [apply system_same|].
  intros c1 [o|e] H1; unfold same in H1; [|by rewrite H1]. rewrite <- H1 in Hr, Hc.
  do 3 (apply flow_wp_bind; eapply wp_keeps; [apply fresh_uuid_same|];
    let c' := fresh "c" in let u := fresh "u" in let H' := fresh "H" in
    intros c' [u|e] H'; unfold same in H'; [|by rewrite H']; rewrite <- H' in Hr, Hc).
  apply flow_wp_bind. match goal with |- wp (start _ _ _ _ _ _ _ ?ru ?st ?n) _ ?cc =>
    pose proof (agent_flow_moves sha256 cat sv (ap_agent Hap) tk (uuid_to_string id) (uuid_to_string user) E db fsv (ap_env Hap) (ap_flow Hap)
      (ap_nodes Hap) fuel (uuid_to_string u) (uuid_to_string u0) u1 ru st n cc eq_refl (flow_state_carries id user plan corr tk)) as Hmv end.
  unfold wp at 1. destruct (start _ _ _ _ _ _ _ _ _ _ _) as [c5 res]. cbn [fst snd] in *.
  assert (authorised (tables c5)) as Hc5. { subst user. by eapply (authorised_grows sha256 cat lv reqs _ _ id r tk). }
  destruct res as [[resp|]|e]; [|done|done].
  match goal with |- wp ?m ?Q c5 => eapply (wp_keeps safe m) end; [|intros c6 res H6; by apply H6].
  apply keeps_bind; [apply _| |intros _]. { destruct (truthy _); [by apply edit_safe|keeps_auto]. }
  apply keeps_bind; [apply _| |intros _; keeps_auto]. destruct (_ =s _); [keeps_auto|].
  apply keeps_bind; [apply _|apply now_safe|intros t]. apply keeps_bind; [apply _|keeps_auto|intros res].
  apply edit_safe. intros r0. by apply if_executing_evolves.
Qed.

Lemma orchestration_safe fuel id user plan corr r tk c : ag_runs (tables c) !! id = Some r -> ar_capability_token r = Some tk -> ar_user_id r = user ->
  authorised (tables c) ->
  wp (execute_agent_flow_orchestration sha256 cat E db fsv sv lv fuel id user plan corr tk) (fun c' _ => authorised (tables c')) c.
Proof.
  intros Hr Ht Hu Hc. unfold execute_agent_flow_orchestration. apply wp_catch, flow_wp_bind. unfold wp at 1. cbn [now gets fst snd].
  destruct (check_execution_capability _ _ _ _ _ _ _) as [e|].
  - apply flow_wp_bind. eapply wp_keeps; [apply refuse_flow_safe|]. intros c1 [u|e'] H1; by apply H1.
  - eapply flow_wp_mono; [by eapply run_flow_safe|]. intros c1 [o|e] H1; done.
Qed.

(** An assignment to a known row *)
Lemma edit_row_safe id f r c : ag_runs (tables c) !! id = Some r -> evolves r (f r) -> authorised (tables c) ->
  authorised (tables (edit_run (S := S) id f c).1) /\ ag_runs (tables (edit_run (S := S) id f c).1) !! id = Some (f r).
Proof.
  intros Hr Hf Hc. unfold tables in *. cbn. unfold on_store. rewrite ag_get_set. cbn. rewrite lookup_alter_eq, Hr. split; [|done].
  eapply (authorised_evolves sha256 cat lv reqs (ag_get (c_ext c)) _ []); [|by rewrite app_nil_r|done|done].
  intros i. cbn. destruct (decide (i = id)) as [->|Hne]; [rewrite lookup_alter_eq, Hr; by constructor|].
  rewrite lookup_alter_ne by done. destruct (ag_runs _ !! i); by constructor.
Qed.
Lemma executing_evolves r t m : evolves r (run_executing t (dset (ar_plan r) "memory_context" m) r).
Proof. split; [|done]. unfold auth_of, named_tools, plan_steps, jget. cbn. by rewrite dget_dset_ne. Qed.
Lemma hooks_safe r : keeps safe (call (S := S) (lv_hooks lv r)).
Proof. apply same_safe, call_same, (rs_hooks (ap_run Hap)). Qed.
Lemma update_unit_safe id st : keeps safe (update_unit db sv lv id st).
Proof. apply same_safe, update_unit_same. Qed.
#[local] Hint Resolve hooks_safe update_unit_safe : keeps.

Lemma perform_run_safe fuel r user tk c : ag_runs (tables c) !! ar_id r = Some r -> ar_capability_token r = Some tk -> ar_user_id r = user ->
  authorised (tables c) -> wp (perform_run sha256 cat E db fsv sv lv fuel r user tk) (fun c' _ => authorised (tables c')) c.
Proof.
  intros Hr Ht Hu Hc. unfold perform_run. apply flow_wp_bind. unfold wp at 1. cbn [now gets fst snd].
  apply flow_wp_bind. eapply wp_keeps; [apply (call_same (fun x => let (x', m) := lv_memory lv r x in (x', Ok m)))|].
  { intros x. pose proof (rs_memory (ap_run Hap) r x) as Hm. by destruct (lv_memory lv r x). }
  intros c1 [m|e] H1; unfold same in H1; [|by rewrite H1]. rewrite <- H1 in Hr, Hc. apply flow_wp_bind. unfold wp at 1.
  set (f := run_executing _ _). destruct (edit_row_safe (ar_id r) f r c1 Hr (executing_evolves r _ m) Hc) as [Hc2 Hr2].
  assert (ar_capability_token (f r) = Some tk /\ ar_user_id (f r) = user) as [Ht2 Hu2] by (split; [exact Ht|exact Hu]).
  set (c2 := (edit_run (ar_id r) f c1).1) in *. change ((edit_run (ar_id r) f c1).2) with (Ok (A := unit) ()). cbv beta iota.
  clearbody c2 f. clear c1 H1 Hr Hc. apply flow_wp_bind. eapply wp_keeps; [apply update_unit_same|].
  intros c3 [u|e] H3; unfold same in H3; [|by rewrite H3]. rewrite <- H3 in Hr2, Hc2. apply flow_wp_bind. eapply wp_keeps; [apply event_same|].
  intros c4 [o|e] H4; unfold same in H4; [|by rewrite H4]. rewrite <- H4 in Hr2, Hc2. apply flow_wp_bind.
  eapply flow_wp_mono; [by eapply orchestration_safe|]. intros c5 [[u'|]|e] Hc5; [|done|done].
  match goal with |- wp ?m ?Q c5 => eapply (wp_keeps safe m); [keeps_auto|] end. intros c6 res H6. by apply H6.
Qed.

Lemma execute_run_safe fuel id user : keeps safe (execute_run sha256 cat E db fsv sv lv fuel id user).
Proof.
  intros c Hc. change (wp (execute_run sha256 cat E db fsv sv lv fuel id user) (fun c' _ => authorised (tables c')) c).
  assert (forall c0 e, authorised (tables c0) ->
    wp (catch (_ ← call (lv_error lv "agent_execution" e); mret (Some (A := option AgentRun) None)) (fun _ => mret (Some None)))
      (fun c' _ => authorised (tables c')) c0) as Herr.
  { intros c0 e H0. match goal with |- wp ?m ?Q c0 => eapply (wp_keeps safe m); [keeps_auto|] end. intros c6 res H6. by apply H6. }
  unfold execute_run. apply wp_catch, flow_wp_bind. unfold wp at 1. cbn [get_run gets fst snd].
  destruct (runs (c_ext c) !! id) as [r|] eqn:Hr; [|done].
  destruct (negb (ar_status r =s "approved")); [done|]. destruct (bool_decide_reflect (ar_user_id r = user)) as [Hu|Hu]; cbn [negb]; [|done].
  assert (ar_id r = id) as <- by (by eapply (au_keyed _ _ _ _ _ Hc)).
  destruct (ar_capability_token r) as [tk|] eqn:Ht.
  - apply flow_wp_bind. eapply wp_keeps; [apply call_same, (rs_register (ap_run Hap))|].
    intros c1 [u|e] H1; unfold same in H1; [|apply Herr; by rewrite H1]. rewrite <- H1 in Hc. change (ag_runs (tables c) !! ar_id r = Some r) in Hr.
    rewrite <- H1 in Hr. apply flow_wp_bind. eapply wp_keeps; [apply call_same, (rs_decide (ap_run Hap))|].
    intros c2 [co|e] H2; unfold same in H2; [|apply Herr; by rewrite H2]. rewrite <- H2 in Hc, Hr.
    destruct (str_in _ _); [apply flow_wp_fmap; eapply flow_wp_mono; [by eapply delegate_run_safe|]|eapply flow_wp_mono; [by eapply perform_run_safe|]];
      intros c3 [o|e] H3; try done; by apply Herr.
  - match goal with |- wp ?m ?Q c => eapply (wp_keeps safe m) end.
    + apply keeps_bind; [apply _|apply now_safe|intros t]. apply keeps_bind; [apply _|by apply edit_safe|intros _]. keeps_auto.
    + intros c6 [o|e] H6; [by apply H6|by apply Herr, H6].
Qed.

Lemma approve_run_safe fuel id user : Approve id user ∈ reqs -> keeps safe (approve_run sha256 cat E db fsv sv lv fuel id user).
Proof.
  intros Hq c Hc. change (wp (approve_run sha256 cat E db fsv sv lv fuel id user) (fun c' _ => authorised (tables c')) c).
  unfold approve_run. apply wp_catch.
  assert (forall A (m : M A), keeps safe m -> forall c0, authorised (tables c0) -> wp m (fun c' _ => authorised (tables c')) c0) as Hk.
  { intros A m Hm c0 H0. by apply Hm. }
  assert (forall c0 (r : result (option (option AgentRun))), authorised (tables c0) ->
    match r with Ok a => authorised (tables c0) | Raise e =>
      wp (_ ← call (lv_error lv "agent_approve_run" (exn_msg e)); mret (Some (A := option AgentRun) None)) (fun c' _ => authorised (tables c')) c0 end) as Hend.
  { intros c0 [o|e] H0; [done|]. apply Hk; [keeps_auto|done]. }
  apply flow_wp_bind. unfold wp at 1. cbn [get_run gets fst snd]. destruct (runs (c_ext c) !! id) as [r|] eqn:Hr; [|done].
  destruct (bool_decide_reflect (ar_user_id r = user)) as [Hu|Hu]; cbn [negb]; [|done].
  destruct (ar_status r =s "pending_approval") eqn:Hst; cbn [negb]; [|done]. apply String.eqb_eq in Hst.
  assert (ar_capability_token r = None) as Htok by (by eapply (au_pending _ _ _ _ _ Hc)).
  assert (ar_id r = id) as Hid by (by eapply (au_keyed _ _ _ _ _ Hc)).
  apply flow_wp_bind. unfold wp at 1. cbn [now gets fst snd]. apply flow_wp_bind. eapply flow_wp_mono; [apply mint_spec|].
  intros c1 res [H1 Hm]. unfold same in H1. change (ag_runs (tables c) !! id = Some r) in Hr. rewrite <- H1 in Hc, Hr.
  destruct res as [[tk|]|e]; [| |by apply (Hend c1 (Raise e))].
  - apply flow_wp_bind. unfold wp at 1. set (f := run_approved _ tk).
    assert (authorised (tables (edit_run (S := S) id f c1).1)) as Hc2.
    { unfold tables in *. cbn. unfold on_store. rewrite ag_get_set. destruct Hm as (fresh&t&x&Hm).
      eapply (authorised_grant sha256 cat lv reqs _ id r f tk); try done. split; [exists fresh, t, x, "manual", (ar_agent_type r); by rewrite Hu|].
      right. exists id. split; [rewrite Hid; constructor|by rewrite Hu]. }
    set (c2 := (edit_run id f c1).1) in *. change ((edit_run id f c1).2) with (Ok (A := unit) ()). cbv beta iota. clearbody c2.
    match goal with |- wp ?m ?Q c2 => eapply (wp_keeps safe m) end; [|intros c3 o H3; by apply Hend, H3].
    apply keeps_bind; [apply _|apply event_safe|intros _]. apply execute_run_safe.
  - match goal with |- wp ?m ?Q c1 => eapply (wp_keeps safe m) end; [|intros c3 o H3; by apply Hend, H3].
    apply keeps_bind; [apply _|by apply edit_safe|intros _]. keeps_auto.
Qed.
End requests.

(** What a minted token lets pass *)
Lemma check_minted `{!IsoCodec} sha256 cat cat' fresh t0 run user p mode agent tk t tool : 
  mint_token sha256 cat' fresh t0 run user p mode agent = Some tk -> check_tool_capability sha256 cat (Some tk) t run user tool = None ->
  Some tool ∈ p /\ t < expiry t0.
Proof.
  intros Hm. destruct (mint_token_inv sha256 cat' _ _ _ _ _ _ _ _ Hm) as (tools&caps&Ht&_&->). unfold check_tool_capability.
  destruct (validate_token _ _ _ _ _ _) as [e|[[tools' caps'] agent']] eqn:Hv; [done|].
  destruct (str_in tool tools') eqn:Hin; cbn [negb]; [|done]. intros _. split.
  - destruct (validate_token_inv sha256 cat _ _ _ _ _ _ _ Hv) as (e&i&x&m&_&_&_&_&_&->&_). apply str_in_spec in Hin. cbn in Hin. rewrite sort_set_elem in Hin.
    apply list_elem_of_In, filter_In in Hin as [Hin _]. rewrite <- list_elem_of_In, sort_set_elem in Hin. by apply (plan_tools_Some cat' p tools Ht).
  - revert Hv. unfold validate_token. cbn [from_option id tk_run_id tk_user_id tk_execution_token tk_approval_mode tk_issued_at tk_expires_at
      tk_token_hash tk_granted_tools tk_allowed_capabilities tk_agent_type].
    destruct (negb _); [done|]. destruct (negb _); [done|]. destruct (negb _); [done|]. destruct (negb _); [done|].
    rewrite (proj2 (str_or_none_Some (Some (isoformat (utc_datetime t0))) _) (conj eq_refl (isoformat_nonempty _))),
      (proj2 (str_or_none_Some (Some (isoformat (utc_datetime (expiry t0)))) _) (conj eq_refl (isoformat_nonempty _))), fromisoformat_isoformat.
    change (instant (ensure_utc (utc_datetime (expiry t0)))) with (expiry t0 - 0). rewrite Z.sub_0_r.
    destruct (Z.leb_spec (expiry t0) t); [done|]. intros _. lia.
Qed.

(** ** Histories of requests *)
Section history.
Context {X S : Type} `{!AgentStore X} `{!IsoCodec} (sha256 : string -> string) (cat : catalog).
Context (E : env X) (db : eu_session S) (fsv : @flow_services X S) (sv : @agent_services X) (lv : @run_services X S).
Local Abbreviation cfg := (@cfg X S).

Definition serve (fuel : nat) (q : request) (c : cfg) : cfg :=
  match q with
  | Create o u => (create_run sha256 cat db sv lv o u c).1
  | Replay id u mode => (replay_run sha256 cat sv lv id u mode c).1
  | Approve id u => (approve_run sha256 cat E db fsv sv lv fuel id u c).1
  | Reject id u => (reject_run sv lv id u c).1
  | Execute id u => (execute_run sha256 cat E db fsv sv lv fuel id u c).1
  end.

(** Requests, in between which anything happens that leaves the agent tables alone *)
Inductive history : list request -> cfg -> Prop :=
| history_start c : ag_runs (tables c) = ∅ -> ag_calls (tables c) = [] -> history [] c
| history_request reqs c fuel q : history reqs c -> history (reqs ++ [q]) (serve fuel q c)
| history_other reqs c c' : history reqs c -> same c c' -> history reqs c'.

Lemma history_authorised reqs c : apart sha256 cat E fsv sv lv -> history reqs c -> authorised sha256 cat lv reqs (tables c).
Proof.
  intros Hap. induction 1 as [c H1 H2|reqs c fuel q _ IH|reqs c c' _ IH Hs].
  - split; rewrite ?H1, ?H2; intros *; rewrite ?lookup_empty; try done. by intros ?%elem_of_nil.
  - apply (authorised_requests sha256 cat lv _ q) in IH. destruct q; cbn [serve].
    + by apply (create_run_safe sha256 cat E db fsv sv lv Hap).
    + by apply (replay_run_safe sha256 cat E fsv sv lv Hap).
    + apply (approve_run_safe sha256 cat E db fsv sv lv Hap); [set_solver|done].
    + by apply (reject_run_safe sha256 cat E fsv sv lv Hap).
    + by apply (execute_run_safe sha256 cat E db fsv sv lv Hap).
  - by rewrite Hs.
Qed.
End history.

(** C4: agent tools run only with authority.  In every history of requests, with
    services that leave the agent tables alone, each call of a tool belongs to a run
    of the user it runs for and names a tool of the plan of that run; it passed a check
    against the token minted for the run, less than a day after the minting; and the
    owner asked for the approval of the run, or of one it was delegated from, unless
    the registered risk of the tool needs no approval. *)
Theorem agent_tools_authorised {X S} `{!AgentStore X} `{!IsoCodec} sha256 cat E (db : eu_session S) fsv sv (lv : @run_services X S) reqs c tc :
  apart sha256 cat E fsv sv lv -> history sha256 cat E db fsv sv lv reqs c -> tc ∈ ag_calls (tables c) ->
  exists id r tk t t0, ag_runs (tables c) !! id = Some r /\ tc_run tc = uuid_to_string id /\ tc_user tc = uuid_to_string (ar_user_id r) /\
    Some (tc_tool tc) ∈ named_tools (ar_plan r) /\
    ar_capability_token r = Some tk /\ tk_issued_at tk = Some (isoformat (utc_datetime t0)) /\ tc_checked tc = Some t /\ t < expiry t0 /\
    (get_policy_for_risk (tool_risk cat (tc_tool tc)) = "auto_allowed" \/
     exists anc, descends (tables c) id anc /\ Approve anc (ar_user_id r) ∈ reqs).
Proof.
  intros Hap Hh Hin. pose proof (history_authorised sha256 cat E db fsv sv lv reqs c Hap Hh) as [H1 H2 H3 H4].
  destruct (H4 tc Hin) as (id&r&tk&Hr&Ht&Hrun&Huser&t&Hchk&Hc). destruct (H3 id r tk Hr Ht) as [(fresh&t0&x&mode&agent&Hm) Hwhy].
  pose proof (H1 id r Hr) as Hid. rewrite Hid in Hm. destruct (check_minted _ _ _ _ _ _ _ _ _ _ _ _ _ Hm Hc) as [Htool Hexp].
  exists id, r, tk, t, t0. split_and!; try done.
  - by destruct (mint_token_inv _ _ _ _ _ _ _ _ _ _ Hm) as (?&?&_&_&->).
  - destruct Hwhy as [Hauto|(anc&Hd&Hq)]; [left; by apply Hauto|right]. rewrite Hid in Hd. by exists anc.
Qed.

Lemma demo_apart answer trust co : apart (fun s => s) demo_cat demo_env demo_fsv demo_sv (demo_lv answer trust co).
Proof.
  split.
  - split; [intros x; reflexivity| |discriminate|intros t x; reflexivity]. split; intros; intros x; reflexivity.
  - split; intros; try (intros x); try reflexivity; discriminate.
  - intros n g Hg. exact Hg.
  - split; intros; try (intros x); reflexivity.
  - split; [..|exact demo_uuid_fresh]; intros; intros y; reflexivity.
Qed.

Definition demo_serve : request -> @cfg world (gmap UUID ExecutionUnit) -> @cfg world (gmap UUID ExecutionUnit) :=
  serve (fun s => s) demo_cat demo_env quiet_session demo_fsv demo_sv (demo_lv demo_plan None here) 10.
Definition demo_created := demo_serve (Create "ship it" (MkUUID 9)) demo_cfg.
Definition demo_approved := demo_serve (Approve (MkUUID 102) (MkUUID 9)) demo_created.
Lemma demo_history : history (fun s => s) demo_cat demo_env quiet_session demo_fsv demo_sv (demo_lv demo_plan None here)
  ([Create "ship it" (MkUUID 9)] ++ [Approve (MkUUID 102) (MkUUID 9)]) demo_approved.
Proof.
  exact (history_request _ _ _ _ _ _ _ [Create "ship it" (MkUUID 9)] demo_created 10 (Approve (MkUUID 102) (MkUUID 9))
    (history_request _ _ _ _ _ _ _ [] demo_cfg 10 (Create "ship it" (MkUUID 9)) (history_start _ _ _ _ _ _ _ demo_cfg eq_refl eq_refl))).
Qed.

Lemma agent_tools_authorised_witness :
  map tc_tool (ag_calls (tables demo_approved)) = ["search"; "deploy"] /\
  exists id r anc, ag_runs (tables demo_approved) !! id = Some r /\ descends (tables demo_approved) id anc /\
    Approve anc (ar_user_id r) ∈ [Create "ship it" (MkUUID 9); Approve (MkUUID 102) (MkUUID 9)].
Proof.
  split; [vm_compute; reflexivity|].
  destruct (agent_tools_authorised (fun s => s) demo_cat demo_env quiet_session demo_fsv demo_sv (demo_lv demo_plan None here)
    [Create "ship it" (MkUUID 9); Approve (MkUUID 102) (MkUUID 9)] demo_approved
    (MkCall (uuid_to_string (MkUUID 102)) (uuid_to_string (MkUUID 9)) "deploy" (JObj []) (Some 0)))
    as (id&r&tk&t&t0&H1&_&_&_&_&_&_&_&[H2|(anc&H2&H3)]).
  - exact (demo_apart demo_plan None here).
  - exact demo_history.
  - apply list_elem_of_In. vm_compute. right. left. reflexivity.
  - vm_compute in H2. discriminate H2.
  - exists id, r, anc. exact (conj H1 (conj H2 H3)).
Defined.
