(* ===== verification/AgentProgress.v ===== *)
(** * Approved runs complete

    The agent flow in the flow engine: an approved run whose tools succeed executes
    each step of its plan once, in order, and completes. *)
From S2P Require Import Prelude PyDatetime PyUuid Json RetryPolicy Capability ResourceManager ExecutionUnit FlowEngine FlowFacts.
From S2P Require Import PyEffects FlowSlots FlowWorld FlowPlans AgentFlow AgentRuns AgentSafety AgentDemo AgentAuthority.
Local Open Scope Z_scope.

(** ** The nodes, when everything answers *)
Section nodes.
Context {X : Type} `{!AgentStore X} `{!IsoCodec} (sha256 : string -> string) (cat : catalog) (sv : @agent_services X).
Context (id : UUID) (user : string) (steps : list json) (tk : token) (out : string -> json -> json) (base : list tool_call).
Local Abbreviation run := (uuid_to_string id).

(** The tool and the arguments a step names *)
Definition tool_of (s : json) : string := text_field (json_object s) "tool" "".
Definition args_of (s : json) : json := default (JObj []) (dget (json_object s) "args").
Definition risk_of (s : json) : string := text_field (json_object s) "risk_level" "high".

(** The services answer, registered tools of the plan succeed, and the token allows them. *)
Record prompt : Prop := {
  pr_still : agent_still sv;
  pr_id : uuid_of_string run = Some id;
  pr_event a b p x : is_ok (sv_event sv a b p x).2 = true;
  pr_system a b p x : is_ok (sv_system sv a b p x).2 = true;
  pr_completed u j x : is_ok (sv_completed sv u j x).2 = true;
  pr_object s : s ∈ steps -> JObj (json_object s) = s;
  pr_tool s x : s ∈ steps -> dmem (cat_tools cat) (tool_of s) = true /\ (sv_tool sv (tool_of s) (args_of s) user x).2 = Ok (out (tool_of s) (args_of s));
  pr_check s x : s ∈ steps -> check_tool_capability sha256 cat (Some tk) (sv_clock sv x) run user (tool_of s) = None
}.
Hypothesis Hp : prompt.

(** The entries of the log and of the results for the first steps *)
Definition call_of (s : json) (tc : tool_call) : Prop :=
  tc_run tc = run /\ tc_user tc = user /\ tc_tool tc = tool_of s /\ tc_args tc = args_of s.
Definition result_of (i : nat) (s : json) : json := step_result (Z.of_nat i) (tool_of s) "success" (out (tool_of s) (args_of s)) None.
Definition called (n : nat) (g : agents) : Prop := exists l, ag_calls g = base ++ l /\ Forall2 call_of (take n steps) l.

(** A service call: it succeeds and leaves the tables *)
Lemma ask_ok {A} (f : X -> X * result A) x : is_ok (f x).2 = true -> within same_tables f -> exists x' a, f x = (x', Ok a) /\ ag_get x' = ag_get x.
Proof. intros H1 H2. specialize (H2 x). destruct (f x) as [x' [a|e]]; [|done]. by exists x', a. Qed.

Lemma execute_tool_ok s x : s ∈ steps -> exists x' t,
  execute_tool sha256 cat sv (tool_of s) (args_of s) user run (Some tk) x = (x', Ok (MkToolResult true (out (tool_of s) (args_of s)) None)) /\
  ag_get x' = log_call (MkCall run user (tool_of s) (args_of s) (Some t)) (ag_get x).
Proof.
  intros Hs. unfold execute_tool, check_call. rewrite (proj1 (pr_tool Hp s x Hs)). cbn [negb].
  rewrite (proj2 (truthy_true run) (uuid_to_string_nonempty id)). cbn [negb]. unfold mbind, SE_bind, try_except. cbn [reads].
  rewrite (pr_check Hp s x Hs).
  destruct (ask_ok (sv_system sv "capability.allowed" run [("tool_name", JStr (tool_of s))]) x (pr_system Hp _ _ _ _) (st_system _ (pr_still Hp) _ _ _))
    as (x1&o&->&E1). cbn [mret SE_ret writes]. set (tc := MkCall _ _ _ _ _). set (x2 := on_store (log_call tc) x1).
  assert (ag_get x2 = log_call tc (ag_get x)) as E2 by (unfold x2, on_store; by rewrite ag_get_set, E1). clearbody x2.
  pose proof (proj2 (pr_tool Hp s x2 Hs)) as Ho. pose proof (st_tool _ (pr_still Hp) (tool_of s) (args_of s) user x2) as E3.
  destruct (sv_tool sv _ _ _ x2) as [x3 r]. cbn in Ho. subst r. exists x3, (sv_clock sv x). split; [done|]. exact (eq_trans E3 E2).
Qed.

Lemma attempt_tool_ok n policy s x : s ∈ steps -> exists x' t ms,
  attempt_tool sha256 cat sv (Datatypes.S n) policy (tool_of s) (args_of s) user run (Some tk) x
    = (x', Ok (MkToolResult true (out (tool_of s) (args_of s)) None, ms)) /\
  ag_get x' = log_call (MkCall run user (tool_of s) (args_of s) (Some t)) (ag_get x).
Proof.
  intros Hs. cbn [attempt_tool]. unfold mbind, SE_bind. cbn [reads]. destruct (execute_tool_ok s x Hs) as (x1&t&->&E1). cbn.
  by eexists _, _, _.
Qed.

Lemma agent_policy_attempts risk : exists n, Z.to_nat (max_attempts (resolve_retry_policy (Some "agent") (Some risk) None None)) = Datatypes.S n.
Proof.
  unfold resolve_retry_policy. change (str_strip (str_lower (str_or (Some "agent") ""))) with "agent".
  change ("agent" =s "flow") with false. change ("agent" =s "agent") with true. cbv iota.
  generalize (str_strip (str_lower (str_or (Some risk) "high"))). intros t. unfold RISK_TO_AGENT_POLICY. cbn [dget].
  destruct ("low" =s t); [by exists 2%nat|]. destruct ("medium" =s t); [by exists 2%nat|]. destruct ("high" =s t); by exists 0%nat.
Qed.

(** ** The state between the nodes *)
Context (h : run_identity) (plan0 : dict json) (others : gmap UUID AgentRun).

(** The row of the run while it executes, and the other rows *)
Definition executing_row (n : nat) (x : X) : Prop :=
  (exists r, runs x !! id = Some r /\ ar_identity r = h /\ ar_plan r = plan0 /\ ar_status r = "executing" /\ ar_capability_token r = Some tk /\
     (n <> 0%nat -> ar_steps_completed r = Z.of_nat n)) /\
  forall id', id' <> id -> runs x !! id' = others !! id'.
Definition at_step (n : nat) (st : dict json) (x : X) : Prop :=
  carries tk run user st /\ dget st "steps" = Some (JArr steps) /\ dget st "current_step_index" = Some (JInt (Z.of_nat n)) /\
  dget st "step_results" = Some (JArr (imap result_of (take n steps))) /\ called n (ag_get x) /\ executing_row n x.

Lemma executing_row_same n x x' : ag_get x' = ag_get x -> executing_row n x -> executing_row n x'.
Proof. unfold executing_row, runs. by intros ->. Qed.
Lemma at_step_closed n st : closed same_tables (at_step n st).
Proof. intros x x' (H1&H2&H3&H4&H5&H6) Hx. unfold at_step. rewrite Hx. split_and!; try done. by eapply executing_row_same. Qed.

Lemma called_next n s t g : steps !! n = Some s -> called n g -> called (Datatypes.S n) (log_call (MkCall run user (tool_of s) (args_of s) (Some t)) g).
Proof.
  intros Hs (l&Hl&Hf). exists (l ++ [MkCall run user (tool_of s) (args_of s) (Some t)]). cbn. rewrite Hl, <- app_assoc. split; [done|].
  rewrite (take_S_r steps n s Hs). apply Forall2_app; [done|]. by repeat constructor.
Qed.
Lemma results_next n s : steps !! n = Some s -> imap result_of (take (Datatypes.S n) steps) = imap result_of (take n steps) ++ [result_of n s].
Proof.
  intros Hs. rewrite (take_S_r steps n s Hs), imap_app. f_equal. cbn. rewrite length_take_le, Nat.add_0_r; [done|].
  apply lookup_lt_Some in Hs. lia.
Qed.

(** The patch of a node that succeeds *)
Definition patch_of (node : string) (st : dict json) : dict json :=
  if node =s "agent_validate_steps" then [("current_step_index", JInt 0); ("step_results", JArr [])]
  else if node =s "agent_execute_step" then
    match steps !! Z.to_nat (step_index st) with
    | Some s => [("current_step_index", JInt (step_index st + 1));
                 ("step_results", JArr (json_list (jget st "step_results") ++ [result_of (Z.to_nat (step_index st)) s]))]
    | None => []
    end
  else [("finalized", JBool true)].
Lemma patch_plain node st k : str_in k ["current_step_index"; "step_results"; "finalized"] = false -> dget (dict_update st (patch_of node st)) k = dget st k.
Proof using Type.
  clear Hp sha256. intros Hk. apply dict_update_other. apply str_in_false in Hk. unfold patch_of.
  destruct (node =s _); [cbn; set_solver|]. destruct (node =s _); [|cbn; set_solver]. destruct (steps !! _); cbn; set_solver.
Qed.
Lemma patch_carries node st : carries tk run user st -> carries tk run user (dict_update st (patch_of node st)).
Proof.
  apply carries_same. intros k Hk. apply patch_plain. apply str_in_spec in Hk. rewrite !elem_of_cons, elem_of_nil in Hk.
  by destruct Hk as [->|[->|[->|[->|[]]]]].
Qed.

Lemma step_index_at n st x : at_step n st x -> step_index st = Z.of_nat n.
Proof. intros (_&_&H3&_). unfold step_index. by rewrite H3. Qed.
Lemma step_steps n st x : at_step n st x -> json_list (jget st "steps") = steps.
Proof. intros (_&H2&_). unfold jget. by rewrite H2. Qed.

(** The events of a step, which change nothing *)
Lemma step_events_ok kind payload x : exists x', step_events sv run kind payload x = (x', Ok ()) /\ ag_get x' = ag_get x.
Proof.
  unfold step_events, mbind, SE_bind.
  destruct (ask_ok (sv_system sv "agent.step" run payload) x (pr_system Hp _ _ _ _) (st_system _ (pr_still Hp) _ _ _)) as (x1&o1&->&E1).
  destruct (ask_ok (sv_system sv kind run payload) x1 (pr_system Hp _ _ _ _) (st_system _ (pr_still Hp) _ _ _)) as (x2&o2&->&E2).
  exists x2. split; [done|congruence].
Qed.

(** The row after a step *)
Lemma progress_row n (f : UUID -> AgentStep) x : executing_row n x ->
  exists x', add_step run f (Z.of_nat n + 1) x = (x', Ok ()) /\ ag_calls (ag_get x') = ag_calls (ag_get x) /\ executing_row (Datatypes.S n) x'.
Proof.
  intros [(r&Hr&H1&H2&H3&H4&_) Ho]. unfold add_step. rewrite (pr_id Hp). eexists. split; [reflexivity|].
  unfold executing_row, runs, on_store in *. rewrite ag_get_set. cbn. split; [done|]. split.
  - exists (run_progress (Z.of_nat n + 1) r). rewrite lookup_alter_eq, Hr. cbn. split_and!; try done. lia.
  - intros id' Hne. rewrite lookup_alter_ne by done. by apply Ho.
Qed.

Lemma agent_execute_step_ok n s st x : at_step n st x -> steps !! n = Some s ->
  exists x', agent_execute_step sha256 cat sv st x = (x', Ok (success (patch_of "agent_execute_step" st))) /\
    at_step (Datatypes.S n) (dict_update st (patch_of "agent_execute_step" st)) x'.
Proof.
  intros Hat Hs. pose proof Hat as (Hc&H2&H3&H4&H5&H6). pose proof Hc as (Hm&Ht&Hr&Hu).
  assert (s ∈ steps) as Hin by (by eapply list_elem_of_lookup_2).
  unfold agent_execute_step. rewrite (step_index_at n st x Hat), (step_steps n st x Hat), Nat2Z.id, Hs, <- (pr_object Hp s Hin). cbv zeta.
  fold (tool_of s) (args_of s) (risk_of s). unfold state_text. rewrite Hr, Hu, Hm, Ht. unfold mbind, SE_bind. cbn [mret SE_ret status_text reads orb].
  rewrite (pr_check Hp s x Hin). unfold perform_step, mbind, SE_bind. cbn [writes]. rewrite Ht.
  destruct (agent_policy_attempts (risk_of s)) as [k ->].
  destruct (attempt_tool_ok k (resolve_retry_policy (Some "agent") (Some (risk_of s)) None None) s (sv_enrich sv (tool_of s) x) Hin) as (x1&t&ms&->&E1).
  rewrite (st_enrich _ (pr_still Hp) (tool_of s) x) in E1. cbn [tr_success tr_result tr_error].
  assert (executing_row n x1) as Hr1.
  { destruct H6 as [Ha Hb]. unfold executing_row, runs in *. by rewrite E1. }
  assert (called (Datatypes.S n) (ag_get x1)) as Hc1 by (rewrite E1; by apply called_next).
  destruct (progress_row n (fun id => MkAgentStep id (Z.of_nat n) (tool_of s) (args_of s) (risk_of s) "success" (out (tool_of s) (args_of s)) None ms) x1 Hr1)
    as (x2&->&E2&Hr2).
  match goal with |- context [step_events sv run ?k ?pl x2] => destruct (step_events_ok k pl x2) as (x3&->&E3) end.
  assert (patch_of "agent_execute_step" st = [("current_step_index", JInt (Z.of_nat n + 1));
    ("step_results", JArr (json_list (jget st "step_results") ++ [result_of n s]))]) as Hpatch.
  { unfold patch_of. change ("agent_execute_step" =s "agent_validate_steps") with false. change ("agent_execute_step" =s "agent_execute_step") with true.
    cbv iota. by rewrite (step_index_at n st x Hat), Nat2Z.id, Hs. }
  exists x3. split; [by rewrite Hpatch|]. split_and!.
  - by apply patch_carries.
  - by rewrite patch_plain.
  - rewrite Hpatch. cbn [dict_update foldl fst snd]. rewrite dget_dset_ne by done. rewrite dget_dset_eq. do 2 f_equal. lia.
  - rewrite Hpatch. cbn [dict_update foldl fst snd]. rewrite dget_dset_eq, (results_next n s Hs). unfold jget. by rewrite H4.
  - destruct Hc1 as (l&Hl&Hf). exists l. rewrite E3, E2, Hl. done.
  - by eapply executing_row_same.
Qed.

(** A finished run *)
Definition finished (x : X) : Prop :=
  called (length steps) (ag_get x) /\
  (exists r res, runs x !! id = Some r /\ ar_identity r = h /\ ar_plan r = plan0 /\ ar_status r = "completed" /\ ar_capability_token r = Some tk /\
     ar_steps_completed r = Z.of_nat (length steps) /\ ar_result r = JObj res /\ jget res "steps" = JArr (imap result_of steps)) /\
  forall id', id' <> id -> runs x !! id' = others !! id'.

Hypothesis Hkey : ri_id h = id.
Hypothesis Hne : steps <> [].

Lemma agent_finalize_ok st x : at_step (length steps) st x ->
  exists x', agent_finalize_run sv st x = (x', Ok (success [("finalized", JBool true)])) /\ finished x'.
Proof.
  intros (Hc&H2&H3&H4&H5&[(r&Hr&R1&R2&R3&R4&R5) Ho]). pose proof Hc as (_&_&Hrun&_).
  unfold agent_finalize_run, state_text. rewrite Hrun. unfold mbind at 1, SE_bind at 1. cbn [mret SE_ret status_text].
  rewrite H4. match goal with |- context [default (JArr []) (Some ?v)] => change (default (JArr []) (Some v)) with v end. unfold mbind at 1, SE_bind at 1. cbn [reads]. rewrite (pr_id Hp). cbn [mbind option_bind]. rewrite Hr.
  rewrite firstn_all in *. set (results := JArr (imap result_of steps)) in *.
  assert (exists x1 payload, (if json_truthy (jget st "user_id") then
      hooks ← sv_completed sv (status_text (jget st "user_id")) results : SE X (list json);
      mret [("steps", results); ("loop_enforced", JBool (match hooks with [] => false | _ => true end));
            ("next_action", jget (first_object hooks) "next_action")]
    else mret [("steps", results)]) x = (x1, Ok payload) /\ jget payload "steps" = results /\ ag_get x1 = ag_get x) as (x1&payload&E1&P1&G1).
  { destruct (json_truthy _); [|by eexists _, _]. unfold mbind, SE_bind.
    destruct (ask_ok (sv_completed sv (status_text (jget st "user_id")) results) x (pr_completed Hp _ _ _) (st_completed _ (pr_still Hp) _ _)) as (x1&hooks&->&G).
    by eexists _, _. }
  unfold mbind at 1, SE_bind at 1. rewrite E1. unfold mbind at 1, SE_bind at 1. cbn [writes]. set (x2 := on_store _ x1).
  assert (finished x2) as Hfin.
  { assert (ag_get x2 = store_runs (alter (run_completed (JObj payload) (sv_clock sv x1)) (ar_id r)) (ag_get x)) as G2
      by (unfold x2, on_store; by rewrite ag_get_set, G1). clearbody x2.
    assert (ar_id r = id) as Hid by (unfold ar_id; by rewrite R1). rewrite Hid in G2. unfold finished, runs in *. rewrite G2. cbn. split_and!.
    - exact H5.
    - eexists _, payload. rewrite lookup_alter_eq, Hr. split; [reflexivity|]. cbn. split_and!; try done. apply R5. by destruct steps.
    - intros id' Hd. rewrite lookup_alter_ne by done. by apply Ho. }
  clearbody x2. unfold mbind, SE_bind.
  match goal with |- context [sv_event sv ?a ?b ?pl x2] => destruct (ask_ok (sv_event sv a b pl) x2 (pr_event Hp _ _ _ _) (st_event _ (pr_still Hp) _ _ _)) as (x3&o&->&G3) end.
  exists x3. split; [done|]. unfold finished, runs in *. by rewrite G3.
Qed.

(** ** The walk through the flow *)
Definition before (node : string) (st : dict json) (x : X) : Prop :=
  if node =s "agent_validate_steps" then
    carries tk run user st /\ dget st "steps" = Some (JArr steps) /\ called 0 (ag_get x) /\ executing_row 0 x
  else if node =s "agent_execute_step" then exists n, (n < length steps)%nat /\ at_step n st x
  else at_step (length steps) st x.
Definition after (node : string) (st : dict json) (x : X) : Prop :=
  if node =s "agent_validate_steps" then at_step 0 st x
  else if node =s "agent_execute_step" then exists n, (n <= length steps)%nat /\ at_step n st x
  else finished x.

Lemma before_closed node st : closed same_tables (before node st).
Proof.
  intros x x' Hb Hx. unfold before in *. destruct (node =s _); [|destruct (node =s _)].
  - destruct Hb as (H1&H2&H3&H4). rewrite Hx. split_and!; try done. by eapply executing_row_same.
  - destruct Hb as (n&Hn&Hat). exists n. split; [done|]. by eapply at_step_closed.
  - by eapply at_step_closed.
Qed.
Lemma after_closed node st : closed same_tables (after node st).
Proof.
  intros x x' Hb Hx. unfold after in *. destruct (node =s _); [|destruct (node =s _)].
  - by eapply at_step_closed.
  - destruct Hb as (n&Hn&Hat). exists n. split; [done|]. by eapply at_step_closed.
  - unfold finished, runs in *. by rewrite Hx.
Qed.

Lemma validate_patch st : dget (dict_update st (patch_of "agent_validate_steps" st)) "current_step_index" = Some (JInt 0) /\
  dget (dict_update st (patch_of "agent_validate_steps" st)) "step_results" = Some (JArr []).
Proof.
  unfold patch_of. change ("agent_validate_steps" =s "agent_validate_steps") with true. cbv iota. cbn [dict_update foldl fst snd].
  split; [rewrite dget_dset_ne by done|]; apply dget_dset_eq.
Qed.

Section engine.
Context {S : Type} (fsv : @flow_services X S).
Hypothesis Hreg : registered sha256 cat sv fsv.
Hypothesis Hopen : forall n, agent_node n -> str_in n (fs_blocked fsv) = false.

Lemma node_gives_as body node J K' st patch : dget (agent_nodes sha256 cat sv) node = Some (as_node body) -> agent_node node ->
  (forall x, J x -> exists x', body st x = (x', Ok (success patch)) /\ K' x') -> node_gives fsv J K' st patch node.
Proof.
  intros Hn Ha Hb. split; [by apply Hopen|]. exists (as_node body). split; [by apply Hreg|]. intros a x Hx.
  destruct (Hb x Hx) as (x'&He&HK). exists x'. unfold as_node. by rewrite He.
Qed.

Lemma validate_leads : leads fsv same_tables AGENT_FLOW patch_of before after "agent_validate_steps".
Proof.
  split.
  - intros st. split_and!; [|apply before_closed|apply after_closed]. eapply node_gives_as; [reflexivity|reflexivity|].
    intros x (H1&H2&H3&H4). exists x. split.
    + unfold agent_validate_steps. assert (json_truthy (jget st "steps") = true) as ->; [|done]. unfold jget. rewrite H2. cbn. by destruct steps.
    + split_and!; [by apply patch_carries|by rewrite patch_plain|by apply validate_patch..|done|done].
  - intros st x n' Hat [= <-]. exists 0%nat. split; [|exact Hat]. destruct steps; [done|cbn; lia].
Qed.
Lemma execute_leads : leads fsv same_tables AGENT_FLOW patch_of before after "agent_execute_step".
Proof.
  split.
  - intros st. split_and!; [|apply before_closed|apply after_closed]. eapply node_gives_as; [reflexivity|reflexivity|].
    intros x (n&Hn&Hat). destruct (lookup_lt_is_Some_2 steps n Hn) as [s0 Hs].
    destruct (agent_execute_step_ok n s0 st x Hat Hs) as (x'&He&Hat'). exists x'. split; [exact He|]. exists (Datatypes.S n). split; [lia|exact Hat'].
  - intros st x n' (n&Hn&Hat). rewrite agent_next, (step_index_at n st x Hat), (step_steps n st x Hat).
    destruct (Z.ltb_spec (Z.of_nat n) (Z.of_nat (length steps))); intros [= <-].
    + exists n. split; [lia|exact Hat].
    + assert (n = length steps) as -> by lia. exact Hat.
Qed.
Lemma finalize_leads : leads fsv same_tables AGENT_FLOW patch_of before after "agent_finalize_run".
Proof.
  split; [|done]. intros st. split_and!; [|apply before_closed|apply after_closed]. eapply node_gives_as; [reflexivity|reflexivity|].
  intros x Hat. exact (agent_finalize_ok st x Hat).
Qed.
End engine.

(** The nodes the flow visits *)
Definition visits : list string := repeat "agent_execute_step" (length steps) ++ ["agent_finalize_run"].
Lemma execute_walk m n st : (n + Datatypes.S m = length steps)%nat -> dget st "steps" = Some (JArr steps) ->
  dget st "current_step_index" = Some (JInt (Z.of_nat n)) ->
  flow_walk AGENT_FLOW patch_of st "agent_execute_step" (repeat "agent_execute_step" m ++ ["agent_finalize_run"]).
Proof.
  revert n st. induction m as [|m IH]; intros n st Hn Hs Hi.
  all: assert (step_index st = Z.of_nat n) as Hix by (unfold step_index; by rewrite Hi).
  all: destruct (lookup_lt_is_Some_2 steps n ltac:(lia)) as [s0 Hs0].
  all: assert (dget (dict_update st (patch_of "agent_execute_step" st)) "current_step_index" = Some (JInt (Z.of_nat (Datatypes.S n)))) as Hnext
    by (unfold patch_of; change ("agent_execute_step" =s "agent_validate_steps") with false; change ("agent_execute_step" =s "agent_execute_step") with true;
        cbv iota; rewrite Hix, Nat2Z.id, Hs0; cbn [dict_update foldl fst snd]; rewrite dget_dset_ne by done; rewrite dget_dset_eq; do 2 f_equal; lia).
  all: assert (dget (dict_update st (patch_of "agent_execute_step" st)) "steps" = Some (JArr steps)) as Hsteps by (by rewrite patch_plain).
  all: assert (resolve_next_node "agent_execute_step" (dict_update st (patch_of "agent_execute_step" st)) AGENT_FLOW =
    Ok (Some (if Z.of_nat (Datatypes.S n) <? Z.of_nat (length steps) then "agent_execute_step" else "agent_finalize_run"))) as Hres
    by (rewrite agent_next; unfold step_index, jget; by rewrite Hnext, Hsteps).
  - rewrite (proj2 (Z.ltb_ge _ _)) in Hres by lia. eapply walk_step; [done|exact Hres|done|]. by apply walk_end.
  - rewrite (proj2 (Z.ltb_lt _ _)) in Hres by lia. eapply walk_step; [done|exact Hres|done|]. apply (IH (Datatypes.S n)); [lia|done..].
Qed.
Lemma agent_walk st : dget st "steps" = Some (JArr steps) -> flow_walk AGENT_FLOW patch_of st "agent_validate_steps" visits.
Proof.
  intros Hs. unfold visits. destruct (length steps) as [|m] eqn:Hl; [by destruct steps|].
  change (repeat "agent_execute_step" (Datatypes.S m) ++ ["agent_finalize_run"]) with
    ("agent_execute_step" :: repeat "agent_execute_step" m ++ ["agent_finalize_run"]).
  apply walk_step; [done|done|done|]. apply (execute_walk m 0); [lia|by rewrite patch_plain|apply validate_patch].
Qed.
End nodes.

(** ** From the approval to the end *)
Section life.
Context {X S : Type} `{!AgentStore X} `{!IsoCodec} (sha256 : string -> string) (cat : catalog).
Context (E : env X) (db : eu_session S) (fsv : @flow_services X S) (sv : @agent_services X) (lv : @run_services X S) (B : Z).
Local Abbreviation cfg := (@cfg X S).
Local Abbreviation K := (B / 1000 + 1).
Implicit Types (c : cfg).

(** The services answer, within a day, and no other agent is chosen. *)
Record smooth : Prop := {
  sm_apart : apart sha256 cat E fsv sv lv;
  sm_calm : calm fsv;
  sm_open n : agent_node n -> str_in n (fs_blocked fsv) = false;
  sm_extractor : fs_extractor fsv "agent_execution" = None;
  sm_key : fs_result_key fsv "agent_execution" = None;
  sm_testing : env_testing E = false;
  sm_backend : env_backend E = None;
  sm_clock x : 0 <= fs_clock fsv x <= B;
  sm_day x : 0 <= sv_clock sv x < expiry 0;
  sm_event a b p x : is_ok (sv_event sv a b p x).2 = true;
  sm_system a b p x : is_ok (sv_system sv a b p x).2 = true;
  sm_completed u j x : is_ok (sv_completed sv u j x).2 = true;
  sm_register r x : is_ok (lv_register lv r x).2 = true;
  sm_local r l x : exists co, (lv_decide lv r l x).2 = Ok co /\ str_in (co_mode co) ["delegate"; "collaborate"] = false;
  sm_hooks r x : is_ok (lv_hooks lv r x).2 = true;
  sm_units e s : is_ok (db_add db e s).2 = true
}.
Hypothesis Hsm : smooth.

(** The tenant has a free slot and CPU time for [n] nodes, and new units have no usage. *)
Definition spare (user : UUID) (n : Z) c : Prop :=
  local_mode E (c_rm c) /\ 0 <= active c (uuid_to_string user) /\ active c (uuid_to_string user) + 1 < env_max_concurrent E /\
  (forall x, rm_usage (c_rm c) !! uuid_to_string (lv_uuid lv x).2 = None /\ ~ (uuid_to_string (lv_uuid lv x).2 ∈ rm_pending_purge (c_rm c))) /\
  n * K <= env_max_cpu_ms E /\ 0 <= env_max_syscalls E.

(** Only the outside world and the units change. *)
Definition goes c c' : Prop := exists x u, c' = set_units u (set_rm (with_ext (c_rm c) x) c).
#[export] Instance goes_preorder : PreOrder goes.
Proof.
  split; [intros c; exists (c_ext c), (c_units c); by destruct c as [? ? [] ? ? ?]|]. intros a b d (x&u&->) (y&v&->). by exists y, v.
Qed.
Lemma goes_spare user n c c' : goes c c' -> spare user n c -> spare user n c'.
Proof. intros (x&u&->) Hs. exact Hs. Qed.

(** Steps of the life cycle that succeed *)
Lemma bind_ok {St A C} (m : SE St A) (f : A -> SE St C) s s' a : m s = (s', Ok a) -> (m ≫= f) s = f a s'.
Proof. intros Hm. unfold mbind, SE_bind. by rewrite Hm. Qed.
Local Ltac go H := rewrite (bind_ok _ _ _ _ _ H).
Lemma call_goes {A} (f : X -> X * result A) c : is_ok (f (c_ext c)).2 = true -> within same_tables f ->
  exists c' a, call f c = (c', Ok a) /\ goes c c' /\ tables c' = tables c /\ (f (c_ext c)).2 = Ok a.
Proof.
  intros H1 H2. unfold call, tables. specialize (H2 (c_ext c)). destruct (f (c_ext c)) as [x [a|e]]; [|done]. eexists _, a. split; [reflexivity|].
  split; [|by split]. by exists x, (c_units c).
Qed.
Lemma fresh_goes c : exists c' x, fresh_uuid lv c = (c', Ok (lv_uuid lv x).2) /\ goes c c' /\ tables c' = tables c.
Proof.
  unfold fresh_uuid, call, tables. pose proof (rs_uuid _ (ap_run _ _ _ _ _ _ (sm_apart Hsm)) (c_ext c)) as H1.
  destruct (lv_uuid lv (c_ext c)) as [x u] eqn:Hu. eexists _, (c_ext c). rewrite Hu. split; [reflexivity|]. split; [by exists x, (c_units c)|done].
Qed.
Lemma event_goes ty id p c : exists c' o, event sv ty id p c = (c', Ok o) /\ goes c c' /\ tables c' = tables c.
Proof.
  destruct (call_goes (sv_event sv ty (uuid_to_string id) p) c (sm_event Hsm _ _ _ _) (st_event _ (ap_agent _ _ _ _ _ _ (sm_apart Hsm)) _ _ _))
    as (c'&o&H1&H2&H3&_). by exists c', o.
Qed.
Lemma edit_goes id f c : exists c', edit_run id f c = (c', Ok ()) /\ goes c c' /\ tables c' = store_runs (alter f id) (tables c).
Proof.
  eexists. split; [reflexivity|]. split; [by eexists _, (c_units c)|]. unfold tables. cbn. unfold on_store. by rewrite ag_get_set.
Qed.
Lemma unit_goes id st c : exists c', update_unit db sv lv id st c = (c', Ok ()) /\ goes c c' /\ tables c' = tables c.
Proof.
  unfold update_unit, modifies. destruct (lv_by_source lv _ _) as [s u]. eexists. split; [reflexivity|]. split; [|done].
  exists (c_ext c). eexists. destruct c as [? ? [] ? ? ?]. reflexivity.
Qed.
Lemma mint_goes r user agent capability c : mintable cat (named_tools (ar_plan r)) agent capability ->
  exists c' tk fresh t, mint sha256 cat sv lv r user "manual" agent c = (c', Ok (Some tk)) /\ goes c c' /\ tables c' = tables c /\
    mint_token sha256 cat fresh t (uuid_to_string (ar_id r)) (uuid_to_string user) (named_tools (ar_plan r)) "manual" agent = Some tk /\
    fresh <> "" /\ 0 <= t.
Proof.
  intros Hm. unfold mint. destruct (fresh_goes c) as (c1&x&F1&G1&T1). go F1.
  destruct (mintable_mint sha256 cat (uuid_to_string (lv_uuid lv x).2) (sv_clock sv (c_ext c1)) (uuid_to_string (ar_id r)) (uuid_to_string user)
    _ _ _ Hm) as [tk Htk].
  exists c1, tk, (uuid_to_string (lv_uuid lv x).2), (sv_clock sv (c_ext c1)). split_and!; [|done|done|done|apply uuid_to_string_nonempty|apply (sm_day Hsm)].
  exact (f_equal (fun o => (c1, Ok o)) Htk).
Qed.

(** ** The execution of a run that holds its token *)
Section held.
Context (id user : UUID) (tk : token) (out : string -> json -> json) (base : list tool_call) (h : run_identity) (others : gmap UUID AgentRun).
Local Abbreviation run := (uuid_to_string id).
Local Abbreviation owner := (uuid_to_string user).

Section flow.
Context (plan : dict json).
Local Abbreviation steps := (plan_steps plan).
Hypothesis Hprompt : prompt sha256 cat sv id owner steps tk out.
Hypothesis Hkey : ri_id h = id.
Hypothesis Hne : steps <> [].
Local Abbreviation ready := (executing_row id tk h plan others 0).
Local Abbreviation done_ := (finished id owner steps tk out base h plan others).
Local Abbreviation len := (length steps).

Lemma run_steps_plain nodes st k : str_in k ["current_step_index"; "step_results"; "finalized"] = false ->
  dget (run_steps (patch_of steps out) nodes st) k = dget st k.
Proof. intros Hk. revert st. induction nodes as [|n l IH]; intros st; [done|]. unfold run_steps in *. cbn [foldl]. rewrite IH. by apply patch_plain. Qed.
Lemma no_handoff st : dget st "status" = None -> dget st "_http_status" = None -> extract_async_handoff (JObj st) = None.
Proof. intros H1 H2. unfold extract_async_handoff, jget. by rewrite H1, H2. Qed.

Lemma flow_completes fuel rid trace fresh corr c : trace <> "" -> spare user (Z.of_nat (len + 2)) c ->
  rm_usage (c_rm c) !! uuid_to_string fresh = None -> ~ (uuid_to_string fresh ∈ rm_pending_purge (c_rm c)) ->
  ag_calls (tables c) = base -> ready (c_ext c) -> (len + 2 <= fuel)%nat ->
  exists c' resp, start E db fsv fuel rid trace fresh (MkRunner AGENT_FLOW (Some user) (Some "agent_execution") None "normal" None None None)
      (flow_state id user plan corr tk) "agent_execution" c = (c', Ok (Some resp)) /\
    rs_status resp = "SUCCESS" /\ rs_run_id resp = rid /\ done_ (c_ext c') /\ forall t, active c' t = active c t.
Proof.
  intros Htr (Hl&Ha0&Ha&_&Hcpu&Hsys) Hus Hpd Hcalls Hrow Hfuel. pose proof (sm_apart Hsm) as Hap.
  set (st := flow_state id user plan corr tk).
  assert (forall root, dget (initial_state st trace root) "steps" = Some (JArr steps)) as Hst.
  { intros root. unfold initial_state. change (json_truthy (jget st "trace_id")) with false. cbv iota.
    destruct (str_or_none root); rewrite ?dget_dset_ne; done. }
  assert (forall root k, dget st k = None -> str_in k ["trace_id"; "root_event_id"] = false -> dget (initial_state st trace root) k = None) as Hnone.
  { intros root k Hk Hin. apply str_in_false in Hin. unfold initial_state. change (json_truthy (jget st "trace_id")) with false. cbv iota.
    destruct (str_or_none root); rewrite ?dget_dset_ne by set_solver; done. }
  assert (forall root, carries tk run owner (initial_state st trace root)) as Hcar.
  { intros root. unfold initial_state. change (json_truthy (jget st "trace_id")) with false. cbv iota.
    assert (carries tk run owner (dset st "trace_id" (JStr trace))) by (apply carries_dset; [done|apply flow_state_carries]).
    destruct (str_or_none root); [by apply carries_dset|done]. }
  destruct (start_walk_in E db fsv same_tables (ap_env _ _ _ _ _ _ Hap) (ap_flow _ _ _ _ _ _ Hap) (sm_testing Hsm) (sm_backend Hsm) B (sm_clock Hsm)
    (patch_of steps out) (before id owner steps tk out base h plan others) (after id owner steps tk out base h plan others) user "agent_execution"
    (fun _ => visits steps) (len + 2) (MkRunner AGENT_FLOW (Some user) (Some "agent_execution") None "normal" None None None)
    rid trace fresh st "agent_execution" c fuel) as (c'&l&resp&run'&root&H1&H2&H3&_&_&_&_&_&_&H4&H5).
  all: try done.
  - apply (sm_calm Hsm).
  - intros root. by eapply agent_walk.
  - intros root. pose proof (ap_nodes _ _ _ _ _ _ Hap) as Hreg. pose proof (sm_open Hsm) as Hopen. unfold visits.
    constructor; [eapply validate_leads; eassumption|].
    apply Forall_app. split; [apply Forall_forall; intros n Hn; apply list_elem_of_In, repeat_spec in Hn; subst n|constructor; [|constructor]].
    + eapply execute_leads; eassumption.
    + eapply finalize_leads; eassumption.
  - intros root x Hx. eapply before_closed; [|exact Hx]. split_and!; [done|done| |done].
    exists []. by rewrite app_nil_r.
  - intros _. unfold visits. rewrite length_app, repeat_length. cbn. lia.
  - apply (sm_extractor Hsm).
  - apply (sm_key Hsm).
  - apply (sm_units Hsm).
  - intros root. apply no_handoff; rewrite run_steps_plain by done; apply Hnone; done.
  - eexists c', resp. split; [exact H1|]. split_and!; try done. revert H5. unfold visits. cbn [ru_flow fl_start AGENT_FLOW].
    rewrite app_comm_cons, last_last. done.
Qed.

Hypothesis Hexec : forall x, check_execution_capability sha256 cat (Some tk) (sv_clock sv x) run owner "execute_flow" = None.

Lemma finished_same x x' : ag_get x' = ag_get x -> done_ x -> done_ x'.
Proof. unfold finished, runs. by intros ->. Qed.
Lemma finished_linked f c c' : tables c' = store_runs (alter (run_linked f) id) (tables c) -> done_ (c_ext c) -> done_ (c_ext c').
Proof.
  unfold tables, finished, runs. intros -> (H1&(r&res&Hr&H2)&H3). cbn. split; [exact H1|]. split.
  - exists (run_linked f r), res. rewrite lookup_alter_eq, Hr. split; [reflexivity|exact H2].
  - intros id' Hd. rewrite lookup_alter_ne by done. by apply H3.
Qed.

Lemma run_flow_completes fuel corr c : spare user (Z.of_nat (len + 2)) c -> ag_calls (tables c) = base -> ready (c_ext c) -> (len + 2 <= fuel)%nat ->
  exists c', run_flow E db fsv sv lv fuel id user plan corr tk c = (c', Ok (Some ())) /\ done_ (c_ext c') /\ forall t, active c' t = active c t.
Proof.
  intros Hsp Hcalls Hrow Hfuel. unfold run_flow.
  match goal with |- context [call ?f] => destruct (call_goes f c (sm_system Hsm _ _ _ _) (st_system _ (ap_agent _ _ _ _ _ _ (sm_apart Hsm)) _ _ _))
    as (c1&o&R1&G1&T1&_) end. go R1.
  destruct (fresh_goes c1) as (c2&x2&R2&G2&T2). go R2. destruct (fresh_goes c2) as (c3&x3&R3&G3&T3). go R3.
  destruct (fresh_goes c3) as (c4&x4&R4&G4&T4). go R4. assert (goes c c4) as G by (by repeat (etrans; [eassumption|])).
  assert (tables c4 = tables c) as T by congruence. pose proof (goes_spare _ _ _ _ G Hsp) as Hsp4. pose proof Hsp4 as (_&_&_&Hnew&_).
  destruct (flow_completes fuel (uuid_to_string (lv_uuid lv x2).2) (uuid_to_string (lv_uuid lv x3).2) (lv_uuid lv x4).2 corr c4) as (c5&resp&R5&S1&S2&D5&A5).
  all: try first [done|apply Hnew|by rewrite T|by eapply executing_row_same].
  go R5. cbv beta iota. rewrite S2. rewrite (proj2 (truthy_true _) (uuid_to_string_nonempty (lv_uuid lv x2).2)).
  destruct (edit_goes id (run_linked (uuid_to_string (lv_uuid lv x2).2)) c5) as (c6&R6&G6&T6). go R6. rewrite S1.
  exists c6. split; [reflexivity|]. split; [by eapply finished_linked|]. intros t. destruct G6 as (y&u&->). destruct G as (z&v&->). exact (A5 t).
Qed.

Lemma orchestration_completes fuel corr c : spare user (Z.of_nat (len + 2)) c -> ag_calls (tables c) = base -> ready (c_ext c) -> (len + 2 <= fuel)%nat ->
  exists c', execute_agent_flow_orchestration sha256 cat E db fsv sv lv fuel id user plan corr tk c = (c', Ok (Some ())) /\ done_ (c_ext c') /\
    forall t, active c' t = active c t.
Proof.
  intros H1 H2 H3 H4. destruct (run_flow_completes fuel corr c H1 H2 H3 H4) as (c'&R&H5). exists c'. split; [|exact H5].
  unfold execute_agent_flow_orchestration, catch. rewrite (bind_ok (now sv) _ c c (sv_clock sv (c_ext c)) eq_refl). by rewrite Hexec, R.
Qed.
End flow.

(** The rows before the execution *)
Definition holds (r : AgentRun) c : Prop :=
  runs (c_ext c) !! id = Some r /\ ar_identity r = h /\ ri_id h = id /\ ri_user_id h = user /\ ar_status r = "approved" /\
  ar_capability_token r = Some tk /\ (forall id', id' <> id -> runs (c_ext c) !! id' = others !! id') /\ ag_calls (tables c) = base.
Lemma holds_same r c c' : tables c' = tables c -> holds r c -> holds r c'.
Proof. unfold holds, runs, tables. by intros ->. Qed.

Lemma memory_steps p m : plan_steps (dset p "memory_context" m) = plan_steps p.
Proof. unfold plan_steps, jget. by rewrite dget_dset_ne. Qed.

Section row.
Context (r : AgentRun).
Local Abbreviation steps := (plan_steps (ar_plan r)).
Hypothesis Hprompt : prompt sha256 cat sv id owner steps tk out.
Hypothesis Hne : steps <> [].
Hypothesis Hexec : forall x, check_execution_capability sha256 cat (Some tk) (sv_clock sv x) run owner "execute_flow" = None.
Definition completes c c' r' : Prop :=
  runs (c_ext c') !! id = Some r' /\ (exists plan, finished id owner steps tk out base h plan others (c_ext c')) /\ forall t, active c' t = active c t.

Lemma goes_active c c' t : goes c c' -> active c' t = active c t.
Proof. by intros (y&u&->). Qed.

(** After the flow: the hooks and the unit *)
Lemma settle_completes plan c : finished id owner steps tk out base h plan others (c_ext c) -> exists c' r',
  (row ← get_run id;
   _ ← match row with
       | Some r' => if ar_status r' =s "completed" then call (lv_hooks lv r') else mret ()
       | None => mret ()
       end;
   row ← get_run id;
   _ ← match row with
       | Some r' => if str_in (ar_status r') ["completed"; "failed"] then update_unit db sv lv id (ar_status r') else mret ()
       | None => mret ()
       end;
   Some <$> get_run id : SE cfg _) c = (c', Ok (Some (Some r'))) /\ completes c c' r'.
Proof.
  intros Hf. pose proof Hf as (_&(r'&res&Hr&_&_&Hst&_)&_).
  rewrite (bind_ok (get_run id) _ c c (Some r')) by (unfold get_run, gets; by rewrite Hr). rewrite Hst. change ("completed" =s "completed") with true. cbv iota.
  destruct (call_goes (lv_hooks lv r') c (sm_hooks Hsm _ _) (rs_hooks _ (ap_run _ _ _ _ _ _ (sm_apart Hsm)) _)) as (c1&o&R1&G1&T1&_). go R1.
  assert (runs (c_ext c1) !! id = Some r') as Hr1 by (unfold runs, tables in *; by rewrite T1).
  rewrite (bind_ok (get_run id) _ c1 c1 (Some r')) by (unfold get_run, gets; by rewrite Hr1). rewrite Hst.
  change (str_in "completed" ["completed"; "failed"]) with true. cbv iota.
  destruct (unit_goes id "completed" c1) as (c2&R2&G2&T2). go R2.
  assert (runs (c_ext c2) !! id = Some r') as Hr2 by (unfold runs, tables in *; by rewrite T2).
  exists c2, r'. split; [unfold get_run, gets, fmap, SE_fmap; by rewrite Hr2|]. split; [done|]. split.
  - exists plan. unfold finished, runs, tables in *. by rewrite T2, T1.
  - intros t. rewrite (goes_active c1), (goes_active c); done.
Qed.

Lemma perform_completes fuel c : holds r c -> spare user (Z.of_nat (length steps + 2)) c -> (length steps + 2 <= fuel)%nat ->
  exists c' r', perform_run sha256 cat E db fsv sv lv fuel r user tk c = (c', Ok (Some (Some r'))) /\ completes c c' r'.
Proof.
  intros (Hr&Hh&Hi&Hu&_&Htk&Ho&Hb) Hsp Hfuel. unfold perform_run. cbv zeta.
  rewrite (bind_ok (now sv) _ c c (sv_clock sv (c_ext c)) eq_refl).
  match goal with |- context [call ?f] => destruct (call_goes f c) as (c1&m&R1&G1&T1&_) end.
  { by destruct (lv_memory lv r (c_ext c)). }
  { intros x. pose proof (rs_memory _ (ap_run _ _ _ _ _ _ (sm_apart Hsm)) r x) as Hm. by destruct (lv_memory lv r x). }
  go R1. assert (ar_id r = id) as -> by (unfold ar_id; by rewrite Hh). set (plan := dset (ar_plan r) "memory_context" m).
  destruct (edit_goes id (run_executing (sv_clock sv (c_ext c)) plan) c1) as (c2&R2&G2&T2). go R2.
  destruct (unit_goes id "executing" c2) as (c3&R3&G3&T3). go R3.
  destruct (event_goes "EXECUTION_STARTED" id [] c3) as (c4&o&R4&G4&T4). go R4.
  assert (goes c c4) as G by (by repeat (etrans; [eassumption|])).
  assert (tables c4 = store_runs (alter (run_executing (sv_clock sv (c_ext c)) plan) id) (tables c)) as T by congruence.
  pose proof (memory_steps (ar_plan r) m : plan_steps plan = steps) as Hsteps. clearbody plan.
  destruct (orchestration_completes plan) with (fuel := fuel) (corr := ri_correlation_id (ar_identity r)) (c := c4) as (c5&R5&D5&A5);
    rewrite ?Hsteps; try done.
  { by eapply goes_spare. }
  { rewrite T. exact Hb. }
  { unfold executing_row, runs, tables in *. rewrite T. cbn. split; [|intros id' Hd; rewrite lookup_alter_ne by done; by apply Ho].
    eexists. rewrite lookup_alter_eq, Hr. split; [reflexivity|]. by split_and!. }
  go R5. cbv iota. rewrite Hsteps in D5. destruct (settle_completes plan c5 D5) as (c6&r'&R6&C1&C2&C3). exists c6, r'. split; [exact R6|].
  split; [done|]. split; [done|]. intros t. by rewrite C3, A5, (goes_active c).
Qed.

Lemma execute_completes fuel c : holds r c -> spare user (Z.of_nat (length steps + 2)) c -> (length steps + 2 <= fuel)%nat ->
  exists c' r', execute_run sha256 cat E db fsv sv lv fuel id user c = (c', Ok (Some (Some r'))) /\ completes c c' r'.
Proof.
  intros Hh Hsp Hfuel. pose proof Hh as (Hr&Hid&_&Hu&Hst&Htk&_). unfold execute_run, catch.
  rewrite (bind_ok (get_run id) _ c c (Some r)) by (unfold get_run, gets; by rewrite Hr). rewrite Hst, Htk.
  change ("approved" =s "approved") with true. assert (bool_decide (ar_user_id r = user) = true) as ->.
  { apply bool_decide_eq_true. unfold ar_user_id. by rewrite Hid. }
  cbn [negb]. pose proof (ap_run _ _ _ _ _ _ (sm_apart Hsm)) as Hrs.
  destruct (call_goes (lv_register lv r) c (sm_register Hsm _ _) (rs_register _ Hrs _)) as (c1&o&R1&G1&T1&_). go R1.
  destruct (sm_local Hsm r (default [] (tk_allowed_capabilities tk)) (c_ext c1)) as (co&Hco&Hmode).
  destruct (call_goes (lv_decide lv r (default [] (tk_allowed_capabilities tk))) c1) as (c2&co'&R2&G2&T2&E2); [by rewrite Hco|apply (rs_decide _ Hrs)|]. go R2.
  assert (co' = co) as -> by congruence. rewrite Hmode.
  destruct (perform_completes fuel c2) as (c3&r'&R3&C1&C2&C3); [|exact (goes_spare _ _ c c2 (transitivity G1 G2) Hsp)|done|].
  { eapply holds_same; [|exact Hh]. congruence. }
  rewrite R3. exists c3, r'. split; [done|]. split; [done|]. split; [done|]. intros t. by rewrite C3, (goes_active c1), (goes_active c).
Qed.
End row.
End held.

(** A minted token allows the tools of the plan, and its execution. *)
Lemma plan_tool p agent capability s : mintable cat (named_tools p) agent capability -> s ∈ plan_steps p ->
  step_tool s = Some (tool_of s) /\ dmem (cat_tools cat) (tool_of s) = true /\ JObj (json_object s) = s.
Proof.
  intros [[tools Ht] _]. unfold named_tools in Ht. revert tools Ht. induction (plan_steps p) as [|s0 l IH]; intros tools Ht Hin; [by apply elem_of_nil in Hin|].
  cbn in Ht. destruct (step_tool s0) as [t|] eqn:Hs; [|done]. destruct (dmem (cat_tools cat) t) eqn:Hd; [|done].
  destruct (plan_tools cat (map step_tool l)) as [ts|]; [|done]. apply elem_of_cons in Hin as [->|Hin]; [|by eapply IH].
  assert (tool_of s0 = t) as ->; [|by destruct s0]. unfold step_tool, jget in Hs. unfold tool_of, text_field. by destruct (dget (json_object s0) "tool") as [[]|]; simplify_eq/=.
Qed.
Lemma minted_prompt id user p agent fresh t tk out : (uuid_int id < 2 ^ 128)%N -> mintable cat (named_tools p) agent "execute_flow" -> agent <> "" ->
  fresh <> "" -> 0 <= t -> mint_token sha256 cat fresh t (uuid_to_string id) (uuid_to_string user) (named_tools p) "manual" agent = Some tk ->
  (forall s x, s ∈ plan_steps p -> (sv_tool sv (tool_of s) (args_of s) (uuid_to_string user) x).2 = Ok (out (tool_of s) (args_of s))) ->
  prompt sha256 cat sv id (uuid_to_string user) (plan_steps p) tk out.
Proof.
  intros Hid Hm Ha Hf Ht Htk Hout. pose proof (ap_agent _ _ _ _ _ _ (sm_apart Hsm)) as Hst.
  constructor; [done|by apply uuid_roundtrip|apply (sm_event Hsm)|apply (sm_system Hsm)|apply (sm_completed Hsm)|..].
  - intros s Hs. by apply (plan_tool p agent "execute_flow").
  - intros s x Hs. split; [by apply (plan_tool p agent "execute_flow")|by apply Hout].
  - intros s x Hs. apply (minted_check _ _ _ _ _ _ _ _ _ _ _ _ Htk); try done.
    + pose proof (sm_day Hsm x). unfold expiry in *. lia.
    + apply list_elem_of_In, in_map_iff. exists s. split; [by apply (plan_tool p agent "execute_flow")|by apply list_elem_of_In].
Qed.

End life.

Lemma demo_smooth : smooth (fun s => s) demo_cat demo_env quiet_session demo_fsv demo_sv (demo_lv demo_plan None here) 0.
Proof.
  constructor; try exact (demo_apart demo_plan None here); intros; try reflexivity.
  - split; intros; try reflexivity. intros ? ?. reflexivity.
  - split; discriminate.
  - split; [discriminate|reflexivity].
  - exact (ex_intro _ here (conj eq_refl eq_refl)).
Qed.

Definition demo_row : AgentRun :=
  new_run (MkIdentity (MkUUID 7) (MkUUID 9) "default" "ship it" "high" 2 None None None None "run_7") (json_object demo_plan) "pending_approval".
Definition demo_waiting : @cfg world (gmap UUID ExecutionUnit) := MkCfg ∅ [] (rm_init (MkAgents {[MkUUID 7 := demo_row]} [] [], 100%N)) ∅ [] [].
Lemma demo_spare : spare demo_env (demo_lv demo_plan None here) 0 (MkUUID 9) 4 demo_waiting.
Proof.
  split; [split; reflexivity|]. split; [discriminate|]. split; [reflexivity|]. split; [|split; discriminate].
  intros x. split; [apply lookup_empty|apply not_elem_of_empty].
Qed.

