(* ===== verification/Auth.v ===== *)
(** * Users, sessions and platform API keys

    [AINDY/services/auth_service.py], [AINDY/platform_layer/api_key_service.py],
    [AINDY/auth/api_key_auth.py] and the routes in front of them
    ([AINDY/routes/auth_router.py], [AINDY/routes/platform/keys_router.py]).  The tables
    are lists of rows in the order of insertion, with their unique columns enforced.
    Password hashing, JSON web tokens and SHA-256 are parameters.  The routes are their
    handlers after the dependencies the routers declare; rate limits and the pipeline
    around the handlers are left out. *)
From S2P Require Import Prelude PyDatetime PyUuid Json PyEffects FlowEngine.
Local Open Scope Z_scope.

Definition http (code : Z) (detail : string) : exn := Exn "HTTPException" (Z_to_string code +:+ ": " +:+ detail).
Definition integrity_error : exn := Exn "IntegrityError" "duplicate key value violates unique constraint".
Definition seconds_of (t : Z) : Z := t / 1000000.
Definition hours (n : Z) : Z := n * 3600000000.

(** ** Rows *)
Record User := MkUser {
  us_id : UUID; us_email : string; us_username : option string; us_hashed_password : string;
  us_is_active : bool; us_is_admin : bool; us_token_version : Z
}.
Record PlatformAPIKey := MkKey {
  ak_id : UUID; ak_user_id : UUID; ak_name : string; ak_key_prefix : string; ak_key_hash : string; ak_scopes : list string;
  ak_is_active : bool; ak_expires_at : option Z; ak_revoked_at : option Z; ak_last_used_at : option Z; ak_created_at : Z
}.
(** [PlatformAPIKey.is_valid] *)
Definition is_valid (now : Z) (k : PlatformAPIKey) : bool :=
  ak_is_active k && match ak_revoked_at k with Some _ => false | None => true end &&
  match ak_expires_at k with Some e => now <=? e | None => true end.

(** ** The key ring of the signing keys *)
Record KeyRing := MkRing {
  kr_active : string; kr_previous : option string; kr_previous_expires : option Z; kr_grace_hours : Z
}.
Definition new_ring (active : string) (previous : option string) (grace : Z) (now : Z) : KeyRing :=
  MkRing active previous (match str_or_none previous with Some _ => Some (now + hours grace) | None => None end) grace.
Definition rotate (new_key : string) (now : Z) (r : KeyRing) : KeyRing :=
  if new_key =s kr_active r then r
  else MkRing new_key (Some (kr_active r)) (Some (now + hours (kr_grace_hours r))) (kr_grace_hours r).
Definition verify_keys (now : Z) (r : KeyRing) : KeyRing * list string :=
  match str_or_none (kr_previous r), kr_previous_expires r with
  | Some p, Some e =>
      if now <? e then (r, [kr_active r; p]) else (MkRing (kr_active r) None None (kr_grace_hours r), [kr_active r])
  | _, _ => (r, [kr_active r])
  end.
(** [reload_from_env], with the value of the variable *)
Definition reload_from_env (secret : string) (now : Z) (r : KeyRing) : KeyRing * bool :=
  if negb (truthy secret) || (secret =s kr_active r) then (r, false) else (rotate secret now r, true).

Record auth_db := MkAuth { au_users : list User; au_keys : list PlatformAPIKey; au_ring : KeyRing }.
Definition with_users (f : list User -> list User) (d : auth_db) : auth_db := MkAuth (f (au_users d)) (au_keys d) (au_ring d).
Definition with_keys (f : list PlatformAPIKey -> list PlatformAPIKey) (d : auth_db) : auth_db := MkAuth (au_users d) (f (au_keys d)) (au_ring d).
Definition with_ring (r : KeyRing) (d : auth_db) : auth_db := MkAuth (au_users d) (au_keys d) r.
Definition user_by_id (id : UUID) (l : list User) : option User := List.find (fun u => bool_decide (us_id u = id)) l.
Definition user_by_email (email : string) (l : list User) : option User := List.find (fun u => us_email u =s email) l.
Definition key_by_hash (h : string) (l : list PlatformAPIKey) : option PlatformAPIKey := List.find (fun k => ak_key_hash k =s h) l.
Definition name_taken (name : string) (l : list User) : bool := existsb (fun u => match us_username u with Some n => n =s name | None => false end) l.

(** ** Usernames *)

(** [re.sub(r"[^a-z0-9._-]+", "_", s)]; [skip]: the last character was replaced *)
Definition name_char (a : Ascii.ascii) : bool :=
  let n := Ascii.N_of_ascii a in
  ((97 <=? n) && (n <=? 122) || (48 <=? n) && (n <=? 57))%N || Ascii.eqb a "." || Ascii.eqb a "_" || Ascii.eqb a "-".
Fixpoint replace_runs (skip : bool) (s : string) : string :=
  match s with
  | EmptyString => EmptyString
  | String a s' => if name_char a then String a (replace_runs false s')
                   else if skip then replace_runs true s' else String "_" (replace_runs true s')
  end.
(** [s.strip("._-")] *)
Fixpoint lstrip_marks (s : string) : string :=
  match s with
  | String a s' => if Ascii.eqb a "." || Ascii.eqb a "_" || Ascii.eqb a "-" then lstrip_marks s' else s
  | EmptyString => EmptyString
  end.
Definition strip_marks (s : string) : string := String.rev (lstrip_marks (String.rev (lstrip_marks s))).
(** [_normalize_username_candidate] *)
Definition normalize_username_candidate (value : option string) : string :=
  str_or (Some (strip_marks (replace_runs false (str_lower (str_strip (str_or value "")))))) "user".
(** [email.split("@", 1)[0]] *)
Fixpoint before_at (s : string) : string :=
  match s with String a s' => if Ascii.eqb a "@" then EmptyString else String a (before_at s') | EmptyString => EmptyString end.
(** The candidates in their order, and the loop of [_resolve_username] over them *)
Definition candidate (base : string) (suffix : Z) : string := if suffix =? 1 then base else base +:+ "_" +:+ Z_to_string suffix.
Fixpoint free_name (fuel : nat) (base : string) (suffix : Z) (l : list User) : option string :=
  match fuel with
  | O => None
  | S fuel' => if name_taken (candidate base suffix) l then free_name fuel' base (suffix + 1) l else Some (candidate base suffix)
  end.
Definition resolve_username (email : string) (username : option string) (l : list User) : option string :=
  let base := normalize_username_candidate (Some (match str_or_none username with Some n => n | None => before_at email end)) in
  free_name (S (length l)) base 1 l.

(** ** Services *)
Record auth_services := MkAuthServices {
  sv_hash : N -> string -> string;                        (* [pwd_context.hash], with its salt *)
  sv_verify : string -> string -> bool;                   (* [pwd_context.verify] *)
  sv_encode : dict json -> string -> string;              (* [jwt.encode] *)
  sv_decode : string -> string -> Z -> option (dict json);  (* [jwt.decode], [None] for [JWTError] *)
  sv_sha256 : string -> string;
  sv_emit : string -> UUID -> result unit                 (* [queue_system_event], required *)
}.
(** [jwt.decode] inverts [jwt.encode] under the same key until the token expires, and rejects it under any other key. *)
Definition expired (p : dict json) (now : Z) : bool := match jget p "exp" with JInt e => e <? seconds_of now | _ => false end.
Class AuthLaws (sv : auth_services) : Prop := {
  decode_same p k now : json_wf (JObj p) -> sv_decode sv (sv_encode sv p k) k now = if expired p now then None else Some p;
  decode_other p k k' now : json_wf (JObj p) -> k <> k' -> sv_decode sv (sv_encode sv p k) k' now = None;
  sha256_inj : Inj (=) (=) (sv_sha256 sv)
}.

Section auth.
Context `{!IsoCodec} (sv : auth_services).
Local Abbreviation M := (SE auth_db).

(** ** Tokens *)
Definition ACCESS_TOKEN_EXPIRE_MINUTES : Z := 60 * 24.
Definition create_access_token (r : KeyRing) (data : dict json) (now : Z) (expires_delta : option Z) (token_version : Z) : string :=
  let delta := match expires_delta with Some d => if d =? 0 then ACCESS_TOKEN_EXPIRE_MINUTES * 60000000 else d
                                      | None => ACCESS_TOKEN_EXPIRE_MINUTES * 60000000 end in
  sv_encode sv (dset (dset data "tv" (JInt token_version)) "exp" (JInt (seconds_of (now + delta)))) (kr_active r).

Fixpoint try_keys (token : string) (now : Z) (keys : list string) : result (dict json) :=
  match keys with
  | [] => Raise (http 401 "Invalid or expired token")
  | k :: keys' => match sv_decode sv token k now with Some p => Ok p | None => try_keys token now keys' end
  end.
(** [decode_access_token]: an expired previous key is dropped from the ring. *)
Definition decode_access_token (token : string) (now : Z) : M (dict json) := fun d =>
  let (r, keys) := verify_keys now (au_ring d) in (with_ring r d, try_keys token now keys).

(** [parse_user_id] of a claim *)
Definition parse_user_id (j : json) : option UUID :=
  match j with
  | JNull => None
  | JStr s => if truthy s then uuid_of_string s else None
  | JInt z => uuid_of_string (Z_to_string z)
  | _ => None
  end.
(** [int(payload.get("tv", 0))] of a claim that is an integer *)
Definition token_version (p : dict json) : result Z :=
  match dget p "tv" with
  | None => Ok 0
  | Some (JInt v) => Ok v
  | Some (JBool b) => Ok (if b then 1 else 0)
  | Some (JStr s) => match Z_of_string s with Some v => Ok v | None => Raise (Exn "ValueError" "invalid literal for int()") end
  | Some _ => Raise (Exn "TypeError" "int() argument must be a string or a number")
  end.
Definition opt_text (o : option string) : json := match o with Some s => JStr s | None => JNull end.

(** [_resolve_authenticated_jwt_user] *)
Definition jwt_user (payload : dict json) (u : User) : dict json :=
  dict_update payload [("sub", JStr (uuid_to_string (us_id u))); ("user_id", JStr (uuid_to_string (us_id u)));
    ("email", JStr (us_email u)); ("username", opt_text (us_username u)); ("is_admin", JBool (us_is_admin u))].
Definition resolve_authenticated_jwt_user (payload : dict json) : M (dict json) :=
  match parse_user_id (jget payload "sub") with
  | None => throw (http 401 "Invalid authenticated user id")
  | Some id =>
      o ← reads (fun d => user_by_id id (au_users d));
      match o with
      | None => throw (http 401 "Invalid or expired token")
      | Some u =>
          tv ← of_result (token_version payload);
          if negb (tv =? us_token_version u) then throw (http 401 "Token has been invalidated. Please log in again.")
          else if negb (us_is_active u) then throw (http 401 "Invalid or expired token")
          else mret (jwt_user payload u)
      end
  end.

(** [_resolve_platform_key_as_user] *)
Definition key_user (k : PlatformAPIKey) : dict json :=
  [("sub", JStr (uuid_to_string (ak_user_id k))); ("user_id", JStr (uuid_to_string (ak_user_id k))); ("auth_type", JStr "api_key");
   ("api_key_id", JStr (uuid_to_string (ak_id k))); ("api_key_scopes", JArr (map JStr (ak_scopes k)))].
Definition resolve_platform_key_as_user (raw : string) (now : Z) : M (dict json) :=
  o ← reads (fun d => key_by_hash (sv_sha256 sv raw) (au_keys d));
  match o with
  | Some k => if is_valid now k then mret (key_user k) else throw (http 401 "Invalid or revoked API key")
  | None => throw (http 401 "Invalid or revoked API key")
  end.

Record credentials := MkCredentials { cr_platform_key : option string; cr_bearer : option string }.
(** [get_current_user] *)
Definition get_current_user (cr : credentials) (now : Z) : M (dict json) :=
  match str_or_none (cr_platform_key cr), cr_bearer cr with
  | Some raw, _ => resolve_platform_key_as_user raw now
  | None, None => throw (http 401 "Authentication required")
  | None, Some t => p ← decode_access_token t now; resolve_authenticated_jwt_user p
  end.
Definition by_api_key (cu : dict json) : bool := match jget cu "auth_type" with JStr s => s =s "api_key" | _ => false end.
(** [require_platform_admin_access] *)
Definition require_platform_admin_access (cu : dict json) : M (dict json) :=
  if by_api_key cu then mret cu
  else if json_truthy (jget cu "is_admin") then mret cu else throw (http 403 "Admin privileges required for this endpoint.").

(** ** Scoped principals ([auth/api_key_auth.py]) *)
Definition PLATFORM_ADMIN : string := "platform.admin".
Definition ALL_SCOPES : list string :=
  ["flow.read"; "flow.execute"; "memory.read"; "memory.write"; "agent.run"; "webhook.manage"; PLATFORM_ADMIN].
Record AuthPrincipal := MkPrincipal { pr_user_id : string; pr_auth_type : string; pr_scopes : list string; pr_key_id : option string; pr_metadata : dict json }.
Definition has_scope (scope : string) (p : AuthPrincipal) : bool :=
  (pr_auth_type p =s "jwt") || str_in scope (pr_scopes p) || str_in PLATFORM_ADMIN (pr_scopes p).

(** ** Operations on users *)
Definition authenticate_user (email password : string) : M User :=
  o ← reads (fun d => user_by_email email (au_users d));
  match o with
  | None => throw (http 401 "Invalid email or password")
  | Some u => if negb (sv_verify sv password (us_hashed_password u)) then throw (http 401 "Invalid email or password")
              else if negb (us_is_active u) then throw (http 403 "Account is disabled") else mret u
  end.
Definition register_user (email password : string) (username : option string) (fresh : UUID) (salt : N) : M User :=
  o ← reads (fun d => user_by_email email (au_users d));
  match o with
  | Some _ => throw (http 409 "Email already registered")
  | None =>
      name ← reads (fun d => resolve_username email username (au_users d));
      let u := MkUser fresh email name (sv_hash sv salt password) true false 0 in
      taken ← reads (fun d => user_by_id fresh (au_users d));
      match taken with Some _ => throw integrity_error | None => _ ← writes (with_users (fun l => l ++ [u])); mret u end
  end.
Definition claims (u : User) : dict json :=
  [("sub", JStr (uuid_to_string (us_id u))); ("email", JStr (us_email u)); ("is_admin", JBool (us_is_admin u))].
(** The token [register] and [login] answer with *)
Definition issue (event : string) (now : Z) (u : User) : M string :=
  _ ← of_result (sv_emit sv event (us_id u));
  reads (fun d => create_access_token (au_ring d) (claims u) now None (us_token_version u)).
Definition register (email password : string) (username : option string) (fresh : UUID) (salt : N) (now : Z) : M string :=
  u ← register_user email password username fresh salt; issue "auth.register.completed" now u.
Definition login (email password : string) (now : Z) : M string := u ← authenticate_user email password; issue "auth.login.completed" now u.

(** [token_version = (token_version + 1) % 32767] *)
Definition bump (u : User) : User :=
  MkUser (us_id u) (us_email u) (us_username u) (us_hashed_password u) (us_is_active u) (us_is_admin u) ((us_token_version u + 1) mod 32767).
Definition bump_user (id : UUID) : list User -> list User := map (fun u => if bool_decide (us_id u = id) then bump u else u).
(** [logout]: the user whose sessions end, if any *)
Definition logout (cu : dict json) : M (option UUID) :=
  if by_api_key cu then throw (http 401 "Bearer token required") else
  match parse_user_id (jget cu "sub") with
  | None => mret None
  | Some id =>
      o ← reads (fun d => user_by_id id (au_users d));
      match o with Some _ => _ ← writes (with_users (bump_user id)); mret (Some id) | None => mret None end
  end.
(** [admin_invalidate_sessions] *)
Definition key_scopes (cu : dict json) : list string :=
  match jget cu "api_key_scopes" with JArr l => omap (fun j => match j with JStr s => Some s | _ => None end) l | _ => [] end.
Definition admin_invalidate_sessions (cu : dict json) (user_id : string) : M UUID :=
  if (if by_api_key cu then negb (str_in PLATFORM_ADMIN (key_scopes cu)) else negb (json_truthy (jget cu "is_admin")))
  then throw (http 403 "Admin required") else
  match parse_user_id (JStr user_id) with
  | None => throw (http 400 "Invalid user_id")
  | Some id =>
      o ← reads (fun d => user_by_id id (au_users d));
      match o with None => throw (http 404 "User not found") | Some _ => _ ← writes (with_users (bump_user id)); mret id end
  end.

(** ** Operations on API keys *)
Record APIKeyCreate := MkKeyBody { kb_name : string; kb_scopes : list string; kb_expires_at : option string }.
Definition valid_body (b : APIKeyCreate) : bool :=
  truthy (kb_name b) && (String.length (kb_name b) <=? 128)%nat && match kb_scopes b with [] => false | _ => true end.

(** [create_api_key]: the owner exists, and the id and the hash are new, as the table demands. *)
Definition raw_key (token : string) : string := "aindy_" +:+ token.
Definition create_api_key (user_id name : string) (scopes : list string) (expires_at : option Z) (fresh : UUID) (token : string) (now : Z)
    : M PlatformAPIKey :=
  let h := sv_sha256 sv (raw_key token) in
  match uuid_of_string user_id with
  | None => throw (Exn "ValueError" "badly formed hexadecimal UUID string")
  | Some owner =>
      let k := MkKey fresh owner name (String.substring 0 16 (raw_key token)) h scopes true expires_at None None now in
      d ← reads (fun d => d);
      match user_by_id owner (au_users d) with
      | None => throw (Exn "IntegrityError" "insert or update violates foreign key constraint")
      | Some _ =>
          if existsb (fun k' => bool_decide (ak_id k' = fresh) || (ak_key_hash k' =s h)) (au_keys d) then throw integrity_error
          else _ ← writes (with_keys (fun l => l ++ [k])); mret k
      end
  end.
Definition parse_expiry (o : option string) : result (option Z) :=
  match str_or_none o with
  | None => Ok None
  | Some s => match fromisoformat s with
              | Some t => Ok (Some (instant (ensure_utc t)))
              | None => Raise (http 422 "expires_at must be a valid ISO 8601 datetime string")
              end
  end.
(** [POST /platform/keys]: the row and the key itself, which is answered only here *)
Definition create_key (cu : dict json) (b : APIKeyCreate) (fresh : UUID) (token : string) (now : Z) : M (PlatformAPIKey * string) :=
  if negb (valid_body b) then throw (http 422 "validation error")
  else if negb (forallb (fun s => str_in s ALL_SCOPES) (kb_scopes b)) then throw (http 422 "Unknown scopes") else
  e ← of_result (parse_expiry (kb_expires_at b));
  k ← create_api_key (status_text (jget cu "sub")) (kb_name b) (kb_scopes b) e fresh token now;
  mret (k, raw_key token).

Definition revoked (now : Z) (k : PlatformAPIKey) : PlatformAPIKey :=
  MkKey (ak_id k) (ak_user_id k) (ak_name k) (ak_key_prefix k) (ak_key_hash k) (ak_scopes k) false (ak_expires_at k) (Some now)
    (ak_last_used_at k) (ak_created_at k).
(** [revoke_api_key] *)
Definition revoke_api_key (key_id user_id : string) (now : Z) : M bool :=
  match uuid_of_string key_id, uuid_of_string user_id with
  | Some id, Some owner =>
      o ← reads (fun d => List.find (fun k => bool_decide (ak_id k = id) && bool_decide (ak_user_id k = owner)) (au_keys d));
      match o with
      | None => mret false
      | Some _ => _ ← writes (with_keys (map (fun k => if bool_decide (ak_id k = id) then revoked now k else k))); mret true
      end
  | _, _ => throw (Exn "ValueError" "badly formed hexadecimal UUID string")
  end.
Definition revoke_key (cu : dict json) (key_id : string) (now : Z) : M unit :=
  ok ← revoke_api_key key_id (status_text (jget cu "sub")) now;
  if ok : bool then mret () else throw (http 404 ("API key " +:+ py_repr key_id +:+ " not found")).

(** ** Requests *)
Inductive request :=
  | Register (email password : string) (username : option string) (fresh : UUID) (salt : N)
  | Login (email password : string)
  | Logout (cr : credentials)
  | InvalidateSessions (cr : credentials) (user_id : string)
  | CreateKey (cr : credentials) (body : APIKeyCreate) (fresh : UUID) (token : string)
  | RevokeKey (cr : credentials) (key_id : string)
  | RotateSecret (secret : string).
Inductive reply := RToken (t : string) | REnded (user : option UUID) | RKey (k : PlatformAPIKey) (raw : string) | RRevoked | RRotated (changed : bool).

Definition serve (q : request) (now : Z) : M reply :=
  match q with
  | Register email password username fresh salt => RToken <$> register email password username fresh salt now
  | Login email password => RToken <$> login email password now
  | Logout cr => cu ← get_current_user cr now; REnded <$> logout cu
  | InvalidateSessions cr user_id => cu ← get_current_user cr now; (fun id => REnded (Some id)) <$> admin_invalidate_sessions cu user_id
  | CreateKey cr body fresh token =>
      cu ← get_current_user cr now;
      (fun kr => RKey kr.1 kr.2) <$> (cu ← require_platform_admin_access cu; create_key cu body fresh token now)
  | RevokeKey cr key_id =>
      cu ← get_current_user cr now; (fun _ => RRevoked) <$> (cu ← require_platform_admin_access cu; revoke_key cu key_id now)
  | RotateSecret secret => fun d => let (r, changed) := reload_from_env secret now (au_ring d) in (with_ring r d, Ok (RRotated changed))
  end.

(** A history of requests with their replies *)
Inductive history : auth_db -> list (request * result reply) -> auth_db -> Prop :=
  | history_start d : history d [] d
  | history_next d log d1 q now : history d log d1 -> history d (log ++ [(q, (serve q now d1).2)]) (serve q now d1).1.
End auth.

(** ** Keys *)
Section keys.
Context `{!IsoCodec} (sv : auth_services) `{!AuthLaws sv}.
Implicit Types (d : auth_db).

Lemma current_user_ring cr now d : exists r, (get_current_user sv cr now d).1 = with_ring r d.
Proof.
  assert (exists r, d = with_ring r d) as [r0 Hr0] by (exists (au_ring d); by destruct d). unfold get_current_user.
  destruct (str_or_none _) as [raw|]; [|destruct (cr_bearer cr) as [t|]; [|by exists r0]].
  - exists r0. unfold resolve_platform_key_as_user, mbind, SE_bind. cbn [reads]. destruct (key_by_hash _ _) as [k|]; [|done].
    by destruct (is_valid now k).
  - unfold mbind, SE_bind, decode_access_token. destruct (verify_keys now (au_ring d)) as [r keys]. exists r.
    destruct (try_keys sv t now keys) as [p|e]; [|done]. unfold resolve_authenticated_jwt_user. destruct (parse_user_id _) as [id|]; [|done].
    unfold mbind, SE_bind. cbn [reads]. destruct (user_by_id _ _) as [u|]; [|done]. cbn [of_result]. destruct (token_version p) as [tv|]; [|done].
    destruct (negb _); [done|]. by destruct (negb _).
Qed.
Lemma admin_access_same cu d : (require_platform_admin_access cu d).1 = d.
Proof. unfold require_platform_admin_access. destruct (by_api_key cu); [done|]. by destruct (json_truthy _). Qed.

(** What a request does to the keys *)
Definition keys_effect d (q : request) (r : result reply) d' : Prop :=
  match r with
  | Ok (RKey k raw) => au_keys d' = au_keys d ++ [k] /\ ak_key_hash k = sv_sha256 sv raw /\ ak_is_active k = true /\ ak_revoked_at k = None /\
      Forall (fun k' => ak_id k' <> ak_id k /\ ak_key_hash k' <> ak_key_hash k) (au_keys d)
  | Ok RRevoked => exists cr kid id now, q = RevokeKey cr kid /\ uuid_of_string kid = Some id /\
      au_keys d' = map (fun k => if bool_decide (ak_id k = id) then revoked now k else k) (au_keys d)
  | _ => au_keys d' = au_keys d
  end.

Lemma create_key_effect cu b fresh token now d : match create_key sv cu b fresh token now d with
  | (d', Ok (k, raw)) => keys_effect d (Login "" "") (Ok (RKey k raw)) d' /\ au_users d' = au_users d
  | (d', Raise e) => d' = d
  end.
Proof.
  unfold create_key. destruct (negb (valid_body b)); [done|]. destruct (negb (forallb _ _)); [done|]. unfold mbind, SE_bind, of_result.
  destruct (parse_expiry _) as [e|]; [|done]. unfold create_api_key. destruct (uuid_of_string _) as [owner|]; [|done].
  unfold mbind, SE_bind. cbn [reads]. destruct (user_by_id _ _); [|done]. destruct (existsb _ _) eqn:Hex; [done|]. cbn. split_and!; try done.
  apply Forall_forall. intros k' Hk'. rewrite <- not_true_iff_false, existsb_exists in Hex. split; intros He; apply Hex; exists k';
    (split; [by apply list_elem_of_In|]); apply orb_true_iff; [left; by apply bool_decide_eq_true|right; by apply String.eqb_eq].
Qed.
(** What a request does to the users *)
Definition users_effect d (r : result reply) d' : Prop :=
  match r with
  | Ok (REnded (Some id)) => au_users d' = bump_user id (au_users d)
  | _ => au_users d' = au_users d \/
         exists u, au_users d' = au_users d ++ [u] /\ us_token_version u = 0 /\ user_by_id (us_id u) (au_users d) = None
  end.
Definition effects d q r d' : Prop := keys_effect d q r d' /\ users_effect d r d'.
Local Ltac quiet := split; [done|by left].

(** After the authentication of a request *)
Lemma authenticated cr now d q {A} (f : dict json -> SE auth_db A) (g : A -> reply) :
  (forall cu r, effects d q (match (f cu (with_ring r d)).2 with Ok a => Ok (g a) | Raise e => Raise e end) (f cu (with_ring r d)).1) ->
  effects d q ((cu ← get_current_user sv cr now; g <$> f cu) d).2 ((cu ← get_current_user sv cr now; g <$> f cu) d).1.
Proof.
  intros Hf. unfold fmap, SE_fmap, mbind, SE_bind. destruct (current_user_ring cr now d) as [r Hr].
  destruct (get_current_user sv cr now d) as [d1 [cu|e]]; cbn in Hr; subst d1; [|quiet]. specialize (Hf cu r).
  by destruct (f cu (with_ring r d)) as [d2 [a|e]].
Qed.
Lemma after_admin {A} cu d q r (f : dict json -> SE auth_db A) (g : A -> reply) :
  (forall cu, effects d q (match (f cu (with_ring r d)).2 with Ok a => Ok (g a) | Raise e => Raise e end) (f cu (with_ring r d)).1) ->
  let res := (cu' ← require_platform_admin_access cu; f cu') (with_ring r d) in
  effects d q (match res.2 with Ok a => Ok (g a) | Raise e => Raise e end) res.1.
Proof.
  intros Hf. unfold mbind, SE_bind. pose proof (admin_access_same cu (with_ring r d)) as Ha.
  destruct (require_platform_admin_access cu (with_ring r d)) as [d2 [cu2|e]]; cbn in Ha; subst d2; [apply Hf|quiet].
Qed.

Lemma serve_effects q now d : effects d q (serve sv q now d).2 (serve sv q now d).1.
Proof.
  destruct q as [email password username fresh salt|email password|cr|cr uid|cr b fresh token|cr kid|secret]; cbn [serve].
  - unfold fmap, SE_fmap, register, register_user, issue, mbind, SE_bind. cbn [reads]. destruct (user_by_email _ _); [quiet|].
    cbn [reads]. destruct (user_by_id fresh (au_users d)) eqn:Hf; [quiet|]. cbn. destruct (sv_emit sv _ _); cbn; (split; [done|]); right; by eexists.
  - unfold fmap, SE_fmap, login, authenticate_user, issue, mbind, SE_bind. cbn [reads]. destruct (user_by_email _ _) as [u|]; [|quiet].
    destruct (negb _); [quiet|]. destruct (negb _); [quiet|]. cbn. destruct (sv_emit sv _ _); quiet.
  - apply authenticated. intros cu r. unfold logout. destruct (by_api_key cu); [quiet|]. destruct (parse_user_id _) as [id|]; [|quiet].
    unfold mbind, SE_bind. cbn. destruct (List.find _ (au_users d)); [done|quiet].
  - apply authenticated. intros cu r. unfold admin_invalidate_sessions. destruct (if by_api_key cu then _ else _); [quiet|].
    destruct (parse_user_id _) as [id|]; [|quiet]. unfold mbind, SE_bind. cbn. destruct (List.find _ (au_users d)); [done|quiet].
  - apply authenticated. intros cu r. apply after_admin. intros cu2.
    pose proof (create_key_effect cu2 b fresh token now (with_ring r d)) as Hc. destruct (create_key sv cu2 b fresh token now (with_ring r d)) as [d3 [[k raw]|e]].
    + split; [exact (proj1 Hc)|left; exact (proj2 Hc)].
    + subst d3. quiet.
  - apply authenticated. intros cu r. apply after_admin. intros cu2. unfold revoke_key, revoke_api_key.
    destruct (uuid_of_string kid) as [id|] eqn:Hid; [|quiet]. destruct (uuid_of_string (status_text _)) as [owner|]; [|quiet].
    unfold mbind, SE_bind. cbn. destruct (List.find _ _); [|quiet]. split; [by exists cr, kid, id, now|by left].
  - destruct (reload_from_env secret now (au_ring d)) as [r b]. quiet.
Qed.

(** A key answered in the history and not revoked since *)
Definition ends (k : PlatformAPIKey) (e : request * result reply) : Prop :=
  exists cr kid, e = (RevokeKey cr kid, Ok RRevoked) /\ uuid_of_string kid = Some (ak_id k).
Definition live (log : list (request * result reply)) (raw : string) (k : PlatformAPIKey) : Prop :=
  exists l1 q l2, log = l1 ++ (q, Ok (RKey k raw)) :: l2 /\ Forall (fun e => ~ ends k e) l2.

Lemma live_snoc log e raw k : live (log ++ [e]) raw k <-> live log raw k /\ ~ ends k e \/ e.2 = Ok (RKey k raw).
Proof.
  split.
  - intros (l1&q&l2&Hl&Hf). destruct l2 as [|e2 l2] using rev_ind.
    + apply app_inj_tail in Hl as [-> ->]. by right.
    + rewrite app_comm_cons, app_assoc in Hl. apply app_inj_tail in Hl as [-> ->]. apply Forall_app in Hf as [Hf He]. left.
      split; [by exists l1, q, l2|exact (proj1 (Forall_singleton _ _) He)].
  - intros [[(l1&q&l2&->&Hf) He]|He].
    + exists l1, q, (l2 ++ [e]). split; [by rewrite <- app_assoc|]. apply Forall_app. split; [done|by apply Forall_singleton].
    + exists log, e.1, []. split; [|constructor]. destruct e as [q r]. cbn in He. by subst r.
Qed.

(** The rows that are active are the live keys. *)
Record keys_ok (log : list (request * result reply)) d : Prop := {
  ko_hashes : NoDup (map ak_key_hash (au_keys d));
  ko_active k : k ∈ au_keys d -> ak_is_active k = true -> exists raw, ak_key_hash k = sv_sha256 sv raw /\ live log raw k;
  ko_live raw k : live log raw k -> k ∈ au_keys d /\ ak_key_hash k = sv_sha256 sv raw /\ ak_is_active k = true /\ ak_revoked_at k = None
}.

Lemma keys_ok_same log e d d' : au_keys d' = au_keys d -> (forall k, ~ ends k e) -> (forall k raw, e.2 <> Ok (RKey k raw)) ->
  keys_ok log d -> keys_ok (log ++ [e]) d'.
Proof.
  intros Hk He Hr [H1 H2 H3]. split; rewrite Hk; [done|..].
  - intros k Hin Ha. destruct (H2 k Hin Ha) as (raw&Hraw&Hl). exists raw. split; [done|]. apply live_snoc. left. by split.
  - intros raw k Hl. apply live_snoc in Hl as [[Hl _]|Hl]; [by apply H3|by apply Hr in Hl].
Qed.
Lemma keys_ok_created log q k raw d d' : keys_effect d q (Ok (RKey k raw)) d' -> keys_ok log d -> keys_ok (log ++ [(q, Ok (RKey k raw))]) d'.
Proof.
  intros (Hk&Hh&Ha&Hr&Hf) [H1 H2 H3]. assert (forall k', ~ ends k' (q, Ok (RKey k raw))) as He by (by intros k' (?&?&[= _ _]&_)).
  split; rewrite Hk.
  - rewrite map_app. apply NoDup_app. split; [done|]. split; [|apply NoDup_singleton]. intros h Hin Hin'. apply list_elem_of_singleton in Hin' as ->.
    apply list_elem_of_In, in_map_iff in Hin as (k'&Hh'&Hin). rewrite Forall_forall in Hf. apply list_elem_of_In, Hf in Hin as [_ Hn]. done.
  - intros k' [Hin|Hin]%elem_of_app Hact.
    + destruct (H2 k' Hin Hact) as (raw'&Hraw'&Hl). exists raw'. split; [done|]. apply live_snoc. left. by split.
    + apply list_elem_of_singleton in Hin as ->. exists raw. split; [done|]. apply live_snoc. by right.
  - intros raw' k' Hl. apply live_snoc in Hl as [[Hl _]|[= <- <-]]; [|set_solver]. destruct (H3 raw' k' Hl) as (Hin&?&?&?). set_solver.
Qed.
Lemma keys_ok_revoked log cr kid id now d d' : uuid_of_string kid = Some id ->
  au_keys d' = map (fun k => if bool_decide (ak_id k = id) then revoked now k else k) (au_keys d) ->
  keys_ok log d -> keys_ok (log ++ [(RevokeKey cr kid, Ok RRevoked)]) d'.
Proof.
  intros Hid Hk [H1 H2 H3]. set (f := fun k => if bool_decide (ak_id k = id) then revoked now k else k) in *.
  assert (forall k, ends k (RevokeKey cr kid, Ok RRevoked) <-> ak_id k = id) as He.
  { intros k. split; [intros (?&?&[= _ <-]&Hu); congruence|intros <-; by exists cr, kid]. }
  split; rewrite Hk.
  - rewrite map_map. erewrite map_ext; [exact H1|]. intros k. unfold f. by destruct (bool_decide _).
  - intros k Hin Ha. apply list_elem_of_In, in_map_iff in Hin as (k0&Hf&Hin). unfold f in Hf. destruct (bool_decide_reflect (ak_id k0 = id)) as [Hi|Hi].
    + by subst k.
    + subst k. destruct (H2 k0) as (raw&Hraw&Hl); [by apply list_elem_of_In|done|]. exists raw. split; [done|]. apply live_snoc. left. by rewrite He.
  - intros raw k Hl. apply live_snoc in Hl as [[Hl Hn]|[=]]. rewrite He in Hn. destruct (H3 raw k Hl) as (Hin&Hrest). split; [|done].
    apply list_elem_of_In, in_map_iff. exists k. split; [unfold f; by rewrite bool_decide_eq_false_2|by apply list_elem_of_In].
Qed.

Lemma history_keys d0 log d : history sv d0 log d -> au_keys d0 = [] -> keys_ok log d.
Proof.
  intros Hh H0. induction Hh as [d|d log d1 q now Hh IH].
  - split; rewrite H0; [constructor|intros k Hk; by apply elem_of_nil in Hk|intros raw k (l1&q&l2&Hl&_); by destruct l1].
  - specialize (IH H0). pose proof (proj1 (serve_effects q now d1)) as He. destruct (serve sv q now d1) as [d2 r]. cbn [fst snd] in *.
    destruct r as [[t|u|k raw| |b]|e]; cbn in He.
    all: try (apply (keys_ok_same log _ d1 d2 He); [by intros k (?&?&[= _ _]&_)|done|done]).
    + by apply (keys_ok_created log q k raw d1 d2).
    + destruct He as (cr&kid&id&now'&->&Hid&Hk). by apply (keys_ok_revoked log cr kid id now' d1 d2).
Qed.

(** C17: Exactly the issued keys open the platform.  In every history of requests that starts
    without keys, a key authenticates if and only if it was answered to an earlier request,
    has not been revoked since and has not expired; the user, the key id and the scopes are
    those of the row it was created with. *)
Theorem api_keys_exact d0 log d raw bearer now cu : history sv d0 log d -> au_keys d0 = [] -> raw <> "" ->
  (get_current_user sv (MkCredentials (Some raw) bearer) now d).2 = Ok cu <->
  exists k, live log raw k /\ (forall e, ak_expires_at k = Some e -> now <= e) /\ cu = key_user k.
Proof.
  intros Hh H0 Hraw. destruct (history_keys d0 log d Hh H0) as [H1 H2 H3]. unfold get_current_user. cbn [cr_platform_key].
  assert (str_or_none (Some raw) = Some raw) as -> by (by destruct raw). unfold resolve_platform_key_as_user, mbind, SE_bind. cbn [reads]. split.
  - destruct (key_by_hash _ _) as [k|] eqn:Hk; [|done]. apply find_some in Hk as [Hin Hhash]. apply String.eqb_eq in Hhash.
    unfold is_valid. destruct (ak_is_active k) eqn:Ha; [|done]. destruct (H2 k) as (raw'&Hr'&Hl); [by apply list_elem_of_In|done|].
    assert (raw' = raw) as -> by (apply (sha256_inj (sv := sv)); congruence). destruct (H3 raw k Hl) as (_&_&_&->).
    cbn [andb]. destruct (ak_expires_at k) as [e|] eqn:He.
    + destruct (Z.leb_spec now e); [|done]. cbn. intros [= <-]. exists k. split_and!; try done. intros e' Hx. rewrite He in Hx. by injection Hx as <-.
    + cbn. intros [= <-]. exists k. split_and!; [done|intros e Hx; congruence|done].
  - intros (k&Hl&Hexp&->). destruct (H3 raw k Hl) as (Hin&Hhash&Ha&Hrev).
    assert (key_by_hash (sv_sha256 sv raw) (au_keys d) = Some k) as ->.
    { rewrite <- Hhash. clear H2 H3. unfold key_by_hash. induction (au_keys d) as [|k0 l IH]; [by apply elem_of_nil in Hin|]. cbn in *.
      apply NoDup_cons in H1 as [Hn H1]. destruct (String.eqb_spec (ak_key_hash k0) (ak_key_hash k)) as [Heq|Hne].
      - apply elem_of_cons in Hin as [->|Hin]; [done|]. exfalso. apply Hn. rewrite Heq. apply list_elem_of_In, in_map_iff. exists k.
        split; [done|by apply list_elem_of_In].
      - apply IH; [done|]. by apply elem_of_cons in Hin as [->|Hin]. }
    unfold is_valid. rewrite Ha, Hrev. cbn [andb]. destruct (ak_expires_at k) as [e|]; [|done]. specialize (Hexp e eq_refl).
    by rewrite (proj2 (Z.leb_le now e) Hexp).
Qed.
End keys.

(** ** Sessions *)
Section sessions.
Context `{!IsoCodec} (sv : auth_services) `{!AuthLaws sv}.
Implicit Types (d : auth_db) (log : list (request * result reply)).

Lemma user_app id l l' u : user_by_id id l = Some u -> user_by_id id (l ++ l') = Some u.
Proof.
  unfold user_by_id. induction l as [|u0 l IH]; [done|]. cbn. destruct (bool_decide (us_id u0 = id)); [done|exact IH].
Qed.
Lemma user_bump id id' l : user_by_id id (bump_user id' l) = (fun u => if bool_decide (id' = id) then bump u else u) <$> user_by_id id l.
Proof.
  unfold user_by_id, bump_user. induction l as [|u l IH]; [done|]. cbn.
  assert (us_id (if bool_decide (us_id u = id') then bump u else u) = us_id u) as -> by (by destruct (bool_decide (us_id u = id'))).
  destruct (bool_decide_reflect (us_id u = id)) as [<-|Hn]; [|exact IH]. cbn. f_equal.
  rewrite (bool_decide_ext (us_id u = id') (id' = us_id u)); [done|]. by split.
Qed.

(** The requests of a history that ended the sessions of a user *)
Definition ended (id : UUID) (e : request * result reply) : bool :=
  match e.2 with Ok (REnded (Some id')) => bool_decide (id' = id) | _ => false end.
Definition endings (id : UUID) log : nat := length (List.filter (ended id) log).
Lemma history_user d log d' id u : history sv d log d' -> user_by_id id (au_users d) = Some u ->
  user_by_id id (au_users d') = Some (Nat.iter (endings id log) bump u).
Proof.
  intros Hh Hu. induction Hh as [d|d log d1 q now Hh IH]; [done|]. specialize (IH Hu). unfold endings in *. rewrite List.filter_app, length_app. cbn [List.filter].
  pose proof (proj2 (serve_effects sv q now d1)) as He. destruct (serve sv q now d1) as [d2 r]. cbn [fst snd] in *. unfold ended at 2. cbn [snd].
  destruct r as [[t|[id'|]|k raw| |b]|e]; cbn in He.
  all: try (destruct He as [->|(u1&->&_)]; rewrite Nat.add_0_r; [done|by apply user_app]).
  rewrite He, user_bump, IH. cbn. destruct (bool_decide (id' = id)); cbn; [by rewrite Nat.add_1_r|by rewrite Nat.add_0_r].
Qed.

(** The version after some endings *)
Lemma version_iter n u : 0 <= us_token_version u < 32767 -> us_token_version (Nat.iter n bump u) = (us_token_version u + Z.of_nat n) mod 32767.
Proof.
  intros Hv. induction n as [|n IH]; [rewrite Z.add_0_r, Z.mod_small; done|].
  change (us_token_version (Nat.iter (S n) bump u)) with ((us_token_version (Nat.iter n bump u) + 1) mod 32767).
  rewrite IH, Zplus_mod_idemp_l. f_equal. lia.
Qed.
Lemma iter_bump_fields n u : us_id (Nat.iter n bump u) = us_id u /\ us_is_active (Nat.iter n bump u) = us_is_active u.
Proof. induction n as [|n IH]; [done|exact IH]. Qed.
Record users_ok d : Prop := {
  uo_ids : NoDup (map us_id (au_users d));
  uo_versions : Forall (fun u => 0 <= us_token_version u < 32767) (au_users d)
}.
Lemma user_of_id d u : users_ok d -> u ∈ au_users d -> user_by_id (us_id u) (au_users d) = Some u.
Proof.
  intros [Hn _] Hin. unfold user_by_id. induction (au_users d) as [|u0 l IH]; [by apply elem_of_nil in Hin|]. cbn in *.
  apply NoDup_cons in Hn as [Hn0 Hn]. destruct (bool_decide_reflect (us_id u0 = us_id u)) as [He|Hne].
  - apply elem_of_cons in Hin as [->|Hin]; [done|]. exfalso. apply Hn0. rewrite He. apply list_elem_of_In, in_map_iff. exists u.
    split; [done|by apply list_elem_of_In].
  - apply IH; [done|]. by apply elem_of_cons in Hin as [->|Hin].
Qed.
Lemma no_user_of_id id l : user_by_id id l = None -> id ∉ map us_id l.
Proof.
  unfold user_by_id. intros Hf Hin. apply list_elem_of_In, in_map_iff in Hin as (u&<-&Hin). pose proof (find_none _ _ Hf u Hin) as Hb.
  by apply bool_decide_eq_false in Hb.
Qed.
Lemma history_users d log d' : history sv d log d' -> users_ok d -> users_ok d'.
Proof.
  intros Hh H0. induction Hh as [d|d log d1 q now Hh IH]; [done|]. destruct (IH H0) as [Hi Hv].
  pose proof (proj2 (serve_effects sv q now d1)) as He. destruct (serve sv q now d1) as [d2 r]. cbn [fst snd] in *.
  assert ((au_users d2 = au_users d1 \/ exists u, au_users d2 = au_users d1 ++ [u] /\ us_token_version u = 0 /\ user_by_id (us_id u) (au_users d1) = None) \/
    exists id, au_users d2 = bump_user id (au_users d1)) as [[He2|(u&He2&Hz&Hf)]|[id He2]] by (destruct r as [[t|[id'|]|k raw| |b]|e]; eauto).
  - split; by rewrite He2.
  - split; rewrite He2; [rewrite map_app; apply NoDup_app|apply Forall_app; split; [done|apply Forall_singleton; lia]].
    split_and!; [done| |apply NoDup_singleton]. intros x Hx Hx'. apply list_elem_of_singleton in Hx' as ->. by apply no_user_of_id in Hf.
  - split; rewrite He2; unfold bump_user.
    + rewrite map_map. erewrite map_ext; [exact Hi|]. intros u. by destruct (bool_decide (us_id u = id)).
    + apply Forall_map. eapply Forall_impl; [exact Hv|]. cbn. intros u Hu. destruct (bool_decide (us_id u = id)); [|done]. cbn. apply Z.mod_pos_bound. lia.
Qed.

Lemma version_same v v' n : 0 <= v < 32767 -> v' = (v + Z.of_nat n) mod 32767 -> (v =? v') = (Z.of_nat n mod 32767 =? 0).
Proof.
  intros Hv ->. pose proof (Z.div_mod (v + Z.of_nat n) 32767). pose proof (Z.mod_pos_bound (v + Z.of_nat n) 32767).
  pose proof (Z.div_mod (Z.of_nat n) 32767). pose proof (Z.mod_pos_bound (Z.of_nat n) 32767).
  destruct (Z.eqb_spec v ((v + Z.of_nat n) mod 32767)), (Z.eqb_spec (Z.of_nat n mod 32767) 0); nia.
Qed.

(** A token under a list of keys *)
Lemma try_issued p k now keys : json_wf (JObj p) -> try_keys sv (sv_encode sv p k) now keys =
  if str_in k keys && negb (expired p now) then Ok p else Raise (http 401 "Invalid or expired token").
Proof.
  intros Hwf. induction keys as [|k' keys IH]; [done|]. cbn [try_keys]. unfold str_in in *. cbn [existsb]. destruct (String.eqb_spec k k') as [<-|Hne].
  - rewrite decode_same by done. destruct (expired p now); cbn [negb orb andb]; [|done]. rewrite IH. cbn [negb]. by rewrite andb_false_r.
  - by rewrite decode_other.
Qed.

(** The claims of a token of [login] *)
Definition session_claims (u : User) (now : Z) : dict json :=
  dset (dset (claims u) "tv" (JInt (us_token_version u))) "exp" (JInt (seconds_of (now + 86400000000))).
Lemma login_token email password now d d' t : serve sv (Login email password) now d = (d', Ok (RToken t)) ->
  exists u, user_by_email email (au_users d) = Some u /\ us_is_active u = true /\ d' = d /\ t = sv_encode sv (session_claims u now) (kr_active (au_ring d)).
Proof.
  cbn [serve]. unfold fmap, SE_fmap, login, authenticate_user, issue, mbind, SE_bind. cbn [reads]. destruct (user_by_email _ _) as [u|]; [|done].
  destruct (negb _); [done|]. destruct (us_is_active u) eqn:Ha; [|done]. cbn. destruct (sv_emit sv _ _); [|done]. intros [= <- <-]. by exists u.
Qed.
Lemma session_claims_spec u now : jget (session_claims u now) "sub" = JStr (uuid_to_string (us_id u)) /\
  token_version (session_claims u now) = Ok (us_token_version u) /\
  forall now', expired (session_claims u now) now' = (seconds_of (now + 86400000000) <? seconds_of now').
Proof.
  assert (jget (session_claims u now) "exp" = JInt (seconds_of (now + 86400000000))) as He by (unfold session_claims, jget; by rewrite dget_dset_eq).
  split; [done|]. split.
  - unfold token_version, session_claims. rewrite dget_dset_ne by done. by rewrite dget_dset_eq.
  - intros now'. unfold expired. by rewrite He.
Qed.

Lemma session_claims_wf u now : json_wf (JObj (session_claims u now)).
Proof. apply json_wf_obj. split; [|by repeat constructor]. unfold dict_wf. cbn. by_evaluation. Qed.

(** C18: A session lasts until it is ended.  The token of a login is accepted, at any later
    point of any history, if and only if the key it was signed with is the active one or
    within its grace period, it is at most a day old (to the second), and the number of
    logouts and invalidations of the user since is a multiple of 32767; in particular the
    first 32766 of them end it.  The request then acts for the user of the login, with the
    rights of the user's row and not those of the token. *)
Theorem session_exact d0 log1 d1 email password t0 d2 t log2 d now cu :
  history sv d0 log1 d1 -> au_users d0 = [] -> serve sv (Login email password) t0 d1 = (d2, Ok (RToken t)) -> history sv d2 log2 d ->
  (forall u, u ∈ au_users d1 -> (uuid_int (us_id u) < 2 ^ 128)%N) ->
  exists u, user_by_email email (au_users d1) = Some u /\
    ((get_current_user sv (MkCredentials None (Some t)) now d).2 = Ok cu <->
     kr_active (au_ring d1) ∈ (verify_keys now (au_ring d)).2 /\ seconds_of now <= seconds_of (t0 + 86400000000) /\
     Z.of_nat (endings (us_id u) log2) mod 32767 = 0 /\
     exists u', user_by_id (us_id u) (au_users d) = Some u' /\ cu = jwt_user (session_claims u t0) u').
Proof.
  intros Hh1 H0 Hl Hh2 Hids. destruct (login_token _ _ _ _ _ _ Hl) as (u&Hu&Ha&->&->). exists u. split; [done|].
  pose proof Hu as Hu'. apply find_some in Hu' as [Hin _]. apply list_elem_of_In in Hin. pose proof (Hids u Hin) as Hint.
  assert (users_ok d1) as Hok by (apply (history_users d0 log1 d1 Hh1); split; rewrite H0; constructor).
  pose proof (user_of_id d1 u Hok Hin) as Hid. pose proof (proj1 (Forall_forall _ _) (uo_versions d1 Hok) u Hin) as Hv. cbn in Hv.
  pose proof (history_user d1 log2 d (us_id u) u Hh2 Hid) as Hrow.
  set (n := endings (us_id u) log2) in *. set (u' := Nat.iter n bump u) in *. destruct (iter_bump_fields n u) as [Hi Hact].
  pose proof (version_iter n u Hv) as Hver. fold u' in Hi, Hact, Hver. destruct (session_claims_spec u t0) as (Hsub&Htv&Hexp).
  unfold get_current_user. cbn [cr_platform_key cr_bearer str_or_none]. unfold mbind, SE_bind, decode_access_token.
  destruct (verify_keys now (au_ring d)) as [r keys]. rewrite try_issued, Hexp by apply session_claims_wf. cbn [snd].
  destruct (str_in (kr_active (au_ring d1)) keys) eqn:Hk; cbn [andb].
  2:{ split; [done|]. intros (Hkk&_). rewrite <- str_in_spec in Hkk. congruence. }
  destruct (Z.ltb_spec (seconds_of (t0 + 86400000000)) (seconds_of now)); cbn [negb].
  { split; [done|]. intros (_&Hle&_). lia. }
  unfold resolve_authenticated_jwt_user. rewrite Hsub. unfold parse_user_id. rewrite (proj2 (truthy_true _) (uuid_to_string_nonempty _)), uuid_roundtrip by done.
  unfold mbind, SE_bind. cbn [reads with_ring au_users]. rewrite Hrow, Htv. cbn [of_result]. rewrite Hact, Ha. cbn [negb].
  apply str_in_spec in Hk. rewrite (version_same _ _ n Hv Hver). destruct (Z.eqb_spec (Z.of_nat n mod 32767) 0); cbn [negb].
  - cbn. split; [intros [= <-]; split_and!; try done; by exists u'|]. intros (_&_&_&u2&Hu2&->). by simplify_eq.
  - split; [done|]. by intros (_&_&?&_).
Qed.
End sessions.

(** ** Usernames *)
Lemma candidate_inj base i j : 1 <= i -> 1 <= j -> candidate base i = candidate base j -> i = j.
Proof.
  assert (forall n, base <> base +:+ "_" +:+ Z_to_string n) as Hlen.
  { intros n He. apply (f_equal String.length) in He. rewrite !str_length_app in He. change (String.length "_") with 1%nat in He. lia. }
  intros Hi Hj. unfold candidate. destruct (Z.eqb_spec i 1), (Z.eqb_spec j 1); intros He.
  - congruence.
  - by apply Hlen in He.
  - symmetry in He. by apply Hlen in He.
  - apply (inj (String.app base)), (inj (String.app "_")) in He. apply (f_equal Z_of_string) in He. rewrite !Z_of_to_string in He. congruence.
Qed.
Lemma name_taken_elem n l : name_taken n l = true -> n ∈ omap us_username l.
Proof.
  unfold name_taken. intros (u&Hin&Hu)%existsb_exists. apply list_elem_of_omap. exists u. split; [by apply list_elem_of_In|].
  destruct (us_username u) as [m|]; [|done]. apply String.eqb_eq in Hu. congruence.
Qed.
Lemma free_name_none fuel base i l : 1 <= i -> free_name fuel base i l = None ->
  exists names, NoDup names /\ length names = fuel /\ (forall n, n ∈ names -> n ∈ omap us_username l /\ exists j, i <= j /\ n = candidate base j).
Proof.
  revert i. induction fuel as [|fuel IH]; intros i Hi Hn; [exists []; split_and!; [constructor|done|intros n Hin; by apply elem_of_nil in Hin]|].
  cbn in Hn. destruct (name_taken (candidate base i) l) eqn:Ht; [|done]. destruct (IH (i + 1) ltac:(lia) Hn) as (names&H1&H2&H3).
  exists (candidate base i :: names). split_and!.
  - constructor; [|done]. intros Hin. destruct (H3 _ Hin) as (_&j&Hj&He). apply candidate_inj in He; lia.
  - cbn. by rewrite H2.
  - intros n Hin. apply elem_of_cons in Hin as [->|Hin]; [split; [by apply name_taken_elem|by exists i]|].
    destruct (H3 n Hin) as (Hm&j&Hj&->). split; [done|]. exists j. split; [lia|done].
Qed.
Lemma free_name_free fuel base i l n : free_name fuel base i l = Some n -> name_taken n l = false.
Proof.
  revert i. induction fuel as [|fuel IH]; intros i; [done|]. cbn. destruct (name_taken (candidate base i) l) eqn:Ht; [apply IH|]. by intros [= <-].
Qed.
(** The search for a username ends, with one that is not taken. *)
Lemma resolve_username_free email username l : exists n, resolve_username email username l = Some n /\ name_taken n l = false.
Proof.
  unfold resolve_username. destruct (free_name _ _ _ _) as [n|] eqn:Hn; [exists n; split; [done|by eapply free_name_free]|].
  apply free_name_none in Hn as (names&H1&H2&H3); [|lia]. exfalso.
  assert (length names <= length (omap us_username l))%nat as Hle by (apply submseteq_length, NoDup_submseteq; [done|]; intros n Hin; by apply H3).
  assert (length (omap us_username l) <= length l)%nat by (clear; induction l as [|u l IH]; [done|]; cbn; destruct (us_username u); cbn; lia). lia.
Qed.

(** ** A key with any scope is a key with every scope *)
Lemma key_authenticates `{!IsoCodec} sv raw bearer now d k : raw <> "" -> key_by_hash (sv_sha256 sv raw) (au_keys d) = Some k -> is_valid now k = true ->
  get_current_user sv (MkCredentials (Some raw) bearer) now d = (d, Ok (key_user k)).
Proof.
  intros Hr Hk Hv. unfold get_current_user. cbn [cr_platform_key]. assert (str_or_none (Some raw) = Some raw) as -> by (by destruct raw).
  unfold resolve_platform_key_as_user, mbind, SE_bind. cbn [reads]. by rewrite Hk, Hv.
Qed.
Lemma key_by_hash_new h k l : Forall (fun k' => ak_key_hash k' <> h) l -> ak_key_hash k = h -> key_by_hash h (l ++ [k]) = Some k.
Proof.
  intros Hl <-. unfold key_by_hash. induction Hl as [|k' l Hk' Hl IH]; cbn; [by rewrite String.eqb_refl|]. by rewrite (proj2 (String.eqb_neq _ _) Hk').
Qed.

(** C36: The scopes of a key do not limit it.  Any valid key, whatever its scopes, passes the
    check for platform administrators and can create a key with the scope platform.admin for
    the same user; with that key the sessions of every user can be ended. *)
Theorem scoped_key_escalates `{!IsoCodec} sv d raw k now name fresh token victim :
  raw <> "" -> key_by_hash (sv_sha256 sv raw) (au_keys d) = Some k -> is_valid now k = true ->
  has_scope PLATFORM_ADMIN (MkPrincipal (uuid_to_string (ak_user_id k)) "api_key" (ak_scopes k) (Some (uuid_to_string (ak_id k))) [("key_name", JStr (ak_name k)); ("key_prefix", JStr (ak_key_prefix k))]) = false ->
  is_Some (user_by_id (ak_user_id k) (au_users d)) -> is_Some (user_by_id victim (au_users d)) ->
  (uuid_int (ak_user_id k) < 2 ^ 128)%N -> (uuid_int victim < 2 ^ 128)%N -> truthy name = true -> (String.length name <= 128)%nat ->
  Forall (fun k' => ak_id k' <> fresh /\ ak_key_hash k' <> sv_sha256 sv (raw_key token)) (au_keys d) ->
  let (d1, r1) := serve sv (CreateKey (MkCredentials (Some raw) None) (MkKeyBody name [PLATFORM_ADMIN] None) fresh token) now d in
  (exists k', r1 = Ok (RKey k' (raw_key token)) /\ ak_user_id k' = ak_user_id k) /\
  serve sv (InvalidateSessions (MkCredentials (Some (raw_key token)) None) (uuid_to_string victim)) now d1
    = (with_users (bump_user victim) d1, Ok (REnded (Some victim))).
Proof.
  intros Hraw Hk Hv _ [owner Ho] [v Hvic] Hi1 Hi2 Hn Hlen Hf. cbn [serve]. unfold fmap, SE_fmap, mbind, SE_bind.
  rewrite (key_authenticates sv raw None now d k Hraw Hk Hv). cbn [require_platform_admin_access by_api_key key_user jget dget].
  change (require_platform_admin_access (key_user k) d) with (d, Ok (key_user k)). cbv iota.
  unfold create_key, valid_body. cbn [kb_name kb_scopes kb_expires_at]. rewrite Hn, (proj2 (Nat.leb_le _ _) Hlen). cbn [andb negb].
  change (forallb (fun s => str_in s ALL_SCOPES) [PLATFORM_ADMIN]) with true. cbn [negb]. unfold mbind, SE_bind, of_result. cbn [parse_expiry str_or_none].
  change (status_text (jget (key_user k) "sub")) with (uuid_to_string (ak_user_id k)). unfold create_api_key. rewrite uuid_roundtrip by done.
  unfold mbind, SE_bind. cbn [reads]. rewrite Ho. assert (existsb (fun k' => bool_decide (ak_id k' = fresh) || (ak_key_hash k' =s sv_sha256 sv (raw_key token))) (au_keys d) = false) as ->.
  { apply not_true_iff_false. rewrite existsb_exists. intros (k'&Hin&Hor). apply list_elem_of_In in Hin. rewrite Forall_forall in Hf. destruct (Hf k' Hin) as [H1 H2].
    apply orb_true_iff in Hor as [Hb|Hb]; [by apply bool_decide_eq_true in Hb|by apply String.eqb_eq in Hb]. }
  set (k' := MkKey _ _ _ _ _ _ _ _ _ _ _). cbn [writes mret SE_ret fst snd]. split; [by exists k'|].
  assert (key_by_hash (sv_sha256 sv (raw_key token)) (au_keys (with_keys (fun l => l ++ [k']) d)) = Some k') as Hk'.
  { apply key_by_hash_new; [|done]. eapply Forall_impl; [exact Hf|]. by intros ? [_ ?]. }
  rewrite (key_authenticates sv (raw_key token) None now _ k' ltac:(done) Hk' eq_refl).
  unfold admin_invalidate_sessions. change (by_api_key (key_user k')) with true. change (str_in PLATFORM_ADMIN (key_scopes (key_user k'))) with true.
  cbn [negb]. unfold parse_user_id. rewrite (proj2 (truthy_true _) (uuid_to_string_nonempty victim)), uuid_roundtrip by done.
  unfold mbind, SE_bind. cbn [reads with_keys au_users]. by rewrite Hvic.
Qed.

(** ** A concrete system: a token is the text of its key and claims *)
Definition demo_services : auth_services :=
  MkAuthServices (fun _ p => p) String.eqb (fun p k => dumps (JArr [JStr k; JObj p]))
    (fun t k now => match loads t with
                    | Ok (JArr [JStr k'; JObj p]) => if (k' =s k) && negb (expired p now) then Some p else None
                    | _ => None
                    end) (fun s => s) (fun _ _ => Ok ()).
#[export] Instance demo_laws : AuthLaws demo_services.
Proof.
  assert (forall p k, json_wf (JObj p) -> loads (dumps (JArr [JStr k; JObj p])) = Ok (JArr [JStr k; JObj p])) as Hl.
  { intros p k Hp. apply loads_dumps. split; [done|]. by split. }
  split.
  - intros p k now Hp. cbn [sv_decode sv_encode demo_services]. rewrite (Hl p k Hp), String.eqb_refl. by destruct (expired p now).
  - intros p k k' now Hp Hne. cbn [sv_decode sv_encode demo_services]. rewrite (Hl p k Hp). by rewrite (proj2 (String.eqb_neq _ _) Hne).
  - intros x y Hxy. exact Hxy.
Qed.

(** An administrator registered by hand, and their key for reading flows *)
Definition demo_admin : User := MkUser (MkUUID 1) "root@example.org" (Some "root") "secret" true true 0.
Definition demo_start : auth_db := MkAuth [demo_admin] [] (new_ring "k1" None 24 0).
Definition demo_claims : string := demo_services.(sv_encode) (session_claims demo_admin 0) "k1".
Definition demo_create : request := CreateKey (MkCredentials None (Some demo_claims)) (MkKeyBody "reader" ["flow.read"] None) (MkUUID 5) "abc".
Definition demo_created : auth_db := (serve demo_services demo_create 0 demo_start).1.
Definition demo_log : list (request * result reply) := [(demo_create, (serve demo_services demo_create 0 demo_start).2)].
Lemma demo_key_history : history demo_services demo_start demo_log demo_created.
Proof. exact (history_next demo_services demo_start [] demo_start demo_create 0 (history_start demo_services demo_start)). Qed.
Definition demo_key : PlatformAPIKey := MkKey (MkUUID 5) (MkUUID 1) "reader" "aindy_abc" "aindy_abc" ["flow.read"] true None None None 0.

Lemma api_keys_exact_witness :
  (get_current_user demo_services (MkCredentials (Some "aindy_abc") None) 7 demo_created).2 = Ok (key_user demo_key).
Proof.
  apply (api_keys_exact demo_services demo_start demo_log demo_created "aindy_abc" None 7 (key_user demo_key) demo_key_history eq_refl ltac:(discriminate)).
  exists demo_key. split; [|split; [intros e He; discriminate He|reflexivity]].
  exists [], demo_create, []. split; [vm_compute; reflexivity|apply Forall_nil_2].
Defined.

Lemma scoped_key_escalates_witness :
  serve demo_services (InvalidateSessions (MkCredentials (Some "aindy_xyz") None) (uuid_to_string (MkUUID 1))) 7
    (serve demo_services (CreateKey (MkCredentials (Some "aindy_abc") None) (MkKeyBody "more" [PLATFORM_ADMIN] None) (MkUUID 6) "xyz") 7 demo_created).1 =
  (with_users (bump_user (MkUUID 1))
    (serve demo_services (CreateKey (MkCredentials (Some "aindy_abc") None) (MkKeyBody "more" [PLATFORM_ADMIN] None) (MkUUID 6) "xyz") 7 demo_created).1,
   Ok (REnded (Some (MkUUID 1)))).
Proof.
  pose proof (scoped_key_escalates demo_services demo_created "aindy_abc" demo_key 7 "more" (MkUUID 6) "xyz" (MkUUID 1)) as H.
  destruct (serve demo_services (CreateKey (MkCredentials (Some "aindy_abc") None) (MkKeyBody "more" [PLATFORM_ADMIN] None) (MkUUID 6) "xyz") 7 demo_created)
    as [d1 r1]. apply H.
  - discriminate.
  - vm_compute. reflexivity.
  - reflexivity.
  - reflexivity.
  - exists demo_admin. vm_compute. reflexivity.
  - exists demo_admin. vm_compute. reflexivity.
  - reflexivity.
  - reflexivity.
  - reflexivity.
  - cbn. lia.
  - vm_compute. apply Forall_cons. split; [split; discriminate|apply Forall_nil_2].
Defined.

(** A user who registers and logs in *)
Definition demo_empty : auth_db := MkAuth [] [] (new_ring "k1" None 24 0).
Definition demo_register : request := Register "ann@example.org" "pw" None (MkUUID 3) 0.
Definition demo_registered : auth_db := (serve demo_services demo_register 0 demo_empty).1.
Definition demo_user : User := MkUser (MkUUID 3) "ann@example.org" (Some "ann") "pw" true false 0.
Definition demo_token : string := demo_services.(sv_encode) (session_claims demo_user 0) "k1".

Lemma session_exact_witness : (get_current_user demo_services (MkCredentials None (Some demo_token)) 1000000 demo_registered).2 =
  Ok (jwt_user (session_claims demo_user 0) demo_user).
Proof.
  destruct (session_exact demo_services demo_empty [(demo_register, (serve demo_services demo_register 0 demo_empty).2)] demo_registered
    "ann@example.org" "pw" 0 demo_registered demo_token [] demo_registered 1000000 (jwt_user (session_claims demo_user 0) demo_user)) as (u&Hu&Hiff).
  - exact (history_next demo_services demo_empty [] demo_empty demo_register 0 (history_start demo_services demo_empty)).
  - reflexivity.
  - vm_compute. reflexivity.
  - exact (history_start demo_services demo_registered).
  - intros u Hu. apply list_elem_of_singleton in Hu as ->. reflexivity.
  - vm_compute in Hu. injection Hu as <-. apply Hiff. split; [apply list_elem_of_In; vm_compute; left; reflexivity|].
    split; [vm_compute; discriminate|]. split; [reflexivity|]. exists demo_user. split; [vm_compute; reflexivity|reflexivity].
Defined.
