(* ===== verification/Webhooks.v ===== *)
(** * Webhook subscriptions and their delivery ([AINDY/platform_layer/event_service.py])

    Subscriptions are kept in a dictionary of the process and in a table.  An event is
    handed to a pool of eight workers; each takes the subscriptions that match when it
    starts and posts the event to one after the other, up to three times each.  [step]
    is the interleaving of the workers with one another and with the operations on
    subscriptions: posting touches nothing that the process shares, so that it is one
    step, and the update of the counters under the lock is another one.  Each operation
    on the table is given the outcome of its transaction.  The HTTP client and the HMAC
    are parameters; metrics and logs are left out. *)
From S2P Require Import Prelude PyDatetime PyUuid Json PyEffects FlowEngine.
Local Open Scope Z_scope.

Record subscription := MkSub {
  wh_id : string; wh_event_type : string; wh_callback_url : string; wh_signed : bool; wh_secret : option string;
  wh_created_at : string; wh_created_by : option string; wh_delivery_attempts : Z; wh_delivery_successes : Z;
  wh_delivery_failures : Z; wh_last_delivered_at : option string; wh_last_status : option string
}.
(** The table *)
Record WebhookSubscription := MkWS {
  ws_id : UUID; ws_event_type : string; ws_callback_url : string; ws_secret : option string; ws_created_by : option string;
  ws_created_at : datetime; ws_is_active : bool
}.
Record wh_event := MkWhEvent {
  we_type : string; we_id : string; we_payload : dict json; we_user_id : option string; we_trace_id : option string; we_source : option string
}.
(** The session a caller passes: none, or one whose transaction succeeds or raises *)
Definition session : Type := option (result unit).

Definition MAX_ATTEMPTS : nat := 3.
Definition MAX_WORKERS : nat := 8.

(** ** Matching *)
Definition matches (pattern event_type : string) : bool :=
  if pattern =s "*" then true
  else if endswith ".*" pattern then startswith (String.substring 0 (String.length pattern - 1) pattern) event_type
  else pattern =s event_type.

(** ** Subscriptions *)
Record hub := MkHub { hb_subs : dict subscription; hb_rows : list WebhookSubscription }.
Definition ValueError (m : string) : exn := Exn "ValueError" m.
Definition is_url (url : string) : bool := truthy url && (startswith "http://" url || startswith "https://" url).
Definition new_sub (id event_type callback_url : string) (secret : option string) (created_at : string) (user_id : option string) : subscription :=
  MkSub id event_type callback_url (match secret with Some _ => true | None => false end) secret created_at user_id 0 0 0 None None.

(** [_public_meta]: without the secret *)
Definition public_meta (s : subscription) : subscription :=
  MkSub (wh_id s) (wh_event_type s) (wh_callback_url s) (wh_signed s) None (wh_created_at s) (wh_created_by s) (wh_delivery_attempts s)
    (wh_delivery_successes s) (wh_delivery_failures s) (wh_last_delivered_at s) (wh_last_status s).

Section subscriptions.
Context {iso : IsoCodec}.

Definition subscribe_webhook (event_type callback_url : string) (secret user_id : option string) (db : session) (fresh : UUID) (now : Z)
    : SE hub subscription :=
  if negb (truthy event_type) || negb (truthy (str_strip event_type)) then throw (ValueError "event_type must be a non-empty string")
  else if negb (is_url callback_url)
  then throw (ValueError ("callback_url must be an http:// or https:// URL, got " +:+ py_repr callback_url)) else
  let id := uuid_to_string fresh in
  let meta := new_sub id event_type callback_url secret (isoformat (utc_datetime now)) user_id in
  let row := MkWS fresh event_type callback_url secret (str_or_none user_id) (utc_datetime now) true in
  _ ← writes (fun h => MkHub (dset (hb_subs h) id meta) (hb_rows h));
  _ ← match db with
      | Some (Ok _) => writes (fun h => MkHub (hb_subs h) (hb_rows h ++ [row]))
      | Some (Raise _) | None => mret ()
      end;
  mret (public_meta meta).

(** [_load_subscription] and [restore_webhook_subscription] *)
Definition restore_webhook_subscription (id event_type callback_url : string) (secret user_id : option string) (created_at : string)
    : SE hub bool :=
  h ← reads (fun h => h);
  if dmem (hb_subs h) id then mret false
  else _ ← writes (fun h => MkHub (dset (hb_subs h) id (new_sub id event_type callback_url secret created_at user_id)) (hb_rows h)); mret true.

Definition deactivated (row : WebhookSubscription) : WebhookSubscription :=
  MkWS (ws_id row) (ws_event_type row) (ws_callback_url row) (ws_secret row) (ws_created_by row) (ws_created_at row) false.
(** A text that is no UUID raises inside the [try]. *)
Definition unsubscribe_webhook (id : string) (db : session) : SE hub bool :=
  h ← reads (fun h => h);
  if negb (dmem (hb_subs h) id) then mret false else
  _ ← writes (fun h => MkHub (ddel (hb_subs h) id) (hb_rows h));
  _ ← match db, uuid_of_string id with
      | Some (Ok _), Some u => writes (fun h => MkHub (hb_subs h) (update_row ws_id u deactivated (hb_rows h)))
      | _, _ => mret ()
      end;
  mret true.
(** [DELETE /platform/webhooks/{id}]: only the creator may delete. *)
Definition delete_webhook_subscription (id sub : string) (db : session) : SE hub unit :=
  o ← reads (fun h => dget (hb_subs h) id);
  match o with
  | Some s => if bool_decide (wh_created_by s = Some sub) then _ ← unsubscribe_webhook id db; mret ()
              else throw (Exn "HTTPException" ("404: Subscription " +:+ py_repr id +:+ " not found"))
  | None => throw (Exn "HTTPException" ("404: Subscription " +:+ py_repr id +:+ " not found"))
  end.
End subscriptions.

(** ** Delivery *)
Record post := MkPost { po_url : string; po_body : string; po_headers : dict string }.
Inductive action := Posted (p : post) | Slept (seconds : Z).
Record wh_services (X : Type) := MkWhServices {
  sv_urlopen : post -> X -> X * result Z;        (* the status of the response *)
  sv_hmac : string -> string -> string
}.
Arguments sv_urlopen {X}. Arguments sv_hmac {X}. Arguments MkWhServices {X}.

Section delivery.
Context {iso : IsoCodec} {X : Type} (sv : wh_services X).

Definition build_request_body (e : wh_event) (subscription_id : string) (now : Z) : string :=
  let opt o := match o with Some s => JStr s | None => JNull end in
  dumps (JObj [("event_id", JStr (we_id e)); ("event_type", JStr (we_type e)); ("timestamp", JStr (isoformat (utc_datetime now)));
    ("user_id", opt (we_user_id e)); ("trace_id", opt (we_trace_id e)); ("source", opt (we_source e)); ("payload", JObj (we_payload e));
    ("aindy_subscription_id", JStr subscription_id)]).

Definition request_headers (body : string) (secret : option string) : dict string :=
  [("Content-Type", "application/json"); ("User-Agent", "AINDY-EventDispatcher/1.0")] ++
  match str_or_none secret with Some s => [("X-AINDY-Signature", "sha256=" +:+ sv_hmac sv s body)] | None => [] end.
Definition delivered (r : result Z) : bool := match r with Ok status => (200 <=? status) && (status <? 300) | Raise _ => false end.
(** The attempts that are left, the first of them of the given number *)
Fixpoint attempts (left : nat) (attempt : Z) (p : post) (x : X) : X * (list action * bool) :=
  match left with
  | O => (x, ([], false))
  | S left' =>
      let (x1, r) := sv_urlopen sv p x in
      if delivered r then (x1, ([Posted p], true))
      else let '(x2, (l, ok)) := attempts left' (attempt + 1) p x1 in
           (x2, (Posted p :: match left' with O => [] | S _ => [Slept (2 ^ (attempt - 1))] end ++ l, ok))
  end.
Definition send_with_retry (url body : string) (secret : option string) (max_attempts : nat) (x : X) : X * (list action * bool) :=
  attempts max_attempts 1 (MkPost url body (request_headers body secret)) x.

Definition counted (ok : bool) (now : Z) (s : subscription) : subscription :=
  MkSub (wh_id s) (wh_event_type s) (wh_callback_url s) (wh_signed s) (wh_secret s) (wh_created_at s) (wh_created_by s)
    (wh_delivery_attempts s + 1) (wh_delivery_successes s + (if ok then 1 else 0)) (wh_delivery_failures s + (if ok then 0 else 1))
    (Some (isoformat (utc_datetime now))) (Some (if ok then "success" else "failed")).
(** The second half of [_deliver_one], under the lock *)
Definition settle (id : string) (ok : bool) (now : Z) (h : hub) : hub :=
  match dget (hb_subs h) id with
  | None => h
  | Some live => MkHub (dset (hb_subs h) id (counted ok now live)) (hb_rows h)
  end.
Definition send_one (s : subscription) (body : string) : X -> X * (list action * bool) :=
  send_with_retry (wh_callback_url s) body (wh_secret s) MAX_ATTEMPTS.
Definition deliver_one (s : subscription) (body : string) (now : Z) (hx : hub * X) : hub * X * list action :=
  let '(x, (l, ok)) := send_one s body hx.2 in (settle (wh_id s) ok now hx.1, x, l).

Definition matching (event_type : string) (subs : dict subscription) : list subscription :=
  List.filter (fun s => matches (wh_event_type s) event_type) (dvals subs).
(** [dispatch_webhooks], with the times of building and of recording each delivery *)
Fixpoint deliver_all (e : wh_event) (l : list subscription) (clock : nat -> Z) (hx : hub * X) : hub * X * list action :=
  match l with
  | [] => (hx, [])
  | s :: l' => let '(hx1, a) := deliver_one s (build_request_body e (wh_id s) (clock 0%nat)) (clock 1%nat) hx in
               let '(hx2, b) := deliver_all e l' (fun n => clock (2 + n)%nat) hx1 in (hx2, a ++ b)
  end.
Definition dispatch_webhooks (e : wh_event) (clock : nat -> Z) (hx : hub * X) : hub * X * list action * Z :=
  let l := matching (we_type e) (hb_subs hx.1) in (deliver_all e l clock hx, Z.of_nat (length l)).

(** ** The pool of workers

    A worker has the subscriptions that are left and, between a delivery and the update of
    its counters, the subscription and the outcome. *)
Record worker := MkWorker { wk_event : wh_event; wk_todo : list subscription; wk_sent : option (string * bool) }.
Record pool := MkPool { pl_hub : hub; pl_world : X; pl_queue : list wh_event; pl_workers : list worker }.
Definition finished (w : worker) : bool := match wk_todo w, wk_sent w with [], None => true | _, _ => false end.
Definition busy (p : pool) : nat := length (List.filter (fun w => negb (finished w)) (pl_workers p)).
Definition drained (p : pool) : Prop := pl_queue p = [] /\ Forall (fun w => finished w = true) (pl_workers p).

Inductive label :=
| LSubscribe (s : subscription)
| LUnsubscribe (id : string)
| LSubmit (e : wh_event) (queued : bool)
| LStart (i : nat) (e : wh_event) (l : list subscription)
| LSend (i : nat) (s : subscription) (body : string) (acts : list action) (ok : bool)
| LSettle (i : nat) (id : string) (ok : bool).

(** [dispatch_webhooks_async] *)
Definition dispatch_webhooks_async (e : wh_event) (p : pool) : pool * bool :=
  match hb_subs (pl_hub p) with
  | [] => (p, false)
  | _ => (MkPool (pl_hub p) (pl_world p) (pl_queue p ++ [e]) (pl_workers p), true)
  end.

Inductive step : pool -> label -> pool -> Prop :=
| step_subscribe h x q ws event_type url secret user db fresh now h' s :
    subscribe_webhook event_type url secret user db fresh now h = (h', Ok s) -> step (MkPool h x q ws) (LSubscribe s) (MkPool h' x q ws)
| step_unsubscribe h x q ws id db h' :
    unsubscribe_webhook id db h = (h', Ok true) -> step (MkPool h x q ws) (LUnsubscribe id) (MkPool h' x q ws)
| step_submit p e p' queued : dispatch_webhooks_async e p = (p', queued) -> step p (LSubmit e queued) p'
| step_start h x e q ws : (busy (MkPool h x (e :: q) ws) < MAX_WORKERS)%nat ->
    let l := matching (we_type e) (hb_subs h) in
    step (MkPool h x (e :: q) ws) (LStart (length ws) e l) (MkPool h x q (ws ++ [MkWorker e l None]))
| step_send h x q ws i e s l now x' acts ok : ws !! i = Some (MkWorker e (s :: l) None) ->
    let body := build_request_body e (wh_id s) now in
    send_one s body x = (x', (acts, ok)) ->
    step (MkPool h x q ws) (LSend i s body acts ok) (MkPool h x' q (<[i := MkWorker e l (Some (wh_id s, ok))]> ws))
| step_settle h x q ws i e l id ok now : ws !! i = Some (MkWorker e l (Some (id, ok))) ->
    step (MkPool h x q ws) (LSettle i id ok) (MkPool (settle id ok now h) x q (<[i := MkWorker e l None]> ws)).

(** Views of the labels *)
Definition submitted (log : list label) : list wh_event := omap (fun a => match a with LSubmit e true => Some e | _ => None end) log.
Definition sends (i : nat) (log : list label) : list subscription :=
  omap (fun a => match a with LSend j s _ _ _ => if decide (i = j) then Some s else None | _ => None end) log.
Definition subscribed (log : list label) : list string := omap (fun a => match a with LSubscribe s => Some (wh_id s) | _ => None end) log.
(** The outcomes of the deliveries to a subscription *)
Definition outcomes (id : string) (log : list label) : list bool :=
  omap (fun a => match a with LSend _ s _ _ ok => if wh_id s =s id then Some ok else None | _ => None end) log.
Definition count (b : bool) (l : list bool) : Z := Z.of_nat (length (List.filter (Bool.eqb b) l)).
End delivery.

(** ** One delivery *)
Section facts.
Context {iso : IsoCodec} {X : Type} (sv : wh_services X).
Implicit Types (p : pool (X := X)) (log : list label).

(** Up to three equal requests, a second and two seconds apart; the delivery fails only
    after the third. *)
Definition retried (p : post) (ok : bool) (acts : list action) : Prop :=
  ok = true /\ (acts = [Posted p] \/ acts = [Posted p; Slept 1; Posted p]) \/ acts = [Posted p; Slept 1; Posted p; Slept 2; Posted p].
Definition post_of (s : subscription) (body : string) : post := MkPost (wh_callback_url s) body (request_headers sv body (wh_secret s)).

Lemma send_retried s body x x' acts ok : send_one sv s body x = (x', (acts, ok)) -> retried (post_of s body) ok acts.
Proof.
  unfold send_one, send_with_retry, MAX_ATTEMPTS, retried. fold (post_of s body). cbn [attempts].
  destruct (sv_urlopen sv _ x) as [x1 r1]. destruct (delivered r1); [intros [= <- <- <-]; naive_solver|].
  destruct (sv_urlopen sv _ x1) as [x2 r2]. destruct (delivered r2); [intros [= <- <- <-]; naive_solver|].
  destruct (sv_urlopen sv _ x2) as [x3 r3]. destruct (delivered r3); intros [= <- <- <-]; naive_solver.
Qed.

(** ** Every submitted event is delivered once to each subscription that matched *)
Definition sent_well (ws : list worker) (a : label) : Prop :=
  match a with
  | LStart i e l => exists w, ws !! i = Some w /\ wk_event w = e
  | LSend i s body acts ok => exists w now, ws !! i = Some w /\ body = build_request_body (wk_event w) (wh_id s) now /\ retried (post_of s body) ok acts
  | _ => True
  end.
Record progress_ok log p : Prop := {
  pk_events : submitted log = (wk_event <$> pl_workers p) ++ pl_queue p;
  pk_starts i e l : LStart i e l ∈ log -> exists w, pl_workers p !! i = Some w /\ sends i log ++ wk_todo w = l;
  pk_started i w : pl_workers p !! i = Some w -> exists l, LStart i (wk_event w) l ∈ log;
  pk_later i : (length (pl_workers p) <= i)%nat -> sends i log = [];
  pk_sent : Forall (sent_well (pl_workers p)) log
}.

Lemma sent_well_more ws ws' a : (forall i w, ws !! i = Some w -> exists w', ws' !! i = Some w' /\ wk_event w' = wk_event w) ->
  sent_well ws a -> sent_well ws' a.
Proof.
  intros H. destruct a; cbn; try done.
  - intros (w&Hw&<-). destruct (H _ _ Hw) as (w'&Hw'&E). eauto.
  - intros (w&now&Hw&Hb&Hr). destruct (H _ _ Hw) as (w'&Hw'&E). exists w', now. by rewrite E.
Qed.
Lemma worker_updated (ws : list worker) i w w' : ws !! i = Some w -> wk_event w' = wk_event w ->
  forall j v, ws !! j = Some v -> exists v', <[i := w']> ws !! j = Some v' /\ wk_event v' = wk_event v.
Proof.
  intros Hi E j v Hj. destruct (decide (i = j)) as [<-|Hn].
  - exists w'. rewrite list_lookup_insert_eq by (by eapply lookup_lt_Some). split; [done|congruence].
  - exists v. by rewrite list_lookup_insert_ne.
Qed.
Lemma events_updated (ws : list worker) i w w' : ws !! i = Some w -> wk_event w' = wk_event w -> wk_event <$> <[i := w']> ws = wk_event <$> ws.
Proof. intros Hi E. rewrite list_fmap_insert, list_insert_id; [done|]. by rewrite list_lookup_fmap, Hi, E. Qed.
Lemma sends_snoc i log a : sends i (log ++ [a]) = sends i log ++ sends i [a].
Proof. unfold sends. by rewrite omap_app. Qed.
Lemma submitted_snoc log a : submitted (log ++ [a]) = submitted log ++ submitted [a].
Proof. unfold submitted. by rewrite omap_app. Qed.

(** A step that neither submits, starts nor sends *)
Lemma progress_same log a p p' : submitted [a] = [] -> (forall i, sends i [a] = []) -> (forall i e l, a <> LStart i e l) -> sent_well (pl_workers p) a ->
  wk_event <$> pl_workers p' = wk_event <$> pl_workers p -> pl_queue p' = pl_queue p ->
  (forall i w, pl_workers p !! i = Some w -> exists w', pl_workers p' !! i = Some w' /\ wk_event w' = wk_event w /\ wk_todo w' = wk_todo w) ->
  progress_ok log p -> progress_ok (log ++ [a]) p'.
Proof.
  intros H1 H2 H3 H4 He Hq Hw [K1 K2 K0 K3 K4].
  assert (length (pl_workers p') = length (pl_workers p)) as Hlen by (by rewrite <- (length_fmap wk_event), He, length_fmap).
  assert (Forall (sent_well (pl_workers p')) (log ++ [a])) as K.
  { apply Forall_app. split; [|constructor; [|constructor]]; [eapply Forall_impl; [exact K4|]|revert H4]; intros; eapply sent_well_more; try done;
    intros i w Hi; destruct (Hw i w Hi) as (w'&?&?&?); eauto. }
  split; [|intros i e l|intros i w' Hi'|intros i|done].
  - by rewrite submitted_snoc, H1, app_nil_r, K1, He, Hq.
  - intros [Hin|Hin%list_elem_of_singleton]%elem_of_app; [|by destruct (H3 i e l)]. destruct (K2 i e l Hin) as (w&Hi&Hs).
    destruct (Hw i w Hi) as (w'&Hi'&_&Ht). exists w'. by rewrite sends_snoc, H2, app_nil_r, Ht.
  - assert (is_Some (pl_workers p !! i)) as [w Hi] by (apply lookup_lt_is_Some; rewrite <- Hlen; by eapply lookup_lt_Some).
    destruct (Hw i w Hi) as (v&Hv&E&_). destruct (K0 i w Hi) as [l Hl]. exists l. apply elem_of_app. left. replace w' with v by congruence. by rewrite E.
  - rewrite Hlen. intros Hi. by rewrite sends_snoc, H2, K3.
Qed.

Lemma progress_start log h x e q ws l : progress_ok log (MkPool h x (e :: q) ws) ->
  progress_ok (log ++ [LStart (length ws) e l]) (MkPool h x q (ws ++ [MkWorker e l None])).
Proof.
  intros [K1 K2 K0 K3 K4]. cbn in *.
  assert (forall i w, ws !! i = Some w -> (ws ++ [MkWorker e l None]) !! i = Some w) as Hold by (intros; by apply lookup_app_l_Some).
  assert ((ws ++ [MkWorker e l None]) !! length ws = Some (MkWorker e l None)) as Hnew by (by apply list_lookup_middle).
  split; cbn.
  - by rewrite submitted_snoc, K1, fmap_app, app_nil_r, <- app_assoc.
  - intros i e' l' [Hin|[= -> -> ->]%list_elem_of_singleton]%elem_of_app.
    + destruct (K2 i e' l' Hin) as (w&Hi&Hs). exists w. rewrite sends_snoc, app_nil_r. eauto.
    + eexists. split; [exact Hnew|]. by rewrite sends_snoc, K3.
  - intros i w [Hi|[Hi Hw]]%lookup_app_Some; [destruct (K0 i w Hi) as [l' Hl']; exists l'; apply elem_of_app; by left|].
    apply list_lookup_singleton_Some in Hw as [Hi' <-]. exists l. apply elem_of_app. right. replace i with (length ws) by lia. by apply list_elem_of_singleton.
  - intros i. rewrite length_app. cbn. intros Hi. rewrite sends_snoc, K3 by lia. done.
  - apply Forall_app. split; [|repeat constructor; eexists; split; [exact Hnew|done]].
    eapply Forall_impl; [exact K4|]. intros a. apply sent_well_more. eauto.
Qed.
Lemma progress_send log h x x' q ws i e s l now acts ok : ws !! i = Some (MkWorker e (s :: l) None) ->
  retried (post_of s (build_request_body e (wh_id s) now)) ok acts -> progress_ok log (MkPool h x q ws) ->
  progress_ok (log ++ [LSend i s (build_request_body e (wh_id s) now) acts ok]) (MkPool h x' q (<[i := MkWorker e l (Some (wh_id s, ok))]> ws)).
Proof.
  intros Hi Hr [K1 K2 K0 K3 K4]. cbn in *. set (w' := MkWorker e l _).
  assert (<[i := w']> ws !! i = Some w') as Hi' by (apply list_lookup_insert_eq; by eapply lookup_lt_Some).
  pose proof (worker_updated ws i _ w' Hi eq_refl) as Hup. split; cbn.
  - rewrite submitted_snoc, app_nil_r, (events_updated ws i _ w' Hi eq_refl). done.
  - intros j e' l' [Hin|Hin%list_elem_of_singleton]%elem_of_app; [|done]. destruct (K2 j e' l' Hin) as (w&Hj&Hs).
    rewrite sends_snoc. cbn. destruct (decide (j = i)) as [->|Hn].
    + exists w'. split; [done|]. replace w with (MkWorker e (s :: l) None) in Hs by congruence. cbn in *. by rewrite <- app_assoc.
    + exists w. rewrite list_lookup_insert_ne by done. by rewrite app_nil_r.
  - intros j w Hj. destruct (decide (i = j)) as [<-|Hn].
    + destruct (K0 i _ Hi) as [l' Hl']. exists l'. replace w with w' by congruence. apply elem_of_app. by left.
    + rewrite list_lookup_insert_ne in Hj by done. destruct (K0 j w Hj) as [l' Hl']. exists l'. apply elem_of_app. by left.
  - intros j. rewrite length_insert. intros Hj. rewrite sends_snoc, K3 by done. cbn. destruct (decide (j = i)) as [->|]; [|done].
    apply lookup_lt_Some in Hi. lia.
  - apply Forall_app. split; [|repeat constructor; exists w', now; split_and!; done].
    eapply Forall_impl; [exact K4|]. intros a. by apply sent_well_more.
Qed.
Lemma progress_step log p a p' : step sv p a p' -> progress_ok log p -> progress_ok (log ++ [a]) p'.
Proof.
  intros Hs Hp. inversion Hs as [h x q ws ???????? s Hsub|h x q ws ??? Hu|? e ? queued Hd|h x e q ws Hb|h x q ws i e s l now x' acts ok Hi ? Hsend|h x q ws i e l id ok now Hi]; subst.
  - revert Hp. apply progress_same; try done. cbn. eauto.
  - revert Hp. apply progress_same; try done. cbn. eauto.
  - unfold dispatch_webhooks_async in Hd. destruct (hb_subs (pl_hub p)); injection Hd as <- <-; [revert Hp; apply progress_same; try done; cbn; eauto|].
    destruct Hp as [K1 K2 K0 K3 K4]. split; cbn.
    + by rewrite submitted_snoc, K1, <- app_assoc.
    + intros i e' l' [Hin|Hin%list_elem_of_singleton]%elem_of_app; [|done]. destruct (K2 i e' l' Hin) as (w&?&?). exists w. by rewrite sends_snoc, app_nil_r.
    + intros i w Hi. destruct (K0 i w Hi) as [l' Hl']. exists l'. apply elem_of_app. by left.
    + intros i Hi. by rewrite sends_snoc, K3.
    + apply Forall_app. by split; [|repeat constructor].
  - by apply progress_start.
  - eapply progress_send; try done. by eapply send_retried.
  - revert Hp. apply progress_same; try done; cbn.
    + by apply (events_updated ws i (MkWorker e l (Some (id, ok)))).
    + intros j w Hj. destruct (decide (i = j)) as [<-|Hn].
      * eexists. rewrite list_lookup_insert_eq by (by eapply lookup_lt_Some). split; [done|]. by replace w with (MkWorker e l (Some (id, ok))) by congruence.
      * exists w. by rewrite list_lookup_insert_ne.
Qed.

(** ** The work of the pool ends *)
Definition by_worker (a : label) : bool := match a with LStart _ _ _ | LSend _ _ _ _ _ | LSettle _ _ _ => true | _ => false end.
Definition work_of (w : worker) : nat := 2 * length (wk_todo w) + match wk_sent w with Some _ => 1 | None => 0 end.
Definition work p : nat := sum_list_with work_of (pl_workers p) + length (pl_queue p) * (1 + 2 * length (hb_subs (pl_hub p))).

Lemma sum_insert (f : worker -> nat) ws i w w' : ws !! i = Some w -> (sum_list_with f (<[i := w']> ws) + f w = sum_list_with f ws + f w')%nat.
Proof. revert i. induction ws as [|v ws IH]; intros [|i] Hi; try done; cbn in *; [injection Hi as ->; lia|]. rewrite <- !Nat.add_assoc. f_equal. exact (IH i Hi). Qed.
Lemma settle_length id ok now h : length (hb_subs (settle id ok now h)) = length (hb_subs h).
Proof.
  unfold settle. destruct (dget _ _) as [s|] eqn:E; [|done]. cbn. apply dget_Some_elem in E. apply (list_elem_of_fmap_2 fst) in E.
  pose proof (dset_keys_mem (hb_subs h) id (counted ok now s) E) as H. apply (f_equal length) in H. unfold dkeys in H. by rewrite !length_fmap in H.
Qed.
Lemma matching_length t subs : (length (matching t subs) <= length subs)%nat.
Proof. unfold matching. etrans; [apply List.filter_length_le|]. unfold dvals. by rewrite length_fmap. Qed.

Lemma work_decreases p a p' : step sv p a p' -> by_worker a = true -> (work p' < work p)%nat.
Proof.
  intros Hs Ha. inversion Hs as [| |? ? ? ? Hd|h x e q ws Hb|h x q ws i e s l now x' acts ok Hi ? Hsend|h x q ws i e l id ok now Hi]; subst; try done; unfold work; cbn -[Nat.mul].
  - pose proof (matching_length (we_type e) (hb_subs h)). rewrite sum_list_with_app. cbn -[Nat.mul]. fold l in H. change (work_of (MkWorker e l None)) with (2 * length l + 0)%nat. nia.
  - pose proof (sum_insert work_of ws i _ (MkWorker e l (Some (wh_id s, ok))) Hi) as H.
    change (work_of (MkWorker e (s :: l) None)) with (2 * S (length l) + 0)%nat in H. change (work_of (MkWorker e l (Some _))) with (2 * length l + 1)%nat in H. lia.
  - rewrite settle_length. pose proof (sum_insert work_of ws i _ (MkWorker e l None) Hi) as H.
    change (work_of (MkWorker e l (Some _))) with (2 * length l + 1)%nat in H. change (work_of (MkWorker e l None)) with (2 * length l + 0)%nat in H. lia.
Qed.
Lemma work_bounded p log p' : trace (step sv) p log p' -> Forall (fun a => by_worker a = true) log -> (length log <= work p)%nat.
Proof.
  induction 1 as [|p a p1 log p2 Hs _ IH]; intros Hf; cbn; [lia|]. apply Forall_cons in Hf as [Ha Hf].
  pose proof (work_decreases p a p1 Hs Ha). specialize (IH Hf). lia.
Qed.
Lemma worker_steps p i w : pl_workers p !! i = Some w -> finished w = false -> exists a p', by_worker a = true /\ step sv p a p'.
Proof.
  intros Hi Hf. destruct p as [h x q ws], w as [e todo [[id ok]|]]; cbn in *.
  - exists (LSettle i id ok). eexists. split; [done|]. by eapply (step_settle sv h x q ws i e todo id ok 0).
  - destruct todo as [|s l]; [done|]. destruct (send_one sv s (build_request_body e (wh_id s) 0) x) as [x' [acts ok]] eqn:E.
    exists (LSend i s (build_request_body e (wh_id s) 0) acts ok). eexists. split; [done|]. by eapply step_send.
Qed.
Lemma pool_steps p : drained p \/ exists a p', by_worker a = true /\ step sv p a p'.
Proof.
  destruct (decide (Forall (fun w => finished w = true) (pl_workers p))) as [Hall|Hn].
  - destruct (pl_queue p) as [|e q] eqn:Eq; [by left|]. right. destruct p as [h x q' ws]. cbn in *. subst q'. do 2 eexists. split; [|apply step_start]; [done|].
    unfold busy. cbn. assert (List.filter (fun w => negb (finished w)) ws = []) as ->; [|unfold MAX_WORKERS; cbn; lia].
    induction Hall as [|w ws Hw _ IH]; [done|]. cbn. by rewrite Hw.
  - right. apply (not_Forall_Exists _) in Hn. apply Exists_exists in Hn as (w&Hin&Hw). apply list_elem_of_lookup in Hin as [i Hi].
    apply (worker_steps p i w Hi). by apply not_true_is_false.
Qed.

(** C12: Every submitted event is delivered, in every interleaving of the eight workers with
    one another and with subscriptions being made and cancelled.  The work of the pool ends
    and is never stuck; once it is done, each event that was submitted while there were
    subscriptions has been taken up by one worker, in the order of submission, and posted in
    order and once to each subscription that matched it when the worker started.  A delivery
    is up to three equal requests to the callback URL, one and two seconds apart, signed when
    there is a secret, and it fails only after the third; its body names the event and the
    subscription. *)
Theorem webhooks_delivered p0 log p : trace (step sv) p0 log p -> pl_queue p0 = [] -> pl_workers p0 = [] ->
  (drained p \/ exists a p', by_worker a = true /\ step sv p a p') /\
  (forall log' p', trace (step sv) p log' p' -> Forall (fun a => by_worker a = true) log' -> (length log' <= work p)%nat) /\
  (drained p -> wk_event <$> pl_workers p = submitted log /\
    (forall i e, submitted log !! i = Some e -> exists l1 l2 p1, trace (step sv) p0 l1 p1 /\
       log = l1 ++ LStart i e (matching (we_type e) (hb_subs (pl_hub p1))) :: l2 /\ sends i log = matching (we_type e) (hb_subs (pl_hub p1))) /\
    (forall i s body acts ok, LSend i s body acts ok ∈ log -> exists e now, submitted log !! i = Some e /\
       body = build_request_body e (wh_id s) now /\ retried (post_of s body) ok acts)).
Proof.
  intros Ht Hq Hw. assert (progress_ok log p) as [K1 K2 K0 K3 K4].
  { apply (trace_ind_snoc (step sv) progress_ok p0 log p); [|intros; by eapply progress_step|done].
    split; rewrite ?Hq, ?Hw; try done. intros i e l Hin. inversion Hin. }
  split_and!; [apply pool_steps|intros; by eapply work_bounded|]. intros [Eq Hf]. rewrite Eq, app_nil_r in K1. split_and!; [done| |].
  - intros i e. rewrite K1, list_lookup_fmap. intros (w&Hi&->)%fmap_Some. destruct (K0 i w Hi) as [l Hl].
    destruct (K2 _ _ _ Hl) as (w'&Hi'&Hs). replace w' with w in Hs by congruence.
    pose proof (proj1 (Forall_lookup _ _) Hf i w Hi) as Hfin. cbn in Hfin. unfold finished in Hfin. destruct (wk_todo w); [|done]. rewrite app_nil_r in Hs.
    apply list_elem_of_split in Hl as (l1&l2&->). apply trace_app_inv in Ht as (p1&H1&H2). exists l1, l2, p1.
    inversion_clear H2 as [|? ? p2 ? ? Hst _]. inversion Hst; subst. done.
  - intros i s body acts ok Hin. pose proof (proj1 (Forall_forall _ _) K4 _ Hin) as (w&now&Hi&Hb&Hr). exists (wk_event w), now.
    split; [|done]. by rewrite K1, list_lookup_fmap, Hi.
Qed.

(** ** Counters *)
Definition settled (id : string) (log : list label) : list bool :=
  omap (fun a => match a with LSettle _ id' ok => if id' =s id then Some ok else None | _ => None end) log.
Definition pending (id : string) (ws : list worker) : list bool :=
  omap (fun w => match wk_sent w with Some (id', ok) => if id' =s id then Some ok else None | None => None end) ws.
Definition ids_of (w : worker) : list string := map wh_id (wk_todo w) ++ match wk_sent w with Some (id, _) => [id] | None => [] end.
Definition counts (l : list bool) (s : subscription) : Prop :=
  wh_delivery_attempts s = Z.of_nat (length l) /\ wh_delivery_successes s = count true l /\ wh_delivery_failures s = count false l.
Record counters_ok log p : Prop := {
  ck_subs k s : dget (hb_subs (pl_hub p)) k = Some s -> wh_id s = k /\ k ∈ subscribed log /\ counts (settled k log) s;
  ck_wf : dict_wf (hb_subs (pl_hub p));
  ck_workers w k : w ∈ pl_workers p -> k ∈ ids_of w -> k ∈ subscribed log;
  ck_settled k : settled k log <> [] -> k ∈ subscribed log;
  ck_pending k : outcomes k log ≡ₚ settled k log ++ pending k (pl_workers p)
}.

Lemma settled_snoc k log a : settled k (log ++ [a]) = settled k log ++ settled k [a].
Proof. unfold settled. by rewrite omap_app. Qed.
Lemma subscribed_snoc log a : subscribed (log ++ [a]) = subscribed log ++ subscribed [a].
Proof. unfold subscribed. by rewrite omap_app. Qed.
Lemma outcomes_snoc k log a : outcomes k (log ++ [a]) = outcomes k log ++ outcomes k [a].
Proof. unfold outcomes. by rewrite omap_app. Qed.
Lemma count_snoc b l ok : count b (l ++ [ok]) = count b l + (if Bool.eqb b ok then 1 else 0).
Proof. unfold count. rewrite List.filter_app, length_app. cbn. destruct (Bool.eqb b ok); cbn; lia. Qed.
#[local] Instance count_perm b : Proper (Permutation ==> eq) (count b).
Proof. intros l l' H. unfold count. induction H; cbn; repeat case_match; cbn; lia. Qed.
Lemma counts_snoc l ok now s : counts l s -> counts (l ++ [ok]) (counted ok now s).
Proof. intros (H1&H2&H3). split_and!; cbn; rewrite ?H1, ?H2, ?H3, ?count_snoc, ?length_app; cbn; destruct ok; cbn; lia. Qed.
Lemma matching_elem t subs s : dict_wf subs -> s ∈ matching t subs -> exists k, dget subs k = Some s.
Proof.
  intros Hwf Hs. unfold matching in Hs. apply list_elem_of_In, List.filter_In in Hs as [Hs _]. apply list_elem_of_In in Hs.
  apply list_elem_of_fmap in Hs as ([k s']&->&Hin). exists k. by apply dget_elem.
Qed.
Lemma pending_app k ws ws' : pending k (ws ++ ws') = pending k ws ++ pending k ws'.
Proof. unfold pending. by rewrite omap_app. Qed.
Lemma pending_update k ws i w w' : ws !! i = Some w -> exists l1 l2, pending k ws = l1 ++ pending k [w] ++ l2 /\ pending k (<[i := w']> ws) = l1 ++ pending k [w'] ++ l2.
Proof.
  intros Hi. exists (pending k (take i ws)), (pending k (drop (S i) ws)). rewrite insert_take_drop by (by eapply lookup_lt_Some).
  rewrite <- (take_drop_middle ws i w Hi) at 1. by rewrite <- !pending_app.
Qed.

Lemma subscribe_subs event_type url secret user db fresh now h h' s : subscribe_webhook event_type url secret user db fresh now h = (h', Ok s) ->
  exists meta, hb_subs h' = dset (hb_subs h) (wh_id meta) meta /\ counts [] meta /\ s = public_meta meta.
Proof.
  unfold subscribe_webhook. destruct (_ || _); [done|]. destruct (negb (is_url url)); [done|]. unfold mbind, SE_bind, writes, mret, SE_ret. intros H.
  exists (new_sub (uuid_to_string fresh) event_type url secret (isoformat (utc_datetime now)) user).
  destruct db as [[?|?]|]; injection H as <- <-; done.
Qed.
Lemma unsubscribe_subs id db h h' : unsubscribe_webhook id db h = (h', Ok true) -> hb_subs h' = ddel (hb_subs h) id.
Proof.
  unfold unsubscribe_webhook, mbind, SE_bind, reads, writes, mret, SE_ret. destruct (dmem _ _); [|done]. cbn [negb].
  destruct db as [[?|?]|], (uuid_of_string id); intros [= <-]; done.
Qed.
Lemma counters_subscribe log h h' x q ws s : hb_subs h' = dset (hb_subs h) (wh_id s) s -> counts [] s ->
  NoDup (subscribed (log ++ [LSubscribe (public_meta s)])) -> counters_ok log (MkPool h x q ws) -> counters_ok (log ++ [LSubscribe (public_meta s)]) (MkPool h' x q ws).
Proof.
  intros Hh Hc Hnd [K1 K2 K3 K4 K5]. cbn in *. rewrite subscribed_snoc in Hnd. apply NoDup_app in Hnd as (_&Hnd&_).
  assert (forall k, settled k (log ++ [LSubscribe (public_meta s)]) = settled k log) as Hs by (intros k; by rewrite settled_snoc, app_nil_r).
  split; cbn.
  - intros k s'. rewrite Hh, Hs, subscribed_snoc. destruct (decide (wh_id s = k)) as [<-|Hn].
    + rewrite dget_dset_eq. intros [= <-]. split_and!; [done|apply elem_of_app; right; by left|].
      destruct (settled (wh_id s) log) eqn:E; [done|]. exfalso. apply (Hnd (wh_id s)); [apply K4; by rewrite E|by left].
    + rewrite dget_dset_ne by done. intros H. destruct (K1 k s' H) as (?&?&?). split_and!; try done. apply elem_of_app. by left.
  - rewrite Hh. by apply dset_wf.
  - intros w k Hw Hk. rewrite subscribed_snoc. apply elem_of_app. left. by eapply K3.
  - intros k. rewrite Hs, subscribed_snoc. intros H. apply elem_of_app. left. auto.
  - intros k. rewrite Hs, outcomes_snoc, app_nil_r. apply K5.
Qed.
Lemma counters_unsubscribe log h h' x q ws id : hb_subs h' = ddel (hb_subs h) id ->
  counters_ok log (MkPool h x q ws) -> counters_ok (log ++ [LUnsubscribe id]) (MkPool h' x q ws).
Proof.
  intros Hh [K1 K2 K3 K4 K5]. cbn in *. split; cbn.
  - intros k s. rewrite Hh, settled_snoc, subscribed_snoc, !app_nil_r. destruct (decide (id = k)) as [<-|Hn]; [by rewrite dget_ddel_eq|].
    rewrite dget_ddel_ne by done. apply K1.
  - rewrite Hh. by apply ddel_wf.
  - intros w k. rewrite subscribed_snoc, app_nil_r. apply K3.
  - intros k. rewrite settled_snoc, subscribed_snoc, !app_nil_r. apply K4.
  - intros k. rewrite settled_snoc, outcomes_snoc, !app_nil_r. apply K5.
Qed.
Lemma counters_submit log p p' e b : pl_hub p' = pl_hub p -> pl_workers p' = pl_workers p -> counters_ok log p -> counters_ok (log ++ [LSubmit e b]) p'.
Proof.
  intros Hh Hw [K1 K2 K3 K4 K5]. split; rewrite ?Hh, ?Hw; try done.
  - intros k s. rewrite settled_snoc, subscribed_snoc, !app_nil_r. apply K1.
  - intros w k. rewrite subscribed_snoc, app_nil_r. apply K3.
  - intros k. rewrite settled_snoc, subscribed_snoc, !app_nil_r. apply K4.
  - intros k. rewrite settled_snoc, outcomes_snoc, !app_nil_r. apply K5.
Qed.
Lemma counters_start log h x e q q' ws i : counters_ok log (MkPool h x q ws) ->
  counters_ok (log ++ [LStart i e (matching (we_type e) (hb_subs h))]) (MkPool h x q' (ws ++ [MkWorker e (matching (we_type e) (hb_subs h)) None])).
Proof.
  intros [K1 K2 K3 K4 K5]. cbn [pl_hub pl_workers] in *. split; cbn [pl_hub pl_workers]; try done.
  - intros k s. rewrite settled_snoc, subscribed_snoc, !app_nil_r. apply K1.
  - intros w k. rewrite subscribed_snoc, app_nil_r. intros [Hw| ->%list_elem_of_singleton]%elem_of_app; [by apply K3|].
    unfold ids_of. cbn. rewrite app_nil_r. intros (s&->&Hs)%list_elem_of_fmap. apply matching_elem in Hs as [k Hk]; [|done].
    by destruct (K1 k s Hk) as (->&?&_).
  - intros k. rewrite settled_snoc, subscribed_snoc, !app_nil_r. apply K4.
  - intros k. rewrite settled_snoc, outcomes_snoc, pending_app. cbn. rewrite !app_nil_r. apply K5.
Qed.

Lemma ids_updated (ws : list worker) i w w' v k : ws !! i = Some w -> (forall k, k ∈ ids_of w' -> k ∈ ids_of w) -> v ∈ <[i := w']> ws -> k ∈ ids_of v ->
  exists u, u ∈ ws /\ k ∈ ids_of u.
Proof.
  intros Hi Hsub Hv Hk. apply list_elem_of_lookup in Hv as [j Hj]. destruct (decide (i = j)) as [<-|Hn].
  - rewrite list_lookup_insert_eq in Hj by (by eapply lookup_lt_Some). injection Hj as <-. exists w. split; [by eapply list_elem_of_lookup_2|auto].
  - rewrite list_lookup_insert_ne in Hj by done. exists v. split; [by eapply list_elem_of_lookup_2|done].
Qed.
Lemma counters_send log h x x' q ws i e s l body acts ok : ws !! i = Some (MkWorker e (s :: l) None) -> counters_ok log (MkPool h x q ws) ->
  counters_ok (log ++ [LSend i s body acts ok]) (MkPool h x' q (<[i := MkWorker e l (Some (wh_id s, ok))]> ws)).
Proof.
  intros Hi [K1 K2 K3 K4 K5]. cbn [pl_hub pl_workers] in *. split; cbn [pl_hub pl_workers]; try done.
  - intros k s'. rewrite settled_snoc, subscribed_snoc, !app_nil_r. apply K1.
  - intros v k Hv Hk. rewrite subscribed_snoc, app_nil_r.
    destruct (ids_updated ws i _ (MkWorker e l (Some (wh_id s, ok))) v k Hi ltac:(unfold ids_of; cbn; intros ?; repeat first [rewrite elem_of_app|rewrite elem_of_cons]; tauto) Hv Hk) as (u&?&?). by eapply K3.
  - intros k. rewrite settled_snoc, subscribed_snoc, !app_nil_r. apply K4.
  - intros k. rewrite settled_snoc, outcomes_snoc. destruct (pending_update k ws i _ (MkWorker e l (Some (wh_id s, ok))) Hi) as (l1&l2&E1&E2).
    rewrite E2, K5, E1. cbn. destruct (wh_id s =s k); rewrite ?app_nil_r; [|done]. rewrite <- !app_assoc. do 2 apply Permutation_app_head.
    symmetry. exact (Permutation_cons_append l2 ok).
Qed.
Lemma settle_subs id ok now h k s : dget (hb_subs (settle id ok now h)) k = Some s ->
  exists s0, dget (hb_subs h) k = Some s0 /\ s = (if id =s k then counted ok now s0 else s0).
Proof.
  unfold settle. destruct (dget (hb_subs h) id) as [s0|] eqn:E; cbn.
  - destruct (String.eqb_spec id k) as [<-|Hn]; [rewrite dget_dset_eq; intros [= <-]; eauto|]. rewrite dget_dset_ne by done. eauto.
  - intros Hk. exists s. destruct (String.eqb_spec id k) as [<-|Hn]; [congruence|done].
Qed.
Lemma settle_wf id ok now h : dict_wf (hb_subs h) -> dict_wf (hb_subs (settle id ok now h)).
Proof. unfold settle. destruct (dget _ _); [apply dset_wf|done]. Qed.
Lemma counters_settle log h x q ws i e l id ok now : ws !! i = Some (MkWorker e l (Some (id, ok))) -> counters_ok log (MkPool h x q ws) ->
  counters_ok (log ++ [LSettle i id ok]) (MkPool (settle id ok now h) x q (<[i := MkWorker e l None]> ws)).
Proof.
  intros Hi [K1 K2 K3 K4 K5]. cbn [pl_hub pl_workers] in *.
  assert (id ∈ subscribed log) as Hid by (eapply K3; [by eapply list_elem_of_lookup_2|]; unfold ids_of; cbn; apply elem_of_app; right; by left).
  assert (forall k, settled k (log ++ [LSettle i id ok]) = settled k log ++ (if id =s k then [ok] else [])) as Hs.
  { intros k. rewrite settled_snoc. cbn. by destruct (id =s k). }
  split; cbn [pl_hub pl_workers].
  - intros k s Hk. destruct (settle_subs id ok now h k s Hk) as (s0&H0&->). destruct (K1 k s0 H0) as (<-&Hin&Hc).
    rewrite Hs, subscribed_snoc, app_nil_r. destruct (id =s wh_id s0); [split_and!; try done; by apply counts_snoc|by rewrite app_nil_r].
  - by apply settle_wf.
  - intros v k Hv Hk. rewrite subscribed_snoc, app_nil_r.
    destruct (ids_updated ws i _ (MkWorker e l None) v k Hi ltac:(unfold ids_of; cbn; intros ?; repeat first [rewrite elem_of_app|rewrite elem_of_cons]; tauto) Hv Hk) as (u&?&?). by eapply K3.
  - intros k. rewrite Hs, subscribed_snoc, app_nil_r. destruct (String.eqb_spec id k) as [<-|]; [done|]. rewrite app_nil_r. apply K4.
  - intros k. rewrite Hs, outcomes_snoc. destruct (pending_update k ws i _ (MkWorker e l None) Hi) as (l1&l2&E1&E2).
    rewrite E2, K5, E1. cbn. destruct (id =s k); rewrite ?app_nil_r; [|done]. rewrite <- app_assoc. apply Permutation_app_head.
    symmetry. exact (Permutation_middle l1 l2 ok).
Qed.
Lemma counters_step log p a p' : step sv p a p' -> NoDup (subscribed (log ++ [a])) -> counters_ok log p -> counters_ok (log ++ [a]) p'.
Proof.
  intros Hs Hnd Hp. inversion Hs as [h x q ws ???????? s Hsub|h x q ws ??? Hu|? e ? queued Hd|h x e q ws Hb|h x q ws i e s l now x' acts ok Hi ? Hsend|h x q ws i e l id ok now Hi]; subst.
  - destruct (subscribe_subs _ _ _ _ _ _ _ _ _ _ Hsub) as (meta&?&?&->). by apply (counters_subscribe log h).
  - apply (counters_unsubscribe log h); [by eapply unsubscribe_subs|done].
  - revert Hp. apply counters_submit; unfold dispatch_webhooks_async in Hd; destruct (hb_subs (pl_hub p)); by injection Hd as <- <-.
  - by eapply counters_start.
  - by eapply counters_send.
  - by apply counters_settle.
Qed.

(** C22: The counters of a subscription are exact.  In every interleaving that starts without
    subscriptions and in which the generated ids differ, once the work of the pool is done the
    attempts of a live subscription are the deliveries made to it, its successes those that
    were answered with a status of 2xx, and its failures the other ones. *)
Theorem webhook_counters_exact p0 log p k s : trace (step sv) p0 log p -> hb_subs (pl_hub p0) = [] -> pl_workers p0 = [] ->
  NoDup (subscribed log) -> drained p -> dget (hb_subs (pl_hub p)) k = Some s -> counts (outcomes k log) s.
Proof.
  intros Ht H0 Hw Hnd [_ Hf] Hk. assert (counters_ok log p) as [K1 _ _ _ K5].
  { revert Hnd. apply (trace_ind_snoc (step sv) (fun log p => NoDup (subscribed log) -> counters_ok log p) p0 log p); [|intros l p1 a p2 _ IH Hs Hnd|done].
    - intros _. split; rewrite ?H0, ?Hw; try done; [constructor|intros w k' Hin; inversion Hin].
    - apply (counters_step l p1); [done..|]. apply IH. rewrite subscribed_snoc in Hnd. by apply NoDup_app in Hnd as [? _]. }
  destruct (K1 k s Hk) as (_&_&Hc). specialize (K5 k). assert (pending k (pl_workers p) = []) as Hn.
  { clear -Hf. induction Hf as [|w ws Hw _ IH]; [done|]. unfold pending in *. cbn. unfold finished in Hw. by destruct (wk_todo w), (wk_sent w). }
  rewrite Hn, app_nil_r in K5. destruct Hc as (C1&C2&C3). unfold counts. by rewrite K5.
Qed.

(** [dispatch_webhooks] in one thread is one of the runs of the pool. *)
Lemma deliver_all_run e l clock h x q ws i : ws !! i = Some (MkWorker e l None) ->
  exists log, Forall (fun a => by_worker a = true) log /\
    trace (step sv) (MkPool h x q ws) log
      (MkPool (deliver_all sv e l clock (h, x)).1.1 (deliver_all sv e l clock (h, x)).1.2 q (<[i := MkWorker e [] None]> ws)).
Proof.
  revert clock h x ws. induction l as [|s l IH]; intros clock h x ws Hi.
  - exists []. split; [constructor|]. cbn. rewrite list_insert_id by done. constructor.
  - cbn [deliver_all]. unfold deliver_one. cbn [fst snd]. set (body := build_request_body e (wh_id s) (clock 0%nat)).
    destruct (send_one sv s body x) as [x1 [acts ok]] eqn:Es. pose proof (lookup_lt_Some _ _ _ Hi) as Hlt.
    set (ws1 := <[i := MkWorker e l (Some (wh_id s, ok))]> ws). set (ws2 := <[i := MkWorker e l None]> ws1).
    assert (ws2 !! i = Some (MkWorker e l None)) as Hi2 by (apply list_lookup_insert_eq; unfold ws1; by rewrite length_insert).
    destruct (IH (fun n => clock (2 + n)%nat) (settle (wh_id s) ok (clock 1%nat) h) x1 ws2 Hi2) as (log&Hf&Ht).
    exists (LSend i s body acts ok :: LSettle i (wh_id s) ok :: log). split; [by repeat constructor|].
    apply (trace_cons _ _ _ (MkPool h x1 q ws1)); [by apply (step_send sv h x q ws i e s l (clock 0%nat))|].
    apply (trace_cons _ _ _ (MkPool (settle (wh_id s) ok (clock 1%nat) h) x1 q ws2)).
    { apply (step_settle sv h x1 q ws1 i e l). apply list_lookup_insert_eq. done. }
    destruct (deliver_all sv e l _ _) as [[h2 x2] b]. cbn in *.
    replace (<[i := MkWorker e [] None]> ws) with (<[i := MkWorker e [] None]> ws2) by (unfold ws2, ws1; by rewrite !list_insert_insert_eq). exact Ht.
Qed.
Lemma dispatch_run e clock h x : exists log, Forall (fun a => by_worker a = true) log /\
  trace (step sv) (MkPool h x [e] []) log
    (MkPool (dispatch_webhooks sv e clock (h, x)).1.1.1 (dispatch_webhooks sv e clock (h, x)).1.1.2 [] [MkWorker e [] None]).
Proof.
  unfold dispatch_webhooks. cbn [fst snd]. set (l := matching (we_type e) (hb_subs h)).
  destruct (deliver_all_run e l clock h x [] [MkWorker e l None] 0 eq_refl) as (log&Hf&Ht). exists (LStart 0 e l :: log).
  split; [by constructor|]. apply (trace_cons _ _ _ (MkPool h x [] [MkWorker e l None])); [|exact Ht].
  apply (step_start sv h x e [] []). unfold busy, MAX_WORKERS. cbn. lia.
Qed.
End facts.

(** ** In-process handlers

    A handler is named by a number; [invoke] runs it with the time limit and says how it
    ended ([_invoke_handler_with_timeout]). *)
Inductive handler_outcome := HandlerOk | HandlerTimeout | HandlerError (e : exn).
Section handlers.
Context {X : Type} (invoke : Z -> wh_event -> X -> X * handler_outcome).

Definition register_event_handler (event_type : string) (handler : Z) (hs : dict (list Z)) : result (dict (list Z)) :=
  if negb (truthy event_type) || negb (truthy (str_strip event_type)) then Raise (ValueError "event_type must be a non-empty string")
  else let l := default [] (dget hs event_type) in
       Ok (dset hs event_type (if existsb (Z.eqb handler) l then l else l ++ [handler])).
Definition handlers_of (event_type : string) (hs : dict (list Z)) : list Z :=
  flat_map snd (List.filter (fun kv => matches kv.1 event_type) hs).
(** The handlers that were called, and how many of them succeeded *)
Fixpoint run_handlers (l : list Z) (e : wh_event) (x : X) : X * (list Z * Z) :=
  match l with
  | [] => (x, ([], 0))
  | f :: l' => let (x1, o) := invoke f e x in
               let '(x2, (called, n)) := run_handlers l' e x1 in
               (x2, (f :: called, match o with HandlerOk => n + 1 | _ => n end))
  end.
Definition dispatch_internal_event_handlers (e : wh_event) (hs : dict (list Z)) (x : X) : X * (list Z * Z) :=
  run_handlers (handlers_of (we_type e) hs) e x.

(** A failing handler does not keep the others from running. *)
Lemma all_handlers_called e hs x : let '(_, (called, n)) := dispatch_internal_event_handlers e hs x in
  called = handlers_of (we_type e) hs /\ 0 <= n <= Z.of_nat (length called).
Proof.
  unfold dispatch_internal_event_handlers. generalize (handlers_of (we_type e) hs) as l. intros l. revert x.
  induction l as [|f l IH]; intros x; cbn; [done|]. destruct (invoke f e x) as [x1 o]. specialize (IH x1).
  destruct (run_handlers l e x1) as [x2 [called n]]. destruct IH as [-> Hn]. split; [done|]. cbn. destruct o; lia.
Qed.
End handlers.

(** ** A concrete run: the first request of the delivery is refused, the second accepted. *)
Definition demo_http : wh_services (list (result Z)) :=
  MkWhServices (fun _ x => match x with [] => ([], Raise (Exn "URLError" "unreachable")) | r :: x' => (x', r) end) (fun secret body => secret +:+ body).
Definition demo_event : wh_event := MkWhEvent "job.done" "e1" [] None None None.
Definition demo_hub : hub := (subscribe_webhook "job.*" "https://a" (Some "k") (Some "u") (Some (Ok ())) (MkUUID 7) 0 (MkHub [] [])).1.
Definition demo_sub : subscription := new_sub (uuid_to_string (MkUUID 7)) "job.*" "https://a" (Some "k") (isoformat (utc_datetime 0)) (Some "u").
Definition demo_start_pool : pool := MkPool (MkHub [] []) [Ok 500; Ok 200] [] [].
Definition demo_sent : list action * bool := (send_one demo_http demo_sub (build_request_body demo_event (wh_id demo_sub) 1) [Ok 500; Ok 200]).2.
Definition demo_end_pool : pool := MkPool (settle (wh_id demo_sub) true 2 demo_hub) ([] : list (result Z)) [] [MkWorker demo_event [] None].
Definition demo_trace : list label :=
  [LSubscribe (public_meta demo_sub); LSubmit demo_event true; LStart 0 demo_event [demo_sub];
   LSend 0 demo_sub (build_request_body demo_event (wh_id demo_sub) 1) demo_sent.1 true; LSettle 0 (wh_id demo_sub) true].
Lemma demo_run : trace (step demo_http) demo_start_pool demo_trace demo_end_pool.
Proof.
  apply (trace_cons _ _ _ (MkPool demo_hub [Ok 500; Ok 200] [] [])); [|].
  { exact (step_subscribe demo_http (MkHub [] []) _ [] [] "job.*" "https://a" (Some "k") (Some "u") (Some (Ok ())) (MkUUID 7) 0 demo_hub (public_meta demo_sub) eq_refl). }
  apply (trace_cons _ _ _ (MkPool demo_hub [Ok 500; Ok 200] [demo_event] [])); [apply step_submit; by vm_compute|].
  apply (trace_cons _ _ _ (MkPool demo_hub [Ok 500; Ok 200] [] [MkWorker demo_event [demo_sub] None])).
  { change [demo_sub] with (matching (we_type demo_event) (hb_subs demo_hub)). apply (step_start demo_http demo_hub _ demo_event [] []). vm_compute. lia. }
  apply (trace_cons _ _ _ (MkPool demo_hub [] [] [MkWorker demo_event [] (Some (wh_id demo_sub, true))])).
  { apply (step_send demo_http demo_hub _ [] [MkWorker demo_event [demo_sub] None] 0 demo_event demo_sub [] 1); by vm_compute. }
  apply (trace_cons _ _ _ demo_end_pool); [|constructor].
  apply (step_settle demo_http demo_hub [] [] [MkWorker demo_event [] (Some (wh_id demo_sub, true))] 0 demo_event [] (wh_id demo_sub) true 2). done.
Qed.

Lemma demo_drained : drained demo_end_pool.
Proof. split; [done|by repeat constructor]. Qed.

Lemma webhooks_delivered_witness : (wk_event <$> pl_workers demo_end_pool = submitted demo_trace) /\ sends 0 demo_trace = [demo_sub].
Proof.
  destruct (webhooks_delivered demo_http demo_start_pool demo_trace demo_end_pool demo_run eq_refl eq_refl) as (_&_&H).
  destruct (H demo_drained) as (H1&_&_). split; [exact H1|done].
Defined.
Lemma webhook_counters_exact_witness : counts [true] (counted true 2 demo_sub).
Proof.
  apply (webhook_counters_exact demo_http demo_start_pool demo_trace demo_end_pool (wh_id demo_sub) (counted true 2 demo_sub) demo_run eq_refl eq_refl);
    [apply NoDup_singleton|exact demo_drained|by vm_compute].
Defined.
