(* ===== verification/Registry.v ===== *)
(** * Nodes, flows and subscriptions registered at run time

    [AINDY/platform_layer/node_registry.py], [AINDY/runtime/flow_registry.py],
    [AINDY/platform_layer/platform_loader.py] and, for subscriptions, [Webhooks].  The
    process has the registries of nodes and flows that the engine uses and the metadata of
    those that were registered at run time; the tables keep them over restarts.  A restart
    registers the static nodes and flows and then loads the tables.  A node function is the
    data it closes over; [webhook_node] is its behaviour.  Each operation is given the
    outcome of its transaction; importing a plugin module and the HTTP client are
    parameters.  The columns [handler_config] and [definition_json] are records of the keys
    the code writes. *)
From S2P Require Import Prelude PyDatetime PyUuid Json PyEffects FlowEngine Webhooks.
Local Open Scope Z_scope.

(** ** Node functions *)
Inductive node_fn :=
| StaticNode (id : string)
| WebhookNode (name url : string) (timeout : Z) (secret : option string)
| PluginNode (module func : string).

(** A module found by the import: whether its file is under the plugin directory ([None]: it
    has no file), and its attributes with whether they are callable. *)
Record plugin_module := MkModule { pm_inside : option bool; pm_attr : string -> option bool }.

Definition VALID_STATUSES : list string := ["SUCCESS"; "RETRY"; "FAILURE"; "WAIT"].
Definition WEBHOOK_MAX_TIMEOUT : Z := 30.

Section webhook_node.
Context {X : Type} (call : post -> Z -> X -> X * result string) (hmac : string -> string -> string).

Definition webhook_request (name url : string) (secret : option string) (state context : dict json) : post :=
  let flow_name := if json_truthy (jget context "flow_name") then jget context "flow_name" else jget context "workflow_type" in
  let body := dumps (JObj [("node_name", JStr name); ("user_id", JStr (or_text (jget context "user_id") ""));
                           ("flow_name", JStr (or_text flow_name "")); ("state", JObj (ddel state "db"))]) in
  MkPost url body ([("Content-Type", "application/json"); ("User-Agent", "AINDY-NodeDispatcher/1.0")] ++
                   match str_or_none secret with Some s => [("X-AINDY-Signature", "sha256=" +:+ hmac s body)] | None => [] end).
Definition copied (response : dict json) (k : string) : dict json := match dget response k with Some v => [(k, v)] | None => [] end.
(** The check of the response; it is outside the [try]. *)
Definition check_response (response : json) : result (dict json) :=
  match response with
  | JObj d =>
      match (match dget d "status" with Some j => j | None => JStr "" end) with
      | JStr s => if str_in s VALID_STATUSES
                  then Ok ([("status", JStr s)] ++ copied d "output_patch" ++ copied d "error" ++ copied d "wait_for")
                  else Ok [("status", JStr "FAILURE"); ("error", JStr ("webhook returned invalid status " +:+ py_repr s))]
      | JArr _ | JObj _ => Raise (TypeError "unhashable type")
      | j => Ok [("status", JStr "FAILURE"); ("error", JStr ("webhook returned invalid status " +:+ status_text j))]
      end
  | _ => Raise (Exn "AttributeError" "object has no attribute 'get'")
  end.
Definition failure (e : exn) : dict json := [("status", JStr "FAILURE"); ("error", JStr ("webhook error: " +:+ exn_msg e))].
Definition webhook_node (name url : string) (timeout : Z) (secret : option string) (state context : dict json) (x : X) : X * result (dict json) :=
  let (x', r) := call (webhook_request name url secret state context) timeout x in
  match r with
  | Raise e => (x', Ok (failure e))
  | Ok raw => (x', match loads raw with Raise e => Ok (failure e) | Ok response => check_response response end)
  end.

(** A node that answers does so with one of the four statuses, and only a response that is
    no object, or whose status is an array or an object, makes it raise. *)
Lemma webhook_node_status name url timeout secret state context x :
  match (webhook_node name url timeout secret state context x).2 with
  | Ok d => exists s, dget d "status" = Some (JStr s) /\ s ∈ VALID_STATUSES
  | Raise e => exists raw response, (call (webhook_request name url secret state context) timeout x).2 = Ok raw /\ loads raw = Ok response /\
      forall d s, response = JObj d -> dget d "status" <> Some (JStr s)
  end.
Proof.
  unfold webhook_node. destruct (call _ timeout x) as [x' [raw|e]]; cbn [snd]; [|exists "FAILURE"; split; [done|by apply str_in_spec]].
  destruct (loads raw) as [response|e] eqn:El; cbn [snd]; [|exists "FAILURE"; split; [done|by apply str_in_spec]].
  assert (forall m : json, exists s, dget [("status", JStr "FAILURE"); ("error", m)] "status" = Some (JStr s) /\ s ∈ VALID_STATUSES) as Hf
    by (intros m; exists "FAILURE"; split; [done|by apply str_in_spec]).
  unfold check_response. destruct response as [| | | | |l|d]; try by (exists raw; eexists; split_and!; done).
  destruct (dget d "status") as [j|] eqn:Ed; [|apply Hf]. destruct j as [| | | |s|l|o]; try apply Hf.
  - destruct (str_in s VALID_STATUSES) eqn:Es; [|apply Hf]. exists s. split; [done|by apply str_in_spec].
  - exists raw, (JObj d). split_and!; try done. intros d' s [= <-]. congruence.
  - exists raw, (JObj d). split_and!; try done. intros d' s [= <-]. congruence.
Qed.
End webhook_node.

(** ** Tables and metadata *)
Record handler_config := MkConfig { hc_url : option string; hc_timeout_seconds : option Z; hc_handler : option string }.
Record DynamicNode := MkDN {
  dn_id : UUID; dn_name : string; dn_node_type : string; dn_handler_config : handler_config; dn_secret : option string;
  dn_created_by : option string; dn_created_at : Z; dn_updated_at : Z; dn_is_active : bool
}.
Record definition := MkDefinition { df_nodes : list string; df_edges : dict (list string); df_start : string; df_end : list string }.
Record DynamicFlow := MkDF {
  dy_id : UUID; dy_name : string; dy_definition_json : definition; dy_created_by : option string; dy_created_at : Z; dy_updated_at : Z;
  dy_is_active : bool
}.
Record node_meta := MkNodeMeta {
  nm_name : string; nm_type : string; nm_handler : string; nm_timeout_seconds : option Z; nm_signed : option bool; nm_created_at : string;
  nm_created_by : option string
}.
Record flow_meta := MkFlowMeta { fm_name : string; fm_definition : definition; fm_created_at : string; fm_created_by : option string }.

Record registry := MkReg {
  rg_nodes : dict node_fn; rg_node_meta : dict node_meta; rg_flows : dict flow; rg_flow_meta : dict flow_meta; rg_hub : hub;
  rg_node_rows : list DynamicNode; rg_flow_rows : list DynamicFlow
}.
Definition with_nodes (n : dict node_fn) (m : dict node_meta) (r : registry) : registry :=
  MkReg n m (rg_flows r) (rg_flow_meta r) (rg_hub r) (rg_node_rows r) (rg_flow_rows r).
Definition with_flows (f : dict flow) (m : dict flow_meta) (r : registry) : registry :=
  MkReg (rg_nodes r) (rg_node_meta r) f m (rg_hub r) (rg_node_rows r) (rg_flow_rows r).
Definition with_hub (h : hub) (r : registry) : registry :=
  MkReg (rg_nodes r) (rg_node_meta r) (rg_flows r) (rg_flow_meta r) h (rg_node_rows r) (rg_flow_rows r).
Definition with_node_rows (l : list DynamicNode) (r : registry) : registry :=
  MkReg (rg_nodes r) (rg_node_meta r) (rg_flows r) (rg_flow_meta r) (rg_hub r) l (rg_flow_rows r).
Definition with_flow_rows (l : list DynamicFlow) (r : registry) : registry :=
  MkReg (rg_nodes r) (rg_node_meta r) (rg_flows r) (rg_flow_meta r) (rg_hub r) (rg_node_rows r) l.
(** [try: ...; db.commit() except Exception: db.rollback()] *)
Definition committed (db : session) (f : registry -> registry) (r : registry) : registry := match db with Some (Ok _) => f r | _ => r end.

Section registry.
Context {iso : IsoCodec} (sv_import : string -> result plugin_module).

(** ** Nodes *)
Definition str_rcut (c : Ascii.ascii) (s : string) : option (string * string) :=
  match str_cut c (String.rev s) with Some (b, a) => Some (String.rev a, String.rev b) | None => None end.
Definition load_plugin_node (handler : string) : result node_fn :=
  match str_rcut ":" handler with
  | None => Raise (ValueError ("plugin handler must be 'module:function', got " +:+ py_repr handler))
  | Some (module_part, func_name) =>
      if str_contains ".." module_part || startswith "." module_part
      then Raise (ValueError ("plugin handler contains illegal path component: " +:+ py_repr handler)) else
      match sv_import module_part with
      | Raise e => if str_in (exn_class e) ["ImportError"; "ModuleNotFoundError"]
                   then Raise (ValueError ("cannot import plugin module " +:+ py_repr module_part +:+ ": " +:+ exn_msg e)) else Raise e
      | Ok m =>
          match pm_inside m with
          | Some false => Raise (ValueError ("plugin module " +:+ py_repr module_part +:+ " resolves outside the plugins directory"))
          | _ => match pm_attr m func_name with
                 | None => Raise (ValueError ("function " +:+ py_repr func_name +:+ " not found in plugin module " +:+ py_repr module_part))
                 | Some false => Raise (ValueError (module_part +:+ ":" +:+ func_name +:+ " is not callable"))
                 | Some true => Ok (PluginNode module_part func_name)
                 end
          end
      end
  end.

Definition blank (s : string) : bool := negb (truthy s) || negb (truthy (str_strip s)).
(** The checks of [register_external_node] and the function it builds, with the time limit *)
Definition build_node (name node_type handler : string) (timeout_seconds : Z) (secret : option string) : result (node_fn * Z) :=
  if blank name then Raise (ValueError "name must be a non-empty string")
  else if negb (str_in node_type ["webhook"; "plugin"]) then Raise (ValueError ("type must be 'webhook' or 'plugin', got " +:+ py_repr node_type))
  else if blank handler then Raise (ValueError "handler must be a non-empty string")
  else if node_type =s "webhook" then
    if negb (startswith "http://" handler || startswith "https://" handler)
    then Raise (ValueError ("webhook handler must be an http:// or https:// URL, got " +:+ py_repr handler))
    else let t := Z.max 1 (Z.min timeout_seconds WEBHOOK_MAX_TIMEOUT) in Ok (WebhookNode name handler t secret, t)
  else fn ← load_plugin_node handler; Ok (fn, timeout_seconds).

(** [_persist_node] *)
Definition node_config (node_type handler : string) (timeout_seconds : Z) : handler_config :=
  if node_type =s "webhook" then MkConfig (Some handler) (Some timeout_seconds) None else MkConfig None None (Some handler).
Definition persist_node (name node_type handler : string) (secret : option string) (timeout_seconds : Z) (user_id : option string)
    (fresh : UUID) (now : Z) (l : list DynamicNode) : list DynamicNode :=
  let c := node_config node_type handler timeout_seconds in
  match row_of dn_name name l with
  | Some _ => update_row dn_name name (fun n => MkDN (dn_id n) (dn_name n) node_type c secret (dn_created_by n) (dn_created_at n) now true) l
  | None => l ++ [MkDN fresh name node_type c secret (str_or_none user_id) now now true]
  end.

Definition register_external_node (name node_type handler : string) (timeout_seconds : Z) (secret user_id : option string) (overwrite : bool)
    (db : session) (fresh : UUID) (now : Z) : SE registry node_meta := fun r =>
  match build_node name node_type handler timeout_seconds secret with
  | Raise e => (r, Raise e)
  | Ok (fn, t) =>
      if dmem (rg_nodes r) name && negb overwrite
      then (r, Raise (ValueError ("node " +:+ py_repr name +:+ " already exists in NODE_REGISTRY; set overwrite=true to replace"))) else
      let web := node_type =s "webhook" in
      let meta := MkNodeMeta name node_type handler (if web then Some t else None)
                    (if web then Some (match secret with Some _ => true | None => false end) else None) (isoformat (utc_datetime now)) user_id in
      let r1 := with_nodes (dset (rg_nodes r) name fn) (dset (rg_node_meta r) name meta) r in
      (committed db (fun r => with_node_rows (persist_node name node_type handler secret t user_id fresh now (rg_node_rows r)) r) r1, Ok meta)
  end.

Definition retire_node (now : Z) (n : DynamicNode) : DynamicNode :=
  MkDN (dn_id n) (dn_name n) (dn_node_type n) (dn_handler_config n) (dn_secret n) (dn_created_by n) (dn_created_at n) now false.
Definition delete_dynamic_node (name : string) (db : session) (now : Z) : SE registry bool := fun r =>
  if negb (dmem (rg_node_meta r) name) then (r, Ok false) else
  let r1 := with_nodes (ddel (rg_nodes r) name) (ddel (rg_node_meta r) name) r in
  (committed db (fun r => with_node_rows (update_row dn_name name (retire_node now) (rg_node_rows r)) r) r1, Ok true).

(** ** Flows *)
Definition missing (l known : list string) : list string := str_sort (List.filter (fun n => negb (str_in n known)) l).
Definition complain (prefix : string) (l : list string) : list string := match l with [] => [] | _ => [prefix +:+ py_repr_list l] end.
(** The checks of [_validate] that do not look at the registry *)
Definition edge_errors (nodes : list string) (edges : dict (list string)) : list string :=
  flat_map (fun kv => complain ("edge " +:+ py_repr kv.1 +:+ " → unknown targets: ") (missing kv.2 nodes)) edges.
Definition orphans (d : definition) : list string :=
  str_sort (List.filter (fun n => negb (str_in n (df_start d :: concat (dvals (df_edges d))))) (remove_dups (df_nodes d))).
Definition shape_errors (d : definition) : list string :=
  (if str_in (df_start d) (df_nodes d) then [] else ["start node " +:+ py_repr (df_start d) +:+ " not in nodes list"]) ++
  match df_end d with
  | [] => ["end list must not be empty"]
  | _ => complain "end nodes not in nodes list: " (missing (df_end d) (df_nodes d))
  end ++
  complain "edge source nodes not in nodes list: " (missing (dkeys (df_edges d)) (df_nodes d)) ++
  edge_errors (df_nodes d) (df_edges d) ++
  complain "unreachable nodes (no inbound edge and not start): " (orphans d).
Definition validate (registered : dict node_fn) (name : string) (d : definition) : list string :=
  (if blank name then ["name must be a non-empty string"] else []) ++
  match df_nodes d with
  | [] => ["nodes list must not be empty"]
  | _ => complain "nodes not found in NODE_REGISTRY: " (missing (df_nodes d) (dkeys registered)) ++ shape_errors d
  end.

Definition flow_of (d : definition) : flow := MkFlow (df_start d) (map (fun kv => (kv.1, Targets kv.2)) (df_edges d)) (df_end d) [].
(** [_persist_flow] *)
Definition persist_flow (name : string) (d : definition) (user_id : option string) (fresh : UUID) (now : Z) (l : list DynamicFlow) : list DynamicFlow :=
  match row_of dy_name name l with
  | Some _ => update_row dy_name name (fun f => MkDF (dy_id f) (dy_name f) d (dy_created_by f) (dy_created_at f) now true) l
  | None => l ++ [MkDF fresh name d (str_or_none user_id) now now true]
  end.
Definition register_dynamic_flow (name : string) (d : definition) (user_id : option string) (overwrite : bool)
    (db : session) (fresh : UUID) (now : Z) : SE registry flow_meta := fun r =>
  match validate (rg_nodes r) name d with
  | (_ :: _) as errors => (r, Raise (ValueError (py_repr_list errors)))
  | [] =>
      if dmem (rg_flows r) name && negb overwrite
      then (r, Raise (ValueError (py_repr_list ["flow " +:+ py_repr name +:+ " already exists; set overwrite=true to replace"]))) else
      let meta := MkFlowMeta name d (isoformat (utc_datetime now)) user_id in
      let r1 := with_flows (dset (rg_flows r) name (flow_of d)) (dset (rg_flow_meta r) name meta) r in
      (committed db (fun r => with_flow_rows (persist_flow name d user_id fresh now (rg_flow_rows r)) r) r1, Ok meta)
  end.
Definition retire_flow (now : Z) (f : DynamicFlow) : DynamicFlow :=
  MkDF (dy_id f) (dy_name f) (dy_definition_json f) (dy_created_by f) (dy_created_at f) now false.
Definition delete_dynamic_flow (name : string) (db : session) (now : Z) : SE registry bool := fun r =>
  if negb (dmem (rg_flow_meta r) name) then (r, Ok false) else
  let r1 := with_flows (ddel (rg_flows r) name) (ddel (rg_flow_meta r) name) r in
  (committed db (fun r => with_flow_rows (update_row dy_name name (retire_flow now) (rg_flow_rows r)) r) r1, Ok true).

(** ** Loading the tables at start-up *)
Definition row_handler (row : DynamicNode) : string * Z :=
  let c := dn_handler_config row in
  if dn_node_type row =s "webhook" then (default "" (hc_url c), default 10 (hc_timeout_seconds c)) else (default "" (hc_handler c), 10).
(** The body of the loop of [_load_nodes]: whether the row was loaded *)
Definition load_node (now : Z) (row : DynamicNode) (r : registry) : registry * bool :=
  if dmem (rg_nodes r) (dn_name row) then (r, false) else
  let (handler, timeout) := row_handler row in
  match register_external_node (dn_name row) (dn_node_type row) handler timeout (dn_secret row) (dn_created_by row) false None (dn_id row) now r with
  | (r', Ok _) => (r', true)
  | (r', Raise _) => (r', false)
  end.
Definition load_flow (now : Z) (row : DynamicFlow) (r : registry) : registry * bool :=
  if dmem (rg_flows r) (dy_name row) then (r, false) else
  match register_dynamic_flow (dy_name row) (dy_definition_json row) (dy_created_by row) false None (dy_id row) now r with
  | (r', Ok _) => (r', true)
  | (r', Raise _) => (r', false)
  end.
Definition load_webhook (row : WebhookSubscription) (r : registry) : registry * bool :=
  let id := uuid_to_string (ws_id row) in
  if dmem (hb_subs (rg_hub r)) id then (r, false) else
  match restore_webhook_subscription id (ws_event_type row) (ws_callback_url row) (ws_secret row) (ws_created_by row)
          (isoformat (ws_created_at row)) (rg_hub r) with
  | (h, Ok _) => (with_hub h r, true)
  | (h, Raise _) => (with_hub h r, false)
  end.
(** One of the three loops, with the numbers of rows loaded and skipped *)
Fixpoint load_rows {R} (load : R -> registry -> registry * bool) (rows : list R) (r : registry) : registry * (Z * Z) :=
  match rows with
  | [] => (r, (0, 0))
  | row :: rows' => let (r1, ok) := load row r in
                    let '(r2, (n, m)) := load_rows load rows' r1 in (r2, if ok : bool then (n + 1, m) else (n, m + 1))
  end.
(** A query that raises leaves its registry as it is. *)
Definition load_query {R} (load : R -> registry -> registry * bool) (q : result (list R)) (r : registry) : registry * (Z * Z) :=
  match q with Ok rows => load_rows load rows r | Raise _ => (r, (0, 0)) end.
Definition load_dynamic_registry (nodes : result (list DynamicNode)) (flows : result (list DynamicFlow)) (webhooks : result (list WebhookSubscription))
    (now : Z) (r : registry) : registry * list (Z * Z) :=
  let (r1, n) := load_query (load_node now) nodes r in
  let (r2, f) := load_query (load_flow now) flows r1 in
  let (r3, w) := load_query load_webhook webhooks r2 in (r3, [n; f; w]).

(** [verify_restore_completeness]: for flows, nodes and webhooks the active rows and the live
    registrations, and whether all agree *)
Definition verify_restore_completeness (r : registry) : list (nat * nat) * bool :=
  let counts := [(length (List.filter dy_is_active (rg_flow_rows r)), length (rg_flow_meta r));
                 (length (List.filter dn_is_active (rg_node_rows r)), length (rg_node_meta r));
                 (length (List.filter ws_is_active (hb_rows (rg_hub r))), length (hb_subs (rg_hub r)))] in
  (counts, forallb (fun c => (c.2 =? c.1)%nat) counts).

(** ** The life of an installation *)
Inductive operation :=
| RegisterNode (name node_type handler : string) (timeout_seconds : Z) (secret user_id : option string) (overwrite : bool)
| DeleteNode (name : string)
| RegisterFlow (name : string) (d : definition) (user_id : option string) (overwrite : bool)
| DeleteFlow (name : string)
| Subscribe (event_type callback_url : string) (secret user_id : option string)
| Unsubscribe (id user_id : string).
Definition on_hub {A} (m : SE hub A) : SE registry A := fun r => let (h, a) := m (rg_hub r) in (with_hub h r, a).
Definition perform (op : operation) (db : session) (fresh : UUID) (now : Z) : SE registry unit :=
  match op with
  | RegisterNode name node_type handler t secret user overwrite =>
      _ ← register_external_node name node_type handler t secret user overwrite db fresh now; mret ()
  | DeleteNode name => _ ← delete_dynamic_node name db now; mret ()
  | RegisterFlow name d user overwrite => _ ← register_dynamic_flow name d user overwrite db fresh now; mret ()
  | DeleteFlow name => _ ← delete_dynamic_flow name db now; mret ()
  | Subscribe event_type url secret user => _ ← on_hub (subscribe_webhook event_type url secret user db fresh now); mret ()
  | Unsubscribe id user => on_hub (delete_webhook_subscription id user db)
  end.

(** The static nodes and flows of a process that starts over the tables of [r] *)
Definition reboot (sn : dict node_fn) (sf : dict flow) (r : registry) : registry :=
  MkReg sn [] sf [] (MkHub [] (hb_rows (rg_hub r))) (rg_node_rows r) (rg_flow_rows r).
End registry.
