(* ===== verification/RegistryFacts.v ===== *)
(** * What a restart keeps: theorems about [Registry]

    [mirrors] says that a dictionary of the process agrees with the active rows of a table;
    every operation whose transaction succeeds keeps it, and loading the table
    establishes it again. *)
From S2P Require Import Prelude PyDatetime PyUuid Json PyEffects FlowEngine Webhooks Registry.
Local Open Scope Z_scope.

(** ** A dictionary that mirrors a table *)
Section mirrors.
Context {R V : Type} (key : R -> string) (act : R -> bool) (rel : R -> V -> Prop).
Implicit Types (rows : list R) (base d : dict V).

Definition mirrors rows base d : Prop := forall k,
  match live_row key act k rows with Some row => exists v, dget d k = Some v /\ rel row v | None => dget d k = dget base k end.

Lemma mirrors_set rows rows' base d k v row : mirrors rows base d ->
  (forall k', live_row key act k' rows' = if bool_decide (k = k') then Some row else live_row key act k' rows) -> rel row v -> mirrors rows' base (dset d k v).
Proof.
  intros Hm Hl Hv k'. rewrite Hl. case_bool_decide as Hk; [subst k'; exists v; by rewrite dget_dset_eq|]. rewrite dget_dset_ne by done. apply Hm.
Qed.
Lemma mirrors_del rows rows' base d k : mirrors rows base d ->
  (forall k', live_row key act k' rows' = if bool_decide (k = k') then None else live_row key act k' rows) -> dget base k = None -> mirrors rows' base (ddel d k).
Proof.
  intros Hm Hl Hb k'. rewrite Hl. case_bool_decide as Hk; [subst k'; by rewrite dget_ddel_eq|]. rewrite dget_ddel_ne by done. apply Hm.
Qed.
Lemma mirrors_load rows l base val : NoDup (map key rows) -> l ≡ₚ List.filter act rows -> (forall row, row ∈ l -> rel row (val row)) ->
  mirrors rows base (foldl (fun d row => dset d (key row) (val row)) base l).
Proof.
  intros Hnd Hp Hval k. destruct (live_row_query key act rows l k Hnd Hp) as [Hnd' <-]. rewrite dget_store by done.
  destruct (row_of key k l) as [row|] eqn:E; [|done]. apply row_of_key in E as [Hin _]. eauto.
Qed.
Lemma mirrors_live rows base d k : mirrors rows base d -> dget base k = None -> (is_Some (dget d k) <-> is_Some (live_row key act k rows)).
Proof.
  intros Hm Hb. specialize (Hm k). destruct (live_row key act k rows) as [row|]; [destruct Hm as (v&->&_); split; eauto|].
  rewrite Hm, Hb. done.
Qed.
(** Two mirrors of one table differ at most in what the relation leaves open. *)
Lemma mirrors_agree {W} (view : V -> W) rows base d d' k : mirrors rows base d -> mirrors rows base d' ->
  (forall row v v', rel row v -> rel row v' -> view v = view v') -> view <$> dget d k = view <$> dget d' k.
Proof.
  intros H H' Hr. specialize (H k). specialize (H' k). destruct (live_row key act k rows) as [row|]; [|congruence].
  destruct H as (v&->&Hv), H' as (v'&->&Hv'). cbn. f_equal. eauto.
Qed.
End mirrors.

(** ** The checks of flows *)
Lemma missing_nil l known : missing l known = [] <-> forall n, n ∈ l -> n ∈ known.
Proof.
  unfold missing. split.
  - intros H n Hn. destruct (str_in n known) eqn:E; [by apply str_in_spec|]. exfalso.
    assert (n ∈ str_sort (List.filter (fun n => negb (str_in n known)) l)) as Hin.
    { rewrite str_sort_perm. apply list_elem_of_In, List.filter_In. split; [by apply list_elem_of_In|by rewrite E]. }
    rewrite H in Hin. inversion Hin.
  - intros H. assert (List.filter (fun n => negb (str_in n known)) l = []) as ->; [|done]. induction l as [|n l IH]; cbn; [done|].
    assert (str_in n known = true) as -> by (apply str_in_spec, H; left). apply IH. intros m Hm. apply H. by right.
Qed.
Lemma complain_nil p l : complain p l = [] <-> l = [].
Proof. by destruct l. Qed.
Lemma validate_nil reg name d : validate reg name d = [] <->
  blank name = false /\ df_nodes d <> [] /\ (forall n, n ∈ df_nodes d -> is_Some (dget reg n)) /\ shape_errors d = [].
Proof.
  assert ((forall n, n ∈ df_nodes d -> is_Some (dget reg n)) <-> missing (df_nodes d) (dkeys reg) = []) as ->.
  { rewrite missing_nil. split; intros H n Hn; specialize (H n Hn).
    - apply dmem_spec. unfold dmem. by destruct H as [? ->].
    - apply dmem_spec in H. unfold dmem in H. destruct (dget reg n); [eauto|done]. }
  unfold validate. split.
  - intros [H1 H2]%app_nil. destruct (blank name); [done|]. destruct (df_nodes d); [done|]. apply app_nil in H2 as [H2%complain_nil H3]. done.
  - intros (->&Hn&Hm&->). destruct (df_nodes d); [done|]. by rewrite Hm.
Qed.

Section life.
Context {iso : IsoCodec} (sv_import : string -> result plugin_module) (sn : dict node_fn) (sf : dict flow).
Implicit Types (r : registry).

(** ** An orderly life

    Transactions succeed, no name of a static node or flow is taken, a node is deleted only
    when no live flow names it, and generated ids are new.  Deliveries count, and the
    process may be restarted at any time; the queries return rows in any order. *)
Definition orderly r (op : operation) (fresh : UUID) : Prop :=
  match op with
  | RegisterNode name _ _ _ _ _ _ => dget sn name = None
  | RegisterFlow name _ _ _ => dget sf name = None
  | DeleteNode name => forall n m, dget (rg_flow_meta r) n = Some m -> name ∉ df_nodes (fm_definition m)
  | Subscribe _ _ _ _ => (uuid_int fresh < 2 ^ 128)%N /\ fresh ∉ map ws_id (hb_rows (rg_hub r))
  | DeleteFlow _ | Unsubscribe _ _ => True
  end.
Definition restarted r (ns : list DynamicNode) (fs : list DynamicFlow) (ws : list WebhookSubscription) (now : Z) : registry * list (Z * Z) :=
  load_dynamic_registry sv_import (Ok ns) (Ok fs) (Ok ws) now (reboot sn sf r).
Definition queried r ns fs ws : Prop :=
  ns ≡ₚ List.filter dn_is_active (rg_node_rows r) /\ fs ≡ₚ List.filter dy_is_active (rg_flow_rows r) /\
  ws ≡ₚ List.filter ws_is_active (hb_rows (rg_hub r)).
Inductive life : registry -> Prop :=
| life_boot : life (MkReg sn [] sf [] (MkHub [] []) [] [])
| life_op r op fresh now : life r -> orderly r op fresh -> life (perform sv_import op (Some (Ok ())) fresh now r).1
| life_delivery r id ok now : life r -> life (with_hub (settle id ok now (rg_hub r)) r)
| life_restart r ns fs ws now : life r -> queried r ns fs ws -> life (restarted r ns fs ws now).1.

(** ** The invariant *)
Definition node_rel (row : DynamicNode) (fn : node_fn) : Prop :=
  exists t, build_node sv_import (dn_name row) (dn_node_type row) (row_handler row).1 (row_handler row).2 (dn_secret row) = Ok (fn, t).
Definition flow_rel (row : DynamicFlow) (f : flow) : Prop := f = flow_of (dy_definition_json row).
Definition flow_meta_rel (row : DynamicFlow) (m : flow_meta) : Prop := fm_definition m = dy_definition_json row.
(** What a subscription is without its counters *)
Definition fresh_copy (s : subscription) : subscription :=
  new_sub (wh_id s) (wh_event_type s) (wh_callback_url s) (wh_secret s) (wh_created_at s) (str_or_none (wh_created_by s)).
Definition row_sub (row : WebhookSubscription) : subscription :=
  new_sub (uuid_to_string (ws_id row)) (ws_event_type row) (ws_callback_url row) (ws_secret row) (isoformat (ws_created_at row)) (ws_created_by row).
Definition sub_rel (row : WebhookSubscription) (s : subscription) : Prop := fresh_copy s = row_sub row.
Definition ws_key (row : WebhookSubscription) : string := uuid_to_string (ws_id row).

Record nodes_ok (rows : list DynamicNode) (nodes : dict node_fn) (meta : dict node_meta) : Prop := {
  no_names : NoDup (map dn_name rows);
  no_static k : is_Some (live_row dn_name dn_is_active k rows) -> dget sn k = None;
  no_nodes : mirrors dn_name dn_is_active node_rel rows sn nodes;
  no_meta : mirrors dn_name dn_is_active (fun _ (_ : node_meta) => True) rows [] meta
}.
Record flows_ok (nodes : dict node_fn) (rows : list DynamicFlow) (flows : dict flow) (meta : dict flow_meta) : Prop := {
  fo_names : NoDup (map dy_name rows);
  fo_static k : is_Some (live_row dy_name dy_is_active k rows) -> dget sf k = None;
  fo_valid k row : live_row dy_name dy_is_active k rows = Some row -> validate nodes k (dy_definition_json row) = [];
  fo_flows : mirrors dy_name dy_is_active flow_rel rows sf flows;
  fo_meta : mirrors dy_name dy_is_active flow_meta_rel rows [] meta
}.
Record subs_ok (h : hub) : Prop := {
  so_ids : NoDup (map ws_id (hb_rows h));
  so_bound : Forall (fun row => uuid_int (ws_id row) < 2 ^ 128)%N (hb_rows h);
  so_clean : Forall (fun row => str_or_none (ws_created_by row) = ws_created_by row) (hb_rows h);
  so_subs : mirrors ws_key ws_is_active sub_rel (hb_rows h) [] (hb_subs h)
}.
Definition reg_ok r : Prop :=
  nodes_ok (rg_node_rows r) (rg_nodes r) (rg_node_meta r) /\ flows_ok (rg_nodes r) (rg_flow_rows r) (rg_flows r) (rg_flow_meta r) /\ subs_ok (rg_hub r).

(** ** Nodes *)
Lemma build_config name node_type handler t secret fn t' : build_node sv_import name node_type handler t secret = Ok (fn, t') ->
  forall row, dn_name row = name -> dn_node_type row = node_type -> dn_handler_config row = node_config node_type handler t' -> dn_secret row = secret ->
  node_rel row fn.
Proof.
  intros Hb row <- <- Hc <-. unfold node_rel, row_handler. rewrite Hc. unfold node_config, build_node in *.
  destruct (blank (dn_name row)); [done|]. destruct (negb (str_in (dn_node_type row) _)); [done|]. destruct (blank handler) eqn:Eh; [done|].
  destruct (dn_node_type row =s "webhook"); cbn; rewrite Eh.
  - destruct (negb _); [done|]. injection Hb as <- <-. eexists. do 3 f_equal. unfold WEBHOOK_MAX_TIMEOUT. lia.
  - destruct (load_plugin_node sv_import handler) as [fn'|e]; [|done]. injection Hb as <- <-. by eexists.
Qed.
Lemma register_node_ok rows nodes meta name node_type handler t secret user fresh now fn t' m : nodes_ok rows nodes meta -> dget sn name = None ->
  build_node sv_import name node_type handler t secret = Ok (fn, t') ->
  nodes_ok (persist_node name node_type handler secret t' user fresh now rows) (dset nodes name fn) (dset meta name m).
Proof.
  intros [H1 H2 H3 H4] Hs Hb. set (rows' := persist_node _ _ _ _ _ _ _ _ _).
  assert (exists row, dn_name row = name /\ dn_node_type row = node_type /\ dn_handler_config row = node_config node_type handler t' /\ dn_secret row = secret /\
    forall k, live_row dn_name dn_is_active k rows' = if bool_decide (name = k) then Some row else live_row dn_name dn_is_active k rows) as (row&E1&E2&E3&E4&Hl).
  { eexists. split_and!; [..|intros k; unfold rows', persist_node; by apply live_row_upsert]; destruct (row_of dn_name name rows) eqn:E; try done.
    by apply row_of_key in E as [_ ?]. }
  split.
  - unfold rows', persist_node. by apply upsert_keys.
  - intros k. rewrite Hl. case_bool_decide; [by subst|apply H2].
  - eapply mirrors_set; [done|exact Hl|]. by eapply build_config.
  - by eapply mirrors_set.
Qed.
Lemma delete_node_ok rows nodes meta name now : nodes_ok rows nodes meta -> dmem meta name = true ->
  nodes_ok (update_row dn_name name (retire_node now) rows) (ddel nodes name) (ddel meta name).
Proof.
  intros [H1 H2 H3 H4] Hm. assert (is_Some (live_row dn_name dn_is_active name rows)) as Hlive.
  { apply (mirrors_live dn_name dn_is_active _ _ _ _ name H4 eq_refl). unfold dmem in Hm. destruct (dget meta name); [eauto|done]. }
  pose proof (fun k => live_row_retire dn_name dn_is_active name k (retire_node now) rows (fun _ => eq_refl) (fun _ => eq_refl)) as Hl. split.
  - by rewrite update_row_keys.
  - intros k. rewrite Hl. case_bool_decide; [intros [? ?]; done|apply H2].
  - by eapply mirrors_del; [| |apply H2].
  - by eapply mirrors_del.
Qed.

(** ** Flows *)
Lemma validate_more nodes nodes' k d : (forall n, n ∈ df_nodes d -> is_Some (dget nodes n) -> is_Some (dget nodes' n)) -> validate nodes k d = [] -> validate nodes' k d = [].
Proof. rewrite !validate_nil. naive_solver. Qed.
Lemma flows_more nodes nodes' rows flows meta : flows_ok nodes rows flows meta ->
  (forall n m, dget meta n = Some m -> forall k, k ∈ df_nodes (fm_definition m) -> is_Some (dget nodes k) -> is_Some (dget nodes' k)) -> flows_ok nodes' rows flows meta.
Proof.
  intros [H1 H2 H3 H4 H5] Hn. split; try done. intros k row Hk. specialize (H5 k). rewrite Hk in H5. destruct H5 as (m&Hm&Hd). unfold flow_meta_rel in Hd.
  eapply validate_more; [|by apply H3]. rewrite <- Hd. by eapply Hn.
Qed.
Lemma register_flow_ok nodes rows flows meta name d user fresh now m : flows_ok nodes rows flows meta -> dget sf name = None ->
  validate nodes name d = [] -> fm_definition m = d ->
  flows_ok nodes (persist_flow name d user fresh now rows) (dset flows name (flow_of d)) (dset meta name m).
Proof.
  intros [H1 H2 H3 H4 H5] Hs Hv Hm. set (rows' := persist_flow _ _ _ _ _ _).
  assert (exists row, dy_definition_json row = d /\
    forall k, live_row dy_name dy_is_active k rows' = if bool_decide (name = k) then Some row else live_row dy_name dy_is_active k rows) as (row&E&Hl).
  { eexists. split; [|intros k; unfold rows', persist_flow; by apply live_row_upsert]; by destruct (row_of dy_name name rows). }
  split.
  - unfold rows', persist_flow. by apply upsert_keys.
  - intros k. rewrite Hl. case_bool_decide; [by subst|apply H2].
  - intros k row'. rewrite Hl. case_bool_decide as Hk; [intros [= <-]; by rewrite E, <- Hk|apply H3].
  - eapply mirrors_set; [done|exact Hl|]. unfold flow_rel. congruence.
  - eapply mirrors_set; [done|exact Hl|]. unfold flow_meta_rel. congruence.
Qed.
Lemma delete_flow_ok nodes rows flows meta name now : flows_ok nodes rows flows meta -> dmem meta name = true ->
  flows_ok nodes (update_row dy_name name (retire_flow now) rows) (ddel flows name) (ddel meta name).
Proof.
  intros [H1 H2 H3 H4 H5] Hm. assert (is_Some (live_row dy_name dy_is_active name rows)) as Hlive.
  { apply (mirrors_live dy_name dy_is_active _ _ _ _ name H5 eq_refl). unfold dmem in Hm. destruct (dget meta name); [eauto|done]. }
  pose proof (fun k => live_row_retire dy_name dy_is_active name k (retire_flow now) rows (fun _ => eq_refl) (fun _ => eq_refl)) as Hl. split.
  - by rewrite update_row_keys.
  - intros k. rewrite Hl. case_bool_decide; [intros [? ?]; done|apply H2].
  - intros k row. rewrite Hl. case_bool_decide; [done|apply H3].
  - by eapply mirrors_del; [| |apply H2].
  - by eapply mirrors_del.
Qed.

(** ** Subscriptions *)
Lemma uuid_text_inj u u' : (uuid_int u < 2 ^ 128)%N -> (uuid_int u' < 2 ^ 128)%N -> uuid_to_string u = uuid_to_string u' -> u = u'.
Proof. intros H H' E. apply uuid_roundtrip in H, H'. congruence. Qed.
Lemma update_by_text u f l : (uuid_int u < 2 ^ 128)%N -> Forall (fun row => uuid_int (ws_id row) < 2 ^ 128)%N l ->
  update_row ws_id u f l = update_row ws_key (uuid_to_string u) f l.
Proof.
  intros Hu Hl. induction Hl as [|row l Hr _ IH]; [done|]. cbn. rewrite IH.
  assert (ws_id row = u <-> ws_key row = uuid_to_string u) as He by (split; [by intros <-|by apply uuid_text_inj]).
  by rewrite (bool_decide_ext _ _ He).
Qed.
Lemma ws_keys l : NoDup (map ws_id l) -> Forall (fun row => uuid_int (ws_id row) < 2 ^ 128)%N l -> NoDup (map ws_key l).
Proof.
  intros Hnd Hb. induction Hb as [|row l Hr Hb IH]; [constructor|]. cbn in *. apply NoDup_cons in Hnd as [Hn Hnd]. apply NoDup_cons. split; [|auto].
  intros (row'&E&Hin)%list_elem_of_fmap. apply Hn. rewrite (uuid_text_inj (ws_id row) (ws_id row') Hr (proj1 (Forall_forall _ _) Hb row' Hin) E).
  by apply (list_elem_of_fmap_2 ws_id).
Qed.
Lemma subscribe_ok h row s : subs_ok h -> (uuid_int (ws_id row) < 2 ^ 128)%N -> ws_id row ∉ map ws_id (hb_rows h) -> ws_is_active row = true ->
  sub_rel row s -> str_or_none (ws_created_by row) = ws_created_by row -> subs_ok (MkHub (dset (hb_subs h) (ws_key row) s) (hb_rows h ++ [row])).
Proof.
  intros [H1 H2 H0 H3] Hb Hn Ha Hs Hc. assert (NoDup (map ws_id (hb_rows h ++ [row]))) as Hnd.
  { rewrite map_app. apply NoDup_app. split_and!; [done| |apply NoDup_singleton]. by intros x Hx ->%list_elem_of_singleton. }
  assert (Forall (fun row => uuid_int (ws_id row) < 2 ^ 128)%N (hb_rows h ++ [row])) as Hbd by (apply Forall_app; by repeat constructor).
  split; cbn; [done..| |].
  - apply Forall_app. by repeat constructor.
  - eapply mirrors_set; [done| |done]. intros k. unfold live_row. rewrite row_of_app. case_bool_decide as Hk.
    + assert (row_of ws_key k (hb_rows h) = None) as ->.
      { apply row_of_None. pose proof (ws_keys _ Hnd Hbd) as Hk'. rewrite map_app in Hk'. apply NoDup_app in Hk' as (_&Hd&_).
        intros Hx. apply (Hd k Hx). subst k. by left. }
      unfold row_of. cbn. by rewrite bool_decide_true, Ha.
    + destruct (row_of ws_key k (hb_rows h)); [done|]. unfold row_of. cbn. by rewrite bool_decide_false.
Qed.
Lemma unsubscribe_ok h id h' : subs_ok h -> unsubscribe_webhook id (Some (Ok ())) h = (h', Ok true) -> subs_ok h'.
Proof.
  intros [H1 H2 H0 H3]. unfold unsubscribe_webhook, mbind, SE_bind, reads, writes, mret, SE_ret. destruct (dmem (hb_subs h) id) eqn:Em; [|done]. cbn [negb].
  assert (is_Some (live_row ws_key ws_is_active id (hb_rows h))) as [row Hrow].
  { apply (mirrors_live ws_key ws_is_active _ _ _ _ id H3 eq_refl). unfold dmem in Em. destruct (dget (hb_subs h) id); [eauto|done]. }
  unfold live_row in Hrow. destruct (row_of ws_key id (hb_rows h)) as [row'|] eqn:Er; [|done]. apply row_of_key in Er as [Hin <-].
  pose proof (proj1 (Forall_forall _ _) H2 row' Hin) as Hb. cbn in Hb. unfold ws_key at 1. rewrite uuid_roundtrip by done. intros [= <-]. split; cbn.
  - by rewrite update_row_keys.
  - by apply update_row_Forall.
  - by apply update_row_Forall.
  - rewrite update_by_text by done. eapply mirrors_del; [done| |done]. intros k. by apply live_row_retire.
Qed.
Lemma settle_ok h id ok now : subs_ok h -> subs_ok (settle id ok now h).
Proof.
  intros [H1 H2 H0 H3]. unfold settle. destruct (dget (hb_subs h) id) as [s|] eqn:E; [|done]. split; cbn; try done.
  intros k. specialize (H3 k). destruct (live_row ws_key ws_is_active k (hb_rows h)) as [row|]; destruct (decide (id = k)) as [<-|Hn].
  - destruct H3 as (s'&Hs&Hr). replace s' with s in Hr by congruence. eexists. by rewrite dget_dset_eq.
  - by rewrite dget_dset_ne.
  - cbn in H3. congruence.
  - by rewrite dget_dset_ne.
Qed.

(** ** Every operation keeps the invariant *)
Lemma perform_ok r op fresh now : reg_ok r -> orderly r op fresh -> reg_ok (perform sv_import op (Some (Ok ())) fresh now r).1.
Proof.
  intros (Hn&Hf&Hs) Ho. destruct op as [name ty handler t secret user ow|name|name d user ow|name|ev url secret user|id user]; cbn in Ho |- *;
    unfold mbind, SE_bind, mret, SE_ret.
  - unfold register_external_node. destruct (build_node _ _ _ _ _ _) as [[fn t']|e] eqn:Eb; [|done]. destruct (_ && _); [done|]. cbn.
    split_and!; [|eapply flows_more; [exact Hf|]; cbn|done]; [by eapply register_node_ok|].
    intros _ _ _ k _ [v Hv]. destruct (decide (name = k)) as [<-|Hne]; [by rewrite dget_dset_eq|rewrite dget_dset_ne by done; eauto].
  - unfold delete_dynamic_node. destruct (dmem (rg_node_meta r) name) eqn:Em; [|done]. cbn.
    split_and!; [by apply delete_node_ok|eapply flows_more; [exact Hf|]; cbn|done]. intros n m Hm k Hk [v Hv].
    rewrite dget_ddel_ne; [eauto|]. intros ->. by destruct (Ho n m Hm).
  - unfold register_dynamic_flow. destruct (validate _ _ _) eqn:Ev; [|done]. destruct (_ && _); [done|]. cbn. split_and!; [done| |done].
    by apply register_flow_ok.
  - unfold delete_dynamic_flow. destruct (dmem (rg_flow_meta r) name) eqn:Em; [|done]. cbn. split_and!; [done|by apply delete_flow_ok|done].
  - unfold on_hub. destruct Ho as [Hb Hfresh]. unfold subscribe_webhook. destruct (_ || _); [by destruct r|]. destruct (negb (is_url url)); [by destruct r|].
    unfold mbind, SE_bind, writes, mret, SE_ret. cbn. split_and!; [done..|].
    apply (subscribe_ok (rg_hub r) (MkWS fresh ev url secret (str_or_none user) (utc_datetime now) true)); try done. by destruct user as [[|]|].
  - unfold on_hub, delete_webhook_subscription, mbind, SE_bind, reads. destruct (dget (hb_subs (rg_hub r)) id) as [s|]; [|by destruct r].
    case_bool_decide; [|by destruct r]. destruct (unsubscribe_webhook id (Some (Ok ())) (rg_hub r)) as [h' [b|e]] eqn:Eu; cbn.
    + split_and!; [done..|]. destruct b; [by eapply unsubscribe_ok|]. revert Eu. unfold unsubscribe_webhook, mbind, SE_bind, reads, writes, mret, SE_ret.
      destruct (dmem _ _); cbn; [destruct (uuid_of_string id); done|]. by intros [= <-].
    + exfalso. revert Eu. unfold unsubscribe_webhook, mbind, SE_bind, reads, writes, mret, SE_ret. destruct (dmem _ _); cbn; [|done].
      by destruct (uuid_of_string id).
Qed.

(** ** Loading the rows *)
Definition node_of (row : DynamicNode) : node_fn :=
  match build_node sv_import (dn_name row) (dn_node_type row) (row_handler row).1 (row_handler row).2 (dn_secret row) with
  | Ok (fn, _) => fn
  | Raise _ => StaticNode ""
  end.
Definition load_with {R V} (key : R -> string) (val : R -> V) (d : dict V) (l : list R) : dict V := foldl (fun d row => dset d (key row) (val row)) d l.
Lemma load_with_length {R V} (key : R -> string) (val : R -> V) d l : NoDup (map key l) -> (forall row, row ∈ l -> dget d (key row) = None) ->
  length (load_with key val d l) = (length d + length l)%nat.
Proof.
  unfold load_with. revert d. induction l as [|row l IH]; intros d Hnd Hd; cbn; [lia|]. apply NoDup_cons in Hnd as [Hn Hnd].
  assert (key row ∉ dkeys d) as Hk by (apply dget_None, Hd; left). rewrite IH; [rewrite dset_notin, length_app by done; cbn; lia|done|].
  intros row' Hin. rewrite dget_dset_ne; [apply Hd; by right|]. intros Heq. apply Hn. rewrite Heq. by apply (list_elem_of_fmap_2 key).
Qed.
(** Rows that follow a row with another key are still to be loaded. *)
Lemma still_free {R V} (key : R -> string) (d : dict V) row l v : NoDup (map key (row :: l)) -> (forall row', row' ∈ row :: l -> dget d (key row') = None) ->
  forall row', row' ∈ l -> dget (dset d (key row) v) (key row') = None.
Proof.
  intros [Hn _]%NoDup_cons Hd row' Hin. rewrite dget_dset_ne; [apply Hd; by right|]. intros Heq. apply Hn. rewrite Heq. by apply (list_elem_of_fmap_2 key).
Qed.

Lemma load_nodes_all now l r : NoDup (map dn_name l) -> (forall row, row ∈ l -> dget (rg_nodes r) (dn_name row) = None) ->
  (forall row, row ∈ l -> exists fn, node_rel row fn) ->
  exists meta, load_rows (load_node sv_import now) l r =
    (with_nodes (load_with dn_name node_of (rg_nodes r) l) (load_with dn_name meta (rg_node_meta r) l) r, (Z.of_nat (length l), 0)).
Proof.
  intros Hnd Hd Hrel. exists (fun row => let web := dn_node_type row =s "webhook" in
    MkNodeMeta (dn_name row) (dn_node_type row) (row_handler row).1
      (if web then Some (match build_node sv_import (dn_name row) (dn_node_type row) (row_handler row).1 (row_handler row).2 (dn_secret row) with
                         | Ok (_, t) => t | Raise _ => 0 end) else None)
      (if web then Some (match dn_secret row with Some _ => true | None => false end) else None) (isoformat (utc_datetime now)) (dn_created_by row)).
  revert r Hd. induction l as [|row l IH]; intros r Hd; cbn [load_rows]; [by destruct r|].
  unfold load_node at 1, dmem. rewrite (Hd row ltac:(left)). destruct (row_handler row) as [handler t] eqn:Eh. unfold register_external_node.
  destruct (Hrel row ltac:(left)) as (fn&t'&Hb). rewrite Eh in Hb. cbn [fst snd] in Hb. rewrite Hb. unfold dmem. rewrite (Hd row ltac:(left)). cbn [andb negb committed].
  rewrite IH; [|by apply NoDup_cons in Hnd as [_ ?]|intros; apply Hrel; by right|cbn; by apply (still_free dn_name _ row l)].
  assert (node_of row = fn) as Hno by (unfold node_of; rewrite Eh; cbn; by rewrite Hb).
  replace (Z.of_nat (length (row :: l))) with (Z.of_nat (length l) + 1) by (cbn; lia). unfold load_with. cbn [foldl]. rewrite Hno, Eh. cbn [fst snd]. by rewrite Hb.
Qed.
Lemma load_flows_all now l r : NoDup (map dy_name l) -> (forall row, row ∈ l -> dget (rg_flows r) (dy_name row) = None) ->
  (forall row, row ∈ l -> validate (rg_nodes r) (dy_name row) (dy_definition_json row) = []) ->
  load_rows (load_flow now) l r =
    (with_flows (load_with dy_name (fun row => flow_of (dy_definition_json row)) (rg_flows r) l)
       (load_with dy_name (fun row => MkFlowMeta (dy_name row) (dy_definition_json row) (isoformat (utc_datetime now)) (dy_created_by row)) (rg_flow_meta r) l) r,
     (Z.of_nat (length l), 0)).
Proof.
  intros Hnd. revert r. induction l as [|row l IH]; intros r Hd Hv; cbn [load_rows]; [by destruct r|].
  unfold load_flow at 1, dmem. rewrite (Hd row ltac:(left)). unfold register_dynamic_flow. rewrite (Hv row ltac:(left)). unfold dmem.
  rewrite (Hd row ltac:(left)). cbn [andb negb committed].
  rewrite IH; [|by apply NoDup_cons in Hnd as [_ ?]|cbn; by apply (still_free dy_name _ row l)|intros; apply Hv; by right].
  by replace (Z.of_nat (length (row :: l))) with (Z.of_nat (length l) + 1) by (cbn; lia).
Qed.
Lemma load_webhooks_all l r : NoDup (map ws_key l) -> (forall row, row ∈ l -> dget (hb_subs (rg_hub r)) (ws_key row) = None) ->
  load_rows load_webhook l r = (with_hub (MkHub (load_with ws_key row_sub (hb_subs (rg_hub r)) l) (hb_rows (rg_hub r))) r, (Z.of_nat (length l), 0)).
Proof.
  intros Hnd. revert r. induction l as [|row l IH]; intros r Hd; cbn [load_rows]; [by destruct r as [???? [] ??]|].
  unfold load_webhook at 1. change (uuid_to_string (ws_id row)) with (ws_key row). unfold restore_webhook_subscription, mbind, SE_bind, reads, writes, mret, SE_ret, dmem.
  rewrite (Hd row ltac:(left)). rewrite IH; [|by apply NoDup_cons in Hnd as [_ ?]|cbn; by apply (still_free ws_key _ row l)].
  by replace (Z.of_nat (length (row :: l))) with (Z.of_nat (length l) + 1) by (cbn; lia).
Qed.

(** ** A restart *)
Lemma live_of_query {R} (key : R -> string) act (rows l : list R) row : NoDup (map key rows) -> l ≡ₚ List.filter act rows -> row ∈ l ->
  live_row key act (key row) rows = Some row.
Proof. intros Hnd Hp Hin. destruct (live_row_query key act rows l (key row) Hnd Hp) as [Hnd' <-]. by apply row_of_elem. Qed.
Lemma query_keys {R} (key : R -> string) act (rows l : list R) : NoDup (map key rows) -> l ≡ₚ List.filter act rows -> NoDup (map key l).
Proof. intros Hnd Hp. by destruct (live_row_query key act rows l "" Hnd Hp). Qed.
Lemma node_of_rel row fn : node_rel row fn -> node_of row = fn.
Proof. intros [t Hb]. unfold node_of. by rewrite Hb. Qed.
Lemma row_sub_rel row : str_or_none (ws_created_by row) = ws_created_by row -> sub_rel row (row_sub row).
Proof. intros H. unfold sub_rel, fresh_copy, row_sub, new_sub. cbn. by rewrite H. Qed.

Lemma restarted_nodes rows nodes meta ns m : nodes_ok rows nodes meta -> ns ≡ₚ List.filter dn_is_active rows ->
  nodes_ok rows (load_with dn_name node_of sn ns) (load_with dn_name m [] ns).
Proof.
  intros [H1 H2 H3 H4] Hp. split; try done; [|by apply mirrors_load]. apply mirrors_load; try done. intros row Hin.
  pose proof (live_of_query dn_name dn_is_active rows ns row H1 Hp Hin) as Hl. specialize (H3 (dn_name row)). rewrite Hl in H3.
  destruct H3 as (fn&_&Hr). by rewrite (node_of_rel row fn Hr).
Qed.
Lemma nodes_agree rows nodes meta nodes' meta' k : nodes_ok rows nodes meta -> nodes_ok rows nodes' meta' -> dget nodes k = dget nodes' k.
Proof.
  intros [_ _ H _] [_ _ H' _]. pose proof (mirrors_agree _ _ _ id _ _ _ _ k H H') as E. rewrite !option_fmap_id in E. apply E.
  intros row v v' [t Hv] [t' Hv']. unfold id. congruence.
Qed.

Lemma reboot_nodes r nodes meta ns now : nodes_ok (rg_node_rows r) nodes meta -> ns ≡ₚ List.filter dn_is_active (rg_node_rows r) ->
  exists nodes' meta', load_rows (load_node sv_import now) ns (reboot sn sf r) = (with_nodes nodes' meta' (reboot sn sf r), (Z.of_nat (length ns), 0)) /\
    nodes_ok (rg_node_rows r) nodes' meta' /\ length meta' = length ns.
Proof.
  intros Hn Hp. pose proof Hn as [N1 N2 N3 _]. pose proof (query_keys dn_name dn_is_active _ _ N1 Hp) as Kn.
  destruct (load_nodes_all now ns (reboot sn sf r) Kn) as [m Hm].
  { intros row Hin. apply N2. by rewrite (live_of_query dn_name dn_is_active _ ns row N1 Hp Hin). }
  { intros row Hin. specialize (N3 (dn_name row)). rewrite (live_of_query dn_name dn_is_active _ ns row N1 Hp Hin) in N3. destruct N3 as (fn&_&?). by exists fn. }
  do 2 eexists. split_and!; [exact Hm|by eapply restarted_nodes|]. cbn. by rewrite load_with_length.
Qed.
Lemma restarted_ok r ns fs ws now : reg_ok r -> queried r ns fs ws ->
  let (r', counts) := restarted r ns fs ws now in
  reg_ok r' /\ rg_node_rows r' = rg_node_rows r /\ rg_flow_rows r' = rg_flow_rows r /\ hb_rows (rg_hub r') = hb_rows (rg_hub r) /\
  counts = [(Z.of_nat (length ns), 0); (Z.of_nat (length fs), 0); (Z.of_nat (length ws), 0)] /\
  length (rg_node_meta r') = length ns /\ length (rg_flow_meta r') = length fs /\ length (hb_subs (rg_hub r')) = length ws /\
  hb_subs (rg_hub r') = load_with ws_key row_sub [] ws.
Proof.
  intros (Hn&Hf&Hs) (Pn&Pf&Pw). unfold restarted, load_dynamic_registry, load_query. pose proof Hf as [F1 F2 F3 F4 F5]. pose proof Hs as [S1 S2 S3 S4].
  pose proof (query_keys dy_name dy_is_active _ _ F1 Pf) as Kf.
  pose proof (query_keys ws_key ws_is_active _ _ (ws_keys _ S1 S2) Pw) as Kw.
  destruct (reboot_nodes r _ _ ns now Hn Pn) as (nodes'&meta&->&Hn'&Hlen).
  assert (forall k, dget (rg_nodes r) k = dget nodes' k) as Hag by (intros k; by eapply nodes_agree).
  rewrite (load_flows_all now fs _ Kf); cbn [rg_flows rg_nodes with_nodes reboot].
  2:{ intros row Hin. apply F2. by rewrite (live_of_query dy_name dy_is_active _ fs row F1 Pf Hin). }
  2:{ intros row Hin. eapply validate_more; [|apply (F3 _ row); by apply (live_of_query dy_name dy_is_active _ fs)]. intros n _. by rewrite <- Hag. }
  rewrite (load_webhooks_all ws _ Kw) by done. cbn. split_and!; try done.
  - split; [done|]. split.
    + split; cbn; try done; [|by apply mirrors_load|by apply mirrors_load]. intros k row Hk. eapply validate_more; [|by apply F3]. intros n _. by rewrite <- Hag.
    + split; cbn; try done. apply mirrors_load; [by apply ws_keys|done|]. intros row Hin. apply row_sub_rel.
      rewrite Pw in Hin. apply list_elem_of_In, List.filter_In in Hin as [Hin _]. apply list_elem_of_In in Hin. by apply (proj1 (Forall_forall _ _) S3).
  - by rewrite load_with_length.
  - by rewrite load_with_length.
Qed.
Lemma life_ok r : life r -> reg_ok r.
Proof.
  induction 1 as [|r op fresh now _ IH Ho|r id ok now _ (Hn&Hf&Hs)|r ns fs ws now _ IH Hq].
  - split_and!; split; cbn; try done; try (intros k; done); constructor.
  - by apply perform_ok.
  - split_and!; try done. by apply settle_ok.
  - pose proof (restarted_ok r ns fs ws now IH Hq) as H. destruct (restarted r ns fs ws now). by destruct H.
Qed.


(** ** Flows name registered nodes *)
Lemma shape_closed d : shape_errors d = [] -> df_start d ∈ df_nodes d /\ (forall n, n ∈ df_end d -> n ∈ df_nodes d) /\
  (forall k l n, (k, l) ∈ df_edges d -> n ∈ l -> n ∈ df_nodes d).
Proof.
  unfold shape_errors. intros H. apply app_nil in H as [H1 H]. apply app_nil in H as [H2 H]. apply app_nil in H as [_ H]. apply app_nil in H as [H3 _]. split_and!.
  - destruct (str_in _ _) eqn:E; [by apply str_in_spec|done].
  - destruct (df_end d) eqn:E; [intros n Hn; inversion Hn|]. apply complain_nil in H2. by apply missing_nil.
  - intros k l n Hin Hn. unfold edge_errors in H3. apply list_elem_of_In, List.in_split in Hin as (l1&l2&Hd). rewrite Hd, flat_map_app in H3.
    apply app_nil in H3 as [_ H3]. cbn in H3. apply app_nil in H3 as [H3%complain_nil _]. by eapply missing_nil.
Qed.
(** The nodes a run of the flow can be at *)
Inductive visits (f : flow) : string -> Prop :=
| visits_start : visits f (fl_start f)
| visits_next n st n' : visits f n -> resolve_next_node n st f = Ok (Some n') -> visits f n'.
Lemma visits_declared d n : shape_errors d = [] -> visits (flow_of d) n -> n ∈ df_nodes d.
Proof.
  intros (Hs&_&He)%shape_closed. induction 1 as [|n st n' _ _ Hr]; [done|]. unfold resolve_next_node in Hr. cbn in Hr.
  destruct (dget _ n) as [[l|l]|] eqn:E; [|exfalso|done].
  - apply dget_Some_elem in E. apply list_elem_of_fmap in E as ([k l']&[= -> ->]&Hin). injection Hr as Hr. destruct l' as [|t l']; [done|]. injection Hr as ->.
    by eapply He; [|left].
  - apply dget_Some_elem in E. by apply list_elem_of_fmap in E as ([k l']&?&_).
Qed.


(** ** Where the registry does not keep what it says *)
Lemma load_node_keeps now row r k v : dget (rg_nodes r) k = Some v -> dget (rg_nodes (load_node sv_import now row r).1) k = Some v.
Proof.
  intros Hk. unfold load_node. destruct (dmem (rg_nodes r) (dn_name row)) eqn:Em; [done|]. destruct (row_handler row) as [handler t]. unfold register_external_node.
  destruct (build_node _ _ _ _ _ _) as [[fn t']|]; [|done]. rewrite Em. cbn. rewrite dget_dset_ne; [done|]. intros <-. unfold dmem in Em. by rewrite Hk in Em.
Qed.
Lemma load_rows_keeps {R A} (load : R -> registry -> registry * bool) (view : registry -> A) (P : A -> Prop) l r :
  (forall row r, row ∈ l -> P (view r) -> P (view (load row r).1)) -> P (view r) -> P (view (load_rows load l r).1).
Proof.
  revert r. induction l as [|row l IH]; intros r H Hr; cbn; [done|]. pose proof (H row r ltac:(left) Hr) as H1. destruct (load row r) as [r1 ok].
  specialize (IH r1 (fun row' r' Hin => H row' r' ltac:(by right)) H1). by destruct (load_rows load l r1) as [r2 [n m]].
Qed.
Lemma load_flow_nodes now row r : rg_nodes (load_flow now row r).1 = rg_nodes r.
Proof.
  unfold load_flow. destruct (dmem _ _); [done|]. unfold register_dynamic_flow. destruct (validate _ _ _); [|done]. by destruct (_ && _).
Qed.
Lemma load_webhook_nodes row r : rg_nodes (load_webhook row r).1 = rg_nodes r.
Proof. unfold load_webhook. destruct (dmem _ _); [done|]. by destruct (restore_webhook_subscription _ _ _ _ _ _ _) as [h [b|e]]. Qed.
Lemma restarted_static r ns fs ws now k v : dget sn k = Some v -> dget (rg_nodes (restarted r ns fs ws now).1) k = Some v.
Proof.
  intros Hk. unfold restarted, load_dynamic_registry, load_query.
  pose proof (load_rows_keeps (load_node sv_import now) rg_nodes (fun d => dget d k = Some v) ns (reboot sn sf r) (fun row r _ => load_node_keeps now row r k v) Hk) as H1.
  destruct (load_rows _ ns _) as [r1 c1].
  pose proof (load_rows_keeps (load_flow now) rg_nodes (fun d => dget d k = Some v) fs r1 (fun row r _ H => eq_trans (f_equal (fun d => dget d k) (load_flow_nodes now row r)) H) H1) as H2.
  destruct (load_rows _ fs _) as [r2 c2].
  pose proof (load_rows_keeps load_webhook rg_nodes (fun d => dget d k = Some v) ws r2 (fun row r _ H => eq_trans (f_equal (fun d => dget d k) (load_webhook_nodes row r)) H) H2) as H3.
  by destruct (load_rows _ ws _) as [r3 c3].
Qed.

(** Replacing a static node is accepted and stored, but a restart undoes it: although the
    row is active, the registry has the static node again.  Deleting the replacement before
    that removes the static node with it. *)
Theorem static_override_lost r name url t secret user fresh now r1 m v : dget sn name = Some v ->
  register_external_node sv_import name "webhook" url t secret user true (Some (Ok ())) fresh now r = (r1, Ok m) ->
  dget (rg_nodes r1) name = Some (WebhookNode name url (Z.max 1 (Z.min t 30)) secret) /\
  (exists row, live_row dn_name dn_is_active name (rg_node_rows r1) = Some row) /\
  (forall ns fs ws now', dget (rg_nodes (restarted r1 ns fs ws now').1) name = Some v) /\
  (forall db now', exists r2, delete_dynamic_node name db now' r1 = (r2, Ok true) /\ dget (rg_nodes r2) name = None).
Proof.
  intros Hs. unfold register_external_node, build_node. destruct (blank name); [done|]. cbn [negb str_in existsb]. destruct (blank url); [done|].
  destruct (negb (startswith _ _ || _)); [done|]. cbn. rewrite andb_false_r. intros [= <- <-]. split_and!.
  - cbn. by rewrite dget_dset_eq.
  - cbn. eexists. unfold persist_node. rewrite live_row_upsert by done. by rewrite bool_decide_true.
  - intros ns fs ws now'. by apply restarted_static.
  - intros db now'. unfold delete_dynamic_node, dmem. cbn. rewrite dget_dset_eq. cbn. eexists. split; [done|]. destruct db as [[]|]; apply dget_ddel_eq.
Qed.

Lemma load_flow_refused now row r k : (dy_name row = k -> validate (rg_nodes r) k (dy_definition_json row) <> []) ->
  dget (rg_flows (load_flow now row r).1) k = dget (rg_flows r) k.
Proof.
  intros Hv. unfold load_flow. destruct (dmem _ _) eqn:Em; [done|]. unfold register_dynamic_flow. destruct (validate (rg_nodes r) (dy_name row) _) eqn:Ev; [|done].
  rewrite Em. cbn. apply dget_dset_ne. intros <-. by destruct (Hv eq_refl).
Qed.
Lemma load_webhook_flows row r : rg_flows (load_webhook row r).1 = rg_flows r.
Proof. unfold load_webhook. destruct (dmem _ _); [done|]. by destruct (restore_webhook_subscription _ _ _ _ _ _ _) as [h [b|e]]. Qed.

(** Deleting a node that a live flow names is accepted, and the flow is lost at the next
    restart: the process goes on with the flow in its registry, but the one that starts over
    the tables does not have it, although its row is active. *)
Theorem node_deletion_drops_flow r k m n now : life r -> dget (rg_flow_meta r) k = Some m -> n ∈ df_nodes (fm_definition m) ->
  dmem (rg_node_meta r) n = true ->
  let (r1, a) := delete_dynamic_node n (Some (Ok ())) now r in
  a = Ok true /\ is_Some (dget (rg_flows r1) k) /\ is_Some (live_row dy_name dy_is_active k (rg_flow_rows r1)) /\
  forall ns fs ws now', queried r1 ns fs ws -> dget (rg_flows (restarted r1 ns fs ws now').1) k = None.
Proof.
  intros Hl Hm Hin Hd. destruct (life_ok r Hl) as (Hn&Hf&Hs). unfold delete_dynamic_node. rewrite Hd. cbn [negb committed].
  pose proof (delete_node_ok _ _ _ n now Hn Hd) as Hn1. destruct Hf as [F1 F2 F3 F4 F5].
  specialize (F4 k). specialize (F5 k). destruct (live_row _ _ k _) as [row|] eqn:Ek; [|cbn in F5; congruence]. destruct F4 as (f&Hf&_), F5 as (m'&Hm'&Hdef).
  replace m' with m in Hdef by congruence. unfold flow_meta_rel in Hdef. set (r1 := with_node_rows _ _).
  split_and!; [done|by exists f|by exists row|]. intros ns fs ws now' (Pn&Pf&_). unfold restarted, load_dynamic_registry, load_query.
  destruct (reboot_nodes r1 _ _ ns now' Hn1 Pn) as (nodes'&meta&->&Hn'&_).
  assert (dget nodes' n = None) as Hno by (rewrite <- (nodes_agree _ _ _ _ _ n Hn1 Hn'); apply dget_ddel_eq).
  pose proof (load_rows_keeps (load_flow now') (fun r => (dget (rg_nodes r) n, dget (rg_flows r) k)) (fun p => p = (None, None)) fs (with_nodes nodes' meta (reboot sn sf r1))) as H2.
  destruct (load_rows (load_flow now') fs _) as [r2 c2]. cbn [fst] in H2.
  pose proof (load_rows_keeps load_webhook rg_flows (fun d => dget d k = None) ws r2 (fun row r _ H => eq_trans (f_equal (fun d => dget d k) (load_webhook_flows row r)) H)) as H3.
  destruct (load_rows load_webhook ws r2) as [r3 c3]. apply H3. clear H3. enough ((dget (rg_nodes r2) n, dget (rg_flows r2) k) = (None, None)) as E by congruence.
  apply H2; [|cbn; rewrite Hno; f_equal; apply F2; by rewrite Ek]. clear H2. intros row' r' Hrow' [= E1 E2]. rewrite load_flow_nodes, E1, load_flow_refused, E2; [done|].
  intros Hname Hv. apply validate_nil in Hv as (_&_&Hreg&_). pose proof (live_of_query dy_name dy_is_active _ fs row' F1 Pf Hrow') as Hlive. rewrite Hname, Ek in Hlive.
  injection Hlive as <-. destruct (Hreg n) as [v Hv]; [by rewrite <- Hdef|congruence].
Qed.
End life.

(** ** A concrete installation *)
Definition demo_import (_ : string) : result plugin_module := Raise (Exn "ModuleNotFoundError" "no plugins").
Definition demo_static : dict node_fn := [("fetch", StaticNode "fetch")].
Definition demo_definition : definition := MkDefinition ["fetch"; "notify"] [("fetch", ["notify"])] "fetch" ["notify"].
Definition demo_boot : registry := MkReg demo_static [] [] [] (MkHub [] []) [] [].
Definition demo_r1 : registry := (perform demo_import (RegisterNode "notify" "webhook" "https://b" 60 (Some "k") (Some "u") false) (Some (Ok ())) (MkUUID 1) 0 demo_boot).1.
Definition demo_r2 : registry := (perform demo_import (RegisterFlow "report" demo_definition (Some "u") false) (Some (Ok ())) (MkUUID 2) 1 demo_r1).1.
Definition demo_r3 : registry := (perform demo_import (Subscribe "job.*" "https://a" (Some "k") (Some "u")) (Some (Ok ())) (MkUUID 3) 2 demo_r2).1.
Lemma demo_life : life demo_import demo_static [] demo_r3.
Proof.
  apply life_op; [|split; [by vm_compute|cbn; intros H; inversion H]]. apply life_op; [|done]. apply life_op; [|done]. apply life_boot.
Qed.
Lemma demo_queried : queried demo_r3 (rg_node_rows demo_r3) (rg_flow_rows demo_r3) (hb_rows (rg_hub demo_r3)).
Proof. by split_and!. Qed.

Lemma static_override_lost_witness : dget (rg_nodes (restarted demo_import demo_static []
  (register_external_node demo_import "fetch" "webhook" "https://c" 10 None None true (Some (Ok ())) (MkUUID 4) 3 demo_r3).1 [] [] [] 9).1) "fetch" = Some (StaticNode "fetch").
Proof.
  destruct (static_override_lost demo_import demo_static [] demo_r3 "fetch" "https://c" 10 None None (MkUUID 4) 3
    (register_external_node demo_import "fetch" "webhook" "https://c" 10 None None true (Some (Ok ())) (MkUUID 4) 3 demo_r3).1
    (MkNodeMeta "fetch" "webhook" "https://c" (Some 10) (Some false) (isoformat (utc_datetime 3)) None) (StaticNode "fetch") eq_refl eq_refl) as (_&_&H&_).
  apply H.
Defined.
Lemma node_deletion_drops_flow_witness : (delete_dynamic_node "notify" (Some (Ok ())) 4 demo_r3).2 = Ok true.
Proof.
  pose proof (node_deletion_drops_flow demo_import demo_static [] demo_r3 "report" (MkFlowMeta "report" demo_definition (isoformat (utc_datetime 1)) (Some "u")) "notify" 4
    demo_life eq_refl ltac:(right; left) eq_refl) as H.
  destruct (delete_dynamic_node _ _ _ _) as [r1 a]. destruct H as (H&_). exact H.
Defined.
