(* ===== verification/IngestQueue.v ===== *)
(** * The queue of memory writes ([AINDY/memory/ingest_queue.py])

    Callers hand writes to a bounded queue; a thread takes them out and gives them to a
    handler.  [step] interleaves callers, worker threads and one caller of [stop], each
    split where another thread can come between: [enqueue] tests [_accepting] and then puts,
    a worker tests the condition of its loop, waits for a payload and handles it, and [stop]
    sets the flags, joins the thread and drains.  Threads are numbered in the order of their
    start.  [start], which holds the lock, a call of the handler and the increment of
    [_dropped_total] are one step each.  A handler may raise any [Exception]; those that are
    not an [Exception] are left out, as are metrics and logs. *)
From S2P Require Import Prelude PyEffects.
Local Open Scope Z_scope.

Section ingest.
Context {P X : Type}.

Definition handler : Type := P -> X -> X * result unit.
Inductive thread := Checking | Polling | Holding (p : P) | Exited.
(** Where the caller of [stop] is: [_thread] as it read it *)
Inductive stopper := Flagged (drain : bool) | Joining (drain : bool) (t : option nat) | Draining (t : option nat) | DrainHolding (t : option nat) (p : P).
Record ingest := MkIngest {
  iq_queue : list P;
  iq_accepting : bool;
  iq_stop_event : bool;
  iq_thread : option nat;
  iq_threads : list thread;
  iq_stopper : option stopper;
  iq_callers : list P;               (* callers of [enqueue] that have passed the test *)
  iq_dropped_total : Z;
  iq_handler : option handler;
  iq_world : X
}.
Variable maxsize : nat.

(** [__init__] *)
Definition new_queue (h : option handler) (x : X) : result ingest :=
  if (maxsize <=? 0)%nat then Raise (Exn "ValueError" "MemoryIngestQueue maxsize must be greater than zero")
  else Ok (MkIngest [] true false None [] None [] 0 h x).
Definition alive (s : ingest) (t : option nat) : bool :=
  match t with Some i => match iq_threads s !! i with Some Exited | None => false | Some _ => true end | None => false end.

Definition set_threads (ts : list thread) (s : ingest) : ingest :=
  MkIngest (iq_queue s) (iq_accepting s) (iq_stop_event s) (iq_thread s) ts (iq_stopper s) (iq_callers s) (iq_dropped_total s) (iq_handler s) (iq_world s).
Definition set_queue (q : list P) (s : ingest) : ingest :=
  MkIngest q (iq_accepting s) (iq_stop_event s) (iq_thread s) (iq_threads s) (iq_stopper s) (iq_callers s) (iq_dropped_total s) (iq_handler s) (iq_world s).
Definition set_stopper (o : option stopper) (s : ingest) : ingest :=
  MkIngest (iq_queue s) (iq_accepting s) (iq_stop_event s) (iq_thread s) (iq_threads s) o (iq_callers s) (iq_dropped_total s) (iq_handler s) (iq_world s).
Definition set_callers (l : list P) (s : ingest) : ingest :=
  MkIngest (iq_queue s) (iq_accepting s) (iq_stop_event s) (iq_thread s) (iq_threads s) (iq_stopper s) l (iq_dropped_total s) (iq_handler s) (iq_world s).
Definition drop_one (s : ingest) : ingest :=
  MkIngest (iq_queue s) (iq_accepting s) (iq_stop_event s) (iq_thread s) (iq_threads s) (iq_stopper s) (iq_callers s) (iq_dropped_total s + 1) (iq_handler s) (iq_world s).

(** [start] *)
Definition start (s : ingest) : ingest :=
  if alive s (iq_thread s) then s
  else MkIngest (iq_queue s) true false (Some (length (iq_threads s))) (iq_threads s ++ [Checking]) (iq_stopper s) (iq_callers s) (iq_dropped_total s) (iq_handler s) (iq_world s).
(** [put_nowait] in [enqueue], and its answer *)
Definition put (p : P) (s : ingest) : ingest * bool :=
  if (length (iq_queue s) <? maxsize)%nat then (set_queue (iq_queue s ++ [p]) s, true) else (drop_one s, false).
(** [set_worker_handler] *)
Definition set_worker_handler (f : handler) (s : ingest) : ingest :=
  MkIngest (iq_queue s) (iq_accepting s) (iq_stop_event s) (iq_thread s) (iq_threads s) (iq_stopper s) (iq_callers s) (iq_dropped_total s) (Some f) (iq_world s).
(** The handling of a payload in [_process_one]: without a handler it is dropped, exceptions are logged. *)
Definition call (h : option handler) (p : P) (x : X) : X := match h with None => x | Some f => (f p x).1 end.
Definition handle (p : P) (s : ingest) : ingest :=
  MkIngest (iq_queue s) (iq_accepting s) (iq_stop_event s) (iq_thread s) (iq_threads s) (iq_stopper s) (iq_callers s) (iq_dropped_total s)
    (iq_handler s) (call (iq_handler s) p (iq_world s)).
(** The condition of [worker_loop] *)
Definition goes_on (s : ingest) : bool := negb (iq_stop_event s) || match iq_queue s with [] => false | _ => true end.
(** The two assignments at the beginning of [stop] *)
Definition stop_accepting (drain : bool) (s : ingest) : ingest :=
  MkIngest (iq_queue s) false (iq_stop_event s) (iq_thread s) (iq_threads s) (Some (Flagged drain)) (iq_callers s) (iq_dropped_total s) (iq_handler s) (iq_world s).
Definition stop_flag (drain : bool) (s : ingest) : ingest :=
  MkIngest (iq_queue s) (iq_accepting s) true (iq_thread s) (iq_threads s) (Some (Joining drain (iq_thread s))) (iq_callers s) (iq_dropped_total s) (iq_handler s) (iq_world s).
(** The end of [stop] *)
Definition stop_end (s : ingest) : ingest :=
  MkIngest (iq_queue s) (iq_accepting s) (iq_stop_event s) None (iq_threads s) None (iq_callers s) (iq_dropped_total s) (iq_handler s) (iq_world s).

Inductive label :=
| LEnter (p : P)                       (* [enqueue] finds the queue open *)
| LReturn (p : P) (ok : bool)          (* [enqueue] returns *)
| LStart
| LThread (i : nat)
| LTake (p : P)
| LHandled (p : P)
| LStop
| LTimedOut                            (* the join gives up *)
| LAbandoned                           (* [stop] without draining returns *)
| LStopped
| LSetHandler (f : handler).

Inductive step : ingest -> label -> ingest -> Prop :=
| step_enter s p : iq_accepting s = true -> step s (LEnter p) (set_callers (p :: iq_callers s) s)
| step_refused s p : iq_accepting s = false -> step s (LReturn p false) (drop_one s)
| step_put s p l1 l2 s' ok : iq_callers s = l1 ++ p :: l2 -> put p (set_callers (l1 ++ l2) s) = (s', ok) -> step s (LReturn p ok) s'
| step_start s : step s LStart (start s)
| step_loop s i : iq_threads s !! i = Some Checking ->
    step s (LThread i) (set_threads (<[i := if goes_on s then Polling else Exited]> (iq_threads s)) s)
| step_empty s i : iq_threads s !! i = Some Polling -> iq_queue s = [] -> step s (LThread i) (set_threads (<[i := Checking]> (iq_threads s)) s)
| step_get s i p q : iq_threads s !! i = Some Polling -> iq_queue s = p :: q ->
    step s (LTake p) (set_queue q (set_threads (<[i := Holding p]> (iq_threads s)) s))
| step_handle s i p : iq_threads s !! i = Some (Holding p) -> step s (LHandled p) (handle p (set_threads (<[i := Checking]> (iq_threads s)) s))
| step_stop s drain : iq_stopper s = None -> step s LStop (stop_accepting drain s)
| step_flag s drain : iq_stopper s = Some (Flagged drain) -> step s LStop (stop_flag drain s)
| step_joined s t : iq_stopper s = Some (Joining true t) -> alive s t = false -> step s LStop (set_stopper (Some (Draining t)) s)
| step_abandoned s t : iq_stopper s = Some (Joining false t) -> alive s t = false -> step s LAbandoned (stop_end s)
| step_timed_out s drain t : iq_stopper s = Some (Joining drain t) -> alive s t = true -> step s LTimedOut (stop_end s)
| step_drain s t p q : iq_stopper s = Some (Draining t) -> iq_queue s = p :: q -> step s (LTake p) (set_queue q (set_stopper (Some (DrainHolding t p)) s))
| step_drained s t p : iq_stopper s = Some (DrainHolding t p) -> step s (LHandled p) (handle p (set_stopper (Some (Draining t)) s))
| step_stopped s t : iq_stopper s = Some (Draining t) -> iq_queue s = [] -> step s LStopped (stop_end s)
| step_set_handler s f : step s (LSetHandler f) (set_worker_handler f s).

(** ** Views *)
Definition accepted (log : list label) : list P := omap (fun a => match a with LReturn p true => Some p | _ => None end) log.
Definition refused (log : list label) : list P := omap (fun a => match a with LReturn p false => Some p | _ => None end) log.
Definition handled (log : list label) : list P := omap (fun a => match a with LHandled p => Some p | _ => None end) log.
Definition held (ts : list thread) : list P := omap (fun t => match t with Holding p => Some p | _ => None end) ts.
Definition drain_held (o : option stopper) : list P := match o with Some (DrainHolding _ p) => [p] | _ => [] end.
(** What has been taken out of the queue and is in the hands of a thread *)
Definition in_hand (s : ingest) : list P := held (iq_threads s) ++ drain_held (iq_stopper s).
(** What the handlers have done to the world *)
Definition effect (hx : option handler * X) (a : label) : option handler * X :=
  match a with
  | LSetHandler f => (Some f, hx.2)
  | LHandled p => (hx.1, call hx.1 p hx.2)
  | _ => hx
  end.
End ingest.

Arguments handler : clear implicits.
Arguments thread : clear implicits.
Arguments stopper : clear implicits.
Arguments ingest : clear implicits.
Arguments label : clear implicits.

Ltac fields := unfold in_hand; cbn [iq_queue iq_threads iq_stopper iq_dropped_total set_threads set_queue set_stopper set_callers stop_accepting stop_flag stop_end].

Section facts.
Context {P X : Type} (maxsize : nat).
Implicit Types (hx : option (handler P X) * X) (s : ingest P X) (log : list (label P X)).

(** ** Accepted writes are not lost in the queue *)
Record conserved (hx : option (handler P X) * X) log s : Prop := {
  cs_world : (iq_handler s, iq_world s) = foldl effect hx log;
  cs_all : accepted log ≡ₚ handled log ++ in_hand s ++ iq_queue s;
  cs_size : (length (iq_queue s) <= maxsize)%nat;
  cs_dropped : iq_dropped_total s = Z.of_nat (length (refused log))
}.

Lemma accepted_snoc log (a : label P X) : accepted (log ++ [a]) = accepted log ++ accepted [a].
Proof. unfold accepted. by rewrite omap_app. Qed.
Lemma refused_snoc log (a : label P X) : refused (log ++ [a]) = refused log ++ refused [a].
Proof. unfold refused. by rewrite omap_app. Qed.
Lemma handled_snoc log (a : label P X) : handled (log ++ [a]) = handled log ++ handled [a].
Proof. unfold handled. by rewrite omap_app. Qed.
Lemma held_app (ts ts' : list (thread P)) : held (ts ++ ts') = held ts ++ held ts'.
Proof. unfold held. by rewrite omap_app. Qed.
Lemma held_update (ts : list (thread P)) i t t' : ts !! i = Some t ->
  exists l1 l2, held ts = l1 ++ held [t] ++ l2 /\ held (<[i := t']> ts) = l1 ++ held [t'] ++ l2.
Proof.
  intros Hi. exists (held (take i ts)), (held (drop (S i) ts)). rewrite insert_take_drop by (by eapply lookup_lt_Some).
  rewrite <- (take_drop_middle ts i t Hi) at 1. by rewrite <- !held_app.
Qed.
(** A step that moves no payload *)
Lemma conserved_same hx log s s' (a : label P X) : (iq_handler s', iq_world s') = effect (iq_handler s, iq_world s) a -> accepted [a] = [] -> handled [a] = [] -> refused [a] = [] -> in_hand s' = in_hand s -> iq_queue s' = iq_queue s ->
  iq_dropped_total s' = iq_dropped_total s -> conserved hx log s -> conserved hx (log ++ [a]) s'.
Proof.
  intros H0 H1 H2 H3 H4 H5 H6 [K0 K1 K2 K3]. split; rewrite ?foldl_snoc, <- ?K0, ?accepted_snoc, ?handled_snoc, ?refused_snoc, ?H1, ?H2, ?H3, ?app_nil_r, ?H4, ?H5, ?H6; done.
Qed.
Lemma held_same (ts : list (thread P)) i t t' : ts !! i = Some t -> held [t] = held [t'] -> held (<[i := t']> ts) = held ts.
Proof. intros Hi E. destruct (held_update ts i t t' Hi) as (l1&l2&->&->). by rewrite E. Qed.
Lemma handle_fields p s : iq_queue (handle p s) = iq_queue s /\ iq_threads (handle p s) = iq_threads s /\
  iq_stopper (handle p s) = iq_stopper s /\ iq_dropped_total (handle p s) = iq_dropped_total s /\
  iq_callers (handle p s) = iq_callers s /\ iq_accepting (handle p s) = iq_accepting s /\ iq_stop_event (handle p s) = iq_stop_event s.
Proof. done. Qed.
Lemma put_conserved hx log p s s' ok : put maxsize p s = (s', ok) -> conserved hx log s -> conserved hx (log ++ [LReturn p ok]) s'.
Proof.
  unfold put. intros Hp [K0 K1 K2 K3]. destruct (Nat.ltb_spec (length (iq_queue s)) maxsize); injection Hp as <- <-; split; cbn;
    rewrite ?foldl_snoc, <- ?K0, ?accepted_snoc, ?handled_snoc, ?refused_snoc, ?app_nil_r, ?length_app; cbn; rewrite ?app_nil_r; try done; try lia.
  rewrite K1. unfold in_hand. cbn. by rewrite !app_assoc.
Qed.
Lemma take_conserved hx log p q s s' l1 l2 : iq_queue s = p :: q -> iq_queue s' = q -> in_hand s = l1 ++ l2 -> in_hand s' = l1 ++ p :: l2 ->
  iq_dropped_total s' = iq_dropped_total s -> (iq_handler s', iq_world s') = (iq_handler s, iq_world s) -> conserved hx log s -> conserved hx (log ++ [LTake p]) s'.
Proof.
  intros Hq Hq' Hh Hh' Hd He [K0 K1 K2 K3]. split; rewrite ?foldl_snoc, <- ?K0, ?accepted_snoc, ?handled_snoc, ?refused_snoc, ?app_nil_r, ?Hd; try done.
  - rewrite K1, Hq, Hq', Hh, Hh'. apply Permutation_app_head. rewrite <- !app_assoc. apply Permutation_app_head. cbn. symmetry. apply Permutation_middle.
  - rewrite Hq in K2. rewrite Hq'. cbn in K2. lia.
Qed.
Lemma handled_conserved hx log p s s' l1 l2 : iq_queue s' = iq_queue s -> in_hand s = l1 ++ p :: l2 -> in_hand s' = l1 ++ l2 ->
  iq_dropped_total s' = iq_dropped_total s -> (iq_handler s', iq_world s') = (iq_handler s, call (iq_handler s) p (iq_world s)) -> conserved hx log s -> conserved hx (log ++ [LHandled p]) s'.
Proof.
  intros Hq Hh Hh' Hd He [K0 K1 K2 K3]. split; rewrite ?foldl_snoc, <- ?K0, ?accepted_snoc, ?handled_snoc, ?refused_snoc, ?app_nil_r, ?Hd, ?Hq; try done.
  rewrite K1, Hh, Hh'. cbn. rewrite <- !app_assoc. apply Permutation_app_head. cbn. symmetry. apply Permutation_middle.
Qed.
Lemma conserved_step hx log s a s' : step maxsize s a s' -> conserved hx log s -> conserved hx (log ++ [a]) s'.
Proof.
  intros Hs Hc. destruct Hs as [s p Ha|s p Ha|s p l1 l2 s' ok Hcl Hp|s|s i Hi|s i Hi Hq|s i p q Hi Hq|s i p Hi|s d Hs|s d Hs|s t Hs Hal|s t Hs Hal|s d t Hs Hal|s t p q Hs Hq|s t p Hs|s t Hs Hq|s f].
  - revert Hc. by apply conserved_same.
  - destruct Hc as [K0 K1 K2 K3]. split; cbn; rewrite ?foldl_snoc, <- ?K0, ?accepted_snoc, ?handled_snoc, ?refused_snoc, ?app_nil_r, ?length_app; try done. cbn. lia.
  - eapply put_conserved; [done|]. by destruct Hc.
  - unfold start. destruct (alive s (iq_thread s)); revert Hc; apply conserved_same; try done.
    change (held (iq_threads s ++ [Checking]) ++ drain_held (iq_stopper s) = in_hand s). rewrite held_app. cbn. by rewrite app_nil_r.
  - revert Hc. apply conserved_same; try done. fields. by rewrite (held_same _ i Checking) by (by destruct (goes_on s)).
  - revert Hc. apply conserved_same; try done. fields. by rewrite (held_same _ i Polling).
  - destruct (held_update (iq_threads s) i _ (Holding p) Hi) as (l1&l2&E1&E2). revert Hc. eapply (take_conserved _ _ p q _ _ l1 (l2 ++ drain_held (iq_stopper s))); try done;
      fields; rewrite ?E1, ?E2; cbn; by rewrite <- app_assoc.
  - destruct (held_update (iq_threads s) i _ Checking Hi) as (l1&l2&E1&E2).
    destruct (handle_fields p (set_threads (<[i := Checking]> (iq_threads s)) s)) as (F1&F2&F3&F4&_).
    revert Hc. eapply (handled_conserved _ _ p _ _ l1 (l2 ++ drain_held (iq_stopper s))); try done; fields; rewrite ?F2, ?F3; fields; rewrite ?E1, ?E2; cbn; by rewrite <- app_assoc.
  - revert Hc. apply conserved_same; try done. fields. by rewrite Hs.
  - revert Hc. apply conserved_same; try done. fields. by rewrite Hs.
  - revert Hc. apply conserved_same; try done. fields. by rewrite Hs.
  - revert Hc. apply conserved_same; try done. fields. by rewrite Hs.
  - revert Hc. apply conserved_same; try done. fields. by rewrite Hs.
  - revert Hc. eapply (take_conserved _ _ p q _ _ (held (iq_threads s)) []); try done; unfold in_hand; cbn; by rewrite ?Hs.
  - destruct (handle_fields p (set_stopper (Some (Draining t)) s)) as (F1&F2&F3&F4&_).
    revert Hc. eapply (handled_conserved _ _ p _ _ (held (iq_threads s)) []); try done; unfold in_hand; rewrite ?F2, ?F3; cbn; by rewrite ?Hs.
  - revert Hc. apply conserved_same; try done. fields. by rewrite Hs.
  - revert Hc. by apply conserved_same.
Qed.

Lemma trace_conserved h x s0 log s : new_queue maxsize h x = Ok s0 -> trace (step maxsize) s0 log s -> conserved (h, x) log s.
Proof.
  unfold new_queue. destruct (maxsize <=? 0)%nat; [done|]. injection 1 as <-.
  apply (trace_ind_snoc (step maxsize) (conserved (h, x))); [|intros; by eapply conserved_step]. split; cbn; [done|done|lia|done].
Qed.


(** ** A shutdown that waits for its thread *)

(** [stop] is waiting, nobody is inside [enqueue], and only the thread it waits for is left. *)
Record closing (t : option nat) s : Prop := {
  cl_closed : iq_accepting s = false;
  cl_flag : iq_stop_event s = true;
  cl_callers : iq_callers s = [];
  cl_threads i w : iq_threads s !! i = Some w -> Some i <> t -> w = Exited;
  cl_stopper : iq_stopper s = Some (Joining true t) \/ alive s t = false /\ (iq_stopper s = Some (Draining t) \/ exists p, iq_stopper s = Some (DrainHolding t p))
}.
Definition undisturbed (a : label P X) : Prop := match a with LStart | LTimedOut | LAbandoned | LStopped => False | _ => True end.

Lemma alive_insert s i w t : iq_threads s !! i = Some w -> alive s t = false -> w <> Exited -> Some i <> t.
Proof. intros Hi Ha Hw <-. unfold alive in Ha. rewrite Hi in Ha. by destruct w. Qed.
Lemma closing_threads t s i w w' : closing t s -> iq_threads s !! i = Some w -> w <> Exited ->
  Some i = t /\ iq_stopper s = Some (Joining true t) /\ (forall j v, <[i := w']> (iq_threads s) !! j = Some v -> Some j <> t -> v = Exited).
Proof.
  intros [_ _ _ K4 K5] Hi Hw. assert (Some i = t) as <-.
  { destruct (decide (Some i = t)); [done|]. by destruct Hw; apply (K4 i). }
  split_and!; [done| |].
  - destruct K5 as [?|[Ha _]]; [done|]. by destruct (alive_insert s i w (Some i) Hi Ha Hw).
  - intros j v Hj Hn. apply (K4 j); [|done]. rewrite list_lookup_insert_ne in Hj by congruence. done.
Qed.
Lemma closing_step t s a s' : step maxsize s a s' -> undisturbed a -> closing t s -> closing t s'.
Proof.
  intros Hs Hu Hc. pose proof Hc as [K1 K2 K3 K4 K5].
  destruct Hs as [s p Ha|s p Ha|s p l1 l2 s' ok Hcl Hp|s|s i Hi|s i Hi Hq|s i p q Hi Hq|s i p Hi|s d Hs|s d Hs|s t' Hs Hal|s t' Hs Hal|s d t' Hs Hal|s t' p q Hs Hq|s t' p Hs|s t' Hs Hq|s f]; try done.
  - congruence.
  - rewrite K3 in Hcl. by destruct l1.
  - destruct (closing_threads t s i _ (if goes_on s then Polling else Exited) Hc Hi ltac:(done)) as (_&Hj&Ht). split; cbn; try done. by left.
  - destruct (closing_threads t s i _ Checking Hc Hi ltac:(done)) as (_&Hj&Ht). split; cbn; try done. by left.
  - destruct (closing_threads t s i _ (Holding p) Hc Hi ltac:(done)) as (_&Hj&Ht). split; cbn; try done. by left.
  - destruct (closing_threads t s i _ Checking Hc Hi ltac:(done)) as (_&Hj&Ht).
    destruct (handle_fields p (set_threads (<[i := Checking]> (iq_threads s)) s)) as (F1&F2&F3&_&F4&F5&F6).
    split; rewrite ?F2, ?F3, ?F4, ?F5, ?F6; cbn; try done. by left.
  - destruct K5 as [?|[_ [?|[? ?]]]]; congruence.
  - destruct K5 as [?|[_ [?|[? ?]]]]; congruence.
  - destruct K5 as [E|[_ [?|[? ?]]]]; [|congruence..]. replace t' with t in * by congruence. split; cbn; try done. right. split; [done|by left].
  - destruct K5 as [?|[Ha [E|[? ?]]]]; [congruence| |congruence]. replace t' with t in * by congruence. split; cbn; try done. right. split; [done|]. right. by exists p.
  - destruct K5 as [?|[Ha [?|[p' E]]]]; [congruence..|]. replace t' with t in * by congruence.
    destruct (handle_fields p (set_stopper (Some (Draining t)) s)) as (F1&F2&F3&_&F4&F5&F6).
    split; rewrite ?F2, ?F3, ?F4, ?F5, ?F6; cbn; try done. right. split; [|by left]. unfold alive in *. by rewrite F2.
Qed.
Lemma closing_trace t s log s' : trace (step maxsize) s log s' -> Forall undisturbed log -> closing t s -> closing t s'.
Proof. induction 1 as [|s a s1 log s2 Hs _ IH]; intros Hf Hc; [done|]. apply Forall_cons in Hf as [Ha Hf]. apply IH; [done|]. by eapply closing_step. Qed.
Lemma all_exited (ts : list (thread P)) : (forall i w, ts !! i = Some w -> w = Exited) -> held ts = [].
Proof.
  induction ts as [|w ts IH]; intros H; [done|]. rewrite (H 0%nat w eq_refl). change (held (Exited :: ts)) with (held ts). apply IH. intros i v Hi. by apply (H (S i)).
Qed.
Lemma closing_stopped t s s' : closing t s -> step maxsize s LStopped s' -> in_hand s' = [] /\ iq_queue s' = [] /\ iq_thread s' = None.
Proof.
  intros [_ _ _ K4 K5] Hs. inversion Hs as [| | | | | | | | | | | | | | |s0 t' Hst Hq|]; subst. cbn. split_and!; [|done|done].
  fields. cbn. rewrite app_nil_r. apply all_exited. intros i w Hi. destruct (decide (Some i = t)) as [<-|Hn]; [|by apply (K4 i)].
  destruct K5 as [?|[Ha _]]; [congruence|]. unfold alive in Ha. rewrite Hi in Ha. by destruct w.
Qed.

(** The shutdown ends: every step of its thread or of [stop] itself brings it nearer. *)
Definition thread_work (q : list P) (w : option (thread P)) : nat :=
  match w with
  | None | Some Exited => 0
  | Some Checking => match q with [] => 1 | _ => 3 end
  | Some Polling => 2
  | Some (Holding _) => 4
  end.
Definition stop_work (o : option (stopper P)) : nat :=
  match o with Some (Joining _ _) => 3 | Some (DrainHolding _ _) => 2 | Some (Draining _) => 1 | _ => 0 end.
Definition work_left (t : option nat) s : nat :=
  4 * length (iq_queue s) + thread_work (iq_queue s) (t ≫= fun i => iq_threads s !! i) + stop_work (iq_stopper s).

Lemma closing_progress t s : closing t s ->
  (exists s', step maxsize s LStopped s') \/ exists a s', step maxsize s a s' /\ undisturbed a /\ (work_left t s' < work_left t s)%nat.
Proof.
  intros [K1 K2 K3 K4 K5]. destruct K5 as [Hj|[Ha [Hd|[p Hd]]]].
  - right. destruct (alive s t) eqn:Ea; [|exists LStop; eexists; split; [by apply (step_joined _ s t)|split; [done|]]; unfold work_left; fields; rewrite Hj; cbn [stop_work]; lia].
    destruct t as [i|]; [|done]. unfold alive in Ea. destruct (iq_threads s !! i) as [w|] eqn:Hi; [|done]. pose proof (lookup_lt_Some _ _ _ Hi) as Hlt. unfold work_left. cbn [mbind option_bind]. rewrite Hi.
    destruct w as [| |p|]; [| | |done].
    + exists (LThread i). eexists. split; [by apply step_loop|]. split; [done|]. fields. rewrite list_lookup_insert_eq by done. unfold goes_on. rewrite K2.
      destruct (iq_queue s); cbn; lia.
    + destruct (iq_queue s) as [|p q] eqn:Hq.
      * exists (LThread i). eexists. split; [by apply step_empty|]. split; [done|]. fields. rewrite list_lookup_insert_eq, Hq by done. cbn. lia.
      * exists (LTake p). eexists. split; [by apply (step_get _ s i p q)|]. split; [done|]. fields. rewrite list_lookup_insert_eq by done. cbn. lia.
    + exists (LHandled p). eexists. split; [by apply (step_handle _ s i)|]. split; [done|].
      destruct (handle_fields p (set_threads (<[i := Checking]> (iq_threads s)) s)) as (->&->&->&_). fields. rewrite list_lookup_insert_eq by done. destruct (iq_queue s); cbn; lia.
  - destruct (iq_queue s) as [|p q] eqn:Hq; [left; eexists; by apply (step_stopped _ s t)|]. right. exists (LTake p). eexists. split; [by apply (step_drain _ s t p q)|]. split; [done|].
    unfold work_left. fields. rewrite Hq, Hd. assert (thread_work (p :: q) (t ≫= fun i => iq_threads s !! i) = 0%nat /\ thread_work q (t ≫= fun i => iq_threads s !! i) = 0%nat) as [-> ->];
      [|cbn; lia]. unfold alive in Ha. destruct t as [i|]; [|done]. cbn. destruct (iq_threads s !! i) as [[]|]; done.
  - right. exists (LHandled p). eexists. split; [by apply (step_drained _ s t p)|]. split; [done|]. unfold work_left.
    destruct (handle_fields p (set_stopper (Some (Draining t)) s)) as (->&->&->&_). fields. rewrite Hd. cbn. lia.
Qed.
Lemma closing_ends t s : closing t s -> exists log s', trace (step maxsize) s (log ++ [LStopped]) s' /\ Forall undisturbed log.
Proof.
  remember (work_left t s) as n eqn:Hn. revert s Hn. induction (lt_wf n) as [n _ IH]. intros s -> Hc.
  destruct (closing_progress t s Hc) as [[s' Hs]|(a&s1&Hs&Hu&Hlt)].
  - exists [], s'. split; [|constructor]. econstructor; [done|constructor].
  - destruct (IH _ Hlt s1 eq_refl (closing_step t s a s1 Hs Hu Hc)) as (log&s'&Ht&Hf). exists (a :: log), s'. split; [by econstructor|by constructor].
Qed.


(** ** A write that is accepted after the shutdown *)
Definition idle s : Prop := iq_stopper s = None /\ forall i w, iq_threads s !! i = Some w -> w = Exited.
Definition restarts (a : label P X) : bool := match a with LStart | LStop => true | _ => false end.

Lemma idle_step s a s' : step maxsize s a s' -> restarts a = false -> idle s -> idle s' /\ handled [a] = [].
Proof.
  intros Hs Hr [I1 I2]. destruct Hs as [s p Ha|s p Ha|s p l1 l2 s' ok Hcl Hp|s|s i Hi|s i Hi Hq|s i p q Hi Hq|s i p Hi|s d Hs|s d Hs|s t Hs Hal|s t Hs Hal|s d t Hs Hal|s t p q Hs Hq|s t p Hs|s t Hs Hq|s f];
    try done; try (by rewrite I1 in Hs); try (by specialize (I2 i _ Hi)).
  unfold put in Hp. by destruct (_ <? _)%nat; injection Hp as <- <-.
Qed.
Lemma idle_trace s log s' : trace (step maxsize) s log s' -> Forall (fun a => restarts a = false) log -> idle s -> handled log = [].
Proof.
  induction 1 as [|s a s1 log s2 Hs _ IH]; intros Hf Hi; [done|]. apply Forall_cons in Hf as [Ha Hf]. destruct (idle_step s a s1 Hs Ha Hi) as [Hi' E].
  change (handled ([a] ++ log) = []). unfold handled in *. rewrite omap_app, E. by apply IH.
Qed.

Definition late_write (p : P) : list (label P X) :=
  [LStart; LEnter p; LStop; LStop; LThread 0; LStop; LStopped; LReturn p true].

(** A write can be accepted and lost.  [enqueue] tests [_accepting] before it puts: a
    caller that passes the test before a shutdown and puts after it gets True, although the
    thread has ended and the drain is over, and unless the queue is started or stopped once
    more nothing is processed from then on. *)
Theorem late_write_lost h x s0 p : new_queue maxsize h x = Ok s0 ->
  exists s, trace (step maxsize) s0 (late_write p) s /\ accepted (late_write p) = [p] /\ iq_queue s = [p] /\
    forall log s', trace (step maxsize) s log s' -> Forall (fun a => restarts a = false) log -> handled (late_write p ++ log) = [].
Proof.
  unfold new_queue. destruct (Nat.leb_spec maxsize 0) as [|Hm]; [done|]. injection 1 as <-.
  eexists. split_and!; [|done|shelve|].
  - do 7 (eapply trace_cons; [first [apply step_start|by apply step_enter|by apply (step_stop _ _ true)|by apply (step_flag _ _ true)|
      by apply (step_loop _ _ 0)|by eapply step_joined|by eapply step_stopped]|]).
    eapply trace_cons; [apply (step_put _ _ p [] []); [done|]|apply trace_nil].
    unfold put. rewrite (proj2 (Nat.ltb_lt _ maxsize)); [done|exact Hm].
  - intros log s' Ht Hf. unfold handled. rewrite omap_app. apply (idle_trace _ log s' Ht Hf). split; [done|]. intros [|[|i]] w Hi; [by injection Hi as <-|done..].
  Unshelve. done.
Qed.
End facts.

(** ** Witnesses *)
Definition demo_handler : handler nat (list nat) := fun p x => (x ++ [p], if (p =? 9)%nat then Raise (Exn "OperationalError" "down") else Ok tt).
Definition demo_queue : ingest nat (list nat) := MkIngest [] true false None [] None [] 0 (Some demo_handler) [].
(** A queue of one place: write 9 is accepted, 4 is refused, 9 is processed and its handler
    raises, 5 is accepted, and then [stop] begins. *)
Definition demo_log : list (label nat (list nat)) :=
  [LStart; LEnter 9%nat; LEnter 4%nat; LReturn 9%nat true; LReturn 4%nat false; LThread 0; LTake 9%nat; LHandled 9%nat; LEnter 5%nat; LReturn 5%nat true; LStop; LStop].
Definition demo_state : ingest nat (list nat) :=
  MkIngest [5%nat] false true (Some 0%nat) [Checking] (Some (Joining true (Some 0%nat))) [] 1 (Some demo_handler) [9%nat].

Ltac play := eapply trace_cons;
  [first [apply step_start|by apply step_enter|by apply (step_put _ _ _ [] [])|by apply (step_put _ _ _ [4%nat] [])|by apply (step_loop _ _ 0)|by apply (step_get _ _ 0)|
          by apply (step_handle _ _ 0)|by apply (step_stop _ _ true)|by apply (step_flag _ _ true)]|cbn].
Lemma demo_trace : trace (step 1) demo_queue demo_log demo_state.
Proof. unfold demo_log, demo_queue. do 12 play. apply trace_nil. Qed.



Lemma late_write_lost_witness : exists s, trace (step 1) demo_queue (late_write 5%nat) s /\ iq_queue s = [5%nat].
Proof. destruct (late_write_lost 1 (Some demo_handler) [] demo_queue 5%nat eq_refl) as (s&Ht&_&Hq&_). by exists s. Defined.
