(* ===== verification/Tasks.v ===== *)
(** * Tasks of users ([apps/tasks/services/task_service.py], [apps/tasks/models.py],
    [apps/tasks/syscalls/syscall_handlers.py])

    The table of tasks behind a session that does not flush on queries
    ([SessionLocal] has [autoflush=False]): a query filters what has been flushed and returns
    objects with the changes of the session.  Times are microseconds, also
    [time_spent], which the code keeps as floating-point seconds.  The services that
    completion calls (memory, scores, masterplans, automation) are parameters, which may
    also flush, commit or roll back the session they are given.  One call is executed
    after the other. *)
From S2P Require Import Prelude PyEffects PyDatetime PyUuid Json WaitCondition ExecutionUnit.
Local Open Scope Z_scope.

(** ** Rows *)
Record dependency := MkDependency { dep_task : Z; dep_type : string }.
Record Task := MkTask {
  t_id : Z;
  t_name : string;
  t_category : option string;
  t_priority : option string;
  t_status : string;
  t_masterplan_id : option Z;
  t_parent_task_id : option Z;
  t_depends_on : list dependency;
  t_dependency_type : string;
  t_automation_type : option string;
  t_automation_config : option json;
  t_due_date : option Z;
  t_start_time : option Z;
  t_end_time : option Z;
  t_scheduled_time : option Z;
  t_reminder_time : option Z;
  t_recurrence : option string;
  t_time_spent : Z;
  t_user_id : UUID
}.
Definition with_status (st : string) (t : Task) : Task :=
  MkTask (t_id t) (t_name t) (t_category t) (t_priority t) st (t_masterplan_id t) (t_parent_task_id t) (t_depends_on t) (t_dependency_type t)
    (t_automation_type t) (t_automation_config t) (t_due_date t) (t_start_time t) (t_end_time t) (t_scheduled_time t) (t_reminder_time t)
    (t_recurrence t) (t_time_spent t) (t_user_id t).
Definition with_times (start stop : option Z) (spent : Z) (t : Task) : Task :=
  MkTask (t_id t) (t_name t) (t_category t) (t_priority t) (t_status t) (t_masterplan_id t) (t_parent_task_id t) (t_depends_on t) (t_dependency_type t)
    (t_automation_type t) (t_automation_config t) (t_due_date t) start stop (t_scheduled_time t) (t_reminder_time t)
    (t_recurrence t) spent (t_user_id t).
Definition with_reminder (r : option Z) (t : Task) : Task :=
  MkTask (t_id t) (t_name t) (t_category t) (t_priority t) (t_status t) (t_masterplan_id t) (t_parent_task_id t) (t_depends_on t) (t_dependency_type t)
    (t_automation_type t) (t_automation_config t) (t_due_date t) (t_start_time t) (t_end_time t) (t_scheduled_time t) r
    (t_recurrence t) (t_time_spent t) (t_user_id t).
Definition with_automation (ty : option string) (cfg : option json) (t : Task) : Task :=
  MkTask (t_id t) (t_name t) (t_category t) (t_priority t) (t_status t) (t_masterplan_id t) (t_parent_task_id t) (t_depends_on t) (t_dependency_type t)
    ty cfg (t_due_date t) (t_start_time t) (t_end_time t) (t_scheduled_time t) (t_reminder_time t)
    (t_recurrence t) (t_time_spent t) (t_user_id t).

(** ** Dependencies *)
Definition Z_in (z : Z) (l : list Z) : bool := bool_decide (z ∈ l).

(** [_normalize_dependencies] on what the schema [TaskDependency] lets through *)
Definition normalize_dependencies (l : list (option Z * option string)) : list dependency :=
  omap (fun d => match d.1 with None => None | Some z => Some (MkDependency z (str_or d.2 "hard")) end) l.
(** [_dependency_ids] *)
Definition dependency_ids (t : Task) : list Z :=
  let ids := map dep_task (t_depends_on t) in
  match t_parent_task_id t with
  | Some p => if Z_in p ids then ids else ids ++ [p]
  | None => ids
  end.

(** ** The graph of tasks ([build_task_graph]) *)
Record node := MkNode {
  n_task_id : Z;
  n_name : string;
  n_priority : option string;
  n_status : string;
  n_depends_on : list Z;
  n_automation_type : option string;
  n_masterplan_id : option Z
}.
Definition node_of (t : Task) : node :=
  MkNode (t_id t) (t_name t) (t_priority t) (t_status t) (dependency_ids t) (t_automation_type t) (t_masterplan_id t).
(** [nodes[id] = node] keeps the place of a key that is there *)
Fixpoint node_set (ns : list node) (n : node) : list node :=
  match ns with
  | [] => [n]
  | m :: ns' => if n_task_id m =? n_task_id n then n :: ns' else m :: node_set ns' n
  end.
Definition nodes_of (tasks : list Task) : list node := foldl (fun ns t => node_set ns (node_of t)) [] tasks.
Definition find_node (ns : list node) (id : Z) : option node := List.find (fun n => n_task_id n =? id) ns.
Definition node_ids (ns : list node) : list Z := map n_task_id ns.

(** [m[k]] of a dictionary that has the key *)
Definition children (downstream : gmap Z (list Z)) (id : Z) : list Z := default [] (downstream !! id).
Definition degree (indegree : gmap Z Z) (id : Z) : Z := default 0 (indegree !! id).

Definition link (ns : list node) (id : Z) (g : gmap Z (list Z) * gmap Z Z) (d : Z) : gmap Z (list Z) * gmap Z Z :=
  if Z_in d (node_ids ns) then (<[d := children g.1 d ++ [id]]> g.1, <[id := degree g.2 id + 1]> g.2) else g.
Definition links (ns : list node) : gmap Z (list Z) * gmap Z Z :=
  foldl (fun g n => foldl (link ns (n_task_id n)) g (n_depends_on n))
    (list_to_map (map (fun id => (id, [])) (node_ids ns)), list_to_map (map (fun id => (id, 0)) (node_ids ns))) ns.

(** The body of the inner loop *)
Definition release (s : gmap Z Z * list Z) (child : Z) : gmap Z Z * list Z :=
  let d := degree s.1 child - 1 in
  (<[child := d]> s.1, if d =? 0 then s.2 ++ [child] else s.2).
(** The loop over the queue; [None]: not ended after [fuel] rounds *)
Fixpoint topo (downstream : gmap Z (list Z)) (fuel : nat) (indegree : gmap Z Z) (queue order : list Z) : option (list Z) :=
  match queue with
  | [] => Some order
  | current :: rest =>
      match fuel with
      | O => None
      | S fuel' =>
          let s := foldl release (indegree, rest) (children downstream current) in
          topo downstream fuel' s.1 s.2 (order ++ [current])
      end
  end.
Definition roots (ns : list node) (indegree : gmap Z Z) : list Z :=
  merge_sort Z.le (List.filter (fun id => degree indegree id =? 0) (node_ids ns)).

Definition weight (w : gmap Z Z) (id : Z) : Z := default 1 (w !! id).
Definition weigh (downstream : gmap Z (list Z)) (w : gmap Z Z) (id : Z) : gmap Z Z :=
  match children downstream id with
  | [] => w
  | c :: cs => <[id := 1 + foldl Z.max (weight w c) (map (weight w) cs)]> w
  end.
Definition critical_weights (ns : list node) (downstream : gmap Z (list Z)) (order : list Z) : gmap Z Z :=
  foldl (weigh downstream) (list_to_map (map (fun id => (id, 1)) (node_ids ns))) (rev order).

Definition status_of (ns : list node) (id : Z) : string := match find_node ns id with Some n => n_status n | None => "" end.
Definition deps_of (ns : list node) (id : Z) : list Z := match find_node ns id with Some n => n_depends_on n | None => [] end.
Definition is_ready (ns : list node) (id : Z) : bool :=
  str_in (status_of ns id) ["pending"; "paused"; "in_progress"] &&
  forallb (fun d => if Z_in d (node_ids ns) then status_of ns d =s "completed" else true) (deps_of ns id).

Record graph := MkGraph {
  g_nodes : list node;
  g_downstream : gmap Z (list Z);
  g_topological_order : list Z;
  g_critical_weight : gmap Z Z;
  g_ready : list Z;
  g_blocked : list Z
}.
Definition graph_fuel (ns : list node) : nat := length ns.
(** [TaskGraphFacts.topo_ends] shows that the fuel is enough. *)
Definition OutOfFuel : exn := Exn "OutOfFuel" "".
Definition build_task_graph (tasks : list Task) : result graph :=
  let ns := nodes_of tasks in
  let '(downstream, indegree) := links ns in
  match topo downstream (graph_fuel ns) indegree (roots ns indegree) [] with
  | None => Raise OutOfFuel
  | Some order =>
      if negb (length order =? length ns)%nat then Raise (Exn "ValueError" "task_dependency_cycle_detected")
      else
        let ready := List.filter (is_ready ns) order in
        Ok (MkGraph ns downstream order (critical_weights ns downstream order) ready
          (List.filter (fun id => negb (status_of ns id =s "completed") && negb (Z_in id ready)) order))
  end.

(** The key of the sort in [get_task_graph_context] *)
Definition priority_rank (p : option string) : Z :=
  match p with Some s => if s =s "high" then 0 else if s =s "medium" then 1 else 2 | None => 2 end.
Definition rank (g : graph) (id : Z) : Z * Z * Z :=
  (- default 0 (g_critical_weight g !! id), match find_node (g_nodes g) id with Some n => priority_rank (n_priority n) | None => 2 end, id).
Definition rank_le (a b : Z * Z * Z) : Prop :=
  a.1.1 < b.1.1 \/ a.1.1 = b.1.1 /\ (a.1.2 < b.1.2 \/ a.1.2 = b.1.2 /\ a.2 <= b.2).
#[export] Instance rank_le_dec : RelDecision rank_le.
Proof. intros a b. unfold rank_le. apply _. Defined.
Definition by_rank (g : graph) : relation Z := fun a b => rank_le (rank g a) (rank g b).
#[export] Instance by_rank_dec g : RelDecision (by_rank g).
Proof. intros a b. unfold by_rank. apply _. Defined.

Record graph_context := MkContext {
  gc_nodes : list node;
  gc_ready : list Z;
  gc_blocked : list Z;
  gc_critical_path : list Z;
  gc_critical_weight : gmap Z Z
}.
Definition empty_context : graph_context := MkContext [] [] [] [] ∅.
Definition context_of (tasks : list Task) : result graph_context :=
  match tasks with
  | [] => Ok empty_context
  | _ => g ← build_task_graph tasks;
      let path := merge_sort (by_rank g) (g_ready g) in
      Ok (MkContext (g_nodes g) path (g_blocked g) path (g_critical_weight g))
  end.
