(* ===== verification/TaskGraph.v ===== *)
(** * The graph of tasks

    Facts on [build_task_graph] of [Tasks]: its loop ends, it finds an order exactly when
    the dependencies have no cycle, and the weights are the lengths of the longest chains. *)
From S2P Require Import Prelude PyEffects PyUuid Json ExecutionUnit Tasks.
Local Open Scope Z_scope.

Section graph.
Variable ns : list node.
Hypothesis Hnd : NoDup (node_ids ns).

(** The edges in the order the code visits them: a dependency and the task that needs it *)
Definition node_edges (n : node) : list (Z * Z) := map (fun d => (d, n_task_id n)) (List.filter (fun d => Z_in d (node_ids ns)) (n_depends_on n)).
Definition edges : list (Z * Z) := concat (map node_edges ns).
Definition targets (es : list (Z * Z)) (d : Z) : list Z := map snd (List.filter (fun e => e.1 =? d) es).
(** The dependencies of [c] that are not in [order] *)
Definition left (es : list (Z * Z)) (order : list Z) (c : Z) : nat := length (List.filter (fun e => (e.2 =? c) && negb (Z_in e.1 order)) es).

Lemma Z_in_spec z l : Z_in z l = true <-> z ∈ l.
Proof. unfold Z_in. apply bool_decide_eq_true. Qed.
Lemma Z_in_nil z : Z_in z [] = false.
Proof. unfold Z_in. apply bool_decide_eq_false. apply not_elem_of_nil. Qed.
Lemma edges_ids d c : (d, c) ∈ edges -> d ∈ node_ids ns /\ c ∈ node_ids ns.
Proof.
  unfold edges. rewrite list_elem_of_In, in_concat. intros (l&Hl&Hin). apply in_map_iff in Hl as (n&<-&Hn).
  unfold node_edges in Hin. apply in_map_iff in Hin as (d'&[= -> <-]&Hd). apply List.filter_In in Hd as [_ Hd]. apply Z_in_spec in Hd.
  split; [done|]. apply list_elem_of_In, in_map_iff. by exists n.
Qed.

(** ** What the first loop builds *)
Definition add_edge (g : gmap Z (list Z) * gmap Z Z) (e : Z * Z) : gmap Z (list Z) * gmap Z Z :=
  (<[e.1 := children g.1 e.1 ++ [e.2]]> g.1, <[e.2 := degree g.2 e.2 + 1]> g.2).
Lemma link_edges n g : foldl (link ns (n_task_id n)) g (n_depends_on n) = foldl add_edge g (node_edges n).
Proof.
  unfold node_edges. revert g. induction (n_depends_on n) as [|d ds IH]; intros g; cbn; [done|]. unfold link at 2. destruct (Z_in d (node_ids ns)); cbn; apply IH.
Qed.
Lemma children_add g es d : children (foldl add_edge g es).1 d = children g.1 d ++ targets es d.
Proof.
  revert g. induction es as [|[d' c] es IH]; intros g; cbn; [by rewrite app_nil_r|]. rewrite IH. cbn. unfold children, targets. cbn. destruct (Z.eqb_spec d' d) as [->|Hn].
  - rewrite lookup_insert_eq. cbn. by rewrite <- app_assoc.
  - by rewrite lookup_insert_ne.
Qed.
Lemma degree_add g es c : degree (foldl add_edge g es).2 c = degree g.2 c + Z.of_nat (left es [] c).
Proof.
  revert g. induction es as [|[d c'] es IH]; intros g; cbn; [lia|]. rewrite IH. cbn. unfold degree, left. cbn [List.filter fst snd]. rewrite Z_in_nil. destruct (Z.eqb_spec c' c) as [->|Hn]; cbn.
  - rewrite lookup_insert_eq. cbn. lia.
  - by rewrite lookup_insert_ne.
Qed.
Lemma lookup_constant {A} (a : A) ids (id : Z) (m := list_to_map (map (fun id => (id, a)) ids) : gmap Z A) : m !! id = if bool_decide (id ∈ ids) then Some a else None.
Proof.
  unfold m. clear m. induction ids as [|x ids IH]; cbn; [by rewrite lookup_empty|]. destruct (decide (x = id)) as [->|Hn].
  - rewrite lookup_insert_eq, bool_decide_true; [done|apply list_elem_of_here].
  - rewrite lookup_insert_ne, IH by done. apply bool_decide_ext || (case_bool_decide as H1; case_bool_decide as H2; try done; rewrite elem_of_cons in H2; naive_solver).
Qed.
Lemma links_spec d c : children (links ns).1 d = targets edges d /\ degree (links ns).2 c = Z.of_nat (left edges [] c).
Proof.
  assert (forall l g, foldl (fun g n => foldl (link ns (n_task_id n)) g (n_depends_on n)) g l = foldl add_edge g (concat (map node_edges l))) as H.
  { induction l as [|n l IH]; intros g; cbn; [done|]. by rewrite IH, link_edges, foldl_app. }
  unfold links. rewrite H. fold edges. rewrite children_add, degree_add. unfold children, degree. cbn [fst snd].
  rewrite (lookup_constant []), (lookup_constant 0). by destruct (bool_decide (d ∈ _)), (bool_decide (c ∈ _)).
Qed.

(** ** The counting of open dependencies *)
Lemma left_snoc es order x c : x ∉ order -> (left es order c = left es (order ++ [x]) c + count_occ Z.eq_dec (targets es x) c)%nat.
Proof.
  intros Hx. unfold left, targets. induction es as [|[d c'] es IH]; cbn; [done|]. destruct (Z.eqb_spec c' c) as [->|Hc]; cbn.
  - destruct (Z.eqb_spec d x) as [->|Hd]; cbn.
    + replace (Z_in x order) with false by (symmetry; unfold Z_in; by apply bool_decide_eq_false).
      replace (Z_in x (order ++ [x])) with true by (symmetry; apply Z_in_spec; set_solver). cbn. destruct (Z.eq_dec c c); [|done]. lia.
    + replace (Z_in d (order ++ [x])) with (Z_in d order) by (unfold Z_in; apply bool_decide_ext; set_solver). destruct (Z_in d order); cbn; lia.
  - destruct (Z.eqb_spec d x) as [->|Hd]; cbn; [|done]. destruct (Z.eq_dec c' c); [done|]. lia.
Qed.
Lemma left_zero es order c : left es order c = 0%nat <-> forall d, (d, c) ∈ es -> d ∈ order.
Proof.
  unfold left. rewrite length_zero_iff_nil. split.
  - intros H d Hd. destruct (decide (d ∈ order)) as [|Hn]; [done|]. exfalso. assert (In (d, c) []) as []. rewrite <- H. apply List.filter_In. split; [by apply list_elem_of_In|].
    cbn. rewrite Z.eqb_refl. unfold Z_in. by rewrite bool_decide_false.
  - intros H. destruct (List.filter _ es) as [|[d c'] l] eqn:E; [done|]. exfalso. assert (In (d, c') (List.filter (fun e => (e.2 =? c) && negb (Z_in e.1 order)) es)) as Hin by (rewrite E; by left).
    apply List.filter_In in Hin as [Hin Ht]. cbn in Ht. apply andb_true_iff in Ht as [->%Z.eqb_eq Ht]. apply negb_true_iff in Ht. unfold Z_in in Ht. apply bool_decide_eq_false in Ht.
    apply Ht, H. by apply list_elem_of_In.
Qed.

Lemma list_eq_snoc_cases {A} (l1 : list A) c l2 o x : o ++ [x] = l1 ++ c :: l2 -> (exists l2', l2 = l2' ++ [x] /\ o = l1 ++ c :: l2') \/ (l2 = [] /\ c = x /\ l1 = o).
Proof.
  destruct l2 as [|y l2 _] using rev_ind; intros E.
  - right. apply app_inj_tail in E as [-> ->]. done.
  - left. exists l2. rewrite app_comm_cons, app_assoc in E. apply app_inj_tail in E as [-> ->]. done.
Qed.

(** ** One round of the loop *)
Lemma release_spec l : forall (deg : gmap Z Z) q, (forall c, Z.of_nat (count_occ Z.eq_dec l c) <= degree deg c) ->
  (forall c, degree (foldl release (deg, q) l).1 c = degree deg c - Z.of_nat (count_occ Z.eq_dec l c)) /\
  exists new, (foldl release (deg, q) l).2 = q ++ new /\ NoDup new /\
    forall c, c ∈ new <-> c ∈ l /\ degree deg c = Z.of_nat (count_occ Z.eq_dec l c).
Proof.
  induction l as [|x l IH]; intros deg q Hle.
  - split; [intros c; cbn; lia|]. exists []. rewrite app_nil_r. split_and!; [done|constructor|set_solver].
  - set (deg1 := <[x := degree deg x - 1]> deg). set (q1 := if degree deg x - 1 =? 0 then q ++ [x] else q).
    change (foldl release (deg, q) (x :: l)) with (foldl release (deg1, q1) l).
    assert (forall c, degree deg1 c = if Z.eq_dec x c then degree deg x - 1 else degree deg c) as Hd1.
    { intros c. unfold deg1, degree. destruct (Z.eq_dec x c) as [->|Hn]; [by rewrite lookup_insert_eq|by rewrite lookup_insert_ne]. }
    assert (forall c, count_occ Z.eq_dec (x :: l) c = if Z.eq_dec x c then S (count_occ Z.eq_dec l c) else count_occ Z.eq_dec l c) as Hco by done.
    destruct (IH deg1 q1) as [IH1 (new&IH2&IH3&IH4)].
    { intros c. specialize (Hle c). rewrite Hd1. rewrite Hco in Hle. destruct (Z.eq_dec x c) as [->|]; lia. }
    assert (forall c, c ∈ l <-> (0 < count_occ Z.eq_dec l c)%nat) as Hin.
    { intros c. rewrite list_elem_of_In, (count_occ_In Z.eq_dec). lia. }
    split. { intros c. rewrite IH1, Hd1, Hco. destruct (Z.eq_dec x c) as [->|]; lia. }
    pose proof (Hle x) as Hx. rewrite Hco in Hx. destruct (Z.eq_dec x x) as [_|]; [|done].
    unfold q1 in *. clear q1. destruct (Z.eqb_spec (degree deg x - 1) 0) as [E|E].
    + exists (x :: new). rewrite IH2, <- app_assoc. split_and!; [done| |].
      * apply NoDup_cons. split; [|done]. rewrite IH4, Hin. lia.
      * intros c. rewrite !elem_of_cons, IH4, Hd1, Hco, !Hin. destruct (Z.eq_dec x c) as [->|Hn]; [|naive_solver]. split; [intros _; split; [by left|lia]|by left].
    + exists new. split_and!; [done..|]. intros c. rewrite elem_of_cons, IH4, Hd1, Hco, !Hin. destruct (Z.eq_dec x c) as [->|Hn]; [|naive_solver]. lia.
Qed.

(** The invariant of the loop *)
Record sorting (deg : gmap Z Z) (queue order : list Z) : Prop := {
  so_nodup : NoDup (order ++ queue);
  so_open c : c ∈ order ++ queue <-> c ∈ node_ids ns /\ left edges order c = 0%nat;
  so_degree c : degree deg c = Z.of_nat (left edges order c);
  so_order l1 c l2 d : order = l1 ++ c :: l2 -> (d, c) ∈ edges -> d ∈ l1
}.
Lemma sorting_round downstream deg current rest order : (forall d, children downstream d = targets edges d) -> sorting deg (current :: rest) order ->
  sorting (foldl release (deg, rest) (children downstream current)).1 (foldl release (deg, rest) (children downstream current)).2 (order ++ [current]).
Proof.
  intros Hch [H1 H2 H3 H4]. rewrite Hch. assert (current ∉ order) as Hcur by (apply NoDup_app in H1 as (_&H1&_); intros Hc; by apply (H1 current Hc), list_elem_of_here).
  pose proof (fun c => left_snoc edges order current c Hcur) as Hl.
  destruct (release_spec (targets edges current) deg rest) as [R1 (new&R2&R3&R4)]; [intros c; rewrite H3, (Hl c); lia|].
  assert (forall c, c ∈ new <-> c ∈ targets edges current /\ left edges (order ++ [current]) c = 0%nat) as Hnew by (intros c; rewrite R4, H3, (Hl c); naive_solver lia).
  assert (forall c, c ∈ targets edges current <-> (0 < count_occ Z.eq_dec (targets edges current) c)%nat) as Hin by (intros c; rewrite list_elem_of_In, (count_occ_In Z.eq_dec); lia).
  assert (left edges order current = 0%nat) as Hc0 by (apply H2; set_solver).
  rewrite R2. assert ((order ++ [current]) ++ rest ++ new = (order ++ current :: rest) ++ new) as Happ by (by rewrite <- !app_assoc).
  assert (forall c, c ∈ targets edges current -> c ∈ node_ids ns) as Hids.
  { intros c Hc. unfold targets in Hc. apply list_elem_of_fmap in Hc as ([d c']&->&Hc). apply list_elem_of_In, List.filter_In in Hc as [Hc _]. apply list_elem_of_In in Hc. by apply edges_ids in Hc as [_ ?]. }
  split.
  - rewrite Happ. apply NoDup_app. split_and!; [done| |done]. intros c Hc Hn. apply H2 in Hc as [_ Hc]. apply Hnew in Hn as [Hn _]. apply Hin in Hn. rewrite (Hl c) in Hc. lia.
  - intros c. rewrite Happ, elem_of_app, H2, Hnew. split.
    + intros [[Hi Hc]|[Hc Hz]]; [|by split; [apply Hids|]]. split; [done|]. rewrite (Hl c) in Hc. lia.
    + intros [Hi Hz]. destruct (decide (c ∈ targets edges current)) as [Ht|Ht]; [by right|]. left. split; [done|]. rewrite (Hl c), Hz. rewrite Hin in Ht. lia.
  - intros c. rewrite R1, H3, (Hl c). lia.
  - intros l1 c l2 d E Hd. destruct (list_eq_snoc_cases l1 c l2 order current E) as [(l2'&->&Ho)|(->&->&->)]; [by eapply H4|]. by eapply left_zero.
Qed.

(** The loop ends within as many rounds as there are tasks. *)
Lemma topo_spec downstream : (forall d, children downstream d = targets edges d) -> forall fuel deg queue order,
  sorting deg queue order -> (length ns <= fuel + length order)%nat ->
  exists order' deg', topo downstream fuel deg queue order = Some order' /\ sorting deg' [] order'.
Proof.
  intros Hch. induction fuel as [|fuel IH]; intros deg queue order Hs Hf; destruct queue as [|current rest]; [by exists order, deg| |by exists order, deg|].
  - exfalso. destruct Hs as [H1 H2 _ _]. assert (length (order ++ current :: rest) <= length (node_ids ns))%nat as Hl.
    { apply submseteq_length, NoDup_submseteq; [done|]. intros c Hc. by apply H2 in Hc as [? _]. }
    unfold node_ids in Hl. rewrite length_app, length_map in Hl. cbn in Hl. lia.
  - cbn [topo]. apply IH; [by apply sorting_round|]. rewrite length_app. cbn. lia.
Qed.
Lemma roots_sorting : sorting (links ns).2 (roots ns (links ns).2) [].
Proof.
  pose proof (fun c => proj2 (links_spec c c)) as Hd. assert (forall c, c ∈ roots ns (links ns).2 <-> c ∈ node_ids ns /\ left edges [] c = 0%nat) as Hr.
  { intros c. unfold roots. rewrite merge_sort_Permutation. rewrite list_elem_of_In, List.filter_In, <- list_elem_of_In, Hd, Z.eqb_eq. naive_solver lia. }
  split; [|done|done|by intros []].
  cbn. unfold roots. rewrite merge_sort_Permutation. apply NoDup_ListNoDup, List.NoDup_filter, NoDup_ListNoDup, Hnd.
Qed.
Lemma topo_ends : exists order, topo (links ns).1 (graph_fuel ns) (links ns).2 (roots ns (links ns).2) [] = Some order /\ NoDup order /\
  (forall c, c ∈ order <-> c ∈ node_ids ns /\ left edges order c = 0%nat) /\ (forall l1 c l2 d, order = l1 ++ c :: l2 -> (d, c) ∈ edges -> d ∈ l1).
Proof.
  destruct (topo_spec (links ns).1 (fun d => proj1 (links_spec d d)) (graph_fuel ns) _ _ _ roots_sorting) as (order&deg&Ho&[H1 H2 _ H4]); [unfold graph_fuel; cbn; lia|].
  rewrite app_nil_r in *. by exists order.
Qed.

(** ** Cycles *)
Definition acyclic : Prop := exists level : Z -> nat, forall d c, (d, c) ∈ edges -> (level d < level c)%nat.
Lemma acyclic_all order : (forall c, c ∈ order <-> c ∈ node_ids ns /\ left edges order c = 0%nat) -> acyclic -> forall c, c ∈ node_ids ns -> c ∈ order.
Proof.
  intros Ho [level Hl] c. remember (level c) as n eqn:Hn. revert c Hn. induction (lt_wf n) as [n _ IH]. intros c -> Hc. apply Ho. split; [done|].
  apply left_zero. intros d Hd. apply (IH (level d)); [by apply Hl|done|]. by apply edges_ids in Hd as [? _].
Qed.
Fixpoint position (c : Z) (l : list Z) : nat := match l with [] => 0 | x :: l' => if x =? c then 0 else S (position c l') end.
Lemma position_split l1 c l2 : c ∉ l1 -> position c (l1 ++ c :: l2) = length l1.
Proof.
  induction l1 as [|x l1 IH]; cbn; [by rewrite Z.eqb_refl|]. intros Hc. destruct (Z.eqb_spec x c) as [->|]; [by destruct Hc; apply list_elem_of_here|]. rewrite IH; [done|]. intros H. by apply Hc; right.
Qed.
Lemma position_lt l1 d l2 : d ∈ l1 -> (position d (l1 ++ l2) < length l1)%nat.
Proof. induction l1 as [|x l1 IH]; cbn; [by intros ?%not_elem_of_nil|]. rewrite elem_of_cons. destruct (Z.eqb_spec x d); [lia|]. intros [->|H]; [done|]. specialize (IH H). lia. Qed.
Lemma ordered_acyclic order : NoDup order -> (forall c, c ∈ node_ids ns -> c ∈ order) -> (forall l1 c l2 d, order = l1 ++ c :: l2 -> (d, c) ∈ edges -> d ∈ l1) -> acyclic.
Proof.
  intros Ho Hall Hord. exists (fun c => position c order). intros d c Hd. pose proof (edges_ids d c Hd) as [_ Hc]. apply Hall in Hc.
  apply list_elem_of_split in Hc as (l1&l2&E). pose proof (Hord l1 c l2 d E Hd) as Hin. rewrite E in Ho |- *. rewrite position_split; [by apply position_lt|].
  apply NoDup_app in Ho as (_&Ho&_). intros H. apply (Ho c H), list_elem_of_here.
Qed.

(** ** Weights *)
(** A chain of [n] tasks, each needed by the next, that begins with a task *)
Inductive chain (R : Z -> Z -> Prop) : Z -> nat -> Prop :=
| chain_one c : chain R c 1
| chain_more d c n : R d c -> chain R c n -> chain R d (S n).
Definition longest (R : Z -> Z -> Prop) (c : Z) (w : Z) : Prop :=
  0 < w /\ chain R c (Z.to_nat w) /\ forall n, chain R c n -> Z.of_nat n <= w.

Lemma max_spec l : forall a, (foldl Z.max a l = a \/ foldl Z.max a l ∈ l) /\ a <= foldl Z.max a l /\ forall x, x ∈ l -> x <= foldl Z.max a l.
Proof.
  induction l as [|y l IH]; intros a; cbn; [split_and!; [by left|lia|by intros x ?%not_elem_of_nil]|]. destruct (IH (Z.max a y)) as (H1&H2&H3).
  split_and!; [|lia|intros x [->|Hx]%elem_of_cons; [lia|by apply H3]]. destruct H1 as [->|H1]; [|right; by right].
  destruct (Z.max_spec a y) as [[_ ->]|[_ ->]]; [right; by left|by left].
Qed.
Lemma targets_spec es d c : c ∈ targets es d <-> (d, c) ∈ es.
Proof.
  unfold targets. rewrite list_elem_of_fmap. split.
  - intros ([d' c']&->&H). apply list_elem_of_In, List.filter_In in H as [H Hd]. apply Z.eqb_eq in Hd. cbn in *. subst d'. by apply list_elem_of_In.
  - intros H. exists (d, c). split; [done|]. apply list_elem_of_In, List.filter_In. split; [by apply list_elem_of_In|apply Z.eqb_refl].
Qed.
Lemma weigh_ne downstream w t c : c <> t -> weigh downstream w t !! c = w !! c.
Proof. intros Hn. unfold weigh. destruct (children downstream t); [done|]. by rewrite lookup_insert_ne. Qed.

Section weights.
Variables (order : list Z) (downstream : gmap Z (list Z)).
Hypothesis Hord : NoDup order.
Hypothesis Hall : forall c, c ∈ node_ids ns <-> c ∈ order.
Hypothesis Htopo : forall l1 c l2 d, order = l1 ++ c :: l2 -> (d, c) ∈ edges -> d ∈ l1.
Hypothesis Hch : forall d, children downstream d = targets edges d.

Lemma child_later l1 t l2 c : order = l1 ++ t :: l2 -> (t, c) ∈ edges -> c ∈ l2.
Proof.
  intros E Hc. pose proof (edges_ids t c Hc) as [_ Hin]. apply Hall in Hin. rewrite E in Hin. rewrite elem_of_app, elem_of_cons in Hin.
  rewrite E in Hord. apply NoDup_app in Hord as (_&Hd&Hn). apply NoDup_cons in Hn as [Hn _]. destruct Hin as [Hin|[->|Hin]]; [| |done]; exfalso.
  - apply list_elem_of_split in Hin as (la&lb&El). rewrite El, <- app_assoc in E. pose proof (Htopo la c (lb ++ t :: l2) t E Hc) as Ht.
    apply (Hd t); [rewrite El; set_solver|apply list_elem_of_here].
  - by apply (Hd t); [apply (Htopo l1 t l2)|apply list_elem_of_here].
Qed.
Lemma weights_suffix l2 : forall l1, order = l1 ++ l2 -> let w := foldl (weigh downstream) (list_to_map (map (fun id => (id, 1)) (node_ids ns))) (rev l2) in
  (forall c, c ∈ l2 -> longest (fun d c => (d, c) ∈ edges) c (weight w c)) /\ (forall c, c ∈ node_ids ns -> c ∉ l2 -> weight w c = 1).
Proof.
  induction l2 as [|t l2 IH]; intros l1 E; cbn zeta.
  - split; [by intros c ?%not_elem_of_nil|]. intros c Hc _. unfold weight. cbn. rewrite (lookup_constant 1). by rewrite bool_decide_true.
  - cbn [rev]. rewrite foldl_app. cbn [foldl]. destruct (IH (l1 ++ [t])) as [IH1 IH2]; [by rewrite <- app_assoc|]. set (w := foldl _ _ (rev l2)) in *.
    assert ((t ∉ l2) /\ t ∈ node_ids ns) as [Ht Hti].
    { split; [|apply Hall; rewrite E; set_solver]. rewrite E in Hord. apply NoDup_app in Hord as (_&_&Hn). by apply NoDup_cons in Hn as [? _]. }
    assert (forall c, c <> t -> weight (weigh downstream w t) c = weight w c) as Hne by (intros c Hn; unfold weight; by rewrite weigh_ne).
    split.
    + intros c [->|Hc]%elem_of_cons; [|rewrite Hne by (intros ->; done); by apply IH1]. pose proof (fun c => child_later l1 t l2 c E) as Hlat. pose proof (fun c => targets_spec edges t c) as Htar.
      specialize (Hch t). unfold weigh. rewrite Hch. destruct (targets edges t) as [|c cs].
      * rewrite IH2 by done. split_and!; [lia|constructor|]. intros n Hn. destruct Hn as [|d c n Hd _]; [lia|]. apply Htar in Hd. by apply not_elem_of_nil in Hd.
      * set (m := foldl Z.max _ _). replace (weight _ t) with (1 + m) by (unfold weight at 1; by rewrite lookup_insert_eq).
        destruct (max_spec (map (weight w) cs) (weight w c)) as (M1&M2&M3). fold m in M1, M2, M3.
        assert (exists c', c' ∈ (c :: cs) /\ weight w c' = m) as (c'&Hc'&Em).
        { destruct M1 as [->|M1]; [exists c; split; [apply list_elem_of_here|done]|]. apply list_elem_of_fmap in M1 as (c'&->&Hc'). exists c'. split; [by right|done]. }
        assert (forall x, x ∈ (c :: cs) -> weight w x <= m) as Hmax.
        { intros x [->|Hx]%elem_of_cons; [done|]. apply M3. by apply (list_elem_of_fmap_2 (weight w)). }
        destruct (IH1 c' (Hlat c' (proj1 (Htar c') Hc'))) as (P1&P2&P3). rewrite Em in *. split_and!; [lia| |].
        -- replace (Z.to_nat (1 + m)) with (S (Z.to_nat m)) by lia. apply chain_more with c'; [by apply Htar|done].
        -- intros n Hn. inversion Hn as [|d c0 n' Hd Hc0]; subst; [lia|]. apply Htar in Hd as Hd'. destruct (IH1 c0 (Hlat c0 Hd)) as (_&_&Q). specialize (Q n' Hc0). specialize (Hmax c0 Hd'). lia.
    + intros c Hc Hn. rewrite not_elem_of_cons in Hn. destruct Hn. rewrite Hne by done. by apply IH2.
Qed.
End weights.
End graph.

(** ** In terms of the rows *)
Section rows.
Variable tasks : list Task.
Hypothesis Hids : NoDup (map t_id tasks).

(** [c] is a task that depends on the task [d], which is in the list. *)
Definition needs (d c : Z) : Prop := d ∈ map t_id tasks /\ exists t, t ∈ tasks /\ t_id t = c /\ d ∈ dependency_ids t.
Definition no_cycle : Prop := exists level : Z -> nat, forall d c, needs d c -> (level d < level c)%nat.

Lemma node_set_new ns n : n_task_id n ∉ node_ids ns -> node_set ns n = ns ++ [n].
Proof.
  induction ns as [|m ns IH]; cbn; [done|]. intros [H1 H2]%not_elem_of_cons. destruct (Z.eqb_spec (n_task_id m) (n_task_id n)); [congruence|]. by rewrite IH.
Qed.
Lemma nodes_of_map : nodes_of tasks = map node_of tasks.
Proof.
  unfold nodes_of. assert (forall l ns, NoDup (node_ids ns ++ map t_id l) -> foldl (fun ns t => node_set ns (node_of t)) ns l = ns ++ map node_of l) as H.
  { induction l as [|t l IH]; intros ns Hn; cbn; [by rewrite app_nil_r|]. rewrite node_set_new.
    - rewrite IH; [by rewrite <- app_assoc|]. unfold node_ids. rewrite map_app, <- app_assoc. done.
    - apply NoDup_app in Hn as (_&Hn&_). intros Hi. apply (Hn _ Hi). cbn. apply list_elem_of_here. }
  by apply (H tasks []).
Qed.
Lemma node_ids_map : node_ids (map node_of tasks) = map t_id tasks.
Proof. unfold node_ids. by rewrite map_map. Qed.
Lemma edges_needs d c : (d, c) ∈ edges (map node_of tasks) <-> needs d c.
Proof.
  unfold edges, needs. rewrite list_elem_of_In, in_concat. setoid_rewrite in_map_iff. split.
  - intros (l&(n&<-&Hn)&Hin). apply in_map_iff in Hn as (t&<-&Ht). unfold node_edges in Hin. apply in_map_iff in Hin as (d'&[= -> <-]&Hd). apply List.filter_In in Hd as [Hd Hi].
    rewrite node_ids_map in Hi. apply Z_in_spec in Hi. split; [done|]. exists t. split_and!; [by apply list_elem_of_In|done|by apply list_elem_of_In].
  - intros (Hi&t&Ht&<-&Hd). exists (node_edges (map node_of tasks) (node_of t)). split; [exists (node_of t); split; [done|]; apply in_map; by apply list_elem_of_In|].
    unfold node_edges. apply in_map_iff. exists d. split; [done|]. apply List.filter_In. split; [by apply list_elem_of_In|]. rewrite node_ids_map. by apply Z_in_spec.
Qed.
Lemma find_node_row t : t ∈ tasks -> find_node (map node_of tasks) (t_id t) = Some (node_of t).
Proof.
  unfold find_node. induction tasks as [|t' l IH]; [by intros ?%not_elem_of_nil|]. cbn. apply NoDup_cons in Hids as [Hn Hd]. intros [->|Ht]%elem_of_cons; [by rewrite Z.eqb_refl|].
  destruct (Z.eqb_spec (t_id t') (t_id t)) as [E|]; [|by apply IH]. exfalso. apply Hn. rewrite E. by apply (list_elem_of_fmap_2 t_id).
Qed.
Lemma is_ready_row t : t ∈ tasks -> is_ready (map node_of tasks) (t_id t) = true <->
  t_status t ∈ ["pending"; "paused"; "in_progress"] /\ forall t', t' ∈ tasks -> t_id t' ∈ dependency_ids t -> t_status t' = "completed".
Proof.
  intros Ht. unfold is_ready, status_of, deps_of. rewrite (find_node_row t Ht), andb_true_iff, str_in_spec, forallb_forall. cbn. split; intros [H1 H2]; (split; [done|]).
  - intros t' Ht' Hd. specialize (H2 (t_id t') (proj1 (list_elem_of_In _ _) Hd)). rewrite node_ids_map, (find_node_row t' Ht') in H2.
    rewrite (proj2 (Z_in_spec _ _)) in H2 by (by apply (list_elem_of_fmap_2 t_id)). by apply String.eqb_eq in H2.
  - intros d Hd. rewrite node_ids_map. destruct (Z_in d (map t_id tasks)) eqn:Hi; [|done]. apply Z_in_spec, list_elem_of_fmap in Hi as (t'&->&Ht').
    rewrite (find_node_row t' Ht'). apply String.eqb_eq. apply H2; [done|]. by apply list_elem_of_In.
Qed.

(** What a graph says of the rows *)
Record graph_of (g : graph) : Prop := {
  go_all : g_topological_order g ≡ₚ map t_id tasks;
  go_order l1 c l2 d : g_topological_order g = l1 ++ c :: l2 -> needs d c -> d ∈ l1;
  go_weight t : t ∈ tasks -> longest needs (t_id t) (weight (g_critical_weight g) (t_id t));
  go_ready t : t ∈ tasks -> t_id t ∈ g_ready g <-> t_status t ∈ ["pending"; "paused"; "in_progress"] /\
    forall t', t' ∈ tasks -> t_id t' ∈ dependency_ids t -> t_status t' = "completed";
  go_blocked t : t ∈ tasks -> t_id t ∈ g_blocked g <-> t_status t <> "completed" /\ t_id t ∉ g_ready g
}.

Lemma longest_iff (R R' : Z -> Z -> Prop) c w : (forall d c, R d c <-> R' d c) -> longest R c w -> longest R' c w.
Proof.
  intros HR. assert (forall c n, chain R c n <-> chain R' c n) as Hc.
  { intros c' n. split; induction 1; [constructor|econstructor; [by apply HR|done]|constructor|econstructor; [by apply HR|done]]. }
  intros (H1&H2&H3). split_and!; [done|by apply Hc|]. intros n Hn. by apply H3, Hc.
Qed.
Lemma build_graph_of g : build_task_graph tasks = Ok g -> graph_of g.
Proof.
  unfold build_task_graph. rewrite nodes_of_map. pose proof (fun d c => links_spec (map node_of tasks) d c) as Hl.
  assert (NoDup (node_ids (map node_of tasks))) as Hnd by (by rewrite node_ids_map).
  destruct (topo_ends (map node_of tasks) Hnd) as (order&Ho&H1&H2&H3). destruct (links (map node_of tasks)) as [downstream indegree]. cbn [fst snd] in *.
  rewrite Ho. destruct (negb _) eqn:E; [done|]. intros [= <-]. apply negb_false_iff, Nat.eqb_eq in E. rewrite length_map in E.
  assert (order ≡ₚ map t_id tasks) as Hp.
  { apply submseteq_length_Permutation; [apply NoDup_submseteq; [done|]; intros c Hc; apply H2 in Hc as [Hc _]; by rewrite node_ids_map in Hc|]. by rewrite length_map, E. }
  assert (forall c, c ∈ node_ids (map node_of tasks) <-> c ∈ order) as Hall by (intros c; by rewrite node_ids_map, Hp).
  assert (forall t, t ∈ tasks -> t_id t ∈ order) as Hin by (intros t Ht; rewrite Hp; by apply (list_elem_of_fmap_2 t_id)).
  assert (forall t, t ∈ tasks -> t_id t ∈ List.filter (is_ready (map node_of tasks)) order <-> is_ready (map node_of tasks) (t_id t) = true) as Hready.
  { intros t Ht. rewrite list_elem_of_In, List.filter_In, <- list_elem_of_In. split; [naive_solver|]. split; [by apply Hin|done]. }
  split; cbn.
  - done.
  - intros l1 c l2 d Hs Hn. eapply H3; [done|]. by apply edges_needs.
  - intros t Ht. eapply (longest_iff (fun d c => (d, c) ∈ edges (map node_of tasks))); [intros; apply edges_needs|].
    by apply (weights_suffix (map node_of tasks) Hnd order downstream H1 Hall H3 (fun d => proj1 (Hl d d)) order []); [|apply Hin].
  - intros t Ht. rewrite Hready by done. by apply is_ready_row.
  - intros t Ht. rewrite list_elem_of_In, List.filter_In, <- list_elem_of_In. unfold status_of. rewrite (find_node_row t Ht), andb_true_iff, !negb_true_iff, String.eqb_neq. cbn.
    unfold Z_in. rewrite bool_decide_eq_false. split; [naive_solver|]. intros [? ?]. split; [by apply Hin|done].
Qed.
Lemma build_graph_ok : no_cycle <-> exists g, build_task_graph tasks = Ok g.
Proof.
  split.
  - intros [level Hlv]. unfold build_task_graph. rewrite nodes_of_map. assert (NoDup (node_ids (map node_of tasks))) as Hnd by (by rewrite node_ids_map).
    destruct (topo_ends (map node_of tasks) Hnd) as (order&Ho&H1&H2&H3). destruct (links (map node_of tasks)) as [downstream indegree]. cbn [fst snd] in *. rewrite Ho.
    assert (order ≡ₚ node_ids (map node_of tasks)) as Hp.
    { apply NoDup_Permutation; [done..|]. intros c. split; [by intros [? _]%H2|]. apply (acyclic_all (map node_of tasks) order H2). exists level. intros d c' Hd%edges_needs. by apply Hlv. }
    rewrite (Permutation_length Hp). unfold node_ids. rewrite length_map, Nat.eqb_refl. cbn. by eexists.
  - intros [g Hg]. apply build_graph_of in Hg as [H1 H2 _ _ _].
    destruct (ordered_acyclic (map node_of tasks) (g_topological_order g)) as [level Hlv]; [by rewrite H1|intros c; by rewrite node_ids_map, H1|intros l1 c l2 d E Hd; eapply H2; [done|by apply edges_needs]|].
    exists level. intros d c Hd. by apply Hlv, edges_needs.
Qed.
Lemma build_graph_result : (exists g, build_task_graph tasks = Ok g) \/ build_task_graph tasks = Raise (Exn "ValueError" "task_dependency_cycle_detected").
Proof.
  unfold build_task_graph. rewrite nodes_of_map. assert (NoDup (node_ids (map node_of tasks))) as Hnd by (by rewrite node_ids_map).
  destruct (topo_ends (map node_of tasks) Hnd) as (order&Ho&_). destruct (links (map node_of tasks)) as [downstream indegree]. cbn [fst snd] in *. rewrite Ho.
  destruct (negb _); [by right|left; by eexists].
Qed.

Lemma build_parts g : build_task_graph tasks = Ok g -> g_nodes g = map node_of tasks /\
  exists downstream, g_critical_weight g = critical_weights (map node_of tasks) downstream (g_topological_order g) /\ g_ready g = List.filter (is_ready (map node_of tasks)) (g_topological_order g).
Proof.
  unfold build_task_graph. rewrite nodes_of_map. destruct (links _) as [downstream indegree]. destruct (topo _ _ _ _ _) as [order|]; [|done]. destruct (negb _); [done|].
  intros [= <-]. split; [done|]. by exists downstream.
Qed.
Lemma weights_defined ns downstream order : forall w : gmap Z Z, (forall c, c ∈ node_ids ns -> is_Some (w !! c)) -> forall c, c ∈ node_ids ns -> is_Some (foldl (weigh downstream) w order !! c).
Proof.
  induction order as [|t order IH]; intros w Hw c Hc; cbn; [by apply Hw|]. apply IH; [|done]. intros c' Hc'. unfold weigh. destruct (children downstream t); [by apply Hw|].
  destruct (decide (t = c')) as [->|]; [rewrite lookup_insert_eq; by eexists|rewrite lookup_insert_ne by done; by apply Hw].
Qed.
Lemma build_weight g t : build_task_graph tasks = Ok g -> t ∈ tasks -> default 0 (g_critical_weight g !! t_id t) = weight (g_critical_weight g) (t_id t).
Proof.
  intros Hg Ht. apply build_parts in Hg as [_ (downstream&Hw&_)]. rewrite Hw. unfold critical_weights, weight.
  destruct (weights_defined (map node_of tasks) downstream (rev (g_topological_order g)) (list_to_map (map (fun id => (id, 1)) (node_ids (map node_of tasks))))) with (t_id t) as [z Hz];
    [| |by rewrite Hz].
  - intros c Hc. rewrite (lookup_constant 1), bool_decide_true by done. by eexists.
  - rewrite node_ids_map. by apply (list_elem_of_fmap_2 t_id).
Qed.

(** C10: [build_task_graph] is correct and complete: its loops end; it raises the cycle error
    exactly when the dependencies within the list have a cycle, and otherwise returns an order
    of all tasks in which every task comes after those it depends on, weights that are the
    lengths of the longest chains of dependents, and the tasks that can be worked on: those
    pending, paused or in progress whose dependencies are all completed. *)
Theorem task_graph_exact :
  (no_cycle <-> exists g, build_task_graph tasks = Ok g) /\
  (~ no_cycle <-> build_task_graph tasks = Raise (Exn "ValueError" "task_dependency_cycle_detected")) /\
  (forall g, build_task_graph tasks = Ok g -> graph_of g).
Proof.
  split_and!; [apply build_graph_ok| |apply build_graph_of]. rewrite build_graph_ok. destruct build_graph_result as [[g E]|E]; rewrite E; [naive_solver|]. split; [done|]. intros _ [g Hg]. done.
Qed.
End rows.

(** Three tasks: 3 needs 1 and 2, 2 needs 1. *)
Definition demo_task (id : Z) (st : string) (deps : list Z) : Task :=
  MkTask id "t" None (Some "medium") st None None (map (fun d => MkDependency d "hard") deps) "hard" None None None None None None None None 0 (MkUUID 1).
Definition demo_tasks : list Task := [demo_task 3 "blocked" [1; 2]; demo_task 1 "completed" []; demo_task 2 "pending" [1]].

Lemma task_graph_exact_witness : exists g, build_task_graph demo_tasks = Ok g /\ graph_of demo_tasks g /\
  g_topological_order g = [1; 2; 3] /\ weight (g_critical_weight g) 1 = 3 /\ g_ready g = [2] /\ g_blocked g = [3].
Proof.
  destruct (task_graph_exact demo_tasks ltac:(by_evaluation)) as (_&_&H). eexists. split_and!; [vm_compute; reflexivity|apply H; vm_compute; reflexivity|reflexivity..].
Defined.
