(* ===== verification/TaskService.v ===== *)
(** * The operations on tasks ([apps/tasks/services/task_service.py],
    [apps/tasks/syscalls/syscall_handlers.py])

    The state is a session on the tables of tasks and execution units and a world on which
    the other services work.  [serve] is a system call: it opens a session, calls the
    operation and closes the session, which rolls back what was not committed. *)
From S2P Require Import Prelude PyEffects PyDatetime PyUuid Json WaitCondition ExecutionUnit Tasks.
Local Open Scope Z_scope.

(** ** Sessions *)
Record tables := MkTables { tb_tasks : list Task; tb_units : gmap UUID ExecutionUnit }.
Record session := MkSess {
  ss_durable : tables;
  ss_txn : tables;              (* what has been flushed: queries see it *)
  ss_dirty : list Task;         (* objects with changes that have not been flushed *)
  ss_next_id : Z
}.
(** The object of a row *)
Definition object (s : session) (t : Task) : Task := default t (row_of t_id (t_id t) (ss_dirty s)).
Definition flush (s : session) : session :=
  MkSess (ss_durable s) (MkTables (map (object s) (tb_tasks (ss_txn s))) (tb_units (ss_txn s))) [] (ss_next_id s).
Definition commit (s : session) : session := let f := flush s in MkSess (ss_txn f) (ss_txn f) [] (ss_next_id s).
Definition rollback (s : session) : session := MkSess (ss_durable s) (ss_durable s) [] (ss_next_id s).
(** [query(Task).filter(f).all()]: no flush comes first *)
Definition query (f : Task -> bool) (s : session) : list Task := map (object s) (List.filter f (tb_tasks (ss_txn s))).
Definition count (f : Task -> bool) (s : session) : Z := Z.of_nat (length (List.filter f (tb_tasks (ss_txn s)))).
(** Assignments to the attributes of an object *)
Definition assign (t : Task) (s : session) : session :=
  MkSess (ss_durable s) (ss_txn s) (t :: List.filter (fun u => negb (t_id u =? t_id t)) (ss_dirty s)) (ss_next_id s).
(** [add] and [flush] of a new row, which gets the next id *)
Definition insert_task (t : Task) (s : session) : session :=
  MkSess (ss_durable s) (MkTables (tb_tasks (ss_txn s) ++ [t]) (tb_units (ss_txn s))) (ss_dirty s) (ss_next_id s + 1).
Definition put_unit (e : ExecutionUnit) (s : session) : session :=
  MkSess (ss_durable s) (MkTables (tb_tasks (ss_txn s)) (<[eu_id e := e]> (tb_units (ss_txn s)))) (ss_dirty s) (ss_next_id s).
(** The session as the service of execution units uses it *)
Definition unit_session : eu_session session :=
  MkSession _ (fun id s => (s, Ok (u ← id; tb_units (ss_txn s) !! u))) (fun e s => (put_unit e (flush s), Ok ())) (fun e s => (put_unit e (flush s), Ok ())).

(** What another service does to the session it is given *)
Inductive effect := Flush | Commit | Rollback.
Definition affect (s : session) (e : effect) : session :=
  match e with Flush => flush s | Commit => commit s | Rollback => rollback s end.

Section service.
Context {W : Type}.

Record services := MkServices {
  sv_emit : string -> UUID -> Task -> W -> W;                                          (* [_emit_task_event], on a session of its own *)
  sv_assert_masterplan : Z -> UUID -> session -> W -> W * list effect * result unit;
  sv_save_calculation : Z -> UUID -> session -> W -> W * list effect * result unit;
  sv_memory_capture : Task -> UUID -> session -> W -> W * list effect * result bool;
  sv_feedback : Task -> UUID -> session -> W -> W * list effect * Z;
  sv_social_sync : UUID -> session -> W -> W * list effect * result unit;
  sv_eta : UUID -> session -> W -> W * list effect * result bool;
  sv_infinity : UUID -> session -> W -> W * list effect * result (dict json);
  sv_dispatch : Task -> UUID -> string -> session -> W -> W * list effect * result json
}.
Variable sv : services.

Record st := MkSt { st_session : session; st_world : W }.
Notation T := (SE st).
Definition look {A} (f : session -> A) : T A := reads (fun s => f (st_session s)).
Definition change (f : session -> session) : T unit := writes (fun s => MkSt (f (st_session s)) (st_world s)).
Definition call {A} (f : session -> W -> W * list effect * A) : T A := fun s =>
  let '(w, es, a) := f (st_session s) (st_world s) in (MkSt (foldl affect (st_session s) es) w, Ok a).
Definition emit (event : string) (user : UUID) (t : Task) : T unit := writes (fun s => MkSt (st_session s) (sv_emit sv event user t (st_world s))).

(** ** Dependencies *)
Definition owned (user : UUID) (t : Task) : bool := bool_decide (t_user_id t = user).

(** [_validate_dependencies] *)
Definition missing_ids (s : session) (owner : UUID) (deps : list dependency) (parent : option Z) : list Z :=
  let referenced := remove_dups (map dep_task deps ++ match parent with Some p => [p] | None => [] end) in
  let existing := map t_id (List.filter (fun t => owned owner t && Z_in (t_id t) referenced) (tb_tasks (ss_txn s))) in
  merge_sort Z.le (List.filter (fun z => negb (Z_in z existing)) referenced).
Definition validate_dependencies (owner : UUID) (deps : list dependency) (parent : option Z) : T unit :=
  missing ← look (fun s => missing_ids s owner deps parent);
  match missing with
  | [] => mret ()
  | _ => throw (Exn "ValueError" ("dependencies_not_found:" +:+ str_join "," (map Z_to_string missing)))
  end.
(** [_dependencies_complete] *)
Definition dependencies_complete (s : session) (user : UUID) (t : Task) : bool :=
  match dependency_ids t with
  | [] => true
  | ids => count (fun u => owned user u && Z_in (t_id u) ids && (t_status u =s "completed")) s =? Z.of_nat (length (remove_dups ids))
  end.
(** [_recompute_task_status] *)
Definition recomputed (complete : bool) (status : string) : string :=
  if status =s "completed" then status
  else if complete then (if status =s "blocked" then "pending" else status)
  else if str_in status ["pending"; "paused"] then "blocked" else status.
Definition recompute_task_status (user : UUID) (t : Task) : T Task :=
  complete ← look (fun s => dependencies_complete s user t);
  let t' := with_status (recomputed complete (t_status t)) t in
  _ ← change (assign t');
  mret t'.

(** [_unlock_downstream_tasks] *)
Fixpoint unlock_each (user : UUID) (id : Z) (candidates : list Task) : T (list (Z * string)) :=
  match candidates with
  | [] => mret []
  | c :: cs =>
      if Z_in id (dependency_ids c) then
        c' ← recompute_task_status user c;
        rest ← unlock_each user id cs;
        mret (if (t_status c =s "blocked") && (t_status c' =s "pending") then (t_id c, t_name c) :: rest else rest)
      else unlock_each user id cs
  end.
Definition unlock_downstream_tasks (user : UUID) (t : Task) : T (list (Z * string)) :=
  candidates ← look (query (fun u => owned user u && str_in (t_status u) ["blocked"; "pending"; "paused"]));
  unlock_each user (t_id t) candidates.

(** ** Execution units of tasks *)
Definition later_first : relation ExecutionUnit := fun a b => eu_created_at b <= eu_created_at a.
#[export] Instance later_first_dec : RelDecision later_first.
Proof. intros a b. unfold later_first. apply _. Defined.
(** [get_by_source("task", str(id))] *)
Definition unit_of_task (id : Z) (s : session) : option ExecutionUnit :=
  head (merge_sort later_first (List.filter (fun e => bool_decide (eu_source_type e = Some "task") && bool_decide (eu_source_id e = Some (Z_to_string id)))
    (map snd (map_to_list (tb_units (ss_txn s)))))).
Definition create_unit (fresh : UUID) (now : Z) (t : Task) : T unit :=
  change (fun s => (create unit_session fresh now "task" (IdUuid (t_user_id t)) (Some "task") (Some (Z_to_string (t_id t))) IdNone None None "pending" s).1).
Definition update_unit (now : Z) (id : Z) (status : string) : T unit :=
  change (fun s => match unit_of_task id s with Some e => (update_status unit_session now (IdUuid (eu_id e)) status s).1 | None => s end).

(** ** [create_task] *)
Record task_args := MkArgs {
  a_name : string; a_category : option string; a_priority : option string; a_due_date : option Z; a_masterplan_id : option Z; a_parent_task_id : option Z;
  a_dependency_type : option string; a_dependencies : list (option Z * option string); a_automation_type : option string; a_automation_config : option json;
  a_scheduled_time : option Z; a_reminder_time : option Z; a_recurrence : option string
}.
Definition new_task (id : Z) (owner : UUID) (a : task_args) : Task :=
  MkTask id (a_name a) (a_category a) (a_priority a) "pending" (a_masterplan_id a) (a_parent_task_id a) (normalize_dependencies (a_dependencies a))
    (str_or (a_dependency_type a) "hard") (a_automation_type a) (a_automation_config a) (a_due_date a) None None (a_scheduled_time a) (a_reminder_time a)
    (a_recurrence a) 0 owner.
Definition create_task (fresh : UUID) (now : Z) (a : task_args) (user : option UUID) : T Task :=
  match user with
  | None => throw (Exn "ValueError" "user_id is required to create a task")
  | Some owner =>
      _ ← match a_masterplan_id a with Some m => call (sv_assert_masterplan sv m owner) ≫= of_result | None => mret () end;
      _ ← validate_dependencies owner (normalize_dependencies (a_dependencies a)) (a_parent_task_id a);
      id ← look ss_next_id;
      let t := new_task id owner a in
      complete ← look (fun s => dependencies_complete s owner t);
      let t := with_status (recomputed complete (t_status t)) t in
      _ ← change (insert_task t);
      _ ← change commit;
      _ ← emit "task.created" owner t;
      _ ← create_unit fresh now t;
      mret t
  end.

(** [find_task]: the first row of that name *)
Definition find_task (name : string) (user : option UUID) : T (option Task) :=
  match user with
  | None => mret None
  | Some u => look (fun s => head (query (fun t => (t_name t =s name) && owned u t) s))
  end.
(** [get_task_by_id] *)
Definition get_task_by_id (id : Z) (user : option UUID) : T (option Task) :=
  match user with
  | None => mret None
  | Some u => look (fun s => head (query (fun t => (t_id t =? id) && owned u t) s))
  end.

(** ** [start_task] *)
Definition start_task (now : Z) (name : string) (user : option UUID) : T string :=
  found ← find_task name user;
  match found, user with
  | Some t, Some u =>
      complete ← look (fun s => dependencies_complete s u t);
      if negb complete then
        _ ← recompute_task_status u t;
        _ ← change commit;
        mret ("Task '" +:+ name +:+ "' is blocked until dependencies complete.")
      else match t_start_time t with
      | None =>
          let t' := with_status "in_progress" (with_times (Some now) (t_end_time t) (t_time_spent t) t) in
          _ ← change (assign t');
          _ ← change commit;
          _ ← emit "task.started" u t';
          _ ← update_unit now (t_id t) "executing";
          mret ("Started task: " +:+ t_name t)
      | Some _ => mret ("Task '" +:+ name +:+ "' already started.")
      end
  | _, _ => mret ("Task '" +:+ name +:+ "' not found.")
  end.

(** ** [pause_task] *)
Definition pause_task (now : Z) (name : string) (user : option UUID) : T string :=
  found ← find_task name user;
  match found, user with
  | Some t, Some u =>
      if t_status t =s "in_progress" then
        match t_start_time t with
        | None => throw (TypeError "unsupported operand type(s) for -: 'datetime.datetime' and 'NoneType'")
        | Some start =>
            let t' := with_status "paused" (with_times (t_start_time t) (t_end_time t) (t_time_spent t + (now - start)) t) in
            _ ← change (assign t');
            _ ← change commit;
            _ ← emit "task.paused" u t';
            _ ← update_unit now (t_id t) "waiting";
            mret ("Paused task: " +:+ t_name t)
        end
      else mret ("Task '" +:+ name +:+ "' is not in progress.")
  | _, _ => mret "Task not found."
  end.

(** ** [complete_task] *)
Definition completed_row (now : Z) (t : Task) : Task :=
  with_status "completed" (with_times (t_start_time t) (Some now) (t_time_spent t + match t_start_time t with Some start => now - start | None => 0 end) t).
Definition complete_task (now : Z) (name : string) (user : option UUID) : T string :=
  found ← find_task name user;
  match found, user with
  | Some t, Some u =>
      complete ← look (fun s => dependencies_complete s u t);
      if negb complete then
        _ ← recompute_task_status u t;
        _ ← change commit;
        throw (Exn "ValueError" ("task_blocked:" +:+ t_name t))
      else
        let t' := completed_row now t in
        _ ← change (assign t');
        unlocked ← unlock_downstream_tasks u t';
        _ ← change commit;
        _ ← emit "task.completed" u t';
        _ ← update_unit now (t_id t) "completed";
        _ ← (call (sv_save_calculation sv (t_time_spent t') u) ≫= of_result);
        let names := str_join ", " (map snd unlocked) in
        mret (if truthy names then "Completed task: " +:+ t_name t +:+ " | unlocked: " +:+ names else "Completed task: " +:+ t_name t)
  | _, _ => mret "Task not found."
  end.

(** ** [queue_task_automation] *)
Definition queue_task_automation (t : option Task) (user : option UUID) (reason : string) : T (option json) :=
  match t, user with
  | Some t, Some u => match str_or_none (t_automation_type t) with
                      | Some _ => Some <$> (call (sv_dispatch sv t u reason) ≫= of_result)
                      | None => mret None
                      end
  | _, _ => mret None
  end.
(** The dispatches of [orchestrate_task_completion]: an exception ends them. *)
Definition run_entry (t : option Task) (dispatch : option json) : list (Z * json) :=
  match t, dispatch with Some t, Some d => if json_truthy d then [(t_id t, d)] else [] | _, _ => [] end.
Fixpoint automate (user : UUID) (items : list (T (option Task) * string)) (runs : list (Z * json)) : T (list (Z * json)) :=
  match items with
  | [] => mret runs
  | (get, reason) :: items' => fun s =>
      match (t ← get; d ← queue_task_automation t (Some user) reason; mret (run_entry t d)) s with
      | (s', Ok new) => automate user items' (runs ++ new) s'
      | (s', Raise _) => (s', Ok runs)
      end
  end.

(** ** [get_task_graph_context] and [get_next_ready_task] *)
Definition by_id : relation Task := fun a b => t_id a <= t_id b.
#[export] Instance by_id_dec : RelDecision by_id.
Proof. intros a b. unfold by_id. apply _. Defined.
Definition get_task_graph_context (user : option UUID) (s : session) : result graph_context :=
  match user with
  | None => Ok empty_context
  | Some u => context_of (merge_sort by_id (query (owned u) s))
  end.
Definition get_next_ready_task (user : option UUID) (s : session) : result (option Z) :=
  c ← get_task_graph_context user s;
  Ok (match gc_critical_path c with
      | [] => None
      | id :: _ => match find_node (gc_nodes c) id with Some _ => Some id | None => None end
      end).

(** ** [orchestrate_task_completion] *)
Record orchestration := MkOrchestration {
  o_memory_captured : bool; o_feedback_recorded : Z; o_social_sync : bool; o_eta_recalculated : bool; o_score_orchestrated : bool;
  o_next_action : json; o_unlocked_tasks : list (Z * string); o_automation_runs : list (Z * json); o_task_graph : option graph_context
}.
Definition or_false (r : result bool) : bool := match r with Ok b => b | Raise _ => false end.
Definition orchestrate_task_completion (name : string) (user : option UUID) : T orchestration :=
  found ← find_task name user;
  match found, user with
  | Some t, Some u =>
      unlocked ← unlock_downstream_tasks u t;
      memory ← call (sv_memory_capture sv t u);
      feedback ← call (sv_feedback sv t u);
      social ← call (sv_social_sync sv u);
      eta ← call (sv_eta sv u);
      infinity ← call (sv_infinity sv u);
      runs ← automate u ((mret (Some t), "task_completed") :: map (fun x => (get_task_by_id x.1 (Some u), "task_unlocked")) unlocked) [];
      graph ← look (get_task_graph_context (Some u));
      next ← match infinity with
             | Ok d => match dget d "next_action" with Some j => mret j | None => throw (Exn "KeyError" "'next_action'") end
             | Raise _ => mret JNull
             end;
      mret (MkOrchestration (or_false memory) feedback (is_ok social) (or_false eta) true next unlocked runs
              (match graph with Ok c => Some c | Raise _ => None end))
  | _, _ => mret (MkOrchestration false 0 false false false JNull [] [] None)
  end.

(** ** [_check_reminders_once] *)
Definition check_reminders (now : Z) (user : option UUID) : T unit :=
  tasks ← look (query (fun t => match user with Some u => owned u t | None => true end));
  for_each tasks (fun t =>
    match t_reminder_time t with
    | Some r => if (r <=? now) && negb (t_status t =s "completed")
                then _ ← change (assign (with_reminder None t)); change commit
                else mret ()
    | None => mret ()
    end).

(** ** [_handle_task_queue_automation] *)
Definition trigger_automation (id : Z) (user : UUID) (ty : option string) (cfg : option json) (reason : string) : T json :=
  found ← get_task_by_id id (Some user);
  match found with
  | None => throw (Exn "ValueError" "HTTP_404:Task not found")
  | Some t =>
      let t' := with_automation (match ty with Some _ => ty | None => t_automation_type t end)
                  (match cfg with Some _ => cfg | None => t_automation_config t end) t in
      _ ← change (assign t');
      _ ← change commit;
      match str_or_none (t_automation_type t') with
      | None => throw (Exn "ValueError" "HTTP_422:task_automation_not_configured")
      | Some _ =>
          d ← queue_task_automation (Some t') (Some user) reason;
          match d with
          | Some j => if json_truthy j then mret j else throw (Exn "ValueError" "HTTP_500:task_automation_dispatch_failed")
          | None => throw (Exn "ValueError" "HTTP_500:task_automation_dispatch_failed")
          end
      end
  end.

(** ** The system calls *)
Inductive request :=
| Create (fresh : UUID) (a : task_args) (user : UUID)
| Start (name : string) (user : UUID)
| Pause (name : string) (user : UUID)
| Complete (name : string) (user : UUID)
| Orchestrate (name : string) (user : UUID)
| QueueAutomation (id : Z) (user : UUID) (ty : option string) (cfg : option json) (reason : string)
| Reminders (user : option UUID).
Inductive response := RTask (t : Task) | RText (s : string) | ROrchestration (o : orchestration) | RDispatch (j : json) | RDone.

Definition perform (now : Z) (q : request) : T response :=
  match q with
  | Create fresh a u => RTask <$> create_task fresh now a (Some u)
  | Start name u => RText <$> start_task now name (Some u)
  | Pause name u => RText <$> pause_task now name (Some u)
  | Complete name u => RText <$> complete_task now name (Some u)
  | Orchestrate name u => ROrchestration <$> orchestrate_task_completion name (Some u)
  | QueueAutomation id u ty cfg reason => RDispatch <$> trigger_automation id u ty cfg reason
  | Reminders u => (fun _ => RDone) <$> check_reminders now u
  end.
(** A session of its own: what was not committed when it is closed is lost. *)
Definition in_session {A} (m : T A) : T A := try_finally (fun s => m (MkSt (rollback (st_session s)) (st_world s))) (fun s => MkSt (rollback (st_session s)) (st_world s)).
Definition serve (now : Z) (q : request) : T response := in_session (perform now q).

Inductive served : st -> Z * request * result response -> st -> Prop :=
| served_call s now q : served s (now, q, (serve now q s).2) (serve now q s).1.
Definition start_state (w : W) : st := let empty := MkTables [] ∅ in MkSt (MkSess empty empty [] 1) w.
End service.

Arguments services : clear implicits.
Arguments st : clear implicits.
