(* ===== verification/TaskFacts.v ===== *)
(** * The operations on tasks: theorems

    [kept] is an invariant of the session that is made of a property of rows; every
    operation preserves it when the property allows the changes the operation makes. *)
From S2P Require Import Prelude PyEffects PyDatetime PyUuid Json WaitCondition ExecutionUnit Tasks TaskGraph TaskService.
Local Open Scope Z_scope.

(** ** Sessions *)
Definition ids (l : list Task) : list Z := map t_id l.
Definition clean (s : session) : Prop := ss_txn s = ss_durable s /\ ss_dirty s = [].

Lemma object_id s t : t_id (object s t) = t_id t.
Proof. unfold object. destruct (row_of t_id (t_id t) (ss_dirty s)) as [t'|] eqn:E; [|done]. by apply row_of_key in E as [_ E]. Qed.
Lemma object_clean s t : ss_dirty s = [] -> object s t = t.
Proof. unfold object. by intros ->. Qed.
Lemma object_elem s t : object s t = t \/ object s t ∈ ss_dirty s.
Proof. unfold object. destruct (row_of t_id (t_id t) (ss_dirty s)) as [t'|] eqn:E; [|by left]. right. by apply row_of_key in E as [E _]. Qed.
Lemma object_ids s l : ids (map (object s) l) = ids l.
Proof. unfold ids. rewrite map_map. apply map_ext. intros t. apply object_id. Qed.
Lemma object_assign t s u : object (assign t s) u = if t_id u =? t_id t then t else object s u.
Proof.
  unfold object, row_of. cbn. destruct (Z.eqb_spec (t_id u) (t_id t)) as [E|E]; [by rewrite bool_decide_true|]. rewrite bool_decide_false by congruence.
  f_equal. induction (ss_dirty s) as [|v l IH]; cbn; [done|]. destruct (Z.eqb_spec (t_id v) (t_id t)); cbn; [rewrite bool_decide_false by congruence; done|].
  by case_bool_decide.
Qed.
Lemma query_elem f s t : t ∈ query f s -> exists r, r ∈ tb_tasks (ss_txn s) /\ f r = true /\ t = object s r.
Proof. unfold query. intros (r&->&H)%list_elem_of_fmap. apply list_elem_of_In, List.filter_In in H as [H Hf]. exists r. split; [by apply list_elem_of_In|done]. Qed.
Lemma query_clean f s : ss_dirty s = [] -> query f s = List.filter f (tb_tasks (ss_txn s)).
Proof. intros Hd. unfold query. rewrite <- (map_id (List.filter f _)) at 2. apply map_ext. intros t. by apply object_clean. Qed.

(** ** Reading *)
Lemma bind_run {S A B} (m : SE S A) (f : A -> SE S B) s : (m ≫= f) s = match m s with (s', Ok a) => f a s' | (s', Raise e) => (s', Raise e) end.
Proof. done. Qed.
Definition found_task (name : string) (user : option UUID) (s : session) : option Task :=
  match user with Some u => head (query (fun t => (t_name t =s name) && owned u t) s) | None => None end.
Lemma find_run {W} name user (s : st W) : find_task name user s = (s, Ok (found_task name user (st_session s))).
Proof. by destruct user. Qed.

(** ** Invariants made of a property of rows *)
Section kept.
Variable G : Task -> Prop.

Record kept (s : session) : Prop := {
  kp_durable : Forall G (tb_tasks (ss_durable s));
  kp_txn : Forall G (tb_tasks (ss_txn s));
  kp_dirty : Forall G (ss_dirty s);
  kp_ids : NoDup (ids (tb_tasks (ss_durable s))) /\ NoDup (ids (tb_tasks (ss_txn s)));
  kp_next : Forall (fun t => t_id t < ss_next_id s) (tb_tasks (ss_durable s)) /\ Forall (fun t => t_id t < ss_next_id s) (tb_tasks (ss_txn s))
}.

Lemma kept_object s r : kept s -> r ∈ tb_tasks (ss_txn s) -> G (object s r).
Proof. intros [_ H1 H2 _ _] Hr. destruct (object_elem s r) as [->|Hd]; [by apply (proj1 (Forall_forall _ _) H1)|by apply (proj1 (Forall_forall _ _) H2)]. Qed.
Lemma kept_query f s t : kept s -> t ∈ query f s -> G t.
Proof. intros Hk (r&Hr&_&->)%query_elem. by apply kept_object. Qed.
Lemma kept_flush s : kept s -> kept (flush s).
Proof.
  intros Hk. pose proof Hk as [H1 H2 H3 [H4 H5] [H6 H7]]. split; cbn; [done| |constructor|split; [done|by rewrite object_ids]|split; [done|]].
  - apply Forall_map, Forall_forall. intros t Ht. by apply kept_object.
  - apply Forall_map. eapply Forall_impl; [exact H7|]. intros t Ht. cbn. by rewrite object_id.
Qed.
Lemma kept_commit s : kept s -> kept (commit s).
Proof. intros Hk. apply kept_flush in Hk as [H1 H2 H3 [H4 H5] [H6 H7]]. by split. Qed.
Lemma kept_rollback s : kept s -> kept (rollback s).
Proof. intros [H1 H2 H3 [H4 H5] [H6 H7]]. by split; cbn; [..|constructor| |]. Qed.
Lemma kept_assign t s : G t -> kept s -> kept (assign t s).
Proof.
  intros Ht [H1 H2 H3 H4 H5]. split; cbn; try done. apply Forall_cons. split; [done|]. apply Forall_forall. intros u Hu.
  apply list_elem_of_In, List.filter_In in Hu as [Hu _]. apply list_elem_of_In in Hu. by apply (proj1 (Forall_forall _ _) H3).
Qed.
Lemma kept_insert t s : G t -> t_id t = ss_next_id s -> kept s -> kept (insert_task t s).
Proof.
  intros Ht Hid [H1 H2 H3 [H4 H5] [H6 H7]]. assert (forall l, Forall (fun t => t_id t < ss_next_id s) l -> Forall (fun t => t_id t < ss_next_id s + 1) l) as Hl.
  { intros l Hf. eapply Forall_impl; [exact Hf|]. cbn. lia. }
  split; cbn; [done| |done|split; [done|]|split; [by apply Hl|]].
  - apply Forall_app. by split; [|apply Forall_singleton].
  - unfold ids in *. rewrite map_app. apply NoDup_app. split_and!; [done| |apply NoDup_singleton]. intros x Hx ->%list_elem_of_singleton. cbn in Hx.
    apply list_elem_of_fmap in Hx as (u&Eu&Hu). pose proof (proj1 (Forall_forall _ _) H7 u Hu) as Hlt. cbn in Hlt. lia.
  - apply Forall_app. split; [by apply Hl|]. apply Forall_singleton. lia.
Qed.
Lemma kept_put_unit e s : kept s -> kept (put_unit e s).
Proof. intros [H1 H2 H3 H4 H5]. by split. Qed.
End kept.

(** ** Operations that preserve an invariant *)
Definition updated (now id : Z) (status : string) (s : session) : session :=
  match unit_of_task id s with Some e => (update_status unit_session now (IdUuid (eu_id e)) status s).1 | None => s end.
Definition with_unit (fresh : UUID) (now : Z) (t : Task) (s : session) : session :=
  (create unit_session fresh now "task" (IdUuid (t_user_id t)) (Some "task") (Some (Z_to_string (t_id t))) IdNone None None "pending" s).1.
(** An invariant [I] of sessions and the property [G] of their objects, closed under what
    the operations do *)
Record stable (I : session -> Prop) (G : Task -> Prop) : Prop := {
  sb_query f s t : I s -> t ∈ query f s -> G t;
  sb_flush s : I s -> I (flush s);
  sb_commit s : I s -> I (commit s);
  sb_rollback s : I s -> I (rollback s);
  sb_assign t s : G t -> I s -> I (assign t s);
  sb_insert t s : G t -> t_id t = ss_next_id s -> I s -> I (insert_task t s);
  sb_updated now id status s : I s -> I (updated now id status s);
  sb_with_unit fresh now t s : I s -> I (rollback (with_unit fresh now t s))
}.
Record row_closed (G : Task -> Prop) : Prop := {
  rc_status st t : (st = "completed" -> t_status t = "completed") -> G t -> G (with_status st t);
  rc_times a b c t : G t -> G (with_times a b c t);
  rc_reminder r t : G t -> G (with_reminder r t);
  rc_automation ty cfg t : G t -> G (with_automation ty cfg t)
}.
Lemma kept_updated G now id status s : kept G s -> kept G (updated now id status s).
Proof.
  intros Hk. unfold updated. destruct (unit_of_task id s) as [e|]; [|done]. unfold update_status, modify. cbn -[may_transition]. destruct (_ !! _) as [e'|]; [|done].
  destruct (may_transition (eu_status e') status); [|done]. by apply kept_put_unit, kept_flush.
Qed.
Lemma kept_stable G : stable (kept G) G.
Proof.
  split; [apply kept_query|apply kept_flush|apply kept_commit|apply kept_rollback|apply kept_assign|apply kept_insert|apply kept_updated|].
  intros. by apply kept_rollback, kept_put_unit, kept_flush.
Qed.

Section upholds.
Context {W : Type} (sv : services W) (I : session -> Prop) (G : Task -> Prop) (Hst : stable I G) (closed : row_closed G).

Lemma stable_affect es : forall s, I s -> I (foldl affect s es).
Proof. induction es as [|e es IH]; intros s Hk; cbn; [done|]. apply IH. destruct e; [by apply (sb_flush _ _ Hst)|by apply (sb_commit _ _ Hst)|by apply (sb_rollback _ _ Hst)]. Qed.

Definition upholds {A} (m : SE (st W) A) (Q : A -> Prop) : Prop :=
  forall s, I (st_session s) -> I (st_session (m s).1) /\ forall a, (m s).2 = Ok a -> Q a.
Lemma upholds_ret {A} (a : A) (Q : A -> Prop) : Q a -> upholds (mret a) Q.
Proof. intros Hq s Hk. split; [done|]. by intros a' [= <-]. Qed.
Lemma upholds_throw {A} e (Q : A -> Prop) : upholds (throw e) Q.
Proof. intros s Hk. by split. Qed.
Lemma upholds_of_result {A} (r : result A) : upholds (of_result r) (fun _ => True).
Proof. intros s Hk. by split. Qed.
Lemma upholds_bind {A B} (m : SE (st W) A) (f : A -> SE (st W) B) (P : A -> Prop) Q : upholds m P -> (forall a, P a -> upholds (f a) Q) -> upholds (m ≫= f) Q.
Proof.
  intros Hm Hf s Hk. unfold mbind, SE_bind. destruct (Hm s Hk) as [H1 H2]. destruct (m s) as [s' [a|e]]; [|done]. by apply Hf; [apply H2|].
Qed.
Lemma upholds_fmap {A B} (m : SE (st W) A) (f : A -> B) (P : A -> Prop) : upholds m P -> upholds (f <$> m) (fun _ => True).
Proof. intros Hm s Hk. unfold fmap, SE_fmap. destruct (Hm s Hk) as [H1 _]. by destruct (m s) as [s' [a|e]]. Qed.
Lemma upholds_weaken {A} (m : SE (st W) A) (P Q : A -> Prop) : upholds m P -> (forall a, P a -> Q a) -> upholds m Q.
Proof. intros Hm HPQ s Hk. destruct (Hm s Hk) as [H1 H2]. split; [done|]. intros a Ha. by apply HPQ, H2. Qed.
Lemma upholds_look {A} (f : session -> A) (Q : A -> Prop) : (forall s, I s -> Q (f s)) -> upholds (look f) Q.
Proof. intros Hf s Hk. split; [done|]. intros a [= <-]. by apply Hf. Qed.
Lemma upholds_change f : (forall s, I s -> I (f s)) -> upholds (change f) (fun _ => True).
Proof. intros Hf s Hk. split; [by apply Hf|done]. Qed.
Lemma upholds_call {A} (f : session -> W -> W * list effect * A) : upholds (call f) (fun _ => True).
Proof. intros s Hk. unfold call. destruct (f _ _) as [[w es] a]. split; [by apply stable_affect|done]. Qed.
Lemma upholds_emit e u t : upholds (emit sv e u t) (fun _ => True).
Proof. by intros s Hk. Qed.
Lemma upholds_for_each {A} (l : list A) (body : A -> SE (st W) unit) : (forall x, x ∈ l -> upholds (body x) (fun _ => True)) -> upholds (for_each l body) (fun _ => True).
Proof.
  induction l as [|x l IH]; intros Hb; [by apply upholds_ret|]. eapply upholds_bind; [apply Hb, list_elem_of_here|]. intros [] _. apply IH. intros y Hy. apply Hb. by right.
Qed.

Lemma recomputed_completed c st : recomputed c st = "completed" -> st = "completed".
Proof.
  unfold recomputed. destruct (st =s "completed") eqn:E; [done|]. destruct c; [by destruct (st =s "blocked")|by destruct (str_in _ _)].
Qed.
Lemma upholds_recompute u t : G t -> upholds (recompute_task_status u t) G.
Proof.
  intros Ht. eapply upholds_bind; [by apply (upholds_look _ (fun _ => True))|]. intros c _. cbn zeta. assert (G (with_status (recomputed c (t_status t)) t)) as Ht' by (apply (rc_status _ closed); [apply recomputed_completed|done]).
  eapply upholds_bind; [apply upholds_change; intros s; by apply (sb_assign _ _ Hst)|]. intros [] _. by apply upholds_ret.
Qed.
Lemma upholds_unlock_each u id cs : Forall G cs -> upholds (unlock_each u id cs) (fun _ => True).
Proof.
  induction 1 as [|c cs Hc _ IH]; [by apply upholds_ret|]. cbn [unlock_each]. destruct (Z_in id _); [|done].
  eapply upholds_bind; [by apply upholds_recompute|]. intros c' _. eapply upholds_bind; [done|]. intros rest _. by apply upholds_ret.
Qed.
Lemma upholds_unlock u t : upholds (unlock_downstream_tasks u t) (fun _ => True).
Proof.
  eapply upholds_bind; [apply (upholds_look _ (Forall G)); intros s Hk; apply Forall_forall; intros c; by apply (sb_query _ _ Hst)|]. intros cs. apply upholds_unlock_each.
Qed.
Lemma upholds_find name user : upholds (find_task name user) (fun o => match o with Some t => G t | None => True end).
Proof.
  destruct user as [u|]; [|by apply upholds_ret]. apply upholds_look. intros s Hk. destruct (query _ s) as [|t l] eqn:E; [done|]. cbn. eapply (sb_query _ _ Hst _ s); [done|]. rewrite E. apply list_elem_of_here.
Qed.
Lemma upholds_get id user : upholds (get_task_by_id id user) (fun o => match o with Some t => G t | None => True end).
Proof.
  destruct user as [u|]; [|by apply upholds_ret]. apply upholds_look. intros s Hk. destruct (query _ s) as [|t l] eqn:E; [done|]. cbn. eapply (sb_query _ _ Hst _ s); [done|]. rewrite E. apply list_elem_of_here.
Qed.
Lemma upholds_update_unit now id status : upholds (update_unit now id status) (fun _ => True).
Proof. apply upholds_change. intros s. apply (sb_updated _ _ Hst now id status s). Qed.
Lemma upholds_queue t user reason : upholds (queue_task_automation sv t user reason) (fun _ => True).
Proof.
  unfold queue_task_automation. destruct t as [t|], user as [u|]; try by apply upholds_ret. destruct (str_or_none _); [|by apply upholds_ret].
  eapply upholds_fmap. eapply upholds_bind; [apply upholds_call|]. intros r _. apply upholds_of_result.
Qed.
Lemma upholds_automate u items : Forall (fun i => upholds i.1 (fun _ => True)) items -> forall runs, upholds (automate sv u items runs) (fun _ => True).
Proof.
  induction 1 as [|[get reason] items Hg _ IH]; intros runs; [by apply upholds_ret|]. intros s Hk. cbn [automate].
  assert (upholds (t ← get; d ← queue_task_automation sv t (Some u) reason; mret (run_entry t d)) (fun _ => True)) as Hm.
  { eapply upholds_bind; [exact Hg|]. intros t _. eapply upholds_bind; [apply upholds_queue|]. intros d _. by apply upholds_ret. }
  destruct (Hm s Hk) as [H1 _].
  destruct ((t ← get; d ← queue_task_automation sv t (Some u) reason; mret (run_entry t d)) s) as [s' [new|e]]; [by apply IH|done].
Qed.

Lemma upholds_orchestrate name user : upholds (orchestrate_task_completion sv name user) (fun _ => True).
Proof.
  unfold orchestrate_task_completion. eapply upholds_bind; [apply upholds_find|]. intros [t|] Ht; [|by apply upholds_ret]. destruct user as [u|]; [|by apply upholds_ret].
  eapply upholds_bind; [apply upholds_unlock|]. intros unlocked _. do 5 (eapply upholds_bind; [apply upholds_call|]; intros ? _).
  eapply upholds_bind; [apply upholds_automate|].
  { apply Forall_cons. split; [by apply upholds_ret|]. apply Forall_map, Forall_forall. intros x _. exact (upholds_weaken _ _ _ (upholds_get x.1 (Some u)) (fun _ _ => Logic.I)). }
  intros runs _. eapply upholds_bind; [by apply (upholds_look _ (fun _ => True))|]. intros graph _.
  eapply (upholds_bind _ _ (fun _ => True)); [|intros next _; by apply upholds_ret]. match goal with |- upholds (match ?i with _ => _ end) _ => destruct i as [d|e] end; [|by apply upholds_ret].
  destruct (dget d _); [by apply upholds_ret|apply upholds_throw].
Qed.
Lemma upholds_start now name user : upholds (start_task sv now name user) (fun _ => True).
Proof.
  unfold start_task. eapply upholds_bind; [apply upholds_find|]. intros [t|] Ht; [|by apply upholds_ret]. destruct user as [u|]; [|by apply upholds_ret].
  eapply upholds_bind; [by apply (upholds_look _ (fun _ => True))|]. intros c _. destruct (negb c).
  - eapply upholds_bind; [by apply upholds_recompute|]. intros t' _. eapply upholds_bind; [apply upholds_change, (sb_commit _ _ Hst)|]. intros [] _. by apply upholds_ret.
  - destruct (t_start_time t); [by apply upholds_ret|]. cbn zeta. eapply upholds_bind; [apply upholds_change; intros s; apply (sb_assign _ _ Hst); apply (rc_status _ closed); [done|by apply (rc_times _ closed)]|].
    intros [] _. eapply upholds_bind; [apply upholds_change, (sb_commit _ _ Hst)|]. intros [] _. eapply upholds_bind; [apply upholds_emit|]. intros [] _.
    eapply upholds_bind; [apply upholds_update_unit|]. intros [] _. by apply upholds_ret.
Qed.
Lemma upholds_pause now name user : upholds (pause_task sv now name user) (fun _ => True).
Proof.
  unfold pause_task. eapply upholds_bind; [apply upholds_find|]. intros [t|] Ht; [|by apply upholds_ret]. destruct user as [u|]; [|by apply upholds_ret].
  destruct (t_status t =s "in_progress"); [|by apply upholds_ret]. destruct (t_start_time t) eqn:Es; [|apply upholds_throw]. cbn zeta.
  eapply upholds_bind; [apply upholds_change; intros s; apply (sb_assign _ _ Hst); apply (rc_status _ closed); [done|by apply (rc_times _ closed)]|].
  intros [] _. eapply upholds_bind; [apply upholds_change, (sb_commit _ _ Hst)|]. intros [] _. eapply upholds_bind; [apply upholds_emit|]. intros [] _.
  eapply upholds_bind; [apply upholds_update_unit|]. intros [] _. by apply upholds_ret.
Qed.
Lemma upholds_trigger id u ty cfg reason : upholds (trigger_automation sv id u ty cfg reason) (fun _ => True).
Proof.
  unfold trigger_automation. eapply upholds_bind; [apply upholds_get|]. intros [t|] Ht; [|apply upholds_throw]. cbn zeta.
  eapply upholds_bind; [apply upholds_change; intros s; apply (sb_assign _ _ Hst); by apply (rc_automation _ closed)|]. intros [] _.
  eapply upholds_bind; [apply upholds_change, (sb_commit _ _ Hst)|]. intros [] _. destruct (str_or_none _); [|apply upholds_throw].
  eapply upholds_bind; [apply upholds_queue|]. intros [j|] _; [|apply upholds_throw]. destruct (json_truthy j); [by apply upholds_ret|apply upholds_throw].
Qed.
Lemma upholds_reminders now user : upholds (check_reminders now user) (fun _ => True).
Proof.
  eapply upholds_bind; [apply (upholds_look _ (Forall G)); intros s Hk; apply Forall_forall; intros c; by apply (sb_query _ _ Hst)|]. intros tasks Ht. apply upholds_for_each. intros t Hin.
  pose proof (proj1 (Forall_forall _ _) Ht t Hin) as Hg. destruct (t_reminder_time t); [|by apply upholds_ret]. destruct (_ && _); [|by apply upholds_ret].
  eapply upholds_bind; [apply upholds_change; intros s; apply (sb_assign _ _ Hst); by apply (rc_reminder _ closed)|]. intros [] _. apply upholds_change, (sb_commit _ _ Hst).
Qed.
(** A completion: its check is made in the state of the call *)
Lemma inv_complete now name user s : I (st_session s) ->
  (forall t u, G t -> user = Some u -> dependencies_complete (st_session s) u t = true -> G (completed_row now t)) ->
  I (st_session (complete_task sv now name user s).1).
Proof.
  intros Hk Hc. destruct (upholds_find name user s Hk) as [_ Hf]. unfold complete_task. rewrite bind_run. rewrite find_run in Hf |- *. specialize (Hf _ eq_refl).
  destruct (found_task name user (st_session s)) as [t|]; [|done]. destruct user as [u|]; [|done]. rewrite bind_run. cbn [look reads]. unfold look, reads.
  destruct (dependencies_complete (st_session s) u t) eqn:Ed; cbn [negb].
  - pose proof (Hc t u Hf eq_refl Ed) as Hg. cbn zeta. match goal with |- I (st_session (?m s).1) => assert (upholds m (fun _ => True)) as Hm end; [|by apply Hm].
    eapply upholds_bind; [apply upholds_change; intros s'; by apply (sb_assign _ _ Hst)|]. intros [] _. eapply upholds_bind; [apply upholds_unlock|]. intros unlocked _.
    eapply upholds_bind; [apply upholds_change, (sb_commit _ _ Hst)|]. intros [] _. eapply upholds_bind; [apply upholds_emit|]. intros [] _. eapply upholds_bind; [apply upholds_update_unit|]. intros [] _.
    eapply upholds_bind; [eapply upholds_bind; [apply upholds_call|]; intros r _; apply upholds_of_result|]. intros [] _. by apply upholds_ret.
  - match goal with |- I (st_session (?m s).1) => assert (upholds m (fun _ => True)) as Hm end; [|by apply Hm].
    eapply upholds_bind; [by apply upholds_recompute|]. intros t' _. eapply upholds_bind; [apply upholds_change, (sb_commit _ _ Hst)|]. intros [] _. apply upholds_throw.
Qed.

Lemma recomputed_pending c : recomputed c "pending" <> "completed".
Proof. by destruct c. Qed.
Lemma inv_create fresh now a user s : I (st_session s) ->
  (forall s' owner status, I s' -> user = Some owner -> missing_ids s' owner (normalize_dependencies (a_dependencies a)) (a_parent_task_id a) = [] ->
     status <> "completed" -> G (with_status status (new_task (ss_next_id s') owner a))) ->
  I (rollback (st_session (create_task sv fresh now a user s).1)).
Proof.
  intros Hk Hn. unfold create_task. destruct user as [owner|]; [|by apply (sb_rollback _ _ Hst)]. rewrite bind_run.
  match goal with |- context [match ?m s with _ => _ end] => assert (upholds m (fun _ => True)) as Hm; [|destruct (Hm s Hk) as [Hk' _]; destruct (m s) as [s' [[]|e]]; [|by apply (sb_rollback _ _ Hst)]] end.
  { destruct (a_masterplan_id a); [|by apply upholds_ret]. eapply upholds_bind; [apply upholds_call|]. intros r _. apply upholds_of_result. }
  clear Hm Hk s. cbn [fst] in Hk'. rewrite bind_run. unfold validate_dependencies. rewrite bind_run. unfold look at 1, reads at 1.
  destruct (missing_ids _ _ _ _) eqn:Em; [|by apply (sb_rollback _ _ Hst)]. unfold mret at 1, SE_ret at 1. cbn beta iota. rewrite bind_run. unfold look at 1, reads at 1. cbn zeta. rewrite bind_run. unfold look at 1, reads at 1.
  match goal with |- context [(_ ← change (insert_task ?t); _) s'] => assert (G t) as Hg; [|set (t' := t) in *; assert (t_id t' = ss_next_id (st_session s')) as Hid by done; clearbody t'] end.
  { apply (Hn (st_session s')); [done..|]. apply recomputed_pending. }
  apply (sb_with_unit _ _ Hst fresh now t' (commit (insert_task t' (st_session s')))). by apply (sb_commit _ _ Hst), (sb_insert _ _ Hst).
Qed.

(** What a call must not do *)
Definition allowed (s : session) (now : Z) (q : request) : Prop :=
  match q with
  | Create _ a owner => forall s' status, I s' -> missing_ids s' owner (normalize_dependencies (a_dependencies a)) (a_parent_task_id a) = [] ->
      status <> "completed" -> G (with_status status (new_task (ss_next_id s') owner a))
  | Complete _ u => forall t, G t -> dependencies_complete (rollback s) u t = true -> G (completed_row now t)
  | _ => True
  end.
Lemma inv_serve now q s : I (st_session s) -> allowed (st_session s) now q -> I (st_session (serve sv now q s).1).
Proof.
  intros Hk Ha. unfold serve, in_session, try_finally. set (s0 := MkSt (rollback (st_session s)) (st_world s)). assert (I (st_session s0)) as Hk0 by (by apply (sb_rollback _ _ Hst)).
  assert (forall A B (f : A -> B) (m : SE (st W) A), st_session ((f <$> m) s0).1 = st_session (m s0).1) as Hf' by (intros A B f m; unfold fmap, SE_fmap; by destruct (m s0) as [s' [x|e]]).
  assert (I (rollback (st_session (perform sv now q s0).1))) as Hp; [|by destruct (perform sv now q s0) as [s' r]].
  destruct q as [fresh a u|name u|name u|name u|name u|id u ty cfg reason|u]; cbn [perform]; rewrite Hf'; [|apply (sb_rollback _ _ Hst)..].
  - apply inv_create; [done|]. intros s' owner status H1 [= <-]. by apply Ha.
  - by apply upholds_start.
  - by apply upholds_pause.
  - apply inv_complete; [done|]. intros t u' Ht [= <-]. by apply Ha.
  - by apply upholds_orchestrate.
  - by apply upholds_trigger.
  - by apply upholds_reminders.
Qed.
Lemma served_clean s l s' : served sv s l s' -> clean (st_session s').
Proof. intros [s0 now q]. unfold serve, in_session, try_finally. by destruct (perform _ _ _ _) as [s1 r]. Qed.
End upholds.

(** ** Dependencies *)
Lemma new_task_deps id owner a status d : d ∈ dependency_ids (with_status status (new_task id owner a)) <->
  d ∈ map dep_task (normalize_dependencies (a_dependencies a)) ++ match a_parent_task_id a with Some p => [p] | None => [] end.
Proof.
  unfold dependency_ids. cbn. destruct (a_parent_task_id a) as [p|]; [|by rewrite app_nil_r]. destruct (Z_in p _) eqn:E; [|done]. apply Z_in_spec in E. set_solver.
Qed.
Lemma missing_none s owner deps parent d : missing_ids s owner deps parent = [] -> d ∈ map dep_task deps ++ match parent with Some p => [p] | None => [] end ->
  exists t, t ∈ tb_tasks (ss_txn s) /\ t_id t = d /\ t_user_id t = owner.
Proof.
  unfold missing_ids. intros Hm Hd. set (ref := remove_dups _) in *. set (ex := map t_id _) in *. assert (d ∈ ref) as Hr by (by apply elem_of_remove_dups).
  assert (d ∈ ex) as He.
  { destruct (Z_in d ex) eqn:E; [by apply Z_in_spec|]. exfalso. assert (d ∈ merge_sort Z.le (List.filter (fun z => negb (Z_in z ex)) ref)) as H.
    { rewrite merge_sort_Permutation. apply list_elem_of_In, List.filter_In. split; [by apply list_elem_of_In|by rewrite E]. }
    rewrite Hm in H. by apply not_elem_of_nil in H. }
  unfold ex in He. apply list_elem_of_fmap in He as (t&->&Ht). apply list_elem_of_In, List.filter_In in Ht as [Ht Ho]. apply andb_true_iff in Ho as [Ho _]. unfold owned in Ho.
  apply bool_decide_eq_true in Ho. exists t. split_and!; [by apply list_elem_of_In|done..].
Qed.
(** All dependencies have a completed row of the user. *)
Definition all_done (l : list Task) (u : UUID) (t : Task) : Prop :=
  forall d, d ∈ dependency_ids t -> exists r, r ∈ l /\ t_id r = d /\ t_user_id r = u /\ t_status r = "completed".
Lemma dependencies_complete_spec s u t : NoDup (ids (tb_tasks (ss_txn s))) -> dependencies_complete s u t = true <-> all_done (tb_tasks (ss_txn s)) u t.
Proof.
  intros Hnd. unfold dependencies_complete, all_done, count. destruct (dependency_ids t) as [|d0 ds] eqn:Ed; [split; [by intros _ d ?%not_elem_of_nil|done]|]. set (deps := d0 :: ds) in *.
  set (f := fun r => owned u r && Z_in (t_id r) deps && (t_status r =s "completed")). set (l := List.filter f _).
  assert (forall r, r ∈ l <-> r ∈ tb_tasks (ss_txn s) /\ t_user_id r = u /\ t_id r ∈ deps /\ t_status r = "completed") as Hl.
  { intros r. unfold l, f. rewrite list_elem_of_In, List.filter_In, <- list_elem_of_In, !andb_true_iff, Z_in_spec, String.eqb_eq. unfold owned. rewrite bool_decide_eq_true. naive_solver. }
  assert (NoDup (ids l)) as Hndl.
  { unfold l. clear -Hnd. unfold ids in *. induction (tb_tasks (ss_txn s)) as [|r k IH]; cbn; [constructor|]. apply NoDup_cons in Hnd as [Hn Hnd]. destruct (f r); [|by apply IH].
    cbn. apply NoDup_cons. split; [|by apply IH]. intros (r'&E&Hr)%list_elem_of_fmap. apply Hn. rewrite E. apply (list_elem_of_fmap_2 t_id). apply list_elem_of_In, List.filter_In in Hr as [Hr _]. by apply list_elem_of_In. }
  assert (forall d, d ∈ ids l -> d ∈ remove_dups deps) as Hsub by (intros d (r&->&Hr)%list_elem_of_fmap; apply elem_of_remove_dups; by apply Hl in Hr as (_&_&?&_)).
  rewrite Z.eqb_eq. replace (length l) with (length (ids l)) by (unfold ids; apply length_map). split.
  - intros E d Hd. assert (ids l ≡ₚ remove_dups deps) as Hp by (apply submseteq_length_Permutation; [by apply NoDup_submseteq|lia]).
    assert (d ∈ ids l) as (r&->&Hr)%list_elem_of_fmap by (rewrite Hp; by apply elem_of_remove_dups). apply Hl in Hr as (?&?&?&?). by exists r.
  - intros H. f_equal. apply Permutation_length, NoDup_Permutation; [done|apply NoDup_remove_dups|]. intros d. split; [apply Hsub|]. rewrite elem_of_remove_dups.
    intros Hd. destruct (H d Hd) as (r&?&<-&?&?). apply (list_elem_of_fmap_2 t_id). by apply Hl.
Qed.

(** ** Reachable states *)
Definition shaped (t : Task) : Prop := forall d, d ∈ dependency_ids t -> d < t_id t.
Lemma shaped_closed : row_closed shaped.
Proof. by split. Qed.

Section reachable.
Context {W : Type} (sv : services W).

Lemma start_kept (G : Task -> Prop) (w : W) : kept G (st_session (start_state w)).
Proof. split; cbn; try done; split; constructor. Qed.
Lemma reachable_shaped w log s : trace (served sv) (start_state w) log s -> kept shaped (st_session s) /\ clean (st_session s).
Proof.
  apply (trace_ind_snoc (served sv) (fun _ s => kept shaped (st_session s) /\ clean (st_session s))); [split; [apply start_kept|done]|].
  intros ls s1 l s2 _ [Hk _] Hs. split; [|by eapply served_clean]. destruct Hs as [s0 now q]. apply (inv_serve sv _ _ (kept_stable _)); [apply shaped_closed|done|].
  destruct q as [fresh a u|name u|name u|name u|name u|id u ty cfg reason|u]; cbn; try done.
  intros s' status Hk' Hm _ d Hd. apply new_task_deps in Hd. destruct (missing_none s' u _ _ d Hm Hd) as (t&Ht&<-&_). cbn.
  destruct Hk' as [_ _ _ _ [_ Hn]]. by apply (proj1 (Forall_forall _ _) Hn t).
Qed.

(** ** The next task *)
Definition workable (rows : list Task) (t : Task) : Prop :=
  t_status t ∈ ["pending"; "paused"; "in_progress"] /\ forall t', t' ∈ rows -> t_id t' ∈ dependency_ids t -> t_status t' = "completed".
(** More tasks wait for [t] one after the other than for [t'], or as many and it has the
    higher priority, or the same and it is older. *)
Definition before (rows : list Task) (t t' : Task) : Prop := forall w w', longest (needs rows) (t_id t) w -> longest (needs rows) (t_id t') w' ->
  rank_le (- w, priority_rank (t_priority t), t_id t) (- w', priority_rank (t_priority t'), t_id t').

Lemma longest_unique (R : Z -> Z -> Prop) c w w' : longest R c w -> longest R c w' -> w = w'.
Proof. intros (H1&H2&H3) (G1&G2&G3). apply H3 in G2. apply G3 in H2. lia. Qed.
#[local] Instance by_rank_total g : Total (by_rank g).
Proof. intros a b. unfold by_rank, rank_le. lia. Qed.
#[local] Instance by_rank_trans g : Transitive (by_rank g).
Proof. intros a b c. unfold by_rank, rank_le. lia. Qed.
Lemma sorted_head (R : relation Z) `{!RelDecision R, !Total R, !Transitive R} l x k : merge_sort R l = x :: k -> forall y, y ∈ l -> R x y.
Proof.
  intros E y Hy. pose proof (StronglySorted_merge_sort R l) as Hs. rewrite E in Hs. apply StronglySorted_cons in Hs as [Hf _].
  assert (y ∈ x :: k) as [->|Hk]%elem_of_cons; [by rewrite <- E, merge_sort_Permutation|by destruct (total R x x)|]. by apply (proj1 (Forall_forall _ _) Hf).
Qed.
Lemma needs_ext rows rows' d c : (forall t, t ∈ rows <-> t ∈ rows') -> needs rows d c -> needs rows' d c.
Proof.
  intros H [Hd (t&Ht&E&Hin)]. split; [|exists t; split_and!; [by apply H|done..]]. apply list_elem_of_fmap in Hd as (r&->&Hr). apply (list_elem_of_fmap_2 t_id). by apply H.
Qed.

Lemma shaped_no_cycle rows : (forall t, t ∈ rows -> shaped t) -> no_cycle rows.
Proof.
  intros Hs. assert (exists lo, forall t, t ∈ rows -> lo <= t_id t) as [lo Hlo].
  { clear. induction rows as [|r rows [lo IH]]; [exists 0; by intros t ?%not_elem_of_nil|]. exists (Z.min lo (t_id r)). intros t [->|Ht]%elem_of_cons; [lia|]. specialize (IH t Ht). lia. }
  exists (fun z => Z.to_nat (z - lo)). intros d c [Hd (t&Ht&<-&Hin)]. apply list_elem_of_fmap in Hd as (r&->&Hr). pose proof (Hs t Ht _ Hin). pose proof (Hlo r Hr). lia.
Qed.

(** The choice among the rows of a user *)
Lemma next_of_graph rows : NoDup (ids rows) -> (forall t, t ∈ rows -> shaped t) -> exists c, context_of rows = Ok c /\
  match gc_critical_path c with
  | [] => forall t, t ∈ rows -> ~ workable rows t
  | id :: _ => exists t, t ∈ rows /\ t_id t = id /\ find_node (gc_nodes c) id = Some (node_of t) /\ workable rows t /\ forall t', t' ∈ rows -> workable rows t' -> before rows t t'
  end.
Proof.
  intros Hnd Hs. destruct rows as [|r0 rs]; [exists empty_context; split; [done|]; by intros t ?%not_elem_of_nil|]. set (rows := r0 :: rs) in *.
  assert (no_cycle rows) as Hno by (by apply shaped_no_cycle). apply (build_graph_ok rows Hnd) in Hno as [g Hg]. pose proof (build_graph_of rows Hnd g Hg) as Hgo.
  destruct (build_parts rows Hnd g Hg) as [Hns (_&_&Hrd)].
  set (path := merge_sort (by_rank g) (g_ready g)). exists (MkContext (g_nodes g) path (g_blocked g) path (g_critical_weight g)).
  split; [unfold context_of, rows; fold rows; by rewrite Hg|]. cbn.
  assert (forall t, t ∈ rows -> t_id t ∈ path <-> workable rows t) as Hw by (intros t Ht; unfold path; rewrite merge_sort_Permutation; by apply (go_ready rows g Hgo)).
  destruct path as [|id k] eqn:Ep; [intros t Ht Hwk; apply Hw in Hwk; [by apply not_elem_of_nil in Hwk|done]|].
  assert (id ∈ g_ready g) as Hid by (unfold path in Ep; rewrite <- (merge_sort_Permutation (by_rank g)), Ep; apply list_elem_of_here).
  assert (exists t, t ∈ rows /\ t_id t = id) as (t&Ht&<-).
  { assert (id ∈ ids rows) as (t&->&Ht)%list_elem_of_fmap; [|by exists t]. unfold ids. rewrite <- (go_all rows g Hgo). rewrite Hrd in Hid. apply list_elem_of_In, List.filter_In in Hid as [Hid _]. by apply list_elem_of_In. }
  exists t. split_and!; [done|done|rewrite Hns; by apply find_node_row|apply Hw; [done|apply list_elem_of_here]|].
  intros t' Ht' Hwk wt wt' Hl Hl'. pose proof (sorted_head (by_rank g) (g_ready g) (t_id t) k Ep (t_id t') (proj2 (go_ready rows g Hgo t' Ht') Hwk)) as Hle.
  unfold by_rank, rank in Hle. rewrite Hns, !find_node_row in Hle by done.
  rewrite (longest_unique _ _ _ _ Hl (go_weight rows g Hgo t Ht)), (longest_unique _ _ _ _ Hl' (go_weight rows g Hgo t' Ht')).
  rewrite !(build_weight rows Hnd g) in Hle by done. done.
Qed.

Lemma workable_ext rows rows' t : (forall t, t ∈ rows <-> t ∈ rows') -> workable rows t -> workable rows' t.
Proof. intros H [H1 H2]. split; [done|]. intros t' Ht'. apply H2. by apply H. Qed.
Lemma before_ext rows rows' t t' : (forall t, t ∈ rows <-> t ∈ rows') -> before rows t t' -> before rows' t t'.
Proof.
  intros H Hb w w' Hl Hl'. assert (forall d c, needs rows' d c <-> needs rows d c) as Hn by (intros d c; split; apply needs_ext; naive_solver).
  by apply Hb; eapply longest_iff.
Qed.

(** The rows of a user *)
Definition rows_of (u : UUID) (s : st W) : list Task := List.filter (owned u) (tb_tasks (ss_durable (st_session s))).

(** C20: The choice of the next task always succeeds and is the best one.  Tasks created by
    the system calls never form a cycle, so in every reachable state [get_next_ready_task]
    returns; it returns nothing only when no task of the user can be worked on, and otherwise
    one that can be, on which the longest chain of tasks waits, among those the one of highest
    priority, and among those the oldest. *)
Theorem next_task_best w log s u : trace (served sv) (start_state w) log s ->
  exists o, get_next_ready_task (Some u) (st_session s) = Ok o /\
  match o with
  | None => forall t, t ∈ rows_of u s -> ~ workable (rows_of u s) t
  | Some id => exists t, t ∈ rows_of u s /\ t_id t = id /\ workable (rows_of u s) t /\ forall t', t' ∈ rows_of u s -> workable (rows_of u s) t' -> before (rows_of u s) t t'
  end.
Proof.
  intros Ht. destruct (reachable_shaped w log s Ht) as [Hk [Hc1 Hc2]]. set (l := merge_sort by_id (query (owned u) (st_session s))).
  assert (l ≡ₚ rows_of u s) as Hp by (unfold l, rows_of; by rewrite merge_sort_Permutation, query_clean, Hc1).
  assert (forall t, t ∈ l <-> t ∈ rows_of u s) as He by (intros t; by rewrite Hp). assert (forall t, t ∈ rows_of u s <-> t ∈ l) as He' by naive_solver.
  destruct Hk as [Hg _ _ [Hnd _] _]. assert (NoDup (ids l)) as Hndl.
  { unfold ids. rewrite (Permutation_map t_id Hp). unfold rows_of. clear -Hnd. unfold ids in Hnd. induction (tb_tasks _) as [|r k IH]; cbn; [constructor|]. apply NoDup_cons in Hnd as [Hn Hnd].
    destruct (owned u r); [|by apply IH]. cbn. apply NoDup_cons. split; [|by apply IH]. intros (r'&E&Hr)%list_elem_of_fmap. apply Hn. rewrite E. apply (list_elem_of_fmap_2 t_id).
    apply list_elem_of_In, List.filter_In in Hr as [Hr _]. by apply list_elem_of_In. }
  destruct (next_of_graph l Hndl) as (c&Hc&Hm).
  { intros t Hin. rewrite He in Hin. apply list_elem_of_In, List.filter_In in Hin as [Hin _]. apply list_elem_of_In in Hin. by apply (proj1 (Forall_forall _ _) Hg). }
  unfold get_next_ready_task, get_task_graph_context. fold l. rewrite Hc. cbn [mbind result_bind]. eexists. split; [done|]. destruct (gc_critical_path c) as [|id k].
  - intros t Hin Hwk. apply (Hm t); [by apply He|]. by eapply workable_ext.
  - destruct Hm as (t&Hin&<-&Hf&Hwk&Hb). rewrite Hf. exists t. split_and!; [by apply He|done|by eapply workable_ext|].
    intros t' Hin' Hwk'. eapply before_ext; [done|]. apply Hb; [by apply He|by eapply workable_ext].
Qed.

(** ** Completion *)
(** Either the row was completed in [D], or what it depends on was. *)
Definition finished (D : list Task) (t : Task) : Prop :=
  t_status t = "completed" -> (exists r, r ∈ D /\ t_id r = t_id t /\ t_status r = "completed") \/ (forall d, d ∈ dependency_ids t -> exists r, r ∈ D /\ t_id r = d /\ t_status r = "completed").
Lemma finished_closed D : row_closed (finished D).
Proof.
  split; intros; cbn; try done. intros Hc. cbn in Hc. destruct H0 as [(r&?&?&?)|Hd]; [by apply H| |]; [left; by exists r|by right].
Qed.


(** ** Execution units *)
Definition bare (s : session) : Prop := tb_units (ss_durable s) = ∅ /\ tb_units (ss_txn s) = ∅.
Lemma bare_stable : stable bare (fun _ => True).
Proof.
  split; try done; [by intros s [H1 H2]..| |].
  - intros now id status s [H1 H2]. unfold updated. replace (unit_of_task id s) with (@None ExecutionUnit); [done|]. unfold unit_of_task. by rewrite H2, map_to_list_empty.
  - intros fresh now t s [H1 H2]. done.
Qed.

(** The execution unit of a task is never stored.  [create_task] creates it after its
    last commit and the session of the system call is closed without another one, so the unit
    is rolled back; the calls that start, pause and complete the task find none, and in every
    reachable state the table has no unit, whatever the other services commit. *)
Theorem task_units_never_stored w log s : trace (served sv) (start_state w) log s -> tb_units (ss_durable (st_session s)) = ∅.
Proof.
  intros Ht. assert (bare (st_session s)) as [? _]; [|done]. revert Ht. apply (trace_ind_snoc (served sv) (fun _ s => bare (st_session s))); [done|].
  intros ls s1 l s2 _ Hb Hs. destruct Hs as [s0 now q]. apply (inv_serve sv _ _ bare_stable); [by split|done|by destruct q].
Qed.

(** Calls one after the other *)
Fixpoint run_all (qs : list (Z * request)) (s : st W) : list (Z * request * result response) * st W :=
  match qs with
  | [] => ([], s)
  | (now, q) :: qs' => let r := serve sv now q s in let p := run_all qs' r.1 in ((now, q, r.2) :: p.1, p.2)
  end.
Lemma run_all_trace qs : forall s, trace (served sv) s (run_all qs s).1 (run_all qs s).2.
Proof. induction qs as [|[now q] qs IH]; intros s; [constructor|]. cbn. econstructor; [apply served_call|apply IH]. Qed.
End reachable.

(** ** Witnesses *)
Definition demo_services : services unit := {|
  sv_emit _ _ _ x := x;
  sv_assert_masterplan _ _ _ x := (x, [], Ok ());
  sv_save_calculation _ _ _ x := (x, [], Ok ());
  sv_memory_capture _ _ _ x := (x, [], Ok true);
  sv_feedback _ _ _ x := (x, [], 0);
  sv_social_sync _ _ x := (x, [], Raise (Exn "RuntimeError" "no mongo"));
  sv_eta _ _ x := (x, [], Ok false);
  sv_infinity _ _ x := (x, [], Ok [("next_action", JNull)]);
  sv_dispatch _ _ _ _ x := (x, [], Ok JNull)
|}.
Definition demo_owner : UUID := MkUUID 1.
Definition demo_args (name : string) (deps : list Z) : task_args :=
  MkArgs name None (Some "medium") None None None None (map (fun d => (Some d, None)) deps) None None None None None.
(** Tasks a, b and c; c depends on a and b. *)
Definition demo_created : list (Z * request) :=
  [(1, Create (MkUUID 7) (demo_args "a" []) demo_owner); (2, Create (MkUUID 8) (demo_args "b" []) demo_owner); (3, Create (MkUUID 9) (demo_args "c" [1; 2]) demo_owner)].
Definition demo_state (qs : list (Z * request)) : st unit := (run_all demo_services (demo_created ++ qs) (start_state ())).2.
Lemma demo_reached qs : trace (served demo_services) (start_state ()) (run_all demo_services (demo_created ++ qs) (start_state ())).1 (demo_state qs).
Proof. exact (run_all_trace demo_services (demo_created ++ qs) (start_state ())). Qed.

Lemma next_task_best_witness : get_next_ready_task (Some demo_owner) (st_session (demo_state [(4, Complete "a" demo_owner)])) = Ok (Some 2) /\
  exists o, get_next_ready_task (Some demo_owner) (st_session (demo_state [(4, Complete "a" demo_owner)])) = Ok o.
Proof.
  split; [vm_compute; reflexivity|]. destruct (next_task_best demo_services () _ _ demo_owner (demo_reached [(4, Complete "a" demo_owner)])) as (o&Ho&_). exists o. exact Ho.
Defined.
Definition demo_ready : st unit := demo_state [(4, Complete "a" demo_owner); (5, Complete "b" demo_owner)].
Definition demo_row : Task := nth 2 (tb_tasks (ss_durable (st_session (serve demo_services 6 (Complete "c" demo_owner) demo_ready).1))) (demo_task 0 "" []).
Lemma task_units_never_stored_witness : length (tb_tasks (ss_durable (st_session demo_ready))) = 3%nat /\ tb_units (ss_durable (st_session demo_ready)) = ∅.
Proof. split; [vm_compute; reflexivity|]. exact (task_units_never_stored demo_services () _ demo_ready (demo_reached [(4, Complete "a" demo_owner); (5, Complete "b" demo_owner)])). Defined.
