(* ===== verification/TaskOutcomes.v ===== *)
(** * What becomes of a task

    The effect of single calls on the stored rows, and three things that do not work: a
    paused task cannot be resumed and its time is counted twice, and the completion of a task
    does not unlock the tasks that wait for it. *)
From S2P Require Import Prelude PyEffects PyDatetime PyUuid Json WaitCondition ExecutionUnit Tasks TaskGraph TaskService TaskFacts.
Local Open Scope Z_scope.

(** ** Stored rows *)
Definition rows {W} (s : st W) : list Task := tb_tasks (ss_durable (st_session s)).
(** Everything has been stored. *)
Definition settled (l : list Task) (s : session) : Prop := ss_dirty s = [] /\ tb_tasks (ss_txn s) = l /\ tb_tasks (ss_durable s) = l.

Lemma map_object_clean s l : ss_dirty s = [] -> map (object s) l = l.
Proof. intros H. rewrite <- (map_id l) at 2. apply map_ext. intros t. by apply object_clean. Qed.
Lemma settled_flush l s : settled l s -> settled l (flush s).
Proof. intros (H1&H2&H3). split_and!; cbn; [done|by rewrite map_object_clean|done]. Qed.
Lemma settled_affect l es : forall s, settled l s -> settled l (foldl affect s es).
Proof.
  induction es as [|e es IH]; intros s Hs; cbn; [done|]. apply IH. destruct e; cbn.
  - by apply settled_flush.
  - destruct Hs as (H1&H2&H3). split_and!; cbn; [done|by rewrite map_object_clean..].
  - destruct Hs as (H1&H2&H3). by split_and!.
Qed.
Lemma settled_commit s : settled (map (object s) (tb_tasks (ss_txn s))) (commit s).
Proof. by split_and!. Qed.
Lemma settled_update_unit {W} l now id status (s : st W) : settled l (st_session s) -> settled l (st_session (update_unit now id status s).1).
Proof.
  intros Hs. unfold update_unit, change, writes. cbn [fst st_session]. destruct (unit_of_task id _) as [e|]; [|done]. unfold update_status, modify. cbn -[may_transition].
  destruct (_ !! _) as [e'|]; [|done]. destruct (may_transition (eu_status e') status); [|done]. cbn. by apply (settled_flush l).
Qed.
Lemma clean_settled s : clean s -> settled (tb_tasks (ss_durable s)) s.
Proof. intros [H1 H2]. by split_and!; [|rewrite H1|]. Qed.

(** A row in place of the one with its id *)
Definition swap (t r : Task) : Task := if t_id r =? t_id t then t else r.
Lemma assign_rows t s : ss_dirty s = [] -> map (object (assign t s)) (tb_tasks (ss_txn s)) = map (swap t) (tb_tasks (ss_txn s)).
Proof. intros Hd. apply map_ext. intros r. rewrite object_assign. unfold swap. by rewrite object_clean. Qed.
Lemma swap_ids t l : map t_id (map (swap t) l) = map t_id l.
Proof. rewrite map_map. apply map_ext. intros r. unfold swap. destruct (Z.eqb_spec (t_id r) (t_id t)); congruence. Qed.
Lemma swap_elem t r l : r ∈ l -> t_id r = t_id t -> t ∈ map (swap t) l.
Proof. intros Hr E. apply list_elem_of_fmap. exists r. split; [|done]. unfold swap. by rewrite E, Z.eqb_refl. Qed.
Lemma swap_other t r l : r ∈ l -> t_id r <> t_id t -> r ∈ map (swap t) l.
Proof. intros Hr E. apply list_elem_of_fmap. exists r. split; [|done]. unfold swap. destruct (Z.eqb_spec (t_id r) (t_id t)); [done|done]. Qed.

Section outcomes.
Context {W : Type} (sv : services W).

Definition named (name : string) (u : UUID) (t : Task) : bool := (t_name t =s name) && owned u t.
Lemma found_clean name u s : clean s -> found_task name (Some u) s = head (List.filter (named name u) (tb_tasks (ss_durable s))).
Proof. intros [H1 H2]. unfold found_task. by rewrite query_clean, H1. Qed.
Lemma found_elem name u l t : head (List.filter (named name u) l) = Some t -> t ∈ l /\ named name u t = true.
Proof.
  destruct (List.filter _ l) as [|t' k] eqn:E; [done|]. intros [= ->]. assert (In t (List.filter (named name u) l)) as H by (rewrite E; by left).
  apply List.filter_In in H as [H1 H2]. split; [by apply list_elem_of_In|done].
Qed.
(** Replacing the row that is found by one of the same name and owner *)
Lemma found_swap name u l t t' : NoDup (map t_id l) -> head (List.filter (named name u) l) = Some t -> t_id t' = t_id t -> named name u t' = true ->
  head (List.filter (named name u) (map (swap t') l)) = Some t'.
Proof.
  intros Hnd Hf Hid Hn. induction l as [|r l IH]; [done|]. cbn [map List.filter] in *. apply NoDup_cons in Hnd as [Hni Hnd]. destruct (named name u r) eqn:Er.
  - injection Hf as ->. assert (swap t' t = t') as -> by (unfold swap; by rewrite Hid, Z.eqb_refl). by rewrite Hn.
  - destruct (decide (t_id r = t_id t')) as [E|E].
    + exfalso. apply Hni. rewrite E, Hid. apply found_elem in Hf as [Hf _]. by apply (list_elem_of_fmap_2 t_id).
    + assert (swap t' r = r) as -> by (unfold swap; by destruct (Z.eqb_spec (t_id r) (t_id t'))). rewrite Er. by apply IH.
Qed.

(** The result of a call is that of the operation in a session of its own. *)
Lemma serve_run now q (s : st W) s1 r : clean (st_session s) -> perform sv now q s = (s1, r) -> serve sv now q s = (MkSt (rollback (st_session s1)) (st_world s1), r).
Proof.
  intros [H1 H2] Hp. unfold serve, in_session, try_finally. replace (MkSt (rollback (st_session s)) (st_world s)) with s; [by rewrite Hp|].
  destruct s as [[d t dirty n] w]. cbn in *. by subst.
Qed.

Lemma look_run {A} (f : session -> A) (s : st W) : look f s = (s, Ok (f (st_session s))).
Proof. done. Qed.
Lemma change_run f (s : st W) : change f s = (MkSt (f (st_session s)) (st_world s), Ok ()).
Proof. done. Qed.
Lemma emit_run e u t (s : st W) : emit sv e u t s = (MkSt (st_session s) (sv_emit sv e u t (st_world s)), Ok ()).
Proof. done. Qed.
Ltac run := rewrite bind_run; first [rewrite look_run|rewrite change_run|rewrite emit_run]; cbn beta iota; cbn [st_session st_world].

(** The operation stored [l], and the answer is [r]. *)
Definition stores (s : st W) (now : Z) (q : request) (l : list Task) (r : result response) : Prop :=
  exists s', serve sv now q s = (s', r) /\ clean (st_session s') /\ rows s' = l.
Lemma stores_run now q (s : st W) s1 l r : clean (st_session s) -> perform sv now q s = (s1, r) -> settled l (st_session s1) -> stores s now q l r.
Proof.
  intros Hc Hp Hs. eexists. split; [by apply serve_run|]. split; [done|]. by destruct Hs as (_&_&?).
Qed.

Definition paused_row (now start : Z) (t : Task) : Task := with_status "paused" (with_times (Some start) (t_end_time t) (t_time_spent t + (now - start)) t).
Lemma pause_stores now name u s t start : clean (st_session s) -> head (List.filter (named name u) (rows s)) = Some t -> t_status t = "in_progress" -> t_start_time t = Some start ->
  stores s now (Pause name u) (map (swap (paused_row now start t)) (rows s)) (Ok (RText ("Paused task: " +:+ t_name t))).
Proof.
  intros Hc Hf Hst Hstart. pose proof Hc as [Hc1 Hc2]. unfold rows in Hf. rewrite <- (found_clean name u _ Hc) in Hf.
  set (s1 := MkSt (commit (assign (paused_row now start t) (st_session s))) (sv_emit sv "task.paused" u (paused_row now start t) (st_world s))).
  apply stores_run with (update_unit now (t_id t) "waiting" s1).1; [done| |].
  - cbn [perform]. unfold fmap, SE_fmap, pause_task. rewrite bind_run, find_run, Hf, Hst, String.eqb_refl, Hstart. cbn zeta. by do 3 run.
  - apply settled_update_unit. unfold s1. cbn [st_session]. unfold rows. rewrite <- Hc1, <- assign_rows by done. exact (settled_commit (assign _ _)).
Qed.
(** A task that has been started is not started again, whatever its status. *)
Lemma start_again now name u s t start : clean (st_session s) -> NoDup (map t_id (rows s)) -> head (List.filter (named name u) (rows s)) = Some t -> t_start_time t = Some start -> all_done (rows s) u t ->
  stores s now (Start name u) (rows s) (Ok (RText ("Task '" +:+ name +:+ "' already started."))).
Proof.
  intros Hc Hnd Hf Hstart Hd. pose proof Hc as [Hc1 Hc2]. unfold rows in Hf. rewrite <- (found_clean name u _ Hc) in Hf.
  apply stores_run with s; [done| |by apply clean_settled]. cbn [perform]. unfold fmap, SE_fmap, start_task. rewrite bind_run, find_run, Hf. run.
  replace (dependencies_complete (st_session s) u t) with true by (symmetry; apply dependencies_complete_spec; rewrite Hc1; done). by rewrite Hstart.
Qed.

(** ** The recomputation of dependents *)
Definition relabel (z : session) (u : UUID) (c : Task) : Task := with_status (recomputed (dependencies_complete z u c) (t_status c)) c.
Fixpoint relabel_all (z : session) (u : UUID) (id : Z) (cs : list Task) : session :=
  match cs with
  | [] => z
  | c :: cs' => relabel_all (if Z_in id (dependency_ids c) then assign (relabel z u c) z else z) u id cs'
  end.
Definition unlocks (z : session) (u : UUID) (id : Z) (c : Task) : bool :=
  Z_in id (dependency_ids c) && (t_status c =s "blocked") && (t_status (relabel z u c) =s "pending").
Definition unlocked_of (z : session) (u : UUID) (id : Z) (cs : list Task) : list (Z * string) := map (fun c => (t_id c, t_name c)) (List.filter (unlocks z u id) cs).

Lemma unlocked_txn z z' u id cs : ss_txn z = ss_txn z' -> unlocked_of z u id cs = unlocked_of z' u id cs.
Proof.
  intros E. unfold unlocked_of. f_equal. apply filter_ext. intros c. unfold unlocks, relabel, dependencies_complete, count. by rewrite E.
Qed.
Lemma unlock_each_run u id cs : forall s : st W, unlock_each u id cs s = (MkSt (relabel_all (st_session s) u id cs) (st_world s), Ok (unlocked_of (st_session s) u id cs)).
Proof.
  induction cs as [|c cs IH]; intros [z w]; [done|]. cbn [unlock_each relabel_all]. unfold unlocked_of. cbn [List.filter]. unfold unlocks at 1.
  destruct (Z_in id (dependency_ids c)); [|by rewrite IH]. rewrite bind_run. unfold recompute_task_status. rewrite bind_run, look_run. cbn zeta. rewrite bind_run, change_run.
  unfold mret at 1, SE_ret at 1. rewrite bind_run, IH. cbn [st_session st_world]. fold (relabel z u c). rewrite (unlocked_txn (assign (relabel z u c) z) z) by done.
  cbn [andb]. destruct ((t_status c =s "blocked") && _); done.
Qed.
Lemma relabel_txn u id cs : forall z, ss_txn (relabel_all z u id cs) = ss_txn z /\ ss_durable (relabel_all z u id cs) = ss_durable z.
Proof. induction cs as [|c cs IH]; intros z; cbn; [done|]. destruct (IH (if Z_in id (dependency_ids c) then assign (relabel z u c) z else z)) as [-> ->]. by destruct (Z_in id _). Qed.
Lemma relabel_session z z' u c : ss_txn z = ss_txn z' -> relabel z u c = relabel z' u c.
Proof. intros E. unfold relabel, dependencies_complete, count. by rewrite E. Qed.
Lemma relabel_object u id cs : forall z r, NoDup (map t_id cs) -> object (relabel_all z u id cs) r =
  match row_of t_id (t_id r) cs with Some c => if Z_in id (dependency_ids c) then relabel z u c else object z r | None => object z r end.
Proof.
  induction cs as [|c cs IH]; intros z r Hnd; [done|]. cbn [relabel_all]. apply NoDup_cons in Hnd as [Hn Hnd]. rewrite IH by done. unfold row_of. cbn [List.find].
  destruct (decide (t_id c = t_id r)) as [E|E].
  - rewrite (bool_decide_true (t_id c = t_id r)) by done. replace (List.find _ cs) with (@None Task).
    + destruct (Z_in id (dependency_ids c)); [|done]. rewrite object_assign. replace (t_id r =? t_id (relabel z u c)) with true; [done|]. cbn. by rewrite E, Z.eqb_refl.
    + symmetry. apply (row_of_None t_id (t_id r)). by rewrite <- E.
  - rewrite (bool_decide_false (t_id c = t_id r)) by done. set (z' := if Z_in id (dependency_ids c) then _ else z).
    assert (ss_txn z' = ss_txn z) as Et by (unfold z'; by destruct (Z_in id (dependency_ids c))).
    assert (object z' r = object z r) as Eo.
    { unfold z'. destruct (Z_in id (dependency_ids c)); [|done]. rewrite object_assign. cbn. by destruct (Z.eqb_spec (t_id r) (t_id c)). }
    destruct (List.find _ cs) as [c'|]; [|done]. by rewrite Eo, (relabel_session z' z) by done.
Qed.

(** ** What a completion stores *)
Definition candidate (u : UUID) (t : Task) : bool := owned u t && str_in (t_status t) ["blocked"; "pending"; "paused"].
Lemma filter_ids_nodup (f : Task -> bool) l : NoDup (map t_id l) -> NoDup (map t_id (List.filter f l)).
Proof.
  induction l as [|r k IH]; cbn; [done|]. intros [Hn Hnd]%NoDup_cons. destruct (f r); [|by apply IH]. cbn. apply NoDup_cons. split; [|by apply IH].
  intros (r'&E&Hr)%list_elem_of_fmap. apply Hn. rewrite E. apply (list_elem_of_fmap_2 t_id). apply list_elem_of_In, List.filter_In in Hr as [Hr _]. by apply list_elem_of_In.
Qed.
Lemma same_row l (r t : Task) : NoDup (map t_id l) -> r ∈ l -> t ∈ l -> t_id r = t_id t -> r = t.
Proof. intros Hnd Hr Ht E. pose proof (row_of_elem t_id l r Hnd Hr) as H1. pose proof (row_of_elem t_id l t Hnd Ht) as H2. congruence. Qed.
Lemma recomputed_false st : recomputed false st <> "pending".
Proof. unfold recomputed. destruct (st =s "completed") eqn:E; [apply String.eqb_eq in E; congruence|]. destruct (str_in st _) eqn:E'; [done|]. intros ->. done. Qed.

(** The session after the dependents of [t] have been recomputed *)
Definition completing (now : Z) (u : UUID) (t : Task) (z : session) : session :=
  let z0 := assign (completed_row now t) z in relabel_all z0 u (t_id t) (query (candidate u) z0).
Section completing.
Variables (now : Z) (u : UUID) (t : Task) (z : session).
Hypothesis Hz : clean z.
Notation D := (tb_tasks (ss_durable z)).
Hypothesis Hnd : NoDup (map t_id D).
Hypothesis Hsh : forall r, r ∈ D -> shaped r.
Hypothesis Ht : t ∈ D.
Hypothesis Hst : t_status t <> "completed".

Lemma incomplete_dependent c : t_id t ∈ dependency_ids c -> dependencies_complete (assign (completed_row now t) z) u c = false.
Proof.
  intros Hd. destruct Hz as [Hz1 Hz2]. destruct (dependencies_complete _ u c) eqn:E; [|done]. exfalso. apply dependencies_complete_spec in E; cbn in *; [|by rewrite Hz1].
  destruct (E (t_id t) Hd) as (r&Hr&Hid&_&Hs). rewrite Hz1 in Hr. rewrite (same_row D r t Hnd Hr Ht Hid) in Hs. done.
Qed.
Lemma query_ids : map t_id (query (candidate u) (assign (completed_row now t) z)) = map t_id (List.filter (candidate u) D).
Proof. destruct Hz as [Hz1 _]. unfold query. cbn [assign ss_txn]. rewrite Hz1, map_map. apply map_ext. intros r. apply object_id. Qed.
Lemma completing_object r : r ∈ D -> object (completing now u t z) r =
  if t_id r =? t_id t then completed_row now t else if candidate u r && Z_in (t_id t) (dependency_ids r) then with_status (recomputed false (t_status r)) r else r.
Proof.
  intros Hr. unfold completing. set (z0 := assign (completed_row now t) z). cbn zeta. rewrite relabel_object by (unfold z0; rewrite query_ids; by apply filter_ids_nodup).
  destruct Hz as [Hz1 Hz2]. assert (object z0 r = if t_id r =? t_id t then completed_row now t else r) as E0 by (unfold z0; rewrite object_assign, object_clean; done).
  destruct (row_of t_id (t_id r) _) as [c|] eqn:Ec.
  - apply row_of_key in Ec as [Hc Hid]. apply query_elem in Hc as (r'&Hr'&Hf&->). rewrite object_id in Hid. cbn in Hr'. rewrite Hz1 in Hr'.
    rewrite (same_row D r' r Hnd Hr' Hr Hid) in Hf |- *. rewrite E0, Hf. destruct (Z.eqb_spec (t_id r) (t_id t)) as [E|E].
    + change (dependency_ids (completed_row now t)) with (dependency_ids t). destruct (Z_in (t_id t) (dependency_ids t)) eqn:Hin; [|done].
      apply Z_in_spec in Hin. pose proof (Hsh t Ht _ Hin). lia.
    + cbn [andb]. destruct (Z_in (t_id t) (dependency_ids r)) eqn:Hin; [|done]. apply Z_in_spec in Hin. unfold relabel, z0. by rewrite incomplete_dependent.
  - rewrite E0. destruct (Z.eqb_spec (t_id r) (t_id t)) as [E|E]; [done|]. destruct (candidate u r) eqn:Hf; [|done]. exfalso. apply row_of_None in Ec. apply Ec. unfold z0. rewrite query_ids.
    apply (list_elem_of_fmap_2 t_id). apply list_elem_of_In, List.filter_In. split; [by apply list_elem_of_In|done].
Qed.
Lemma completing_unlocks_none : unlocked_of (assign (completed_row now t) z) u (t_id t) (query (candidate u) (assign (completed_row now t) z)) = [].
Proof.
  unfold unlocked_of. destruct (List.filter _ _) as [|c l] eqn:E; [done|]. exfalso. set (z0 := assign (completed_row now t) z) in *.
  assert (In c (List.filter (unlocks z0 u (t_id t)) (query (candidate u) z0))) as Hc by (rewrite E; by left). apply List.filter_In in Hc as [_ Hc].
  unfold unlocks in Hc. apply andb_true_iff in Hc as [[Hd _]%andb_true_iff Hp]. apply Z_in_spec in Hd. unfold relabel in Hp. rewrite incomplete_dependent in Hp by done.
  apply String.eqb_eq in Hp. by apply recomputed_false in Hp.
Qed.
End completing.

(** The row that a completion of [t] stores for [r] *)
Definition after_completion (now : Z) (u : UUID) (t r : Task) : Task :=
  if t_id r =? t_id t then completed_row now t else if candidate u r && Z_in (t_id t) (dependency_ids r) then with_status (recomputed false (t_status r)) r else r.
Lemma complete_stores now name u s t : clean (st_session s) -> NoDup (map t_id (rows s)) -> (forall r, r ∈ rows s -> shaped r) ->
  head (List.filter (named name u) (rows s)) = Some t -> t_status t <> "completed" -> all_done (rows s) u t ->
  exists r, stores s now (Complete name u) (map (after_completion now u t) (rows s)) r /\ (r = Ok (RText ("Completed task: " +:+ t_name t)) \/ exists e, r = Raise e).
Proof.
  intros Hc Hnd Hsh Hf Hst Hd. pose proof Hc as [Hc1 Hc2]. pose proof (found_elem _ _ _ _ Hf) as [Ht _]. unfold rows in Hf. rewrite <- (found_clean name u _ Hc) in Hf.
  set (z := st_session s) in *. set (t' := completed_row now t).
  set (s1 := (update_unit now (t_id t) "completed" (MkSt (commit (completing now u t z)) (sv_emit sv "task.completed" u t' (st_world s)))).1).
  assert (settled (map (after_completion now u t) (rows s)) (st_session s1)) as Hs1.
  { apply settled_update_unit. cbn [st_session]. replace (map (after_completion now u t) (rows s)) with (map (object (completing now u t z)) (tb_tasks (ss_txn (completing now u t z)))).
    - apply settled_commit.
    - unfold completing at 2. cbn zeta. rewrite (proj1 (relabel_txn _ _ _ _)). cbn [assign ss_txn]. rewrite Hc1. apply map_ext_in. intros r Hr. apply list_elem_of_In in Hr. by apply completing_object. }
  destruct (call (sv_save_calculation sv (t_time_spent t') u) s1) as [s2 r2] eqn:E2.
  assert (exists r, r2 = Ok r /\ settled (map (after_completion now u t) (rows s)) (st_session s2)) as (r&->&Hs2).
  { unfold call in E2. destruct (sv_save_calculation sv (t_time_spent t') u (st_session s1) (st_world s1)) as [[w' es] a]. injection E2 as <- <-. exists a. split; [done|]. by apply settled_affect. }
  assert (perform sv now (Complete name u) s = (s2, match r with Ok _ => Ok (RText ("Completed task: " +:+ t_name t)) | Raise e => Raise e end)) as Hp.
  { cbn [perform]. unfold fmap, SE_fmap, complete_task. rewrite bind_run, find_run. fold z. rewrite Hf. run. fold z. replace (dependencies_complete z u t) with true by (symmetry; apply dependencies_complete_spec; rewrite Hc1; done).
    cbn [negb]. cbn zeta. run. fold z. rewrite bind_run. unfold unlock_downstream_tasks. rewrite bind_run, look_run, unlock_each_run. cbn [st_session st_world].
    change (t_id (completed_row now t)) with (t_id t). rewrite completing_unlocks_none by done. run. run. rewrite bind_run.
    change (MkSt (commit (relabel_all _ _ _ _)) _) with (MkSt (commit (completing now u t z)) (sv_emit sv "task.completed" u t' (st_world s))).
    assert (forall x : st W, update_unit now (t_id t) "completed" x = ((update_unit now (t_id t) "completed" x).1, Ok ())) as Hu by done. rewrite Hu. fold s1.
    rewrite bind_run, bind_run. fold t'. rewrite E2. unfold of_result. by destruct r as [[]|e]. }
  eexists. split; [by eapply stores_run|]. destruct r; [by left|right; by eexists].
Qed.

Lemma found_map name u l h : (forall r, r ∈ l -> named name u (h r) = named name u r) -> head (List.filter (named name u) (map h l)) = h <$> head (List.filter (named name u) l).
Proof.
  induction l as [|r l IH]; intros Hh; [done|]. cbn [map List.filter]. rewrite Hh by apply list_elem_of_here. destruct (named name u r); [done|]. apply IH. intros r' Hr'. apply Hh. by right.
Qed.
Lemma after_completion_named now u t r l name u' : NoDup (map t_id l) -> t ∈ l -> r ∈ l -> named name u' (after_completion now u t r) = named name u' r.
Proof.
  intros Hnd Ht Hr. unfold after_completion. destruct (Z.eqb_spec (t_id r) (t_id t)) as [E|E]; [by rewrite (same_row l r t)|]. by destruct (_ && _).
Qed.
Lemma after_completion_id now u t r : t_id (after_completion now u t r) = t_id r.
Proof. unfold after_completion. destruct (Z.eqb_spec (t_id r) (t_id t)) as [E|E]; [done|]. by destruct (_ && _). Qed.

(** C39: A paused task cannot be resumed, and its time is counted twice.  [pause_task] leaves
    the start time in the row, so [start_task] answers that the task was already started and
    changes nothing, and [complete_task] adds the whole time since the start to the time that
    the pause has already added: of a task started at [t0], paused at [t1] and completed at
    [t3] the stored time grows by [(t1 - t0) + (t3 - t0)]. *)
Theorem paused_time_counted_twice w log s name u t t0 t1 t2 t3 : trace (served sv) (start_state w) log s ->
  head (List.filter (named name u) (rows s)) = Some t -> t_status t = "in_progress" -> t_start_time t = Some t0 -> all_done (rows s) u t ->
  exists s1 s2 s3 r, serve sv t1 (Pause name u) s = (s1, Ok (RText ("Paused task: " +:+ t_name t))) /\
    serve sv t2 (Start name u) s1 = (s2, Ok (RText ("Task '" +:+ name +:+ "' already started."))) /\ rows s2 = rows s1 /\
    serve sv t3 (Complete name u) s2 = (s3, r) /\
    exists row, row ∈ rows s3 /\ t_id row = t_id t /\ t_status row = "completed" /\ t_time_spent row = t_time_spent t + (t1 - t0) + (t3 - t0).
Proof.
  intros Htr Hf Hst Hstart Hd. destruct (reachable_shaped sv w log s Htr) as [Hk Hc]. assert (NoDup (map t_id (rows s))) as Hnd by apply (kp_ids _ _ Hk).
  assert (forall r, r ∈ rows s -> shaped r) as Hsh by (apply Forall_forall, (kp_durable _ _ Hk)). pose proof (found_elem _ _ _ _ Hf) as [Ht Hn].
  destruct (pause_stores t1 name u s t t0 Hc Hf Hst Hstart) as (s1&E1&Hc1&R1). set (t' := paused_row t1 t0 t) in *.
  assert (head (List.filter (named name u) (rows s1)) = Some t') as Hf1 by (rewrite R1; by apply (found_swap name u (rows s) t)).
  assert (NoDup (map t_id (rows s1))) as Hnd1 by (by rewrite R1, swap_ids).
  assert (all_done (rows s1) u t') as Hd1.
  { intros d Hin. destruct (Hd d Hin) as (r&Hr&Hid&Hu&Hs). exists r. split_and!; [|done..]. rewrite R1. apply swap_other; [done|]. intros E. rewrite (same_row (rows s) r t) in Hs; [congruence|done..]. }
  destruct (start_again t2 name u s1 t' t0 Hc1 Hnd1 Hf1 eq_refl Hd1) as (s2&E2&Hc2&R2).
  destruct (complete_stores t3 name u s2 t') as (r&(s3&E3&_&R3)&_); [done|by rewrite R2| |by rewrite R2|done|by rewrite R2|].
  { rewrite R2, R1. intros r (r0&->&Hr0)%list_elem_of_fmap. unfold swap. destruct (Z.eqb_spec (t_id r0) (t_id t')) as [E|E]; [exact (Hsh t Ht)|by apply Hsh]. }
  exists s1, s2, s3, r. split_and!; [done..|]. exists (completed_row t3 t'). split_and!; [|done|done|done].
  rewrite R3. apply list_elem_of_fmap. exists t'. split; [unfold after_completion; by rewrite Z.eqb_refl|]. rewrite R2. by apply found_elem in Hf1 as [? _].
Qed.

(** ** Services that leave the session alone *)
Record silent : Prop := {
  si_memory t u z x : (sv_memory_capture sv t u z x).1.2 = [];
  si_feedback t u z x : (sv_feedback sv t u z x).1.2 = [];
  si_social u z x : (sv_social_sync sv u z x).1.2 = [];
  si_eta u z x : (sv_eta sv u z x).1.2 = [];
  si_infinity u z x : (sv_infinity sv u z x).1.2 = [];
  si_dispatch t u reason z x : (sv_dispatch sv t u reason z x).1.2 = []
}.
Definition still {A} (m : SE (st W) A) : Prop := forall s, ss_durable (st_session (m s).1) = ss_durable (st_session s).
Lemma still_ret {A} (a : A) : still (mret a).
Proof. done. Qed.
Lemma still_bind {A B} (m : SE (st W) A) (f : A -> SE (st W) B) : still m -> (forall a, still (f a)) -> still (m ≫= f).
Proof. intros Hm Hf s. rewrite bind_run. specialize (Hm s). destruct (m s) as [s' [a|e]]; [|done]. cbn in Hm. by rewrite Hf, Hm. Qed.
Lemma still_call {A} (f : session -> W -> W * list effect * A) : (forall z x, (f z x).1.2 = []) -> still (call f).
Proof. intros Hf s. unfold call. specialize (Hf (st_session s) (st_world s)). destruct (f _ _) as [[w' es] a]. cbn in *. by subst. Qed.
Lemma still_look {A} (f : session -> A) : still (look f).
Proof. done. Qed.
Lemma still_find name user : still (find_task name user).
Proof. by destruct user. Qed.
Lemma still_get id user : still (get_task_by_id id user).
Proof. by destruct user. Qed.
Lemma still_unlock u t : still (unlock_downstream_tasks u t).
Proof. apply still_bind; [done|]. intros cs s. rewrite unlock_each_run. cbn [fst st_session]. apply relabel_txn. Qed.
Section silent.
Hypothesis Hsi : silent.
Lemma still_queue t user reason : still (queue_task_automation sv t user reason).
Proof.
  unfold queue_task_automation. destruct t as [t|], user as [u|]; try done. destruct (str_or_none _) as [ty|]; [|done]. intros s. unfold fmap, SE_fmap.
  assert (still (call (sv_dispatch sv t u reason) ≫= of_result)) as H; [apply still_bind; [apply still_call; intros; apply (si_dispatch Hsi)|done]|].
  specialize (H s). by destruct ((call (sv_dispatch sv t u reason) ≫= of_result) s) as [s' [j|e]].
Qed.
Lemma still_automate u items : Forall (fun i => still i.1) items -> forall runs, still (automate sv u items runs).
Proof.
  induction 1 as [|[get reason] items Hg _ IH]; intros runs s; [done|]. cbn [automate].
  assert (still (t ← get; d ← queue_task_automation sv t (Some u) reason; mret (run_entry t d))) as Hm.
  { apply still_bind; [exact Hg|]. intros t. apply still_bind; [apply still_queue|done]. }
  specialize (Hm s). destruct ((t ← get; d ← queue_task_automation sv t (Some u) reason; mret (run_entry t d)) s) as [s' [new|e]]; [|done]. cbn in Hm. by rewrite IH.
Qed.
End silent.

Definition yields {A} (m : SE (st W) A) (P : A -> Prop) : Prop := forall s a, (m s).2 = Ok a -> P a.
Lemma yields_bind {A B} (m : SE (st W) A) (f : A -> SE (st W) B) P : (forall a, yields (f a) P) -> yields (m ≫= f) P.
Proof. intros Hf s b. rewrite bind_run. destruct (m s) as [s' [a|e]]; [apply Hf|done]. Qed.
Lemma orchestrate_silent now name u s t : silent -> clean (st_session s) -> head (List.filter (named name u) (rows s)) = Some t ->
  exists s' r, serve sv now (Orchestrate name u) s = (s', r) /\ rows s' = rows s /\
    forall o, r = Ok (ROrchestration o) -> o_unlocked_tasks o = unlocked_of (st_session s) u (t_id t) (query (candidate u) (st_session s)).
Proof.
  intros Hsi Hc Hf. unfold rows in Hf. rewrite <- (found_clean name u _ Hc) in Hf.
  assert (still (orchestrate_task_completion sv name (Some u))) as Hst.
  { apply still_bind; [apply still_find|]. intros [t0|]; [|done]. apply still_bind; [apply still_unlock|]. intros unlocked. pose proof Hsi as [H1 H2 H3 H4 H5 H6].
    do 5 (apply still_bind; [apply still_call; auto|]; intros ?). apply still_bind; [apply still_automate; [done|]|].
    - apply Forall_cons. split; [done|]. apply Forall_map, Forall_forall. intros x _. apply (still_get x.1 (Some u)).
    - intros runs. apply still_bind; [done|]. intros graph. apply still_bind; [|done]. match goal with |- still (match ?i with _ => _ end) => destruct i as [d|e] end; [|done]. by destruct (dget d _). }
  assert (forall o, (orchestrate_task_completion sv name (Some u) s).2 = Ok o -> o_unlocked_tasks o = unlocked_of (st_session s) u (t_id t) (query (candidate u) (st_session s))) as Hy.
  { intros o. unfold orchestrate_task_completion. rewrite bind_run, find_run, Hf. rewrite bind_run. unfold unlock_downstream_tasks. rewrite bind_run, look_run, unlock_each_run.
    change (query (fun u0 => owned u u0 && str_in (t_status u0) ["blocked"; "pending"; "paused"]) (st_session s)) with (query (candidate u) (st_session s)).
    set (l := unlocked_of _ _ _ _). match goal with |- (?m ?x).2 = Ok o -> _ => enough (yields m (fun o => o_unlocked_tasks o = l)) as H by apply H end.
    repeat (apply yields_bind; intros ?). by intros s' o' [= <-]. }
  destruct (orchestrate_task_completion sv name (Some u) s) as [s1 r1] eqn:E1. specialize (Hst s). rewrite E1 in Hst. cbn in Hst.
  assert (serve sv now (Orchestrate name u) s = (MkSt (rollback (st_session s1)) (st_world s1), match r1 with Ok o => Ok (ROrchestration o) | Raise e => Raise e end)) as Hr.
  { apply serve_run; [done|]. cbn [perform]. unfold fmap, SE_fmap. rewrite E1. by destruct r1. }
  eexists _, _. split_and!; [exact Hr|unfold rows; cbn; by rewrite Hst|]. intros o. destruct r1 as [o1|e]; [|done]. intros [= <-]. by apply Hy.
Qed.
Lemma recomputed_blocked st : st ∈ ["blocked"; "pending"; "paused"] -> recomputed false st = "blocked".
Proof. rewrite !elem_of_cons, elem_of_nil. by intros [->|[->|[->|[]]]]. Qed.

End outcomes.

(** ** Witnesses *)
Definition demo_started : st unit := demo_state [(4, Start "a" demo_owner)].
Definition demo_at (i : nat) (s : st unit) : Task := nth i (rows s) (demo_task 0 "" []).
Lemma demo_independent l u t : dependency_ids t = [] -> all_done l u t.
Proof. intros E d Hd. rewrite E in Hd. by apply not_elem_of_nil in Hd. Qed.

(** Started at 4, paused at 10 and completed at 20: 22 instead of 16. *)
Lemma paused_time_counted_twice_witness : exists s1 s2 s3 r, serve demo_services 10 (Pause "a" demo_owner) demo_started = (s1, Ok (RText "Paused task: a")) /\
  serve demo_services 15 (Start "a" demo_owner) s1 = (s2, Ok (RText "Task 'a' already started.")) /\
  serve demo_services 20 (Complete "a" demo_owner) s2 = (s3, r) /\ exists row, row ∈ rows s3 /\ t_time_spent row = 22.
Proof.
  destruct (paused_time_counted_twice demo_services () _ demo_started "a" demo_owner (demo_at 0 demo_started) 4 10 15 20 (demo_reached [(4, Start "a" demo_owner)]))
    as (s1&s2&s3&r&H1&H2&_&H3&row&Hr&_&_&Ht).
  - vm_compute. reflexivity.
  - vm_compute. reflexivity.
  - vm_compute. reflexivity.
  - apply demo_independent. vm_compute. reflexivity.
  - exists s1, s2, s3, r. split; [exact H1|]. split; [exact H2|]. split; [exact H3|]. exists row. split; [exact Hr|exact Ht].
Defined.

Definition demo_half : st unit := demo_state [(4, Complete "a" demo_owner)].
