(* ===== verification/Lease.v ===== *)
(** * The lease of the background tasks ([apps/tasks/services/task_service.py],
    [AINDY/db/models/background_task_lease.py])

    Processes compete for one row of the database.  The row is read with a lock when the lease
    is acquired or refreshed, so these are one step each; its release reads the row without
    one, and another process can come between the reading and the writing.  The clock is that
    of the database and of all processes; times are in microseconds. *)
From S2P Require Import Prelude PyEffects.
Local Open Scope Z_scope.

Record BackgroundTaskLease := MkLease { ls_owner_id : string; ls_acquired_at : Z; ls_heartbeat_at : Z; ls_expires_at : Z }.
(** [_BACKGROUND_LEASE_TTL_SECONDS] *)
Definition TTL : Z := 120 * 1000000.

(** [_get_instance_id]: the environment variables and the name of the host *)
Definition get_instance_id (env_instance env_hostname : option string) (hostname : string) : string :=
  str_or env_instance (str_or env_hostname (str_or (Some hostname) "unknown-instance")).

Record cluster := MkCluster {
  cl_row : option BackgroundTaskLease;
  cl_owner : gmap nat string;          (* [_BACKGROUND_OWNER_ID] of each process *)
  cl_releasing : list nat;             (* processes that have read their lease and will write its end *)
  cl_clock : Z
}.
Definition new_cluster (now : Z) : cluster := MkCluster None ∅ [] now.

Lemma get_instance_id_nonempty i h n : get_instance_id i h n <> "".
Proof. by destruct i as [[|]|], h as [[|]|], n as [|]. Qed.

Section lease.
(** The environment of each process *)
Variable env : nat -> option string * option string * string.
Definition instance_id (p : nat) : string := get_instance_id (env p).1.1 (env p).1.2 (env p).2.

(** [_acquire_background_lease] *)
Definition acquire (p : nat) (now : Z) (c : cluster) : cluster * bool :=
  let id := instance_id p in
  let expires_at := now + TTL in
  match cl_row c with
  | Some l =>
      if (now <? ls_expires_at l) && negb (ls_owner_id l =s id) then (MkCluster (cl_row c) (cl_owner c) (cl_releasing c) now, false)
      else (MkCluster (Some (MkLease id now now expires_at)) (<[p := id]> (cl_owner c)) (cl_releasing c) now, true)
  | None => (MkCluster (Some (MkLease id now now expires_at)) (<[p := id]> (cl_owner c)) (cl_releasing c) now, true)
  end.
(** [_BACKGROUND_OWNER_ID or _get_instance_id()] *)
Definition own_id (p : nat) (c : cluster) : string := str_or (cl_owner c !! p) (instance_id p).
(** [_refresh_background_lease] *)
Definition refresh (p : nat) (now : Z) (c : cluster) : cluster * bool :=
  match cl_row c with
  | Some l =>
      if ls_owner_id l =s own_id p c
      then (MkCluster (Some (MkLease (ls_owner_id l) (ls_acquired_at l) now (now + TTL))) (cl_owner c) (cl_releasing c) now, true)
      else (MkCluster (cl_row c) (cl_owner c) (cl_releasing c) now, false)
  | None => (MkCluster (cl_row c) (cl_owner c) (cl_releasing c) now, false)
  end.
(** [_release_background_lease]: the reading, and the writing when the lease was its own *)
Definition reads_own (p : nat) (c : cluster) : bool := match cl_row c with Some l => ls_owner_id l =s own_id p c | None => false end.
Definition release_read (p : nat) (c : cluster) : cluster :=
  if reads_own p c then MkCluster (cl_row c) (cl_owner c) (p :: cl_releasing c) (cl_clock c) else c.
Definition release_write (l1 l2 : list nat) (now : Z) (c : cluster) : cluster :=
  MkCluster (match cl_row c with Some l => Some (MkLease (ls_owner_id l) (ls_acquired_at l) now now) | None => None end) (cl_owner c) (l1 ++ l2) now.
(** [is_background_leader] *)
Definition is_background_leader (p : nat) (c : cluster) : bool :=
  match cl_owner c !! p with Some id => id =s instance_id p | None => false end.
(** [start_background_tasks]: does the caller start the scheduler? *)
Definition start_background_tasks (enable : bool) (p : nat) (now : Z) (c : cluster) : cluster * bool :=
  if enable then acquire p now c else (c, false).

Inductive label :=
| LAcquire (p : nat) (now : Z) (ok : bool)
| LRefresh (p : nat) (now : Z) (ok : bool)
| LReleaseRead (p : nat)
| LReleaseWrite (p : nat) (now : Z)
| LFailed (p : nat).                   (* the database raised: rolled back, the answer is False *)

Inductive step : cluster -> label -> cluster -> Prop :=
| step_acquire c p now : cl_clock c <= now -> step c (LAcquire p now (acquire p now c).2) (acquire p now c).1
| step_refresh c p now : cl_clock c <= now -> step c (LRefresh p now (refresh p now c).2) (refresh p now c).1
| step_release_read c p : step c (LReleaseRead p) (release_read p c)
| step_release_write c p now l1 l2 : cl_clock c <= now -> cl_releasing c = l1 ++ p :: l2 -> step c (LReleaseWrite p now) (release_write l1 l2 now c)
| step_failed c p : step c (LFailed p) c.

(** The process was told that it has the lease. *)
Definition granted (a : label) : option (nat * Z) :=
  match a with LAcquire p now true | LRefresh p now true => Some (p, now) | _ => None end.
Definition is_release (a : label) : bool := match a with LReleaseWrite _ _ => true | _ => false end.

(** ** Exclusion *)
(** The lease that was granted to [id] at [t] lasts or is over. *)
Definition protects (id : string) (t : Z) (c : cluster) : Prop :=
  t <= cl_clock c /\ (t + TTL <= cl_clock c \/ exists l, cl_row c = Some l /\ ls_owner_id l = id /\ t + TTL <= ls_expires_at l).
(** A process that knows its id knows the right one. *)
Definition ids_right (c : cluster) : Prop := forall p id, cl_owner c !! p = Some id -> id = instance_id p.

Lemma own_id_right p c : ids_right c -> own_id p c = instance_id p.
Proof.
  intros Hr. unfold own_id, str_or, str_or_none. destruct (cl_owner c !! p) as [id|] eqn:E; [|done]. rewrite (Hr p id E). by rewrite (proj2 (truthy_true _) (get_instance_id_nonempty _ _ _ : instance_id p <> EmptyString)).
Qed.
Lemma step_ids c a c' : step c a c' -> ids_right c -> ids_right c'.
Proof.
  intros Hs Hr. assert (forall p (o : gmap nat string), (forall q id, o !! q = Some id -> id = instance_id q) -> forall q id, <[p := instance_id p]> o !! q = Some id -> id = instance_id q) as Hins.
  { intros p o Ho q id. destruct (decide (p = q)) as [->|Hn]; [rewrite lookup_insert_eq; congruence|rewrite lookup_insert_ne by done; apply Ho]. }
  destruct Hs as [c p now _|c p now _|c p|c p now l1 l2 _ _|c p]; try done.
  - unfold acquire. destruct (cl_row c) as [l|]; [|exact (Hins p _ Hr)]. destruct (_ && _); [done|exact (Hins p _ Hr)].
  - unfold refresh. destruct (cl_row c) as [l|]; [|done]. by destruct (_ =s _).
  - unfold release_read. by destruct (reads_own p c).
Qed.
Lemma granted_protects c a c' p t : step c a c' -> granted a = Some (p, t) -> ids_right c -> protects (instance_id p) t c'.
Proof.
  intros Hs Hg Hr. unfold protects. destruct Hs as [c q now Hn|c q now Hn|c q|c q now l1 l2 Hn Hq|c q]; cbn in Hg; try done.
  - unfold acquire in *. destruct (cl_row c) as [l|]; [|injection Hg as <- <-; cbn; split; [lia|right; by eexists]].
    destruct (_ && _); [done|]. injection Hg as <- <-. cbn. split; [lia|right; by eexists].
  - unfold refresh in *. destruct (cl_row c) as [l|]; [|done]. destruct (ls_owner_id l =s own_id q c) eqn:E; [|done]. injection Hg as <- <-. apply String.eqb_eq in E. rewrite own_id_right in E by done.
    cbn. split; [lia|right; by eexists].
Qed.
Lemma protects_step id t c a c' : step c a c' -> is_release a = false -> ids_right c -> protects id t c -> protects id t c'.
Proof.
  intros Hs Hrel Hr [H1 H2]. unfold protects. destruct Hs as [c p now Hn|c p now Hn|c p|c p now l1 l2 Hn Hq|c p]; try done.
  - unfold acquire. destruct H2 as [H2|(l&Hl&Ho&He)].
    + destruct (cl_row c) as [l|]; [destruct (_ && _)|]; cbn; (split; [lia|left; lia]).
    + rewrite Hl. destruct (Z.ltb_spec now (ls_expires_at l)) as [Hlt|Hge]; cbn; [|split; [lia|left; lia]]. destruct (ls_owner_id l =s instance_id p) eqn:E; cbn; (split; [lia|right]).
      * apply String.eqb_eq in E. eexists. split_and!; [done|cbn; congruence|cbn; lia].
      * by exists l.
  - unfold refresh. destruct H2 as [H2|(l&Hl&Ho&He)].
    + destruct (cl_row c) as [l|]; [destruct (_ =s _)|]; cbn; (split; [lia|left; lia]).
    + rewrite Hl. destruct (ls_owner_id l =s own_id p c); cbn; (split; [lia|right; eexists; split_and!; [done..|cbn; lia]]).
  - unfold release_read. by destruct (reads_own p c).
Qed.
Lemma protects_excludes c a c' p id t t' : step c a c' -> granted a = Some (p, t') -> ids_right c -> instance_id p <> id -> protects id t c -> t + TTL <= t'.
Proof.
  intros Hs Hg Hr Hne [H1 H2]. destruct Hs as [c q now Hn|c q now Hn|c q|c q now l1 l2 Hn Hq|c q]; cbn in Hg; try done.
  - unfold acquire in Hg. destruct H2 as [H2|(l&Hl&Ho&He)].
    + assert (t' = now) as -> by (destruct (cl_row c) as [l|]; [destruct (_ && _)|]; cbn in Hg; congruence). lia.
    + rewrite Hl in Hg. destruct (Z.ltb_spec now (ls_expires_at l)) as [Hlt|Hge]; cbn in Hg; [|injection Hg as <- <-; lia].
      destruct (ls_owner_id l =s instance_id q) eqn:E; cbn in Hg; [|done]. injection Hg as <- <-. apply String.eqb_eq in E. congruence.
  - unfold refresh in Hg. destruct H2 as [H2|(l&Hl&Ho&He)].
    + assert (t' = now) as -> by (destruct (cl_row c) as [l|]; [destruct (_ =s _)|]; cbn in Hg; congruence). lia.
    + rewrite Hl in Hg. destruct (ls_owner_id l =s own_id q c) eqn:E; [|done]. cbn in Hg. injection Hg as <- <-. apply String.eqb_eq in E. rewrite own_id_right in E by done. congruence.
Qed.

Lemma trace_ids now log c : trace step (new_cluster now) log c -> ids_right c.
Proof. apply (trace_ind_snoc step (fun _ c => ids_right c)); [done|]. intros ls c1 a c2 _ H Hs. by eapply step_ids. Qed.
Lemma protects_trace id t c log c' : trace step c log c' -> Forall (fun a => is_release a = false) log -> ids_right c -> protects id t c -> protects id t c'.
Proof.
  induction 1 as [|c a c1 log c2 Hs _ IH]; intros Hf Hr Hp; [done|]. apply Forall_cons in Hf as [Ha Hf]. apply IH; [done|by eapply step_ids|by eapply protects_step].
Qed.

(** C21: The lease excludes other instances for as long as it lasts.  When a process was
    told that it has the lease, by acquiring or refreshing it at [t], no process of another
    instance is told so before [t] plus the 120 seconds of the lease, in every interleaving
    in which no release is written in between. *)
Theorem lease_exclusive start log1 a1 log2 a2 c p t p' t' : trace step (new_cluster start) (log1 ++ [a1] ++ log2 ++ [a2]) c ->
  granted a1 = Some (p, t) -> granted a2 = Some (p', t') -> instance_id p <> instance_id p' -> Forall (fun a => is_release a = false) log2 -> t + TTL <= t'.
Proof.
  intros Ht H1 H2 Hne Hf. apply trace_app_inv in Ht as (c1&Ht1&Ht). apply trace_app_inv in Ht as (c2&Ht2&Ht). apply trace_snoc_inv in Ht as (c3&Ht3&Hs2).
  pose proof (trace_ids _ _ _ Ht1) as Hr1. apply (trace_snoc_inv step c1 [] a1 c2) in Ht2 as (c0&H0&Hs1). inversion H0; subst c0.
  assert (ids_right c2) as Hr2 by (by eapply step_ids). assert (ids_right c3) as Hr3.
  { clear -Ht3 Hr2. induction Ht3 as [|x a y log z Hs _ IH]; [done|]. apply IH. by eapply step_ids. }
  eapply (protects_excludes c3 a2 c p' (instance_id p)); [done..|congruence|]. eapply protects_trace; [done..|]. by eapply granted_protects.
Qed.

(** C40: Two instances can both act as the leader.  A process never forgets that it once had
    the lease: after another instance has taken over the expired lease, and even after its
    own heartbeat has found that out, [is_background_leader] answers True on both.  And the
    release of an expired lease, which another instance has taken between its reading and its
    writing, ends the lease of that instance, so that a third one gets it at the same time. *)
Theorem lease_not_exclusive a b d t : instance_id a <> instance_id b -> instance_id b <> instance_id d ->
  (exists c, trace step (new_cluster t) [LAcquire a t true; LAcquire b (t + TTL) true; LRefresh a (t + TTL) false] c /\
     is_background_leader a c = true /\ is_background_leader b c = true) /\
  (exists c, trace step (new_cluster t) [LAcquire a t true; LReleaseRead a; LAcquire b (t + TTL) true; LReleaseWrite a (t + TTL); LAcquire d (t + TTL) true] c /\
     is_background_leader b c = true /\ is_background_leader d c = true).
Proof.
  intros Hab Hbd. assert (a <> b) as Hab' by congruence. assert (b <> d) as Hbd' by congruence. apply String.eqb_neq in Hab as Eab. apply String.eqb_neq in Hbd as Ebd.
  pose (row i s := Some (MkLease (instance_id i) s s (s + TTL))). pose (own := <[a := instance_id a]> (∅ : gmap nat string)).
  pose (c1 := MkCluster (row a t) own [] t). pose (c2 rel := MkCluster (row b (t + TTL)) (<[b := instance_id b]> own) rel (t + TTL)).
  assert (step (new_cluster t) (LAcquire a t true) c1) as S1 by (exact (step_acquire (new_cluster t) a t (Z.le_refl t))).
  assert (forall rel, step (MkCluster (row a t) own rel t) (LAcquire b (t + TTL) true) (c2 rel)) as S2.
  { intros rel. assert (acquire b (t + TTL) (MkCluster (row a t) own rel t) = (c2 rel, true)) as E by (unfold acquire; cbn; by rewrite Z.ltb_irrefl).
    pose proof (step_acquire (MkCluster (row a t) own rel t) b (t + TTL) ltac:(cbn; unfold TTL; lia)) as S. by rewrite E in S. }
  split.
  - exists (c2 []). split_and!; [|unfold is_background_leader; cbn; rewrite lookup_insert_ne by done; unfold own; by rewrite lookup_insert_eq, String.eqb_refl|
      unfold is_background_leader; cbn; by rewrite lookup_insert_eq, String.eqb_refl].
    eapply trace_cons; [exact S1|]. eapply trace_cons; [exact (S2 [])|]. eapply trace_cons; [|constructor].
    assert (refresh a (t + TTL) (c2 []) = (c2 [], false)) as E.
    { unfold refresh. cbn [cl_row c2 row]. rewrite own_id_right by (by eapply (step_ids c1 _ (c2 [])); [exact (S2 [])|eapply step_ids; [exact S1|done]]). cbn [ls_owner_id].
      rewrite (proj2 (String.eqb_neq _ _)) by congruence. done. }
    pose proof (step_refresh (c2 []) a (t + TTL) (Z.le_refl _)) as S. by rewrite E in S.
  - pose (c4 := release_write [] [] (t + TTL) (c2 [a])). exists (acquire d (t + TTL) c4).1.
    assert (acquire d (t + TTL) c4 = (MkCluster (row d (t + TTL)) (<[d := instance_id d]> (<[b := instance_id b]> own)) [] (t + TTL), true)) as E4 by (unfold acquire; cbn; by rewrite Z.ltb_irrefl).
    rewrite E4. split_and!; [|unfold is_background_leader; cbn; by rewrite lookup_insert_ne, lookup_insert_eq, String.eqb_refl|unfold is_background_leader; cbn; by rewrite lookup_insert_eq, String.eqb_refl].
    eapply trace_cons; [exact S1|]. eapply (trace_cons _ _ _ (MkCluster (row a t) own [a] t)).
    { assert (release_read a c1 = MkCluster (row a t) own [a] t) as E by (unfold release_read, reads_own; cbn [cl_row c1 row]; rewrite own_id_right by (eapply step_ids; [exact S1|done]); cbn [ls_owner_id]; by rewrite String.eqb_refl).
      rewrite <- E. apply step_release_read. }
    eapply trace_cons; [exact (S2 [a])|]. eapply (trace_cons _ _ _ c4); [exact (step_release_write (c2 [a]) a (t + TTL) [] [] (Z.le_refl _) eq_refl)|].
    eapply trace_cons; [|constructor]. pose proof (step_acquire c4 d (t + TTL) (Z.le_refl _)) as S. by rewrite E4 in S.
Qed.
End lease.

(** Processes of one host have one instance id and share the lease. *)
Lemma lease_shared_by_host env p q now c : instance_id env p = instance_id env q ->
  (acquire env p now c).2 = true -> (acquire env q now (acquire env p now c).1).2 = true.
Proof.
  intros E. unfold acquire at 1 3. destruct (cl_row c) as [l|]; [destruct (_ && _); [done|]|]; intros _; unfold acquire; cbn; by rewrite E, String.eqb_refl, andb_false_r.
Qed.

Definition demo_env (p : nat) : option string * option string * string := (Some (pretty p), None, "host").
Lemma lease_exclusive_witness : 5 + TTL <= 5 + TTL.
Proof.
  refine (lease_exclusive demo_env 5 [] (LAcquire 1 5 true) [] (LAcquire 2 (5 + TTL) true) (acquire demo_env 2 (5 + TTL) (acquire demo_env 1 5 (new_cluster 5)).1).1
    1 5 2 (5 + TTL) _ eq_refl eq_refl _ (Forall_nil_2 _)); [|vm_compute; discriminate].
  apply trace_cons with (acquire demo_env 1 5 (new_cluster 5)).1; [exact (step_acquire demo_env (new_cluster 5) 1 5 (Z.le_refl 5))|].
  eapply trace_cons; [|apply trace_nil]. exact (step_acquire demo_env (acquire demo_env 1 5 (new_cluster 5)).1 2 (5 + TTL) ltac:(vm_compute; discriminate)).
Defined.
Lemma lease_not_exclusive_witness : exists c, is_background_leader demo_env 1 c = true /\ is_background_leader demo_env 2 c = true.
Proof.
  destruct (lease_not_exclusive demo_env 1 2 3 0) as [(c&_&H) _]; [vm_compute; discriminate|vm_compute; discriminate|]. exists c. exact H.
Defined.
