(* ===== verification/Schedules.v ===== *)
(** * Scheduled scripts ([AINDY/runtime/nodus_schedule_service.py],
    [AINDY/apscheduler/triggers/cron.py], [AINDY/db/models/nodus_scheduled_job.py])

    The table of scheduled scripts, their registration with the scheduler and the call that
    the scheduler makes.  The scheduler is the library APScheduler, a parameter with what its
    documentation says of [add_job] and [remove_job]; the execution of a script and the
    handlers of the tick event are parameters too.  The log of a run is a row of [AsyncJobs]. *)
From S2P Require Import Prelude PyEffects PyDatetime PyUuid Json JobQueue RedisQueue QueueInterface AsyncJobs.
Local Open Scope Z_scope.

(** ** Cron expressions *)
(** [s.split()] *)
Fixpoint split_words (s word : string) : list string :=
  match s with
  | EmptyString => if truthy word then [word] else []
  | String a s' => if Ascii.is_space a then (if truthy word then word :: split_words s' "" else split_words s' "")
                   else split_words s' (word +:+ String a "")
  end.
Definition py_split (s : string) : list string := split_words s "".

(** A trigger of the library, or the class of [AINDY/apscheduler] *)
Inductive trigger := LibraryTrigger (kind : string) (kwargs : dict json) | CronTrigger (minute hour day month day_of_week : string).
(** [CronTrigger.from_crontab] *)
Definition from_crontab (expression : string) : result trigger :=
  match py_split expression with
  | [minute; hour; day; month; day_of_week] => Ok (CronTrigger minute hour day month day_of_week)
  | parts => Raise (Exn "ValueError" ("Wrong number of fields; got " +:+ Z_to_string (Z.of_nat (length parts)) +:+ ", expected 5"))
  end.
(** [_parse_cron] *)
Definition parse_cron (expression : string) : result trigger :=
  match from_crontab expression with
  | Ok t => Ok t
  | Raise e => Raise (Exn "ValueError" ("Invalid cron expression " +:+ py_repr expression +:+ ": " +:+ exn_msg e))
  end.

Record NodusScheduledJob := MkScheduled {
  sj_id : UUID;
  sj_user_id : option UUID;
  sj_job_name : option string;
  sj_script : string;
  sj_script_name : option string;
  sj_cron_expression : string;
  sj_input_payload : dict json;
  sj_error_policy : string;
  sj_max_retries : Z;
  sj_is_active : bool;
  sj_last_run_at : option Z;
  sj_last_run_status : option string;
  sj_last_run_log_id : option string;
  sj_created_at : Z
}.
Definition deactivate (j : NodusScheduledJob) : NodusScheduledJob :=
  MkScheduled (sj_id j) (sj_user_id j) (sj_job_name j) (sj_script j) (sj_script_name j) (sj_cron_expression j) (sj_input_payload j) (sj_error_policy j) (sj_max_retries j) false
    (sj_last_run_at j) (sj_last_run_status j) (sj_last_run_log_id j) (sj_created_at j).
Definition ran (now : Z) (status : string) (log : string) (j : NodusScheduledJob) : NodusScheduledJob :=
  MkScheduled (sj_id j) (sj_user_id j) (sj_job_name j) (sj_script j) (sj_script_name j) (sj_cron_expression j) (sj_input_payload j) (sj_error_policy j) (sj_max_retries j) (sj_is_active j)
    (Some now) (Some status) (Some log) (sj_created_at j).

(** A job of the scheduler: the id of the row in its arguments *)
Record aps_job := MkApsJob { aj_id : string; aj_name : string; aj_trigger : trigger; aj_arg : option string }.
Definition JOB_ID_PREFIX : string := "nodus_scheduled_".

(** The library *)
Record aps (A : Type) := MkAps {
  aps_new : A;
  aps_add : aps_job -> A -> A * result unit;
  aps_remove : string -> A -> A * result unit;
  aps_jobs : A -> list aps_job
}.
Arguments aps_new {A}. Arguments aps_add {A}. Arguments aps_remove {A}. Arguments aps_jobs {A}.
(** [add_job] takes a trigger of the library or its name: for anything else it raises
    [TypeError].  A job is there after it was added and gone after it was removed. *)
Class ApsLaws {A} (lib : aps A) := {
  aps_new_empty : aps_jobs lib (aps_new lib) = [];
  aps_add_foreign id name m h d mo w arg a : aps_add lib (MkApsJob id name (CronTrigger m h d mo w) arg) a = (a, Raise (TypeError "Expected a trigger instance or string, got CronTrigger instead"));
  aps_add_jobs j a x : x ∈ aps_jobs lib (aps_add lib j a).1 -> x = j \/ x ∈ aps_jobs lib a;
  aps_remove_jobs id a x : x ∈ aps_jobs lib (aps_remove lib id a).1 -> x ∈ aps_jobs lib a
}.

Section schedules.
Context {A X : Type} (lib : aps A).

(** What a script execution gives: the status of the flow and of the script *)
Variable run_script : NodusScheduledJob -> string -> X -> X * result (string * string * json).
(** The answers of the handlers of [scheduler.tick] *)
Variable tick_event : string -> X -> X * result (list (option bool)).

Record state := MkState {
  s_rows : list NodusScheduledJob;
  s_logs : list (string * JobLog);
  s_scheduler : option A;             (* [_scheduler] of the process *)
  s_world : X
}.
Notation T := (SE state).
Definition set_rows (l : list NodusScheduledJob) (s : state) : state := MkState l (s_logs s) (s_scheduler s) (s_world s).
Definition set_scheduler (a : option A) (s : state) : state := MkState (s_rows s) (s_logs s) a (s_world s).

(** [get_scheduler] *)
Definition get_scheduler : T A :=
  o ← reads s_scheduler;
  match o with Some a => mret a | None => throw (Exn "RuntimeError" "Scheduler not started. Call scheduler_service.start() first.") end.
(** [_register_with_scheduler] *)
Definition label_of (j : NodusScheduledJob) : string := str_or (sj_job_name j) ("nodus_job_" +:+ uuid_to_string (sj_id j)).
Definition register_with_scheduler (j : NodusScheduledJob) (t : trigger) : T unit :=
  a ← get_scheduler;
  let r := aps_add lib (MkApsJob (JOB_ID_PREFIX +:+ uuid_to_string (sj_id j)) ("Nodus: " +:+ label_of j) t (Some (uuid_to_string (sj_id j)))) a in
  _ ← writes (set_scheduler (Some r.1));
  of_result r.2.

(** [create_nodus_scheduled_job] *)
Definition create_nodus_scheduled_job (fresh : UUID) (now : Z) (script cron : string) (user_id : string) (job_name script_name : option string) (input : dict json)
    (error_policy : string) (max_retries : Z) : T NodusScheduledJob :=
  t ← of_result (parse_cron cron);
  uid ← (if truthy user_id then match uuid_of_string user_id with
                                | Some u => mret (Some u)
                                | None => throw (Exn "ValueError" "badly formed hexadecimal UUID string")
                                end
         else mret None);
  let row := MkScheduled fresh uid job_name script script_name cron input error_policy max_retries true None None None now in
  _ ← writes (fun s => set_rows (s_rows s ++ [row]) s);
  _ ← register_with_scheduler row t;
  mret row.

(** [delete_nodus_scheduled_job] *)
Definition is_owned_job (id uid : UUID) (j : NodusScheduledJob) : bool := bool_decide (sj_id j = id) && bool_decide (sj_user_id j = Some uid) && sj_is_active j.
Definition remove_from_scheduler (job_id : string) : T unit :=
  writes (fun s => match s_scheduler s with Some a => set_scheduler (Some (aps_remove lib (JOB_ID_PREFIX +:+ job_id) a).1) s | None => s end).
Definition delete_nodus_scheduled_job (job_id user_id : string) : T bool :=
  match uuid_of_string user_id with
  | None => throw (Exn "ValueError" "badly formed hexadecimal UUID string")
  | Some uid =>
      match uuid_of_string job_id with
      | None => mret false
      | Some id =>
          found ← reads (fun s => existsb (is_owned_job id uid) (s_rows s));
          if negb found then mret false
          else
            _ ← writes (fun s => set_rows (map (fun j => if is_owned_job id uid j then deactivate j else j) (s_rows s)) s);
            _ ← remove_from_scheduler job_id;
            mret true
      end
  end.

(** [restore_nodus_scheduled_jobs] *)
Definition restore_one (j : NodusScheduledJob) : T Z :=
  try_except (t ← of_result (parse_cron (sj_cron_expression j)); _ ← register_with_scheduler j t; mret 1) (fun _ => mret 0).
Fixpoint restore_each (l : list NodusScheduledJob) : T Z :=
  match l with
  | [] => mret 0
  | j :: l' =>
      ok ← restore_one j;
      rest ← restore_each l';
      mret (ok + rest)
  end.
Definition restore_nodus_scheduled_jobs : T Z := active ← reads (fun s => List.filter sj_is_active (s_rows s)); restore_each active.
(** [scheduler_service.start] in a new process: the jobs of the platform, then the scripts *)
Definition start (system_jobs : list aps_job) : T Z :=
  _ ← writes (set_scheduler (Some (foldl (fun a j => (aps_add lib j a).1) (aps_new lib) system_jobs)));
  restore_nodus_scheduled_jobs.

(** [_run_scheduled_nodus_job], the callback of the scheduler; [log] is the id of the new row
    of the log.  The exceptions of the script are recorded. *)
Definition new_log (now : Z) (j : NodusScheduledJob) : JobLog :=
  MkLog "nodus_schedule" (label_of j) [("job_id", JStr (uuid_to_string (sj_id j))); ("cron_expression", JStr (sj_cron_expression j)); ("error_policy", JStr (sj_error_policy j))]
    "running" 0 (sj_max_retries j) None (uuid_to_string <$> sj_user_id j) None (Some now) None now None.
Definition close_log (now : Z) (status : string) (result : option json) (error : option string) (l : JobLog) : JobLog :=
  MkLog (jl_source l) (jl_task l) (jl_payload l) status (jl_attempts l) (jl_max l) error (jl_user l) result (jl_started l) (Some now) (jl_created l) (jl_scheduled l).
Definition record_run (now : Z) (log : string) (id : UUID) (run_status : string) (f : JobLog -> JobLog) (s : state) : state :=
  MkState (map (fun j => if bool_decide (sj_id j = id) then ran now run_status log j else j) (s_rows s))
    (map (fun e => if e.1 =s log then (e.1, f e.2) else e) (s_logs s)) (s_scheduler s) (s_world s).
Definition run_scheduled_nodus_job (log : string) (now : Z) (job_id : string) (s : state) : state :=
  match tick_event job_id (s_world s) with
  | (x, Raise _) => MkState (s_rows s) (s_logs s) (s_scheduler s) x
  | (x, Ok answers) =>
      let s := MkState (s_rows s) (s_logs s) (s_scheduler s) x in
      if existsb (fun o => bool_decide (o = Some false)) answers then s
      else match List.find (fun j => bool_decide (Some (sj_id j) = uuid_of_string job_id) && sj_is_active j) (s_rows s) with
      | None => s
      | Some j =>
          match run_script j log (s_world s) with
          | (x', r) =>
              let s := MkState (s_rows s) (s_logs s ++ [(log, new_log now j)]) (s_scheduler s) x' in
              match r with
              | Ok (flow_status, nodus_status, result) =>
                  let run_status := if (flow_status =s "SUCCESS") && negb (nodus_status =s "failure") then "success" else "failure" in
                  record_run now log (sj_id j) run_status (close_log now (if run_status =s "success" then "success" else "failed") (Some result) None) s
              | Raise e => record_run now log (sj_id j) "error" (close_log now "failed" None (Some (exn_msg e))) s
              end
          end
      end
  end.

(** ** Steps *)
Inductive label :=
| LCreate (script cron user : string) (r : result NodusScheduledJob)
| LDelete (job_id user : string) (r : result bool)
| LStart (restored : result Z)
| LRun (job_id : string).
(** The jobs of the platform have triggers of the library and do not call scripts. *)
Definition system_job (j : aps_job) : Prop := aj_arg j = None.
Inductive step : state -> label -> state -> Prop :=
| step_create s fresh now script cron user job_name script_name input policy retries m :
    m = create_nodus_scheduled_job fresh now script cron user job_name script_name input policy retries -> step s (LCreate script cron user (m s).2) (m s).1
| step_delete s job_id user : step s (LDelete job_id user (delete_nodus_scheduled_job job_id user s).2) (delete_nodus_scheduled_job job_id user s).1
| step_start s jobs : Forall system_job jobs -> step s (LStart (start jobs s).2) (start jobs s).1
| step_run s a j id log now : s_scheduler s = Some a -> j ∈ aps_jobs lib a -> aj_arg j = Some id -> step s (LRun id) (run_scheduled_nodus_job log now id s).

(** ** No script is ever run *)
Context {laws : ApsLaws lib}.
Definition no_scripts (s : state) : Prop := forall a j, s_scheduler s = Some a -> j ∈ aps_jobs lib a -> aj_arg j = None.
Definition failed {R} (s : state) (p : state * result R) : Prop := s_scheduler p.1 = s_scheduler s /\ exists e, p.2 = Raise e.

Lemma parse_cron_own e t : parse_cron e = Ok t -> exists m h d mo w, t = CronTrigger m h d mo w.
Proof.
  unfold parse_cron, from_crontab. destruct (py_split e) as [|m [|h [|d [|mo [|w [|]]]]]]; try done. intros [= <-]. by exists m, h, d, mo, w.
Qed.
Lemma register_fails j e t s : parse_cron e = Ok t -> s_rows (register_with_scheduler j t s).1 = s_rows s /\ failed s (register_with_scheduler j t s) /\
  (forall a, s_scheduler s = Some a -> (register_with_scheduler j t s).2 = Raise (TypeError "Expected a trigger instance or string, got CronTrigger instead")).
Proof.
  intros (m&h&d&mo&w&->)%parse_cron_own. unfold failed, register_with_scheduler, get_scheduler, mbind, SE_bind, reads, writes, throw, of_result, mret, SE_ret. destruct s as [rows logs [a|] x]; cbn.
  - rewrite aps_add_foreign. cbn. split_and!; [done..|by eexists|done].
  - split_and!; [done..|by eexists|done].
Qed.
Lemma create_fails fresh now script cron user job_name script_name input policy retries s :
  failed s (create_nodus_scheduled_job fresh now script cron user job_name script_name input policy retries s).
Proof.
  unfold create_nodus_scheduled_job. unfold mbind at 1, SE_bind at 1, of_result at 1. destruct (parse_cron cron) as [t|e] eqn:Ec; [|split; [done|by eexists]].
  match goal with |- failed s ((?m ≫= ?k) s) => assert ((exists u, m s = (s, Ok u)) \/ exists e, m s = (s, Raise e)) as [[u E]|[e E]] end.
  { destruct (truthy user); [|left; by eexists]. destruct (uuid_of_string user); [left; by eexists|right; by eexists]. }
  - unfold mbind at 1, SE_bind at 1. rewrite E. cbn zeta. unfold mbind at 1, SE_bind at 1, writes at 1. unfold mbind at 1, SE_bind at 1.
    match goal with |- context [register_with_scheduler ?j t ?z] => destruct (register_fails j cron t z Ec) as (_&[H1 [e H2]]&_); destruct (register_with_scheduler j t z) as [s' r] end.
    cbn in H1, H2. subst r. split; [done|by eexists].
  - unfold mbind at 1, SE_bind at 1. rewrite E. split; [done|by eexists].
Qed.
Lemma restore_one_fails j s : exists s', restore_one j s = (s', Ok 0) /\ s_scheduler s' = s_scheduler s.
Proof.
  unfold restore_one, try_except. unfold mbind at 1, SE_bind at 1, of_result at 1. destruct (parse_cron _) as [t|e] eqn:Ec; [|by exists s].
  unfold mbind at 1, SE_bind at 1. destruct (register_fails j _ t s Ec) as (_&[H1 [e H2]]&_). destruct (register_with_scheduler j t s) as [s' r]. cbn in H1, H2. subst r. by exists s'.
Qed.
Lemma restore_none l : forall s, s_scheduler (restore_each l s).1 = s_scheduler s /\ (restore_each l s).2 = Ok 0.
Proof.
  induction l as [|j l IH]; intros s; [done|]. cbn [restore_each]. unfold mbind, SE_bind. destruct (restore_one_fails j s) as (s'&->&<-).
  destruct (IH s') as [I1 I2]. destruct (restore_each l s') as [s'' r]. cbn in *. by subst r.
Qed.
Lemma step_no_scripts s a s' : step s a s' -> no_scripts s -> no_scripts s' /\
  match a with LCreate _ _ _ r => exists e, r = Raise e | LStart r => r = Ok 0 | LRun _ => False | LDelete _ _ _ => True end.
Proof.
  intros Hs Hn. destruct Hs as [s fresh now script cron user jn sn input policy retries m ->|s job_id user|s jobs Hj|s sched j id log now Hs Hin Hj].
  - destruct (create_fails fresh now script cron user jn sn input policy retries s) as [H1 H2]. split; [|done]. intros a j. rewrite H1. apply Hn.
  - split; [|done]. unfold delete_nodus_scheduled_job. destruct (uuid_of_string user) as [uid|]; [|done]. destruct (uuid_of_string job_id) as [id|]; [|done].
    unfold mbind, SE_bind, reads, writes, remove_from_scheduler. destruct (negb _); [done|]. intros a j. cbn. destruct (s_scheduler s) as [a0|] eqn:Ea; [|cbn; congruence].
    cbn. intros [= <-] Hin. apply aps_remove_jobs in Hin. by eapply Hn.
  - unfold start, restore_nodus_scheduled_jobs, mbind, SE_bind, writes, reads. cbn. match goal with |- context [restore_each ?l ?z] => destruct (restore_none l z) as [H1 H2] end. split; [|done].
    intros a j. rewrite H1. cbn. intros [= <-]. assert (forall a0, (forall x, x ∈ aps_jobs lib a0 -> aj_arg x = None) -> forall x, x ∈ aps_jobs lib (foldl (fun a j => (aps_add lib j a).1) a0 jobs) -> aj_arg x = None) as H.
    { clear H1 H2. induction Hj as [|k jobs Hk _ IH]; intros a0 Ha x; [apply Ha|]. cbn. apply IH. intros y [->|Hy]%aps_add_jobs; [done|by apply Ha]. }
    apply H. intros x Hx. rewrite aps_new_empty in Hx. by apply not_elem_of_nil in Hx.
  - specialize (Hn sched j Hs Hin). congruence.
Qed.

(** C37: No scheduled script is ever run.  [_parse_cron] makes a trigger of the class in
    [AINDY/apscheduler], which is not a trigger of the library, and the library refuses it.
    In every history of requests, deletions and restarts every request to schedule a script
    ends with an exception, every start restores none, and the scheduler never calls a
    script; yet a request with a valid expression has stored an active row. *)
Theorem scheduled_scripts_never_run rows logs x log s : trace step (MkState rows logs None x) log s ->
  (forall script cron user r, LCreate script cron user r ∈ log -> exists e, r = Raise e) /\ (forall r, LStart r ∈ log -> r = Ok 0) /\ (forall id, LRun id ∉ log) /\
  (forall a fresh now script cron t user uid job_name script_name input policy retries, s_scheduler s = Some a -> parse_cron cron = Ok t -> uuid_of_string user = Some uid ->
     exists s', create_nodus_scheduled_job fresh now script cron user job_name script_name input policy retries s = (s', Raise (TypeError "Expected a trigger instance or string, got CronTrigger instead")) /\
       s_rows s' = s_rows s ++ [MkScheduled fresh (Some uid) job_name script script_name cron input policy retries true None None None now]).
Proof.
  intros Ht. assert (no_scripts s /\ Forall (fun a => match a with LCreate _ _ _ r => exists e, r = Raise e | LStart r => r = Ok 0 | LRun _ => False | LDelete _ _ _ => True end) log) as [_ Hf].
  { revert Ht. apply (trace_ind_snoc step (fun log s => no_scripts s /\ Forall _ log)); [split; [done|constructor]|].
    intros ls s1 a s2 _ [Hn Hf] Hs. destruct (step_no_scripts s1 a s2 Hs Hn) as [H1 H2]. split; [done|]. apply Forall_app. split; [done|]. by apply Forall_singleton. }
  rewrite Forall_forall in Hf. split_and!.
  - intros script cron user r Hin. exact (Hf _ Hin).
  - intros r Hin. exact (Hf _ Hin).
  - intros id Hin. exact (Hf _ Hin).
  - intros a fresh now script cron t user uid jn sn input policy retries Ha Ec Hu. assert (truthy user = true) as Hy by (by destruct user). unfold create_nodus_scheduled_job, mbind, SE_bind, of_result, writes, mret, SE_ret. rewrite Ec, Hy, Hu.
    match goal with |- context [register_with_scheduler ?j t ?z] => destruct (register_fails j cron t z Ec) as (H1&_&H3); specialize (H3 a Ha); destruct (register_with_scheduler j t z) as [s' r] end.
    cbn in H1, H3. subst r. by eexists.
Qed.
End schedules.

(** A library with a list of jobs *)
Definition list_aps : aps (list aps_job) :=
  MkAps _ [] (fun j a => match aj_trigger j with
                         | LibraryTrigger _ _ => (List.filter (fun k => negb (aj_id k =s aj_id j)) a ++ [j], Ok tt)
                         | CronTrigger _ _ _ _ _ => (a, Raise (TypeError "Expected a trigger instance or string, got CronTrigger instead"))
                         end)
    (fun id a => (List.filter (fun k => negb (aj_id k =s id)) a, if existsb (fun k => aj_id k =s id) a then Ok tt else Raise (Exn "JobLookupError" id))) id.
#[export] Instance list_aps_laws : ApsLaws list_aps.
Proof.
  split; [done|done|..].
  - intros [id name [k kw|m h d mo w] arg] a x; cbn; [|by right]. rewrite elem_of_app, list_elem_of_singleton. intros [H|H]; [right|by left].
    rewrite list_elem_of_In in H |- *. by apply List.filter_In in H as [H _].
  - intros id a x. cbn. rewrite !list_elem_of_In. by intros [H _]%List.filter_In.
Qed.

(** A start with one job of the platform, then a request every five minutes *)
Lemma scheduled_scripts_never_run_witness :
  exists log s a, trace (step list_aps (fun _ _ x => (x, Ok ("SUCCESS", "success", JNull))) (fun _ x => (x, Ok []))) (MkState [] [] None tt) log s /\
    length log = 2%nat /\ s_scheduler s = Some a /\ length (List.filter sj_is_active (s_rows s)) = 1%nat /\ (forall id, LRun id ∉ log).
Proof.
  pose (job := MkApsJob "task_recurrence" "task_recurrence" (LibraryTrigger "interval" []) None).
  eexists _, _, _. match goal with |- ?P /\ _ => assert P as Ht end.
  { eapply trace_cons; [apply (step_start _ _ _ _ [job]); repeat constructor|]. eapply trace_cons; [|apply trace_nil].
    eapply (step_create _ _ _ _ (MkUUID 1) 0 "x" "*/5 * * * *" "" None None [] "fail" 3). reflexivity. }
  split_and!; [exact Ht|reflexivity|vm_compute; reflexivity|vm_compute; reflexivity|].
  exact (proj1 (proj2 (proj2 (scheduled_scripts_never_run list_aps _ _ _ _ _ _ _ Ht)))).
Defined.
